(* ===== verification/_CoqProject ===== *)
-Q . S2P
Prelude.v
Bytes.v
RStr.v
Decimal.v
Error.v
Utils.v
KvTree.v
Engines.v
Text.v
Env.v
Db.v
Keys.v
Globals.v
Frames.v
Short.v
RoomState.v
StateCompressor.v
Pdu.v
Timeline.v
StateAccessor.v
Users.v
StateCache.v
DeviceKeys.v
KeyBackups.v
Edus.v
Uiaa.v
Sending.v
SendingService.v
RoomIndex.v
ClientData.v
EventFormat.v
RoomUser.v
OpFrames.v
MembershipService.v
StateService.v
LazyLoading.v
Lookups.v
TimelineService.v
AuthChain.v
Federation.v
EventHandler.v
Request.v
Admin.v
Account.v
Membership.v
Rooms.v
RoomEvents.v
ServerServer.v
Sync.v
KeysApi.v
Profile.v
BackupApi.v
AccountDataApi.v
Directory.v
ClientMisc.v
Media.v
IpAddr.v
Destination.v
Delivery.v
Migrations.v
AdminCommands.v
Config.v
Concrete.v
ConcreteApi.v
ConcreteClient.v
Witnesses.v
WitnessesApi.v
WitnessesClient.v
