(* ===== verification/Prelude.v ===== *)
(** * A verification of the Conduit homeserver

    Conduit is a Matrix homeserver.  It keeps everything in ordered key-value
    trees ([src/database]); services on top of them ([src/service]) number
    events and states, store room states as differences, keep the timeline, the
    memberships, the devices and keys of users, and send events to other servers;
    HTTP handlers ([src/api]) call the services on behalf of clients and of other
    servers.  This library translates the storage layer, the services, the treatment
    of events of other servers, the handlers for clients and for federation, the
    requests the server makes itself, and its start, and proves what they promise to
    each other.

    ** How the code is modelled

    - A Rust function with effects is a function in the monad [M S] of [Error.v]:
      from a state to an outcome ([Ok], [Err] or [Panic], for [unwrap], [expect]
      and [assert!]) and a state.  An error keeps the writes made before it, as
      [?] does.  [DB] is the monad over the state of [Db.v].
    - The state is the record [State]: one tree per field of [KeyValueDatabase]
      (the constructors of [TreeId]), the in-memory caches, and the clock.  Trees
      are accessed through the class [KvTree], the trait of
      [src/database/abstraction.rs]; [db_map s t] is the finite map of a tree.
    - [u64] values are [N]; the counter, [to_be_bytes] and the arithmetic on
      positions wrap at [2 ^ 64] where the code wraps.  Theorems about positions
      assume that the counter is below the bound ([count_ok] or an explicit sum)
      and say so.
    - A Rust [String] is [rstr]: bytes that pass the UTF-8 validator of [RStr.v].
      Identifiers are strings that pass the grammar of their kind.
    - Third-party code is a parameter: the classes of [Env.v] ([Serde], [LruLib],
      [Ruma], [RawLib], [Env]), [RocksDB], [Sqlite] and [Persy] of [Engines.v],
      [FederationLib] of [SendingService.v], [EventLib] of [EventFormat.v],
      [TimelineLib] of [TimelineService.v], [HandlerLib] of [EventHandler.v],
      [HttpLib] of [Request.v], [ContentLib] of [Admin.v], [AccountLib] of
      [Account.v], [RoomLib] of [Rooms.v], [ServerLib] of [ServerServer.v], [SyncLib]
      of [Sync.v], [IndexSetLib] and [AccountDataLib] of [AccountDataApi.v],
      [DirectoryLib] of [Directory.v], [MiscLib] of [ClientMisc.v], [MediaLib] of
      [Media.v], [NetLib] and [OutgoingRequest] of [Destination.v], [GatewayLib] of
      [Delivery.v], [StartLib] of [Migrations.v] and [AdminLib] of [AdminCommands.v]
      list what is called and the documented behaviour relied upon.  [Concrete.v],
      [ConcreteApi.v] and [ConcreteClient.v] have instances of them.
    - Other servers, random strings and the clock are the class [Outside] of
      [Federation.v]: an arbitrary state machine that answers requests, about which
      nothing is assumed.  [Node] is a running server: [ServerState] (database,
      sending task, admin channel), the outside, rate limits and gathered keys; [NM]
      is the monad over it.  [MediaNode] adds the media directory, [Net] is the part of
      the server that finds addresses and sends requests.  A route takes a [Request] ([Ruma<T>]) whose sender was
      established by [from_request].
    - A method runs alone: locks and interleavings of two methods are not
      modelled, except between the sending task and the rest of the server, which
      is a transition system.

    ** Files

    Foundations.  [Prelude] (automation, lists, maps), [Bytes] (order of keys,
    big-endian integers), [RStr] (UTF-8, splitting at the separator [0xff]),
    [Decimal] ([u64::to_string]), [Error] ([utils/error.rs] and the monad),
    [Utils] ([utils/mod.rs]), [Text] (string functions, [HtmlEscape]), [KvTree]
    ([abstraction.rs]), [Engines] ([rocksdb.rs], [sqlite.rs], [persy.rs],
    [watchers.rs]), [Env], [Db] ([database/mod.rs]), [Keys] (joined
    keys), [Frames] and [OpFrames] (which trees an operation may change).

    Database, one file per file of [src/database/key_value]: [Globals],
    [Short], [RoomState] ([rooms/state.rs]), [StateCompressor] (with its service),
    [Pdu] and [EventFormat] ([service/pdu.rs]), [Timeline] ([rooms/timeline.rs],
    [rooms/outlier.rs]), [StateAccessor], [Users] and [DeviceKeys] ([users.rs]),
    [StateCache], [KeyBackups], [Edus] ([rooms/edus]), [Uiaa] (with its service),
    [Sending], [RoomIndex] (aliases, directory, lazy loading, metadata),
    [ClientData] (account data, appservices, pushers, media, transaction ids),
    [RoomUser] ([rooms/user.rs], [rooms/search.rs]).

    Services of [src/service]: [SendingService] ([sending/mod.rs]),
    [MembershipService] ([rooms/state_cache/mod.rs]), [StateService]
    ([rooms/state/mod.rs]), [LazyLoading] ([rooms/lazy_loading/mod.rs]),
    [TimelineService] ([rooms/timeline/mod.rs], [get_actions] of [pusher/mod.rs]),
    [AuthChain] ([rooms/auth_chain/mod.rs] with its tree).  [Lookups] shows that
    reading operations keep the invariants the services need.

    Other servers: [Federation] (requests, keys of other servers), [EventHandler]
    ([rooms/event_handler/mod.rs]); [IpAddr] (the grammar of addresses), [Destination]
    (finding, signing and sending in [server_server.rs], [appservice_server.rs]) and
    [Delivery] ([handle_events] of [sending/mod.rs], notices of [pusher/mod.rs]).

    Routes of [src/api]: [Request] ([ruma_wrapper/axum.rs]), [Admin]
    ([service/admin/mod.rs], contents of events), [Account] ([session.rs],
    [device.rs], [account.rs]), [Membership] ([membership.rs], [alias.rs]), [Rooms]
    ([room.rs]), [RoomEvents] ([state.rs], [message.rs], [redact.rs], [context.rs]),
    [ServerServer] ([server_server.rs]), [Sync] ([sync.rs]), [KeysApi] ([keys.rs]),
    [Profile] ([profile.rs], [presence.rs]), [BackupApi] ([backup.rs]),
    [AccountDataApi] ([push.rs], [tag.rs], [config.rs]), [Directory] ([directory.rs],
    [user_directory.rs], [search.rs]), [ClientMisc] (typing, to-device messages,
    filters, receipts, reports, capabilities, TURN), [Media] ([media.rs] and
    [service/media/mod.rs]), [AdminCommands] (the commands of
    [service/admin/mod.rs]).

    Start: [Migrations] ([database/mod.rs]), [Config] ([config/proxy.rs], [load] of
    [service/globals/mod.rs]).

    [Concrete], [ConcreteApi] and [ConcreteClient] instantiate the parameters;
    [Witnesses], [WitnessesApi] and [WitnessesClient] apply the theorems with
    hypotheses to concrete data.

    ** What the theorems show

    - Storage: the three engines give the same answers to every sequence of
      operations ([Engines]).
    - State: a state saved as differences is loaded again as the set it was, in at
      most four layers; merging two differences is their composition; the text
      of a difference is read back ([StateCompressor]).  A state event becomes the
      entry of its key and of no other; the state of an incoming event is stored
      whole; the auth events are those of the current state ([StateService]).
    - Events: what is appended is read back by event id and by position; ranges of
      the timeline list exactly the events between their ends, in order
      ([Timeline]); numbers of events are a bijection ([Short]); the search for an
      auth chain ends and finds the transitive closure ([AuthChain]); what leaves
      for other servers has no private fields ([EventFormat]).
    - Timeline: an event of a local user is authorised by the current state,
      stored, made the forward extremity, applied to the state of the room and
      queued for the servers of the room; one that is refused leaves no trace; an
      appended event is stored even when a later step fails; a soft-failed event
      is not shown ([TimelineService]).
    - Membership: the six trees implement one map from users and rooms to
      memberships, under every sequence of operations; member events move exactly
      their user ([StateCache], [MembershipService]).
    - Sending: a queued request stays queued or active, also over a restart of the
      task, until its transaction succeeds, its appservice is removed, or a restart
      finds too many active requests for its destination; a destination has at most one
      transaction; a failed one waits exponentially longer ([SendingService]).
    - Accounts: tokens identify devices, removal removes, one-time keys are handed
      out once, to-device messages are kept in order and dropped once confirmed;
      authentication needs its stages ([Users], [DeviceKeys], [Uiaa]).
    - Client data: the latest account data is what is read, typing and lazy
      loading implement their protocols, search finds the events with all words
      ([ClientData], [Edus], [LazyLoading], [RoomUser]).
    - Incoming events: an event of another server is stored only if its
      signatures are valid under the keys that were gathered, its content has the claimed
      hash or was redacted, and all its authorisation events that are known allow it; no
      run, successful or not, changes the timeline or the state of the room unless the
      state before the event and the current state allow it; fetching events changes nothing
      but outliers and keys ([EventHandler]); the keys found for a server are
      complete and stored ([Federation]).
    - Requests: the sender of a request is the one whose token or signature it
      carries; the header one server writes is the one another reads ([Request]).
    - Routes: a login replaces the token of its device and leaves the others
      ([Account]); a remote join stores only events with valid signatures and enters the room
      only in a supported version and with a state that allows it, restricted joins are vouched
      for by a member, an invitation can always be refused ([Membership]); a new room
      has the version, the alias and the visibility asked for ([Rooms]); paging through a room loses nothing, a transaction id
      sends once, state is shown to members ([RoomEvents]); the search for missing
      events ends and stays in its room ([ServerServer]).
    - Synchronisation: the timeline of a sync is the end of the events after its
      token without the transaction ids of others, its state part is the difference of
      the two states with the members the device does not know, messages to the
      device are removed once a token confirms them ([Sync]).
    - Keys and backups: the storage of keys stays well formed under every sequence
      of requests, and claiming hands out each one-time key once ([KeysApi]); the
      backup routes implement an abstract backup ([BackupApi]).
    - Client routes: a change of a push rule or a tag changes what later requests and
      notifications read and nothing else ([AccountDataApi]); paging through the
      directory ends and shows every room once unless pages are empty, a search shows events of joined rooms
      only, a user search hides those who share nothing ([Directory]); messages to
      devices are sent once, filters are read back, reports are checked
      ([ClientMisc]); a name is stored before it is announced ([Profile]).
    - Media: what is stored is read back, thumbnails fit their size and are made once,
      files of other servers are fetched once ([Media]).
    - Requests to others: a signed request is one the receiver can verify, finding an
      address always ends, the address that is remembered is the one that gave a valid answer
      ([Destination]); a transaction has exactly the stored events and is named by their
      hash ([Delivery]); the most specific rule decides about a proxy ([Config]).
    - Start and administration: migrations end at the latest version; a server with
      users does not start on a database of a newer version, and on one of the latest version
      it clears presence and writes little else; a database of another server name is
      refused ([Migrations]); commands for many users spare the accounts of admins
      ([AdminCommands]).

    Some theorems state behaviour that looks unintended: a replaced event is
    still answered from the cache ([replace_pdu_stale]), the password stage passes
    for users that do not exist ([try_auth_unknown_user]), the latest key backup
    is the latest in the order of decimal text ([latest_backup_by_text]),
    appending an event can fail after it was stored ([append_pdu_bad_message]), an
    event that authorises itself is fetched without end ([self_reference_diverges]),
    key searches of one server block another ([fetch_signing_keys_blocked]), any
    password opens the password stage ([change_password_other_user]), a join accepts
    events with wrong hashes ([join_state_bad_hash]), events of any room can be read
    ([get_room_event_any_room]), device messages can be sent in the name of others
    ([spoofed_to_device]), the error of a sync is kept ([sync_error_sticky]), other
    servers can replace keys in an answer ([remote_keys_override]), only the last of
    several devices is answered ([get_keys_last_device]), presence cannot be read
    ([get_presence_panics]), enabling a push rule moves it ([enabling_reorders]), a
    failed upload leaves a broken file ([failed_upload_sticks]), remote thumbnails are
    lost or replace the file ([remote_thumbnail_lost], [thumbnail_becomes_file]), an
    IPv6 name loses its port ([ipv6_loses_default_port]), failed push notices count as
    sent ([push_failure_ignored]), an unreadable key pair is replaced
    ([bad_keypair_replaced]).

    ** Loops and fuel

    [load_layers] recurses on fuel, the number of stored differences plus one:
    parents have smaller numbers, and the theorems show the stack is found.  The
    reader of a difference recurses on the length of its bytes.  [chain_loop] takes
    fuel as an argument; [get_auth_chain_inner_correct] says how much is enough in
    terms of the events that can be reached and of their auth events.
    [handle_outlier_pdu] and [fetch_chain] take fuel too; no fuel is enough for every
    answer of another server ([self_reference_diverges]), so their theorems are
    about the runs that return.  [prev_loop] has a number of rounds, which
    [prev_search_terminates] bounds; [missing_loop] is shown to end
    ([missing_events_terminate]); [random_user] draws names until one is free
    ([random_user_returns]).  Running out of fuel is a panic of its own, never a
    result.  [replace_all], [trim_start] and [insert_chunks] get the length of their argument as
    fuel, of which each round uses up at least one; [follow_next], the client of
    [directory_pages], gets one page more than there are rooms.  The merge of a message
    search is iterated as often as the request says, as in the code.  All other loops
    are over lists.

    ** Not modelled

    [main.rs]: reading the configuration, logging, the tables of routes and the HTTP
    server, which are glue over axum and hyper.  The record of configuration values and
    their defaults: a value is a parameter where it is used.  Opening an engine and its
    files, the sizes of caches and the periodic cleanup.  The records of services of
    [service/mod.rs] and the methods that only forward to the database.  Futures that
    wait for a change ([watch]), locks and permits: an operation runs alone.  The
    engines of [sled.rs] and [heed.rs], which implement a trait that the program no
    longer has and cannot be compiled. *)

From Stdlib Require Export Strings.Byte NArith Lia.
From stdpp Require Export base gmap list numbers strings sorting.

#[global] Set Default Goal Selector "!".
Open Scope N_scope.

(** ** Proof automation of the development *)

(** Facts about byte strings and their order. *)
Create HintDb kv.

(** Destructs the scrutinee of a [match] or [if] in the goal or a hypothesis,
    keeping the equation, and discards the contradictory branches. *)
Ltac split_match :=
  match goal with
  | |- context [match ?x with _ => _ end] => destruct x eqn:?; simplify_eq/=
  | H : context [match ?x with _ => _ end] |- _ => destruct x eqn:?; simplify_eq/=
  end.

(** Evaluates a decidable statement. *)
Ltac by_compute := apply (bool_decide_unpack _); vm_compute; exact I.

Ltac crush := repeat (split_match || naive_solver || case_decide); naive_solver lia.

(** ** Bytes *)

Abbreviation byte := Byte.byte.
Abbreviation bytes := (list Byte.byte).

#[export] Instance byte_eq_decision : EqDecision byte := Byte.byte_eq_dec.

#[export] Instance byte_countable : Countable byte :=
  inj_countable Byte.to_N Byte.of_N Byte.of_to_N.

(** The low eight bits of an integer. *)
Definition byte_of_N (n : N) : byte := default x00 (Byte.of_N (n mod 256)).

Lemma to_N_lt (b : byte) : Byte.to_N b < 256.
Proof. pose proof (Byte.to_N_bounded b). lia. Qed.

Lemma to_N_byte_of_N (n : N) : Byte.to_N (byte_of_N n) = n mod 256.
Proof.
  unfold byte_of_N. destruct (Byte.of_N (n mod 256)) eqn:E; simpl.
  - by apply Byte.to_of_N in E.
  - apply Byte.of_N_None_iff in E. pose proof (N.mod_lt n 256). lia.
Qed.

#[export] Instance to_N_inj : Inj (=) (=) Byte.to_N.
Proof.
  intros a b E. pose proof (Byte.of_to_N a) as Ha.
  rewrite E, Byte.of_to_N in Ha. congruence.
Qed.

Lemma byte_of_N_to_N (b : byte) : byte_of_N (Byte.to_N b) = b.
Proof.
  apply (inj Byte.to_N). rewrite to_N_byte_of_N, N.mod_small; [done|apply to_N_lt].
Qed.

(** The separator [0xff] the database puts between the parts of a key. *)
Definition sep : byte := xff.

(** ** Lists *)

Fixpoint take_while {A} (f : A → bool) (l : list A) : list A :=
  match l with
  | [] => []
  | x :: l => if f x then x :: take_while f l else []
  end.

(** [Iterator::filter_map]. *)
Definition filter_map {A B} (f : A → option B) (l : list A) : list B := omap f l.

Section lists.
Context {A : Type}.
Implicit Types (f : A → bool) (l : list A).

(** Once [f] has failed along an [R]-sorted list it keeps failing, so
    [take_while] stops at the right place and loses nothing. *)
Lemma take_while_filter (R : relation A) f l :
  StronglySorted R l →
  (∀ x y, R x y → f x = false → f y = false) →
  take_while f l = filter (λ x, f x = true) l.
Proof.
  intros Hs Hf. induction Hs as [|x l Hs IH Hall]; [done|].
  rewrite filter_cons. simpl. destruct (f x) eqn:Ex.
  - by rewrite decide_True, IH.
  - rewrite decide_False by congruence. symmetry.
    rewrite Forall_forall in Hall.
    destruct (filter _ l) as [|y l'] eqn:E; [done|].
    assert (y ∈ filter (λ x, f x = true) l) as Hy by (rewrite E; left).
    apply list_elem_of_filter in Hy as [Hfy Hin].
    by rewrite (Hf x y) in Hfy by auto.
Qed.

Lemma StronglySorted_filter (R : relation A) (P : A → Prop) `{!∀ x, Decision (P x)} l :
  StronglySorted R l → StronglySorted R (filter P l).
Proof.
  induction 1 as [|x l Hs IH Hall]; [constructor|].
  rewrite filter_cons. case_decide; [|done]. constructor; [done|].
  rewrite Forall_forall in Hall |- *.
  intros y [_ ?]%list_elem_of_filter. auto.
Qed.

Lemma StronglySorted_reverse (R : relation A) l :
  StronglySorted R l → StronglySorted (flip R) (reverse l).
Proof.
  induction 1 as [|x l Hs IH Hall]; [constructor|].
  rewrite reverse_cons. revert IH.
  assert (Forall (λ y, flip R y x) (reverse l)) as Hr.
  { rewrite Forall_forall in Hall |- *. intros y. rewrite elem_of_reverse. apply Hall. }
  revert Hr. generalize (reverse l). clear. intros l Hr Hs.
  induction Hs as [|y l Hs IH Hall]; simpl; [repeat constructor|].
  apply Forall_cons in Hr as [Hy Hr]. constructor; [auto|].
  apply Forall_app; auto.
Qed.

(** A strictly sorted list is determined by its elements. *)
Lemma StronglySorted_unique (R : relation A) `{!StrictOrder R} l1 l2 :
  StronglySorted R l1 → StronglySorted R l2 →
  (∀ x, x ∈ l1 ↔ x ∈ l2) → l1 = l2.
Proof.
  intros H1. revert l2. induction H1 as [|x l1 Hs1 IH Hall1]; intros l2 H2 Heq.
  - destruct l2 as [|y l2]; [done|]. exfalso.
    apply (not_elem_of_nil y), Heq. left.
  - destruct H2 as [|y l2 Hs2 Hall2].
    { exfalso. apply (not_elem_of_nil x), Heq. left. }
    rewrite Forall_forall in Hall1, Hall2.
    assert (x = y) as ->.
    { assert (x ∈ y :: l2) as Hx by (apply Heq; left).
      assert (y ∈ x :: l1) as Hy by (apply Heq; left).
      apply elem_of_cons in Hx as [->|Hx]; [done|].
      apply elem_of_cons in Hy as [->|Hy]; [done|].
      destruct (irreflexivity R x). etrans; eauto. }
    f_equal. apply IH; [done|]. intros z.
    specialize (Heq z). rewrite !elem_of_cons in Heq.
    split; intros Hz.
    + destruct (proj1 Heq (or_intror Hz)) as [->|]; [|done].
      destruct (irreflexivity R y); auto.
    + destruct (proj2 Heq (or_intror Hz)) as [->|]; [|done].
      destruct (irreflexivity R y); auto.
Qed.

Lemma filter_ext_in (P Q : A → Prop) `{!∀ x, Decision (P x)} `{!∀ x, Decision (Q x)} l :
  (∀ x, x ∈ l → P x ↔ Q x) → filter P l = filter Q l.
Proof.
  induction l as [|x l IH]; intros HPQ; [done|]. rewrite !filter_cons, IH.
  - assert (P x ↔ Q x) by (apply HPQ; left). do 2 case_decide; done || tauto.
  - intros y Hy. apply HPQ. by right.
Qed.

Lemma take_while_head f l x : head (take_while f l) = Some x → f x = true ∧ head l = Some x.
Proof. destruct l as [|y l]; [done|]. simpl. crush. Qed.

Lemma StronglySorted_lookup (R : relation A) l i j x y :
  StronglySorted R l → (i < j)%nat → l !! i = Some x → l !! j = Some y → R x y.
Proof.
  intros Hs. revert i j. induction Hs as [|z l Hs IH Hall]; intros i j Hij Hi Hj; [done|].
  rewrite Forall_forall in Hall. destruct j as [|j]; [lia|]. destruct i as [|i]; simplify_eq/=.
  - apply Hall. eapply list_elem_of_lookup_2; eauto.
  - apply (IH i j); auto; lia.
Qed.

Lemma NoDup_sorted (R : relation A) `{!Irreflexive R} l : StronglySorted R l → NoDup l.
Proof.
  induction 1 as [|x l Hs IH Hall]; constructor; [|done].
  rewrite Forall_forall in Hall. intros Hx. by apply (irreflexivity R x), Hall.
Qed.
End lists.

Lemma StronglySorted_fmap {A B} (R : relation A) (S : relation B) (g : A → B) l :
  (∀ x y, x ∈ l → y ∈ l → R x y → S (g x) (g y)) →
  StronglySorted R l → StronglySorted S (g <$> l).
Proof.
  intros Hg Hs. revert Hg. induction Hs as [|x l Hs IH Hall]; intros Hg; simpl; constructor.
  - apply IH. intros. apply Hg; [by right|by right|done].
  - rewrite Forall_forall in Hall. change (list_fmap A B g l) with (g <$> l). apply Forall_forall.
    intros y (z & -> & Hz)%list_elem_of_fmap. apply Hg; [left|by right|auto].
Qed.
