(* ===== verification/Bytes.v ===== *)
(** * Byte strings: the order of the database keys, big-endian integers,
    splitting at the separator, and Rust strings as valid UTF-8.

    These are the parts of Rust's standard library the storage layer is built
    from: [Ord] on [[u8]], [u64::to_be_bytes]/[from_be_bytes], [slice::split],
    [splitn], [rsplit], [starts_with] and [String::from_utf8]. *)

From S2P Require Import Prelude.

(** ** Lexicographic order *)

Fixpoint bytes_cmp (a b : bytes) : comparison :=
  match a, b with
  | [], [] => Eq
  | [], _ :: _ => Lt
  | _ :: _, [] => Gt
  | x :: a, y :: b =>
      match Byte.to_N x ?= Byte.to_N y with
      | Eq => bytes_cmp a b
      | c => c
      end
  end.

Definition bytes_lt (a b : bytes) : Prop := bytes_cmp a b = Lt.
Definition bytes_le (a b : bytes) : Prop := bytes_cmp a b ≠ Gt.

Declare Scope bytes_scope.
Delimit Scope bytes_scope with bytes.
Notation "a <b b" := (bytes_lt a b) (at level 70) : bytes_scope.
Notation "a ≤b b" := (bytes_le a b) (at level 70) : bytes_scope.
Open Scope bytes_scope.

#[export] Instance bytes_lt_dec : RelDecision bytes_lt.
Proof. intros a b. unfold bytes_lt. apply _. Defined.
#[export] Instance bytes_le_dec : RelDecision bytes_le.
Proof. intros a b. unfold bytes_le. apply _. Defined.

Lemma bytes_cmp_refl a : bytes_cmp a a = Eq.
Proof. induction a as [|x a IH]; simpl; [done|]. by rewrite N.compare_refl. Qed.

Lemma bytes_cmp_eq a b : bytes_cmp a b = Eq ↔ a = b.
Proof.
  split; [|intros ->; apply bytes_cmp_refl].
  revert b. induction a as [|x a IH]; intros [|y b]; simpl; try done.
  destruct (N.compare_spec (Byte.to_N x) (Byte.to_N y)) as [E|E|E]; try done.
  apply (inj Byte.to_N) in E as ->. intros ?%IH. by subst.
Qed.

Lemma bytes_cmp_antisym a b : bytes_cmp b a = CompOpp (bytes_cmp a b).
Proof.
  revert b. induction a as [|x a IH]; intros [|y b]; simpl; try done.
  rewrite (N.compare_antisym (Byte.to_N x)).
  destruct (Byte.to_N x ?= Byte.to_N y); simpl; auto.
Qed.

Lemma bytes_lt_trans a b c : a <b b → b <b c → a <b c.
Proof.
  unfold bytes_lt. revert b c. induction a as [|x a IH]; intros [|y b] [|z c]; simpl; try done.
  destruct (N.compare_spec (Byte.to_N x) (Byte.to_N y)) as [E1|E1|E1]; try done;
  destruct (N.compare_spec (Byte.to_N y) (Byte.to_N z)) as [E2|E2|E2]; try done;
  destruct (N.compare_spec (Byte.to_N x) (Byte.to_N z)) as [E3|E3|E3]; try done; try lia.
  apply IH.
Qed.

#[export] Instance bytes_lt_strict : StrictOrder bytes_lt.
Proof.
  split; [|intros a b c; apply bytes_lt_trans].
  intros a. unfold bytes_lt, complement. by rewrite bytes_cmp_refl.
Qed.

Lemma bytes_le_lt_eq a b : a ≤b b ↔ a <b b ∨ a = b.
Proof.
  unfold bytes_le, bytes_lt. rewrite <- (bytes_cmp_eq a b).
  destruct (bytes_cmp a b); naive_solver.
Qed.

Lemma bytes_nle_gt a b : ¬ a ≤b b ↔ b <b a.
Proof.
  unfold bytes_le, bytes_lt. rewrite (bytes_cmp_antisym b a).
  destruct (bytes_cmp b a); naive_solver.
Qed.

Lemma bytes_nlt_ge a b : ¬ a <b b ↔ b ≤b a.
Proof.
  unfold bytes_le, bytes_lt. rewrite (bytes_cmp_antisym b a).
  destruct (bytes_cmp b a); naive_solver.
Qed.

Lemma bytes_le_refl a : a ≤b a.
Proof. apply bytes_le_lt_eq. auto. Qed.
#[export] Hint Resolve bytes_le_refl : kv.

Lemma bytes_lt_le_trans a b c : a <b b → b ≤b c → a <b c.
Proof. intros ? [?| ->]%bytes_le_lt_eq; [|done]. by etrans. Qed.

Lemma bytes_le_lt_trans a b c : a ≤b b → b <b c → a <b c.
Proof. intros [?| ->]%bytes_le_lt_eq ?; [|done]. by etrans. Qed.

Lemma bytes_le_trans a b c : a ≤b b → b ≤b c → a ≤b c.
Proof.
  intros H1 [?| ->]%bytes_le_lt_eq; [|done].
  apply bytes_le_lt_eq. left. by eapply bytes_le_lt_trans.
Qed.

Lemma bytes_cmp_app p a b : bytes_cmp (p ++ a) (p ++ b) = bytes_cmp a b.
Proof. induction p as [|x p IH]; simpl; [done|]. by rewrite N.compare_refl. Qed.

Lemma bytes_lt_app p a b : (p ++ a) <b (p ++ b) ↔ a <b b.
Proof. unfold bytes_lt. by rewrite bytes_cmp_app. Qed.

Lemma bytes_le_app p a b : (p ++ a) ≤b (p ++ b) ↔ a ≤b b.
Proof. unfold bytes_le. by rewrite bytes_cmp_app. Qed.

Lemma bytes_nil_le a : [] ≤b a.
Proof. by destruct a. Qed.
#[export] Hint Resolve bytes_nil_le : kv.

Lemma bytes_le_prefix p k : p `prefix_of` k → p ≤b k.
Proof.
  intros [r ->]. rewrite <- (app_nil_r p) at 1. apply bytes_le_app. auto with kv.
Qed.

(** The order decides at the first difference, whatever follows it. *)
Lemma bytes_lt_app_r a b r s : length a = length b → a <b b → (a ++ r) <b (b ++ s).
Proof.
  unfold bytes_lt. revert b. induction a as [|x a IH]; intros [|y b] Hl; simpl; try done.
  injection Hl as Hl. destruct (Byte.to_N x ?= Byte.to_N y); try done. by apply IH.
Qed.

(** ** Prefixes: [starts_with] *)

Definition starts_with (k p : bytes) : bool := bool_decide (p `prefix_of` k).

Lemma starts_with_iff k p : starts_with k p = true ↔ p `prefix_of` k.
Proof. unfold starts_with. apply bool_decide_eq_true. Qed.

Lemma starts_with_false k p : starts_with k p = false ↔ ¬ p `prefix_of` k.
Proof. unfold starts_with. apply bool_decide_eq_false. Qed.

Lemma starts_with_app p r : starts_with (p ++ r) p = true.
Proof. apply starts_with_iff. by exists r. Qed.

(** The keys with a given prefix are consecutive in the order. *)
Lemma prefix_convex p a b c :
  a ≤b b → b ≤b c → p `prefix_of` a → p `prefix_of` c → p `prefix_of` b.
Proof.
  unfold bytes_le. revert a b c.
  induction p as [|x p IH]; intros a b c Hab Hbc Ha Hc; [apply prefix_nil|].
  destruct Ha as [ra ->], Hc as [rc ->]. simpl in *. destruct b as [|y b]; [done|].
  simpl in *.
  destruct (N.compare_spec (Byte.to_N x) (Byte.to_N y)) as [E|E|E]; try done.
  - apply (inj Byte.to_N) in E as <-. rewrite N.compare_refl in Hbc.
    apply prefix_cons. eapply (IH (p ++ ra) b (p ++ rc)); eauto using prefix_app_r.
  - apply N.compare_gt_iff in E. by rewrite E in Hbc.
Qed.

(** ** Big-endian integers: [to_be_bytes], [from_be_bytes] *)

Fixpoint to_be (k : nat) (n : N) : bytes :=
  match k with
  | O => []
  | S k => byte_of_N (n / 256 ^ N.of_nat k) :: to_be k n
  end.

Definition from_be (bs : bytes) : N :=
  foldl (λ acc b, acc * 256 + Byte.to_N b) 0 bs.

(** The widths the code uses. *)
Definition u64_max : N := 2 ^ 64 - 1.
Definition u64 (n : N) : Prop := n < 2 ^ 64.
Definition wrap64 (n : N) : N := n mod 2 ^ 64.
Definition to_be_bytes : N → bytes := to_be 8.
Definition u32_to_be_bytes : N → bytes := to_be 4.

#[export] Instance u64_dec n : Decision (u64 n).
Proof. unfold u64. apply _. Defined.

Lemma length_to_be k n : length (to_be k n) = k.
Proof. induction k; simpl; auto. Qed.

Lemma foldl_be acc bs :
  foldl (λ acc b, acc * 256 + Byte.to_N b) acc bs = acc * 256 ^ N.of_nat (length bs) + from_be bs.
Proof.
  unfold from_be. revert acc. induction bs as [|b bs IH]; intros acc; [simpl; lia|].
  cbn [foldl length]. rewrite (IH (acc * 256 + _)), (IH (0 * 256 + _)).
  rewrite Nat2N.inj_succ, N.pow_succ_r'. lia.
Qed.

Lemma from_be_cons b bs :
  from_be (b :: bs) = Byte.to_N b * 256 ^ N.of_nat (length bs) + from_be bs.
Proof. unfold from_be at 1. cbn [foldl]. rewrite foldl_be. lia. Qed.

Lemma from_be_bound bs : from_be bs < 256 ^ N.of_nat (length bs).
Proof.
  induction bs as [|b bs IH]; [done|]. rewrite from_be_cons. cbn [length].
  rewrite Nat2N.inj_succ, N.pow_succ_r'. pose proof (to_N_lt b). nia.
Qed.

Lemma from_to_be k n : from_be (to_be k n) = n mod 256 ^ N.of_nat k.
Proof.
  induction k as [|k IH]; [by rewrite N.mod_1_r|].
  cbn [to_be]. rewrite from_be_cons, to_N_byte_of_N, length_to_be, IH.
  rewrite Nat2N.inj_succ, N.pow_succ_r', (N.mul_comm 256).
  rewrite N.Div0.mod_mul_r. lia.
Qed.

Lemma to_be_add k n m : to_be k (m * 256 ^ N.of_nat k + n) = to_be k n.
Proof.
  revert m. induction k as [|k IH]; intros m; [done|]. cbn [to_be].
  rewrite Nat2N.inj_succ, N.pow_succ_r'.
  replace (m * (256 * 256 ^ N.of_nat k) + n) with ((m * 256) * 256 ^ N.of_nat k + n) by lia.
  rewrite IH. f_equal. apply (inj Byte.to_N). rewrite !to_N_byte_of_N.
  rewrite N.div_add_l by (apply N.pow_nonzero; lia).
  rewrite N.add_comm, N.Div0.mod_add. done.
Qed.

Lemma to_from_be bs : to_be (length bs) (from_be bs) = bs.
Proof.
  induction bs as [|b bs IH]; [done|]. cbn [length to_be].
  pose proof (from_be_bound bs) as Hb.
  rewrite from_be_cons, to_be_add, IH. f_equal.
  rewrite N.div_add_l, N.div_small, N.add_0_r by (try apply N.pow_nonzero; lia).
  apply byte_of_N_to_N.
Qed.

Lemma from_be_inj a b : length a = length b → from_be a = from_be b → a = b.
Proof. intros Hl E. rewrite <- (to_from_be a), <- (to_from_be b). by rewrite Hl, E. Qed.

(** Byte order on equal lengths is numeric order. *)
Lemma from_be_cmp a b : length a = length b → bytes_cmp a b = (from_be a ?= from_be b).
Proof.
  revert b. induction a as [|x a IH]; intros [|y b] Hl; try done.
  injection Hl as Hl. cbn [bytes_cmp]. rewrite (IH b Hl), !from_be_cons, Hl.
  pose proof (from_be_bound a) as Ha. pose proof (from_be_bound b) as Hb. rewrite Hl in Ha.
  set (w := 256 ^ N.of_nat (length b)) in *.
  destruct (N.compare_spec (Byte.to_N x) (Byte.to_N y)) as [E|E|E];
    symmetry.
  - rewrite E. destruct (N.compare_spec (from_be a) (from_be b));
      [apply N.compare_eq_iff|apply N.compare_lt_iff|apply N.compare_gt_iff]; lia.
  - apply N.compare_lt_iff. nia.
  - apply N.compare_gt_iff. nia.
Qed.

Section be64.
Implicit Types n m : N.

Lemma length_to_be_bytes n : length (to_be_bytes n) = 8%nat.
Proof. apply length_to_be. Qed.

Lemma from_to_be_bytes n : from_be (to_be_bytes n) = wrap64 n.
Proof. unfold to_be_bytes. rewrite from_to_be. done. Qed.

Lemma wrap64_small n : u64 n → wrap64 n = n.
Proof. apply N.mod_small. Qed.

Lemma wrap64_u64 n : u64 (wrap64 n).
Proof. apply N.mod_lt. done. Qed.

Lemma from_be_u64 bs : length bs = 8%nat → u64 (from_be bs).
Proof. intros Hl. pose proof (from_be_bound bs) as H. rewrite Hl in H. exact H. Qed.

Lemma to_be_bytes_from_be bs : length bs = 8%nat → to_be_bytes (from_be bs) = bs.
Proof. intros Hl. unfold to_be_bytes. rewrite <- Hl. apply to_from_be. Qed.

Lemma to_be_bytes_wrap n : to_be_bytes (wrap64 n) = to_be_bytes n.
Proof. rewrite <- from_to_be_bytes. apply to_be_bytes_from_be, length_to_be_bytes. Qed.

Lemma to_be_bytes_inj n m : u64 n → u64 m → to_be_bytes n = to_be_bytes m → n = m.
Proof.
  intros Hn Hm E. apply (f_equal from_be) in E.
  rewrite !from_to_be_bytes, !wrap64_small in E; auto.
Qed.

Lemma to_be_bytes_cmp n m :
  u64 n → u64 m → bytes_cmp (to_be_bytes n) (to_be_bytes m) = (n ?= m).
Proof.
  intros Hn Hm. rewrite from_be_cmp by by rewrite !length_to_be_bytes.
  by rewrite !from_to_be_bytes, !wrap64_small.
Qed.

Lemma to_be_bytes_lt n m : u64 n → u64 m → to_be_bytes n <b to_be_bytes m ↔ n < m.
Proof. intros. unfold bytes_lt. rewrite to_be_bytes_cmp by done. apply N.compare_lt_iff. Qed.

Lemma to_be_bytes_le n m : u64 n → u64 m → to_be_bytes n ≤b to_be_bytes m ↔ n ≤ m.
Proof. intros. unfold bytes_le. rewrite to_be_bytes_cmp by done. apply N.compare_le_iff. Qed.
End be64.
#[export] Hint Resolve wrap64_u64 from_be_u64 length_to_be_bytes : kv.

Lemma to_be_bytes_nonnil n : to_be_bytes n ≠ [].
Proof. intros E. apply (f_equal length) in E. by rewrite length_to_be_bytes in E. Qed.

#[global] Arguments to_be_bytes : simpl never.
#[global] Arguments u32_to_be_bytes : simpl never.
#[global] Arguments wrap64 : simpl never.
