(* ===== verification/RStr.v ===== *)
(** * Rust strings and the separator of the database keys

    [String::from_utf8] as an executable validator, Rust's [String]/[&str] as
    its subset type, and [slice::split]/[splitn]/[rsplit] at the separator
    [0xff].  No valid UTF-8 string contains the byte [0xff]: this is why the
    code may join strings with it, and every key-layout argument of the
    development rests on [str_no_sep]. *)

From S2P Require Import Prelude Bytes.

(** ** UTF-8 *)

Definition in_range (lo hi : N) (b : byte) : bool :=
  (lo <=? Byte.to_N b) && (Byte.to_N b <=? hi).

(** A continuation byte. *)
Definition cont : byte → bool := in_range 0x80 0xbf.

(** The well-formed sequences of two, three and four bytes. *)
Definition utf8_seq2 (b0 b1 : byte) : bool := in_range 0xc2 0xdf b0 && cont b1.

Definition utf8_seq3 (b0 b1 b2 : byte) : bool :=
  ((in_range 0xe0 0xe0 b0 && in_range 0xa0 0xbf b1)
   || (in_range 0xe1 0xec b0 && cont b1)
   || (in_range 0xed 0xed b0 && in_range 0x80 0x9f b1)
   || (in_range 0xee 0xef b0 && cont b1)) && cont b2.

Definition utf8_seq4 (b0 b1 b2 b3 : byte) : bool :=
  ((in_range 0xf0 0xf0 b0 && in_range 0x90 0xbf b1)
   || (in_range 0xf1 0xf3 b0 && cont b1)
   || (in_range 0xf4 0xf4 b0 && in_range 0x80 0x8f b1)) && cont b2 && cont b3.

Fixpoint utf8_valid (bs : bytes) : bool :=
  match bs with
  | [] => true
  | b0 :: r0 =>
      if in_range 0 0x7f b0 then utf8_valid r0
      else match r0 with
           | [] => false
           | b1 :: r1 =>
               if utf8_seq2 b0 b1 then utf8_valid r1
               else match r1 with
                    | [] => false
                    | b2 :: r2 =>
                        if utf8_seq3 b0 b1 b2 then utf8_valid r2
                        else match r2 with
                             | [] => false
                             | b3 :: r3 => utf8_seq4 b0 b1 b2 b3 && utf8_valid r3
                             end
                    end
           end
  end.

Lemma in_range_iff lo hi b : in_range lo hi b = true ↔ lo ≤ Byte.to_N b ∧ Byte.to_N b ≤ hi.
Proof. unfold in_range. rewrite andb_true_iff, !N.leb_le. done. Qed.

Ltac utf8_ranges :=
  repeat match goal with
  | H : _ && _ = true |- _ => apply andb_true_iff in H as [? ?]
  | H : _ || _ = true |- _ => apply orb_true_iff in H as [?|?]
  | H : in_range _ _ _ = true |- _ => apply in_range_iff in H as [? ?]
  end.

Lemma byte_le_no_sep b : Byte.to_N b ≤ 0xf4 → b ≠ sep.
Proof. intros Hb ->. by apply Hb. Qed.

Lemma utf8_seq2_no_sep b0 b1 : utf8_seq2 b0 b1 = true → b0 ≠ sep ∧ b1 ≠ sep.
Proof. unfold utf8_seq2, cont. intros. utf8_ranges; split; apply byte_le_no_sep; lia. Qed.

Lemma utf8_seq3_no_sep b0 b1 b2 :
  utf8_seq3 b0 b1 b2 = true → b0 ≠ sep ∧ b1 ≠ sep ∧ b2 ≠ sep.
Proof.
  unfold utf8_seq3, cont. intros. utf8_ranges; repeat split; apply byte_le_no_sep; lia.
Qed.

Lemma utf8_seq4_no_sep b0 b1 b2 b3 :
  utf8_seq4 b0 b1 b2 b3 = true → b0 ≠ sep ∧ b1 ≠ sep ∧ b2 ≠ sep ∧ b3 ≠ sep.
Proof.
  unfold utf8_seq4, cont. intros. utf8_ranges; repeat split; apply byte_le_no_sep; lia.
Qed.

Lemma utf8_no_sep bs : utf8_valid bs = true → sep ∉ bs.
Proof.
  remember (length bs) as n eqn:Hn. revert bs Hn.
  induction (lt_wf n) as [n _ IH]. intros bs -> Hv.
  destruct bs as [|b0 r0]; [apply not_elem_of_nil|]. cbn [utf8_valid] in Hv.
  destruct (in_range 0 0x7f b0) eqn:E1.
  { apply in_range_iff in E1 as [_ E1]. apply not_elem_of_cons. split.
    - intros <-. by apply E1.
    - eapply IH; [|reflexivity|done]. simpl. lia. }
  destruct r0 as [|b1 r1]; [done|]. destruct (utf8_seq2 b0 b1) eqn:E2.
  { apply utf8_seq2_no_sep in E2 as [??]. rewrite !not_elem_of_cons.
    repeat split; auto. eapply IH; [|reflexivity|done]. simpl. lia. }
  destruct r1 as [|b2 r2]; [done|]. destruct (utf8_seq3 b0 b1 b2) eqn:E3.
  { apply utf8_seq3_no_sep in E3 as (?&?&?). rewrite !not_elem_of_cons.
    repeat split; auto. eapply IH; [|reflexivity|done]. simpl. lia. }
  destruct r2 as [|b3 r3]; [done|]. apply andb_true_iff in Hv as [E4 Hv].
  apply utf8_seq4_no_sep in E4 as (?&?&?&?). rewrite !not_elem_of_cons.
  repeat split; auto. eapply IH; [|reflexivity|done]. simpl. lia.
Qed.

Lemma utf8_app a b : utf8_valid a = true → utf8_valid (a ++ b) = utf8_valid b.
Proof.
  remember (length a) as n eqn:Hn. revert a Hn.
  induction (lt_wf n) as [n _ IH]. intros a -> Hv.
  destruct a as [|b0 r0]; [done|]. cbn [utf8_valid app] in Hv |- *.
  destruct (in_range 0 0x7f b0); [eapply IH; [|reflexivity|done]; simpl; lia|].
  destruct r0 as [|b1 r1]; [done|]. cbn [app].
  destruct (utf8_seq2 b0 b1); [eapply IH; [|reflexivity|done]; simpl; lia|].
  destruct r1 as [|b2 r2]; [done|]. cbn [app].
  destruct (utf8_seq3 b0 b1 b2); [eapply IH; [|reflexivity|done]; simpl; lia|].
  destruct r2 as [|b3 r3]; [done|]. apply andb_true_iff in Hv as [E4 Hv]. cbn [app]. rewrite E4.
  eapply IH; [|reflexivity|done]. simpl. lia.
Qed.

(** ** Rust's [String]: a byte string that is valid UTF-8 *)

Record rstr := MkStr { as_bytes : bytes; as_bytes_utf8 : utf8_valid as_bytes = true }.

#[export] Instance as_bytes_inj : Inj (=) (=) as_bytes.
Proof.
  intros [a Ha] [b Hb] E. simpl in E. subst b. f_equal. apply proof_irrel.
Qed.

#[export] Instance rstr_eq_dec : EqDecision rstr.
Proof.
  intros s t. destruct (decide (as_bytes s = as_bytes t)) as [E|E].
  - left. by apply (inj as_bytes).
  - right. by intros ->.
Defined.

(** The text of [format!("{}{}", s, t)]. *)
Program Definition str_app (s t : rstr) : rstr := MkStr (as_bytes s ++ as_bytes t) _.
Next Obligation. intros s t. rewrite utf8_app; apply as_bytes_utf8. Qed.

(** [String::from_utf8], as used by [utils::string_from_bytes]. *)
Definition from_utf8 (bs : bytes) : option rstr :=
  match decide (utf8_valid bs = true) with
  | left H => Some (MkStr bs H)
  | right _ => None
  end.

Lemma from_utf8_as_bytes s : from_utf8 (as_bytes s) = Some s.
Proof.
  unfold from_utf8. destruct (decide _) as [H|H].
  - f_equal. by apply (inj as_bytes).
  - by destruct H; apply as_bytes_utf8.
Qed.

Lemma from_utf8_Some bs s : from_utf8 bs = Some s ↔ bs = as_bytes s.
Proof.
  split; [|intros ->; apply from_utf8_as_bytes].
  unfold from_utf8. intros E. destruct (decide _) as [H|H]; [by injection E as <-|done].
Qed.

Lemma from_utf8_None bs : from_utf8 bs = None ↔ utf8_valid bs = false.
Proof.
  unfold from_utf8. destruct (decide _) as [H|H].
  - split; [done|congruence].
  - split; [|done]. intros _. by destruct (utf8_valid bs).
Qed.

#[export] Instance rstr_countable : Countable rstr :=
  inj_countable as_bytes from_utf8 from_utf8_as_bytes.

Lemma str_no_sep s : sep ∉ as_bytes s.
Proof. apply utf8_no_sep, as_bytes_utf8. Qed.
#[export] Hint Resolve str_no_sep : kv.

Lemma from_utf8_bad bs : sep ∈ bs → from_utf8 bs = None.
Proof.
  intros Hin. destruct (from_utf8 bs) as [s|] eqn:E; [|done].
  apply from_utf8_Some in E as ->. by apply str_no_sep in Hin.
Qed.

(** String literals; the code's are ASCII. *)
Definition lit (s : string) : rstr :=
  default (MkStr [] eq_refl) (from_utf8 (String.list_byte_of_string s)).

Notation "b# s" := (String.list_byte_of_string s%string) (at level 8, s at level 0, only parsing).

(** ** Splitting at the separator *)

(** [split(|&b| b == 0xff)]: always at least one part. *)
Fixpoint split_ff (bs : bytes) : list bytes :=
  match bs with
  | [] => [[]]
  | b :: bs =>
      if decide (b = sep) then [] :: split_ff bs
      else match split_ff bs with
           | p :: ps => (b :: p) :: ps
           | [] => [[b]]
           end
  end.

(** [rsplit(|&b| b == 0xff)]: the same parts from the end. *)
Definition rsplit_ff (bs : bytes) : list bytes := reverse (split_ff bs).

(** The part before the first separator and, when there is one, the rest. *)
Fixpoint cut_ff (bs : bytes) : bytes * option bytes :=
  match bs with
  | [] => ([], None)
  | b :: bs =>
      if decide (b = sep) then ([], Some bs)
      else let '(p, r) := cut_ff bs in (b :: p, r)
  end.

(** [splitn(n, |&b| b == 0xff)]. *)
Fixpoint splitn_ff (n : nat) (bs : bytes) : list bytes :=
  match n with
  | O => []
  | 1%nat => [bs]
  | S n => match cut_ff bs with
           | (p, None) => [p]
           | (p, Some r) => p :: splitn_ff n r
           end
  end.

Section split.
Implicit Types a b r k : bytes.

Lemma cut_ff_app a r : sep ∉ a → cut_ff (a ++ sep :: r) = (a, Some r).
Proof.
  induction a as [|x a IH]; intros Hn; [done|].
  apply not_elem_of_cons in Hn as [Hx Hn]. cbn. rewrite decide_False by done.
  by rewrite IH.
Qed.

Lemma cut_ff_none a : sep ∉ a → cut_ff a = (a, None).
Proof.
  induction a as [|x a IH]; intros Hn; [done|].
  apply not_elem_of_cons in Hn as [Hx Hn]. cbn. rewrite decide_False by done.
  by rewrite IH.
Qed.

Lemma splitn2_app a r : sep ∉ a → splitn_ff 2 (a ++ sep :: r) = [a; r].
Proof. intros Hn. cbn [splitn_ff]. by rewrite cut_ff_app. Qed.

Lemma split_ff_app a r : sep ∉ a → split_ff (a ++ sep :: r) = a :: split_ff r.
Proof.
  induction a as [|x a IH]; intros Hn; [done|].
  apply not_elem_of_cons in Hn as [Hx Hn]. cbn [app split_ff].
  rewrite decide_False by done. by rewrite IH.
Qed.

Lemma split_ff_single a : sep ∉ a → split_ff a = [a].
Proof.
  induction a as [|x a IH]; intros Hn; [done|].
  apply not_elem_of_cons in Hn as [Hx Hn]. cbn [split_ff].
  rewrite decide_False by done. by rewrite IH.
Qed.

Lemma split_ff_nonnil k : split_ff k ≠ [].
Proof. destruct k as [|x k]; simpl; [done|]. case_decide; [done|]. by destruct (split_ff k). Qed.

Lemma split_ff_join k r : split_ff (k ++ sep :: r) = split_ff k ++ split_ff r.
Proof.
  induction k as [|x k IH]; [done|]. cbn [app split_ff]. rewrite IH.
  case_decide; [done|]. pose proof (split_ff_nonnil k). by destruct (split_ff k).
Qed.

(** [rsplit(..).next()] is the part after the last separator. *)
Lemma rsplit_ff_last k b : sep ∉ b → rsplit_ff (k ++ sep :: b) = b :: rsplit_ff k.
Proof.
  intros Hn. unfold rsplit_ff. rewrite split_ff_join, (split_ff_single b), reverse_app by done.
  done.
Qed.

Lemma rsplit_ff_single b : sep ∉ b → rsplit_ff b = [b].
Proof. intros Hn. unfold rsplit_ff. by rewrite split_ff_single. Qed.

(** A first part without separators is determined by the key. *)
Lemma key_inj a a' r r' :
  sep ∉ a → sep ∉ a' → a ++ sep :: r = a' ++ sep :: r' → a = a' ∧ r = r'.
Proof.
  intros Ha Ha' E. apply (f_equal cut_ff) in E. rewrite !cut_ff_app in E; naive_solver.
Qed.

(** Keys that start with [a 0xff p] are those whose first part is [a]. *)
Lemma key_prefix a a' p r :
  sep ∉ a → sep ∉ a' → (a ++ sep :: p) `prefix_of` (a' ++ sep :: r) ↔ a = a' ∧ p `prefix_of` r.
Proof.
  intros Ha Ha'. split.
  - intros [s E]. rewrite <- app_assoc in E. cbn in E.
    apply key_inj in E as [-> ->]; [|done|done]. split; [done|]. by exists s.
  - intros [-> [s ->]]. exists s. by rewrite <- app_assoc.
Qed.
End split.
