(* ===== verification/Decimal.v ===== *)
(** * Decimal text of machine integers

    [u64::to_string], which names key backups and numbers in JSON, and the parser of
    such text. *)

From S2P Require Import Prelude Bytes RStr.

(** Decimal digits, most significant first; 20 digits hold any 64-bit number. *)
Fixpoint decimal_digits (fuel : nat) (n : N) (acc : bytes) : bytes :=
  match fuel with
  | O => acc
  | S fuel =>
      let d := byte_of_N (48 + n mod 10) in
      if bool_decide (n < 10) then d :: acc else decimal_digits fuel (n / 10) (d :: acc)
  end.

Definition digit (b : byte) : Prop := 48 ≤ Byte.to_N b ∧ Byte.to_N b ≤ 57.
#[export] Instance digit_dec b : Decision (digit b).
Proof. unfold digit. apply _. Defined.

Lemma digit_of n : Byte.to_N (byte_of_N (48 + n mod 10)) = 48 + n mod 10.
Proof.
  pose proof (N.mod_lt n 10 ltac:(done)). rewrite to_N_byte_of_N. apply N.mod_small. lia.
Qed.

Lemma decimal_digits_digit fuel n acc : Forall digit acc → Forall digit (decimal_digits fuel n acc).
Proof.
  revert n acc. induction fuel as [|fuel IH]; intros n acc Ha; [done|]. cbn.
  assert (digit (byte_of_N (48 + n mod 10))).
  { unfold digit. rewrite digit_of. generalize (N.mod_lt n 10 ltac:(done)). generalize (n mod 10).
    intros d Hd. lia. }
  destruct (bool_decide _); [by constructor|]. apply IH. by constructor.
Qed.

(** Reading the digits back. *)
Definition decimal_value (acc : N) (bs : bytes) : N :=
  foldl (λ a b, a * 10 + (Byte.to_N b - 48)) acc bs.

Lemma decimal_value_app acc a b : decimal_value acc (a ++ b) = decimal_value (decimal_value acc a) b.
Proof. apply foldl_app. Qed.

Lemma decimal_digits_value fuel n acc :
  n < 10 ^ N.of_nat fuel →
  decimal_value 0 (decimal_digits fuel n acc) = decimal_value n acc.
Proof.
  revert n acc. induction fuel as [|fuel IH]; intros n acc Hn.
  { cbn in *. by replace n with 0 by lia. }
  cbn [decimal_digits]. rewrite Nat2N.inj_succ, N.pow_succ_r in Hn by lia.
  pose proof (N.div_mod n 10 ltac:(done)) as Hdm. pose proof (N.mod_lt n 10 ltac:(done)).
  destruct (bool_decide (n < 10)) eqn:E.
  - apply bool_decide_eq_true in E. cbn [decimal_value foldl]. f_equal. rewrite digit_of.
    rewrite N.mod_small by lia. lia.
  - rewrite IH by (apply N.Div0.div_lt_upper_bound; lia). cbn [decimal_value foldl]. f_equal.
    rewrite digit_of, N.add_comm, N.add_comm, N.mul_comm.
    replace (48 + n mod 10 - 48) with (n mod 10) by (generalize (n mod 10); lia). by symmetry.
Qed.

Lemma digits_utf8 bs : Forall digit bs → utf8_valid bs = true.
Proof.
  induction bs as [|b bs IH]; intros Hd; [done|]. apply Forall_cons in Hd as [Hb Hd].
  cbn [utf8_valid]. assert (in_range 0 0x7f b = true) as -> by (apply in_range_iff; unfold digit in Hb; lia).
  auto.
Qed.

Definition u64_to_string (n : N) : rstr :=
  MkStr (decimal_digits 20 n []) (digits_utf8 _ (decimal_digits_digit _ _ _ (Forall_nil_2 _))).

Lemma u64_to_string_inj n m : u64 n → u64 m → u64_to_string n = u64_to_string m → n = m.
Proof.
  unfold u64. intros Hn Hm E. apply (f_equal (decimal_value 0 ∘ as_bytes)) in E. cbn [compose as_bytes] in E.
  change (decimal_value 0 (decimal_digits 20 n []) = decimal_value 0 (decimal_digits 20 m [])) in E.
  rewrite !decimal_digits_value in E; [done|..]; eapply N.lt_trans; eauto; done.
Qed.

(** Digits are below any bytes of [u64::MAX]. *)
Lemma digits_le_max n : as_bytes (u64_to_string n) ≤b to_be_bytes u64_max.
Proof.
  cbn [as_bytes u64_to_string]. pose proof (decimal_digits_digit 20 n [] (Forall_nil_2 _)) as Hd.
  destruct (decimal_digits 20 n []) as [|b l]; [apply bytes_nil_le|].
  apply Forall_cons in Hd as [[_ Hb] _]. apply bytes_le_lt_eq. left.
  change (to_be_bytes u64_max) with (replicate 8 xff). unfold bytes_lt. cbn [replicate bytes_cmp].
  assert ((Byte.to_N b ?= Byte.to_N xff) = Lt) as -> by (apply N.compare_lt_iff; cbn; lia). done.
Qed.

(** [str::parse::<u64>]: digits after at most one plus sign, of a number that fits. *)
Definition u64_from_str (s : rstr) : option N :=
  let digits := match as_bytes s with
                | b :: bs => if bool_decide (b = x2b) then bs else b :: bs
                | [] => []
                end in
  if bool_decide (digits ≠ []) && forallb (λ b, bool_decide (digit b)) digits
     && bool_decide (decimal_value 0 digits < 2 ^ 64)
  then Some (decimal_value 0 digits) else None.

Lemma decimal_digits_nonempty fuel n acc : decimal_digits (S fuel) n acc ≠ [].
Proof.
  revert n acc. induction fuel as [|fuel IH]; intros n acc; cbn; (case_bool_decide; [done|]); [done|]. apply IH.
Qed.

Lemma u64_from_to_string n : u64 n → u64_from_str (u64_to_string n) = Some n.
Proof.
  intros Hn. unfold u64_from_str. cbn [as_bytes u64_to_string].
  pose proof (decimal_digits_digit 20 n [] (Forall_nil_2 _)) as Hd. pose proof (decimal_digits_nonempty 19 n []) as Hne.
  assert (decimal_value 0 (decimal_digits 20 n []) = n) as Hv.
  { apply decimal_digits_value. eapply N.lt_trans; [exact Hn|done]. }
  destruct (decimal_digits 20 n []) as [|b bs]; [done|]. assert (b ≠ x2b) as Hb.
  { intros ->. apply Forall_cons in Hd as [[H _] _]. by cbn in H. }
  rewrite (bool_decide_eq_false_2 (b = x2b)) by done. rewrite Hv, !bool_decide_eq_true_2 by done. cbn [andb].
  assert (forallb (λ b, bool_decide (digit b)) (b :: bs) = true) as ->; [|done].
  apply forallb_forall. intros x Hx. apply bool_decide_eq_true. rewrite Forall_forall in Hd. apply Hd.
  by apply list_elem_of_In.
Qed.
