(* ===== verification/Error.v ===== *)
(** * Errors and outcomes ([src/utils/error.rs])

    The error type, its translation to an HTTP response, the outcome of a Rust
    function ([Ok], [Err] or a panic) and the state monad every stateful
    function of the model is written in.  An error leaves behind the state that
    was reached when it occurred, as [?] does in the code. *)

From S2P Require Import Prelude Bytes RStr.

(** ** Error values *)

(** [ruma::api::client::error::ErrorKind]: the kinds the code names. *)
Inductive ErrorKind :=
  | Forbidden
  | GuestAccessForbidden
  | ThreepidAuthFailed
  | ThreepidDenied
  | Unauthorized
  | UnknownToken (soft_logout : bool)
  | MissingToken
  | NotFound
  | Unrecognized
  | LimitExceeded
  | UserDeactivated
  | TooLarge
  | InvalidParam
  | InvalidUsername
  | UserInUse
  | RoomInUse
  | Exclusive
  | BadJson
  | NotJson
  | MissingParam
  | BadState
  | UnsupportedRoomVersion
  | IncompatibleRoomVersion (room_version : rstr)
  | UnableToAuthorizeJoin
  | Unknown
  | OtherKind (errcode : rstr).

#[export] Instance ErrorKind_eq_dec : EqDecision ErrorKind.
Proof. solve_decision. Defined.

Record StandardErrorBody := { eb_kind : ErrorKind; eb_message : string }.

(** [ruma::api::client::error::Error]. *)
Record RumaError := { ruma_body : StandardErrorBody; ruma_status_code : N }.

(** Stages of user-interactive authentication ([ruma]'s [AuthType]). *)
Inductive AuthType := APassword | ADummy | AOther (t : rstr).

#[export] Instance AuthType_eq_dec : EqDecision AuthType.
Proof. solve_decision. Defined.

(** [ruma]'s [UiaaInfo]; [params] is raw JSON. *)
Record UiaaInfo := {
  ui_flows : list (list AuthType);
  ui_completed : list AuthType;
  ui_params : bytes;
  ui_session : option rstr;
  ui_auth_error : option StandardErrorBody
}.

Inductive Error :=
  | SqliteError
  | RocksDbError
  | ImageError
  | ReqwestError
  | FederationError (origin : rstr) (error : RumaError)
  | IoError
  | BadServerResponse (message : string)
  | BadConfig (message : string)
  | BadDatabase (message : string)
  | Uiaa (info : UiaaInfo)
  | BadRequest (kind : ErrorKind) (message : string)
  | Conflict (message : string)
  | ExtensionError
  | PathError.

Inductive UiaaResponse :=
  | AuthResponse (info : UiaaInfo)
  | MatrixError (e : RumaError).

Section to_response.
(** The [Display] instances, which only build the message. *)
Context (display : Error → string) (display_answer : rstr → RumaError → string).

Definition status_of_kind (kind : ErrorKind) : N :=
  match kind with
  | Forbidden | GuestAccessForbidden | ThreepidAuthFailed | ThreepidDenied => 403
  | Unauthorized | UnknownToken _ | MissingToken => 401
  | NotFound | Unrecognized => 404
  | LimitExceeded => 429
  | UserDeactivated => 403
  | TooLarge => 413
  | _ => 400
  end.

Definition to_response (e : Error) : UiaaResponse :=
  match e with
  | Uiaa info => AuthResponse info
  | FederationError origin error =>
      MatrixError {| ruma_body := {| eb_kind := Unknown; eb_message := display_answer origin error |};
                     ruma_status_code := ruma_status_code error |}
  | _ =>
      let '(kind, status) :=
        match e with
        | BadRequest kind _ => (kind, status_of_kind kind)
        | Conflict _ => (Unknown, 409)
        | _ => (Unknown, 500)
        end in
      MatrixError {| ruma_body := {| eb_kind := kind; eb_message := display e |};
                     ruma_status_code := status |}
  end.
End to_response.

(** ** Outcomes *)

Inductive res (A : Type) :=
  | Ok (a : A)
  | Err (e : Error)
  | Panic (message : string).
Arguments Ok {A} a.
Arguments Err {A} e.
Arguments Panic {A} message.

#[export] Instance res_ret : MRet res := λ A a, Ok a.
#[export] Instance res_bind : MBind res := λ A B f m,
  match m with Ok a => f a | Err e => Err e | Panic p => Panic p end.
#[export] Instance res_fmap : FMap res := λ A B f m,
  match m with Ok a => Ok (f a) | Err e => Err e | Panic p => Panic p end.

(** [Option::ok_or], [Option::expect], [Result::ok] and [Option::transpose]. *)
Definition ok_or {A} (o : option A) (e : Error) : res A :=
  match o with Some a => Ok a | None => Err e end.
Definition expect {A} (o : option A) (msg : string) : res A :=
  match o with Some a => Ok a | None => Panic msg end.
Definition ok {A} (r : res A) : option A :=
  match r with Ok a => Some a | _ => None end.
Definition transpose {A} (o : option (res A)) : res (option A) :=
  match o with
  | None => Ok None
  | Some (Ok a) => Ok (Some a)
  | Some (Err e) => Err e
  | Some (Panic p) => Panic p
  end.

(** [assert!]. *)
Definition assert (b : bool) : res unit :=
  if b then Ok () else Panic "assertion failed".

(** [collect] of an iterator of results: the first failure wins. *)
Fixpoint collect {A} (l : list (res A)) : res (list A) :=
  match l with
  | [] => Ok []
  | r :: l => a ← r; rest ← collect l; Ok (a :: rest)
  end.

Lemma transpose_Ok {A} (o : option A) : transpose (Ok <$> o) = Ok o.
Proof. by destruct o. Qed.

Lemma collect_fmap_Ok {A B} (f : A → B) (l : list A) :
  collect ((λ a, Ok (f a)) <$> l) = Ok (f <$> l).
Proof. induction l as [|a l IH]; [done|]. csimpl. by rewrite IH. Qed.

Lemma collect_app {A} (l1 l2 : list (res A)) x1 x2 :
  collect l1 = Ok x1 → collect l2 = Ok x2 → collect (l1 ++ l2) = Ok (x1 ++ x2).
Proof.
  revert x1. induction l1 as [|[a|e|p] l1 IH]; intros x1 H1 H2; cbn in H1 |- *; try done.
  - by simplify_eq.
  - destruct (collect l1) as [y| |]; [|done..]. cbn in H1. simplify_eq. by rewrite (IH y).
Qed.

(** ** The state monad *)

Definition M (S A : Type) : Type := S → res A * S.

#[export] Instance M_ret {S} : MRet (M S) := λ A a s, (Ok a, s).
#[export] Instance M_bind {S} : MBind (M S) := λ A B f m s,
  match m s with
  | (Ok a, s') => f a s'
  | (Err e, s') => (Err e, s')
  | (Panic p, s') => (Panic p, s')
  end.

Definition lift {S A} (r : res A) : M S A := λ s, (r, s).
Definition gets {S A} (f : S → A) : M S A := λ s, (Ok (f s), s).
Definition modify {S} (f : S → S) : M S unit := λ s, (Ok (), f s).
Definition fail {S A} (e : Error) : M S A := lift (Err e).

(** [Result::ok] around a call: the error is dropped, its effects stay. *)
Definition try_ok {S A} (m : M S A) : M S (option A) := λ s,
  match m s with
  | (Ok a, s') => (Ok (Some a), s')
  | (Err _, s') => (Ok None, s')
  | (Panic p, s') => (Panic p, s')
  end.

(** [for x in l { body }]. *)
Fixpoint for_each {S A} (l : list A) (body : A → M S unit) : M S unit :=
  match l with
  | [] => mret ()
  | x :: l => body x ;; for_each l body
  end.

(** [for x in l { acc = body }]: a loop with a local accumulator. *)
Fixpoint for_fold {S A B} (l : list A) (acc : B) (body : B → A → M S B) : M S B :=
  match l with
  | [] => mret acc
  | x :: l => acc' ← body acc x; for_fold l acc' body
  end.

Section monad_laws.
Context {S : Type}.

Lemma bind_Ok {A B} (m : M S A) (f : A → M S B) s a s' :
  m s = (Ok a, s') → (m ≫= f) s = f a s'.
Proof. unfold mbind, M_bind. by intros ->. Qed.

Lemma bind_Ok_inv {A B} (m : M S A) (f : A → M S B) s b s' :
  (m ≫= f) s = (Ok b, s') → ∃ a s1, m s = (Ok a, s1) ∧ f a s1 = (Ok b, s').
Proof. unfold mbind, M_bind. destruct (m s) as [[a|e|p] s1]; naive_solver. Qed.

Lemma bind_ret {A B} (a : A) (f : A → M S B) s : (mret a ≫= f) s = f a s.
Proof. done. Qed.

Lemma bind_gets {A B} (g : S → A) (f : A → M S B) s : (gets g ≫= f) s = f (g s) s.
Proof. done. Qed.

Lemma bind_modify {B} (g : S → S) (f : unit → M S B) s : (modify g ≫= f) s = f () (g s).
Proof. done. Qed.

Lemma bind_lift_Ok {A B} (a : A) (f : A → M S B) s : (lift (Ok a) ≫= f) s = f a s.
Proof. done. Qed.

(** A loop whose body never fails is a fold of state updates. *)
Lemma for_each_modify {A} (l : list A) (g : A → S → S) s :
  for_each l (λ x, modify (g x)) s = (Ok (), foldl (λ s x, g x s) s l).
Proof. revert s. induction l as [|x l IH]; intros s; [done|]. cbn. apply IH. Qed.

(** A property every iteration keeps holds after the loop. *)
Lemma for_each_inv {A} (P : S → Prop) (l : list A) (body : A → M S unit) s r s' :
  (∀ x s r s', x ∈ l → P s → body x s = (r, s') → P s') →
  P s → for_each l body s = (r, s') → P s'.
Proof.
  revert s. induction l as [|x l IH]; intros s Hb Hs; cbn.
  { unfold mret, M_ret. by intros [= <- <-]. }
  unfold mbind, M_bind. destruct (body x s) as [o s1] eqn:E.
  assert (P s1) as H1 by (eapply Hb; [left|..]; eauto).
  destruct o; [|by intros [= <- <-]..]. apply IH; [|done].
  intros. eapply Hb; [right|..]; eauto.
Qed.
End monad_laws.
