(* ===== verification/Utils.v ===== *)
(** * Utilities ([src/utils/mod.rs])

    Counters stored as big-endian bytes, byte-to-string conversion, the sorted
    intersection of iterators behind search and shared-room lookup, state
    hashing and HTML escaping. *)

From S2P Require Import Prelude Bytes RStr Error.

(** [utils::u64_from_bytes]: the error is [TryFromSliceError]. *)
Definition u64_from_bytes (bs : bytes) : option N :=
  if decide (length bs = 8%nat) then Some (from_be bs) else None.

(** [utils::string_from_bytes]. *)
Definition string_from_bytes (bs : bytes) : option rstr := from_utf8 bs.

(** [utils::increment]: bytes of another length count as absent; the addition
    wraps as in a release build. *)
Definition increment (old : option bytes) : option bytes :=
  let number :=
    match u64_from_bytes <$> old with
    | Some (Some number) => wrap64 (number + 1)
    | _ => 1
    end in
  Some (to_be_bytes number).

(** The counter value a stored entry stands for. *)
Definition count_of (old : option bytes) : N :=
  match old ≫= u64_from_bytes with Some n => n | None => 0 end.

Lemma u64_from_to_be_bytes n : u64_from_bytes (to_be_bytes n) = Some (wrap64 n).
Proof. unfold u64_from_bytes. by rewrite decide_True, from_to_be_bytes by apply length_to_be_bytes. Qed.

Lemma u64_from_be_u64 n : u64 n → u64_from_bytes (to_be_bytes n) = Some n.
Proof. intros. by rewrite u64_from_to_be_bytes, wrap64_small. Qed.

Lemma u64_from_bytes_Some bs n : u64_from_bytes bs = Some n → u64 n ∧ bs = to_be_bytes n.
Proof.
  unfold u64_from_bytes. case_decide as Hl; [|done]. intros [= <-].
  split; [auto with kv|]. by rewrite to_be_bytes_from_be.
Qed.

Lemma count_of_be n : count_of (Some (to_be_bytes n)) = wrap64 n.
Proof. unfold count_of. cbn [mbind option_bind]. by rewrite u64_from_to_be_bytes. Qed.

Lemma increment_spec old : increment old = Some (to_be_bytes (count_of old + 1)).
Proof.
  unfold increment, count_of. f_equal. destruct old as [b|]; [|done]. simpl.
  destruct (u64_from_bytes b) as [n|]; [|done]. unfold wrap64, to_be_bytes.
  assert (∀ m, to_be 8 (m mod 2 ^ 64) = to_be 8 m) as Hm; [|apply Hm].
  intros m. apply from_be_inj; [by rewrite !length_to_be|].
  rewrite !from_to_be. apply N.Div0.mod_mod.
Qed.

#[global] Arguments u64_from_bytes : simpl never.
#[global] Arguments increment : simpl never.

(** ** [utils::calculate_hash] *)

(** [keys.join(&0xff)]. *)
Fixpoint join_ff (keys : list bytes) : bytes :=
  match keys with
  | [] => []
  | [k] => k
  | k :: keys => k ++ sep :: join_ff keys
  end.

Definition calculate_hash (sha256 : bytes → bytes) (keys : list bytes) : bytes :=
  sha256 (join_ff keys).

(** ** [utils::common_elements] *)

Module CommonElements.
Section ce.
Context (check_order : bytes → bytes → comparison).

(** [while let Some(element) = it.peek()]: the iterator is left at the first
  element that is not smaller than the target. *)
Fixpoint search (target : bytes) (it : list bytes) : bool * list bytes :=
match it with
| [] => (false, [])
| element :: it' =>
    match check_order element target with
    | Gt => (false, element :: it')
    | Eq => (true, element :: it')
    | Lt => search target it'
    end
end.

(** [other_iterators.iter_mut().all(..)]: stops at the first [false]. *)
Fixpoint search_all (target : bytes) (its : list (list bytes)) : bool * list (list bytes) :=
match its with
| [] => (true, [])
| it :: its =>
    match search target it with
    | (true, it) => let '(b, its) := search_all target its in (b, it :: its)
    | (false, it) => (false, it :: its)
    end
end.

(** [first_iterator.filter(..)]. *)
Fixpoint filter_common (first : list bytes) (others : list (list bytes)) : list bytes :=
match first with
| [] => []
| target :: first =>
    let '(keep, others) := search_all target others in
    if keep then target :: filter_common first others else filter_common first others
end.

Definition common_elements (iterators : list (list bytes)) : option (list bytes) :=
match iterators with
| [] => None
| first_iterator :: other_iterators => Some (filter_common first_iterator other_iterators)
end.
End ce.
End CommonElements.

Section common_elements_correct.
Import CommonElements.
(** [check_order] compares by a strict total order, along which the
    iterators run. *)
Context (check_order : bytes → bytes → comparison) (R : relation bytes) `{!StrictOrder R}.
Context (check_eq : ∀ a b, check_order a b = Eq ↔ a = b).
Context (check_lt : ∀ a b, check_order a b = Lt ↔ R a b).
Context (check_gt : ∀ a b, check_order a b = Gt ↔ R b a).

Abbreviation sorted := (StronglySorted R).

(** What is dropped lies strictly before the target. *)
Lemma search_spec target it b it' :
  sorted it → search check_order target it = (b, it') →
  sorted it' ∧ (b = true ↔ target ∈ it) ∧
  (∀ x, x ∈ it' → x ∈ it) ∧ (∀ x, x ∈ it → x ∈ it' ∨ R x target).
Proof.
  intros Hs. revert b it'. induction Hs as [|e it Hs IH Hall]; intros b it'; cbn.
  - intros [= <- <-]. repeat split; auto; [constructor|done|].
    by intros ?%not_elem_of_nil.
  - assert (sorted (e :: it)) as Hse by by constructor.
    rewrite Forall_forall in Hall. destruct (check_order e target) eqn:E.
    + apply check_eq in E as ->. intros [= <- <-]. repeat split; auto. intros _. left.
    + apply check_lt in E. intros H. destruct (IH _ _ H) as (?&Hb&Hsub&Hx).
      split; [done|]. split; [|split].
      * rewrite Hb, elem_of_cons. split; [auto|]. intros [->|?]; [|done].
        by destruct (irreflexivity R e).
      * intros x Hin. right. auto.
      * intros x [->|?]%elem_of_cons; auto.
    + apply check_gt in E. intros [= <- <-]. repeat split; auto; [done|].
      rewrite elem_of_cons. intros [->|Hin]; [by destruct (irreflexivity R e)|].
      destruct (irreflexivity R e). etrans; eauto.
Qed.

Lemma search_all_spec target its b its' :
  Forall sorted its → search_all check_order target its = (b, its') →
  Forall sorted its' ∧ (b = true ↔ Forall (λ it, target ∈ it) its) ∧
  (∀ x, R target x → Forall (λ it, x ∈ it) its' ↔ Forall (λ it, x ∈ it) its).
Proof.
  intros Hs. revert b its'. induction Hs as [|it its Hit Hs IH]; intros b its'; cbn.
  { intros [= <- <-]. repeat split; auto using Forall_nil. }
  destruct (search check_order target it) as [b1 it1] eqn:E1.
  destruct (search_spec _ _ _ _ Hit E1) as (Hs1 & Hb1 & Hsub & Hsup).
  assert (∀ x, R target x → x ∈ it1 ↔ x ∈ it) as Hx.
  { intros x Hx. split; [auto|]. intros [?|Hx']%Hsup; [done|].
    destruct (irreflexivity R x). by etrans. }
  destruct b1.
  - destruct (search_all check_order target its) as [b2 its2] eqn:E2. intros [= <- <-].
    destruct (IH _ _ eq_refl) as (Hs2 & Hb2 & Hx2).
    split; [by constructor|]. split.
    + rewrite Hb2, Forall_cons. tauto.
    + intros x Hr. rewrite !Forall_cons, (Hx x Hr), (Hx2 x Hr). done.
  - intros [= <- <-]. split; [by constructor|]. split.
    + rewrite Forall_cons, <- Hb1. split; [done|]. by intros [? _].
    + intros x Hr. rewrite !Forall_cons, (Hx x Hr). done.
Qed.

Lemma filter_common_spec first others :
  sorted first → Forall sorted others →
  filter_common check_order first others =
  filter (λ x, Forall (λ it, x ∈ it) others) first.
Proof.
  intros Hs. revert others. induction Hs as [|t first Hs IH Hall]; intros others Ho; [done|].
  cbn [filter_common]. destruct (search_all check_order t others) as [keep others'] eqn:E.
  destruct (search_all_spec _ _ _ _ Ho E) as (Ho' & Hk & Hx).
  rewrite filter_cons, (IH others' Ho').
  assert (filter (λ x, Forall (λ it, x ∈ it) others') first =
          filter (λ x, Forall (λ it, x ∈ it) others) first) as ->.
  { apply filter_ext_in. rewrite Forall_forall in Hall.
    intros x Hin. apply Hx, Hall. done. }
  destruct keep; [rewrite decide_True by by apply Hk|rewrite decide_False]; [done..|].
  by intros ?%Hk.
Qed.
End common_elements_correct.

(** ** [HtmlEscape] *)

Module Html.
(** The replacement of a character, when it has one. *)
Definition escape_char (c : byte) : option bytes :=
  match c with
  | x3e => Some b#"&gt;"
  | x3c => Some b#"&lt;"
  | x26 => Some b#"&amp;"
  | x27 => Some b#"&#39;"
  | x22 => Some (b#"&quot;")
  | _ => None
  end.

(** The [for] loop over [char_indices]: [rest] is the text from index [i],
    [last] the index after the last replaced character, the result what was
    written.  The replaced characters are ASCII, so they are single bytes and
    no byte of a longer character equals one of them. *)
Fixpoint fmt_loop (pile : bytes) (last i : nat) (rest : bytes) : bytes :=
  match rest with
  | [] => if decide (last < length pile)%nat then drop last pile else []
  | ch :: rest =>
      match escape_char ch with
      | None => fmt_loop pile last (S i) rest
      | Some s => take (i - last) (drop last pile) ++ s ++ fmt_loop pile (S i) (S i) rest
      end
  end.

Definition fmt (s : bytes) : bytes := fmt_loop s 0 0 s.

(** Reference: every character replaced on its own. *)
Definition escape (s : bytes) : bytes :=
  mjoin ((λ c, default [c] (escape_char c)) <$> s).

Lemma fmt_loop_spec pile last i rest :
  (last ≤ i)%nat → (i ≤ length pile)%nat → drop i pile = rest →
  fmt_loop pile last i rest = take (i - last) (drop last pile) ++ escape rest.
Proof.
  revert last i. induction rest as [|ch rest IH]; intros last i Hli Hil Hd; cbn [fmt_loop].
  - assert (i = length pile) as ->.
    { apply (f_equal length) in Hd. rewrite length_drop in Hd. simpl in Hd. lia. }
    unfold escape. cbn. rewrite app_nil_r. case_decide.
    + rewrite take_ge; [done|]. rewrite length_drop. lia.
    + rewrite drop_ge by lia. by rewrite take_nil.
  - assert (pile !! i = Some ch) as Hch.
    { rewrite <- (Nat.add_0_r i), <- lookup_drop, Hd. done. }
    assert (drop (S i) pile = rest) as Hd'.
    { rewrite <- (Nat.add_1_r i), <- drop_drop, Hd. done. }
    pose proof (lookup_lt_Some _ _ _ Hch) as Hlt.
    unfold escape. cbn. destruct (escape_char ch) as [s|] eqn:E; cbn.
    + rewrite IH by (auto; lia). rewrite Nat.sub_diag. cbn. done.
    + rewrite IH by (auto; lia).
      replace (S i - last)%nat with (S (i - last)) by lia.
      rewrite (take_S_r _ _ ch).
      * by rewrite <- app_assoc.
      * rewrite lookup_drop. by replace (last + (i - last))%nat with i by lia.
Qed.
End Html.
