(* ===== verification/KvTree.v ===== *)
(** * The key-value tree interface ([src/database/abstraction.rs])

    The trait [KvTree] is what the storage layer promises to every component
    above it.  It is stated here as a class: the operations of the trait, an
    abstraction function to a finite map from byte strings to byte strings, and
    one equation per operation.  [Engines.v] discharges it for the
    two default back ends; the components are proved against the class. *)

From S2P Require Import Prelude Bytes RStr Error Utils.

Abbreviation entry := (bytes * bytes)%type.

(** ** The entries of a finite map in key order *)

Definition key_le (x y : entry) : Prop := x.1 ≤b y.1.
Definition key_lt (x y : entry) : Prop := x.1 <b y.1.

#[export] Instance key_le_dec : RelDecision key_le.
Proof. intros x y. unfold key_le. apply _. Defined.
#[export] Instance key_le_trans : Transitive key_le.
Proof. intros x y z. apply bytes_le_trans. Qed.
#[export] Instance key_le_total : Total key_le.
Proof.
  intros x y. unfold key_le. destruct (decide (x.1 ≤b y.1)) as [|H]; [by left|].
  right. apply bytes_nle_gt in H. apply bytes_le_lt_eq. by left.
Qed.
#[export] Instance key_lt_strict : StrictOrder key_lt.
Proof.
  split.
  - intros x. apply (irreflexivity bytes_lt).
  - intros x y z. apply (transitivity (R := bytes_lt)).
Qed.

Definition sorted_entries (m : gmap bytes bytes) : list entry :=
  merge_sort key_le (map_to_list m).

Lemma elem_of_sorted_entries m k v : (k, v) ∈ sorted_entries m ↔ m !! k = Some v.
Proof.
  unfold sorted_entries. rewrite (merge_sort_Permutation key_le). apply elem_of_map_to_list.
Qed.

Lemma sorted_entries_sorted m : StronglySorted key_lt (sorted_entries m).
Proof.
  assert (StronglySorted key_le (sorted_entries m)) as Hs.
  { apply (StronglySorted_merge_sort key_le). }
  assert (NoDup (sorted_entries m).*1) as Hnd.
  { unfold sorted_entries. rewrite (merge_sort_Permutation key_le). apply NoDup_fst_map_to_list. }
  induction Hs as [|x l Hs IH Hall]; [constructor|].
  apply NoDup_cons in Hnd as [Hx Hnd]. constructor; [auto|].
  rewrite Forall_forall in Hall. apply Forall_forall. intros y Hy.
  specialize (Hall y Hy). apply bytes_le_lt_eq in Hall as [?|E]; [done|].
  destruct Hx. rewrite E. by apply list_elem_of_fmap_2.
Qed.
#[export] Hint Resolve sorted_entries_sorted : kv.

(** Sorted entries are determined by their members. *)
Lemma entries_unique l1 l2 :
  StronglySorted key_lt l1 → StronglySorted key_lt l2 → (∀ e, e ∈ l1 ↔ e ∈ l2) → l1 = l2.
Proof. apply (StronglySorted_unique key_lt). Qed.

(** ** Prefix scans

    The entries whose key starts with [p], in key order. *)
Definition with_prefix (p : bytes) (m : gmap bytes bytes) : list entry :=
  filter (λ e, p `prefix_of` e.1) (sorted_entries m).

Lemma elem_of_with_prefix p m k v :
  (k, v) ∈ with_prefix p m ↔ m !! k = Some v ∧ p `prefix_of` k.
Proof. unfold with_prefix. rewrite list_elem_of_filter, elem_of_sorted_entries. simpl. tauto. Qed.

Lemma with_prefix_sorted p m : StronglySorted key_lt (with_prefix p m).
Proof. apply StronglySorted_filter. auto with kv. Qed.
#[export] Hint Resolve with_prefix_sorted : kv.

(** Scans after a write. *)
Lemma with_prefix_insert_last p m k v :
  p `prefix_of` k → (∀ k' w, m !! k' = Some w → p `prefix_of` k' → k' <b k) →
  with_prefix p (<[k := v]> m) = with_prefix p m ++ [(k, v)].
Proof.
  intros Hp Hlast. apply entries_unique; [auto with kv|..].
  - assert (∀ l, StronglySorted key_lt l → (∀ e, e ∈ l → e.1 <b k) → StronglySorted key_lt (l ++ [(k, v)]))
      as Happ.
    { intros l Hs. induction Hs as [|e l Hs IH Hall]; intros Hl; [repeat constructor|].
      constructor; [apply IH; intros; apply Hl; by right|]. apply Forall_app. split; [done|].
      apply Forall_singleton. apply Hl. by left. }
    apply Happ; [auto with kv|]. intros [k' w] [Hw Hp']%elem_of_with_prefix. by eapply Hlast.
  - intros [k' w]. rewrite elem_of_app, list_elem_of_singleton, !elem_of_with_prefix, lookup_insert_Some. split.
    + intros [[[-> ->]|[Hne Hw]] Hp']; [by right|by left].
    + intros [[Hw Hp']|[= -> ->]]; [|by eauto]. split; [|done]. right. split; [|done]. intros ->.
      apply (irreflexivity bytes_lt k'). eauto.
Qed.

Lemma with_prefix_insert_other p m k v :
  ¬ p `prefix_of` k → with_prefix p (<[k := v]> m) = with_prefix p m.
Proof.
  intros Hp. apply entries_unique; [auto with kv..|].
  intros [k' w]. rewrite !elem_of_with_prefix, lookup_insert_Some. split.
  - intros [[[-> ->]|[_ ?]] ?]; done.
  - intros [Hw Hp']. split; [|done]. right. split; [|done]. by intros ->.
Qed.

Lemma with_prefix_empty p m :
  (∀ k v, m !! k = Some v → ¬ p `prefix_of` k) → with_prefix p m = [].
Proof.
  intros Hm. destruct (with_prefix p m) as [|[k v] l] eqn:E; [done|].
  assert ((k, v) ∈ with_prefix p m) as He by (rewrite E; left).
  apply elem_of_with_prefix in He as [Hk Hp]. by apply Hm in Hk.
Qed.

(** Two maps that agree on the keys with a prefix give the same scan. *)
Lemma with_prefix_ext p m m' :
  (∀ k, p `prefix_of` k → m !! k = m' !! k) → with_prefix p m = with_prefix p m'.
Proof.
  intros Hm. apply entries_unique; [auto with kv..|].
  intros [k v]. rewrite !elem_of_with_prefix. split; intros [Hk Hp]; split; try done.
  - by rewrite <- Hm.
  - by rewrite Hm.
Qed.

(** Iterating forward from a key [p ++ x] while the prefix is [p]. *)
Lemma take_while_forward p from l :
  StronglySorted key_lt l → p `prefix_of` from →
  take_while (λ e, starts_with e.1 p) (filter (λ e, from ≤b e.1) l) =
  filter (λ e, p `prefix_of` e.1 ∧ from ≤b e.1) l.
Proof.
  intros Hs Hp. rewrite (take_while_filter (λ x y, key_lt x y ∧ from ≤b x.1)).
  - rewrite list_filter_filter. apply filter_ext_in. intros e _. by rewrite starts_with_iff.
  - induction Hs as [|x l Hs IH Hall]; [constructor|]. rewrite filter_cons.
    case_decide; [|done]. constructor; [done|]. apply Forall_forall.
    rewrite Forall_forall in Hall. intros y [_ ?]%list_elem_of_filter. auto.
  - intros x y [Hxy Hx]. rewrite !starts_with_false. intros Hn Hy. apply Hn.
    eapply (prefix_convex p from); eauto. apply bytes_le_lt_eq. by left.
Qed.

(** Iterating backward from a key [p ++ x] while the prefix is [p]. *)
Lemma take_while_backward p from l :
  StronglySorted key_lt l → p `prefix_of` from →
  take_while (λ e, starts_with e.1 p) (reverse (filter (λ e, e.1 ≤b from) l)) =
  reverse (filter (λ e, p `prefix_of` e.1 ∧ e.1 ≤b from) l).
Proof.
  intros Hs Hp. rewrite (take_while_filter (λ x y, key_lt y x ∧ x.1 ≤b from)).
  - rewrite <- filter_reverse. rewrite <- filter_reverse, list_filter_filter.
    apply filter_ext_in. intros e _. by rewrite starts_with_iff.
  - assert (StronglySorted (λ x y, key_lt x y ∧ y.1 ≤b from) (filter (λ e, e.1 ≤b from) l)) as H.
    { induction Hs as [|x l Hs IH Hall]; [constructor|]. rewrite filter_cons.
      case_decide; [|done]. constructor; [done|]. apply Forall_forall.
      rewrite Forall_forall in Hall. intros y [? ?]%list_elem_of_filter. auto. }
    by apply StronglySorted_reverse in H.
  - intros x y [Hxy Hx]. rewrite !starts_with_false. intros Hn Hy. apply Hn.
    eapply (prefix_convex p y.1 x.1 from); eauto. apply bytes_le_lt_eq. by left.
Qed.

Lemma scan_forward p m :
  take_while (λ e, starts_with e.1 p) (filter (λ e, p ≤b e.1) (sorted_entries m)) = with_prefix p m.
Proof.
  rewrite take_while_forward by auto with kv. apply filter_ext_in.
  intros e _. split; [tauto|]. auto using bytes_le_prefix.
Qed.

(** ** Counters *)

Definition incr_map (m : gmap bytes bytes) (k : bytes) : gmap bytes bytes :=
  <[k := to_be_bytes (count_of (m !! k) + 1)]> m.

Definition insert_all (m : gmap bytes bytes) (l : list entry) : gmap bytes bytes :=
  foldl (λ m e, <[e.1 := e.2]> m) m l.

(** Deleting a list of keys, as the [for .. remove] loops do. *)
Definition delete_keys (ks : list bytes) (m : gmap bytes bytes) : gmap bytes bytes :=
  foldl (λ m k, delete k m) m ks.

Lemma lookup_delete_keys ks m k :
  delete_keys ks m !! k = if decide (k ∈ ks) then None else m !! k.
Proof.
  unfold delete_keys. revert m. induction ks as [|k' ks IH]; intros m; cbn [foldl].
  { case_decide as Hk; [by apply not_elem_of_nil in Hk|done]. }
  rewrite IH. destruct (decide (k = k')) as [->|Hne].
  - rewrite lookup_delete_eq. destruct (decide (k' ∈ ks)), (decide (k' ∈ k' :: ks)); set_solver.
  - rewrite lookup_delete_ne by done.
    destruct (decide (k ∈ ks)), (decide (k ∈ k' :: ks)); set_solver.
Qed.

(** ** The interface *)

Class KvTree := {
  tree : Type;
  tree_empty : tree;
  kv_get : tree → bytes → option bytes;
  kv_insert : tree → bytes → bytes → tree;
  kv_insert_batch : tree → list entry → tree;
  kv_remove : tree → bytes → tree;
  kv_iter : tree → list entry;
  kv_iter_from : tree → bytes → bool → list entry;
  kv_increment : tree → bytes → bytes * tree;
  kv_increment_batch : tree → list bytes → tree;
  kv_scan_prefix : tree → bytes → list entry;
  kv_clear : tree → tree;
  kv_watch_prefix : tree → bytes → nat * tree;
  (** the channel of a registered watcher, and the channels that were notified *)
  kv_watching : tree → bytes → nat → Prop;
  kv_fired : tree → nat → Prop;

  contents : tree → gmap bytes bytes;
  contents_empty : contents tree_empty = ∅;
  get_contents t k : kv_get t k = contents t !! k;
  contents_insert t k v : contents (kv_insert t k v) = <[k := v]> (contents t);
  contents_insert_batch t l : contents (kv_insert_batch t l) = insert_all (contents t) l;
  contents_remove t k : contents (kv_remove t k) = delete k (contents t);
  iter_contents t : kv_iter t = sorted_entries (contents t);
  iter_from_forward t from :
    kv_iter_from t from false = filter (λ e, from ≤b e.1) (sorted_entries (contents t));
  iter_from_backward t from :
    kv_iter_from t from true = reverse (filter (λ e, e.1 ≤b from) (sorted_entries (contents t)));
  increment_value t k : (kv_increment t k).1 = to_be_bytes (count_of (contents t !! k) + 1);
  contents_increment t k : contents (kv_increment t k).2 = incr_map (contents t) k;
  contents_increment_batch t ks :
    contents (kv_increment_batch t ks) = foldl incr_map (contents t) ks;
  scan_prefix_contents t p : kv_scan_prefix t p = with_prefix p (contents t);
  contents_clear t : contents (kv_clear t) = ∅;

  contents_watch t p : contents (kv_watch_prefix t p).2 = contents t;
  watch_registers t p : kv_watching (kv_watch_prefix t p).2 p (kv_watch_prefix t p).1;
  insert_wakes t p c k v :
    kv_watching t p c → p `prefix_of` k → kv_fired (kv_insert t k v) c;
  insert_keeps t p c k v :
    kv_watching t p c → ¬ p `prefix_of` k → kv_watching (kv_insert t k v) p c;
}.

Section derived.
Context {T : KvTree}.
Implicit Types t : tree.

(** [iter_from(p ++ x, false).take_while(starts_with(p))]. *)
Lemma iter_forward_while t p from :
  p `prefix_of` from →
  take_while (λ e, starts_with e.1 p) (kv_iter_from t from false) =
  filter (λ e, from ≤b e.1) (with_prefix p (contents t)).
Proof.
  intros Hp. rewrite iter_from_forward, take_while_forward by auto with kv.
  unfold with_prefix. rewrite list_filter_filter. apply filter_ext_in. tauto.
Qed.

(** [iter_from(p ++ x, true).take_while(starts_with(p))]. *)
Lemma iter_backward_while t p from :
  p `prefix_of` from →
  take_while (λ e, starts_with e.1 p) (kv_iter_from t from true) =
  reverse (filter (λ e, e.1 ≤b from) (with_prefix p (contents t))).
Proof.
  intros Hp. rewrite iter_from_backward, take_while_backward by auto with kv.
  unfold with_prefix. rewrite list_filter_filter. f_equal. apply filter_ext_in. tauto.
Qed.
End derived.
