(* ===== verification/Engines.v ===== *)
(** * Storage engines ([src/database/abstraction/])

    [Watchers] ([watchers.rs]), the two back ends of the default build,
    [RocksDbEngineTree] ([rocksdb.rs]) and [SqliteTable] ([sqlite.rs]), and
    [PersyTree] ([persy.rs]), each over the interface of the third-party library
    it calls.  The libraries are parameters: the classes [RocksDB], [Sqlite] and
    [Persy] list the calls the code makes
    and their documented behaviour (an ordered map with point reads, writes,
    deletes and ordered iteration over a consistent snapshot; no I/O failure).
    The engines are instances of [KvTree]. *)

From S2P Require Import Prelude Bytes RStr Error Utils KvTree.

(** ** Watchers *)

Module Watchers.
(** A channel is a number; [sent] are the channels whose sender was used. *)
Record t := Mk { watchers : gmap bytes nat; next_chan : nat; sent : gset nat }.

Definition default : t := Mk ∅ 0 ∅.

(** [Watchers::watch]: the receiver of the entry, made when vacant. *)
Definition watch (w : t) (prefix : bytes) : nat * t :=
  match watchers w !! prefix with
  | Some rx => (rx, w)
  | None =>
      let c := next_chan w in
      (c, Mk (<[prefix := c]> (watchers w)) (S c) (sent w))
  end.

(** [key[..length]] for [length in 0..=key.len()], kept when registered. *)
Definition triggered (w : t) (key : bytes) : list bytes :=
  filter (λ p, is_Some (watchers w !! p)) ((λ n, take n key) <$> seq 0 (S (length key))).

(** [watchers.remove(prefix)] and [tx.0.send(())]. *)
Definition notify (w : t) (prefix : bytes) : t :=
  match watchers w !! prefix with
  | Some c => Mk (delete prefix (watchers w)) (next_chan w) ({[c]} ∪ sent w)
  | None => w
  end.

Definition wake (w : t) (key : bytes) : t := foldl notify w (triggered w key).

Definition watching (w : t) (p : bytes) (c : nat) : Prop := watchers w !! p = Some c.

Lemma watch_watching w p : watching (watch w p).2 p (watch w p).1.
Proof.
  unfold watching, watch. destruct (watchers w !! p) eqn:E; simpl; [done|].
  apply lookup_insert_eq.
Qed.

Lemma elem_of_triggered w key p :
  p ∈ triggered w key ↔ is_Some (watchers w !! p) ∧ p `prefix_of` key.
Proof.
  unfold triggered. rewrite list_elem_of_filter, list_elem_of_fmap. split.
  - intros [? (n & -> & _)]. split; [done|]. exists (drop n key). by rewrite take_drop.
  - intros [? [r ->]]. split; [done|]. exists (length p). split.
    + by rewrite take_app_length.
    + apply elem_of_seq. rewrite length_app. lia.
Qed.

Lemma notify_all w ps p :
  (p ∉ ps → watchers (foldl notify w ps) !! p = watchers w !! p) ∧
  (∀ c, p ∈ ps → watchers w !! p = Some c → c ∈ sent (foldl notify w ps)) ∧
  sent w ⊆ sent (foldl notify w ps).
Proof.
  revert w. induction ps as [|q ps IH]; intros w; cbn [foldl].
  { repeat split; auto. by intros ? ?%not_elem_of_nil. }
  destruct (IH (notify w q)) as (H1 & H2 & H3).
  assert (sent w ⊆ sent (notify w q)) as Hs.
  { unfold notify. destruct (watchers w !! q); set_solver. }
  repeat split.
  - rewrite not_elem_of_cons. intros [Hne Hps]. rewrite H1 by done.
    unfold notify. destruct (watchers w !! q); [|done]. simpl. by rewrite lookup_delete_ne.
  - intros c Hin Hc. destruct (decide (p = q)) as [->|Hne].
    + apply H3. unfold notify. rewrite Hc. simpl. set_solver.
    + apply elem_of_cons in Hin as [->|Hin]; [done|]. apply H2; [done|].
      unfold notify. destruct (watchers w !! q); [|done]. simpl. by rewrite lookup_delete_ne.
  - set_solver.
Qed.

(** Waking a key notifies the watchers of its prefixes and no other. *)
Lemma wake_fires w p c key : watching w p c → p `prefix_of` key → c ∈ sent (wake w key).
Proof.
  intros Hw Hp. destruct (notify_all w (triggered w key) p) as (_ & H & _).
  apply H; [|done]. apply elem_of_triggered. unfold watching in Hw. split; [by eexists|done].
Qed.

Lemma wake_keeps w p c key : watching w p c → ¬ p `prefix_of` key → watching (wake w key) p c.
Proof.
  intros Hw Hp. unfold watching, wake.
  rewrite (proj1 (notify_all w (triggered w key) p)); [done|].
  rewrite elem_of_triggered. tauto.
Qed.
End Watchers.

(** ** RocksDB *)

Inductive Direction := Forward | Reverse.
Inductive IteratorMode := Start | From (key : bytes) (d : Direction).

(** A column family of the [rocksdb] crate. *)
Class RocksDB := {
  cf : Type;
  create_cf : cf;
  get_cf : cf → bytes → option bytes;
  put_cf : cf → bytes → bytes → cf;
  delete_cf : cf → bytes → cf;
  iterator_cf : cf → IteratorMode → list entry;
  get_create_cf k : get_cf create_cf k = None;
  get_put_cf c k v k' : get_cf (put_cf c k v) k' = if decide (k = k') then Some v else get_cf c k';
  get_delete_cf c k k' : get_cf (delete_cf c k) k' = if decide (k = k') then None else get_cf c k';
  iterator_start_sorted c : StronglySorted key_lt (iterator_cf c Start);
  iterator_start_elem c k v : (k, v) ∈ iterator_cf c Start ↔ get_cf c k = Some v;
  iterator_forward c k :
    iterator_cf c (From k Forward) = filter (λ e, k ≤b e.1) (iterator_cf c Start);
  iterator_reverse c k :
    iterator_cf c (From k Reverse) = reverse (filter (λ e, e.1 ≤b k) (iterator_cf c Start));
}.

Module Rocks.
Section rocks.
Context {R : RocksDB}.

Record t := Mk { db : cf; watchers : Watchers.t }.

Definition open_tree : t := Mk create_cf Watchers.default.
Definition get (s : t) (key : bytes) : option bytes := get_cf (db s) key.
Definition insert (s : t) (key value : bytes) : t :=
  Mk (put_cf (db s) key value) (Watchers.wake (watchers s) key).
Definition insert_batch (s : t) (iter : list entry) : t :=
  Mk (foldl (λ c e, put_cf c e.1 e.2) (db s) iter) (watchers s).
Definition remove (s : t) (key : bytes) : t := Mk (delete_cf (db s) key) (watchers s).
Definition iter (s : t) : list entry := iterator_cf (db s) Start.
Definition iter_from (s : t) (from : bytes) (backwards : bool) : list entry :=
  iterator_cf (db s) (From from (if backwards then Reverse else Forward)).

(** [utils::increment] always returns [Some], so the [unwrap] is total. *)
Definition increment_cf (c : cf) (key : bytes) : bytes * cf :=
  let old := get_cf c key in
  let new := default [] (increment old) in
  (new, put_cf c key new).
Definition increment (s : t) (key : bytes) : bytes * t :=
  let '(new, c) := increment_cf (db s) key in (new, Mk c (watchers s)).
Definition increment_batch (s : t) (iter : list bytes) : t :=
  Mk (foldl (λ c key, (increment_cf c key).2) (db s) iter) (watchers s).
Definition scan_prefix (s : t) (prefix : bytes) : list entry :=
  take_while (λ e, starts_with e.1 prefix) (iterator_cf (db s) (From prefix Forward)).
Definition watch_prefix (s : t) (prefix : bytes) : nat * t :=
  let '(c, w) := Watchers.watch (watchers s) prefix in (c, Mk (db s) w).

(** [KvTree::clear], the default of the trait: remove every key of [iter]. *)
Definition clear (s : t) : t := foldl (λ s e, remove s e.1) s (iter s).

(** The column family as a finite map. *)
Definition cf_map (c : cf) : gmap bytes bytes := list_to_map (iterator_cf c Start).

Lemma lookup_cf_map c k : cf_map c !! k = get_cf c k.
Proof.
  apply option_eq. intros v. rewrite <- iterator_start_elem. unfold cf_map.
  rewrite elem_of_list_to_map; [done|].
  apply (NoDup_sorted bytes_lt).
  apply (StronglySorted_fmap key_lt); [|apply iterator_start_sorted]. by intros.
Qed.

Lemma cf_map_put c k v : cf_map (put_cf c k v) = <[k := v]> (cf_map c).
Proof.
  apply map_eq. intros k'. rewrite lookup_cf_map, get_put_cf, lookup_insert, lookup_cf_map. done.
Qed.

Lemma cf_map_delete c k : cf_map (delete_cf c k) = delete k (cf_map c).
Proof.
  apply map_eq. intros k'. rewrite lookup_cf_map, get_delete_cf, lookup_delete, lookup_cf_map. done.
Qed.

Lemma iterator_start c : iterator_cf c Start = sorted_entries (cf_map c).
Proof.
  apply entries_unique; [apply iterator_start_sorted|auto with kv|].
  intros [k v]. by rewrite iterator_start_elem, elem_of_sorted_entries, lookup_cf_map.
Qed.

Lemma cf_map_increment c k : cf_map (increment_cf c k).2 = incr_map (cf_map c) k.
Proof.
  unfold increment_cf. cbn [snd]. rewrite cf_map_put, increment_spec. unfold incr_map.
  by rewrite lookup_cf_map.
Qed.

Lemma cf_map_clear s : cf_map (db (clear s)) = ∅.
Proof.
  assert (∀ (l : list entry) s, cf_map (db (foldl (λ s e, remove s e.1) s l)) =
                 delete_keys l.*1 (cf_map (db s))) as Hl.
  { clear s. intros l. induction l as [|e l IH]; intros s; [done|].
    cbn [foldl]. rewrite fmap_cons, IH. unfold remove. cbn [db]. by rewrite cf_map_delete. }
  unfold clear. rewrite Hl. apply map_empty. intros k. rewrite lookup_delete_keys.
  case_decide as Hk; [done|]. rewrite lookup_cf_map.
  destruct (get_cf (db s) k) as [v|] eqn:E; [|done]. destruct Hk.
  apply iterator_start_elem in E. apply list_elem_of_fmap. by exists (k, v).
Qed.

#[export] Instance kvtree : KvTree.
Proof.
  refine {| tree := t; tree_empty := open_tree; kv_get := get; kv_insert := insert;
    kv_insert_batch := insert_batch; kv_remove := remove; kv_iter := iter;
    kv_iter_from := iter_from; kv_increment := increment;
    kv_increment_batch := increment_batch; kv_scan_prefix := scan_prefix;
    kv_clear := clear; kv_watch_prefix := watch_prefix;
    kv_watching s := Watchers.watching (watchers s);
    kv_fired s c := c ∈ Watchers.sent (watchers s);
    contents s := cf_map (db s) |}.
  - apply map_empty. intros k. rewrite lookup_cf_map. apply get_create_cf.
  - intros. by rewrite lookup_cf_map.
  - intros. apply cf_map_put.
  - intros [c w] l. unfold insert_batch, insert_all. cbn [db]. revert c.
    induction l as [|e l IH]; intros c; [done|]. cbn [foldl]. by rewrite IH, cf_map_put.
  - intros. apply cf_map_delete.
  - intros. apply iterator_start.
  - intros. unfold iter_from. by rewrite iterator_forward, iterator_start.
  - intros. unfold iter_from. by rewrite iterator_reverse, iterator_start.
  - intros. unfold increment, increment_cf. cbn [fst]. by rewrite increment_spec, lookup_cf_map.
  - intros. apply cf_map_increment.
  - intros [c w] ks. unfold increment_batch. cbn [db]. revert c.
    induction ks as [|k ks IH]; intros c; [done|]. cbn [foldl]. by rewrite IH, cf_map_increment.
  - intros. unfold scan_prefix. rewrite iterator_forward, iterator_start. apply scan_forward.
  - apply cf_map_clear.
  - intros. unfold watch_prefix. by destruct (Watchers.watch _ _).
  - intros s p. unfold watch_prefix. pose proof (Watchers.watch_watching (watchers s) p).
    by destruct (Watchers.watch _ _).
  - intros. by eapply Watchers.wake_fires.
  - intros. by eapply Watchers.wake_keeps.
Defined.
End rocks.
End Rocks.

(** A column family that is a finite map: the documented behaviour is
    consistent, and examples evaluate. *)
#[export, program] Instance gmap_rocks : RocksDB := {|
  cf := gmap bytes bytes;
  create_cf := ∅;
  get_cf m k := m !! k;
  put_cf m k v := <[k := v]> m;
  delete_cf m k := delete k m;
  iterator_cf m mode :=
    match mode with
    | Start => sorted_entries m
    | From k Forward => filter (λ e, k ≤b e.1) (sorted_entries m)
    | From k Reverse => reverse (filter (λ e, e.1 ≤b k) (sorted_entries m))
    end |}.
Next Obligation. intros k. apply lookup_empty. Qed.
Next Obligation. intros m k v k'. apply lookup_insert. Qed.
Next Obligation. intros m k k'. apply lookup_delete. Qed.
Next Obligation. intros m. apply sorted_entries_sorted. Qed.
Next Obligation. intros m k v. apply elem_of_sorted_entries. Qed.
Next Obligation. done. Qed.
Next Obligation. done. Qed.

(** ** SQLite *)

(** The statements the code prepares on one table of the [rusqlite] crate. *)
Class Sqlite := {
  table : Type;
  create_table : table;
  select_value : table → bytes → option bytes;            (* SELECT value WHERE key = ? *)
  insert_or_replace : table → bytes → bytes → table;      (* INSERT OR REPLACE *)
  delete_where : table → bytes → table;                   (* DELETE WHERE key = ? *)
  delete_all : table → table;                             (* DELETE *)
  select_asc : table → list entry;                        (* ORDER BY key ASC *)
  select_ge_asc : table → bytes → list entry;             (* WHERE key >= ? ORDER BY key ASC *)
  select_le_desc : table → bytes → list entry;            (* WHERE key <= ? ORDER BY key DESC *)
  select_create k : select_value create_table k = None;
  select_insert c k v k' :
    select_value (insert_or_replace c k v) k' = if decide (k = k') then Some v else select_value c k';
  select_delete c k k' :
    select_value (delete_where c k) k' = if decide (k = k') then None else select_value c k';
  select_delete_all c k : select_value (delete_all c) k = None;
  select_asc_sorted c : StronglySorted key_lt (select_asc c);
  select_asc_elem c k v : (k, v) ∈ select_asc c ↔ select_value c k = Some v;
  select_ge_spec c k : select_ge_asc c k = filter (λ e, k ≤b e.1) (select_asc c);
  select_le_spec c k : select_le_desc c k = reverse (filter (λ e, e.1 ≤b k) (select_asc c));
}.

Module SqliteTable.
Section sqlite.
Context {Q : Sqlite}.

Record t := Mk { rows : table; watchers : Watchers.t }.

Definition open_tree : t := Mk create_table Watchers.default.
Definition get_with_guard (s : t) (key : bytes) : option bytes := select_value (rows s) key.
Definition insert_with_guard (s : t) (key value : bytes) : t :=
  Mk (insert_or_replace (rows s) key value) (watchers s).
Definition get (s : t) (key : bytes) : option bytes := get_with_guard s key.
Definition insert (s : t) (key value : bytes) : t :=
  let s := insert_with_guard s key value in
  Mk (rows s) (Watchers.wake (watchers s) key).
Definition insert_batch (s : t) (iter : list entry) : t :=
  foldl (λ s e, insert_with_guard s e.1 e.2) s iter.
Definition remove (s : t) (key : bytes) : t := Mk (delete_where (rows s) key) (watchers s).
Definition iter (s : t) : list entry := select_asc (rows s).
Definition iter_from (s : t) (from : bytes) (backwards : bool) : list entry :=
  if backwards then select_le_desc (rows s) from else select_ge_asc (rows s) from.
Definition increment (s : t) (key : bytes) : bytes * t :=
  let old := get_with_guard s key in
  let new := default [] (Utils.increment old) in
  (new, insert_with_guard s key new).
Definition increment_batch (s : t) (iter : list bytes) : t :=
  foldl (λ s key, (increment s key).2) s iter.
Definition scan_prefix (s : t) (prefix : bytes) : list entry :=
  take_while (λ e, starts_with e.1 prefix) (iter_from s prefix false).
Definition watch_prefix (s : t) (prefix : bytes) : nat * t :=
  let '(c, w) := Watchers.watch (watchers s) prefix in (c, Mk (rows s) w).
Definition clear (s : t) : t := Mk (delete_all (rows s)) (watchers s).

Definition row_map (c : table) : gmap bytes bytes := list_to_map (select_asc c).

Lemma lookup_row_map c k : row_map c !! k = select_value c k.
Proof.
  apply option_eq. intros v. rewrite <- select_asc_elem. unfold row_map.
  rewrite elem_of_list_to_map; [done|].
  apply (NoDup_sorted bytes_lt).
  apply (StronglySorted_fmap key_lt); [|apply select_asc_sorted]. by intros.
Qed.

Lemma row_map_insert c k v : row_map (insert_or_replace c k v) = <[k := v]> (row_map c).
Proof.
  apply map_eq. intros k'.
  rewrite lookup_row_map, select_insert, lookup_insert, lookup_row_map. done.
Qed.

Lemma select_asc_rows c : select_asc c = sorted_entries (row_map c).
Proof.
  apply entries_unique; [apply select_asc_sorted|auto with kv|].
  intros [k v]. by rewrite select_asc_elem, elem_of_sorted_entries, lookup_row_map.
Qed.

Lemma row_map_increment s k : row_map (rows (increment s k).2) = incr_map (row_map (rows s)) k.
Proof.
  unfold increment, insert_with_guard. cbn [snd rows]. rewrite row_map_insert, increment_spec.
  unfold incr_map, get_with_guard. by rewrite lookup_row_map.
Qed.

#[export] Instance kvtree : KvTree.
Proof.
  refine {| tree := t; tree_empty := open_tree; kv_get := get; kv_insert := insert;
    kv_insert_batch := insert_batch; kv_remove := remove; kv_iter := iter;
    kv_iter_from := iter_from; kv_increment := increment;
    kv_increment_batch := increment_batch; kv_scan_prefix := scan_prefix;
    kv_clear := clear; kv_watch_prefix := watch_prefix;
    kv_watching s := Watchers.watching (watchers s);
    kv_fired s c := c ∈ Watchers.sent (watchers s);
    contents s := row_map (rows s) |}.
  - apply map_empty. intros k. rewrite lookup_row_map. apply select_create.
  - intros. by rewrite lookup_row_map.
  - intros. apply row_map_insert.
  - intros s l. unfold insert_batch, insert_all. revert s.
    induction l as [|e l IH]; intros s; [done|]. cbn [foldl].
    rewrite IH. unfold insert_with_guard. cbn [rows]. by rewrite row_map_insert.
  - intros. apply map_eq. intros k'. cbn.
    by rewrite lookup_row_map, select_delete, lookup_delete, lookup_row_map.
  - intros. apply select_asc_rows.
  - intros. cbn. by rewrite select_ge_spec, select_asc_rows.
  - intros. cbn. by rewrite select_le_spec, select_asc_rows.
  - intros. unfold increment. cbn [fst]. by rewrite increment_spec, lookup_row_map.
  - intros. apply row_map_increment.
  - intros s ks. unfold increment_batch. revert s.
    induction ks as [|k ks IH]; intros s; [done|]. cbn [foldl]. by rewrite IH, row_map_increment.
  - intros. unfold scan_prefix, iter_from. rewrite select_ge_spec, select_asc_rows.
    apply scan_forward.
  - intros. apply map_empty. intros k. cbn. by rewrite lookup_row_map, select_delete_all.
  - intros. unfold watch_prefix. by destruct (Watchers.watch _ _).
  - intros s p. unfold watch_prefix. pose proof (Watchers.watch_watching (watchers s) p).
    by destruct (Watchers.watch _ _).
  - intros. by eapply Watchers.wake_fires.
  - intros. by eapply Watchers.wake_keeps.
Defined.
End sqlite.
End SqliteTable.

#[export, program] Instance gmap_sqlite : Sqlite := {|
  table := gmap bytes bytes;
  create_table := ∅;
  select_value m k := m !! k;
  insert_or_replace m k v := <[k := v]> m;
  delete_where m k := delete k m;
  delete_all m := ∅;
  select_asc m := sorted_entries m;
  select_ge_asc m k := filter (λ e, k ≤b e.1) (sorted_entries m);
  select_le_desc m k := reverse (filter (λ e, e.1 ≤b k) (sorted_entries m)) |}.
Next Obligation. intros k. apply lookup_empty. Qed.
Next Obligation. intros m k v k'. apply lookup_insert. Qed.
Next Obligation. intros m k k'. apply lookup_delete. Qed.
Next Obligation. intros m k. apply lookup_empty. Qed.
Next Obligation. intros m. apply sorted_entries_sorted. Qed.
Next Obligation. intros m k v. apply elem_of_sorted_entries. Qed.
Next Obligation. done. Qed.
Next Obligation. done. Qed.

(** ** Persy *)

(** An index of the [persy] crate, whose keys have one value each ([ValueMode::Replace]);
    a transaction works on the index and sees its own changes. *)
Class Persy := {
  index : Type;
  create_index : index;
  index_get : index → bytes → list bytes;
  index_put : index → bytes → bytes → index;
  index_remove : index → bytes → index;
  range_all : index → list (bytes * list bytes);            (* .. *)
  range_from : index → bytes → list (bytes * list bytes);   (* from.. *)
  range_to : index → bytes → list (bytes * list bytes);     (* ..=to *)
  index_get_create k : index_get create_index k = [];
  index_get_put i k v k' : index_get (index_put i k v) k' = if decide (k = k') then [v] else index_get i k';
  index_get_remove i k k' : index_get (index_remove i k) k' = if decide (k = k') then [] else index_get i k';
  range_sorted i : StronglySorted (λ a b, a.1 <b b.1) (range_all i);
  range_elem i k vs : (k, vs) ∈ range_all i ↔ index_get i k = vs ∧ vs ≠ [];
  range_from_spec i k : range_from i k = filter (λ e, k ≤b e.1) (range_all i);
  range_to_spec i k : range_to i k = filter (λ e, e.1 ≤b k) (range_all i);
}.

Module PersyTree.
Section persy.
Context {P : Persy}.

Record t := Mk { persy : index; watchers : Watchers.t }.

(** [filter_map(|(k, v)| v.into_iter().map(..).next())] *)
Definition first_values (l : list (bytes * list bytes)) : list entry :=
  omap (λ e, (λ v, (e.1, v)) <$> head e.2) l.

Definition open_tree : t := Mk create_index Watchers.default.
Definition get (s : t) (key : bytes) : option bytes := head (index_get (persy s) key).
Definition insert_batch (s : t) (iter : list entry) : t :=
  Mk (foldl (λ tx e, index_put tx e.1 e.2) (persy s) iter) (watchers s).
Definition insert (s : t) (key value : bytes) : t :=
  let s := insert_batch s [(key, value)] in Mk (persy s) (Watchers.wake (watchers s) key).
Definition increment_batch (s : t) (iter : list bytes) : t :=
  Mk (foldl (λ tx key, index_put tx key (default [] (Utils.increment (head (index_get tx key))))) (persy s) iter) (watchers s).
Definition remove (s : t) (key : bytes) : t := Mk (index_remove (persy s) key) (watchers s).
Definition iter (s : t) : list entry := first_values (range_all (persy s)).
Definition iter_from (s : t) (from : bytes) (backwards : bool) : list entry :=
  let map := first_values (if backwards then range_to (persy s) from else range_from (persy s) from) in
  if backwards then reverse map else map.
(** The value is there after the batch, so the [unwrap] is total. *)
Definition increment (s : t) (key : bytes) : bytes * t :=
  let s := increment_batch s [key] in (default [] (get s key), s).
Definition scan_prefix (s : t) (prefix : bytes) : list entry :=
  first_values (take_while (λ e, starts_with e.1 prefix) (range_from (persy s) prefix)).
Definition watch_prefix (s : t) (prefix : bytes) : nat * t :=
  let '(c, w) := Watchers.watch (watchers s) prefix in (c, Mk (persy s) w).
(** The default of the trait. *)
Definition clear (s : t) : t := foldl (λ s e, remove s e.1) s (iter s).

(** Ranges have no empty lists of values, so that their first values are entries with
    the same keys. *)
Definition full (l : list (bytes * list bytes)) : Prop := Forall (λ e, e.2 ≠ []) l.
Lemma range_full i : full (range_all i).
Proof. apply Forall_forall. intros [k vs] H. by apply range_elem in H as [_ H]. Qed.
Lemma full_filter (Q : bytes * list bytes → Prop) `{!∀ e, Decision (Q e)} l : full l → full (filter Q l).
Proof. unfold full. rewrite !Forall_forall. intros Hl e [_ He]%list_elem_of_filter. by apply Hl. Qed.
Lemma first_values_cons e l : e.2 ≠ [] → ∃ v, first_values (e :: l) = (e.1, v) :: first_values l.
Proof. destruct e as [k [|v vs]]; [done|]. by exists v. Qed.
Lemma first_values_filter (Q : bytes → Prop) `{!∀ k, Decision (Q k)} l : full l →
  first_values (filter (λ e, Q e.1) l) = filter (λ e, Q e.1) (first_values l).
Proof.
  induction 1 as [|e l He Hl IH]; [done|]. destruct (first_values_cons e l He) as [v E]. rewrite E.
  destruct (decide (Q e.1)) as [HQ|HQ].
  - rewrite !filter_cons_True by done. destruct (first_values_cons e (filter (λ e, Q e.1) l) He) as [v' E'].
    rewrite E', IH. f_equal. destruct e as [k [|w ws]]; [done|]. cbn in E, E'. congruence.
  - by rewrite !filter_cons_False by done.
Qed.
Lemma first_values_while (Q : bytes → bool) l : full l →
  first_values (take_while (λ e, Q e.1) l) = take_while (λ e, Q e.1) (first_values l).
Proof.
  induction 1 as [|[k [|v vs]] l He Hl IH]; [done..|].
  change (first_values ((k, v :: vs) :: l)) with ((k, v) :: first_values l). cbn [take_while fst]. destruct (Q k); [|done].
  rewrite <- IH. done.
Qed.
Lemma first_values_sorted l : full l → StronglySorted (λ a b, a.1 <b b.1) l → StronglySorted key_lt (first_values l).
Proof.
  intros Hf Hs. induction Hs as [|[k [|v vs]] l Hs IH Hall]; [constructor|by apply Forall_cons in Hf as [? _]|].
  apply Forall_cons in Hf as [_ Hf]. cbn. constructor; [by apply IH|]. clear -Hall Hf.
  induction Hf as [|[k' [|v' vs']] l He Hl IH]; [constructor|done|]. apply Forall_cons in Hall as [Hk Hall]. cbn.
  constructor; [done|by apply IH].
Qed.
Lemma elem_of_first_values i k v : (k, v) ∈ first_values (range_all i) ↔ head (index_get i k) = Some v.
Proof.
  unfold first_values. rewrite list_elem_of_omap. split.
  - intros ([k' vs] & Hin & E). apply range_elem in Hin as [Hv _]. cbn in E.
    destruct (head vs) as [w|] eqn:Ev; [|done]. injection E as -> ->. by rewrite Hv.
  - intros E. exists (k, index_get i k). cbn. rewrite E. split; [|done].
    apply range_elem. split; [done|]. intros H. by rewrite H in E.
Qed.

Definition index_map (i : index) : gmap bytes bytes := list_to_map (first_values (range_all i)).
Lemma lookup_index_map i k : index_map i !! k = head (index_get i k).
Proof.
  apply option_eq. intros v. rewrite <- elem_of_first_values. unfold index_map.
  rewrite elem_of_list_to_map; [done|]. apply (NoDup_sorted bytes_lt).
  apply (StronglySorted_fmap key_lt); [by intros|]. apply first_values_sorted; [apply range_full|apply range_sorted].
Qed.
Lemma index_map_put i k v : index_map (index_put i k v) = <[k := v]> (index_map i).
Proof.
  apply map_eq. intros k'. rewrite lookup_index_map, index_get_put, lookup_insert, lookup_index_map.
  by destruct (decide (k = k')).
Qed.
Lemma index_map_remove i k : index_map (index_remove i k) = delete k (index_map i).
Proof.
  apply map_eq. intros k'. rewrite lookup_index_map, index_get_remove, lookup_delete, lookup_index_map.
  by destruct (decide (k = k')).
Qed.
Lemma range_entries i : first_values (range_all i) = sorted_entries (index_map i).
Proof.
  apply entries_unique; [apply first_values_sorted; [apply range_full|apply range_sorted]|auto with kv|].
  intros [k v]. by rewrite elem_of_first_values, elem_of_sorted_entries, lookup_index_map.
Qed.
Lemma index_map_increment s ks : index_map (persy (increment_batch s ks)) = foldl incr_map (index_map (persy s)) ks.
Proof.
  destruct s as [i w]. unfold increment_batch. cbn [persy]. revert i.
  induction ks as [|k ks IH]; intros i; [done|]. cbn [foldl]. rewrite IH, index_map_put, increment_spec.
  f_equal. unfold incr_map. by rewrite lookup_index_map.
Qed.
Lemma index_map_clear s : index_map (persy (clear s)) = ∅.
Proof.
  assert (∀ (l : list entry) s, index_map (persy (foldl (λ s e, remove s e.1) s l)) = delete_keys l.*1 (index_map (persy s))) as Hl.
  { clear s. intros l. induction l as [|e l IH]; intros s; [done|].
    cbn [foldl]. rewrite fmap_cons, IH. unfold remove. cbn [persy]. by rewrite index_map_remove. }
  unfold clear. rewrite Hl. apply map_empty. intros k. rewrite lookup_delete_keys.
  case_decide as Hk; [done|]. rewrite lookup_index_map. destruct (head (index_get (persy s) k)) as [v|] eqn:E; [|done]. destruct Hk.
  apply elem_of_first_values in E. apply list_elem_of_fmap. by exists (k, v).
Qed.

#[export] Instance kvtree : KvTree.
Proof.
  refine {| tree := t; tree_empty := open_tree; kv_get := get; kv_insert := insert;
    kv_insert_batch := insert_batch; kv_remove := remove; kv_iter := iter;
    kv_iter_from := iter_from; kv_increment := increment;
    kv_increment_batch := increment_batch; kv_scan_prefix := scan_prefix;
    kv_clear := clear; kv_watch_prefix := watch_prefix;
    kv_watching s := Watchers.watching (watchers s);
    kv_fired s c := c ∈ Watchers.sent (watchers s);
    contents s := index_map (persy s) |}.
  - apply map_empty. intros k. rewrite lookup_index_map. cbn. by rewrite index_get_create.
  - intros. by rewrite lookup_index_map.
  - intros. apply index_map_put.
  - intros [i w] l. unfold insert_batch, insert_all. cbn [persy]. revert i.
    induction l as [|e l IH]; intros i; [done|]. cbn [foldl]. by rewrite IH, index_map_put.
  - intros. apply index_map_remove.
  - intros. apply range_entries.
  - intros. unfold iter_from. rewrite range_from_spec, first_values_filter by apply range_full. by rewrite range_entries.
  - intros. unfold iter_from. cbv beta iota zeta. rewrite range_to_spec.
    rewrite (first_values_filter (λ k, k ≤b from) (H := λ k, bytes_le_dec k from)) by apply range_full. by rewrite range_entries.
  - intros s k. unfold increment, get. cbn [fst]. rewrite <- lookup_index_map, index_map_increment. cbn [foldl].
    unfold incr_map. by rewrite lookup_insert_eq.
  - intros. apply index_map_increment.
  - intros. apply index_map_increment.
  - intros s p. unfold scan_prefix. rewrite range_from_spec.
    rewrite (first_values_while (λ k, starts_with k p)) by apply full_filter, range_full.
    rewrite first_values_filter by apply range_full. rewrite range_entries. apply scan_forward.
  - apply index_map_clear.
  - intros. unfold watch_prefix. by destruct (Watchers.watch _ _).
  - intros s p. unfold watch_prefix. pose proof (Watchers.watch_watching (watchers s) p).
    by destruct (Watchers.watch _ _).
  - intros. by eapply Watchers.wake_fires.
  - intros. by eapply Watchers.wake_keeps.
Defined.
End persy.
End PersyTree.

#[export, program] Instance gmap_persy : Persy := {|
  index := gmap bytes bytes;
  create_index := ∅;
  index_get m k := option_list (m !! k);
  index_put m k v := <[k := v]> m;
  index_remove m k := delete k m;
  range_all m := (λ e, (e.1, [e.2])) <$> sorted_entries m;
  range_from m k := filter (λ e, k ≤b e.1) ((λ e, (e.1, [e.2])) <$> sorted_entries m);
  range_to m k := filter (λ e, e.1 ≤b k) ((λ e, (e.1, [e.2])) <$> sorted_entries m) |}.
Next Obligation. intros k. done. Qed.
Next Obligation. intros m k v k'. cbn. rewrite lookup_insert. by destruct (decide _). Qed.
Next Obligation. intros m k k'. cbn. rewrite lookup_delete. by destruct (decide _). Qed.
Next Obligation. intros m. cbn. apply (StronglySorted_fmap key_lt); [by intros|]. apply sorted_entries_sorted. Qed.
Next Obligation.
  intros m k vs. cbn. rewrite list_elem_of_fmap. split.
  - intros ([k' v] & [= -> ->] & H%elem_of_sorted_entries). cbn. by rewrite H.
  - intros [<- H]. destruct (m !! k) as [v|] eqn:E; [|done]. exists (k, v). split; [done|]. by apply elem_of_sorted_entries.
Qed.
Next Obligation. done. Qed.
Next Obligation. done. Qed.

(** ** The engines agree

    A client that only uses the interface sees the same results from all
    engines, those of a finite map. *)

Inductive kv_op :=
  | OpGet (k : bytes)
  | OpInsert (k v : bytes)
  | OpInsertBatch (l : list entry)
  | OpRemove (k : bytes)
  | OpIter
  | OpIterFrom (from : bytes) (backwards : bool)
  | OpIncrement (k : bytes)
  | OpIncrementBatch (ks : list bytes)
  | OpScanPrefix (p : bytes)
  | OpClear.

(** What an operation returns. *)
Inductive kv_out := OutUnit | OutValue (v : option bytes) | OutBytes (b : bytes) | OutEntries (l : list entry).

Definition kv_run {T : KvTree} (o : kv_op) (t : tree) : kv_out * tree :=
  match o with
  | OpGet k => (OutValue (kv_get t k), t)
  | OpInsert k v => (OutUnit, kv_insert t k v)
  | OpInsertBatch l => (OutUnit, kv_insert_batch t l)
  | OpRemove k => (OutUnit, kv_remove t k)
  | OpIter => (OutEntries (kv_iter t), t)
  | OpIterFrom from b => (OutEntries (kv_iter_from t from b), t)
  | OpIncrement k => let '(v, t) := kv_increment t k in (OutBytes v, t)
  | OpIncrementBatch ks => (OutUnit, kv_increment_batch t ks)
  | OpScanPrefix p => (OutEntries (kv_scan_prefix t p), t)
  | OpClear => (OutUnit, kv_clear t)
  end.

(** The same on finite maps. *)
Definition map_run (o : kv_op) (m : gmap bytes bytes) : kv_out * gmap bytes bytes :=
  match o with
  | OpGet k => (OutValue (m !! k), m)
  | OpInsert k v => (OutUnit, <[k := v]> m)
  | OpInsertBatch l => (OutUnit, insert_all m l)
  | OpRemove k => (OutUnit, delete k m)
  | OpIter => (OutEntries (sorted_entries m), m)
  | OpIterFrom from false => (OutEntries (filter (λ e, from ≤b e.1) (sorted_entries m)), m)
  | OpIterFrom from true => (OutEntries (reverse (filter (λ e, e.1 ≤b from) (sorted_entries m))), m)
  | OpIncrement k => (OutBytes (to_be_bytes (count_of (m !! k) + 1)), incr_map m k)
  | OpIncrementBatch ks => (OutUnit, foldl incr_map m ks)
  | OpScanPrefix p => (OutEntries (with_prefix p m), m)
  | OpClear => (OutUnit, ∅)
  end.

(** The results of a sequence of operations. *)
Fixpoint outputs {A} (run : kv_op → A → kv_out * A) (ops : list kv_op) (x : A) : list kv_out :=
  match ops with
  | [] => []
  | o :: ops => let '(r, x) := run o x in r :: outputs run ops x
  end.

Lemma kv_run_map {T : KvTree} o t :
  (kv_run o t).1 = (map_run o (contents t)).1 ∧ contents (kv_run o t).2 = (map_run o (contents t)).2.
Proof.
  destruct o as [| | | | |from []| | | |]; cbn [kv_run map_run fst snd];
    rewrite ?get_contents, ?contents_insert, ?contents_insert_batch, ?contents_remove, ?iter_contents,
      ?iter_from_forward, ?iter_from_backward, ?contents_increment_batch, ?scan_prefix_contents, ?contents_clear;
    try done.
  pose proof (increment_value t k) as Hv. pose proof (contents_increment t k) as Hc.
  destruct (kv_increment t k). cbn in *. by subst.
Qed.

Lemma outputs_map {T : KvTree} ops t : outputs kv_run ops t = outputs map_run ops (contents t).
Proof.
  revert t. induction ops as [|o ops IH]; intros t; cbn [outputs]; [done|].
  destruct (kv_run_map o t) as [H1 H2]. destruct (kv_run o t), (map_run o (contents t)). cbn in *. subst. by rewrite IH.
Qed.

(** C18: Every sequence of operations gives the same results on a RocksDB column
    family, on a SQLite table and on a Persy index, which are those of a finite map
    with ordered iteration. *)
Theorem engines_agree {R : RocksDB} {Q : Sqlite} {P : Persy} (ops : list kv_op) :
  outputs (@kv_run (@Rocks.kvtree R)) ops (@tree_empty (@Rocks.kvtree R)) = outputs map_run ops ∅ ∧
  outputs (@kv_run (@SqliteTable.kvtree Q)) ops (@tree_empty (@SqliteTable.kvtree Q)) = outputs map_run ops ∅ ∧
  outputs (@kv_run (@PersyTree.kvtree P)) ops (@tree_empty (@PersyTree.kvtree P)) = outputs map_run ops ∅.
Proof. rewrite !outputs_map. by rewrite !contents_empty. Qed.
