(* ===== verification/Text.v ===== *)
(** * Texts: what the code uses of Rust's string functions

    [replace], [lines], [join], [trim], [split_whitespace] and [chars().count()],
    and the HTML escape of [src/utils/mod.rs] on strings. *)

From S2P Require Import Prelude Bytes RStr Utils.

(** A string of bytes that are known to be text. *)
Definition of_bytes (b : bytes) : rstr := default (lit "") (from_utf8 b).

(** Texts one after the other. *)
Definition texts (l : list rstr) : rstr := foldr str_app (lit "") l.
Definition quote : rstr := MkStr [x22] eq_refl.
Definition newline : rstr := MkStr [x0a] eq_refl.

(** ** Replacing *)

(** Occurrences of a text that is not empty, from the left. *)
Fixpoint replace_all (fuel : nat) (needle to hay : bytes) : bytes :=
  match fuel with
  | O => hay
  | S fuel =>
      if starts_with hay needle then to ++ replace_all fuel needle to (drop (length needle) hay)
      else match hay with [] => [] | b :: hay => b :: replace_all fuel needle to hay end
  end.
Definition str_replace (needle to s : rstr) : rstr :=
  of_bytes (replace_all (S (length (as_bytes s))) (as_bytes needle) (as_bytes to) (as_bytes s)).

(** ** Lines *)

Definition strip_cr (cur : bytes) : bytes := match cur with x0d :: cur => cur | _ => cur end.
(** Pieces that end with a line feed, without it and a carriage return before it. *)
Fixpoint split_lines (cur s : bytes) : list bytes :=
  match s with
  | [] => match cur with [] => [] | _ => [reverse cur] end
  | b :: s =>
      if bool_decide (b = x0a) then
        reverse (strip_cr cur) :: split_lines [] s
      else split_lines (b :: cur) s
  end.
Definition lines (s : rstr) : list rstr := of_bytes <$> split_lines [] (as_bytes s).

Fixpoint join_with (separator : rstr) (l : list rstr) : rstr :=
  match l with
  | [] => lit ""
  | [s] => s
  | s :: l => str_app s (str_app separator (join_with separator l))
  end.

(** ** White space *)

(** The length of the first character if it has the property [White_Space]. *)
Definition white_prefix (s : bytes) : nat :=
  match s with
  | (x09 | x0a | x0b | x0c | x0d | x20) :: _ => 1
  | xc2 :: (x85 | xa0) :: _ => 2
  | xe1 :: x9a :: x80 :: _ => 3
  | xe2 :: x80 :: (x80 | x81 | x82 | x83 | x84 | x85 | x86 | x87 | x88 | x89 | x8a | xa8 | xa9 | xaf) :: _ => 3
  | xe2 :: x81 :: x9f :: _ => 3
  | xe3 :: x80 :: x80 :: _ => 3
  | _ => 0
  end.

Fixpoint trim_start (fuel : nat) (s : bytes) : bytes :=
  match fuel, white_prefix s with
  | S fuel, S k => trim_start fuel (drop (S k) s)
  | _, _ => s
  end.
(** What follows the last character that is no white space is cut off. *)
Fixpoint trim_end (s : bytes) : bytes :=
  match s with
  | [] => []
  | b :: s' => if bool_decide (trim_start (length s) s = []) then [] else b :: trim_end s'
  end.
Definition trim (s : rstr) : rstr := of_bytes (trim_end (trim_start (length (as_bytes s)) (as_bytes s))).

(** The parts between white space that are not empty. *)
Fixpoint split_white (fuel : nat) (cur s : bytes) : list bytes :=
  let emit (rest : list bytes) := match cur with [] => rest | _ => reverse cur :: rest end in
  match fuel, s with
  | S fuel, b :: s' =>
      match white_prefix s with
      | O => split_white fuel (b :: cur) s'
      | k => emit (split_white fuel [] (drop k s))
      end
  | _, _ => emit []
  end.
Definition split_whitespace (s : rstr) : list rstr := of_bytes <$> split_white (length (as_bytes s)) [] (as_bytes s).

(** ** Characters *)

(** Bytes that do not continue a character. *)
Definition char_count (s : rstr) : N :=
  N.of_nat (length (filter (λ b, negb (in_range 0x80 0xbf b) = true) (as_bytes s))).

(** [HtmlEscape] in a format string *)
Definition html_escape (s : rstr) : rstr := of_bytes (Utils.Html.fmt (as_bytes s)).

(** ** Examples *)

Example trim_example : trim (lit "  a b ") = lit "a b".
Proof. by_compute. Qed.
Example words_example : split_whitespace (lit " list-rooms  --help ") = [lit "list-rooms"; lit "--help"].
Proof. by_compute. Qed.
Example lines_example : lines (texts [lit "a"; newline; newline; lit "b"; newline]) = [lit "a"; lit ""; lit "b"].
Proof. by_compute. Qed.
Example replace_example : str_replace (lit "server.name") (lit "a.org") (lit "@conduit:server.name: x") = lit "@conduit:a.org: x".
Proof. by_compute. Qed.

(** ** Lines and their text *)

Lemma split_lines_piece cur l s : x0a ∉ l → split_lines cur (l ++ x0a :: s) =
  reverse (strip_cr (reverse l ++ cur)) :: split_lines [] s.
Proof.
  revert cur. induction l as [|b l IH]; intros cur Hl; cbn [split_lines app].
  - rewrite bool_decide_true by done. done.
  - apply not_elem_of_cons in Hl as [Hb Hl]. rewrite bool_decide_false by congruence. rewrite IH by done.
    by rewrite reverse_cons, <- app_assoc.
Qed.
Lemma split_lines_last cur l : x0a ∉ l → l ≠ [] → split_lines cur l = [reverse (reverse l ++ cur)].
Proof.
  revert cur. induction l as [|b l IH]; intros cur Hl Hne; [done|]. cbn [split_lines].
  apply not_elem_of_cons in Hl as [Hb Hl]. rewrite bool_decide_false by congruence.
  destruct l as [|b' l]; [cbn; by rewrite ?app_nil_l|]. rewrite IH by done. by rewrite !reverse_cons, <- !app_assoc.
Qed.

(** Lines without line feeds and carriage returns are read back from their text, if
    the last one is not empty. *)
Lemma lines_join l s : Forall (λ t, (x0a ∉ as_bytes t) ∧ (x0d ∉ as_bytes t)) (l ++ [s]) → as_bytes s ≠ [] →
  lines (join_with newline (l ++ [s])) = l ++ [s].
Proof.
  intros Hl Hs. unfold lines.
  assert (∀ t, of_bytes (as_bytes t) = t) as Ho by (intros t; unfold of_bytes; by rewrite from_utf8_as_bytes).
  induction l as [|t l IH]; cbn [app join_with].
  - apply Forall_singleton in Hl as [Hl _]. rewrite split_lines_last by done. rewrite app_nil_r, reverse_involutive. cbn. by rewrite Ho.
  - apply Forall_cons in Hl as [[Ht Hr] Hl].
    remember (l ++ [s]) as rest eqn:E. destruct rest as [|t' l']; [by destruct l|]. cbn [str_app as_bytes].
    assert (∀ x, as_bytes t ++ as_bytes newline ++ x = as_bytes t ++ x0a :: x) as -> by done.
    rewrite split_lines_piece by done. cbn [fmap list_fmap]. f_equal.
    + rewrite app_nil_r. rewrite <- (Ho t) at 2. f_equal. rewrite <- (reverse_involutive (as_bytes t)) at 2. f_equal.
      destruct (reverse (as_bytes t)) as [|b r] eqn:Er; [done|]. destruct (decide (b = x0d)) as [->|Hb].
      * destruct Hr. apply elem_of_reverse. rewrite Er. left.
      * clear -Hb. destruct b; first [reflexivity | by destruct Hb].
    + apply IH. by rewrite E.
Qed.
