(* ===== verification/Env.v ===== *)
(** * The environment: third-party code as parameters

    What the modelled code calls outside the repository.  Each library is a
    class with the functions used and the documented behaviour relied upon:
    [Serde] (serde_json encoding of a type), [LruLib] (the lru_cache crate) and
    [Ruma] (identifier grammars of the ruma crate).  [Env] collects them with
    the key-value engine, the configured server name and the hash and password
    functions.  [Concrete.v] has an instance of everything. *)

From S2P Require Import Prelude Bytes RStr Error Utils KvTree.

(** ** Serialisation *)

(** [serde_json::to_vec] and [serde_json::from_slice] at one type. *)
Class Serde (A : Type) := {
  to_vec : A → bytes;
  from_slice : bytes → option A;
  from_slice_to_vec a : from_slice (to_vec a) = Some a;
}.

(** [serde_json::Value]; a number keeps its text. *)
Inductive json :=
  | JNull
  | JBool (b : bool)
  | JNum (n : rstr)
  | JStr (s : rstr)
  | JArr (l : list json)
  | JObj (l : list (rstr * json)).

(** Association lists with unique keys, in the order of the keys, as
    [BTreeMap<String, V>] and [serde_json::Map] keep them: [get], [insert],
    [remove], and the object of a literal. *)
Section obj.
Context {V : Type}.

Fixpoint obj_get (k : rstr) (l : list (rstr * V)) : option V :=
  match l with
  | [] => None
  | (k', v) :: l => if decide (k = k') then Some v else obj_get k l
  end.

Definition obj_remove (k : rstr) (l : list (rstr * V)) : list (rstr * V) :=
  filter (λ e, e.1 ≠ k) l.

Fixpoint obj_insert (k : rstr) (v : V) (l : list (rstr * V)) : list (rstr * V) :=
  match l with
  | [] => [(k, v)]
  | (k', v') :: l' =>
      if decide (k = k') then (k', v) :: l'
      else if decide (bytes_lt (as_bytes k) (as_bytes k')) then (k, v) :: l
      else (k', v') :: obj_insert k v l'
  end.

Definition obj_of (l : list (rstr * V)) : list (rstr * V) := foldl (λ o e, obj_insert e.1 e.2 o) [] l.

Lemma obj_get_remove k k' l :
  obj_get k (obj_remove k' l) = if decide (k = k') then None else obj_get k l.
Proof.
  unfold obj_remove. induction l as [|[k1 v1] l IH]; [by case_decide|].
  rewrite filter_cons. cbn [fst]. destruct (decide (k1 ≠ k')) as [Hne|He].
  - cbn. rewrite IH. repeat case_decide; naive_solver.
  - apply dec_stable in He as ->. rewrite IH. cbn. repeat case_decide; naive_solver.
Qed.

Lemma obj_get_insert k k' v l :
  obj_get k (obj_insert k' v l) = if decide (k = k') then Some v else obj_get k l.
Proof.
  induction l as [|[k1 v1] l IH]; cbn; [by repeat case_decide|].
  destruct (decide (k' = k1)) as [->|Hne]; [cbn; by case_decide|]. destruct (decide (bytes_lt _ _)); cbn; [done|].
  rewrite IH. repeat case_decide; naive_solver.
Qed.
End obj.

(** [Value::get] by key. *)
Definition json_get (k : rstr) (v : json) : option json :=
  match v with JObj l => obj_get k l | _ => None end.

(** ** LRU caches *)

Class LruLib := {
  LruCache : Type → Type → Type;
  lru_new : ∀ {K V}, N → LruCache K V;
  lru_get_mut : ∀ {K V} `{!EqDecision K}, K → LruCache K V → option V * LruCache K V;
  lru_insert : ∀ {K V} `{!EqDecision K}, K → V → LruCache K V → LruCache K V;
  (** what the cache holds for a key, without touching it *)
  lru_peek : ∀ {K V} `{!EqDecision K}, LruCache K V → K → option V;
  lru_peek_new : ∀ {K V} `{!EqDecision K} cap (k : K), lru_peek (V := V) (lru_new cap) k = None;
  lru_get_peek : ∀ {K V} `{!EqDecision K} (k : K) (c : LruCache K V),
    (lru_get_mut k c).1 = lru_peek c k;
  lru_peek_get : ∀ {K V} `{!EqDecision K} (k k' : K) (c : LruCache K V),
    lru_peek (lru_get_mut k c).2 k' = lru_peek c k';
  (** an insertion stores its pair and may evict others *)
  lru_peek_insert : ∀ {K V} `{!EqDecision K} (k k' : K) (v w : V) (c : LruCache K V),
    lru_peek (lru_insert k v c) k' = Some w → (k' = k ∧ w = v) ∨ (k' ≠ k ∧ lru_peek c k' = Some w);
}.

(** ** Identifiers *)

(** A validated identifier: a string its grammar accepts. *)
Record identifier (valid : rstr → bool) := MkId { as_str : rstr; id_ok : valid as_str = true }.
Arguments MkId {valid} as_str id_ok.
Arguments as_str {valid} i : rename.
Arguments id_ok {valid} i : rename.

Section ids.
Context {valid : rstr → bool}.

#[export] Instance as_str_inj : Inj (=) (=) (as_str (valid := valid)).
Proof. intros [a Ha] [b Hb] E. simpl in E. subst b. f_equal. apply proof_irrel. Qed.

#[export] Instance id_eq_dec : EqDecision (identifier valid).
Proof.
  intros s t. destruct (decide (as_str s = as_str t)) as [E|E].
  - left. by apply (inj as_str).
  - right. by intros ->.
Defined.

(** [parse]/[try_from] of an identifier. *)
Definition parse_id (s : rstr) : option (identifier valid) :=
  match decide (valid s = true) with
  | left H => Some (MkId s H)
  | right _ => None
  end.

Lemma parse_as_str i : parse_id (as_str i) = Some i.
Proof.
  unfold parse_id. destruct (decide _) as [H|H].
  - f_equal. by apply (inj as_str).
  - destruct H. apply id_ok.
Qed.

Lemma parse_id_Some s i : parse_id s = Some i → s = as_str i.
Proof. unfold parse_id. intros E. destruct (decide _); [by injection E as <-|done]. Qed.

#[export] Instance id_countable : Countable (identifier valid) :=
  inj_countable as_str parse_id parse_as_str.

(** [as_bytes] of an identifier. *)
Definition idb (i : identifier valid) : bytes := as_bytes (as_str i).

#[export] Instance idb_inj : Inj (=) (=) idb.
Proof. intros i j E. by apply (inj as_str), (inj as_bytes). Qed.

Lemma idb_no_sep i : sep ∉ idb i.
Proof. apply str_no_sep. Qed.

(** The usual decoding: bytes, then UTF-8, then the grammar. *)
Definition parse_bytes (unicode invalid : string) (bs : bytes) : res (identifier valid) :=
  s ← ok_or (string_from_bytes bs) (BadDatabase unicode);
  ok_or (parse_id s) (BadDatabase invalid).

Lemma parse_bytes_idb u v i : parse_bytes u v (idb i) = Ok i.
Proof.
  unfold parse_bytes, idb, string_from_bytes. rewrite from_utf8_as_bytes. cbn.
  by rewrite parse_as_str.
Qed.
Lemma parse_bytes_Ok u v bs i : parse_bytes u v bs = Ok i → bs = idb i.
Proof.
  unfold parse_bytes, string_from_bytes. destruct (from_utf8 bs) as [s|] eqn:E; [|done]. cbn.
  destruct (parse_id s) as [j|] eqn:E2; [|done]. cbn. intros [= <-].
  apply parse_id_Some in E2 as ->. by apply from_utf8_Some.
Qed.
End ids.
#[export] Hint Resolve idb_no_sep : kv.
Arguments parse_id valid s : clear implicits.

(** The identifier grammars of ruma. *)
Class Ruma := {
  valid_user_id : rstr → bool;
  valid_room_id : rstr → bool;
  valid_event_id : rstr → bool;
  valid_server_name : rstr → bool;
  valid_room_alias_id : rstr → bool;
  (** [UserId::server_name], [RoomAliasId::alias] *)
  user_server_name : identifier valid_user_id → identifier valid_server_name;
  alias_localpart : identifier valid_room_alias_id → rstr;
  (** [UserId::parse_with_server_name] *)
  parse_with_server_name : rstr → identifier valid_server_name → option (identifier valid_user_id);
  (** [DeviceKeyId] and [DeviceKeyId::algorithm] *)
  valid_device_key_id : rstr → bool;
  device_key_algorithm : identifier valid_device_key_id → rstr;
}.
Abbreviation UserId := (identifier valid_user_id).
Abbreviation RoomId := (identifier valid_room_id).
Abbreviation EventId := (identifier valid_event_id).
Abbreviation ServerName := (identifier valid_server_name).
Abbreviation RoomAliasId := (identifier valid_room_alias_id).
Abbreviation DeviceKeyId := (identifier valid_device_key_id).
(** Any string is a device identifier. *)
Abbreviation DeviceId := rstr.
(** Event types are open string enums: conversion from a string is total and
    [to_string] gives it back. *)
Abbreviation StateEventType := rstr.

(** A [Raw<T>] value: JSON text, written and read verbatim. *)
Class RawLib := {
  Raw : Type;
  raw_text : Raw → bytes;
  raw_from_slice : bytes → option Raw;
  raw_from_text r : raw_from_slice (raw_text r) = Some r;
}.
#[export] Instance raw_serde `{!RawLib} : Serde Raw :=
  {| to_vec := raw_text; from_slice := raw_from_slice; from_slice_to_vec := raw_from_text |}.

(** ** Events ([src/service/pdu.rs]) *)

Section pdu.
Context `{!Ruma}.

Record PduEvent := {
  event_id : EventId;
  room_id : RoomId;
  sender : UserId;
  origin_server_ts : N;
  kind : rstr;
  content : bytes;
  state_key : option rstr;
  prev_events : list EventId;
  depth : N;
  auth_events : list EventId;
  redacts : option EventId;
  unsigned : option bytes;
  hashes : bytes;
  signatures : option bytes
}.
End pdu.

(** ** Device metadata (ruma's [Device]) *)
Record Device := {
  device_id : rstr;
  display_name : option rstr;
  last_seen_ip : option rstr;
  last_seen_ts : option N
}.

(** ** Presence events *)
Inductive PresenceState := Online | Offline | Unavailable | OtherPresence (p : rstr).

#[export] Instance PresenceState_eq_dec : EqDecision PresenceState.
Proof. solve_decision. Defined.

Record PresenceEvent `{!Ruma} := {
  pe_sender : UserId;
  pe_presence : PresenceState;
  pe_last_active_ago : option N;
  pe_status_msg : option rstr;
  pe_displayname : option rstr;
  pe_avatar_url : option rstr;
  pe_currently_active : option bool
}.

(** ** The whole environment *)
Class Env := {
  env_kv :: KvTree;
  env_lru :: LruLib;
  env_ruma :: Ruma;
  env_raw :: RawLib;
  (** the configured [server_name] *)
  server_name : ServerName;
  (** SHA-256, Argon2 hashing (which can reject its input) and verification *)
  sha256 : bytes → bytes;
  argon2_hash : rstr → option rstr;
  argon2_verify : rstr → rstr → option bool;
  (** a hash is never the empty string *)
  argon2_hash_nonempty p h : argon2_hash p = Some h → as_bytes h ≠ [];
  (** canonical JSON objects: removing a field, conversion to raw JSON *)
  CanonicalJsonObject : Type;
  canonical_remove : rstr → CanonicalJsonObject → CanonicalJsonObject;
  canonical_to_raw : CanonicalJsonObject → Raw;
  env_cjson :: Serde CanonicalJsonObject;
  env_pdu :: Serde PduEvent;
  env_json :: Serde json;
  env_device :: Serde Device;
  env_uiaainfo :: Serde UiaaInfo;
  env_raws :: Serde (list Raw);
  env_unsigned :: Serde (list (rstr * Raw));
  env_dkid :: Serde DeviceKeyId;
  env_presence :: Serde PresenceEvent;
  FilterDefinition : Type;
  env_filter :: Serde FilterDefinition;
  ReceiptEvent : Type;
  env_receipt :: Serde ReceiptEvent;
  (** [to_raw_value] writes the text [to_vec] writes *)
  to_raw_value : json → Raw;
  raw_text_value j : raw_text (to_raw_value j) = to_vec j;
  (** [to_value] of an event *)
  pdu_to_value : PduEvent → json;
  (** the key ids of a [CrossSigningKey], when the raw JSON is one *)
  cross_signing_key_ids : Raw → option (list rstr);
  (** compiling and matching a regular expression *)
  Regex : Type;
  regex_new : rstr → option Regex;
  is_match : Regex → rstr → bool;
  (** YAML documents, whose values are those of JSON *)
  yaml_to_string : json → option rstr;
  yaml_from_slice : bytes → option json;
  yaml_roundtrip y t : yaml_to_string y = Some t → yaml_from_slice (as_bytes t) = Some y;
  (** pushers; an action with its pusher is read back as the pusher *)
  Pusher : Type;
  pushkey : Pusher → rstr;
  pusher_post_to_vec : Pusher → bool → bytes;
  pusher_from_slice : bytes → option Pusher;
  pusher_from_post p a : pusher_from_slice (pusher_post_to_vec p a) = Some p;
  (** the maximal runs of alphanumeric characters of a text, and lower case *)
  alphanumeric_words : rstr → list rstr;
  to_lowercase : rstr → rstr;
}.

(** [from_slice] at type [Option<A>]: JSON [null] is [None]. *)
Definition from_slice_opt {A} `{!Serde A} (b : bytes) : option (option A) :=
  if bool_decide (b = b#"null") then Some None else Some <$> from_slice b.

Lemma from_slice_opt_to_vec {A} `{!Serde A} (a : A) :
  to_vec a ≠ b#"null" → from_slice_opt (to_vec a) = Some (Some a).
Proof.
  intros H. unfold from_slice_opt. rewrite bool_decide_false by done. by rewrite from_slice_to_vec.
Qed.
