(* ===== verification/Db.v ===== *)
(** * The database ([src/database/mod.rs], struct [KeyValueDatabase])

    The trees of the database, one constructor of [TreeId] per field of the
    struct, the in-memory caches beside them, and the monad [DB] of operations
    on the whole.  Each access is one call of the [KvTree] interface; a call of
    a method is atomic in the model, and an iterator is a snapshot, which is
    what both engines give.  [db_map s t] is the finite map a tree stands for:
    the lemmas here say what each operation does to it and to the other trees. *)

From S2P Require Import Prelude Bytes RStr Error Utils KvTree Env.

(** ** Trees *)

Inductive TreeId :=
  | global
  | server_signingkeys
  | userid_password
  | userid_displayname
  | userid_avatarurl
  | userid_blurhash
  | userdeviceid_token
  | userdeviceid_metadata
  | userid_devicelistversion
  | token_userdeviceid
  | onetimekeyid_onetimekeys
  | userid_lastonetimekeyupdate
  | keychangeid_userid
  | keyid_key
  | userid_masterkeyid
  | userid_selfsigningkeyid
  | userid_usersigningkeyid
  | userfilterid_filter
  | todeviceid_events
  | userdevicesessionid_uiaainfo
  | readreceiptid_readreceipt
  | roomuserid_privateread
  | roomuserid_lastprivatereadupdate
  | typingid_userid
  | roomid_lasttypingupdate
  | presenceid_presence
  | userid_lastpresenceupdate
  | pduid_pdu
  | eventid_pduid
  | roomid_pduleaves
  | alias_roomid
  | aliasid_alias
  | publicroomids
  | tokenids
  | roomserverids
  | serverroomids
  | userroomid_joined
  | roomuserid_joined
  | roomid_joinedcount
  | roomid_invitedcount
  | roomuseroncejoinedids
  | userroomid_invitestate
  | roomuserid_invitecount
  | userroomid_leftstate
  | roomuserid_leftcount
  | disabledroomids
  | lazyloadedids
  | userroomid_notificationcount
  | userroomid_highlightcount
  | roomid_shortstatehash
  | roomsynctoken_shortstatehash
  | shorteventid_shortstatehash
  | statekey_shortstatekey
  | shortstatekey_statekey
  | roomid_shortroomid
  | shorteventid_eventid
  | eventid_shorteventid
  | statehash_shortstatehash
  | shortstatehash_statediff
  | shorteventid_authchain
  | eventid_outlierpdu
  | softfailedeventids
  | referencedevents
  | roomuserdataid_accountdata
  | roomusertype_roomuserdataid
  | mediaid_file
  | backupid_algorithm
  | backupid_etag
  | backupkeyid_backup
  | userdevicetxnid_response
  | servername_educount
  | servernameevent_data
  | servercurrentevent_data
  | id_appserviceregistrations
  | senderkey_pusher
  (** trees of older versions, which only the migrations open *)
  | stateid_shorteventid
  | userdevicesessionid_uiaarequest_tree.

(** [load_or_create] opens the tree of the highlight counts a second time under the
    name of this field. *)
Definition roomuserid_lastnotificationread : TreeId := userroomid_highlightcount.

#[export] Instance TreeId_eq_dec : EqDecision TreeId.
Proof. solve_decision. Defined.

(** ** Byte arrays of fixed length *)

Record barr (n : nat) := MkArr { arr : bytes; arr_len : length arr = n }.
Arguments MkArr {n} arr arr_len.
Arguments arr {n} b : rename.
Arguments arr_len {n} b : rename.

Section barr.
Context {n : nat}.

#[export] Instance arr_inj : Inj (=) (=) (arr (n := n)).
Proof. intros [a Ha] [b Hb] E. simpl in E. subst b. f_equal. apply proof_irrel. Qed.

#[export] Instance barr_eq_dec : EqDecision (barr n).
Proof.
  intros s t. destruct (decide (arr s = arr t)) as [E|E].
  - left. by apply (inj arr).
  - right. by intros ->.
Defined.

(** [slice.try_into()] *)
Definition try_arr (bs : bytes) : option (barr n) :=
  match decide (length bs = n) with
  | left H => Some (MkArr bs H)
  | right _ => None
  end.

Lemma try_arr_arr b : try_arr (arr b) = Some b.
Proof.
  unfold try_arr. destruct (decide _) as [H|H].
  - f_equal. by apply (inj arr).
  - destruct H. apply arr_len.
Qed.

Lemma try_arr_Some bs b : try_arr bs = Some b → bs = arr b.
Proof. unfold try_arr. intros E. destruct (decide _); [by injection E as <-|done]. Qed.

#[export] Instance barr_countable : Countable (barr n) :=
  inj_countable arr try_arr try_arr_arr.
End barr.

(** [CompressedStateEvent = [u8; 2 * size_of::<u64>()]]: a short state key and a
    short event id. *)
Abbreviation CompressedStateEvent := (barr 16).

(** One layer of a state: (shortstatehash, full state, added, removed). *)
Record StateInfo := MkInfo {
  si_hash : N;
  si_full : gset CompressedStateEvent;
  si_added : gset CompressedStateEvent;
  si_removed : gset CompressedStateEvent
}.

(** ** State *)

Section state.
Context {Ev : Env}.

Record State := MkState {
  trees : TreeId → tree;
  eventidshort_cache : LruCache EventId N;
  shorteventid_cache : LruCache N EventId;
  statekeyshort_cache : LruCache (StateEventType * rstr) N;
  shortstatekey_cache : LruCache N (StateEventType * rstr);
  pdu_cache : LruCache EventId PduEvent;
  auth_chain_cache : LruCache (list N) (gset N);
  stateinfo_cache : LruCache N (list StateInfo);
  our_real_users_cache : gmap RoomId (gset UserId);
  appservice_in_room_cache : gmap RoomId (gmap rstr bool);
  lasttimelinecount_cache : gmap RoomId N;
  userdevicesessionid_uiaarequest : gmap (UserId * DeviceId * rstr) json;
  cached_registrations : gmap rstr json;
  now : N
}.

Definition set_trees (x : TreeId → tree) (s : State) : State :=
  MkState x (eventidshort_cache s) (shorteventid_cache s) (statekeyshort_cache s) (shortstatekey_cache s) (pdu_cache s) (auth_chain_cache s) (stateinfo_cache s) (our_real_users_cache s) (appservice_in_room_cache s) (lasttimelinecount_cache s) (userdevicesessionid_uiaarequest s) (cached_registrations s) (now s).
Definition set_eventidshort_cache (x : LruCache EventId N) (s : State) : State :=
  MkState (trees s) x (shorteventid_cache s) (statekeyshort_cache s) (shortstatekey_cache s) (pdu_cache s) (auth_chain_cache s) (stateinfo_cache s) (our_real_users_cache s) (appservice_in_room_cache s) (lasttimelinecount_cache s) (userdevicesessionid_uiaarequest s) (cached_registrations s) (now s).
Definition set_shorteventid_cache (x : LruCache N EventId) (s : State) : State :=
  MkState (trees s) (eventidshort_cache s) x (statekeyshort_cache s) (shortstatekey_cache s) (pdu_cache s) (auth_chain_cache s) (stateinfo_cache s) (our_real_users_cache s) (appservice_in_room_cache s) (lasttimelinecount_cache s) (userdevicesessionid_uiaarequest s) (cached_registrations s) (now s).
Definition set_statekeyshort_cache (x : LruCache (StateEventType * rstr) N) (s : State) : State :=
  MkState (trees s) (eventidshort_cache s) (shorteventid_cache s) x (shortstatekey_cache s) (pdu_cache s) (auth_chain_cache s) (stateinfo_cache s) (our_real_users_cache s) (appservice_in_room_cache s) (lasttimelinecount_cache s) (userdevicesessionid_uiaarequest s) (cached_registrations s) (now s).
Definition set_shortstatekey_cache (x : LruCache N (StateEventType * rstr)) (s : State) : State :=
  MkState (trees s) (eventidshort_cache s) (shorteventid_cache s) (statekeyshort_cache s) x (pdu_cache s) (auth_chain_cache s) (stateinfo_cache s) (our_real_users_cache s) (appservice_in_room_cache s) (lasttimelinecount_cache s) (userdevicesessionid_uiaarequest s) (cached_registrations s) (now s).
Definition set_pdu_cache (x : LruCache EventId PduEvent) (s : State) : State :=
  MkState (trees s) (eventidshort_cache s) (shorteventid_cache s) (statekeyshort_cache s) (shortstatekey_cache s) x (auth_chain_cache s) (stateinfo_cache s) (our_real_users_cache s) (appservice_in_room_cache s) (lasttimelinecount_cache s) (userdevicesessionid_uiaarequest s) (cached_registrations s) (now s).
Definition set_auth_chain_cache (x : LruCache (list N) (gset N)) (s : State) : State :=
  MkState (trees s) (eventidshort_cache s) (shorteventid_cache s) (statekeyshort_cache s) (shortstatekey_cache s) (pdu_cache s) x (stateinfo_cache s) (our_real_users_cache s) (appservice_in_room_cache s) (lasttimelinecount_cache s) (userdevicesessionid_uiaarequest s) (cached_registrations s) (now s).
Definition set_stateinfo_cache (x : LruCache N (list StateInfo)) (s : State) : State :=
  MkState (trees s) (eventidshort_cache s) (shorteventid_cache s) (statekeyshort_cache s) (shortstatekey_cache s) (pdu_cache s) (auth_chain_cache s) x (our_real_users_cache s) (appservice_in_room_cache s) (lasttimelinecount_cache s) (userdevicesessionid_uiaarequest s) (cached_registrations s) (now s).
Definition set_our_real_users_cache (x : gmap RoomId (gset UserId)) (s : State) : State :=
  MkState (trees s) (eventidshort_cache s) (shorteventid_cache s) (statekeyshort_cache s) (shortstatekey_cache s) (pdu_cache s) (auth_chain_cache s) (stateinfo_cache s) x (appservice_in_room_cache s) (lasttimelinecount_cache s) (userdevicesessionid_uiaarequest s) (cached_registrations s) (now s).
Definition set_appservice_in_room_cache (x : gmap RoomId (gmap rstr bool)) (s : State) : State :=
  MkState (trees s) (eventidshort_cache s) (shorteventid_cache s) (statekeyshort_cache s) (shortstatekey_cache s) (pdu_cache s) (auth_chain_cache s) (stateinfo_cache s) (our_real_users_cache s) x (lasttimelinecount_cache s) (userdevicesessionid_uiaarequest s) (cached_registrations s) (now s).
Definition set_lasttimelinecount_cache (x : gmap RoomId N) (s : State) : State :=
  MkState (trees s) (eventidshort_cache s) (shorteventid_cache s) (statekeyshort_cache s) (shortstatekey_cache s) (pdu_cache s) (auth_chain_cache s) (stateinfo_cache s) (our_real_users_cache s) (appservice_in_room_cache s) x (userdevicesessionid_uiaarequest s) (cached_registrations s) (now s).
Definition set_userdevicesessionid_uiaarequest (x : gmap (UserId * DeviceId * rstr) json) (s : State) : State :=
  MkState (trees s) (eventidshort_cache s) (shorteventid_cache s) (statekeyshort_cache s) (shortstatekey_cache s) (pdu_cache s) (auth_chain_cache s) (stateinfo_cache s) (our_real_users_cache s) (appservice_in_room_cache s) (lasttimelinecount_cache s) x (cached_registrations s) (now s).
Definition set_cached_registrations (x : gmap rstr json) (s : State) : State :=
  MkState (trees s) (eventidshort_cache s) (shorteventid_cache s) (statekeyshort_cache s) (shortstatekey_cache s) (pdu_cache s) (auth_chain_cache s) (stateinfo_cache s) (our_real_users_cache s) (appservice_in_room_cache s) (lasttimelinecount_cache s) (userdevicesessionid_uiaarequest s) x (now s).
Definition set_now (x : N) (s : State) : State :=
  MkState (trees s) (eventidshort_cache s) (shorteventid_cache s) (statekeyshort_cache s) (shortstatekey_cache s) (pdu_cache s) (auth_chain_cache s) (stateinfo_cache s) (our_real_users_cache s) (appservice_in_room_cache s) (lasttimelinecount_cache s) (userdevicesessionid_uiaarequest s) (cached_registrations s) x.

Abbreviation DB := (M State).

(** The finite map of a tree. *)
Definition db_map (s : State) (t : TreeId) : gmap bytes bytes := contents (trees s t).

Definition upd_tree (t : TreeId) (x : tree) (s : State) : State :=
  set_trees (λ t', if decide (t = t') then x else trees s t') s.

Definition put (t : TreeId) (k v : bytes) (s : State) : State :=
  upd_tree t (kv_insert (trees s t) k v) s.
Definition del (t : TreeId) (k : bytes) (s : State) : State :=
  upd_tree t (kv_remove (trees s t) k) s.

(** The methods of a tree, as the code calls them. *)
Definition t_get (t : TreeId) (k : bytes) : DB (option bytes) := gets (λ s, kv_get (trees s t) k).
Definition t_insert (t : TreeId) (k v : bytes) : DB unit := modify (put t k v).
Definition t_remove (t : TreeId) (k : bytes) : DB unit := modify (del t k).
Definition t_insert_batch (t : TreeId) (l : list entry) : DB unit :=
  modify (λ s, upd_tree t (kv_insert_batch (trees s t) l) s).
Definition t_increment (t : TreeId) (k : bytes) : DB bytes := λ s,
  let '(new, x) := kv_increment (trees s t) k in (Ok new, upd_tree t x s).
Definition t_increment_batch (t : TreeId) (ks : list bytes) : DB unit :=
  modify (λ s, upd_tree t (kv_increment_batch (trees s t) ks) s).
Definition t_iter (t : TreeId) : DB (list entry) := gets (λ s, kv_iter (trees s t)).
Definition t_iter_from (t : TreeId) (from : bytes) (backwards : bool) : DB (list entry) :=
  gets (λ s, kv_iter_from (trees s t) from backwards).
Definition t_scan_prefix (t : TreeId) (p : bytes) : DB (list entry) :=
  gets (λ s, kv_scan_prefix (trees s t) p).

(** [for (key, _) in tree.scan_prefix(p) { tree.remove(&key)? }] *)
Definition t_remove_prefix (t : TreeId) (p : bytes) : DB unit :=
  l ← t_scan_prefix t p; for_each l (λ e, t_remove t e.1).

(** [cache.lock().unwrap().get_mut(k)] for the caches of a state. *)
Definition cache_get {K V} `{!EqDecision K} (get : State → LruCache K V)
    (set : LruCache K V → State → State) (k : K) : DB (option V) := λ s,
  let '(r, c) := lru_get_mut k (get s) in (Ok r, set c s).
Definition cache_insert {K V} `{!EqDecision K} (get : State → LruCache K V)
    (set : LruCache K V → State → State) (k : K) (v : V) : DB unit :=
  modify (λ s, set (lru_insert k v (get s)) s).

Lemma db_map_upd_eq t x s : db_map (upd_tree t x s) t = contents x.
Proof. unfold db_map, upd_tree. cbn. by rewrite decide_True. Qed.
Lemma db_map_upd_ne t t' x s : t ≠ t' → db_map (upd_tree t x s) t' = db_map s t'.
Proof. intros. unfold db_map, upd_tree. cbn. by rewrite decide_False. Qed.

Lemma db_map_put_eq t k v s : db_map (put t k v s) t = <[k := v]> (db_map s t).
Proof. unfold put. by rewrite db_map_upd_eq, contents_insert. Qed.
Lemma db_map_put_ne t t' k v s : t ≠ t' → db_map (put t k v s) t' = db_map s t'.
Proof. apply db_map_upd_ne. Qed.
Lemma db_map_del_eq t k s : db_map (del t k s) t = delete k (db_map s t).
Proof. unfold del. by rewrite db_map_upd_eq, contents_remove. Qed.
Lemma db_map_del_ne t t' k s : t ≠ t' → db_map (del t k s) t' = db_map s t'.
Proof. apply db_map_upd_ne. Qed.

Lemma t_get_run t k s : t_get t k s = (Ok (db_map s t !! k), s).
Proof. unfold t_get, gets. by rewrite get_contents. Qed.
Lemma t_insert_run t k v s : t_insert t k v s = (Ok (), put t k v s).
Proof. done. Qed.
Lemma t_remove_run t k s : t_remove t k s = (Ok (), del t k s).
Proof. done. Qed.
Lemma t_iter_run t s : t_iter t s = (Ok (sorted_entries (db_map s t)), s).
Proof. unfold t_iter, gets. by rewrite iter_contents. Qed.
Lemma t_scan_prefix_run t p s : t_scan_prefix t p s = (Ok (with_prefix p (db_map s t)), s).
Proof. unfold t_scan_prefix, gets. by rewrite scan_prefix_contents. Qed.

(** The state after an increment. *)
Definition incr (t : TreeId) (k : bytes) (s : State) : State :=
  upd_tree t (kv_increment (trees s t) k).2 s.
Lemma t_increment_run t k s :
  t_increment t k s = (Ok (to_be_bytes (count_of (db_map s t !! k) + 1)), incr t k s).
Proof.
  unfold t_increment, incr, db_map. rewrite <- increment_value. by destruct (kv_increment _ _).
Qed.
Lemma db_map_incr_eq t k s : db_map (incr t k s) t = incr_map (db_map s t) k.
Proof. unfold incr. by rewrite db_map_upd_eq, contents_increment. Qed.
Lemma db_map_incr_ne t t' k s : t ≠ t' → db_map (incr t k s) t' = db_map s t'.
Proof. apply db_map_upd_ne. Qed.

(** The state after removing every key with a prefix. *)
Definition del_prefix (t : TreeId) (p : bytes) (s : State) : State :=
  foldl (λ s (e : entry), del t e.1 s) s (with_prefix p (db_map s t)).
Lemma t_remove_prefix_run t p s : t_remove_prefix t p s = (Ok (), del_prefix t p s).
Proof.
  unfold t_remove_prefix, mbind, M_bind. rewrite t_scan_prefix_run. apply for_each_modify.
Qed.
Lemma db_map_del_all_eq t (l : list entry) s :
  db_map (foldl (λ s (e : entry), del t e.1 s) s l) t = delete_keys l.*1 (db_map s t).
Proof.
  revert s. induction l as [|e l IH]; intros s; [done|]. cbn [foldl].
  by rewrite IH, db_map_del_eq.
Qed.
Lemma db_map_del_all_ne t t' (l : list entry) s :
  t ≠ t' → db_map (foldl (λ s (e : entry), del t e.1 s) s l) t' = db_map s t'.
Proof.
  intros Hne. revert s. induction l as [|e l IH]; intros s; [done|]. cbn [foldl].
  by rewrite IH, db_map_del_ne.
Qed.
Lemma lookup_del_prefix t p s k :
  db_map (del_prefix t p s) t !! k = if decide (p `prefix_of` k) then None else db_map s t !! k.
Proof.
  unfold del_prefix. rewrite db_map_del_all_eq, lookup_delete_keys.
  destruct (decide (k ∈ _)) as [Hin|Hnin].
  - apply list_elem_of_fmap in Hin as ([k' v] & -> & Hin).
    apply elem_of_with_prefix in Hin as [_ Hp]. cbn. by rewrite decide_True.
  - case_decide as Hp; [|done]. destruct (db_map s t !! k) as [v|] eqn:E; [|done].
    destruct Hnin. apply list_elem_of_fmap. exists (k, v). split; [done|].
    by apply elem_of_with_prefix.
Qed.
Lemma db_map_del_prefix_ne t t' p s : t ≠ t' → db_map (del_prefix t p s) t' = db_map s t'.
Proof. apply db_map_del_all_ne. Qed.

Lemma db_map_set_eventidshort_cache x s t : db_map (set_eventidshort_cache x s) t = db_map s t.
Proof. done. Qed.
Lemma db_map_set_shorteventid_cache x s t : db_map (set_shorteventid_cache x s) t = db_map s t.
Proof. done. Qed.
Lemma db_map_set_statekeyshort_cache x s t : db_map (set_statekeyshort_cache x s) t = db_map s t.
Proof. done. Qed.
Lemma db_map_set_shortstatekey_cache x s t : db_map (set_shortstatekey_cache x s) t = db_map s t.
Proof. done. Qed.
Lemma db_map_set_pdu_cache x s t : db_map (set_pdu_cache x s) t = db_map s t.
Proof. done. Qed.
Lemma db_map_set_auth_chain_cache x s t : db_map (set_auth_chain_cache x s) t = db_map s t.
Proof. done. Qed.
Lemma db_map_set_stateinfo_cache x s t : db_map (set_stateinfo_cache x s) t = db_map s t.
Proof. done. Qed.
Lemma db_map_set_our_real_users_cache x s t : db_map (set_our_real_users_cache x s) t = db_map s t.
Proof. done. Qed.
Lemma db_map_set_appservice_in_room_cache x s t : db_map (set_appservice_in_room_cache x s) t = db_map s t.
Proof. done. Qed.
Lemma db_map_set_lasttimelinecount_cache x s t : db_map (set_lasttimelinecount_cache x s) t = db_map s t.
Proof. done. Qed.
Lemma db_map_set_userdevicesessionid_uiaarequest x s t : db_map (set_userdevicesessionid_uiaarequest x s) t = db_map s t.
Proof. done. Qed.
Lemma db_map_set_cached_registrations x s t : db_map (set_cached_registrations x s) t = db_map s t.
Proof. done. Qed.
Lemma db_map_set_now x s t : db_map (set_now x s) t = db_map s t.
Proof. done. Qed.
End state.

Abbreviation DB := (M State).

Create Rewrite HintDb db.
#[export] Hint Rewrite @db_map_put_eq @db_map_del_eq @db_map_incr_eq : db.
#[export] Hint Rewrite @db_map_put_ne @db_map_del_ne @db_map_incr_ne @db_map_del_prefix_ne
  using discriminate : db.
#[export] Hint Rewrite @db_map_set_eventidshort_cache @db_map_set_shorteventid_cache @db_map_set_statekeyshort_cache @db_map_set_shortstatekey_cache @db_map_set_pdu_cache @db_map_set_auth_chain_cache @db_map_set_stateinfo_cache @db_map_set_our_real_users_cache @db_map_set_appservice_in_room_cache @db_map_set_lasttimelinecount_cache @db_map_set_userdevicesessionid_uiaarequest @db_map_set_cached_registrations @db_map_set_now : db.

(** Simplifies the maps of a state built by writes. *)
Ltac db_simpl := repeat progress (autorewrite with db in *; cbn [fst snd] in * ).

(** Runs the next operations of a monadic program whose outcome is known. *)
Ltac db_step :=
  first
    [ rewrite bind_ret | rewrite bind_gets | rewrite bind_modify | rewrite bind_lift_Ok
    | erewrite bind_Ok; [|first [apply t_get_run|apply t_insert_run|apply t_remove_run
        |apply t_iter_run|apply t_scan_prefix_run|apply t_increment_run
        |apply t_remove_prefix_run]] ].
Ltac db_run := repeat db_step.
