(* ===== verification/Keys.v ===== *)
(** * Compound keys

    Most trees are keyed by parts joined with the byte [0xff].  Identifiers and
    other strings are UTF-8 and never contain that byte, so that a key has
    exactly one reading, a scan of [part 0xff] finds exactly the keys whose
    first part it is, and [rsplit] finds the last part. *)

From S2P Require Import Prelude Bytes RStr Error Utils KvTree Env Db.

(** [a 0xff b] *)
Definition key2 (a b : bytes) : bytes := a ++ sep :: b.

(** [key.rsplit(|&b| b == 0xff).next()], which is always there. *)
Definition last_part (key : bytes) : res bytes :=
  expect (rsplit_ff key !! 0%nat) "rsplit always returns an element".

(** The last part of a key as an identifier. *)
Definition parse_last {valid} (unicode invalid : string) (key : bytes) : res (identifier valid) :=
  b ← last_part key; parse_bytes unicode invalid b.

Section keys.
Implicit Types a b k p : bytes.

Lemma key2_inj a a' b b' : sep ∉ a → sep ∉ a' → key2 a b = key2 a' b' → a = a' ∧ b = b'.
Proof. apply key_inj. Qed.

Lemma key2_prefix a a' b : sep ∉ a → sep ∉ a' → (a ++ [sep]) `prefix_of` key2 a' b ↔ a = a'.
Proof.
  intros Ha Ha'. unfold key2. rewrite key_prefix by done. split; [tauto|].
  intros ->. split; [done|]. apply prefix_nil.
Qed.

Lemma key2_prefix_self a b : (a ++ [sep]) `prefix_of` key2 a b.
Proof. exists b. unfold key2. by rewrite <- app_assoc. Qed.

Lemma last_part_key2 k b : sep ∉ b → last_part (key2 k b) = Ok b.
Proof. intros Hb. unfold last_part, key2. by rewrite rsplit_ff_last. Qed.

Lemma parse_last_key2 {valid} u v k (i : identifier valid) : parse_last u v (key2 k (idb i)) = Ok i.
Proof. unfold parse_last. rewrite last_part_key2 by apply idb_no_sep. apply parse_bytes_idb. Qed.

(** The order of keys with the same first part is that of the rest. *)
Lemma key2_lt a b b' : key2 a b <b key2 a b' ↔ b <b b'.
Proof. unfold key2. rewrite bytes_lt_app. apply (bytes_lt_app [sep]). Qed.

Lemma key2_le a b b' : key2 a b ≤b key2 a b' ↔ b ≤b b'.
Proof. unfold key2. rewrite bytes_le_app. apply (bytes_le_app [sep]). Qed.
End keys.
#[export] Hint Resolve key2_prefix_self str_no_sep : kv.

Section id_keys.
Context {va vb : rstr → bool}.
Implicit Types (x : identifier va) (y : identifier vb).

(** The key of two identifiers. *)
Definition idkey x y : bytes := key2 (idb x) (idb y).

Lemma idkey_inj x x' y y' : idkey x y = idkey x' y' → x = x' ∧ y = y'.
Proof.
  intros [Hx Hy]%key2_inj; [|auto with kv..]. split; [by apply (inj idb)|by apply (inj idb)].
Qed.

Lemma idkey_ne x x' y y' : (x, y) ≠ (x', y') → idkey x y ≠ idkey x' y'.
Proof. intros Hne [-> ->]%idkey_inj. done. Qed.

(** A tree whose keys are pairs of identifiers. *)
Definition id_keyed (m : gmap bytes bytes) : Prop :=
  ∀ k v, m !! k = Some v → ∃ x y, k = idkey x y.

Lemma id_keyed_insert m x y v : id_keyed m → id_keyed (<[idkey x y := v]> m).
Proof. intros Hm k w [[<- _]|[_ Hk]]%lookup_insert_Some; eauto. Qed.
Lemma id_keyed_delete m k : id_keyed m → id_keyed (delete k m).
Proof. intros Hm k' w [_ Hk]%lookup_delete_Some; eauto. Qed.

(** The entries a scan of [x 0xff] finds are those of [x]. *)
Lemma scan_idkey m x k v :
  id_keyed m →
  (k, v) ∈ with_prefix (idb x ++ [sep]) m ↔ ∃ y, k = idkey x y ∧ m !! k = Some v.
Proof.
  intros Hm. rewrite elem_of_with_prefix. split.
  - intros [Hk Hp]. destruct (Hm k v Hk) as (x' & y & ->).
    apply key2_prefix in Hp; [|auto with kv..]. apply (inj idb) in Hp as ->. eauto.
  - intros (y & -> & Hk). split; [done|]. apply key2_prefix_self.
Qed.

(** Reading the second identifier of each entry of a scan: no error, the
    identifiers found are those paired with [x], each once, in key order. *)
Lemma scan_idkey_parse u w m x :
  id_keyed m →
  ∃ ys, ((λ e : entry, parse_last u w e.1) <$> with_prefix (idb x ++ [sep]) m) = (Ok <$> ys) ∧
    NoDup ys ∧ ∀ y, y ∈ ys ↔ is_Some (m !! idkey x y).
Proof.
  intros Hm.
  assert (∀ l, (∀ e, e ∈ l → ∃ y, e.1 = idkey x y) → StronglySorted key_lt l →
    ∃ ys : list (identifier vb), ((λ e : entry, parse_last u w e.1) <$> l) = (Ok <$> ys) ∧ NoDup ys ∧
      ∀ y, y ∈ ys ↔ ∃ e, e ∈ l ∧ e.1 = idkey x y) as Hgen.
  { intros l Hl Hs. induction Hs as [|e l Hs IH Hall]; intros.
    { exists []. split_and!; [done|constructor|]. intros y. split; [by intros ?%elem_of_nil|].
      by intros (? & ?%elem_of_nil & _). }
    destruct IH as (ys & Hp & Hnd & Hys); [intros; apply Hl; by right|].
    destruct (Hl e) as [y Hy]; [by left|]. exists (y :: ys). split_and!.
    - csimpl. rewrite Hp, Hy. unfold idkey. by rewrite parse_last_key2.
    - apply NoDup_cons. split; [|done]. rewrite Hys. intros (e' & He' & Ee).
      rewrite Forall_forall in Hall. specialize (Hall e' He'). unfold key_lt in Hall.
      rewrite Hy, Ee in Hall. by apply (irreflexivity bytes_lt) in Hall.
    - intros z. rewrite elem_of_cons, Hys. split.
      + intros [->|(e' & ? & ?)]; [exists e; split; [by left|done]|exists e'; split; [by right|done]].
      + intros (e' & [->|He']%elem_of_cons & Ez); [|eauto].
        left. rewrite Hy in Ez. by apply idkey_inj in Ez as [_ ->]. }
  destruct (Hgen (with_prefix (idb x ++ [sep]) m)) as (ys & Hp & Hnd & Hys); [|auto with kv|].
  { intros [k v] He. apply scan_idkey in He as (y & -> & _); eauto. }
  exists ys. split_and!; try done. intros y. rewrite Hys. split.
  - intros ([k v] & He & Ek). cbn in Ek. apply elem_of_with_prefix in He as [Hk _]. subst k. eauto.
  - intros [v Hv]. exists (idkey x y, v). split; [|done]. apply scan_idkey; eauto.
Qed.
End id_keys.

(** ** Trees that are inverse to each other *)

Definition inverse (m1 m2 : gmap bytes bytes) : Prop := ∀ a b, m1 !! a = Some b ↔ m2 !! b = Some a.

(** [b] gets the name [a] and loses the one it had. *)
Lemma inverse_move m1 m2 a b :
  inverse m1 m2 → (m1 !! a = None ∨ m1 !! a = Some b) →
  inverse (<[a := b]> (match m2 !! b with Some old => delete old m1 | None => m1 end)) (<[b := a]> m2).
Proof.
  intros Hi Ha x y. rewrite !lookup_insert_Some.
  assert (∀ x y, match m2 !! b with Some old => delete old m1 | None => m1 end !! x = Some y ↔
                 m1 !! x = Some y ∧ y ≠ b) as Hd.
  { intros x' y'. destruct (m2 !! b) as [old|] eqn:Eb.
    - apply Hi in Eb as Eb'. rewrite lookup_delete_Some. split.
      + intros [Hne Hx]. split; [done|]. intros ->. apply Hne. apply Hi in Hx. congruence.
      + intros [Hx Hne]. split; [|done]. intros ->. congruence.
    - split; [|tauto]. intros Hx. split; [done|]. intros ->. apply Hi in Hx. congruence. }
  rewrite Hd. split.
  - intros [[-> ->]|(Hne & Hx & Hy)]; [by left|right]. split; [done|]. by apply Hi.
  - intros [[-> ->]|[Hne Hy]]; [by left|right]. apply Hi in Hy. split_and!; try done.
    intros ->. destruct Ha; congruence.
Qed.

Lemma inverse_remove m1 m2 a b :
  inverse m1 m2 → m2 !! b = Some a → inverse (delete a m1) (delete b m2).
Proof.
  intros Hi Hb x y. rewrite !lookup_delete_Some. split.
  - intros [Hne Hx]. apply Hi in Hx as Hy. split; [|done]. intros ->. congruence.
  - intros [Hne Hy]. apply Hi in Hy as Hx. split; [|done]. intros ->. apply Hi in Hb. congruence.
Qed.

(** ** Trees that mirror each other

    One is keyed by [x] and [y], the other by [y] and [x]; both have the same
    pairs, whatever the values. *)
Section mirror.
Context {va vb : rstr → bool}.
Implicit Types (x : identifier va) (y : identifier vb).

Record mirror (m1 m2 : gmap bytes bytes) : Prop := {
  mirror_keyed1 : id_keyed (va := va) (vb := vb) m1;
  mirror_keyed2 : id_keyed (va := vb) (vb := va) m2;
  mirror_iff x y : is_Some (m1 !! idkey x y) ↔ is_Some (m2 !! idkey y x);
}.

Lemma lookup_idkey_insert (m : gmap bytes bytes) x y x' y' v :
  is_Some (<[idkey x y := v]> m !! idkey x' y') ↔ (x', y') = (x, y) ∨ is_Some (m !! idkey x' y').
Proof.
  destruct (decide ((x', y') = (x, y))) as [[= -> ->]|Hne].
  - rewrite lookup_insert_eq. naive_solver.
  - rewrite lookup_insert_ne by (apply idkey_ne; congruence). naive_solver.
Qed.
Lemma lookup_idkey_delete (m : gmap bytes bytes) x y x' y' :
  is_Some (delete (idkey x y) m !! idkey x' y') ↔ (x', y') ≠ (x, y) ∧ is_Some (m !! idkey x' y').
Proof.
  destruct (decide ((x', y') = (x, y))) as [[= -> ->]|Hne].
  - rewrite lookup_delete_eq. split; [by intros [? ?]|]. by intros [? _].
  - rewrite lookup_delete_ne by (apply idkey_ne; congruence). tauto.
Qed.
End mirror.
Arguments mirror va vb m1 m2 : clear implicits.

Section mirror_writes.
Context {va vb : rstr → bool}.
Implicit Types (x : identifier va) (y : identifier vb).

Lemma mirror_insert m1 m2 x y v w :
  mirror va vb m1 m2 → mirror va vb (<[idkey x y := v]> m1) (<[idkey y x := w]> m2).
Proof.
  intros [H1 H2 Hi]. split; [by apply id_keyed_insert..|].
  intros x' y'. rewrite !lookup_idkey_insert, Hi. naive_solver.
Qed.
Lemma mirror_delete m1 m2 x y :
  mirror va vb m1 m2 → mirror va vb (delete (idkey x y) m1) (delete (idkey y x) m2).
Proof.
  intros [H1 H2 Hi]. split; [by apply id_keyed_delete..|].
  intros x' y'. rewrite !lookup_idkey_delete, Hi. naive_solver.
Qed.
End mirror_writes.
