(* ===== verification/Globals.v ===== *)
(** * Globals ([src/database/key_value/globals.rs])

    The global counter every other component draws its identifiers and
    positions from, the database version and the signing key pair. *)

From S2P Require Import Prelude Bytes RStr Error Utils KvTree Env Db.

(** [COUNTER: &[u8] = b"c"] *)
Definition COUNTER : bytes := b#"c".

Section globals.
Context {Ev : Env}.
Implicit Types s : State.

Definition next_count : DB N :=
  b ← t_increment global COUNTER;
  lift (ok_or (u64_from_bytes b) (BadDatabase "Count has invalid bytes.")).

Definition current_count : DB N :=
  o ← t_get global COUNTER;
  lift (match o with
        | None => Ok 0
        | Some b => ok_or (u64_from_bytes b) (BadDatabase "Count has invalid bytes.")
        end).

(** The signing key pair: a version string, the separator and a DER document,
    which the signature library reads ([from_der]); a new pair is [generated]
    when there is none. *)
Definition load_keypair {K} (from_der : bytes → rstr → option K) (generated : bytes) : DB K :=
  o ← t_get global b#"keypair";
  keypair_bytes ← match o with
                  | None => t_insert global b#"keypair" generated ;; mret generated
                  | Some b => mret b
                  end;
  let parts := splitn_ff 2 keypair_bytes in
  version ← lift (v ← expect (parts !! 0%nat) "splitn always returns at least one element";
                  ok_or (string_from_bytes v) (BadDatabase "Invalid version bytes in keypair."));
  key ← lift (ok_or (parts !! 1%nat) (BadDatabase "Invalid keypair format in database."));
  lift (ok_or (from_der key version) (BadDatabase "Private or public keys are invalid.")).

Definition remove_keypair : DB unit := t_remove global b#"keypair".

(** [utils::generate_keypair]: a random version, the separator, the key. *)
Definition generate_keypair (random_version : rstr) (der : bytes) : bytes :=
  as_bytes random_version ++ sep :: der.

Definition database_version : DB N :=
  o ← t_get global b#"version";
  lift (match o with
        | None => Ok 0
        | Some v => ok_or (u64_from_bytes v) (BadDatabase "Database version id is invalid.")
        end).

Definition bump_database_version (new_version : N) : DB unit :=
  t_insert global b#"version" (to_be_bytes new_version).

(** ** The counter *)

(** The current value of the counter. *)
Definition count s : N := count_of (db_map s global !! COUNTER).

(** The state after drawing a number. *)
Definition bump s : State := incr global COUNTER s.

Lemma count_bump s : count (bump s) = wrap64 (count s + 1).
Proof.
  unfold count, bump. db_simpl. unfold incr_map. rewrite lookup_insert_eq.
  apply count_of_be.
Qed.

Lemma count_u64 s : u64 (count s).
Proof.
  unfold count, count_of. destruct (db_map s global !! COUNTER) as [b|]; [|done]. cbn.
  destruct (u64_from_bytes b) as [n|] eqn:E; [|done]. by apply u64_from_bytes_Some in E as [? _].
Qed.

Lemma next_count_run s : next_count s = (Ok (wrap64 (count s + 1)), bump s).
Proof. unfold next_count. db_run. by rewrite u64_from_to_be_bytes. Qed.

Lemma db_map_bump_ne s t : t ≠ global → db_map (bump s) t = db_map s t.
Proof. intros. by apply db_map_incr_ne. Qed.

(** Writes to other trees leave the counter alone. *)
Lemma count_frame s s' : db_map s' global = db_map s global → count s' = count s.
Proof. unfold count. by intros ->. Qed.

Lemma count_put t k v s : t ≠ global → count (put t k v s) = count s.
Proof. intros. apply count_frame. by apply db_map_put_ne. Qed.
Lemma count_del t k s : t ≠ global → count (del t k s) = count s.
Proof. intros. apply count_frame. by apply db_map_del_ne. Qed.

Lemma count_set_eventidshort_cache x s : count (set_eventidshort_cache x s) = count s.
Proof. done. Qed.
Lemma count_set_shorteventid_cache x s : count (set_shorteventid_cache x s) = count s.
Proof. done. Qed.
Lemma count_set_statekeyshort_cache x s : count (set_statekeyshort_cache x s) = count s.
Proof. done. Qed.
Lemma count_set_shortstatekey_cache x s : count (set_shortstatekey_cache x s) = count s.
Proof. done. Qed.
Lemma count_set_pdu_cache x s : count (set_pdu_cache x s) = count s.
Proof. done. Qed.
Lemma count_set_auth_chain_cache x s : count (set_auth_chain_cache x s) = count s.
Proof. done. Qed.
Lemma count_set_stateinfo_cache x s : count (set_stateinfo_cache x s) = count s.
Proof. done. Qed.
Lemma count_set_our_real_users_cache x s : count (set_our_real_users_cache x s) = count s.
Proof. done. Qed.
Lemma count_set_appservice_in_room_cache x s : count (set_appservice_in_room_cache x s) = count s.
Proof. done. Qed.
Lemma count_set_lasttimelinecount_cache x s : count (set_lasttimelinecount_cache x s) = count s.
Proof. done. Qed.
Lemma count_set_userdevicesessionid_uiaarequest x s : count (set_userdevicesessionid_uiaarequest x s) = count s.
Proof. done. Qed.
Lemma count_set_cached_registrations x s : count (set_cached_registrations x s) = count s.
Proof. done. Qed.
Lemma count_set_now x s : count (set_now x s) = count s.
Proof. done. Qed.

(** The counter has room for one more number. *)
Definition count_ok s : Prop := count s + 1 < 2 ^ 64.

Lemma next_count_ok s : count_ok s → next_count s = (Ok (count s + 1), bump s).
Proof. intros H. rewrite next_count_run, wrap64_small; done. Qed.

Lemma count_bump_ok s : count_ok s → count (bump s) = count s + 1.
Proof. intros H. by rewrite count_bump, wrap64_small. Qed.
End globals.

#[export] Hint Rewrite @db_map_bump_ne using discriminate : db.
#[export] Hint Rewrite @count_set_eventidshort_cache @count_set_shorteventid_cache @count_set_statekeyshort_cache @count_set_shortstatekey_cache @count_set_pdu_cache @count_set_auth_chain_cache @count_set_stateinfo_cache @count_set_our_real_users_cache @count_set_appservice_in_room_cache @count_set_lasttimelinecount_cache @count_set_userdevicesessionid_uiaarequest @count_set_cached_registrations @count_set_now : db.
#[export] Hint Rewrite @count_put @count_del using discriminate : db.

Section counter_theorems.
Context {Ev : Env}.

(** Numbers drawn one after the other. *)
Fixpoint draw (n : nat) : DB (list N) :=
  match n with
  | O => mret []
  | S n => c ← next_count; rest ← draw n; mret (c :: rest)
  end.

Lemma lookup_bump s : db_map (bump s) global !! COUNTER = Some (to_be_bytes (count s + 1)).
Proof. unfold bump. rewrite db_map_incr_eq. apply lookup_insert_eq. Qed.

Lemma draw_run n s :
  count s + N.of_nat n < 2 ^ 64 →
  ∃ s', draw n s = (Ok ((λ i, count s + 1 + N.of_nat i) <$> seq 0 n), s')
        ∧ count s' = count s + N.of_nat n
        ∧ (n ≠ O → db_map s' global !! COUNTER = Some (to_be_bytes (count s'))).
Proof.
  revert s. induction n as [|n IH]; intros s Hn; cbn [draw].
  { eexists. split; [done|]. split; [lia|done]. }
  assert (count_ok s) as Hok by (unfold count_ok; lia).
  pose proof (count_bump_ok s Hok) as Hb.
  destruct (IH (bump s)) as (s' & Hd & Hc & Hl); [lia|].
  exists s'. split_and!; [|lia|].
  - rewrite (bind_Ok _ _ _ _ _ (next_count_ok s Hok)). rewrite (bind_Ok _ _ _ _ _ Hd).
    unfold mret, M_ret. do 3 f_equal. cbn [seq]. rewrite fmap_cons, Hb. f_equal; [lia|].
    rewrite <- (fmap_S_seq 0 n), <- list_fmap_compose. apply list_fmap_ext. intros i x Hi. cbn. lia.
  - intros _. destruct n as [|n]; [|by apply Hl]. injection Hd as <-. rewrite lookup_bump. by rewrite Hb.
Qed.

(** The counter never repeats itself: the numbers drawn are exactly those
    above everything drawn before, in increasing order, until 2^64 is reached,
    and the last one is the current count. *)
Theorem draw_increasing n s :
  count s + N.of_nat n < 2 ^ 64 →
  ∃ cs s', draw n s = (Ok cs, s') ∧ length cs = n ∧ StronglySorted N.lt cs ∧
    (∀ c, c ∈ cs ↔ count s < c ≤ count s + N.of_nat n) ∧
    (n ≠ O → current_count s' = (Ok (count s + N.of_nat n), s')).
Proof.
  intros Hn. destruct (draw_run n s Hn) as (s' & Hd & Hc & Hl). eexists _, s'. split; [exact Hd|]. split_and!.
  - by rewrite length_fmap, length_seq.
  - assert (∀ i, StronglySorted N.lt ((λ i, count s + 1 + N.of_nat i) <$> seq i n)) as Hs; [|apply Hs].
    clear. induction n as [|n IH]; intros i; [constructor|]. cbn [seq fmap list_fmap]. constructor; [apply IH|].
    apply Forall_forall. intros c (j & -> & Hj)%list_elem_of_fmap. apply elem_of_seq in Hj. lia.
  - intros c. rewrite list_elem_of_fmap. split.
    + intros (i & -> & Hi%elem_of_seq). lia.
    + intros [? ?]. exists (N.to_nat (c - count s - 1)). split; [lia|]. apply elem_of_seq. lia.
  - intros Hz. unfold current_count. db_step. rewrite (Hl Hz), Hc. rewrite u64_from_be_u64 by (unfold u64; lia). done.
Qed.
End counter_theorems.
