(* ===== verification/Frames.v ===== *)
(** * Frames: what an operation leaves alone

    [preserves R m]: every run of [m], whatever its outcome, moves along the
    preorder [R].  [keeps ts m]: a run of [m] changes no tree outside [ts].
    The hint database [keeps] has one lemma per operation; [keeps_tac] walks a
    monadic program and collects them. *)

From S2P Require Import Prelude Bytes RStr Error Utils KvTree Env Db Globals.

Section preserves.
Context {S : Type} (R : relation S) `{!PreOrder R}.

Definition preserves {A} (m : M S A) : Prop := ∀ s, R s (m s).2.

Lemma preserves_ret {A} (a : A) : preserves (mret a).
Proof using Type*. intros s. cbn. reflexivity. Qed.
Lemma preserves_lift {A} (r : res A) : preserves (lift r).
Proof using Type*. intros s. cbn. reflexivity. Qed.
Lemma preserves_fail {A} e : preserves (fail (A := A) e).
Proof using Type*. intros s. cbn. reflexivity. Qed.
Lemma preserves_gets {A} (f : S → A) : preserves (gets f).
Proof using Type*. intros s. cbn. reflexivity. Qed.
Lemma preserves_bind {A B} (m : M S A) (f : A → M S B) :
  preserves m → (∀ a, preserves (f a)) → preserves (m ≫= f).
Proof using Type*.
  intros Hm Hf s. unfold mbind, M_bind. specialize (Hm s).
  destruct (m s) as [[a| |] s']; cbn in Hm |- *; [|done..]. etrans; [exact Hm|apply Hf].
Qed.
Lemma preserves_try_ok {A} (m : M S A) : preserves m → preserves (try_ok m).
Proof using Type*. intros Hm s. specialize (Hm s). unfold try_ok. by destruct (m s) as [[a| |] s']. Qed.
Lemma preserves_for_each {A} (l : list A) body : (∀ a, preserves (body a)) → preserves (for_each l body).
Proof using Type*. intros Hb. induction l; cbn; [apply preserves_ret|by apply preserves_bind]. Qed.
Lemma preserves_for_fold {A B} (l : list A) (b : B) body :
  (∀ b a, preserves (body b a)) → preserves (for_fold l b body).
Proof using Type*.
  intros Hb. revert b. induction l; intros b; cbn; [apply preserves_ret|by apply preserves_bind].
Qed.
End preserves.

(** Some predicate of the state stays true. *)
Lemma preserves_inv {S A} (R : relation S) (m : M S A) s r s' : preserves R m → m s = (r, s') → R s s'.
Proof. intros H E. specialize (H s). by rewrite E in H. Qed.

(** A run ends in its first step, or gets past it. *)
Lemma bind_cases {S A B} (R : relation S) (m : M S A) (f : A → M S B) s r s' :
  preserves R m → (m ≫= f) s = (r, s') →
  R s s' ∨ ∃ a s1, m s = (Ok a, s1) ∧ R s s1 ∧ f a s1 = (r, s').
Proof.
  intros Hm H. specialize (Hm s). unfold mbind, M_bind in H. destruct (m s) as [[a|e|p] s1]; cbn in Hm.
  - right. by exists a, s1.
  - injection H as _ <-. by left.
  - injection H as _ <-. by left.
Qed.
(** A run that leaves the relation, begun with a step that does not, has got past that
    step. *)
Lemma bind_moved {S A B} (R : relation S) `{!PreOrder R} (m : M S A) (f : A → M S B) s r s' :
  preserves R m → (m ≫= f) s = (r, s') → ¬ R s s' →
  ∃ a s1, m s = (Ok a, s1) ∧ f a s1 = (r, s') ∧ ¬ R s1 s'.
Proof.
  intros Hm H Hn. destruct (bind_cases R m f s r s' Hm H) as [?|(a & s1 & E & HR & H1)]; [done|].
  exists a, s1. split_and!; [done..|]. intros HR1. apply Hn. by etrans.
Qed.

(** A predicate of the state that, once true, stays true. *)
Definition stays {S} (P : S → Prop) (s s' : S) : Prop := P s → P s'.
#[export] Instance stays_preorder {S} (P : S → Prop) : PreOrder (stays P).
Proof. split; [by intros s H|]. intros s1 s2 s3 H1 H2 H. by apply H2, H1. Qed.

(** A loop with an accumulator that succeeds: what each round keeps holds at its end. *)
Lemma for_fold_Ok {S A B} (P : B → S → Prop) (l : list A) (body : B → A → M S B) b s b' s' :
  (∀ b x s b' s', x ∈ l → P b s → body b x s = (Ok b', s') → P b' s') →
  P b s → for_fold l b body s = (Ok b', s') → P b' s'.
Proof.
  revert b s. induction l as [|x l IH]; intros b s Hb Hp; cbn [for_fold].
  { unfold mret, M_ret. by intros [= <- <-]. }
  intros (b1 & s1 & E & H)%bind_Ok_inv. eapply IH; [| |exact H].
  - intros. eapply Hb; eauto. by right.
  - eapply Hb; eauto. by left.
Qed.

Section trees.
Context {Ev : Env}.

(** The trees outside [ts] are the same. *)
Definition agree (ts : list TreeId) (s s' : State) : Prop := ∀ t, t ∉ ts → db_map s' t = db_map s t.
Abbreviation keeps ts := (preserves (agree ts)).

#[export] Instance agree_preorder ts : PreOrder (agree ts).
Proof. split; [by intros s t|]. intros s1 s2 s3 H1 H2 t Ht. by rewrite H2, H1. Qed.

Lemma agree_mono ts ts' s s' : ts ⊆ ts' → agree ts s s' → agree ts' s s'.
Proof. intros Hs H t Ht. apply H. auto. Qed.
Lemma keeps_mono {A} ts ts' (m : DB A) : keeps ts m → ts ⊆ ts' → keeps ts' m.
Proof. intros H Hs s. by eapply agree_mono. Qed.

Lemma agree_put ts t k v s : t ∈ ts → agree ts s (put t k v s).
Proof. intros Ht t' Ht'. apply db_map_put_ne. congruence. Qed.

Lemma keeps_get t k : keeps [] (t_get t k).
Proof. apply preserves_gets, _. Qed.
Lemma keeps_iter t : keeps [] (t_iter t).
Proof. apply preserves_gets, _. Qed.
Lemma keeps_iter_from t k b : keeps [] (t_iter_from t k b).
Proof. apply preserves_gets, _. Qed.
Lemma keeps_scan_prefix t p : keeps [] (t_scan_prefix t p).
Proof. apply preserves_gets, _. Qed.
Lemma keeps_insert t k v : keeps [t] (t_insert t k v).
Proof. intros s. apply agree_put. by left. Qed.
Lemma keeps_upd t (f : State → tree) : keeps [t] (modify (λ s, upd_tree t (f s) s)).
Proof. intros s t' Ht'. apply db_map_upd_ne. intros ->. apply Ht'. by left. Qed.
Lemma keeps_remove t k : keeps [t] (t_remove t k).
Proof. apply (keeps_upd t (λ s, kv_remove (trees s t) k)). Qed.
Lemma keeps_insert_batch t l : keeps [t] (t_insert_batch t l).
Proof. apply (keeps_upd t (λ s, kv_insert_batch (trees s t) l)). Qed.
Lemma keeps_increment_batch t l : keeps [t] (t_increment_batch t l).
Proof. apply (keeps_upd t (λ s, kv_increment_batch (trees s t) l)). Qed.
Lemma keeps_increment t k : keeps [t] (t_increment t k).
Proof.
  intros s t' Ht'. rewrite t_increment_run. apply db_map_incr_ne. intros ->. apply Ht'. by left.
Qed.
Lemma keeps_remove_prefix t p : keeps [t] (t_remove_prefix t p).
Proof.
  intros s t' Ht'. rewrite t_remove_prefix_run. apply db_map_del_prefix_ne. intros ->. apply Ht'. by left.
Qed.
Lemma keeps_next_count : keeps [global] next_count.
Proof.
  intros s t' Ht'. rewrite next_count_run. apply db_map_bump_ne. intros ->. apply Ht'. by left.
Qed.
Lemma keeps_current_count : keeps [] current_count.
Proof.
  apply preserves_bind; [apply _|apply keeps_get|]. intros [b|]; [apply preserves_lift|apply preserves_ret]; apply _.
Qed.
(** A cache of the state is no tree. *)
Lemma keeps_cache_get {K V} `{!EqDecision K} (get : State → LruCache K V) set (k : K) :
  (∀ c s, trees (set c s) = trees s) → keeps [] (cache_get get set k).
Proof.
  intros Hs s t _. unfold cache_get. destruct (lru_get_mut k (get s)) as [r c]. cbn.
  unfold db_map. by rewrite Hs.
Qed.
Lemma keeps_cache_insert {K V} `{!EqDecision K} (get : State → LruCache K V) set (k : K) (v : V) :
  (∀ c s, trees (set c s) = trees s) → keeps [] (cache_insert get set k v).
Proof. intros Hs s t _. cbn. unfold db_map. by rewrite Hs. Qed.
(** What only depends on trees that stay. *)
Lemma keeps_stays {A} ts (P : State → Prop) (m : DB A) :
  keeps ts m → (∀ s s', agree ts s s' → P s → P s') → preserves (stays P) m.
Proof. intros Hm HP s. unfold stays. apply HP, Hm. Qed.
Lemma keeps_modify (f : State → State) : (∀ s, trees (f s) = trees s) → keeps [] (modify f).
Proof. intros Hf s t _. cbn. unfold db_map. by rewrite Hf. Qed.
End trees.
Abbreviation keeps ts := (preserves (agree ts)).

Create HintDb keeps.
#[export] Hint Resolve @keeps_get @keeps_iter @keeps_iter_from @keeps_scan_prefix @keeps_insert @keeps_remove
  @keeps_insert_batch @keeps_increment_batch @keeps_increment @keeps_remove_prefix @keeps_next_count
  @keeps_current_count : keeps.
#[export] Hint Extern 1 (preserves _ (cache_get _ _ _)) =>
  simple apply keeps_cache_get; reflexivity : keeps.
#[export] Hint Extern 1 (preserves _ (cache_insert _ _ _ _)) =>
  simple apply keeps_cache_insert; reflexivity : keeps.
#[export] Hint Extern 2 (preserves _ (modify _)) => simple apply keeps_modify; reflexivity : keeps.

(** The frame of a program from the frames of the operations it calls. *)
Ltac keeps_step :=
  lazymatch goal with
  | |- preserves _ (mret _) => apply preserves_ret, _
  | |- preserves _ (lift _) => apply preserves_lift, _
  | |- preserves _ (fail _) => apply preserves_fail, _
  | |- preserves _ (gets _) => apply preserves_gets, _
  | |- preserves _ (try_ok _) => apply preserves_try_ok; [apply _|]
  | |- preserves _ (for_each _ _) => apply preserves_for_each; [apply _|intros]
  | |- preserves _ (for_fold _ _ _) => apply preserves_for_fold; [apply _|intros]
  | |- preserves _ (_ ≫= _) => apply preserves_bind; [apply _| |intros]
  | |- preserves _ (match ?x with _ => _ end) => destruct x
  | |- preserves _ (let '_ := ?x in _) => destruct x
  | |- preserves _ _ =>
      first [assumption | eapply keeps_mono; [solve [eauto 2 with keeps]|by_compute]]
  end.
Ltac keeps_tac := intros; repeat keeps_step.
