(* ===== verification/Short.v ===== *)
(** * Short identifiers ([src/database/key_value/rooms/short.rs])

    Events, state keys, states and rooms are numbered with the global counter so
    that keys and state sets stay small.  The two directions of each numbering
    are separate trees with a cache in front of each: [ShortInv] says that the
    trees are inverse to each other, that every number was drawn from the
    counter, and that the caches agree with the trees. *)

From S2P Require Import Prelude Bytes RStr Error Utils KvTree Env Db Globals.

Section short.
Context {Ev : Env}.
Implicit Types s : State.

(** [u64_from_bytes(..).map_err(..)] *)
Definition parse_u64 (msg : string) (b : bytes) : res N :=
  ok_or (u64_from_bytes b) (BadDatabase msg).

Definition get_or_create_shorteventid (event_id : EventId) : DB N :=
  cached ← cache_get eventidshort_cache set_eventidshort_cache event_id;
  match cached with
  | Some short => mret short
  | None =>
      o ← t_get eventid_shorteventid (idb event_id);
      short ← match o with
              | Some shorteventid => lift (parse_u64 "Invalid shorteventid in db." shorteventid)
              | None =>
                  shorteventid ← next_count;
                  t_insert eventid_shorteventid (idb event_id) (to_be_bytes shorteventid) ;;
                  t_insert shorteventid_eventid (to_be_bytes shorteventid) (idb event_id) ;;
                  mret shorteventid
              end;
      cache_insert eventidshort_cache set_eventidshort_cache event_id short ;;
      mret short
  end.

(** [event_type.to_string() 0xff state_key] *)
Definition statekey_bytes (event_type : StateEventType) (state_key : rstr) : bytes :=
  as_bytes event_type ++ sep :: as_bytes state_key.

Definition get_shortstatekey (event_type : StateEventType) (state_key : rstr) : DB (option N) :=
  cached ← cache_get statekeyshort_cache set_statekeyshort_cache (event_type, state_key);
  match cached with
  | Some short => mret (Some short)
  | None =>
      o ← t_get statekey_shortstatekey (statekey_bytes event_type state_key);
      short ← lift (transpose (parse_u64 "Invalid shortstatekey in db." <$> o));
      match short with
      | Some sh => cache_insert statekeyshort_cache set_statekeyshort_cache (event_type, state_key) sh
      | None => mret ()
      end ;;
      mret short
  end.

Definition get_or_create_shortstatekey (event_type : StateEventType) (state_key : rstr) : DB N :=
  cached ← cache_get statekeyshort_cache set_statekeyshort_cache (event_type, state_key);
  match cached with
  | Some short => mret short
  | None =>
      let statekey := statekey_bytes event_type state_key in
      o ← t_get statekey_shortstatekey statekey;
      short ← match o with
              | Some shortstatekey => lift (parse_u64 "Invalid shortstatekey in db." shortstatekey)
              | None =>
                  shortstatekey ← next_count;
                  t_insert statekey_shortstatekey statekey (to_be_bytes shortstatekey) ;;
                  t_insert shortstatekey_statekey (to_be_bytes shortstatekey) statekey ;;
                  mret shortstatekey
              end;
      cache_insert statekeyshort_cache set_statekeyshort_cache (event_type, state_key) short ;;
      mret short
  end.

Definition get_eventid_from_short (shorteventid : N) : DB EventId :=
  cached ← cache_get shorteventid_cache set_shorteventid_cache shorteventid;
  match cached with
  | Some id => mret id
  | None =>
      o ← t_get shorteventid_eventid (to_be_bytes shorteventid);
      bs ← lift (ok_or o (BadDatabase "Shorteventid does not exist"));
      event_id ← lift (parse_bytes "EventID in shorteventid_eventid is invalid unicode."
                         "EventId in shorteventid_eventid is invalid." bs);
      cache_insert shorteventid_cache set_shorteventid_cache shorteventid event_id ;;
      mret event_id
  end.

(** The stored state key, split at the first separator. *)
Definition parse_statekey (bs : bytes) : res (StateEventType * rstr) :=
  let parts := splitn_ff 2 bs in
  eventtype_bytes ← expect (parts !! 0%nat) "split always returns one entry";
  statekey_bytes ← ok_or (parts !! 1%nat) (BadDatabase "Invalid statekey in shortstatekey_statekey.");
  event_type ← ok_or (string_from_bytes eventtype_bytes)
    (BadDatabase "Event type in shortstatekey_statekey is invalid unicode.");
  state_key ← ok_or (string_from_bytes statekey_bytes)
    (BadDatabase "Statekey in shortstatekey_statekey is invalid unicode.");
  Ok (event_type, state_key).

Definition get_statekey_from_short (shortstatekey : N) : DB (StateEventType * rstr) :=
  cached ← cache_get shortstatekey_cache set_shortstatekey_cache shortstatekey;
  match cached with
  | Some id => mret id
  | None =>
      o ← t_get shortstatekey_statekey (to_be_bytes shortstatekey);
      bs ← lift (ok_or o (BadDatabase "Shortstatekey does not exist"));
      result ← lift (parse_statekey bs);
      cache_insert shortstatekey_cache set_shortstatekey_cache shortstatekey result ;;
      mret result
  end.

(** Returns (shortstatehash, already_existed). *)
Definition get_or_create_shortstatehash (state_hash : bytes) : DB (N * bool) :=
  o ← t_get statehash_shortstatehash state_hash;
  match o with
  | Some shortstatehash =>
      short ← lift (parse_u64 "Invalid shortstatehash in db." shortstatehash);
      mret (short, true)
  | None =>
      shortstatehash ← next_count;
      t_insert statehash_shortstatehash state_hash (to_be_bytes shortstatehash) ;;
      mret (shortstatehash, false)
  end.

Definition get_shortroomid (room_id : RoomId) : DB (option N) :=
  o ← t_get roomid_shortroomid (idb room_id);
  lift (transpose (parse_u64 "Invalid shortroomid in db." <$> o)).

Definition get_or_create_shortroomid (room_id : RoomId) : DB N :=
  o ← t_get roomid_shortroomid (idb room_id);
  match o with
  | Some short => lift (parse_u64 "Invalid shortroomid in db." short)
  | None =>
      short ← next_count;
      t_insert roomid_shortroomid (idb room_id) (to_be_bytes short) ;;
      mret short
  end.

(** ** Invariant *)

(** A numbering: [fwd] maps names to numbers in [1..c], [bwd] is its inverse. *)
Record numbering (c : N) (fwd bwd : gmap bytes bytes) : Prop := {
  num_range k b : fwd !! k = Some b → ∃ n, b = to_be_bytes n ∧ 1 ≤ n ∧ n ≤ c;
  num_inverse k b : fwd !! k = Some b ↔ bwd !! b = Some k;
}.

(** A numbering without the way back: names keep apart. *)
Record injection (c : N) (fwd : gmap bytes bytes) : Prop := {
  inj_range k b : fwd !! k = Some b → ∃ n, b = to_be_bytes n ∧ 1 ≤ n ∧ n ≤ c;
  inj_inj k k' b : fwd !! k = Some b → fwd !! k' = Some b → k = k';
}.

Record ShortInv s : Prop := {
  inv_events : numbering (count s) (db_map s eventid_shorteventid) (db_map s shorteventid_eventid);
  inv_event_names k b :
    db_map s eventid_shorteventid !! k = Some b → ∃ e : EventId, k = idb e;
  inv_statekeys :
    numbering (count s) (db_map s statekey_shortstatekey) (db_map s shortstatekey_statekey);
  inv_statekey_names k b :
    db_map s statekey_shortstatekey !! k = Some b → ∃ t k', k = statekey_bytes t k';
  inv_rooms : injection (count s) (db_map s roomid_shortroomid);
  inv_hashes : injection (count s) (db_map s statehash_shortstatehash);
  inv_eventidshort e n :
    lru_peek (eventidshort_cache s) e = Some n →
    u64 n ∧ db_map s eventid_shorteventid !! idb e = Some (to_be_bytes n);
  inv_shorteventid n e :
    lru_peek (shorteventid_cache s) n = Some e →
    db_map s shorteventid_eventid !! to_be_bytes n = Some (idb e);
  inv_statekeyshort t k n :
    lru_peek (statekeyshort_cache s) (t, k) = Some n →
    u64 n ∧ db_map s statekey_shortstatekey !! statekey_bytes t k = Some (to_be_bytes n);
  inv_shortstatekey n t k :
    lru_peek (shortstatekey_cache s) n = Some (t, k) →
    db_map s shortstatekey_statekey !! to_be_bytes n = Some (statekey_bytes t k);
}.

(** ** Numberings *)

Lemma numbering_mono c c' fwd bwd : c ≤ c' → numbering c fwd bwd → numbering c' fwd bwd.
Proof.
  intros Hc [Hr Hi]. split; [|done]. intros k b Hk.
  destruct (Hr k b Hk) as (n & ? & ? & ?). exists n. lia || naive_solver lia.
Qed.
Lemma injection_mono c c' fwd : c ≤ c' → injection c fwd → injection c' fwd.
Proof.
  intros Hc [Hr Hi]. split; [|done]. intros k b Hk.
  destruct (Hr k b Hk) as (n & ? & ? & ?). exists n. naive_solver lia.
Qed.

Lemma numbering_inj c fwd bwd k k' b :
  numbering c fwd bwd → fwd !! k = Some b → fwd !! k' = Some b → k = k'.
Proof. intros [_ Hi] H1%Hi H2%Hi. congruence. Qed.

(** A number above the range is new on both sides. *)
Lemma numbering_extend c fwd bwd k :
  c + 1 < 2 ^ 64 → numbering c fwd bwd → fwd !! k = None →
  numbering (c + 1) (<[k := to_be_bytes (c + 1)]> fwd) (<[to_be_bytes (c + 1) := k]> bwd).
Proof.
  intros Hc [Hr Hi] Hk.
  assert (∀ k', fwd !! k' ≠ Some (to_be_bytes (c + 1))) as Hfresh.
  { intros k' Hk'. destruct (Hr _ _ Hk') as (n & Hb & ? & ?).
    apply to_be_bytes_inj in Hb; unfold u64; lia. }
  split.
  - intros k' b. rewrite lookup_insert. case_decide.
    + intros [= <-]. exists (c + 1). split; [done|lia].
    + intros Hb. destruct (Hr _ _ Hb) as (n & ? & ? & ?). exists n. naive_solver lia.
  - intros k' b. rewrite !lookup_insert. repeat case_decide; subst; [done|..].
    + split; [intros [= <-]; done|]. intros Hb%Hi. congruence.
    + split; [intros Hb; by destruct (Hfresh k')|congruence].
    + apply Hi.
Qed.

Lemma injection_extend c fwd k :
  c + 1 < 2 ^ 64 → injection c fwd → fwd !! k = None →
  injection (c + 1) (<[k := to_be_bytes (c + 1)]> fwd).
Proof.
  intros Hc [Hr Hi] Hk.
  assert (∀ k', fwd !! k' ≠ Some (to_be_bytes (c + 1))) as Hfresh.
  { intros k' Hk'. destruct (Hr _ _ Hk') as (n & Hb & ? & ?).
    apply to_be_bytes_inj in Hb; unfold u64; lia. }
  split.
  - intros k' b. rewrite lookup_insert. case_decide.
    + intros [= <-]. exists (c + 1). split; [done|lia].
    + intros Hb. destruct (Hr _ _ Hb) as (n & ? & ? & ?). exists n. naive_solver lia.
  - intros k1 k2 b. rewrite !lookup_insert. repeat case_decide; subst; try done.
    + intros [= <-] Hb. by destruct (Hfresh k2).
    + intros Hb [= <-]. by destruct (Hfresh k1).
    + apply Hi.
Qed.

(** Keys decode to what they were made of. *)
Lemma parse_statekey_bytes t k : parse_statekey (statekey_bytes t k) = Ok (t, k).
Proof.
  unfold parse_statekey, statekey_bytes. rewrite splitn2_app by auto with kv. cbn.
  unfold string_from_bytes. by rewrite !from_utf8_as_bytes.
Qed.

Lemma statekey_bytes_inj t k t' k' : statekey_bytes t k = statekey_bytes t' k' → t = t' ∧ k = k'.
Proof.
  intros E. apply (f_equal parse_statekey) in E. rewrite !parse_statekey_bytes in E. naive_solver.
Qed.

(** ** Frames *)

(** What the functions of this file never touch: every tree outside [ts] and
    every cache but the four of the numberings. *)
Record frame (ts : list TreeId) s s' : Prop := {
  fr_trees t : t ∉ ts → db_map s' t = db_map s t;
  fr_pdu : pdu_cache s' = pdu_cache s;
  fr_auth : auth_chain_cache s' = auth_chain_cache s;
  fr_info : stateinfo_cache s' = stateinfo_cache s;
  fr_users : our_real_users_cache s' = our_real_users_cache s;
  fr_apps : appservice_in_room_cache s' = appservice_in_room_cache s;
  fr_last : lasttimelinecount_cache s' = lasttimelinecount_cache s;
  fr_uiaa : userdevicesessionid_uiaarequest s' = userdevicesessionid_uiaarequest s;
  fr_now : now s' = now s;
}.

Lemma frame_refl ts s : frame ts s s.
Proof. by split. Qed.
Lemma frame_trans ts s1 s2 s3 : frame ts s1 s2 → frame ts s2 s3 → frame ts s1 s3.
Proof.
  intros [T1 ????????] [T2 ????????]. split; try congruence.
  intros t Ht. by rewrite T2, T1.
Qed.
Lemma frame_mono ts ts' s s' : ts ⊆ ts' → frame ts s s' → frame ts' s s'.
Proof. intros Hs []. split; auto. Qed.

(** The numbering trees only grow. *)
Definition short_trees : list TreeId :=
  [global; eventid_shorteventid; shorteventid_eventid; statekey_shortstatekey;
   shortstatekey_statekey].

Record grows s s' : Prop := {
  gr_frame : frame short_trees s s';
  gr_count : count s ≤ count s';
  gr_event : db_map s eventid_shorteventid ⊆ db_map s' eventid_shorteventid;
  gr_eventid : db_map s shorteventid_eventid ⊆ db_map s' shorteventid_eventid;
  gr_key : db_map s statekey_shortstatekey ⊆ db_map s' statekey_shortstatekey;
  gr_keyid : db_map s shortstatekey_statekey ⊆ db_map s' shortstatekey_statekey;
}.

Lemma grows_refl s : grows s s.
Proof. split; try done. Qed.
Lemma grows_trans s1 s2 s3 : grows s1 s2 → grows s2 s3 → grows s1 s3.
Proof.
  intros [] []. split; try (etrans; eassumption). by eapply frame_trans.
Qed.

(** ** Caches *)

Lemma inv_set_eventidshort c s :
  ShortInv s →
  (∀ e n, lru_peek c e = Some n →
          u64 n ∧ db_map s eventid_shorteventid !! idb e = Some (to_be_bytes n)) →
  ShortInv (set_eventidshort_cache c s).
Proof. intros [] Hc. by split. Qed.
Lemma inv_set_shorteventid c s :
  ShortInv s →
  (∀ n e, lru_peek c n = Some e → db_map s shorteventid_eventid !! to_be_bytes n = Some (idb e)) →
  ShortInv (set_shorteventid_cache c s).
Proof. intros [] Hc. by split. Qed.
Lemma inv_set_statekeyshort c s :
  ShortInv s →
  (∀ t k n, lru_peek c (t, k) = Some n →
            u64 n ∧ db_map s statekey_shortstatekey !! statekey_bytes t k = Some (to_be_bytes n)) →
  ShortInv (set_statekeyshort_cache c s).
Proof. intros [] Hc. by split. Qed.
Lemma inv_set_shortstatekey c s :
  ShortInv s →
  (∀ n t k, lru_peek c n = Some (t, k) →
            db_map s shortstatekey_statekey !! to_be_bytes n = Some (statekey_bytes t k)) →
  ShortInv (set_shortstatekey_cache c s).
Proof. intros [] Hc. by split. Qed.

Lemma grows_set_eventidshort c s s' : grows s s' → grows s (set_eventidshort_cache c s').
Proof. intros [[] ?????]. by split. Qed.
Lemma grows_set_shorteventid c s s' : grows s s' → grows s (set_shorteventid_cache c s').
Proof. intros [[] ?????]. by split. Qed.
Lemma grows_set_statekeyshort c s s' : grows s s' → grows s (set_statekeyshort_cache c s').
Proof. intros [[] ?????]. by split. Qed.
Lemma grows_set_shortstatekey c s s' : grows s s' → grows s (set_shortstatekey_cache c s').
Proof. intros [[] ?????]. by split. Qed.

(** [get_mut] returns what the cache holds and moves it to the front. *)
Lemma cache_get_run {K V} `{!EqDecision K} (get : State → LruCache K V) set (k : K) s :
  cache_get get set k s =
  (Ok (lru_peek (get s) k), set (lru_get_mut k (get s)).2 s).
Proof.
  unfold cache_get. rewrite <- lru_get_peek. by destruct (lru_get_mut _ _).
Qed.

(** ** New names *)

Definition new_event (e : EventId) s : State :=
  put shorteventid_eventid (to_be_bytes (count s + 1)) (idb e)
    (put eventid_shorteventid (idb e) (to_be_bytes (count s + 1)) (bump s)).
Definition new_statekey (k : bytes) s : State :=
  put shortstatekey_statekey (to_be_bytes (count s + 1)) k
    (put statekey_shortstatekey k (to_be_bytes (count s + 1)) (bump s)).

(** No name has the next number yet. *)
Lemma numbering_fresh s c fwd bwd :
  c + 1 < 2 ^ 64 → numbering c fwd bwd → bwd !! to_be_bytes (c + 1) = None.
Proof.
  intros Hc [Hr Hi]. destruct (bwd !! to_be_bytes (c + 1)) as [k|] eqn:E; [|done].
  apply Hi, Hr in E as (n & Hb & ? & ?). apply to_be_bytes_inj in Hb; unfold u64; lia.
Qed.

Lemma inv_new_event e s :
  ShortInv s → count_ok s → db_map s eventid_shorteventid !! idb e = None →
  ShortInv (new_event e s).
Proof.
  intros I Hc He. pose proof (count_bump_ok s Hc) as Hb.
  pose proof (numbering_fresh s _ _ _ Hc (inv_events s I)) as Hf.
  assert (count (new_event e s) = count s + 1) as Hcount.
  { unfold new_event. by db_simpl. }
  destruct I. split; rewrite ?Hcount; unfold new_event; db_simpl; auto;
    eauto using numbering_extend, numbering_mono, injection_mono, N.le_add_r.
  - intros k b. rewrite lookup_insert. case_decide; naive_solver.
  - intros e' n Hp. destruct (inv_eventidshort0 e' n Hp) as [? Hd]. split; [done|].
    rewrite lookup_insert_ne; [done|]. intros E%(inj idb). congruence.
  - intros n e' Hp. rewrite lookup_insert_ne; [by auto|]. intros E.
    apply inv_shorteventid0 in Hp. congruence.
Qed.

Lemma inv_new_statekey t k s :
  ShortInv s → count_ok s → db_map s statekey_shortstatekey !! statekey_bytes t k = None →
  ShortInv (new_statekey (statekey_bytes t k) s).
Proof.
  intros I Hc He. pose proof (count_bump_ok s Hc) as Hb.
  pose proof (numbering_fresh s _ _ _ Hc (inv_statekeys s I)) as Hf.
  assert (count (new_statekey (statekey_bytes t k) s) = count s + 1) as Hcount.
  { unfold new_statekey. by db_simpl. }
  destruct I. split; rewrite ?Hcount; unfold new_statekey; db_simpl; auto;
    eauto using numbering_extend, numbering_mono, injection_mono, N.le_add_r.
  - intros k' b. rewrite lookup_insert. case_decide; naive_solver.
  - intros t' k' n Hp. destruct (inv_statekeyshort0 t' k' n Hp) as [? Hd]. split; [done|].
    rewrite lookup_insert_ne; [done|]. intros [-> ->]%statekey_bytes_inj. congruence.
  - intros n t' k' Hp. rewrite lookup_insert_ne; [by auto|]. intros E.
    apply inv_shortstatekey0 in Hp. congruence.
Qed.

Lemma frame_put ts t k v s s' : t ∈ ts → frame ts s s' → frame ts s (put t k v s').
Proof.
  intros Ht [F ????????]. split; try done. intros t' Ht'.
  rewrite db_map_put_ne by congruence. auto.
Qed.
Lemma frame_del ts t k s s' : t ∈ ts → frame ts s s' → frame ts s (del t k s').
Proof.
  intros Ht [F ????????]. split; try done. intros t' Ht'.
  rewrite db_map_del_ne by congruence. auto.
Qed.
Lemma frame_bump ts s s' : global ∈ ts → frame ts s s' → frame ts s (bump s').
Proof.
  intros Ht [F ????????]. split; try done. intros t' Ht'.
  rewrite db_map_bump_ne by congruence. auto.
Qed.

Lemma grows_new_event e s :
  ShortInv s → count_ok s → db_map s eventid_shorteventid !! idb e = None → grows s (new_event e s).
Proof.
  intros I Hc He. pose proof (count_bump_ok s Hc) as Hb.
  pose proof (numbering_fresh s _ _ _ Hc (inv_events s I)) as Hf.
  split; unfold new_event; db_simpl; try done; [|lia|by apply insert_subseteq..].
  repeat (apply frame_put; [set_solver|]). apply frame_bump; [set_solver|apply frame_refl].
Qed.
Lemma grows_new_statekey k s :
  ShortInv s → count_ok s → db_map s statekey_shortstatekey !! k = None → grows s (new_statekey k s).
Proof.
  intros I Hc He. pose proof (count_bump_ok s Hc) as Hb.
  pose proof (numbering_fresh s _ _ _ Hc (inv_statekeys s I)) as Hf.
  split; unfold new_statekey; db_simpl; try done; [|lia|by apply insert_subseteq..].
  repeat (apply frame_put; [set_solver|]). apply frame_bump; [set_solver|apply frame_refl].
Qed.

(** ** The operations *)

(** What a call for a event leaves behind. *)
Definition event_numbered (e : EventId) (n : N) s s' : Prop :=
  ShortInv s' ∧ grows s s' ∧ count s' ≤ count s + 1 ∧ 1 ≤ n ∧ n ≤ count s' ∧
  db_map s' eventid_shorteventid !! idb e = Some (to_be_bytes n).

(** A name that is already numbered: only the cache changes. *)
Lemma event_known (e : EventId) c n s :
  ShortInv s → count_ok s → u64 n →
  (∀ e' n, lru_peek c e' = Some n →
     u64 n ∧ db_map s eventid_shorteventid !! idb e' = Some (to_be_bytes n)) →
  db_map s eventid_shorteventid !! idb e = Some (to_be_bytes n) →
  event_numbered e n s (set_eventidshort_cache c s).
Proof.
  intros I Hc Hn Hpk Hd.
  destruct (num_range _ _ _ (inv_events s I) _ _ Hd) as (n' & En & ? & ?).
  apply to_be_bytes_inj in En as ->; [|done|unfold u64, count_ok in *; lia].
  unfold event_numbered. db_simpl.
  split_and!; auto using inv_set_eventidshort, grows_set_eventidshort, grows_refl; lia.
Qed.

(** A new name: it gets the next number. *)
Lemma event_fresh (e : EventId) c s :
  ShortInv s → count_ok s → db_map s eventid_shorteventid !! idb e = None →
  (∀ e' n, lru_peek c e' = Some n →
     u64 n ∧ db_map (new_event e s) eventid_shorteventid !! idb e' = Some (to_be_bytes n)) →
  event_numbered e (count s + 1) s (set_eventidshort_cache c (new_event e s)).
Proof.
  intros I Hc Ed Hpk. unfold event_numbered. db_simpl.
  assert (count (new_event e s) = count s + 1) as Hcn.
  { unfold new_event. db_simpl. by apply count_bump_ok. }
  split_and!; try lia.
  - apply inv_set_eventidshort; [by apply inv_new_event|done].
  - by apply grows_set_eventidshort, grows_new_event.
  - unfold new_event. db_simpl. apply lookup_insert_eq.
Qed.

Lemma get_or_create_shorteventid_spec (e : EventId) s :
  ShortInv s → count_ok s →
  ∃ n s', get_or_create_shorteventid e s = (Ok n, s') ∧ event_numbered e n s s'.
Proof.
  intros I Hc. unfold get_or_create_shorteventid. erewrite bind_Ok by apply cache_get_run.
  set (c := (lru_get_mut e (eventidshort_cache s)).2).
  assert (∀ e' n, lru_peek c e' = Some n → u64 n ∧
            db_map s eventid_shorteventid !! idb e' = Some (to_be_bytes n)) as Hpk.
  { intros e' n. unfold c. rewrite lru_peek_get. apply I. }
  destruct (lru_peek (eventidshort_cache s) e) as [n|] eqn:Epk.
  { destruct (inv_eventidshort s I _ _ Epk) as [Hn Hd].
    eexists _, _. split; [done|]. by apply event_known. }
  db_step. db_simpl. destruct (db_map s eventid_shorteventid !! idb e) as [b|] eqn:Ed.
  - destruct (num_range _ _ _ (inv_events s I) _ _ Ed) as (n & -> & ? & ?).
    assert (u64 n) as Hn by (unfold u64, count_ok in *; lia).
    unfold parse_u64. rewrite u64_from_be_u64 by done. cbn.
    eexists _, _. split; [done|]. refine (event_known e (lru_insert e n c) n s _ _ _ _ _); try done.
    intros e' n' [[E1 ->]|[_ ?]]%lru_peek_insert; [|by auto]. by simplify_eq.
  - rewrite (bind_Ok _ _ (set_eventidshort_cache c s) (count s + 1)
               (set_eventidshort_cache c (new_event e s))).
    2: { rewrite (bind_Ok _ _ _ _ _ (next_count_ok (set_eventidshort_cache c s) Hc)). done. }
    eexists _, _. split; [done|]. refine (event_fresh e (lru_insert e _ c) s _ _ _ _); try done.
    intros e' n' [[E1 ->]|[Hne Hp]]%lru_peek_insert.
    + simplify_eq. split; [done|]. unfold new_event. db_simpl. apply lookup_insert_eq.
    + destruct (Hpk e' n' Hp) as [? Hd]. split; [done|].
      by eapply lookup_weaken, grows_new_event.
Qed.

(** What a call for a state key leaves behind. *)
Definition statekey_numbered (t : StateEventType) (k : rstr) (n : N) s s' : Prop :=
  ShortInv s' ∧ grows s s' ∧ count s' ≤ count s + 1 ∧ 1 ≤ n ∧ n ≤ count s' ∧
  db_map s' statekey_shortstatekey !! statekey_bytes t k = Some (to_be_bytes n).

(** A name that is already numbered: only the cache changes. *)
Lemma statekey_known (t : StateEventType) (k : rstr) c n s :
  ShortInv s → count_ok s → u64 n →
  (∀ t' k' n, lru_peek c (t', k') = Some n →
     u64 n ∧ db_map s statekey_shortstatekey !! statekey_bytes t' k' = Some (to_be_bytes n)) →
  db_map s statekey_shortstatekey !! statekey_bytes t k = Some (to_be_bytes n) →
  statekey_numbered t k n s (set_statekeyshort_cache c s).
Proof.
  intros I Hc Hn Hpk Hd.
  destruct (num_range _ _ _ (inv_statekeys s I) _ _ Hd) as (n' & En & ? & ?).
  apply to_be_bytes_inj in En as ->; [|done|unfold u64, count_ok in *; lia].
  unfold statekey_numbered. db_simpl.
  split_and!; auto using inv_set_statekeyshort, grows_set_statekeyshort, grows_refl; lia.
Qed.

(** A new name: it gets the next number. *)
Lemma statekey_fresh (t : StateEventType) (k : rstr) c s :
  ShortInv s → count_ok s → db_map s statekey_shortstatekey !! statekey_bytes t k = None →
  (∀ t' k' n, lru_peek c (t', k') = Some n →
     u64 n ∧ db_map (new_statekey (statekey_bytes t k) s) statekey_shortstatekey !! statekey_bytes t' k' = Some (to_be_bytes n)) →
  statekey_numbered t k (count s + 1) s (set_statekeyshort_cache c (new_statekey (statekey_bytes t k) s)).
Proof.
  intros I Hc Ed Hpk. unfold statekey_numbered. db_simpl.
  assert (count (new_statekey (statekey_bytes t k) s) = count s + 1) as Hcn.
  { unfold new_statekey. db_simpl. by apply count_bump_ok. }
  split_and!; try lia.
  - apply inv_set_statekeyshort; [by apply inv_new_statekey|done].
  - by apply grows_set_statekeyshort, grows_new_statekey.
  - unfold new_statekey. db_simpl. apply lookup_insert_eq.
Qed.

Lemma get_or_create_shortstatekey_spec (t : StateEventType) (k : rstr) s :
  ShortInv s → count_ok s →
  ∃ n s', get_or_create_shortstatekey t k s = (Ok n, s') ∧ statekey_numbered t k n s s'.
Proof.
  intros I Hc. unfold get_or_create_shortstatekey. erewrite bind_Ok by apply cache_get_run.
  set (c := (lru_get_mut (t, k) (statekeyshort_cache s)).2).
  assert (∀ t' k' n, lru_peek c (t', k') = Some n → u64 n ∧
            db_map s statekey_shortstatekey !! statekey_bytes t' k' = Some (to_be_bytes n)) as Hpk.
  { intros t' k' n. unfold c. rewrite lru_peek_get. apply I. }
  destruct (lru_peek (statekeyshort_cache s) (t, k)) as [n|] eqn:Epk.
  { destruct (inv_statekeyshort s I _ _ _ Epk) as [Hn Hd].
    eexists _, _. split; [done|]. by apply statekey_known. }
  db_step. db_simpl. destruct (db_map s statekey_shortstatekey !! statekey_bytes t k) as [b|] eqn:Ed.
  - destruct (num_range _ _ _ (inv_statekeys s I) _ _ Ed) as (n & -> & ? & ?).
    assert (u64 n) as Hn by (unfold u64, count_ok in *; lia).
    unfold parse_u64. rewrite u64_from_be_u64 by done. cbn.
    eexists _, _. split; [done|]. refine (statekey_known t k (lru_insert (t, k) n c) n s _ _ _ _ _); try done.
    intros t' k' n' [[E1 ->]|[_ ?]]%lru_peek_insert; [|by auto]. by simplify_eq.
  - rewrite (bind_Ok _ _ (set_statekeyshort_cache c s) (count s + 1)
               (set_statekeyshort_cache c (new_statekey (statekey_bytes t k) s))).
    2: { rewrite (bind_Ok _ _ _ _ _ (next_count_ok (set_statekeyshort_cache c s) Hc)). done. }
    eexists _, _. split; [done|]. refine (statekey_fresh t k (lru_insert (t, k) _ c) s _ _ _ _); try done.
    intros t' k' n' [[E1 ->]|[Hne Hp]]%lru_peek_insert.
    + simplify_eq. split; [done|]. unfold new_statekey. db_simpl. apply lookup_insert_eq.
    + destruct (Hpk t' k' n' Hp) as [? Hd]. split; [done|].
      by eapply lookup_weaken, grows_new_statekey.
Qed.

(** The way back: a numbered event is found again, from the cache or the tree. *)
Lemma get_eventid_from_short_spec n e s :
  ShortInv s → db_map s shorteventid_eventid !! to_be_bytes n = Some (idb e) →
  ∃ c, get_eventid_from_short n s = (Ok e, set_shorteventid_cache c s)
       ∧ ShortInv (set_shorteventid_cache c s).
Proof.
  intros I Hd. unfold get_eventid_from_short. erewrite bind_Ok by apply cache_get_run.
  set (c := (lru_get_mut n (shorteventid_cache s)).2).
  assert (∀ n' e', lru_peek c n' = Some e' →
            db_map s shorteventid_eventid !! to_be_bytes n' = Some (idb e')) as Hpk.
  { intros n' e'. unfold c. rewrite lru_peek_get. apply I. }
  destruct (lru_peek (shorteventid_cache s) n) as [e'|] eqn:Epk.
  - pose proof (inv_shorteventid s I _ _ Epk) as Hd'.
    assert (e' = e) as -> by (apply (inj idb); congruence).
    exists c. split; [done|]. by apply inv_set_shorteventid.
  - db_step. db_simpl. rewrite Hd. cbn [ok_or]. db_step. rewrite parse_bytes_idb. db_step.
    exists (lru_insert n e c). split; [done|]. apply inv_set_shorteventid; [done|].
    intros n' e' [[-> ->]|[_ ?]]%lru_peek_insert; auto.
Qed.

(** A number that was never given out is an error. *)
Lemma get_eventid_from_short_unknown n s :
  ShortInv s → db_map s shorteventid_eventid !! to_be_bytes n = None →
  (get_eventid_from_short n s).1 = Err (BadDatabase "Shorteventid does not exist").
Proof.
  intros I Hd. unfold get_eventid_from_short. erewrite bind_Ok by apply cache_get_run.
  destruct (lru_peek (shorteventid_cache s) n) as [e'|] eqn:Epk.
  - apply (inv_shorteventid s I) in Epk. congruence.
  - db_step. db_simpl. by rewrite Hd.
Qed.

Lemma get_statekey_from_short_spec n t k s :
  ShortInv s → db_map s shortstatekey_statekey !! to_be_bytes n = Some (statekey_bytes t k) →
  ∃ c, get_statekey_from_short n s = (Ok (t, k), set_shortstatekey_cache c s)
       ∧ ShortInv (set_shortstatekey_cache c s).
Proof.
  intros I Hd. unfold get_statekey_from_short. erewrite bind_Ok by apply cache_get_run.
  set (c := (lru_get_mut n (shortstatekey_cache s)).2).
  assert (∀ n' t' k', lru_peek c n' = Some (t', k') →
            db_map s shortstatekey_statekey !! to_be_bytes n' = Some (statekey_bytes t' k')) as Hpk.
  { intros n' t' k'. unfold c. rewrite lru_peek_get. apply I. }
  destruct (lru_peek (shortstatekey_cache s) n) as [[t' k']|] eqn:Epk.
  - pose proof (inv_shortstatekey s I _ _ _ Epk) as Hd'.
    assert (t' = t ∧ k' = k) as [-> ->] by (apply statekey_bytes_inj; congruence).
    exists c. split; [done|]. by apply inv_set_shortstatekey.
  - db_step. db_simpl. rewrite Hd. cbn [ok_or]. db_step. rewrite parse_statekey_bytes. db_step.
    exists (lru_insert n (t, k) c). split; [done|]. apply inv_set_shortstatekey; [done|].
    intros n' t' k' [[-> [= -> ->]]|[_ ?]]%lru_peek_insert; auto.
Qed.

(** Looking up a state key never numbers it. *)
Lemma get_shortstatekey_spec t k s :
  ShortInv s → count_ok s →
  ∃ c, get_shortstatekey t k s =
         (Ok (db_map s statekey_shortstatekey !! statekey_bytes t k ≫= u64_from_bytes),
          set_statekeyshort_cache c s)
       ∧ ShortInv (set_statekeyshort_cache c s).
Proof.
  intros I Hc. unfold get_shortstatekey. erewrite bind_Ok by apply cache_get_run.
  set (c := (lru_get_mut (t, k) (statekeyshort_cache s)).2).
  assert (∀ t' k' n, lru_peek c (t', k') = Some n → u64 n ∧
            db_map s statekey_shortstatekey !! statekey_bytes t' k' = Some (to_be_bytes n)) as Hpk.
  { intros t' k' n. unfold c. rewrite lru_peek_get. apply I. }
  destruct (lru_peek (statekeyshort_cache s) (t, k)) as [n|] eqn:Epk.
  { destruct (inv_statekeyshort s I _ _ _ Epk) as [Hn Hd]. exists c. split.
    - rewrite Hd. cbn. by rewrite u64_from_be_u64.
    - by apply inv_set_statekeyshort. }
  db_step. db_simpl. destruct (db_map s statekey_shortstatekey !! statekey_bytes t k) as [b|] eqn:Ed.
  - destruct (num_range _ _ _ (inv_statekeys s I) _ _ Ed) as (n & -> & ? & ?).
    assert (u64 n) as Hn by (unfold u64, count_ok in *; lia).
    unfold parse_u64. cbn. rewrite u64_from_be_u64 by done. cbn.
    exists (lru_insert (t, k) n c). split; [done|]. apply inv_set_statekeyshort; [done|].
    intros t' k' n' [[[= -> ->] ->]|[_ ?]]%lru_peek_insert; auto.
  - exists c. split; [done|]. by apply inv_set_statekeyshort.
Qed.

(** ** Rooms and state hashes *)

Lemma inv_put_room k s :
  ShortInv s → count_ok s → db_map s roomid_shortroomid !! k = None →
  ShortInv (put roomid_shortroomid k (to_be_bytes (count s + 1)) (bump s)).
Proof.
  intros I Hc Hk. pose proof (count_bump_ok s Hc) as Hb. destruct I.
  split; db_simpl; rewrite ?Hb; auto;
    eauto using injection_extend, numbering_mono, injection_mono, N.le_add_r.
Qed.

Lemma inv_put_hash k s :
  ShortInv s → count_ok s → db_map s statehash_shortstatehash !! k = None →
  ShortInv (put statehash_shortstatehash k (to_be_bytes (count s + 1)) (bump s)).
Proof.
  intros I Hc Hk. pose proof (count_bump_ok s Hc) as Hb. destruct I.
  split; db_simpl; rewrite ?Hb; auto;
    eauto using injection_extend, numbering_mono, injection_mono, N.le_add_r.
Qed.

(** An entry of an injective numbering is read back as its number. *)
Lemma injection_parse c fwd k b msg :
  c + 1 < 2 ^ 64 → injection c fwd → fwd !! k = Some b →
  ∃ n, b = to_be_bytes n ∧ 1 ≤ n ∧ n ≤ c ∧ u64 n ∧ parse_u64 msg b = Ok n.
Proof.
  intros Hc I Hk. destruct (inj_range _ _ I _ _ Hk) as (n & -> & ? & ?).
  assert (u64 n) by (unfold u64; lia).
  exists n. split_and!; auto. unfold parse_u64. by rewrite u64_from_be_u64.
Qed.

Lemma get_or_create_shortroomid_spec r s :
  ShortInv s → count_ok s →
  ∃ n s', get_or_create_shortroomid r s = (Ok n, s') ∧ ShortInv s' ∧
    count s' ≤ count s + 1 ∧ 1 ≤ n ∧ n ≤ count s' ∧
    db_map s' roomid_shortroomid !! idb r = Some (to_be_bytes n) ∧
    db_map s roomid_shortroomid ⊆ db_map s' roomid_shortroomid ∧
    frame [global; roomid_shortroomid] s s'.
Proof.
  intros I Hc. unfold get_or_create_shortroomid. db_step.
  destruct (db_map s roomid_shortroomid !! idb r) as [b|] eqn:Ed.
  - destruct (injection_parse _ _ _ _ "Invalid shortroomid in db." Hc (inv_rooms s I) Ed)
      as (n & -> & ? & ? & ? & ->).
    exists n, s. split_and!; auto; [lia|apply frame_refl].
  - rewrite (bind_Ok _ _ _ _ _ (next_count_ok s Hc)). eexists _, _. split; [done|].
    db_simpl. rewrite count_bump_ok by done.
    split_and!; try lia; [by apply inv_put_room|by apply lookup_insert_eq|by apply insert_subseteq|].
    apply frame_put; [set_solver|]. apply frame_bump; [set_solver|apply frame_refl].
Qed.

Lemma get_or_create_shortstatehash_spec h s :
  ShortInv s → count_ok s →
  ∃ n ex s', get_or_create_shortstatehash h s = (Ok (n, ex), s') ∧ ShortInv s' ∧
    count s' ≤ count s + 1 ∧ 1 ≤ n ∧ n ≤ count s' ∧
    db_map s' statehash_shortstatehash !! h = Some (to_be_bytes n) ∧
    (if ex then s' = s
     else n = count s + 1 ∧ s' = put statehash_shortstatehash h (to_be_bytes n) (bump s)) ∧
    (ex = true ↔ is_Some (db_map s statehash_shortstatehash !! h)) ∧
    frame [global; statehash_shortstatehash] s s'.
Proof.
  intros I Hc. unfold get_or_create_shortstatehash. db_step.
  destruct (db_map s statehash_shortstatehash !! h) as [b|] eqn:Ed.
  - destruct (injection_parse _ _ _ _ "Invalid shortstatehash in db." Hc (inv_hashes s I) Ed)
      as (n & -> & ? & ? & ? & ->).
    db_step. exists n, true, s. split_and!; auto; [lia|done|apply frame_refl].
  - rewrite (bind_Ok _ _ _ _ _ (next_count_ok s Hc)). eexists _, _, _. split; [done|].
    db_simpl. rewrite count_bump_ok by done.
    split_and!; try lia; try done; [by apply inv_put_hash|by apply lookup_insert_eq|].
    apply frame_put; [set_solver|]. apply frame_bump; [set_solver|apply frame_refl].
Qed.

(** Two events get the same number only if they are the same event, and the
    number of each leads back to it, also after other events were numbered. *)
Theorem short_roundtrip (e1 e2 : EventId) s :
  ShortInv s → count s + 2 < 2 ^ 64 →
  ∃ n1 s1 n2 s2, get_or_create_shorteventid e1 s = (Ok n1, s1) ∧
    get_or_create_shorteventid e2 s1 = (Ok n2, s2) ∧ ShortInv s2 ∧
    (n1 = n2 ↔ e1 = e2) ∧
    (get_eventid_from_short n1 s2).1 = Ok e1 ∧ (get_eventid_from_short n2 s2).1 = Ok e2.
Proof.
  intros I Hc. destruct (get_or_create_shorteventid_spec e1 s I) as (n1 & s1 & E1 & I1 & G1 & C1 & ? & ? & H1);
    [unfold count_ok; lia|].
  destruct (get_or_create_shorteventid_spec e2 s1 I1) as (n2 & s2 & E2 & I2 & G2 & C2 & ? & ? & H2);
    [unfold count_ok; lia|].
  assert (db_map s2 eventid_shorteventid !! idb e1 = Some (to_be_bytes n1)) as H1'
    by (by eapply lookup_weaken, gr_event).
  destruct (inv_events s2 I2) as [Hr Hi].
  destruct (get_eventid_from_short_spec n1 e1 s2) as (c1 & R1 & _); [done|by apply Hi|].
  destruct (get_eventid_from_short_spec n2 e2 s2) as (c2 & R2 & _); [done|by apply Hi|].
  exists n1, s1, n2, s2. rewrite R1, R2. split_and!; try done. split.
  - intros ->. rewrite R1 in R2. by injection R2.
  - intros ->. rewrite H1' in H2. apply (inj Some) in H2. apply to_be_bytes_inj in H2; [done|unfold u64; lia..].
Qed.
End short.
