(* ===== verification/RoomState.v ===== *)
(** * Room state pointers and forward extremities
    ([src/database/key_value/rooms/state.rs]) *)

From S2P Require Import Prelude Bytes RStr Error Utils KvTree Env Db Globals Short.

Section room_state.
Context {Ev : Env}.
Implicit Types s : State.

Definition get_room_shortstatehash (room_id : RoomId) : DB (option N) :=
  o ← t_get roomid_shortstatehash (idb room_id);
  lift (transpose (parse_u64 "Invalid shortstatehash in roomid_shortstatehash" <$> o)).

Definition set_room_state (room_id : RoomId) (new_shortstatehash : N) : DB unit :=
  t_insert roomid_shortstatehash (idb room_id) (to_be_bytes new_shortstatehash).

Definition set_event_state (shorteventid shortstatehash : N) : DB unit :=
  t_insert shorteventid_shortstatehash (to_be_bytes shorteventid) (to_be_bytes shortstatehash).

(** [room_id 0xff]: the common prefix of a room's leaves. *)
Definition leaves_prefix (room_id : RoomId) : bytes := idb room_id ++ [sep].

Definition get_forward_extremities (room_id : RoomId) : DB (gset EventId) :=
  l ← t_scan_prefix roomid_pduleaves (leaves_prefix room_id);
  lift (list_to_set <$>
    collect ((λ e : entry, parse_bytes "EventID in roomid_pduleaves is invalid unicode."
                             "EventId in roomid_pduleaves is invalid." e.2) <$> l)).

Definition set_forward_extremities (room_id : RoomId) (event_ids : list EventId) : DB unit :=
  let prefix := leaves_prefix room_id in
  t_remove_prefix roomid_pduleaves prefix ;;
  for_each event_ids (λ event_id,
    t_insert roomid_pduleaves (prefix ++ idb event_id) (idb event_id)).

(** ** Lemmas *)

Lemma get_room_shortstatehash_put r n s :
  u64 n → get_room_shortstatehash r (put roomid_shortstatehash (idb r) (to_be_bytes n) s) =
          (Ok (Some n), put roomid_shortstatehash (idb r) (to_be_bytes n) s).
Proof.
  intros Hn. unfold get_room_shortstatehash. db_step. db_simpl. rewrite lookup_insert_eq.
  unfold parse_u64. cbn. by rewrite u64_from_be_u64.
Qed.

Definition put_leaves (r : RoomId) (es : list EventId) s : State :=
  foldl (λ s e, put roomid_pduleaves (leaves_prefix r ++ idb e) (idb e) s) s es.

Lemma set_forward_extremities_run r es s :
  set_forward_extremities r es s =
  (Ok (), put_leaves r es (del_prefix roomid_pduleaves (leaves_prefix r) s)).
Proof. unfold set_forward_extremities. db_step. apply for_each_modify. Qed.

Lemma lookup_put_leaves r es s k :
  db_map (put_leaves r es s) roomid_pduleaves !! k =
  match list_find (λ e, k = leaves_prefix r ++ idb e) es with
  | Some (_, e) => Some (idb e)
  | None => db_map s roomid_pduleaves !! k
  end.
Proof.
  unfold put_leaves. revert s. induction es as [|e es IH]; intros s; [done|]. cbn [foldl].
  rewrite IH. cbn [list_find]. db_simpl.
  destruct (decide (k = leaves_prefix r ++ idb e)) as [->|Hne].
  - rewrite lookup_insert_eq. destruct (list_find _ es) as [[i e']|] eqn:Ef; [|done].
    apply list_find_Some in Ef as (_ & E & _). apply app_inv_head in E. by rewrite E.
  - rewrite lookup_insert_ne by congruence. by destruct (list_find _ es) as [[i e']|].
Qed.

(** The leaves of a room after they were set. *)
Lemma leaves_after_set r es s v :
  let s' := (set_forward_extremities r es s).2 in
  (∃ k, (k, v) ∈ with_prefix (leaves_prefix r) (db_map s' roomid_pduleaves)) ↔
  ∃ e, e ∈ es ∧ v = idb e.
Proof.
  intros s'. unfold s'. rewrite set_forward_extremities_run. cbn [snd]. split.
  - intros [k Hk]. apply elem_of_with_prefix in Hk as [Hk Hp].
    rewrite lookup_put_leaves in Hk. destruct (list_find _ es) as [[i e]|] eqn:Ef.
    + apply list_find_Some in Ef as (Hl & _ & _). exists e. simplify_eq.
      eauto using list_elem_of_lookup_2.
    + rewrite lookup_del_prefix, decide_True in Hk; done.
  - intros (e & He & ->). exists (leaves_prefix r ++ idb e).
    apply elem_of_with_prefix. split; [|by exists (idb e)].
    rewrite lookup_put_leaves. destruct (list_find _ es) as [[i e']|] eqn:Ef.
    + apply list_find_Some in Ef as (_ & E & _). apply app_inv_head in E. by rewrite E.
    + rewrite list_find_None, Forall_forall in Ef. by destruct (Ef e He).
Qed.

(** Reading the leaves back. *)
Lemma get_leaves r (es : list EventId) s :
  (∀ v, (∃ k, (k, v) ∈ with_prefix (leaves_prefix r) (db_map s roomid_pduleaves)) ↔ ∃ e, e ∈ es ∧ v = idb e) →
  get_forward_extremities r s = (Ok (list_to_set es), s).
Proof.
  intros H. unfold get_forward_extremities. db_step. unfold lift. f_equal.
  set (l := with_prefix _ _) in *.
  assert (∃ x : list EventId, l.*2 = idb <$> x) as [x Hx].
  { assert (∀ v, v ∈ l.*2 → ∃ e : EventId, v = idb e) as Hl.
    { intros v Hv. apply list_elem_of_fmap in Hv as ([k v'] & -> & Hin).
      destruct (proj1 (H v')) as (e & _ & ->); [by exists k|]. by exists e. }
    revert Hl. clear. induction l.*2 as [|v vs IH]; intros Hl; [by exists []|].
    destruct (Hl v) as [e ->]; [by left|]. destruct IH as [x ->]; [intros v Hv; apply Hl; by right|]. by exists (e :: x). }
  assert (∀ u v, (λ e : entry, parse_bytes (valid := valid_event_id) u v e.2) <$> l = (λ e : EventId, Ok (id e)) <$> x) as ->.
  { intros u v. transitivity (parse_bytes (valid := valid_event_id) u v <$> l.*2); [by rewrite <- list_fmap_compose|].
    rewrite Hx, <- list_fmap_compose. apply list_fmap_ext. intros. apply parse_bytes_idb. }
  rewrite collect_fmap_Ok, list_fmap_id. cbn. f_equal. apply set_eq. intros e. rewrite !elem_of_list_to_set.
  split.
  - intros He. assert (idb e ∈ l.*2) as ([k v] & E & Hin)%list_elem_of_fmap by (rewrite Hx; by apply list_elem_of_fmap_2).
    cbn in E. subst v. destruct (proj1 (H (idb e))) as (e' & He' & E'); [by exists k|]. by apply (inj idb) in E' as ->.
  - intros He. destruct (proj2 (H (idb e))) as [k Hk]; [by exists e|].
    assert (idb e ∈ l.*2) as Hin by (apply list_elem_of_fmap; by exists (k, idb e)).
    rewrite Hx in Hin. apply list_elem_of_fmap in Hin as (e' & E & Hin). by apply (inj idb) in E as ->.
Qed.
End room_state.
