(* ===== verification/StateCompressor.v ===== *)
(** * State compression
    ([src/service/rooms/state_compressor/mod.rs],
     [src/database/key_value/rooms/state_compressor.rs])

    The state of a room is a set of (short state key, short event id) pairs.
    It is stored as a stack of layers: the bottom layer is a full state, each
    layer above is a pair of sets, added and removed.  This file has the byte
    format of one layer, loading a stack, merging a difference into its parent
    layer, and choosing the layer at which a new state is stored.  The theorems
    say that a stored state is loaded again as the set it was computed from,
    whatever merging took place, and that no stack is deeper than four. *)

From S2P Require Import Prelude Bytes RStr Error Utils KvTree Env Db Globals Short RoomState.

Record StateDiff := MkDiff {
  sd_parent : option N;
  sd_added : gset CompressedStateEvent;
  sd_removed : gset CompressedStateEvent
}.

(** ** The byte format *)

(** The bytes [save_statediff] writes; the two lists are the sets in iteration
    order. *)
Definition encode_statediff (parent : option N) (added removed : list CompressedStateEvent) : bytes :=
  to_be_bytes (default 0 parent) ++ concat (arr <$> added) ++
  (if bool_decide (removed = []) then [] else to_be_bytes 0 ++ concat (arr <$> removed)).

(** The loop of [get_statediff]; [rest] is [value[i..]]. *)
Fixpoint statediff_loop (fuel : nat) (rest : bytes) (add_mode : bool)
    (added removed : gset CompressedStateEvent)
    : res (gset CompressedStateEvent * gset CompressedStateEvent) :=
  match fuel with
  | O => Ok (added, removed)
  | S fuel =>
      if bool_decide (length rest < 16)%nat then Ok (added, removed) else
      let v := take 16 rest in
      if add_mode && starts_with v (to_be_bytes 0) then
        statediff_loop fuel (drop 8 rest) false added removed
      else
        x ← expect (try_arr v) "we checked the size above";
        if add_mode then statediff_loop fuel (drop 16 rest) add_mode ({[x]} ∪ added) removed
        else statediff_loop fuel (drop 16 rest) add_mode added ({[x]} ∪ removed)
  end.

Definition decode_statediff (value : bytes) : res StateDiff :=
  if bool_decide (length value < 8)%nat then Panic "range end index 8 out of range" else
  parent ← expect (u64_from_bytes (take 8 value)) "bytes have right length";
  r ← statediff_loop (length value) (drop 8 value) true ∅ ∅;
  Ok (MkDiff (if bool_decide (parent ≠ 0) then Some parent else None) r.1 r.2).

(** A compressed event whose short state key is not zero. *)
Definition keyed (c : CompressedStateEvent) : Prop := ¬ to_be_bytes 0 `prefix_of` arr c.

(** *** Round trip *)

(** The loop does not depend on its fuel once there is enough. *)
Lemma statediff_loop_fuel f1 f2 rest m a r :
  (length rest ≤ f1)%nat → (length rest ≤ f2)%nat →
  statediff_loop f1 rest m a r = statediff_loop f2 rest m a r.
Proof.
  revert f2 rest m a r. induction f1 as [|f1 IH]; intros [|f2] rest m a r H1 H2; cbn [statediff_loop].
  - done.
  - by rewrite bool_decide_true by lia.
  - by rewrite bool_decide_true by lia.
  - destruct (bool_decide _) eqn:E; [done|]. apply bool_decide_eq_false in E.
    assert (∀ n, (8 ≤ n)%nat → (length (drop n rest) ≤ f1 ∧ length (drop n rest) ≤ f2)%nat) as Hd.
    { intros n Hn. rewrite length_drop. lia. }
    destruct (m && _); [apply IH; apply Hd; lia|].
    destruct (try_arr _); [|done]. cbn. destruct m; apply IH; apply Hd; lia.
Qed.

Lemma length_arrs (l : list CompressedStateEvent) : length (concat (arr <$> l)) = (16 * length l)%nat.
Proof. induction l as [|x l IH]; [done|]. csimpl. rewrite length_app, IH, arr_len. lia. Qed.

(** One element is read off the front. *)
Lemma statediff_loop_cons f c rest m a r :
  (m = true → keyed c) →
  statediff_loop (S f) (arr c ++ rest) m a r =
  if m then statediff_loop f rest m ({[c]} ∪ a) r else statediff_loop f rest m a ({[c]} ∪ r).
Proof.
  intros Hk. cbn [statediff_loop]. rewrite bool_decide_false.
  2: { rewrite length_app, arr_len. lia. }
  assert (take 16 (arr c ++ rest) = arr c) as Ht by (apply take_app_length'; by rewrite arr_len).
  assert (drop 16 (arr c ++ rest) = rest) as Hd by (apply drop_app_length'; by rewrite arr_len).
  rewrite Ht, Hd, try_arr_arr. cbn. destruct m; [|done]. cbn.
  assert (starts_with (arr c) (to_be_bytes 0) = false) as ->; [|done].
  rewrite starts_with_false. by apply Hk.
Qed.

Lemma statediff_loop_removed l f a r :
  (length l < f)%nat →
  statediff_loop f (concat (arr <$> l)) false a r = Ok (a, list_to_set l ∪ r).
Proof.
  revert f r. induction l as [|c l IH]; intros [|f] r Hf; cbn in Hf; try lia.
  - cbn. rewrite (left_id_L ∅ (∪)). done.
  - rewrite fmap_cons. cbn [concat]. rewrite statediff_loop_cons by done. rewrite IH by lia. f_equal. f_equal. set_solver.
Qed.

Lemma statediff_loop_added l f rest a r :
  Forall keyed l → (length l ≤ f)%nat →
  statediff_loop f (concat (arr <$> l) ++ rest) true a r =
  statediff_loop (f - length l) rest true (list_to_set l ∪ a) r.
Proof.
  revert f a. induction l as [|c l IH]; intros f a Hk Hf.
  - csimpl. by rewrite Nat.sub_0_r, (left_id_L ∅ (∪)).
  - destruct f as [|f]; [cbn in Hf; lia|]. apply Forall_cons in Hk as [Hc Hk].
    rewrite fmap_cons. cbn [concat]. rewrite <- app_assoc, statediff_loop_cons by done.
    rewrite IH by (done || (cbn in Hf; lia)). f_equal. set_solver.
Qed.

(** Decoding what was written gives the two sets back, in whatever order their
    elements were written. *)
Lemma decode_encode_statediff parent added removed :
  (∀ p, parent = Some p → u64 p ∧ p ≠ 0) → Forall keyed added →
  decode_statediff (encode_statediff parent added removed) =
  Ok (MkDiff parent (list_to_set added) (list_to_set removed)).
Proof.
  intros Hp Hk. unfold decode_statediff, encode_statediff.
  set (tl := if bool_decide (removed = []) then _ else _).
  assert (u64 (default 0 parent)) as Hu by (destruct parent; [by apply Hp|done]).
  rewrite bool_decide_false by (rewrite length_app, length_to_be_bytes; lia).
  rewrite take_app_length', drop_app_length' by (by rewrite length_to_be_bytes).
  rewrite u64_from_be_u64 by done. cbn [expect mbind res_bind].
  set (f := length _).
  assert (f = 8 + 16 * length added + length tl)%nat as Hf.
  { unfold f. rewrite !length_app, length_to_be_bytes, length_arrs. lia. }
  rewrite statediff_loop_added by (done || lia).
  assert (statediff_loop (f - length added) tl true (list_to_set added ∪ ∅) ∅ =
          Ok (list_to_set added, list_to_set removed)) as ->.
  { rewrite (right_id_L ∅ (∪)). unfold tl in *. destruct (bool_decide _) eqn:E.
    - apply bool_decide_eq_true in E as ->. destruct (f - length added)%nat; done.
    - apply bool_decide_eq_false in E. destruct removed as [|c l]; [done|].
      rewrite length_app, length_to_be_bytes, length_arrs in Hf. cbn [length] in Hf.
      destruct (f - length added)%nat as [|f'] eqn:Ef; [lia|].
      cbn [statediff_loop]. rewrite bool_decide_false.
      2: { rewrite length_app, length_to_be_bytes, length_arrs. cbn. lia. }
      rewrite take_app_ge by (rewrite length_to_be_bytes; lia). rewrite starts_with_app. cbn [andb].
      rewrite drop_app_length' by (by rewrite length_to_be_bytes).
      rewrite statediff_loop_removed by (cbn; lia).
      by rewrite (right_id_L ∅ (∪)). }
  cbn. destruct parent as [p|]; [|done].
  rewrite bool_decide_true by (by apply Hp). done.
Qed.

(** ** Merging a difference into its parent *)

Abbreviation diff_pair := (gset CompressedStateEvent * gset CompressedStateEvent)%type.

(** [for removed in statediffremoved { .. }], then [for new in statediffnew { .. }]. *)
Definition merge_removed (l : list CompressedStateEvent) (p : diff_pair) : diff_pair :=
  foldl (λ '(parent_new, parent_removed) x,
           if bool_decide (x ∈ parent_new) then (parent_new ∖ {[x]}, parent_removed)
           else (parent_new, {[x]} ∪ parent_removed)) p l.
Definition merge_new (l : list CompressedStateEvent) (p : diff_pair) : diff_pair :=
  foldl (λ '(parent_new, parent_removed) x,
           if bool_decide (x ∈ parent_removed) then (parent_new, parent_removed ∖ {[x]})
           else ({[x]} ∪ parent_new, parent_removed)) p l.
Definition merge_diff (statediffnew statediffremoved : gset CompressedStateEvent) (p : diff_pair)
    : diff_pair :=
  merge_new (elements statediffnew) (merge_removed (elements statediffremoved) p).

Lemma merge_removed_spec l N R :
  NoDup l → merge_removed l (N, R) = (N ∖ list_to_set l, R ∪ (list_to_set l ∖ N)).
Proof.
  revert N R. induction l as [|x l IH]; intros N R Hnd; [cbn; f_equal; set_solver|].
  apply NoDup_cons in Hnd as [Hx Hnd]. unfold merge_removed. cbn [foldl].
  destruct (bool_decide (x ∈ N)) eqn:E.
  - apply bool_decide_eq_true in E. etransitivity; [apply IH; done|].
    apply (not_elem_of_list_to_set (C := gset CompressedStateEvent)) in Hx. cbn. f_equal; set_solver.
  - apply bool_decide_eq_false in E. etransitivity; [apply IH; done|]. cbn. f_equal; set_solver.
Qed.

Lemma merge_new_spec l N R :
  NoDup l → merge_new l (N, R) = (N ∪ (list_to_set l ∖ R), R ∖ list_to_set l).
Proof.
  revert N R. induction l as [|x l IH]; intros N R Hnd; [cbn; f_equal; set_solver|].
  apply NoDup_cons in Hnd as [Hx Hnd]. unfold merge_new. cbn [foldl].
  destruct (bool_decide (x ∈ R)) eqn:E.
  - apply bool_decide_eq_true in E. etransitivity; [apply IH; done|].
    apply (not_elem_of_list_to_set (C := gset CompressedStateEvent)) in Hx. cbn. f_equal; set_solver.
  - apply bool_decide_eq_false in E. etransitivity; [apply IH; done|]. cbn. f_equal; set_solver.
Qed.

Lemma merge_diff_eq N' R' N R :
  merge_diff N' R' (N, R) =
  ((N ∖ R') ∪ (N' ∖ (R ∪ (R' ∖ N))), (R ∪ (R' ∖ N)) ∖ N').
Proof.
  unfold merge_diff. rewrite merge_removed_spec, merge_new_spec by apply NoDup_elements.
  by rewrite !list_to_set_elements_L.
Qed.

(** The set a difference describes, and a difference without redundancy. *)
Definition apply_diff (F N R : gset CompressedStateEvent) : gset CompressedStateEvent := (F ∪ N) ∖ R.
Definition proper (F N R : gset CompressedStateEvent) : Prop := N ## F ∧ R ⊆ F.

(** A merged difference does to the grandparent what the two differences did one
    after the other, and stays without redundancy. *)
Lemma merge_diff_apply F N R N' R' p :
  proper F N R → proper (apply_diff F N R) N' R' → merge_diff N' R' (N, R) = p →
  proper F p.1 p.2 ∧ apply_diff F p.1 p.2 = apply_diff (apply_diff F N R) N' R'.
Proof.
  intros [H1 H2] [H3 H4] <-. rewrite merge_diff_eq. unfold proper, apply_diff in *. cbn [fst snd].
  split; [split|].
  - set_unfold. intros x [[? _]|[Hn Hr]] Hx; [eauto|]. apply (H3 x); [done|].
    split; [by left|]. tauto.
  - set_unfold. intros x [[?|[Hr Hn]] _]; [eauto|]. destruct (H4 x Hr) as [[?|?] _]; done.
  - apply set_eq. intros x. specialize (H1 x). specialize (H2 x). specialize (H3 x). specialize (H4 x).
    set_unfold. destruct (decide (x ∈ F)), (decide (x ∈ N)), (decide (x ∈ R)), (decide (x ∈ N')),
      (decide (x ∈ R')); tauto.
Qed.

(** ** Operations *)

Section compressor.
Context {Ev : Env}.
Implicit Types s : State.

Definition get_statediff (shortstatehash : N) : DB StateDiff :=
  o ← t_get shortstatehash_statediff (to_be_bytes shortstatehash);
  value ← lift (ok_or o (BadDatabase "State hash does not exist"));
  lift (decode_statediff value).

Definition save_statediff (shortstatehash : N) (diff : StateDiff) : DB unit :=
  t_insert shortstatehash_statediff (to_be_bytes shortstatehash)
    (encode_statediff (sd_parent diff) (elements (sd_added diff)) (elements (sd_removed diff))).

(** The recursion follows the parents; [fuel] bounds its depth, running out is
    the stack overflow a cyclic chain of parents gives. *)
Fixpoint load_layers (fuel : nat) (shortstatehash : N) : DB (list StateInfo) :=
  cached ← cache_get stateinfo_cache set_stateinfo_cache shortstatehash;
  match cached with
  | Some r => mret r
  | None =>
      diff ← get_statediff shortstatehash;
      let added := sd_added diff in
      let removed := sd_removed diff in
      match sd_parent diff with
      | Some parent =>
          match fuel with
          | O => lift (Panic "stack overflow")
          | S fuel =>
              response ← load_layers fuel parent;
              top ← lift (expect (last response) "called Option::unwrap on a None value");
              let state := (si_full top ∪ added) ∖ removed in
              mret (response ++ [MkInfo shortstatehash state added removed])
          end
      | None =>
          let response := [MkInfo shortstatehash added added removed] in
          cache_insert stateinfo_cache set_stateinfo_cache shortstatehash response ;;
          mret response
      end
  end.

(** A chain of distinct parents is no longer than the number of stored states. *)
Definition load_shortstatehash_info (shortstatehash : N) : DB (list StateInfo) := λ s,
  load_layers (size (db_map s shortstatehash_statediff)) shortstatehash s.

Definition compress_state_event (shortstatekey : N) (event_id : EventId) : DB CompressedStateEvent :=
  shorteventid ← get_or_create_shorteventid event_id;
  lift (expect (try_arr (to_be_bytes shortstatekey ++ to_be_bytes shorteventid))
          "we checked the size above").

Definition parse_compressed_state_event (compressed_event : CompressedStateEvent) : DB (N * EventId) :=
  shortstatekey ← lift (expect (u64_from_bytes (take 8 (arr compressed_event))) "bytes have right length");
  shorteventid ← lift (expect (u64_from_bytes (drop 8 (arr compressed_event))) "bytes have right length");
  event_id ← get_eventid_from_short shorteventid;
  mret (shortstatekey, event_id).

(** [parents] is the stack of the code from its top to its bottom. *)
Fixpoint save_from_diff (shortstatehash : N) (statediffnew statediffremoved : gset CompressedStateEvent)
    (diff_to_sibling : N) (parents : list StateInfo) : DB unit :=
  let diffsum := N.of_nat (size statediffnew + size statediffremoved) in
  match parents with
  | [] => save_statediff shortstatehash (MkDiff None statediffnew statediffremoved)
  | parent :: below =>
      if bool_decide (3 < length parents)%nat then
        let '(parent_new, parent_removed) :=
          merge_diff statediffnew statediffremoved (si_added parent, si_removed parent) in
        save_from_diff shortstatehash parent_new parent_removed diffsum below
      else
        let parent_diff := N.of_nat (size (si_added parent) + size (si_removed parent)) in
        if bool_decide (2 * diff_to_sibling * parent_diff ≤ diffsum * diffsum) then
          let '(parent_new, parent_removed) :=
            merge_diff statediffnew statediffremoved (si_added parent, si_removed parent) in
          save_from_diff shortstatehash parent_new parent_removed diffsum below
        else
          save_statediff shortstatehash
            (MkDiff (Some (si_hash parent)) statediffnew statediffremoved)
  end.

Definition save_state_from_diff (shortstatehash : N)
    (statediffnew statediffremoved : gset CompressedStateEvent)
    (diff_to_sibling : N) (parent_states : list StateInfo) : DB unit :=
  save_from_diff shortstatehash statediffnew statediffremoved diff_to_sibling (reverse parent_states).

(** The hash of a state depends on the order in which its set is iterated,
    which is not fixed: [new_state_ids_compressed] is the set in that order. *)
Definition save_state (room_id : RoomId) (new_state_ids_compressed : list CompressedStateEvent)
    : DB (N * gset CompressedStateEvent * gset CompressedStateEvent) :=
  let new_state : gset CompressedStateEvent := list_to_set new_state_ids_compressed in
  previous_shortstatehash ← get_room_shortstatehash room_id;
  let state_hash := calculate_hash sha256 (arr <$> new_state_ids_compressed) in
  r ← get_or_create_shortstatehash state_hash;
  let '(new_shortstatehash, already_existed) := (r : N * bool) in
  if bool_decide (Some new_shortstatehash = previous_shortstatehash) then
    mret (new_shortstatehash, ∅, ∅)
  else
    states_parents ← match previous_shortstatehash with
                     | None => mret []
                     | Some p => load_shortstatehash_info p
                     end;
    let '(statediffnew, statediffremoved) :=
      match last states_parents with
      | Some parent_stateinfo =>
          (new_state ∖ si_full parent_stateinfo, si_full parent_stateinfo ∖ new_state)
      | None => (new_state, ∅)
      end in
    (if already_existed then mret ()
     else save_state_from_diff new_shortstatehash statediffnew statediffremoved 2 states_parents) ;;
    mret (new_shortstatehash, statediffnew, statediffremoved).

(** ** Stored layers *)

Definition stored s (h : N) (d : StateDiff) : Prop :=
  ∃ v, db_map s shortstatehash_statediff !! to_be_bytes h = Some v ∧ decode_statediff v = Ok d.

(** [layers s h l]: the state [h] is stored as the stack [l], bottom first. *)
Inductive layers s : N → list StateInfo → Prop :=
  | layers_root h A :
      stored s h (MkDiff None A ∅) → set_Forall keyed A →
      layers s h [MkInfo h A A ∅]
  | layers_push h p l i A R :
      stored s h (MkDiff (Some p) A R) → layers s p (l ++ [i]) →
      proper (si_full i) A R → set_Forall keyed A →
      layers s h ((l ++ [i]) ++ [MkInfo h (apply_diff (si_full i) A R) A R]).

Lemma stored_fun s h d d' : stored s h d → stored s h d' → d = d'.
Proof. intros (v & Hv & Hd) (v' & Hv' & Hd'). congruence. Qed.

Lemma layers_fun s h l l' : layers s h l → layers s h l' → l = l'.
Proof.
  intros Hl. revert l'. induction Hl as [h A Hs|h p l i A R Hs Hl IH]; intros l' Hl';
    inversion Hl' as [? A' Hs' | ? p' l1 i' A' R' Hs' Hl1]; subst;
    pose proof (stored_fun _ _ _ _ Hs Hs') as E; simplify_eq; [done|].
  assert (l ++ [i] = l1 ++ [i']) as E by auto. apply app_inj_tail in E as [-> ->]. done.
Qed.

Lemma layers_top s h l : layers s h l → ∃ l' i, l = l' ++ [i] ∧ si_hash i = h.
Proof. destruct 1; [exists []|]; eauto. Qed.

(** Every layer of a stack is itself the top of a stored stack. *)
Lemma layers_take s h l i x :
  layers s h l → l !! i = Some x → layers s (si_hash x) (take (S i) l).
Proof.
  induction 1 as [h A Hs|h p l j A R Hs Hl IH Hp Hk]; intros Hi.
  - destruct i; [|done]. cbn in *. simplify_eq. by constructor.
  - apply lookup_app_Some in Hi as [Hi|[Hlen Hi]].
    + rewrite take_app_le by (apply lookup_lt_Some in Hi; lia). auto.
    + pose proof (lookup_lt_Some _ _ _ Hi) as Hi'. cbn in Hi'.
      assert (i = length (l ++ [j])) as -> by lia. rewrite Nat.sub_diag in Hi. cbn in Hi. simplify_eq/=.
      rewrite take_ge by (rewrite (length_app (l ++ [j])); cbn; lia). econstructor; eauto.
Qed.

Lemma layers_stored s h l x :
  layers s h l → x ∈ l → is_Some (db_map s shortstatehash_statediff !! to_be_bytes (si_hash x)).
Proof.
  intros Hl [i Hi]%list_elem_of_lookup. pose proof (layers_take _ _ _ _ _ Hl Hi) as Hx.
  inversion Hx as [? ? (v & Hv & _)|? ? ? ? ? ? (v & Hv & _)]; eauto.
Qed.

(** The keys of a stack are distinct. *)
Lemma layers_NoDup s h l :
  layers s h l → NoDup ((λ x : StateInfo, to_be_bytes (si_hash x)) <$> l).
Proof.
  intros Hl. apply NoDup_alt. intros i j k Hi Hj.
  apply list_lookup_fmap_Some in Hi as (x & -> & Hx).
  apply list_lookup_fmap_Some in Hj as (y & E & Hy).
  apply layers_take with (i := i) (x := x) in Hl as Hlx; [|done].
  apply layers_take with (i := j) (x := y) in Hl as Hly; [|done].
  assert (stored s (si_hash x) = stored s (si_hash y)) as Es by (unfold stored; by rewrite E).
  assert (length (take (S i) l) = length (take (S j) l)) as El.
  { clear - Hlx Hly Es. remember (take (S i) l) as l1. remember (take (S j) l) as l2. clear - Hlx Hly Es.
    inversion Hlx as [? A Hs|? p l3 i3 A R Hs Hl3]; subst;
      inversion Hly as [? A' Hs'|? p' l4 i4 A' R' Hs' Hl4]; subst;
      rewrite Es in Hs; pose proof (stored_fun _ _ _ _ Hs Hs') as E; simplify_eq; [done|].
    pose proof (layers_fun _ _ _ _ Hl3 Hl4) as ->. by rewrite !length_app. }
  apply lookup_lt_Some in Hx, Hy. rewrite !length_take in El. lia.
Qed.

Lemma layers_depth s h l : layers s h l → (length l ≤ size (db_map s shortstatehash_statediff))%nat.
Proof.
  intros Hl. set (ks := (λ x : StateInfo, to_be_bytes (si_hash x)) <$> l).
  assert (length ks = length l) as <- by apply length_fmap.
  rewrite <- size_dom. rewrite <- (size_list_to_set (C := gset bytes) ks) by by eapply layers_NoDup.
  apply subseteq_size. intros k [x [-> Hx]]%elem_of_list_to_set%list_elem_of_fmap.
  apply elem_of_dom. eapply layers_stored; eauto.
Qed.

Lemma layers_mono s s' h l :
  db_map s shortstatehash_statediff ⊆ db_map s' shortstatehash_statediff →
  layers s h l → layers s' h l.
Proof.
  intros Hsub. induction 1 as [h A (v & Hv & Hd)|h p l i A R (v & Hv & Hd) Hl IH];
    econstructor; eauto; exists v; eauto using lookup_weaken.
Qed.

(** ** Loading *)

(** The cache holds stored stacks only. *)
Definition info_cache_ok s : Prop :=
  ∀ h l, lru_peek (stateinfo_cache s) h = Some l → layers s h l.

Definition touch_info h s : State :=
  set_stateinfo_cache (lru_get_mut h (stateinfo_cache s)).2 s.

Lemma layers_cache c s h l : layers s h l → layers (set_stateinfo_cache c s) h l.
Proof. by apply layers_mono. Qed.

Lemma info_cache_touch h s : info_cache_ok s → info_cache_ok (touch_info h s).
Proof.
  intros Hc h' l. cbn. rewrite lru_peek_get. intros Hp. by apply layers_cache, Hc.
Qed.

Lemma info_cache_insert h l s :
  info_cache_ok s → layers s h l →
  info_cache_ok (set_stateinfo_cache (lru_insert h l (stateinfo_cache s)) s).
Proof.
  intros Hc Hl h' l'. cbn. intros [[-> ->]|[_ Hp]]%lru_peek_insert; apply layers_cache; auto.
Qed.

Lemma get_statediff_stored s h d : stored s h d → get_statediff h s = (Ok d, s).
Proof.
  intros (v & Hv & Hd). unfold get_statediff. db_step. rewrite Hv.
  cbn [ok_or]. db_step. unfold lift. by rewrite Hd.
Qed.

Lemma load_layers_hit f s h l :
  lru_peek (stateinfo_cache s) h = Some l → load_layers f h s = (Ok l, touch_info h s).
Proof. intros Hp. destruct f; cbn [load_layers]; erewrite bind_Ok by apply cache_get_run; by rewrite Hp. Qed.

Lemma load_layers_root f s h A :
  lru_peek (stateinfo_cache s) h = None → stored s h (MkDiff None A ∅) →
  let l := [MkInfo h A A ∅] in
  load_layers f h s =
    (Ok l, set_stateinfo_cache (lru_insert h l (stateinfo_cache (touch_info h s))) (touch_info h s)).
Proof.
  intros Hp Hs. destruct f; cbn [load_layers]; erewrite bind_Ok by apply cache_get_run; rewrite Hp;
    by erewrite bind_Ok by (by apply get_statediff_stored).
Qed.

Lemma load_layers_push f s h p A R l i s' :
  lru_peek (stateinfo_cache s) h = None → stored s h (MkDiff (Some p) A R) →
  load_layers f p (touch_info h s) = (Ok (l ++ [i]), s') →
  load_layers (S f) h s = (Ok ((l ++ [i]) ++ [MkInfo h (apply_diff (si_full i) A R) A R]), s').
Proof.
  intros Hp Hs Hl. cbn [load_layers]. erewrite bind_Ok by apply cache_get_run. rewrite Hp.
  erewrite bind_Ok by (by apply get_statediff_stored). cbn [sd_parent].
  erewrite bind_Ok by apply Hl. by rewrite last_snoc.
Qed.

(** A stored stack is loaded, with enough fuel for its depth. *)
Lemma load_layers_spec f s h l :
  layers s h l → (length l ≤ S f)%nat → info_cache_ok s →
  ∃ c, load_layers f h s = (Ok l, set_stateinfo_cache c s)
       ∧ info_cache_ok (set_stateinfo_cache c s).
Proof.
  revert s h l. induction f as [|f IH]; intros s h l Hl Hf Hc;
    destruct (lru_peek (stateinfo_cache s) h) as [l'|] eqn:Ep.
  1,3: rewrite (load_layers_hit _ _ _ _ Ep), (layers_fun _ _ _ _ Hl (Hc _ _ Ep));
    eexists; split; [done|]; by apply info_cache_touch.
  all: pose proof Hl as Hl0; destruct Hl as [h A Hs Hk|h p l i A R Hs Hl Hp Hk].
  1,3: rewrite (load_layers_root _ _ _ A) by done; eexists; split; [done|];
    apply (info_cache_insert h _ (touch_info h s)); [by apply info_cache_touch|by apply layers_cache].
  - rewrite !length_app in Hf. cbn in Hf. lia.
  - destruct (IH (touch_info h s) p (l ++ [i])) as (c & Hld & Hc').
    + by apply layers_cache.
    + rewrite (length_app (l ++ [i])) in Hf. cbn in Hf. lia.
    + by apply info_cache_touch.
    + exists c. split; [|done]. by erewrite load_layers_push.
Qed.

Lemma load_shortstatehash_info_spec s h l :
  layers s h l → info_cache_ok s →
  ∃ c, load_shortstatehash_info h s = (Ok l, set_stateinfo_cache c s)
       ∧ info_cache_ok (set_stateinfo_cache c s).
Proof.
  intros Hl. pose proof (layers_depth _ _ _ Hl). apply load_layers_spec; [done|lia].
Qed.

(** ** Saving *)

(** The full state at the top of a stack. *)
Definition full_of (l : list StateInfo) : gset CompressedStateEvent :=
  default ∅ (si_full <$> last l).

(** A stack of parents that can be saved onto: nothing, or a stored stack. *)
Definition parents_ok s (l : list StateInfo) : Prop :=
  l = [] ∨ ∃ h, h ≠ 0 ∧ u64 h ∧ layers s h l.

Lemma set_Forall_elements (A : gset CompressedStateEvent) : set_Forall keyed A → Forall keyed (elements A).
Proof. intros H. apply Forall_forall. intros x Hx. apply H. set_solver. Qed.

Lemma stored_parent s h p A R : stored s h (MkDiff (Some p) A R) → u64 p ∧ p ≠ 0.
Proof.
  intros (v & _ & Hd). unfold decode_statediff in Hd. destruct (bool_decide _); [done|].
  destruct (u64_from_bytes _) as [n|] eqn:En; [|done]. cbn in Hd.
  destruct (statediff_loop _ _ _ _ _); [|done..]. cbn in Hd.
  destruct (bool_decide (n ≠ 0)) eqn:Eb; simplify_eq. apply bool_decide_eq_true in Eb.
  by apply u64_from_bytes_Some in En as [? _].
Qed.

(** What is known of the top layer of a stack and of the stack below it. *)
Lemma layers_pop s h l i :
  layers s h (l ++ [i]) →
  parents_ok s l ∧ proper (full_of l) (si_added i) (si_removed i) ∧ si_hash i = h ∧
  set_Forall keyed (si_added i) ∧
  si_full i = apply_diff (full_of l) (si_added i) (si_removed i).
Proof.
  remember (l ++ [i]) as l0 eqn:E. intros Hl. destruct Hl as [h A Hs Hk|h p l1 j A R Hs Hl1 Hp Hk].
  - apply (app_inj_tail []) in E as [<- <-]. unfold full_of, proper, apply_diff. cbn.
    split_and!; [by left|set_solver..|done|done|set_solver].
  - apply app_inj_tail in E as [<- <-]. unfold full_of. rewrite last_snoc. cbn.
    split_and!; try done. right. exists p.
    apply stored_parent in Hs as [??]. done.
Qed.

(** The two ways a difference is stored: as a full state, or on top of a stack. *)
Definition put_diff h d s : State :=
  put shortstatehash_statediff (to_be_bytes h)
    (encode_statediff (sd_parent d) (elements (sd_added d)) (elements (sd_removed d))) s.

Lemma save_statediff_run h d s : save_statediff h d s = (Ok (), put_diff h d s).
Proof. done. Qed.

Lemma stored_put h d s :
  (∀ p, sd_parent d = Some p → u64 p ∧ p ≠ 0) → set_Forall keyed (sd_added d) →
  stored (put_diff h d s) h d.
Proof.
  intros Hp Hk. eexists. unfold put_diff. db_simpl. split; [apply lookup_insert_eq|].
  rewrite decode_encode_statediff by auto using set_Forall_elements.
  rewrite !list_to_set_elements_L. by destruct d.
Qed.

Lemma put_diff_fresh h d s :
  db_map s shortstatehash_statediff !! to_be_bytes h = None →
  db_map s shortstatehash_statediff ⊆ db_map (put_diff h d s) shortstatehash_statediff.
Proof. intros Hf. unfold put_diff. db_simpl. by apply insert_subseteq. Qed.

Definition saved s h (F : gset CompressedStateEvent) s' : Prop :=
  ∃ d l, s' = put_diff h d s ∧ layers s' h l ∧ (length l ≤ 4)%nat ∧ full_of l = F.

Lemma saved_root s h A :
  set_Forall keyed A → saved s h A (put_diff h (MkDiff None A ∅) s).
Proof.
  intros Hk. exists (MkDiff None A ∅), [MkInfo h A A ∅]. split_and!; try done; [|cbn; lia].
  constructor; [|done]. by apply stored_put.
Qed.

Lemma saved_push s h p l i A R :
  db_map s shortstatehash_statediff !! to_be_bytes h = None →
  layers s p (l ++ [i]) → (length l ≤ 2)%nat → u64 p → p ≠ 0 →
  proper (si_full i) A R → set_Forall keyed A →
  saved s h (apply_diff (si_full i) A R) (put_diff h (MkDiff (Some p) A R) s).
Proof.
  intros Hf Hl Hlen Hu H0 Hp Hk.
  exists (MkDiff (Some p) A R), ((l ++ [i]) ++ [MkInfo h (apply_diff (si_full i) A R) A R]).
  split_and!; [done|..].
  - econstructor; [|by eapply layers_mono, Hl; apply put_diff_fresh|done..].
    apply stored_put; [|done]. cbn. by intros ? [= <-].
  - rewrite !length_app. cbn. lia.
  - unfold full_of. by rewrite last_snoc.
Qed.

(** A merged difference is one that can be saved one layer below. *)
Lemma merge_step s h l i A R p :
  layers s h (l ++ [i]) → proper (si_full i) A R → set_Forall keyed A →
  merge_diff A R (si_added i, si_removed i) = p →
  parents_ok s l ∧ proper (full_of l) p.1 p.2 ∧ set_Forall keyed p.1 ∧
  apply_diff (full_of l) p.1 p.2 = apply_diff (si_full i) A R.
Proof.
  intros Hl Hp Hk Hm. destruct (layers_pop _ _ _ _ Hl) as (Hpar & Hpi & _ & Hki & Hf).
  rewrite Hf in Hp |- *. destruct (merge_diff_apply _ _ _ _ _ _ Hpi Hp Hm) as [Hpp Ha].
  split_and!; try done. rewrite <- Hm, merge_diff_eq. cbn [fst].
  intros x [[Hx _]%elem_of_difference|[Hx _]%elem_of_difference]%elem_of_union; [by apply Hki|by apply Hk].
Qed.

(** Whatever layer is chosen, the state saved is the difference applied to the
    state at the top of the parents. *)
Lemma save_from_diff_spec s h l A R k :
  parents_ok s l → proper (full_of l) A R → set_Forall keyed A →
  db_map s shortstatehash_statediff !! to_be_bytes h = None →
  ∃ s', save_from_diff h A R k (reverse l) s = (Ok (), s') ∧
        saved s h (apply_diff (full_of l) A R) s'.
Proof.
  revert A R k. induction l as [|i l IH] using rev_ind; intros A R k Hpar Hp Hk Hf.
  - cbn [reverse save_from_diff]. eexists. split; [apply save_statediff_run|].
    unfold full_of, proper, apply_diff in *. cbn in *.
    assert (R = ∅) as -> by set_solver. replace ((∅ ∪ A) ∖ ∅) with A by set_solver.
    by apply saved_root.
  - destruct Hpar as [E|(p & H0 & Hu & Hl)]; [by apply app_eq_nil in E as [_ ?]|].
    assert (full_of (l ++ [i]) = si_full i) as Efull by (unfold full_of; by rewrite last_snoc).
    rewrite Efull in *. rewrite reverse_snoc. cbn [save_from_diff].
    destruct (merge_diff A R (si_added i, si_removed i)) as [pn pr] eqn:Em.
    destruct (merge_step _ _ _ _ _ _ _ Hl Hp Hk Em) as (Hpar & Hpp & Hkk & Ha).
    cbn [fst snd] in *. rewrite <- Ha.
    destruct (bool_decide (3 < _)%nat) eqn:E1; [by apply IH|].
    destruct (bool_decide (_ ≤ _)) eqn:E2; [by apply IH|]. rewrite Ha.
    apply bool_decide_eq_false in E1. cbn in E1. rewrite length_reverse in E1.
    destruct (layers_pop _ _ _ _ Hl) as (_ & _ & -> & _).
    eexists. split; [apply save_statediff_run|]. eapply saved_push; eauto. lia.
Qed.

Lemma save_state_from_diff_spec s h l A R k :
  parents_ok s l → proper (full_of l) A R → set_Forall keyed A →
  db_map s shortstatehash_statediff !! to_be_bytes h = None →
  ∃ s', save_state_from_diff h A R k l s = (Ok (), s') ∧
        saved s h (apply_diff (full_of l) A R) s'.
Proof. apply save_from_diff_spec. Qed.

(** ** The invariant of the stored states *)

Record StateInv s : Prop := {
  sti_layers k v :
    db_map s shortstatehash_statediff !! k = Some v →
    ∃ h l, k = to_be_bytes h ∧ 1 ≤ h ∧ h ≤ count s ∧ layers s h l ∧ (length l ≤ 4)%nat;
  sti_cache : info_cache_ok s;
  sti_rooms k b :
    db_map s roomid_shortstatehash !! k = Some b →
    ∃ n l, b = to_be_bytes n ∧ 1 ≤ n ∧ n ≤ count s ∧ layers s n l;
  sti_hashes hash b :
    db_map s statehash_shortstatehash !! hash = Some b →
    ∃ n l order, b = to_be_bytes n ∧ 1 ≤ n ∧ n ≤ count s ∧ layers s n l ∧
      hash = calculate_hash sha256 (arr <$> order) ∧ full_of l = list_to_set order ∧
      (length l ≤ 4)%nat;
}.

Lemma short_inv_put_diff h d s : ShortInv s → ShortInv (put_diff h d s).
Proof. intros []. split; unfold put_diff; db_simpl; auto. Qed.
Lemma short_inv_info c s : ShortInv s → ShortInv (set_stateinfo_cache c s).
Proof. intros []. split; db_simpl; auto. Qed.

Lemma state_inv_info c s :
  StateInv s → info_cache_ok (set_stateinfo_cache c s) → StateInv (set_stateinfo_cache c s).
Proof.
  intros [HL HC HR HH] Hc. split; db_simpl; [|done|..].
  - intros k v Hk. destruct (HL k v Hk) as (h & l & ? & ? & ? & ? & ?).
    exists h, l. split_and!; eauto using layers_cache.
  - intros k b Hk. destruct (HR k b Hk) as (n & l & ? & ? & ? & ?).
    exists n, l. split_and!; eauto using layers_cache.
  - intros k b Hk. destruct (HH k b Hk) as (n & l & o & ? & ? & ? & ? & ?).
    exists n, l, o. split_and!; try tauto. by apply layers_cache.
Qed.

(** A number that was not drawn yet has no state. *)
Lemma statediff_fresh s h :
  StateInv s → count_ok s → count s < h → u64 h →
  db_map s shortstatehash_statediff !! to_be_bytes h = None.
Proof.
  intros I Hc Hh Hu. destruct (db_map _ _ !! _) as [v|] eqn:E; [|done].
  destruct (sti_layers s I _ _ E) as (n & l & En & ? & ? & _).
  apply to_be_bytes_inj in En; unfold u64, count_ok in *; lia.
Qed.

(** Extending the stored states, drawing numbers and keeping the rest. *)
Lemma state_inv_extend s s' h l :
  StateInv s → count s ≤ count s' →
  db_map s shortstatehash_statediff ⊆ db_map s' shortstatehash_statediff →
  (∀ k v, db_map s' shortstatehash_statediff !! k = Some v →
     db_map s shortstatehash_statediff !! k = Some v ∨ k = to_be_bytes h) →
  layers s' h l → (length l ≤ 4)%nat → 1 ≤ h → h ≤ count s' →
  stateinfo_cache s' = stateinfo_cache s →
  db_map s' roomid_shortstatehash = db_map s roomid_shortstatehash →
  (∀ hash b, db_map s' statehash_shortstatehash !! hash = Some b →
     db_map s statehash_shortstatehash !! hash = Some b ∨
     b = to_be_bytes h ∧ ∃ order, hash = calculate_hash sha256 (arr <$> order) ∧
       full_of l = list_to_set order) →
  StateInv s'.
Proof.
  intros [HL HC HR HH] Hc Hsub Hnew Hl Hlen H1 H2 Ecache Erooms Hhash. split.
  - intros k v [Hk| ->]%Hnew; [|by eauto 10]. destruct (HL k v Hk) as (n & l' & ? & ? & ? & ? & ?).
    exists n, l'. split_and!; eauto using layers_mono. lia.
  - intros n l'. rewrite Ecache. eauto using layers_mono.
  - intros k b. rewrite Erooms. intros Hk. destruct (HR k b Hk) as (n & l' & ? & ? & ? & ?).
    exists n, l'. split_and!; eauto using layers_mono. lia.
  - intros k b [Hk|(-> & o & ? & ?)]%Hhash; [|by eauto 10].
    destruct (HH k b Hk) as (n & l' & o & ? & ? & ? & ? & ?).
    exists n, l', o. split_and!; try tauto; [lia|]. by eapply layers_mono.
Qed.

(** The join of fixed-length pieces is injective. *)
Lemma join_arr_inj (l1 l2 : list CompressedStateEvent) :
  join_ff (arr <$> l1) = join_ff (arr <$> l2) → l1 = l2.
Proof.
  revert l2. induction l1 as [|x l1 IH]; intros [|y l2] E.
  - done.
  - exfalso. apply (f_equal length) in E. pose proof (arr_len y). destruct l2; cbn in E;
      rewrite ?length_app in E; lia.
  - exfalso. apply (f_equal length) in E. pose proof (arr_len x). destruct l1; cbn in E;
      rewrite ?length_app in E; lia.
  - destruct l1 as [|x' l1], l2 as [|y' l2].
    + cbn in E. by apply (inj arr) in E as ->.
    + apply (f_equal length) in E. cbn in E. rewrite length_app, !arr_len in E. cbn in E. lia.
    + apply (f_equal length) in E. cbn in E. rewrite length_app, !arr_len in E. cbn in E. lia.
    + change (arr x ++ sep :: join_ff (arr <$> x' :: l1) = arr y ++ sep :: join_ff (arr <$> y' :: l2)) in E.
      apply app_inj_1 in E as [Ex E]; [|by rewrite !arr_len]. apply (inj arr) in Ex as ->.
      injection E as E. by rewrite (IH (y' :: l2) E).
Qed.

(** The outcome of saving a state computed for a room whose state was [F]. *)
Definition state_saved (X F : gset CompressedStateEvent) s
    (r : N * gset CompressedStateEvent * gset CompressedStateEvent) s' : Prop :=
  ShortInv s' ∧ StateInv s' ∧ count s' ≤ count s + 1 ∧
  (∃ l, layers s' r.1.1 l ∧ full_of l = X ∧ (length l ≤ 4)%nat) ∧ r.1.2 = X ∖ F ∧ r.2 = F ∖ X.

Lemma proper_difference (X F : gset CompressedStateEvent) :
  proper F (X ∖ F) (F ∖ X) ∧ apply_diff F (X ∖ F) (F ∖ X) = X.
Proof.
  unfold proper, apply_diff. split_and!; [set_solver..|]. apply set_eq. intros x. set_unfold.
  destruct (decide (x ∈ X)), (decide (x ∈ F)); tauto.
Qed.

Context `{!Inj (=) (=) sha256}.

(** A state that was saved before, in the same order, is found again. *)
Lemma hash_found s order n :
  StateInv s → count_ok s → 1 ≤ n → n ≤ count s →
  db_map s statehash_shortstatehash !! calculate_hash sha256 (arr <$> order) = Some (to_be_bytes n) →
  ∃ l, layers s n l ∧ full_of l = list_to_set order ∧ (length l ≤ 4)%nat.
Proof.
  intros I Hc H1 Hn Hh. destruct (sti_hashes s I _ _ Hh) as (m & l & o & E & ? & ? & Hl & Eo & Hf & ?).
  unfold calculate_hash in Eo. apply (inj sha256), join_arr_inj in Eo as ->.
  apply to_be_bytes_inj in E as ->; [eauto|unfold u64, count_ok in *; lia..].
Qed.

(** What [save_state] computes from the previous state of the room. *)
Definition previous_state s (o : option N) (parents : list StateInfo) : Prop :=
  match o with
  | None => parents = []
  | Some p => 1 ≤ p ∧ p ≤ count s ∧ layers s p parents
  end.

Lemma room_state_previous r s :
  StateInv s → count_ok s →
  ∃ o parents, get_room_shortstatehash r s = (Ok o, s) ∧ previous_state s o parents.
Proof.
  intros I Hc. unfold get_room_shortstatehash. db_step.
  destruct (db_map s roomid_shortstatehash !! idb r) as [b|] eqn:E; [|by exists None, []].
  destruct (sti_rooms s I _ _ E) as (n & l & -> & ? & ? & Hl). exists (Some n), l.
  unfold parse_u64, lift. cbn [fmap option_fmap option_map].
  rewrite u64_from_be_u64 by (unfold u64, count_ok in *; lia). done.
Qed.

(** Loading the previous state. *)
Lemma load_previous s o parents :
  info_cache_ok s → previous_state s o parents →
  ∃ c, (match o with None => mret [] | Some p => load_shortstatehash_info p end) s =
       (Ok parents, set_stateinfo_cache c s) ∧ info_cache_ok (set_stateinfo_cache c s).
Proof.
  intros Hc Hp. destruct o as [p|].
  - destruct Hp as (_ & _ & Hl). by apply load_shortstatehash_info_spec.
  - rewrite Hp. exists (stateinfo_cache s). by destruct s.
Qed.

Lemma save_state_diff (parents : list StateInfo) (X : gset CompressedStateEvent) :
  match last parents with
  | Some i => (X ∖ si_full i, si_full i ∖ X)
  | None => (X, ∅)
  end = (X ∖ full_of parents, full_of parents ∖ X).
Proof. unfold full_of. destruct (last parents); cbn; [done|]. f_equal; set_solver. Qed.

Lemma info_cache_mono c s s' :
  db_map s shortstatehash_statediff = db_map s' shortstatehash_statediff →
  info_cache_ok (set_stateinfo_cache c s) → info_cache_ok (set_stateinfo_cache c s').
Proof.
  intros E Hc h l Hp. eapply layers_mono; [|by apply Hc]. db_simpl. by rewrite E.
Qed.

(** A state that was numbered just now is stored. *)
Lemma save_new_state s order c parents k :
  let X : gset CompressedStateEvent := list_to_set order in
  let n := count s + 1 in
  let hash := calculate_hash sha256 (arr <$> order) in
  let s1 := set_stateinfo_cache c (put statehash_shortstatehash hash (to_be_bytes n) (bump s)) in
  ShortInv s → StateInv s → count_ok s → Forall keyed order →
  db_map s statehash_shortstatehash !! hash = None →
  info_cache_ok s1 → parents_ok s parents →
  ∃ s', save_state_from_diff n (X ∖ full_of parents) (full_of parents ∖ X) k parents s1 = (Ok (), s') ∧
        state_saved X (full_of parents) s (n, X ∖ full_of parents, full_of parents ∖ X) s'.
Proof.
  intros X n hash s1 I SI Hc Hk Hh Hcache Hpar. unfold count_ok in *.
  assert (db_map s1 shortstatehash_statediff = db_map s shortstatehash_statediff) as Ed
    by (unfold s1; by db_simpl).
  assert (db_map s1 shortstatehash_statediff !! to_be_bytes n = None) as Hf.
  { rewrite Ed. apply statediff_fresh; [done..|unfold n; lia|unfold u64, n; lia]. }
  assert (count s1 = n) as Hcount by (unfold s1; db_simpl; by apply count_bump_ok).
  destruct (proper_difference X (full_of parents)) as [Hp Ha].
  destruct (save_state_from_diff_spec s1 n parents (X ∖ full_of parents) (full_of parents ∖ X) k)
    as (s' & Hrun & d & l & -> & Hl & Hlen & Hfull).
  { destruct Hpar as [->|(h & ? & ? & Hl)]; [by left|right]. exists h. split_and!; try done.
    eapply layers_mono, Hl. by rewrite Ed. }
  { done. }
  { intros x [Hx _]%elem_of_difference. rewrite Forall_forall in Hk. apply Hk. set_solver. }
  { done. }
  exists (put_diff n d s1). split; [done|]. rewrite Ha in Hfull.
  assert (count (put_diff n d s1) = n) as Hcount' by (unfold put_diff; by db_simpl).
  split_and!; try done.
  - apply short_inv_put_diff, short_inv_info, inv_put_hash; done.
  - apply (state_inv_extend (set_stateinfo_cache c s) _ n l); try done.
    + apply state_inv_info; [done|]. eapply info_cache_mono, Hcache. by db_simpl.
    + rewrite Hcount'. db_simpl. unfold n. lia.
    + etrans; [|by apply put_diff_fresh]. by rewrite Ed.
    + intros key v. unfold put_diff. db_simpl. rewrite Ed.
      intros [[<- _]|[_ ?]]%lookup_insert_Some; auto.
    + unfold n. lia.
    + by rewrite Hcount'.
    + intros key b. unfold put_diff, s1. db_simpl.
      intros [[<- <-]|[_ ?]]%lookup_insert_Some; [right|by left]. split; [done|]. by exists order.
  - rewrite Hcount'. done.
  - by exists l.
Qed.

Lemma save_state_spec r order s :
  ShortInv s → StateInv s → count_ok s → Forall keyed order →
  ∃ o parents res s',
    get_room_shortstatehash r s = (Ok o, s) ∧ previous_state s o parents ∧
    save_state r order s = (Ok res, s') ∧
    state_saved (list_to_set order) (full_of parents) s res s'.
Proof.
  intros I SI Hc Hk. set (X := list_to_set order : gset CompressedStateEvent).
  destruct (room_state_previous r s SI Hc) as (o & parents & Hroom & Hprev).
  enough (∃ res s', save_state r order s = (Ok res, s') ∧ state_saved X (full_of parents) s res s')
    as (res & s' & ? & ?) by eauto 10.
  unfold save_state. rewrite (bind_Ok _ _ _ _ _ Hroom).
  set (hash := calculate_hash sha256 (arr <$> order)).
  destruct (get_or_create_shortstatehash_spec hash s I Hc)
    as (n & ex & s1 & Hgc & I1 & Hc1 & Hn1 & Hn & Hh & Hex & Hex' & _).
  rewrite (bind_Ok _ _ _ _ _ Hgc). destruct ex.
  - subst s1. destruct (hash_found s order n SI Hc Hn1 Hn Hh) as (l & Hl & Hf & Hlen).
    destruct (bool_decide (Some n = o)) eqn:E.
    + apply bool_decide_eq_true in E as <-. destruct Hprev as (_ & _ & Hpl).
      rewrite (layers_fun _ _ _ _ Hpl Hl), Hf. exists (n, ∅, ∅), s. split; [done|].
      unfold state_saved. cbn [fst snd]. split_and!; try done; [eauto|unfold X; set_solver..].
    + destruct (load_previous s o parents (sti_cache s SI) Hprev) as (c & Hld & Hcache).
      rewrite (bind_Ok _ _ _ _ _ Hld), save_state_diff. eexists _, _. split; [done|].
      unfold state_saved. cbn [fst snd]. split_and!; try done.
      * by apply short_inv_info.
      * by apply state_inv_info.
      * exists l. split; [by apply layers_cache|done].
  - destruct Hex as [-> ->]. rewrite bool_decide_false.
    2: { destruct o as [p|]; [|done]. destruct Hprev. intros [= <-]. lia. }
    set (s1 := put _ _ _ _).
    destruct (load_previous s1 o parents) as (c & Hld & Hcache).
    { intros h l Hp. eapply layers_mono; [|by apply (sti_cache s SI)]. unfold s1. by db_simpl. }
    { destruct o as [p|]; [|done]. destruct Hprev as (? & ? & Hpl). split_and!; [done|etrans; [|exact Hn]; lia|].
      eapply layers_mono, Hpl. unfold s1. by db_simpl. }
    rewrite (bind_Ok _ _ _ _ _ Hld), save_state_diff.
    destruct (save_new_state s order c parents 2) as (s' & Hrun & Hsaved); try done.
    { apply eq_None_not_Some. intros ?%Hex'. done. }
    { destruct o as [p|]; [right|by left]. destruct Hprev as (? & ? & Hpl).
      exists p. split_and!; [lia|unfold u64, count_ok in *; lia|done]. }
    eexists _, s'. split; [|done]. by rewrite (bind_Ok _ _ _ _ _ Hrun).
Qed.
End compressor.

(** ** Theorems *)

Section compressor_theorems.
Context {Ev : Env}.
Implicit Types s : State.

(** A compressed event names the state key and the event it was made from:
    parsing it gives them back and creates nothing. *)
Theorem compress_parse_roundtrip k (e : EventId) s :
  ShortInv s → count_ok s → u64 k →
  ∃ c s1 s2, compress_state_event k e s = (Ok c, s1) ∧ ShortInv s1 ∧
    parse_compressed_state_event c s1 = (Ok (k, e), s2) ∧ ShortInv s2 ∧
    (∀ t, db_map s2 t = db_map s1 t) ∧ (k ≠ 0 → keyed c).
Proof.
  intros I Hc Hk. destruct (get_or_create_shorteventid_spec e s I Hc) as
    (n & s1 & Hrun & I1 & _ & Hc1 & Hn1 & Hn & Hd).
  assert (u64 n) as Hu by (unfold u64, count_ok in *; lia).
  assert (length (to_be_bytes k ++ to_be_bytes n) = 16%nat) as Hlen
    by (by rewrite length_app, !length_to_be_bytes).
  set (c := MkArr (n := 16) _ Hlen). exists c, s1.
  apply (num_inverse _ _ _ (inv_events s1 I1)) in Hd as Hd'.
  destruct (get_eventid_from_short_spec n e s1 I1 Hd') as (c' & Hget & I2).
  eexists. split_and!; try done.
  - unfold compress_state_event. rewrite (bind_Ok _ _ _ _ _ Hrun). unfold lift.
    change (to_be_bytes k ++ to_be_bytes n) with (arr c). by rewrite try_arr_arr.
  - unfold parse_compressed_state_event. cbn [arr c].
    rewrite take_app_length', drop_app_length' by (by rewrite length_to_be_bytes).
    rewrite !u64_from_be_u64 by done. cbn [expect]. db_run. by rewrite (bind_Ok _ _ _ _ _ Hget).
  - intros H0 [x Hx]. cbn [arr c] in Hx.
    apply app_inj_1 in Hx as [Hx _]; [|by rewrite !length_to_be_bytes].
    by apply to_be_bytes_inj in Hx.
Qed.

(** A stored difference is read back: same parent, same sets, whatever the
    parent and the sets, as long as no added key is zero and the parent is a
    real number. *)
Theorem statediff_roundtrip h d s :
  (∀ p, sd_parent d = Some p → u64 p ∧ p ≠ 0) → set_Forall keyed (sd_added d) →
  let s' := (save_statediff h d s).2 in
  get_statediff h s' = (Ok d, s').
Proof. intros Hp Hk. by apply get_statediff_stored, stored_put. Qed.

(** Merging a difference into its parent layer describes the same state as
    applying the two one after the other, and leaves no redundancy, so that a
    merged bottom layer has nothing to remove. *)
Theorem merge_diff_correct F N R N' R' :
  proper F N R → proper (apply_diff F N R) N' R' →
  let '(pn, pr) := merge_diff N' R' (N, R) in
  proper F pn pr ∧ apply_diff F pn pr = apply_diff (apply_diff F N R) N' R'.
Proof.
  intros H1 H2. destruct (merge_diff N' R' (N, R)) as [pn pr] eqn:E.
  exact (merge_diff_apply _ _ _ _ _ _ H1 H2 E).
Qed.

(** Saving a difference on top of a stored stack and loading the result
    gives the difference applied to the state of that stack, at whichever
    layer it was stored; the new stack has at most four layers. *)
Theorem save_state_from_diff_load s h l A R k :
  parents_ok s l → proper (full_of l) A R → set_Forall keyed A → info_cache_ok s →
  db_map s shortstatehash_statediff !! to_be_bytes h = None →
  ∃ s' l' s'', save_state_from_diff h A R k l s = (Ok (), s') ∧
    load_shortstatehash_info h s' = (Ok l', s'') ∧
    full_of l' = (full_of l ∪ A) ∖ R ∧ (length l' ≤ 4)%nat.
Proof.
  intros Hpar Hp Hk Hc Hf.
  destruct (save_state_from_diff_spec s h l A R k) as (s' & Hrun & d & l' & -> & Hl & ? & ?); try done.
  destruct (load_shortstatehash_info_spec (put_diff h d s) h l' Hl) as (c & Hload & _).
  { intros h' l1 Hp1. eapply layers_mono; [by apply put_diff_fresh|by apply Hc]. }
  eauto 10.
Qed.

(** C3: [save_state] keeps the invariants of the short identifiers and of the
    stored states; the number it returns loads as exactly the given state from
    at most four layers, and the differences it reports are those to the
    previous state of the room.  Assumes that the hash function does not
    collide. *)
Theorem save_state_correct `{!Inj (=) (=) sha256} r order s :
  ShortInv s → StateInv s → count_ok s → Forall keyed order →
  ∃ o n added removed s' l' s'',
    get_room_shortstatehash r s = (Ok o, s) ∧
    save_state r order s = (Ok (n, added, removed), s') ∧ ShortInv s' ∧ StateInv s' ∧
    load_shortstatehash_info n s' = (Ok l', s'') ∧
    full_of l' = list_to_set order ∧ (length l' ≤ 4)%nat ∧
    match o with
    | None => added = list_to_set order ∧ removed = ∅
    | Some p => ∃ l, layers s p l ∧
        added = list_to_set order ∖ full_of l ∧ removed = full_of l ∖ list_to_set order
    end.
Proof.
  intros I SI Hc Hk.
  destruct (save_state_spec r order s I SI Hc Hk)
    as (o & ps & [[n A] R] & s' & Hroom & Hprev & Hrun & I' & SI' & Hc' & (l & Hl & Hfull & Hlen) & HA & HR).
  cbn [fst snd] in *.
  destruct (load_shortstatehash_info_spec s' n l Hl (sti_cache _ SI')) as (c & Hload & _).
  exists o, n, A, R, s', l, (set_stateinfo_cache c s'). split_and!; try done.
  destruct o as [p|]; cbn in Hprev.
  - exists ps. destruct Hprev as (_ & _ & ?). done.
  - subst ps. unfold full_of in HA, HR. cbn in HA, HR. split; set_solver.
Qed.
End compressor_theorems.
