(* ===== verification/Pdu.v ===== *)
(** * Events ([src/service/pdu.rs])

    Redaction and the removal of the transaction id; the record itself is
    [PduEvent] of [Env.v]. *)

From S2P Require Import Prelude Bytes RStr Error Utils KvTree Env Db.

Section pdu.
Context {Ev : Env}.

Definition set_unsigned (x : option bytes) (p : PduEvent) : PduEvent :=
  Build_PduEvent (event_id p) (room_id p) (sender p) (origin_server_ts p) (kind p) (content p)
    (state_key p) (prev_events p) (depth p) (auth_events p) (redacts p) x (hashes p) (signatures p).
Definition set_content (x : bytes) (p : PduEvent) : PduEvent :=
  Build_PduEvent (event_id p) (room_id p) (sender p) (origin_server_ts p) (kind p) x
    (state_key p) (prev_events p) (depth p) (auth_events p) (redacts p) (unsigned p) (hashes p)
    (signatures p).

Definition set_event_id (x : EventId) (p : PduEvent) : PduEvent :=
  Build_PduEvent x (room_id p) (sender p) (origin_server_ts p) (kind p) (content p)
    (state_key p) (prev_events p) (depth p) (auth_events p) (redacts p) (unsigned p) (hashes p)
    (signatures p).

(** The content keys a redaction keeps, by event type. *)
Definition redaction_allowed (k : rstr) : list rstr :=
  if decide (k = lit "m.room.member") then
    [lit "join_authorised_via_users_server"; lit "membership"]
  else if decide (k = lit "m.room.create") then [lit "creator"]
  else if decide (k = lit "m.room.join_rules") then [lit "join_rule"]
  else if decide (k = lit "m.room.power_levels") then
    [lit "ban"; lit "events"; lit "events_default"; lit "kick"; lit "redact"; lit "state_default";
     lit "users"; lit "users_default"]
  else if decide (k = lit "m.room.history_visibility") then [lit "history_visibility"]
  else [].

(** The object of a content, if it is one. *)
Definition parse_object (b : bytes) : option (list (rstr * json)) :=
  match from_slice b with Some (JObj l) => Some l | _ => None end.

(** [for key in allowed { if let Some(value) = old.remove(key) { new.insert(key, value) } }] *)
Fixpoint keep_allowed (allowed : list rstr) (old_content new_content : list (rstr * json))
    : list (rstr * json) :=
  match allowed with
  | [] => new_content
  | key :: allowed =>
      match obj_get key old_content with
      | Some value => keep_allowed allowed (obj_remove key old_content) (obj_insert key value new_content)
      | None => keep_allowed allowed old_content new_content
      end
  end.

Definition redact (p reason : PduEvent) : res PduEvent :=
  let allowed := redaction_allowed (kind p) in
  old_content ← ok_or (parse_object (content p)) (BadDatabase "PDU in db has invalid content.");
  let new_content := keep_allowed allowed old_content [] in
  let p := set_unsigned
    (Some (raw_text (to_raw_value (JObj [(lit "redacted_because", pdu_to_value reason)])))) p in
  Ok (set_content (raw_text (to_raw_value (JObj new_content))) p).

Definition remove_transaction_id (p : PduEvent) : res PduEvent :=
  match unsigned p with
  | Some u =>
      m ← ok_or (from_slice u) (BadDatabase "Invalid unsigned in pdu event");
      let m : list (rstr * Raw) := obj_remove (lit "transaction_id") m in
      Ok (set_unsigned (Some (to_vec m)) p)
  | None => Ok p
  end.

(** ** What redaction keeps *)

Lemma keep_allowed_get allowed old new k :
  NoDup allowed → (∀ k, k ∈ allowed → obj_get k new = None) →
  obj_get k (keep_allowed allowed old new) =
  if decide (k ∈ allowed) then obj_get k old else obj_get k new.
Proof.
  revert old new. induction allowed as [|a l IH]; intros old new Hnd Hnew; cbn.
  { rewrite decide_False; [done|]. by intros ?%not_elem_of_nil. }
  apply NoDup_cons in Hnd as [Ha Hnd].
  assert (∀ k, k ∈ l → k ≠ a) as Hne by (intros ? ? ->; done).
  destruct (obj_get a old) as [v|] eqn:Eo.
  - rewrite IH; [|done|].
    + rewrite obj_get_remove, obj_get_insert. destruct (decide (k = a)) as [->|Hk].
      * rewrite decide_False by done. rewrite decide_True by (by left). done.
      * destruct (decide (k ∈ l)); [rewrite decide_True by (by right)|rewrite decide_False]; try done.
        by intros [?|?]%elem_of_cons.
    + intros k' Hk'. rewrite obj_get_insert, decide_False by auto. apply Hnew. by right.
  - rewrite IH; [|done|intros; apply Hnew; by right]. destruct (decide (k = a)) as [->|Hk].
    + rewrite decide_False by done. rewrite decide_True by (by left). rewrite Eo. apply Hnew. by left.
    + destruct (decide (k ∈ l)); [rewrite decide_True by (by right)|rewrite decide_False]; try done.
      by intros [?|?]%elem_of_cons.
Qed.

Lemma redaction_allowed_NoDup k : NoDup (redaction_allowed k).
Proof.
  unfold redaction_allowed.
  destruct (decide (k = lit "m.room.member")); [apply (bool_decide_unpack _); by vm_compute|].
  destruct (decide (k = lit "m.room.create")); [apply (bool_decide_unpack _); by vm_compute|].
  destruct (decide (k = lit "m.room.join_rules")); [apply (bool_decide_unpack _); by vm_compute|].
  destruct (decide (k = lit "m.room.power_levels")); [apply (bool_decide_unpack _); by vm_compute|].
  destruct (decide (k = lit "m.room.history_visibility")); [apply (bool_decide_unpack _); by vm_compute|].
  constructor.
Qed.

(** Redaction keeps exactly the allowed fields of the content, with their
    values, keeps everything else of the event except [unsigned], and fails
    exactly when the content is not an object. *)
Theorem redact_content p reason :
  match parse_object (content p) with
  | None => redact p reason = Err (BadDatabase "PDU in db has invalid content.")
  | Some old =>
      ∃ p' new, redact p reason = Ok p' ∧ parse_object (content p') = Some new ∧
        (∀ k, obj_get k new = if decide (k ∈ redaction_allowed (kind p)) then obj_get k old else None) ∧
        set_content (content p) (set_unsigned (unsigned p) p') = p
  end.
Proof.
  unfold redact. destruct (parse_object (content p)) as [old|]; [|done].
  eexists _, (keep_allowed (redaction_allowed (kind p)) old []). split; [done|]. split_and!.
  - unfold parse_object. cbn [content set_content]. by rewrite raw_text_value, from_slice_to_vec.
  - intros k. rewrite keep_allowed_get; [done|apply redaction_allowed_NoDup|done].
  - by destruct p.
Qed.

(** Removing the transaction id removes that field of [unsigned] only. *)
Theorem remove_transaction_id_spec p m :
  unsigned p = Some (to_vec (A := list (rstr * Raw)) m) →
  ∃ p' m', remove_transaction_id p = Ok p' ∧ unsigned p' = Some (to_vec (A := list (rstr * Raw)) m') ∧
    (∀ k, obj_get k m' = if decide (k = lit "transaction_id") then None else obj_get k m) ∧
    set_unsigned (unsigned p) p' = p.
Proof.
  intros Hu. unfold remove_transaction_id. rewrite Hu, from_slice_to_vec. cbn.
  eexists _, _. split_and!; try done.
  - intros k. apply obj_get_remove.
  - rewrite <- Hu. by destruct p.
Qed.
End pdu.
