(* ===== verification/Timeline.v ===== *)
(** * Outliers and the timeline
    ([src/database/key_value/rooms/outlier.rs], [src/database/key_value/rooms/timeline.rs])

    An event of a room's timeline is stored under its pdu id: the short room id
    and a count, 8 bytes each, big-endian, so that key order is timeline order.
    Events known only from elsewhere are outliers, stored under their event id. *)

From S2P Require Import Prelude Bytes RStr Error Utils KvTree Env Db Keys Globals Short Pdu.

Section timeline.
Context {Ev : Env}.
Implicit Types s : State.

(** ** Outliers *)

Definition get_outlier_pdu_json (event_id : EventId) : DB (option CanonicalJsonObject) :=
  o ← t_get eventid_outlierpdu (idb event_id);
  lift (match o with
        | None => Ok None
        | Some pdu => ok_or (from_slice_opt pdu) (BadDatabase "Invalid PDU in db.")
        end).

Definition get_outlier_pdu (event_id : EventId) : DB (option PduEvent) :=
  o ← t_get eventid_outlierpdu (idb event_id);
  lift (match o with
        | None => Ok None
        | Some pdu => ok_or (from_slice_opt pdu) (BadDatabase "Invalid PDU in db.")
        end).

Definition add_pdu_outlier (event_id : EventId) (pdu : CanonicalJsonObject) : DB unit :=
  t_insert eventid_outlierpdu (idb event_id) (to_vec pdu).

(** ** Reading single events *)

(** [serde_json::from_slice(..).map_err(..)] *)
Definition parse_json {A} `{!Serde A} (msg : string) (b : bytes) : res A :=
  ok_or (from_slice b) (BadDatabase msg).

(** The prefix of a room's pdu ids. *)
Definition room_prefix (room_id : RoomId) : DB bytes :=
  o ← get_shortroomid room_id;
  shortroomid ← lift (expect o "room exists");
  mret (to_be_bytes shortroomid).

Definition pdu_count (pdu_id : bytes) : res N :=
  if bool_decide (length pdu_id < 8)%nat then Panic "attempt to subtract with overflow"
  else ok_or (u64_from_bytes (drop (length pdu_id - 8) pdu_id)) (BadDatabase "PDU has invalid count bytes.").

Definition get_pdu_count (event_id : EventId) : DB (option N) :=
  o ← t_get eventid_pduid (idb event_id);
  lift (transpose (pdu_count <$> o)).

Definition get_pdu_id (event_id : EventId) : DB (option bytes) :=
  t_get eventid_pduid (idb event_id).

(** The stored text of an event of the timeline. *)
Definition timeline_text (pduid : bytes) : DB bytes :=
  o ← t_get pduid_pdu pduid;
  lift (ok_or o (BadDatabase "Invalid pduid in eventid_pduid.")).

(** The stored text of an event, in the timeline or else among the outliers. *)
Definition event_text (event_id : EventId) : DB (option bytes) :=
  o ← t_get eventid_pduid (idb event_id);
  match o with
  | None => t_get eventid_outlierpdu (idb event_id)
  | Some pduid => t ← timeline_text pduid; mret (Some t)
  end.

Definition get_pdu_json (event_id : EventId) : DB (option CanonicalJsonObject) :=
  t ← event_text event_id;
  lift (transpose (parse_json "Invalid PDU in db." <$> t)).

Definition non_outlier_text (event_id : EventId) : DB (option bytes) :=
  o ← t_get eventid_pduid (idb event_id);
  match o with
  | None => mret None
  | Some pduid => t ← timeline_text pduid; mret (Some t)
  end.

Definition get_non_outlier_pdu_json (event_id : EventId) : DB (option CanonicalJsonObject) :=
  t ← non_outlier_text event_id;
  lift (transpose (parse_json "Invalid PDU in db." <$> t)).

Definition get_non_outlier_pdu (event_id : EventId) : DB (option PduEvent) :=
  t ← non_outlier_text event_id;
  lift (transpose (parse_json "Invalid PDU in db." <$> t)).

Definition get_pdu (event_id : EventId) : DB (option PduEvent) :=
  cached ← cache_get pdu_cache set_pdu_cache event_id;
  match cached with
  | Some p => mret (Some p)
  | None =>
      t ← event_text event_id;
      o ← lift (transpose (parse_json "Invalid PDU in db." <$> t));
      match o with
      | Some pdu => cache_insert pdu_cache set_pdu_cache event_id pdu ;; mret (Some pdu)
      | None => mret None
      end
  end.

Definition get_pdu_from_id (pdu_id : bytes) : DB (option PduEvent) :=
  o ← t_get pduid_pdu pdu_id;
  lift (transpose (parse_json "Invalid PDU in db." <$> o)).

Definition get_pdu_json_from_id (pdu_id : bytes) : DB (option CanonicalJsonObject) :=
  o ← t_get pduid_pdu pdu_id;
  lift (transpose (parse_json "Invalid PDU in db." <$> o)).

(** ** Writing *)

Definition append_pdu (pdu_id : bytes) (pdu : PduEvent) (js : CanonicalJsonObject) (count : N) : DB unit :=
  t_insert pduid_pdu pdu_id (to_vec js) ;;
  modify (λ s, set_lasttimelinecount_cache (<[room_id pdu := count]> (lasttimelinecount_cache s)) s) ;;
  t_insert eventid_pduid (idb (event_id pdu)) pdu_id ;;
  t_remove eventid_outlierpdu (idb (event_id pdu)).

Definition replace_pdu (pdu_id : bytes) (pdu : PduEvent) : DB unit :=
  o ← t_get pduid_pdu pdu_id;
  match o with
  | Some _ => t_insert pduid_pdu pdu_id (to_vec pdu)
  | None => fail (BadRequest NotFound "PDU does not exist.")
  end.

(** ** Iterating *)

Definition first_pdu_in_room (room_id : RoomId) : DB (option PduEvent) :=
  prefix ← room_prefix room_id;
  l ← t_iter_from pduid_pdu prefix false;
  lift (transpose (head ((λ e : entry, parse_json "Invalid first PDU in db." e.2) <$>
          filter (λ e, starts_with e.1 prefix = true) l))).

(** The event of an entry, as [user_id] may see it. *)
Definition visible_pdu (user_id : UserId) (e : entry) : res (bytes * PduEvent) :=
  pdu ← parse_json "PDU in db is invalid." e.2;
  pdu ← (if decide (sender pdu = user_id) then Ok pdu else remove_transaction_id pdu);
  Ok (e.1, pdu).

Definition pdus_since (user_id : UserId) (room_id : RoomId) (since : N)
    : DB (list (res (bytes * PduEvent))) :=
  prefix ← room_prefix room_id;
  let first_pdu_id := prefix ++ to_be_bytes (since + 1) in
  l ← t_iter_from pduid_pdu first_pdu_id false;
  mret (visible_pdu user_id <$> take_while (λ e : entry, starts_with e.1 prefix) l).

Definition pdus_until (user_id : UserId) (room_id : RoomId) (until : N)
    : DB (list (res (bytes * PduEvent))) :=
  prefix ← room_prefix room_id;
  let current := prefix ++ to_be_bytes (until - 1) in
  l ← t_iter_from pduid_pdu current true;
  mret (visible_pdu user_id <$> take_while (λ e : entry, starts_with e.1 prefix) l).

Definition pdus_after (user_id : UserId) (room_id : RoomId) (from : N)
    : DB (list (res (bytes * PduEvent))) :=
  prefix ← room_prefix room_id;
  let current := prefix ++ to_be_bytes (from + 1) in
  l ← t_iter_from pduid_pdu current false;
  mret (visible_pdu user_id <$> take_while (λ e : entry, starts_with e.1 prefix) l).

Definition last_timeline_count (sender_user : UserId) (room_id : RoomId) : DB N :=
  cached ← gets (λ s, lasttimelinecount_cache s !! room_id);
  match cached with
  | Some c => mret c
  | None =>
      l ← pdus_until sender_user room_id u64_max;
      match filter_map ok l with
      | (pduid, _) :: _ =>
          last_count ← lift (pdu_count pduid);
          modify (λ s, set_lasttimelinecount_cache (<[room_id := last_count]> (lasttimelinecount_cache s)) s) ;;
          mret last_count
      | [] => mret 0
      end
  end.

Definition increment_notification_counts (room_id : RoomId) (notifies highlights : list UserId) : DB unit :=
  let notifies_batch := (λ user, idkey user room_id) <$> notifies in
  let highlights_batch := (λ user, idkey user room_id) <$> highlights in
  t_increment_batch userroomid_notificationcount notifies_batch ;;
  t_increment_batch userroomid_highlightcount highlights_batch.

(** ** Lemmas *)

(** The id of the event at position [c] of room [n]. *)
Definition pdu_id_of (n c : N) : bytes := to_be_bytes n ++ to_be_bytes c.

Definition timeline_keyed s : Prop :=
  ∀ k v, db_map s pduid_pdu !! k = Some v → ∃ n c, u64 n ∧ u64 c ∧ k = pdu_id_of n c.

Definition room_numbered s (r : RoomId) (n : N) : Prop :=
  u64 n ∧ db_map s roomid_shortroomid !! idb r = Some (to_be_bytes n).

Lemma pdu_id_of_prefix n n' c : u64 n → u64 n' → to_be_bytes n `prefix_of` pdu_id_of n' c ↔ n = n'.
Proof.
  intros Hn Hn'. split; [|intros ->; by exists (to_be_bytes c)].
  intros [x E]. apply app_inj_1 in E as [E _]; [|by rewrite !length_to_be_bytes].
  by apply to_be_bytes_inj in E.
Qed.

Lemma pdu_id_of_inj n n' c c' :
  u64 n → u64 n' → u64 c → u64 c' → pdu_id_of n c = pdu_id_of n' c' → n = n' ∧ c = c'.
Proof.
  intros ???? E. apply app_inj_1 in E as [E1 E2]; [|by rewrite !length_to_be_bytes].
  apply to_be_bytes_inj in E1, E2; done.
Qed.

Lemma pdu_id_of_le n c c' : u64 c → u64 c' → pdu_id_of n c ≤b pdu_id_of n c' ↔ c ≤ c'.
Proof. intros. unfold pdu_id_of. by rewrite bytes_le_app, to_be_bytes_le. Qed.

Lemma pdu_count_of n c : u64 c → pdu_count (pdu_id_of n c) = Ok c.
Proof.
  intros Hc. unfold pdu_count, pdu_id_of. rewrite length_app, !length_to_be_bytes.
  rewrite bool_decide_false by lia. rewrite drop_app_length' by (by rewrite length_to_be_bytes).
  by rewrite u64_from_be_u64.
Qed.

Lemma room_prefix_run r n s : room_numbered s r n → room_prefix r s = (Ok (to_be_bytes n), s).
Proof.
  intros [Hu Hn]. unfold room_prefix.
  assert (get_shortroomid r s = (Ok (Some n), s)) as Hg.
  { unfold get_shortroomid. db_step. rewrite Hn. unfold lift, parse_u64. cbn. by rewrite u64_from_be_u64. }
  by rewrite (bind_Ok _ _ _ _ _ Hg).
Qed.

(** The entries of a room are those of its events. *)
Lemma scan_room n k v s :
  u64 n → timeline_keyed s →
  (k, v) ∈ with_prefix (to_be_bytes n) (db_map s pduid_pdu) ↔
  ∃ c, u64 c ∧ k = pdu_id_of n c ∧ db_map s pduid_pdu !! k = Some v.
Proof.
  intros Hn Hk. rewrite elem_of_with_prefix. split.
  - intros [Hl Hp]. destruct (Hk k v Hl) as (n' & c & ? & ? & ->).
    apply pdu_id_of_prefix in Hp as ->; eauto.
  - intros (c & ? & -> & Hl). split; [done|]. by apply pdu_id_of_prefix.
Qed.

(** Backward iteration. *)
Lemma iter_until_run u r n until s :
  room_numbered s r n → timeline_keyed s → 1 ≤ until → u64 until →
  ∃ l, pdus_until u r until s = (Ok (visible_pdu u <$> l), s) ∧
       StronglySorted (flip key_lt) l ∧
       ∀ k v, (k, v) ∈ l ↔
         ∃ c, u64 c ∧ c < until ∧ k = pdu_id_of n c ∧ db_map s pduid_pdu !! k = Some v.
Proof.
  intros Hr Hk H1 Hu. pose proof Hr as [Hn _].
  exists (reverse (filter (λ e, e.1 ≤b pdu_id_of n (until - 1))
                      (with_prefix (to_be_bytes n) (db_map s pduid_pdu)))).
  split_and!.
  - unfold pdus_until. rewrite (bind_Ok _ _ _ _ _ (room_prefix_run _ _ _ Hr)). unfold t_iter_from.
    db_step. rewrite iter_backward_while by (by exists (to_be_bytes (until - 1))). done.
  - apply StronglySorted_reverse, StronglySorted_filter. auto with kv.
  - intros k v. rewrite elem_of_reverse, list_elem_of_filter, scan_room by done. cbn [fst]. split.
    + intros (Hle & c & Hc & -> & Hl). exists c. apply pdu_id_of_le in Hle; [|done|unfold u64 in *; lia].
      split_and!; try done. lia.
    + intros (c & Hc & Hlt & -> & Hl). split; [|eauto].
      apply pdu_id_of_le; [done|unfold u64 in *; lia|lia].
Qed.

(** ** Theorems *)

(** [pdus_since] (and [pdus_after]) yields exactly the events of the room
    after the given position, each once, oldest first; none of another room
    and none at or before the position. *)
Theorem pdus_since_correct u r n since s :
  room_numbered s r n → timeline_keyed s → since + 1 < 2 ^ 64 →
  ∃ l, pdus_since u r since s = (Ok (visible_pdu u <$> l), s) ∧
       pdus_after u r since s = (Ok (visible_pdu u <$> l), s) ∧
       StronglySorted key_lt l ∧
       ∀ k v, (k, v) ∈ l ↔
         ∃ c, u64 c ∧ since < c ∧ k = pdu_id_of n c ∧ db_map s pduid_pdu !! k = Some v.
Proof.
  intros Hr Hk Hs. pose proof Hr as [Hu _].
  exists (filter (λ e, pdu_id_of n (since + 1) ≤b e.1) (with_prefix (to_be_bytes n) (db_map s pduid_pdu))).
  split_and!.
  - unfold pdus_since. rewrite (bind_Ok _ _ _ _ _ (room_prefix_run _ _ _ Hr)). unfold t_iter_from.
    db_step. rewrite iter_forward_while by (by exists (to_be_bytes (since + 1))). done.
  - unfold pdus_after. rewrite (bind_Ok _ _ _ _ _ (room_prefix_run _ _ _ Hr)). unfold t_iter_from.
    db_step. rewrite iter_forward_while by (by exists (to_be_bytes (since + 1))). done.
  - apply StronglySorted_filter. auto with kv.
  - intros k v. rewrite list_elem_of_filter, scan_room by done. cbn [fst]. split.
    + intros (Hle & c & Hc & -> & Hl). exists c. apply pdu_id_of_le in Hle; [|done..].
      split_and!; try done. lia.
    + intros (c & Hc & Hlt & -> & Hl). split; [|eauto]. apply pdu_id_of_le; [done..|lia].
Qed.

(** [pdus_until] yields exactly the events of the room before the given
    position, newest first. *)
Theorem pdus_until_correct u r n until s :
  room_numbered s r n → timeline_keyed s → 1 ≤ until → u64 until →
  ∃ l, pdus_until u r until s = (Ok (visible_pdu u <$> l), s) ∧
       StronglySorted (flip key_lt) l ∧
       ∀ k v, (k, v) ∈ l ↔
         ∃ c, u64 c ∧ c < until ∧ k = pdu_id_of n c ∧ db_map s pduid_pdu !! k = Some v.
Proof. apply iter_until_run. Qed.

(** The state after an event was appended. *)
Definition appended (pdu_id : bytes) (pdu : PduEvent) (js : CanonicalJsonObject) (c : N) s : State :=
  del eventid_outlierpdu (idb (event_id pdu))
    (put eventid_pduid (idb (event_id pdu)) pdu_id
       (set_lasttimelinecount_cache (<[room_id pdu := c]> (lasttimelinecount_cache s))
          (put pduid_pdu pdu_id (to_vec js) s))).

Lemma append_pdu_run id pdu js c s : append_pdu id pdu js c s = (Ok (), appended id pdu js c s).
Proof. done. Qed.

(** The text of an event of the timeline. *)
Lemma event_text_timeline e id t s :
  db_map s eventid_pduid !! idb e = Some id → db_map s pduid_pdu !! id = Some t →
  event_text e s = (Ok (Some t), s) ∧ non_outlier_text e s = (Ok (Some t), s).
Proof.
  intros He Ht. unfold event_text, non_outlier_text, timeline_text, mbind, M_bind.
  rewrite !t_get_run, He, t_get_run, Ht. done.
Qed.

(** An appended event is found again by its event id and by its pdu id, as
    the JSON that was stored; its count is its position, it is the latest of
    the room, it is an outlier no more; and events of other ids are as before. *)
Theorem append_pdu_get n c pdu js s :
  u64 c →
  let id := pdu_id_of n c in
  let s' := (append_pdu id pdu js c s).2 in
  (append_pdu id pdu js c s).1 = Ok () ∧
  get_pdu_json (event_id pdu) s' = (Ok (Some js), s') ∧
  get_non_outlier_pdu_json (event_id pdu) s' = (Ok (Some js), s') ∧
  get_pdu_json_from_id id s' = (Ok (Some js), s') ∧
  get_pdu_count (event_id pdu) s' = (Ok (Some c), s') ∧
  get_outlier_pdu_json (event_id pdu) s' = (Ok None, s') ∧
  (∀ u, last_timeline_count u (room_id pdu) s' = (Ok c, s')) ∧
  (∀ e, e ≠ event_id pdu → (get_pdu_id e s').1 = (get_pdu_id e s).1) ∧
  (∀ k, k ≠ id → (get_pdu_json_from_id k s').1 = (get_pdu_json_from_id k s).1).
Proof.
  intros Hc id s'. unfold s'. rewrite append_pdu_run. cbn [fst snd]. unfold appended.
  set (s1 := del _ _ _).
  destruct (event_text_timeline (event_id pdu) id (to_vec js) s1) as [Ht Ht'];
    [unfold s1; db_simpl; by rewrite lookup_insert_eq..|].
  split_and!; [done|..].
  - unfold get_pdu_json. rewrite (bind_Ok _ _ _ _ _ Ht). unfold lift, parse_json. cbn.
    by rewrite from_slice_to_vec.
  - unfold get_non_outlier_pdu_json. rewrite (bind_Ok _ _ _ _ _ Ht'). unfold lift, parse_json. cbn.
    by rewrite from_slice_to_vec.
  - unfold get_pdu_json_from_id. db_step. unfold s1. db_simpl. rewrite lookup_insert_eq.
    unfold lift, parse_json. cbn. by rewrite from_slice_to_vec.
  - unfold get_pdu_count. db_step. unfold s1. db_simpl. rewrite lookup_insert_eq. unfold lift, id.
    cbn [fmap option_fmap option_map]. by rewrite pdu_count_of.
  - unfold get_outlier_pdu_json. db_step. unfold s1. db_simpl. by rewrite lookup_delete_eq.
  - intros u. unfold last_timeline_count. db_step. unfold s1. cbn. by rewrite lookup_insert_eq.
  - intros e He. unfold get_pdu_id. rewrite !t_get_run. unfold s1. db_simpl.
    rewrite lookup_insert_ne; [done|]. intros E%(inj idb). congruence.
  - intros k Hk. unfold get_pdu_json_from_id. db_step. db_step. unfold s1. db_simpl.
    by rewrite lookup_insert_ne.
Qed.

(** ** The cache of the latest count *)

(** The ids a scan of readable events gives are those of its entries. *)
Lemma visible_ids u l :
  (∀ e, e ∈ l → is_Some (ok (visible_pdu u e))) →
  (filter_map ok (visible_pdu u <$> l)).*1 = l.*1.
Proof.
  induction l as [|e l IH]; intros Hl; [done|]. csimpl. unfold filter_map in *. cbn.
  destruct (Hl e) as [[id p] Hp]; [by left|]. rewrite Hp. csimpl. f_equal.
  - unfold visible_pdu in Hp. destruct (parse_json _ _) as [q| |]; [|done..]. cbn in Hp.
    destruct (decide _); [cbn in Hp; by simplify_eq|].
    destruct (remove_transaction_id q); [|done..]. cbn in Hp. by simplify_eq.
  - apply IH. intros. apply Hl. by right.
Qed.

(** Without a cached value, [last_timeline_count] finds the position of the
    latest event of the room (zero when there is none) and caches it, so that
    the next call gives the same; provided the stored events can be read. *)
Theorem last_timeline_count_latest u r n s :
  room_numbered s r n → timeline_keyed s → lasttimelinecount_cache s !! r = None →
  (∀ c v, u64 c → db_map s pduid_pdu !! pdu_id_of n c = Some v →
     c < u64_max ∧ is_Some (ok (visible_pdu u (pdu_id_of n c, v)))) →
  ∃ c s', last_timeline_count u r s = (Ok c, s') ∧ (∀ t, db_map s' t = db_map s t) ∧
    (∀ c' v, u64 c' → db_map s pduid_pdu !! pdu_id_of n c' = Some v → c' ≤ c) ∧
    (c ≠ 0 → is_Some (db_map s pduid_pdu !! pdu_id_of n c)) ∧
    (is_Some (db_map s pduid_pdu !! pdu_id_of n c) → last_timeline_count u r s' = (Ok c, s')).
Proof.
  intros Hr Hk Hcache Hread.
  destruct (iter_until_run u r n u64_max s) as (l & Hrun & Hs & Hl); [done..|].
  assert ((filter_map ok (visible_pdu u <$> l)).*1 = l.*1) as Hids.
  { apply visible_ids. intros [k v] He. apply Hl in He as (c & Hc & _ & -> & Hv).
    by apply (Hread c v). }
  unfold last_timeline_count. db_step. rewrite Hcache. rewrite (bind_Ok _ _ _ _ _ Hrun).
  destruct l as [|[k v] l], (filter_map _ _) as [|[id p] rest]; try done.
  - exists 0, s. split_and!; try done.
    + intros c v Hc Hv. destruct (Hread c v Hc Hv) as [Hlt _].
      assert ((pdu_id_of n c, v) ∈ []) as []%not_elem_of_nil. apply Hl. eauto 10.
    + intros [v Hv]. destruct (Hread 0 v) as [Hlt _]; [done..|].
      assert ((pdu_id_of n 0, v) ∈ []) as []%not_elem_of_nil. apply Hl. exists 0. done.
  - injection Hids as -> _. destruct (proj1 (Hl k v)) as (c & Hc & Hlt & -> & Hv); [by left|].
    rewrite pdu_count_of by done. db_run. eexists c, _. split; [done|]. split_and!; try done.
    + intros c' v' Hc' Hv'. destruct (Hread c' v' Hc' Hv') as [Hlt' _].
      assert ((pdu_id_of n c', v') ∈ (pdu_id_of n c, v) :: l) as Hin by (apply Hl; eauto 10).
      apply elem_of_cons in Hin as [E|Hin].
      * apply (f_equal fst) in E. cbn [fst] in E. apply pdu_id_of_inj in E as [_ ->]; [lia|try done; apply Hr..].
      * inversion Hs as [|? ? _ Hall]; subst. rewrite Forall_forall in Hall.
        specialize (Hall _ Hin). unfold flip, key_lt in Hall. cbn in Hall.
        apply (pdu_id_of_le n c' c); [done..|]. apply bytes_le_lt_eq. by left.
    + intros _. db_step. cbn. by rewrite lookup_insert_eq.
Qed.

(** ** The event cache *)

(** What the trees say an event is. *)
Definition stored_pdu s (e : EventId) : option PduEvent :=
  t ← (match db_map s eventid_pduid !! idb e with
       | None => db_map s eventid_outlierpdu !! idb e
       | Some id => db_map s pduid_pdu !! id
       end);
  from_slice t.

Definition pdu_cache_ok s : Prop :=
  ∀ e p, lru_peek (pdu_cache s) e = Some p → stored_pdu s e = Some p.

(** The outcome of a lookup; only the cache changes. *)
Lemma get_pdu_run e s :
  pdu_cache_ok s →
  ∃ r c, get_pdu e s = (r, set_pdu_cache c s) ∧ pdu_cache_ok (set_pdu_cache c s) ∧
    match stored_pdu s e with Some p => r = Ok (Some p) | None => r = Ok None ∨ ∃ x, r = Err x end.
Proof.
  intros Hc. unfold get_pdu. erewrite bind_Ok by apply cache_get_run.
  set (c := (lru_get_mut e (pdu_cache s)).2). set (s1 := set_pdu_cache c s).
  assert (pdu_cache_ok s1) as Hc'
    by (intros e' p'; cbn; unfold c; rewrite lru_peek_get; apply Hc).
  destruct (lru_peek (pdu_cache s) e) as [q|] eqn:Eq.
  { apply Hc in Eq. rewrite Eq. by eexists _, _. }
  assert (∃ r, event_text e s1 = (r, s1) ∧
    match r with
    | Ok t => stored_pdu s e = t ≫= from_slice
    | Err _ => stored_pdu s e = None
    | Panic _ => False
    end) as (r & Ht & Hr).
  { unfold stored_pdu, event_text, timeline_text, mbind, M_bind, s1. rewrite t_get_run. db_simpl.
    destruct (db_map s eventid_pduid !! idb e) as [id|]; rewrite t_get_run; db_simpl;
      destruct (_ !! _) as [t|]; by eexists. }
  destruct r as [[t|]|x|]; [| | |done].
  - rewrite (bind_Ok _ _ _ _ _ Ht). unfold parse_json. cbn [fmap option_fmap option_map]. cbn in Hr.
    destruct (from_slice t) as [p|] eqn:Hf; rewrite Hr; cbn [ok_or transpose].
    + db_run. eexists _, _. split; [done|]. split; [|done].
      intros e' p'. cbn. intros [[-> ->]|[_ ?]]%lru_peek_insert; [done|]. by apply Hc'.
    + exists (Err (BadDatabase "Invalid PDU in db.")), c. eauto.
  - rewrite (bind_Ok _ _ _ _ _ Ht). cbn in Hr. rewrite Hr. exists (Ok None), c. eauto.
  - unfold mbind, M_bind. rewrite Ht, Hr. exists (Err x), c. eauto.
Qed.

(** With a cache that agrees with the trees, [get_pdu] returns the stored
    event and leaves the cache agreeing with the trees. *)
Theorem get_pdu_correct e p s :
  pdu_cache_ok s → stored_pdu s e = Some p →
  ∃ s', get_pdu e s = (Ok (Some p), s') ∧ pdu_cache_ok s' ∧ ∀ t, db_map s' t = db_map s t.
Proof.
  intros Hc Hp. destruct (get_pdu_run e s Hc) as (r & c & E & Hc' & Hr). rewrite Hp in Hr. subst r. by eexists.
Qed.

(** Replacing an event (as a redaction does) does not touch the event
    cache: an event that was read before is still returned as it was before
    the replacement, although the stored event changed. *)
Theorem replace_pdu_stale e id old new s :
  lru_peek (pdu_cache s) e = Some old → old ≠ new →
  db_map s eventid_pduid !! idb e = Some id → is_Some (db_map s pduid_pdu !! id) →
  let s' := (replace_pdu id new s).2 in
  (replace_pdu id new s).1 = Ok () ∧ stored_pdu s' e = Some new ∧
  (get_pdu e s').1 = Ok (Some old) ∧ ¬ pdu_cache_ok s'.
Proof.
  intros Hpk Hne He [t Ht] s'.
  assert (replace_pdu id new s = (Ok (), put pduid_pdu id (to_vec new) s)) as Hrun.
  { unfold replace_pdu. db_step. by rewrite Ht. }
  assert (stored_pdu s' e = Some new) as Hst.
  { unfold s'. rewrite Hrun. unfold stored_pdu. cbn [snd]. db_simpl. rewrite He, lookup_insert_eq.
    apply from_slice_to_vec. }
  unfold s' in *. rewrite Hrun in *. cbn [fst snd] in *. split_and!; try done.
  - unfold get_pdu. erewrite bind_Ok by apply cache_get_run. cbn. by rewrite Hpk.
  - intros Hok. specialize (Hok e old). cbn in Hok. rewrite Hok in Hst by done. congruence.
Qed.
End timeline.
