(* ===== verification/StateAccessor.v ===== *)
(** * State lookup ([src/database/key_value/rooms/state_accessor.rs])

    Reading the state behind a short state hash: the whole of it, or the event
    of one state key. *)

From S2P Require Import Prelude Bytes RStr Error Utils KvTree Env Db Keys Globals Short RoomState StateCompressor Pdu Timeline.

Section state_accessor.
Context {Ev : Env}.
Implicit Types s : State.

(** [load_shortstatehash_info(..)?.pop().expect("there is always one layer").1] *)
Definition full_state (shortstatehash : N) : DB (gset CompressedStateEvent) :=
  l ← load_shortstatehash_info shortstatehash;
  i ← lift (expect (last l) "there is always one layer");
  mret (si_full i).

Definition state_full_ids (shortstatehash : N) : DB (gmap N EventId) :=
  full ← full_state shortstatehash;
  for_fold (elements full) ∅ (λ result compressed,
    parsed ← parse_compressed_state_event compressed;
    mret (<[parsed.1 := parsed.2]> result)).

Definition state_full (shortstatehash : N) : DB (gmap (StateEventType * rstr) PduEvent) :=
  full ← full_state shortstatehash;
  for_fold (elements full) ∅ (λ result compressed,
    parsed ← parse_compressed_state_event compressed;
    o ← get_pdu parsed.2;
    match o with
    | Some pdu =>
        state_key ← lift (ok_or (state_key pdu) (BadDatabase "State event has no state key."));
        mret (<[(kind pdu, state_key) := pdu]> result)
    | None => mret result
    end).

Definition state_get_id (shortstatehash : N) (event_type : StateEventType) (state_key : rstr)
    : DB (option EventId) :=
  o ← get_shortstatekey event_type state_key;
  match o with
  | None => mret None
  | Some shortstatekey =>
      full ← full_state shortstatehash;
      match list_find (λ c : CompressedStateEvent, starts_with (arr c) (to_be_bytes shortstatekey) = true)
              (elements full) with
      | None => mret None
      | Some (_, compressed) =>
          r ← try_ok (parse_compressed_state_event compressed);
          mret (snd <$> r)
      end
  end.

Definition state_get (shortstatehash : N) (event_type : StateEventType) (state_key : rstr)
    : DB (option PduEvent) :=
  o ← state_get_id shortstatehash event_type state_key;
  match o with
  | None => mret None
  | Some event_id => get_pdu event_id
  end.

Definition pdu_shortstatehash (event_id : EventId) : DB (option N) :=
  o ← t_get eventid_shorteventid (idb event_id);
  match o with
  | None => mret None
  | Some shorteventid =>
      b ← t_get shorteventid_shortstatehash shorteventid;
      lift (transpose (parse_u64 "Invalid shortstatehash bytes in shorteventid_shortstatehash" <$> b))
  end.

Definition room_state_full (room_id : RoomId) : DB (gmap (StateEventType * rstr) PduEvent) :=
  o ← get_room_shortstatehash room_id;
  match o with
  | Some current_shortstatehash => state_full current_shortstatehash
  | None => mret ∅
  end.

Definition room_state_get_id (room_id : RoomId) (event_type : StateEventType) (state_key : rstr)
    : DB (option EventId) :=
  o ← get_room_shortstatehash room_id;
  match o with
  | Some current_shortstatehash => state_get_id current_shortstatehash event_type state_key
  | None => mret None
  end.

Definition room_state_get (room_id : RoomId) (event_type : StateEventType) (state_key : rstr)
    : DB (option PduEvent) :=
  o ← get_room_shortstatehash room_id;
  match o with
  | Some current_shortstatehash => state_get current_shortstatehash event_type state_key
  | None => mret None
  end.

(** ** Lemmas *)

(** A state with at most one event per state key. *)
Definition one_per_key (F : gset CompressedStateEvent) : Prop :=
  ∀ c c', c ∈ F → c' ∈ F → take 8 (arr c) = take 8 (arr c') → c = c'.

Lemma starts_with_take8 (c : CompressedStateEvent) n :
  starts_with (arr c) (to_be_bytes n) = true ↔ take 8 (arr c) = to_be_bytes n.
Proof.
  rewrite starts_with_iff. split.
  - intros [x ->]. by rewrite take_app_length' by (by rewrite length_to_be_bytes).
  - intros <-. exists (drop 8 (arr c)). by rewrite take_drop.
Qed.

Lemma full_state_run h l s :
  layers s h l → info_cache_ok s →
  ∃ c, full_state h s = (Ok (full_of l), set_stateinfo_cache c s) ∧ info_cache_ok (set_stateinfo_cache c s).
Proof.
  intros Hl Hc. destruct (load_shortstatehash_info_spec s h l Hl Hc) as (c & Hrun & Hc').
  exists c. split; [|done]. unfold full_state. rewrite (bind_Ok _ _ _ _ _ Hrun).
  destruct (layers_top _ _ _ Hl) as (l' & i & -> & _). unfold full_of. by rewrite last_snoc.
Qed.

Lemma parse_compressed_run (c : CompressedStateEvent) k n e s :
  ShortInv s → u64 k → u64 n → arr c = to_be_bytes k ++ to_be_bytes n →
  db_map s shorteventid_eventid !! to_be_bytes n = Some (idb e) →
  ∃ x, parse_compressed_state_event c s = (Ok (k, e), set_shorteventid_cache x s)
       ∧ ShortInv (set_shorteventid_cache x s).
Proof.
  intros I Hk Hn Hc He. destruct (get_eventid_from_short_spec n e s I He) as (x & Hget & I').
  exists x. split; [|done]. unfold parse_compressed_state_event. rewrite Hc.
  rewrite take_app_length', drop_app_length' by (by rewrite length_to_be_bytes).
  rewrite !u64_from_be_u64 by done. cbn [expect]. db_run. by rewrite (bind_Ok _ _ _ _ _ Hget).
Qed.

(** [c] says that the event of the state key [(t, k)] is [e]. *)
Definition entry_of s (c : CompressedStateEvent) (t : StateEventType) (k : rstr) (e : EventId) : Prop :=
  ∃ sk n, arr c = to_be_bytes sk ++ to_be_bytes n ∧ u64 sk ∧ u64 n ∧
    db_map s statekey_shortstatekey !! statekey_bytes t k = Some (to_be_bytes sk) ∧
    db_map s eventid_shorteventid !! idb e = Some (to_be_bytes n).

(** A state as a partial function from state keys to events. *)
Definition state_has s (F : gset CompressedStateEvent) (t : StateEventType) (k : rstr) (e : EventId) : Prop :=
  ∃ c, c ∈ F ∧ entry_of s c t k e.
Definition state_wf s (F : gset CompressedStateEvent) : Prop :=
  one_per_key F ∧ ∀ c, c ∈ F → ∃ t k e, entry_of s c t k e.

Lemma take8_entry s c t k e sk :
  entry_of s c t k e → db_map s statekey_shortstatekey !! statekey_bytes t k = Some (to_be_bytes sk) →
  take 8 (arr c) = to_be_bytes sk.
Proof.
  intros (sk' & n & -> & _ & _ & Hk & _) Hk'. rewrite Hk in Hk'. apply (inj Some) in Hk' as ->.
  by rewrite take_app_length' by (by rewrite length_to_be_bytes).
Qed.

(** An entry names one state key and one event. *)
Lemma entry_of_inj s c t k e t' k' e' :
  ShortInv s → entry_of s c t k e → entry_of s c t' k' e' → t = t' ∧ k = k' ∧ e = e'.
Proof.
  intros I (sk & n & Ec & _ & _ & Hk & He) (sk' & n' & Ec' & _ & _ & Hk' & He').
  rewrite Ec in Ec'. apply app_inj_1 in Ec' as [Esk En]; [|by rewrite !length_to_be_bytes].
  rewrite Esk in Hk. rewrite En in He.
  pose proof (numbering_inj _ _ _ _ _ _ (inv_statekeys s I) Hk Hk') as [-> ->]%statekey_bytes_inj.
  pose proof (numbering_inj _ _ _ _ _ _ (inv_events s I) He He') as ->%(inj idb). done.
Qed.

Lemma state_has_fun s F t k e e' :
  ShortInv s → one_per_key F → state_has s F t k e → state_has s F t k e' → e = e'.
Proof.
  intros I Hone (c & Hc & He) (c' & Hc' & He').
  assert (c = c') as ->; [|by destruct (entry_of_inj _ _ _ _ _ _ _ _ I He He') as (_ & _ & ?)].
  apply Hone; [done..|]. pose proof He' as (sk & n & _ & _ & _ & Hk & _).
  by rewrite (take8_entry _ _ _ _ _ _ He Hk), (take8_entry _ _ _ _ _ _ He' Hk).
Qed.

(** The search for the entry of a numbered state key. *)
Lemma find_entry (F : gset CompressedStateEvent) sk :
  one_per_key F →
  match list_find (λ c : CompressedStateEvent, starts_with (arr c) (to_be_bytes sk) = true) (elements F) with
  | Some (_, c) => c ∈ F ∧ take 8 (arr c) = to_be_bytes sk
  | None => ∀ c, c ∈ F → take 8 (arr c) ≠ to_be_bytes sk
  end.
Proof.
  intros Hone. destruct (list_find _ _) as [[i c]|] eqn:Ef.
  - apply list_find_Some in Ef as (Hi & Hst & _). apply list_elem_of_lookup_2, elem_of_elements in Hi.
    by apply starts_with_take8 in Hst.
  - rewrite list_find_None, Forall_forall in Ef. intros c Hc Hk. apply (Ef c); [by apply elem_of_elements|].
    by apply starts_with_take8.
Qed.

Lemma state_get_id_run h l t k s :
  ShortInv s → info_cache_ok s → count_ok s → layers s h l → state_wf s (full_of l) →
  ∃ o s', state_get_id h t k s = (Ok o, s') ∧ ∀ e, o = Some e ↔ state_has s (full_of l) t k e.
Proof.
  intros I Hc Hok Hl [Hone Hwf]. unfold state_get_id.
  destruct (get_shortstatekey_spec t k s I Hok) as (c1 & Hget & I1). rewrite (bind_Ok _ _ _ _ _ Hget).
  destruct (db_map s statekey_shortstatekey !! statekey_bytes t k) as [b|] eqn:Hkey; cbn [mbind option_bind].
  2: { eexists None, _. split; [done|]. intros e. split; [done|]. intros (c & _ & sk & n & _ & _ & _ & Hk & _). congruence. }
  destruct (num_range _ _ _ (inv_statekeys s I) _ _ Hkey) as (sk & -> & ? & ?).
  assert (u64 sk) as Hsk by (unfold u64, count_ok in *; lia). rewrite u64_from_be_u64 by done.
  set (s1 := set_statekeyshort_cache c1 s) in *.
  destruct (full_state_run h l s1) as (c2 & Hfull & _).
  { eapply layers_mono, Hl. done. }
  { intros h' l' Hp. eapply layers_mono; [|by apply Hc]. done. }
  rewrite (bind_Ok _ _ _ _ _ Hfull). set (s2 := set_stateinfo_cache c2 s1).
  assert (ShortInv s2) as I2 by (by apply short_inv_info).
  pose proof (find_entry (full_of l) sk Hone) as Hf. destruct (list_find _ _) as [[i c]|].
  - destruct Hf as [Hin Ht]. destruct (Hwf c Hin) as (t' & k' & e & sk' & n & Ec & Hsk' & Hn & Hk' & He).
    rewrite Ec, take_app_length' in Ht by (by rewrite length_to_be_bytes). apply to_be_bytes_inj in Ht as ->; [|done..].
    pose proof (numbering_inj _ _ _ _ _ _ (inv_statekeys s I) Hk' Hkey) as [-> ->]%statekey_bytes_inj.
    destruct (parse_compressed_run c sk n e s2) as (x & Hp & I3); try done.
    { by apply (num_inverse _ _ _ (inv_events s I)). }
    assert (state_has s (full_of l) t k e) as Hhas by (exists c; split; [done|]; by exists sk, n).
    eexists (Some e), _. split; [unfold try_ok, mbind, M_bind; by rewrite Hp|].
    intros e'. split; [by intros [= <-]|]. intros He'. f_equal. by eapply state_has_fun.
  - eexists None, _. split; [done|]. intros e. split; [done|]. intros (c & Hin & Hent).
    destruct (Hf c Hin). by eapply take8_entry.
Qed.

(** ** Theorems *)

(** Looking up a state key in a stored state returns the event the state
    has for that key, and nothing exactly when it has none. *)
Theorem state_get_id_correct h l t k s :
  ShortInv s → info_cache_ok s → count_ok s → layers s h l → state_wf s (full_of l) →
  ∃ o s', state_get_id h t k s = (Ok o, s') ∧ ∀ e, o = Some e ↔ state_has s (full_of l) t k e.
Proof. apply state_get_id_run. Qed.
End state_accessor.
