(* ===== verification/Users.v ===== *)
(** * Accounts, profiles, devices and to-device messages
    ([src/database/key_value/users.rs]; the encryption keys are in [DeviceKeys.v])

    A device belongs to a user and has at most one access token.  The two token
    trees are kept inverse to each other, which is what makes an access token
    identify one device. *)

From S2P Require Import Prelude Bytes RStr Error Utils KvTree Env Db Keys Globals Short Timeline.

(** A [MxcUri] is any string. *)
Abbreviation MxcUri := rstr.

Section users.
Context {Ev : Env}.
Implicit Types s : State.

(** ** Accounts *)

Definition exists_user (user_id : UserId) : DB bool :=
  o ← t_get userid_password (idb user_id); mret (bool_decide (is_Some o)).

Definition is_deactivated (user_id : UserId) : DB bool :=
  o ← t_get userid_password (idb user_id);
  b ← lift (ok_or o (BadRequest InvalidParam "User does not exist."));
  mret (bool_decide (b = [])).

Definition count_users : DB nat :=
  l ← t_iter userid_password; mret (length l).

Definition find_from_token (token : rstr) : DB (option (UserId * rstr)) :=
  o ← t_get token_userdeviceid (as_bytes token);
  lift (match o with
        | None => Ok None
        | Some bs =>
            let parts := split_ff bs in
            user_bytes ← ok_or (parts !! 0%nat) (BadDatabase "User ID in token_userdeviceid is invalid.");
            device_bytes ← ok_or (parts !! 1%nat) (BadDatabase "Device ID in token_userdeviceid is invalid.");
            user ← parse_bytes "User ID in token_userdeviceid is invalid unicode."
                     "User ID in token_userdeviceid is invalid." user_bytes;
            device ← ok_or (string_from_bytes device_bytes)
                       (BadDatabase "Device ID in token_userdeviceid is invalid.");
            Ok (Some (user, device))
        end).

Definition iter_users : DB (list (res UserId)) :=
  l ← t_iter userid_password;
  mret ((λ e : entry, parse_bytes "User ID in userid_password is invalid unicode."
                        "User ID in userid_password is invalid." e.1) <$> l).

Definition get_username_with_valid_password (username password : bytes) : option rstr :=
  if bool_decide (password = []) then None else string_from_bytes username.

Definition list_local_users : DB (list rstr) :=
  l ← t_iter userid_password;
  mret (filter_map (λ e : entry, get_username_with_valid_password e.1 e.2) l).

Definition parse_string (msg : string) (b : bytes) : res rstr :=
  ok_or (string_from_bytes b) (BadDatabase msg).

Definition password_hash (user_id : UserId) : DB (option rstr) :=
  o ← t_get userid_password (idb user_id);
  lift (transpose (parse_string "Password hash in db is not valid string." <$> o)).

Definition set_password (user_id : UserId) (password : option rstr) : DB unit :=
  match password with
  | Some password =>
      match argon2_hash password with
      | Some hash => t_insert userid_password (idb user_id) (as_bytes hash)
      | None => fail (BadRequest InvalidParam "Password does not meet the requirements.")
      end
  | None => t_insert userid_password (idb user_id) []
  end.

(** ** Profiles *)

Definition displayname (user_id : UserId) : DB (option rstr) :=
  o ← t_get userid_displayname (idb user_id);
  lift (transpose (parse_string "Displayname in db is invalid." <$> o)).

Definition set_displayname (user_id : UserId) (displayname : option rstr) : DB unit :=
  match displayname with
  | Some displayname => t_insert userid_displayname (idb user_id) (as_bytes displayname)
  | None => t_remove userid_displayname (idb user_id)
  end.

Definition avatar_url (user_id : UserId) : DB (option MxcUri) :=
  o ← t_get userid_avatarurl (idb user_id);
  lift (transpose (parse_string "Avatar URL in db is invalid." <$> o)).

Definition set_avatar_url (user_id : UserId) (avatar_url : option MxcUri) : DB unit :=
  match avatar_url with
  | Some avatar_url => t_insert userid_avatarurl (idb user_id) (as_bytes avatar_url)
  | None => t_remove userid_avatarurl (idb user_id)
  end.

Definition blurhash (user_id : UserId) : DB (option rstr) :=
  o ← t_get userid_blurhash (idb user_id);
  lift (transpose (parse_string "Avatar URL in db is invalid." <$> o)).

Definition set_blurhash (user_id : UserId) (blurhash : option rstr) : DB unit :=
  match blurhash with
  | Some blurhash => t_insert userid_blurhash (idb user_id) (as_bytes blurhash)
  | None => t_remove userid_blurhash (idb user_id)
  end.

(** ** Devices and tokens *)

(** [user_id 0xff device_id] *)
Definition userdeviceid (user_id : UserId) (device_id : DeviceId) : bytes :=
  key2 (idb user_id) (as_bytes device_id).

Definition set_token (user_id : UserId) (device_id : DeviceId) (token : rstr) : DB unit :=
  let ud := userdeviceid user_id device_id in
  m ← t_get userdeviceid_metadata ud;
  lift (assert (bool_decide (is_Some m))) ;;
  o ← t_get userdeviceid_token ud;
  match o with
  | Some old_token => t_remove token_userdeviceid old_token
  | None => mret ()
  end ;;
  t_insert userdeviceid_token ud (as_bytes token) ;;
  t_insert token_userdeviceid (as_bytes token) ud.

Definition create_device (user_id : UserId) (device_id : DeviceId) (token : rstr)
    (initial_device_display_name : option rstr) : DB unit :=
  e ← exists_user user_id;
  lift (assert e) ;;
  t_increment userid_devicelistversion (idb user_id) ;;
  ts ← gets now;
  t_insert userdeviceid_metadata (userdeviceid user_id device_id)
    (to_vec {| device_id := device_id; display_name := initial_device_display_name;
               last_seen_ip := None; last_seen_ts := Some ts |}) ;;
  set_token user_id device_id token.

Definition remove_device (user_id : UserId) (device_id : DeviceId) : DB unit :=
  let ud := userdeviceid user_id device_id in
  o ← t_get userdeviceid_token ud;
  match o with
  | Some old_token => t_remove userdeviceid_token ud ;; t_remove token_userdeviceid old_token
  | None => mret ()
  end ;;
  t_remove_prefix todeviceid_events (ud ++ [sep]) ;;
  t_increment userid_devicelistversion (idb user_id) ;;
  t_remove userdeviceid_metadata ud.

Definition all_device_ids (user_id : UserId) : DB (list (res DeviceId)) :=
  l ← t_scan_prefix userdeviceid_metadata (idb user_id ++ [sep]);
  mret ((λ e : entry,
           b ← ok_or (rsplit_ff e.1 !! 0%nat) (BadDatabase "UserDevice ID in db is invalid.");
           parse_string "Device ID in userdeviceid_metadata is invalid." b) <$> l).

Definition update_device_metadata (user_id : UserId) (device_id : DeviceId) (device : Device) : DB unit :=
  let ud := userdeviceid user_id device_id in
  m ← t_get userdeviceid_metadata ud;
  lift (assert (bool_decide (is_Some m))) ;;
  t_increment userid_devicelistversion (idb user_id) ;;
  t_insert userdeviceid_metadata ud (to_vec device).

Definition get_device_metadata (user_id : UserId) (device_id : DeviceId) : DB (option Device) :=
  o ← t_get userdeviceid_metadata (userdeviceid user_id device_id);
  lift (transpose (parse_json "Metadata in userdeviceid_metadata is invalid." <$> o)).

Definition get_devicelist_version (user_id : UserId) : DB (option N) :=
  o ← t_get userid_devicelistversion (idb user_id);
  lift (transpose (parse_u64 "Invalid devicelistversion in db." <$> o)).

Definition all_devices_metadata (user_id : UserId) : DB (list (res Device)) :=
  l ← t_scan_prefix userdeviceid_metadata (idb user_id ++ [sep]);
  mret ((λ e : entry, parse_json "Device in userdeviceid_metadata is invalid." e.2) <$> l).

(** ** To-device messages *)

(** [user_id 0xff device_id 0xff] *)
Definition todevice_prefix (user_id : UserId) (device_id : DeviceId) : bytes :=
  userdeviceid user_id device_id ++ [sep].

Definition add_to_device_event (sender target_user_id : UserId) (target_device_id : DeviceId)
    (event_type : rstr) (content : json) : DB unit :=
  count ← next_count;
  let key := todevice_prefix target_user_id target_device_id ++ to_be_bytes count in
  let js := obj_insert (lit "content") content
              (obj_insert (lit "sender") (JStr (as_str sender))
                 (obj_insert (lit "type") (JStr event_type) [])) in
  t_insert todeviceid_events key (to_vec (JObj js)).

Definition get_to_device_events (user_id : UserId) (device_id : DeviceId) : DB (list Raw) :=
  l ← t_scan_prefix todeviceid_events (todevice_prefix user_id device_id);
  lift (collect ((λ e : entry, parse_json "Event in todeviceid_events is invalid." e.2) <$> l)).

(** The last eight bytes of a key; shorter keys panic. *)
Definition key_count (msg : string) (key : bytes) : res N :=
  if bool_decide (length key < 8)%nat then Panic "attempt to subtract with overflow"
  else ok_or (u64_from_bytes (drop (length key - 8) key)) (BadDatabase msg).

(** The loop over the entries, newest first: a key that cannot be read is
    skipped, the first one after [until] ends it. *)
Fixpoint remove_until (until : N) (l : list entry) : DB unit :=
  match l with
  | [] => mret ()
  | e :: l =>
      match key_count "ToDeviceId has invalid count bytes." e.1 with
      | Ok count =>
          if bool_decide (count ≤ until) then t_remove todeviceid_events e.1 ;; remove_until until l
          else mret ()
      | Err _ => remove_until until l
      | Panic p => lift (Panic p)
      end
  end.

Definition remove_to_device_events (user_id : UserId) (device_id : DeviceId) (until : N) : DB unit :=
  let prefix := todevice_prefix user_id device_id in
  l ← t_iter_from todeviceid_events (prefix ++ to_be_bytes until) true;
  remove_until until (take_while (λ e : entry, starts_with e.1 prefix) l).

(** ** Filters *)

Definition create_filter (filter_id : rstr) (user_id : UserId) (filter : FilterDefinition) : DB rstr :=
  t_insert userfilterid_filter (key2 (idb user_id) (as_bytes filter_id)) (to_vec filter) ;;
  mret filter_id.

Definition get_filter (user_id : UserId) (filter_id : rstr) : DB (option FilterDefinition) :=
  raw ← t_get userfilterid_filter (key2 (idb user_id) (as_bytes filter_id));
  lift (match raw with
        | Some raw => ok_or (from_slice_opt raw) (BadDatabase "Invalid filter event in db.")
        | None => Ok None
        end).

(** ** The token trees *)

Lemma userdeviceid_inj u u' d d' : userdeviceid u d = userdeviceid u' d' → u = u' ∧ d = d'.
Proof.
  intros [Hu Hd]%key2_inj; [|auto with kv..]. split; [by apply (inj idb)|by apply (inj as_bytes)].
Qed.

Record TokenInv s : Prop := {
  tok_inverse : inverse (db_map s token_userdeviceid) (db_map s userdeviceid_token);
  tok_device t ud :
    db_map s token_userdeviceid !! t = Some ud →
    ∃ u d, ud = userdeviceid u d ∧ is_Some (db_map s userdeviceid_metadata !! ud);
}.

(** The state after a token was set, and after a device lost its token. *)
Definition drop_token (ud : bytes) s : State :=
  match db_map s userdeviceid_token !! ud with
  | Some old => del token_userdeviceid old s
  | None => s
  end.
Definition token_set (ud : bytes) (t : rstr) s : State :=
  put token_userdeviceid (as_bytes t) ud (put userdeviceid_token ud (as_bytes t) (drop_token ud s)).

Lemma db_map_drop_token ud s :
  db_map (drop_token ud s) token_userdeviceid =
    match db_map s userdeviceid_token !! ud with
    | Some old => delete old (db_map s token_userdeviceid)
    | None => db_map s token_userdeviceid
    end.
Proof. unfold drop_token. destruct (_ !! _); by db_simpl. Qed.
Lemma db_map_drop_token_ne ud s t :
  t ≠ token_userdeviceid → db_map (drop_token ud s) t = db_map s t.
Proof. intros. unfold drop_token. destruct (_ !! _); [|done]. by rewrite db_map_del_ne by congruence. Qed.

Lemma set_token_run u d t s :
  is_Some (db_map s userdeviceid_metadata !! userdeviceid u d) →
  set_token u d t s = (Ok (), token_set (userdeviceid u d) t s).
Proof.
  intros Hm. unfold set_token. db_step. rewrite bool_decide_true by done. db_run.
  unfold token_set, drop_token. destruct (db_map s userdeviceid_token !! _) eqn:E; cbn [is_Some];
    unfold mbind, M_bind; cbn [assert lift]; rewrite ?t_get_run, ?E; done.
Qed.

Lemma token_inv_set u d t s :
  TokenInv s → is_Some (db_map s userdeviceid_metadata !! userdeviceid u d) →
  (db_map s token_userdeviceid !! as_bytes t = None ∨
   db_map s token_userdeviceid !! as_bytes t = Some (userdeviceid u d)) →
  TokenInv (token_set (userdeviceid u d) t s).
Proof.
  intros [Hi Hd] Hm Ht. unfold token_set. split; db_simpl.
  - rewrite db_map_drop_token, db_map_drop_token_ne by discriminate. by apply inverse_move.
  - rewrite (db_map_drop_token_ne _ _ userdeviceid_metadata) by discriminate.
    intros t' ud [[<- <-]|[_ H]]%lookup_insert_Some; [eauto|].
    rewrite db_map_drop_token in H. destruct (db_map s userdeviceid_token !! _); [|eauto].
    apply lookup_delete_Some in H as [_ ?]. eauto.
Qed.

(** A write that keeps the token trees and every device keeps the invariant. *)
Lemma token_inv_frame s s' :
  TokenInv s → db_map s' token_userdeviceid = db_map s token_userdeviceid →
  db_map s' userdeviceid_token = db_map s userdeviceid_token →
  (∀ ud, is_Some (db_map s userdeviceid_metadata !! ud) → is_Some (db_map s' userdeviceid_metadata !! ud)) →
  TokenInv s'.
Proof.
  intros [Hi Hd] E1 E2 Hm. split; rewrite E1, ?E2; [done|].
  intros t ud Ht. destruct (Hd t ud Ht) as (u & d & -> & ?). eauto.
Qed.

Lemma find_from_token_found u d t s :
  db_map s token_userdeviceid !! as_bytes t = Some (userdeviceid u d) →
  find_from_token t s = (Ok (Some (u, d)), s).
Proof.
  intros Ht. unfold find_from_token. db_step. rewrite Ht. unfold userdeviceid, key2.
  rewrite split_ff_app by auto with kv. rewrite split_ff_single by auto with kv. cbn [lookup list_lookup ok_or].
  unfold lift. cbn [mbind res_bind]. rewrite parse_bytes_idb. cbn [mbind res_bind].
  unfold string_from_bytes. by rewrite from_utf8_as_bytes.
Qed.

Lemma find_from_token_none t s :
  db_map s token_userdeviceid !! as_bytes t = None → find_from_token t s = (Ok None, s).
Proof. intros Ht. unfold find_from_token. db_step. by rewrite Ht. Qed.

(** ** Theorems on devices *)

Definition fresh_device (d : DeviceId) (name : option rstr) s : Device :=
  {| device_id := d; display_name := name; last_seen_ip := None; last_seen_ts := Some (now s) |}.

Lemma create_device_run u d t name s :
  is_Some (db_map s userid_password !! idb u) →
  create_device u d t name s =
  (Ok (), token_set (userdeviceid u d) t
            (put userdeviceid_metadata (userdeviceid u d) (to_vec (fresh_device d name s))
               (incr userid_devicelistversion (idb u) s))).
Proof.
  intros Hu. unfold create_device, exists_user.
  rewrite (bind_Ok _ _ _ true s); [|unfold mbind, M_bind; rewrite t_get_run, bool_decide_true; done].
  cbn [assert]. db_run. apply set_token_run. db_simpl. by rewrite lookup_insert_eq.
Qed.

(** The token identifies the device. *)
Definition token_of s (t : rstr) (u : UserId) (d : DeviceId) : Prop :=
  (find_from_token t s).1 = Ok (Some (u, d)).

Lemma token_of_iff s t u d :
  TokenInv s → token_of s t u d ↔ db_map s token_userdeviceid !! as_bytes t = Some (userdeviceid u d).
Proof.
  intros I. unfold token_of. split; [|by intros ->%find_from_token_found].
  destruct (db_map s token_userdeviceid !! as_bytes t) as [ud|] eqn:Et.
  - destruct (tok_device s I _ _ Et) as (u' & d' & -> & _).
    rewrite (find_from_token_found _ _ _ _ Et). by intros [= -> ->].
  - by rewrite find_from_token_none.
Qed.

Lemma no_token s t : TokenInv s → (find_from_token t s).1 = Ok None →
  db_map s token_userdeviceid !! as_bytes t = None.
Proof.
  intros I Ht. destruct (db_map s token_userdeviceid !! as_bytes t) as [ud|] eqn:Et; [|done].
  destruct (tok_device s I _ _ Et) as (u' & d' & -> & _).
  by rewrite (find_from_token_found _ _ _ _ Et) in Ht.
Qed.

(** Setting a token: which tokens identify which devices afterwards. *)
Lemma token_set_others s t ud t' ud' :
  TokenInv s → as_bytes t' ≠ as_bytes t →
  db_map (token_set ud t s) token_userdeviceid !! as_bytes t' = Some ud' ↔
  db_map s token_userdeviceid !! as_bytes t' = Some ud' ∧ ud' ≠ ud.
Proof.
  intros [Hi _] Hne. unfold token_set. db_simpl. rewrite lookup_insert_ne by congruence.
  rewrite db_map_drop_token. destruct (db_map s userdeviceid_token !! ud) as [old|] eqn:Eo.
  - apply Hi in Eo. rewrite lookup_delete_Some. split.
    + intros [Ho Ht]. split; [done|]. intros ->. apply Hi in Ht, Eo. congruence.
    + intros [Ht Hn]. split; [|done]. intros ->. congruence.
  - split; [|tauto]. intros Ht. split; [done|]. intros ->. apply Hi in Ht. congruence.
Qed.

(** Giving a fresh token to a device. *)
Lemma token_set_tokens u d t s :
  TokenInv s → is_Some (db_map s userdeviceid_metadata !! userdeviceid u d) →
  db_map s token_userdeviceid !! as_bytes t = None →
  let s' := token_set (userdeviceid u d) t s in
  TokenInv s' ∧ token_of s' t u d ∧
  ∀ t' u' d', t' ≠ t → token_of s' t' u' d' ↔ token_of s t' u' d' ∧ (u', d') ≠ (u, d).
Proof.
  intros I Hm Ht s'. assert (TokenInv s') as I2 by (apply token_inv_set; [done..|by left]). split_and!; [done|..].
  - apply token_of_iff; [done|]. unfold s', token_set. db_simpl. apply lookup_insert_eq.
  - intros t' u' d' Hne. unfold s' in *. rewrite !token_of_iff, token_set_others by (done || by intros ?%(inj as_bytes)). split.
    + intros [? Hn]. split; [done|]. intros [= -> ->]. done.
    + intros [? Hn]. split; [done|]. intros [-> ->]%userdeviceid_inj. done.
Qed.

(** The state with the metadata of a new device. *)
Definition device_put u d name s : State :=
  put userdeviceid_metadata (userdeviceid u d) (to_vec (fresh_device d name s)) (incr userid_devicelistversion (idb u) s).

Lemma device_put_tokens u d name s :
  let s1 := device_put u d name s in
  (TokenInv s → TokenInv s1) ∧ is_Some (db_map s1 userdeviceid_metadata !! userdeviceid u d) ∧
  db_map s1 token_userdeviceid = db_map s token_userdeviceid ∧
  ∀ t u' d', TokenInv s → token_of s1 t u' d' ↔ token_of s t u' d'.
Proof.
  intros s1. assert (is_Some (db_map s1 userdeviceid_metadata !! userdeviceid u d)) as Hm
    by (unfold s1, device_put; db_simpl; by rewrite lookup_insert_eq).
  assert (db_map s1 token_userdeviceid = db_map s token_userdeviceid) as Et by (unfold s1, device_put; by db_simpl).
  assert (TokenInv s → TokenInv s1) as I1.
  { intros I. apply (token_inv_frame s); [done|unfold s1, device_put; by db_simpl..|]. intros ud [v Hv]. unfold s1, device_put. db_simpl.
    destruct (decide (ud = userdeviceid u d)) as [->|]; [by rewrite lookup_insert_eq|].
    rewrite lookup_insert_ne by done. eauto. }
  split_and!; [done..|]. intros t u' d' I. rewrite !token_of_iff by auto. by rewrite Et.
Qed.

(** Creating a device stores its metadata and gives it the token: the token
    identifies exactly this device, the token the device had before is no
    longer accepted, all other tokens are as they were, and the two token
    trees stay inverse to each other.  The user must exist and the token must
    not belong to another device. *)
Theorem create_device_correct u d t name s :
  TokenInv s → is_Some (db_map s userid_password !! idb u) → (find_from_token t s).1 = Ok None →
  let s' := (create_device u d t name s).2 in
  (create_device u d t name s).1 = Ok () ∧ TokenInv s' ∧ token_of s' t u d ∧
  get_device_metadata u d s' = (Ok (Some (fresh_device d name s)), s') ∧
  (∀ t' u' d', t' ≠ t → token_of s' t' u' d' ↔ token_of s t' u' d' ∧ (u', d') ≠ (u, d)).
Proof.
  intros I Hu Ht s'. apply no_token in Ht; [|done]. unfold s'. rewrite create_device_run by done.
  cbn [fst snd]. fold (device_put u d name s). set (s1 := device_put u d name s).
  destruct (device_put_tokens u d name s) as (I1 & Hm & Et & Ho). fold s1 in I1, Hm, Et, Ho.
  destruct (token_set_tokens u d t s1) as (I2 & Hd & Hs); [auto|done|by rewrite Et|]. split_and!; [done..| |].
  - unfold get_device_metadata. db_step. unfold token_set. db_simpl.
    rewrite db_map_drop_token_ne by discriminate. unfold s1, device_put. db_simpl. rewrite lookup_insert_eq.
    unfold lift, parse_json. cbn [fmap option_fmap option_map]. by rewrite from_slice_to_vec.
  - intros t' u' d' Hne. rewrite Hs by done. by rewrite Ho.
Qed.

(** The state after a device lost its token. *)
Definition untoken (ud : bytes) s : State :=
  match db_map s userdeviceid_token !! ud with
  | Some old => del token_userdeviceid old (del userdeviceid_token ud s)
  | None => s
  end.

Lemma untoken_token ud s t ud' :
  inverse (db_map s token_userdeviceid) (db_map s userdeviceid_token) →
  db_map (untoken ud s) token_userdeviceid !! t = Some ud' ↔
  db_map s token_userdeviceid !! t = Some ud' ∧ ud' ≠ ud.
Proof.
  intros Hi. unfold untoken. destruct (db_map s userdeviceid_token !! ud) as [old|] eqn:Eo.
  - apply Hi in Eo. db_simpl. rewrite lookup_delete_Some. split.
    + intros [Ho Ht]. split; [done|]. intros ->. apply Hi in Ht, Eo. congruence.
    + intros [Ht Hn]. split; [|done]. intros ->. congruence.
  - split; [|tauto]. intros Ht. split; [done|]. intros ->. apply Hi in Ht. congruence.
Qed.

Lemma untoken_inverse ud s :
  inverse (db_map s token_userdeviceid) (db_map s userdeviceid_token) →
  inverse (db_map (untoken ud s) token_userdeviceid) (db_map (untoken ud s) userdeviceid_token).
Proof.
  intros Hi. unfold untoken. destruct (db_map s userdeviceid_token !! ud) as [old|] eqn:Eo; [|done].
  db_simpl. by apply inverse_remove.
Qed.

Lemma db_map_untoken_ne ud s t :
  t ≠ token_userdeviceid → t ≠ userdeviceid_token → db_map (untoken ud s) t = db_map s t.
Proof. intros. unfold untoken. destruct (_ !! _); [|done]. by rewrite !db_map_del_ne by congruence. Qed.

Lemma remove_device_run u d s :
  let ud := userdeviceid u d in
  remove_device u d s =
  (Ok (), del userdeviceid_metadata ud
            (incr userid_devicelistversion (idb u)
               (del_prefix todeviceid_events (ud ++ [sep]) (untoken ud s)))).
Proof.
  intros ud. unfold remove_device. db_step. fold ud. unfold untoken.
  destruct (db_map s userdeviceid_token !! ud) as [old|].
  - rewrite (bind_Ok _ _ _ () (del token_userdeviceid old (del userdeviceid_token ud s))) by done.
    db_run. done.
  - db_run. done.
Qed.

(** Keys of to-device messages: the prefix of the device and a count. *)
Definition todevice_key (u : UserId) (d : DeviceId) (c : N) : bytes :=
  todevice_prefix u d ++ to_be_bytes c.

Lemma todevice_prefix_inj u u' d d' c :
  todevice_prefix u d `prefix_of` todevice_key u' d' c ↔ u = u' ∧ d = d'.
Proof.
  unfold todevice_key, todevice_prefix, userdeviceid, key2. rewrite <- !app_assoc. cbn.
  rewrite !key_prefix by auto with kv. split.
  - intros (E1 & E2 & _). split; [by apply (inj idb)|by apply (inj as_bytes)].
  - intros [-> ->]. split_and!; [done..|]. apply prefix_nil.
Qed.

Definition todevice_keyed s : Prop :=
  ∀ k v, db_map s todeviceid_events !! k = Some v → ∃ u d c, u64 c ∧ k = todevice_key u d c.

(** Which tokens identify which devices after a device was removed. *)
Lemma remove_device_tokens u d s :
  TokenInv s →
  let s' := (remove_device u d s).2 in
  TokenInv s' ∧ ∀ t u' d', token_of s' t u' d' ↔ token_of s t u' d' ∧ (u', d') ≠ (u, d).
Proof.
  intros I s'. unfold s'. rewrite remove_device_run. cbn [fst snd]. set (ud := userdeviceid u d). set (s1 := del _ _ _).
  assert (db_map s1 token_userdeviceid = db_map (untoken ud s) token_userdeviceid) as E1
    by (unfold s1; by db_simpl).
  assert (TokenInv s1) as I1.
  { split.
    - rewrite E1. unfold s1. db_simpl. apply untoken_inverse, I.
    - intros t ud'. rewrite E1, untoken_token by apply I. intros [Ht Hne].
      destruct (tok_device s I _ _ Ht) as (u' & d' & -> & Hm). exists u', d'. split; [done|].
      unfold s1. db_simpl. rewrite lookup_delete_ne by done. by rewrite db_map_untoken_ne. }
  split; [done|]. intros t u' d'. rewrite !token_of_iff by done. rewrite E1, untoken_token by apply I. split.
  - intros [? Hn]. split; [done|]. intros [= -> ->]. done.
  - intros [? Hn]. split; [done|]. intros [-> ->]%userdeviceid_inj. done.
Qed.

(** Removing a device removes its token, its metadata and its pending
    to-device messages, and nothing of any other device. *)
Theorem remove_device_correct u d s :
  TokenInv s → todevice_keyed s →
  let s' := (remove_device u d s).2 in
  (remove_device u d s).1 = Ok () ∧ TokenInv s' ∧
  (∀ t u' d', token_of s' t u' d' ↔ token_of s t u' d' ∧ (u', d') ≠ (u, d)) ∧
  get_device_metadata u d s' = (Ok None, s') ∧
  get_to_device_events u d s' = (Ok [], s') ∧
  (∀ u' d', (u', d') ≠ (u, d) →
     (get_device_metadata u' d' s').1 = (get_device_metadata u' d' s).1 ∧
     (get_to_device_events u' d' s').1 = (get_to_device_events u' d' s).1).
Proof.
  intros I Hk s'. destruct (remove_device_tokens u d s I) as [I1 Ht]. revert I1 Ht. unfold s'.
  rewrite remove_device_run. cbn [fst snd]. set (ud := userdeviceid u d). set (s1 := del _ _ _). intros I1 Ht.
  split_and!; try done.
  - unfold get_device_metadata. db_step. unfold s1. db_simpl. fold ud. by rewrite lookup_delete_eq.
  - unfold get_to_device_events. db_step. unfold s1. db_simpl.
    rewrite with_prefix_empty; [done|]. intros k v. rewrite lookup_del_prefix.
    by case_decide.
  - intros u' d' Hne. split.
    + unfold get_device_metadata. db_step. db_step. unfold s1. db_simpl. rewrite lookup_delete_ne.
      * by rewrite db_map_untoken_ne.
      * intros [-> ->]%userdeviceid_inj. done.
    + unfold get_to_device_events. db_step. db_step. unfold s1. db_simpl.
      rewrite (with_prefix_ext _ _ (db_map s todeviceid_events)); [done|].
      intros k Hp. rewrite lookup_del_prefix, db_map_untoken_ne by discriminate.
      case_decide as Hp'; [|done]. destruct (db_map s todeviceid_events !! k) as [v|] eqn:Hv; [|done].
      destruct (Hk k v Hv) as (u1 & d1 & c & _ & ->).
      apply todevice_prefix_inj in Hp as [-> ->]. apply (todevice_prefix_inj u) in Hp' as [-> ->]. done.
Qed.

(** ** Theorems on to-device messages *)

Lemma todevice_key_inj u d c c' : u64 c → u64 c' → todevice_key u d c = todevice_key u d c' → c = c'.
Proof. intros ?? E%app_inv_head. by apply to_be_bytes_inj in E. Qed.

Lemma todevice_key_lt u d c c' : u64 c → u64 c' → todevice_key u d c <b todevice_key u d c' ↔ c < c'.
Proof. intros. unfold todevice_key. by rewrite bytes_lt_app, to_be_bytes_lt. Qed.

Lemma todevice_key_le u d c c' : u64 c → u64 c' → todevice_key u d c ≤b todevice_key u d c' ↔ c ≤ c'.
Proof. intros. unfold todevice_key. by rewrite bytes_le_app, to_be_bytes_le. Qed.

Lemma key_count_todevice msg u d c : u64 c → key_count msg (todevice_key u d c) = Ok c.
Proof.
  intros Hc. unfold key_count, todevice_key. rewrite length_app, length_to_be_bytes.
  rewrite bool_decide_false by lia. replace (_ + 8 - 8)%nat with (length (todevice_prefix u d)) by lia.
  rewrite drop_app_length. by rewrite u64_from_be_u64.
Qed.

(** A loop over readable keys up to [until] removes them all. *)
Lemma remove_until_run until u d l s :
  (∀ e, e ∈ l → ∃ c, u64 c ∧ c ≤ until ∧ e.1 = todevice_key u d c) →
  remove_until until l s = (Ok (), foldl (λ s (e : entry), del todeviceid_events e.1 s) s l).
Proof.
  revert s. induction l as [|e l IH]; intros s Hl; [done|]. cbn [remove_until foldl].
  destruct (Hl e) as (c & Hc & Hle & Ek); [by left|]. rewrite Ek, key_count_todevice by done.
  rewrite bool_decide_true by done. db_step. apply IH. intros. apply Hl. by right.
Qed.

(** Acknowledging to-device messages up to a position removes exactly the
    messages of that device up to and including that position. *)
Theorem remove_to_device_events_correct u d until s :
  todevice_keyed s → u64 until →
  let s' := (remove_to_device_events u d until s).2 in
  (remove_to_device_events u d until s).1 = Ok () ∧
  (∀ c, u64 c → c ≤ until → db_map s' todeviceid_events !! todevice_key u d c = None) ∧
  (∀ u' d' c, u64 c → (u', d') ≠ (u, d) ∨ until < c →
     db_map s' todeviceid_events !! todevice_key u' d' c = db_map s todeviceid_events !! todevice_key u' d' c).
Proof.
  intros Hk Hu s'. unfold s', remove_to_device_events, t_iter_from. db_step.
  rewrite iter_backward_while by (by exists (to_be_bytes until)).
  set (l := reverse _).
  assert (∀ k v, (k, v) ∈ l ↔ db_map s todeviceid_events !! k = Some v ∧
            ∃ c, u64 c ∧ c ≤ until ∧ k = todevice_key u d c) as Hl.
  { intros k v. unfold l. rewrite elem_of_reverse, list_elem_of_filter, elem_of_with_prefix. cbn [fst]. split.
    - intros (Hle & Hv & Hp). split; [done|]. destruct (Hk k v Hv) as (u' & d' & c & Hc & ->).
      apply todevice_prefix_inj in Hp as [<- <-]. exists c.
      apply (todevice_key_le u d c until) in Hle; done.
    - intros (Hv & c & Hc & Hle & ->). split_and!; [by apply (todevice_key_le u d c until)|done|].
      by apply todevice_prefix_inj. }
  rewrite (remove_until_run _ u d) by (intros [k v] He; by apply Hl in He as [_ ?]). cbn [fst snd].
  rewrite db_map_del_all_eq. split_and!; [done|..].
  - intros c Hc Hle. rewrite lookup_delete_keys. case_decide as Hin; [done|].
    destruct (db_map s todeviceid_events !! _) as [v|] eqn:Hv; [|done]. destruct Hin.
    apply list_elem_of_fmap. exists (todevice_key u d c, v). split; [done|]. apply Hl. eauto.
  - intros u' d' c Hc Hne. rewrite lookup_delete_keys. case_decide as Hin; [|done].
    apply list_elem_of_fmap in Hin as ([k v] & Ek & He). cbn in Ek. subst k.
    apply Hl in He as (_ & c' & Hc' & Hle & E).
    assert (todevice_prefix u d `prefix_of` todevice_key u' d' c) as Hp
      by (rewrite E; by exists (to_be_bytes c')).
    apply todevice_prefix_inj in Hp as [-> ->]. apply todevice_key_inj in E as ->; [|done..].
    destruct Hne; [done|lia].
Qed.

(** The message as it is delivered. *)
Definition todevice_message (sender : UserId) (event_type : rstr) (content : json) : json :=
  JObj [(lit "content", content); (lit "sender", JStr (as_str sender)); (lit "type", JStr event_type)].

(** A to-device message is delivered after all messages that were pending
    for the device, and no other device receives it. *)
Theorem add_to_device_event_order sender u d ty content l s :
  todevice_keyed s → count_ok s →
  (∀ u d c, is_Some (db_map s todeviceid_events !! todevice_key u d c) → c ≤ count s) →
  get_to_device_events u d s = (Ok l, s) →
  let s' := (add_to_device_event sender u d ty content s).2 in
  (add_to_device_event sender u d ty content s).1 = Ok () ∧
  get_to_device_events u d s' = (Ok (l ++ [to_raw_value (todevice_message sender ty content)]), s') ∧
  (∀ u' d', (u', d') ≠ (u, d) → (get_to_device_events u' d' s').1 = (get_to_device_events u' d' s).1).
Proof.
  intros Hk Hc Hmax Hget s'. unfold s', add_to_device_event.
  rewrite (bind_Ok _ _ _ _ _ (next_count_ok s Hc)). change (obj_insert _ _ _) with
    [(lit "content", content); (lit "sender", JStr (as_str sender)); (lit "type", JStr ty)].
  fold (todevice_message sender ty content). rewrite t_insert_run. cbn [fst snd].
  fold (todevice_key u d (count s + 1)). set (s1 := put _ _ _ _).
  assert (db_map s1 todeviceid_events = <[todevice_key u d (count s + 1) :=
            to_vec (todevice_message sender ty content)]> (db_map s todeviceid_events)) as Em
    by (unfold s1; by db_simpl).
  split_and!; [done|..].
  - unfold get_to_device_events in *. revert Hget. db_step. intros Hget. db_step. rewrite Em.
    rewrite with_prefix_insert_last.
    + rewrite fmap_app. unfold lift in *. injection Hget as Hget. f_equal. apply collect_app; [done|].
      cbn [fmap list_fmap collect snd]. unfold parse_json. rewrite <- raw_text_value. cbn.
      by rewrite raw_from_text.
    + by exists (to_be_bytes (count s + 1)).
    + intros k v Hv Hp. destruct (Hk k v Hv) as (u' & d' & c & Hcu & ->).
      apply todevice_prefix_inj in Hp as [<- <-]. unfold count_ok in Hc.
      apply todevice_key_lt; [done|unfold u64; lia|].
      enough (c ≤ count s) by lia. apply (Hmax u d). eauto.
  - intros u' d' Hne. unfold get_to_device_events. db_step. db_step. rewrite Em.
    rewrite with_prefix_insert_other; [done|]. intros [-> ->]%todevice_prefix_inj. done.
Qed.
End users.
