(* ===== verification/StateCache.v ===== *)
(** * Room membership ([src/database/key_value/rooms/state_cache.rs])

    Who is joined to, invited to or has left a room, kept in three pairs of
    trees, one keyed by user and room, the other by room and user; the servers
    of a room, derived from its members; and two in-memory caches. *)

From S2P Require Import Prelude Bytes RStr Error Utils KvTree Env Db Keys Globals Short Timeline Users.

Section state_cache.
Context {Ev : Env}.
Implicit Types s : State.

(** ** Changing a membership *)

Definition mark_as_once_joined (user_id : UserId) (room_id : RoomId) : DB unit :=
  t_insert roomuseroncejoinedids (idkey user_id room_id) [].

Definition mark_as_joined (user_id : UserId) (room_id : RoomId) : DB unit :=
  let roomuser_id := idkey room_id user_id in
  let userroom_id := idkey user_id room_id in
  t_insert userroomid_joined userroom_id [] ;;
  t_insert roomuserid_joined roomuser_id [] ;;
  t_remove userroomid_invitestate userroom_id ;;
  t_remove roomuserid_invitecount roomuser_id ;;
  t_remove userroomid_leftstate userroom_id ;;
  t_remove roomuserid_leftcount roomuser_id.

Definition mark_as_invited (user_id : UserId) (room_id : RoomId) (last_state : option (list Raw)) : DB unit :=
  let roomuser_id := idkey room_id user_id in
  let userroom_id := idkey user_id room_id in
  t_insert userroomid_invitestate userroom_id (to_vec (default [] last_state)) ;;
  count ← next_count;
  t_insert roomuserid_invitecount roomuser_id (to_be_bytes count) ;;
  t_remove userroomid_joined userroom_id ;;
  t_remove roomuserid_joined roomuser_id ;;
  t_remove userroomid_leftstate userroom_id ;;
  t_remove roomuserid_leftcount roomuser_id.

Definition mark_as_left (user_id : UserId) (room_id : RoomId) : DB unit :=
  let roomuser_id := idkey room_id user_id in
  let userroom_id := idkey user_id room_id in
  t_insert userroomid_leftstate userroom_id (to_vec ([] : list Raw)) ;;
  count ← next_count;
  t_insert roomuserid_leftcount roomuser_id (to_be_bytes count) ;;
  t_remove userroomid_joined userroom_id ;;
  t_remove roomuserid_joined roomuser_id ;;
  t_remove userroomid_invitestate userroom_id ;;
  t_remove roomuserid_invitecount roomuser_id.

Definition forget (room_id : RoomId) (user_id : UserId) : DB unit :=
  let userroom_id := idkey user_id room_id in
  let roomuser_id := idkey room_id user_id in
  t_remove userroomid_leftstate userroom_id ;;
  t_remove roomuserid_leftcount roomuser_id.

(** ** Iterators *)

(** [tree.scan_prefix(x 0xff).map(..)], reading the last part of each key. *)
Definition scan_last {va vb} (t : TreeId) (unicode invalid : string) (x : identifier va)
    : DB (list (res (identifier vb))) :=
  l ← t_scan_prefix t (idb x ++ [sep]);
  mret ((λ e : entry, parse_last unicode invalid e.1) <$> l).

Definition room_servers (room_id : RoomId) : DB (list (res ServerName)) :=
  scan_last roomserverids "Server name in roomserverids is invalid unicode."
    "Server name in roomserverids is invalid." room_id.

Definition server_in_room (server : ServerName) (room_id : RoomId) : DB bool :=
  o ← t_get serverroomids (idkey server room_id); mret (bool_decide (is_Some o)).

Definition server_rooms (server : ServerName) : DB (list (res RoomId)) :=
  scan_last serverroomids "RoomId in serverroomids is invalid unicode."
    "RoomId in serverroomids is invalid." server.

Definition room_members (room_id : RoomId) : DB (list (res UserId)) :=
  scan_last roomuserid_joined "User ID in roomuserid_joined is invalid unicode."
    "User ID in roomuserid_joined is invalid." room_id.

Definition room_joined_count (room_id : RoomId) : DB (option N) :=
  o ← t_get roomid_joinedcount (idb room_id);
  lift (transpose (parse_u64 "Invalid joinedcount in db." <$> o)).

Definition room_invited_count (room_id : RoomId) : DB (option N) :=
  o ← t_get roomid_invitedcount (idb room_id);
  lift (transpose (parse_u64 "Invalid joinedcount in db." <$> o)).

Definition room_useroncejoined (room_id : RoomId) : DB (list (res UserId)) :=
  scan_last roomuseroncejoinedids "User ID in room_useroncejoined is invalid unicode."
    "User ID in room_useroncejoined is invalid." room_id.

Definition room_members_invited (room_id : RoomId) : DB (list (res UserId)) :=
  scan_last roomuserid_invitecount "User ID in roomuserid_invited is invalid unicode."
    "User ID in roomuserid_invited is invalid." room_id.

Definition get_invite_count (room_id : RoomId) (user_id : UserId) : DB (option N) :=
  o ← t_get roomuserid_invitecount (idkey room_id user_id);
  lift (transpose (parse_u64 "Invalid invitecount in db." <$> o)).

Definition get_left_count (room_id : RoomId) (user_id : UserId) : DB (option N) :=
  o ← t_get roomuserid_leftcount (idkey room_id user_id);
  lift (transpose (parse_u64 "Invalid leftcount in db." <$> o)).

(** The scanned prefix is the user id without the separator. *)
Definition rooms_joined (user_id : UserId) : DB (list (res RoomId)) :=
  l ← t_scan_prefix userroomid_joined (idb user_id);
  mret ((λ e : entry, parse_last "Room ID in userroomid_joined is invalid unicode."
                        "Room ID in userroomid_joined is invalid." e.1) <$> l).

(** A room and the state stored with it. *)
Definition parse_room_state (msg : string) (e : entry) : res (RoomId * list Raw) :=
  room_id ← parse_last "Room ID in userroomid_invited is invalid unicode."
              "Room ID in userroomid_invited is invalid." e.1;
  state ← parse_json msg e.2;
  Ok (room_id, state).

Definition rooms_invited (user_id : UserId) : DB (list (res (RoomId * list Raw))) :=
  l ← t_scan_prefix userroomid_invitestate (idb user_id ++ [sep]);
  mret (parse_room_state "Invalid state in userroomid_invitestate." <$> l).

Definition invite_state (user_id : UserId) (room_id : RoomId) : DB (option (list Raw)) :=
  o ← t_get userroomid_invitestate (idkey user_id room_id);
  lift (transpose (parse_json "Invalid state in userroomid_invitestate." <$> o)).

Definition left_state (user_id : UserId) (room_id : RoomId) : DB (option (list Raw)) :=
  o ← t_get userroomid_leftstate (idkey user_id room_id);
  lift (transpose (parse_json "Invalid state in userroomid_leftstate." <$> o)).

Definition rooms_left (user_id : UserId) : DB (list (res (RoomId * list Raw))) :=
  l ← t_scan_prefix userroomid_leftstate (idb user_id ++ [sep]);
  mret (parse_room_state "Invalid state in userroomid_leftstate." <$> l).

(** ** Queries *)

Definition once_joined (user_id : UserId) (room_id : RoomId) : DB bool :=
  o ← t_get roomuseroncejoinedids (idkey user_id room_id); mret (bool_decide (is_Some o)).

Definition is_joined (user_id : UserId) (room_id : RoomId) : DB bool :=
  o ← t_get userroomid_joined (idkey user_id room_id); mret (bool_decide (is_Some o)).

Definition is_invited (user_id : UserId) (room_id : RoomId) : DB bool :=
  o ← t_get userroomid_invitestate (idkey user_id room_id); mret (bool_decide (is_Some o)).

Definition is_left (user_id : UserId) (room_id : RoomId) : DB bool :=
  o ← t_get userroomid_leftstate (idkey user_id room_id); mret (bool_decide (is_Some o)).

(** ** Derived data of a room *)

(** One member: its server, whether it is one of ours that is active, and the count. *)
Definition count_member (acc : gset ServerName * gset UserId * N) (joined : UserId)
    : DB (gset ServerName * gset UserId * N) :=
  let '(joined_servers, real_users, joinedcount) := acc in
  real_users ←
    (if decide (user_server_name joined = server_name) then
       d ← try_ok (is_deactivated joined);
       mret (if default true d then real_users else {[joined]} ∪ real_users)
     else mret real_users);
  mret ({[user_server_name joined]} ∪ joined_servers, real_users, joinedcount + 1).

(** One server recorded for the room: kept, or removed when no member is on it. *)
Definition drop_old_server (room_id : RoomId) (joined_servers : gset ServerName) (old : ServerName)
    : DB (gset ServerName) :=
  if decide (old ∈ joined_servers) then mret (joined_servers ∖ {[old]})
  else
    t_remove roomserverids (idkey room_id old) ;;
    t_remove serverroomids (idkey old room_id) ;;
    mret joined_servers.

Definition add_server (room_id : RoomId) (server : ServerName) : DB unit :=
  t_insert roomserverids (idkey room_id server) [] ;;
  t_insert serverroomids (idkey server room_id) [].

Definition update_joined_count (room_id : RoomId) : DB unit :=
  members ← room_members room_id;
  acc ← for_fold (filter_map ok members) (∅, ∅, 0) count_member;
  let '(joined_servers, real_users, joinedcount) := acc in
  invited ← room_members_invited room_id;
  let invitedcount := N.of_nat (length (filter_map ok invited)) in
  t_insert roomid_joinedcount (idb room_id) (to_be_bytes joinedcount) ;;
  t_insert roomid_invitedcount (idb room_id) (to_be_bytes invitedcount) ;;
  modify (λ s, set_our_real_users_cache (<[room_id := real_users]> (our_real_users_cache s)) s) ;;
  old_servers ← room_servers room_id;
  joined_servers ← for_fold (filter_map ok old_servers) joined_servers (drop_old_server room_id);
  for_each (elements joined_servers) (add_server room_id) ;;
  modify (λ s, set_appservice_in_room_cache (delete room_id (appservice_in_room_cache s)) s).

Definition get_our_real_users (room_id : RoomId) : DB (gset UserId) :=
  maybe ← gets (λ s, our_real_users_cache s !! room_id);
  match maybe with
  | Some users => mret users
  | None =>
      update_joined_count room_id ;;
      o ← gets (λ s, our_real_users_cache s !! room_id);
      lift (expect o "called Option::unwrap on a None value")
  end.

Definition as_string (v : json) : option rstr := match v with JStr t => Some t | _ => None end.

Definition appservice_in_room (room_id : RoomId) (appservice : rstr * json) : DB bool :=
  maybe ← gets (λ s, m ← appservice_in_room_cache s !! room_id; m !! appservice.1);
  match maybe with
  | Some b => mret b
  | None =>
      match json_get (lit "namespaces") appservice.2 with
      | Some namespaces =>
          let users :=
            match json_get (lit "users") namespaces with
            | Some (JArr users) =>
                filter_map (λ u, r ← json_get (lit "regex") u; r ← as_string r; regex_new r) users
            | _ => []
            end in
          let bridge_user_id :=
            (v ← json_get (lit "sender_localpart") appservice.2; t ← as_string v;
             parse_with_server_name t server_name) in
          in_room ← match bridge_user_id with
                    | Some id => o ← try_ok (is_joined id room_id); mret (default false o)
                    | None => mret false
                    end;
          in_room ← (if (in_room : bool) then mret true
                     else
                       members ← room_members room_id;
                       mret (existsb (λ userid : UserId, existsb (λ r, is_match r (as_str userid)) users)
                               (filter_map ok members)));
          modify (λ s, set_appservice_in_room_cache
            (<[room_id := <[appservice.1 := in_room]> (default ∅ (appservice_in_room_cache s !! room_id))]>
               (appservice_in_room_cache s)) s) ;;
          mret in_room
      | None => mret false
      end
  end.

(** ** The membership state machine *)

Inductive Membership := Joined | Invited | Left.

#[export] Instance Membership_eq_dec : EqDecision Membership.
Proof. solve_decision. Defined.

Definition in_tree s (t : TreeId) (u : UserId) (r : RoomId) : Prop :=
  is_Some (db_map s t !! idkey u r).

Record MemberInv s : Prop := {
  mem_joined : mirror valid_user_id valid_room_id
                 (db_map s userroomid_joined) (db_map s roomuserid_joined);
  mem_invited : mirror valid_user_id valid_room_id
                  (db_map s userroomid_invitestate) (db_map s roomuserid_invitecount);
  mem_left : mirror valid_user_id valid_room_id
               (db_map s userroomid_leftstate) (db_map s roomuserid_leftcount);
  mem_joined_invited u r : in_tree s userroomid_joined u r → ¬ in_tree s userroomid_invitestate u r;
  mem_joined_left u r : in_tree s userroomid_joined u r → ¬ in_tree s userroomid_leftstate u r;
  mem_invited_left u r : in_tree s userroomid_invitestate u r → ¬ in_tree s userroomid_leftstate u r;
}.

(** The membership of a user in a room. *)
Definition membership s (u : UserId) (r : RoomId) : option Membership :=
  if bool_decide (in_tree s userroomid_joined u r) then Some Joined
  else if bool_decide (in_tree s userroomid_invitestate u r) then Some Invited
  else if bool_decide (in_tree s userroomid_leftstate u r) then Some Left
  else None.

Lemma membership_cases s u r :
  MemberInv s →
  (in_tree s userroomid_joined u r ↔ membership s u r = Some Joined) ∧
  (in_tree s userroomid_invitestate u r ↔ membership s u r = Some Invited) ∧
  (in_tree s userroomid_leftstate u r ↔ membership s u r = Some Left).
Proof.
  intros I. pose proof (mem_joined_invited s I u r). pose proof (mem_joined_left s I u r).
  pose proof (mem_invited_left s I u r). unfold membership.
  destruct (bool_decide (in_tree s userroomid_joined u r)) eqn:E1;
    [apply bool_decide_eq_true in E1|apply bool_decide_eq_false in E1; 
     destruct (bool_decide (in_tree s userroomid_invitestate u r)) eqn:E2;
     [apply bool_decide_eq_true in E2|apply bool_decide_eq_false in E2;
      destruct (bool_decide (in_tree s userroomid_leftstate u r)) eqn:E3;
      [apply bool_decide_eq_true in E3|apply bool_decide_eq_false in E3]]];
    split_and!; split; intros; try done; try tauto; congruence.
Qed.

(** The four ways the trees change: [t1]/[t2] gains the pair, the others lose it. *)
Definition joined_state (u : UserId) (r : RoomId) s : State :=
  del roomuserid_leftcount (idkey r u) (del userroomid_leftstate (idkey u r)
    (del roomuserid_invitecount (idkey r u) (del userroomid_invitestate (idkey u r)
      (put roomuserid_joined (idkey r u) [] (put userroomid_joined (idkey u r) [] s))))).
Definition invited_state (u : UserId) (r : RoomId) (st : option (list Raw)) s : State :=
  del roomuserid_leftcount (idkey r u) (del userroomid_leftstate (idkey u r)
    (del roomuserid_joined (idkey r u) (del userroomid_joined (idkey u r)
      (put roomuserid_invitecount (idkey r u) (to_be_bytes (count s + 1))
        (bump (put userroomid_invitestate (idkey u r) (to_vec (default [] st)) s)))))).
Definition left_state_of (u : UserId) (r : RoomId) s : State :=
  del roomuserid_invitecount (idkey r u) (del userroomid_invitestate (idkey u r)
    (del roomuserid_joined (idkey r u) (del userroomid_joined (idkey u r)
      (put roomuserid_leftcount (idkey r u) (to_be_bytes (count s + 1))
        (bump (put userroomid_leftstate (idkey u r) (to_vec ([] : list Raw)) s)))))).

Lemma mark_as_joined_run u r s : mark_as_joined u r s = (Ok (), joined_state u r s).
Proof. done. Qed.

Lemma mark_as_invited_run u r st s :
  mark_as_invited u r st s = (Ok (), invited_state u r st s).
Proof.
  unfold mark_as_invited. db_step. rewrite (bind_Ok _ _ _ _ _ (next_count_run _)). db_simpl.
  by rewrite to_be_bytes_wrap.
Qed.

Lemma mark_as_left_run u r s : mark_as_left u r s = (Ok (), left_state_of u r s).
Proof.
  unfold mark_as_left. db_step. rewrite (bind_Ok _ _ _ _ _ (next_count_run _)). db_simpl.
  by rewrite to_be_bytes_wrap.
Qed.

(** What a transition to [m] does to the membership of everyone. *)
Definition moves (u : UserId) (r : RoomId) (m : option Membership) s s' : Prop :=
  MemberInv s' ∧ ∀ u' r', membership s' u' r' = if decide ((u', r') = (u, r)) then m else membership s u' r'.

(** One tree gains the pair, the other two lose it. *)
Lemma moves_intro u r m s s' :
  MemberInv s →
  mirror valid_user_id valid_room_id (db_map s' userroomid_joined) (db_map s' roomuserid_joined) →
  mirror valid_user_id valid_room_id (db_map s' userroomid_invitestate) (db_map s' roomuserid_invitecount) →
  mirror valid_user_id valid_room_id (db_map s' userroomid_leftstate) (db_map s' roomuserid_leftcount) →
  (∀ u' r', in_tree s' userroomid_joined u' r' ↔
     if decide ((u', r') = (u, r)) then m = Some Joined else in_tree s userroomid_joined u' r') →
  (∀ u' r', in_tree s' userroomid_invitestate u' r' ↔
     if decide ((u', r') = (u, r)) then m = Some Invited else in_tree s userroomid_invitestate u' r') →
  (∀ u' r', in_tree s' userroomid_leftstate u' r' ↔
     if decide ((u', r') = (u, r)) then m = Some Left else in_tree s userroomid_leftstate u' r') →
  moves u r m s s'.
Proof.
  intros I M1 M2 M3 H1 H2 H3. split.
  - split; [done..| | |]; intros u' r'; rewrite ?H1, ?H2, ?H3; destruct (decide _);
      try congruence; apply I.
  - intros u' r'. unfold membership.
    specialize (H1 u' r'). specialize (H2 u' r'). specialize (H3 u' r'). destruct (decide _).
    + destruct m as [[]|]; repeat case_bool_decide; try done; intuition congruence.
    + by rewrite (bool_decide_ext _ _ H1), (bool_decide_ext _ _ H2), (bool_decide_ext _ _ H3).
Qed.

Lemma in_tree_insert s t u r v u' r' s' :
  db_map s' t = <[idkey u r := v]> (db_map s t) →
  in_tree s' t u' r' ↔ if decide ((u', r') = (u, r)) then True else in_tree s t u' r'.
Proof.
  intros E. unfold in_tree. rewrite E, lookup_idkey_insert. destruct (decide _); tauto.
Qed.
Lemma in_tree_delete s t u r u' r' s' :
  db_map s' t = delete (idkey u r) (db_map s t) →
  in_tree s' t u' r' ↔ if decide ((u', r') = (u, r)) then False else in_tree s t u' r'.
Proof.
  intros E. unfold in_tree. rewrite E, lookup_idkey_delete. destruct (decide _); tauto.
Qed.

Lemma moves_joined u r s : MemberInv s → moves u r (Some Joined) s (joined_state u r s).
Proof.
  intros I. apply moves_intro; [done|..]; unfold joined_state.
  - db_simpl. apply mirror_insert, I.
  - db_simpl. apply mirror_delete, I.
  - db_simpl. apply mirror_delete, I.
  - intros. rewrite in_tree_insert by (db_simpl; done). destruct (decide _); naive_solver.
  - intros. rewrite in_tree_delete by (db_simpl; done). destruct (decide _); naive_solver.
  - intros. rewrite in_tree_delete by (db_simpl; done). destruct (decide _); naive_solver.
Qed.

Lemma moves_invited u r st s : MemberInv s → moves u r (Some Invited) s (invited_state u r st s).
Proof.
  intros I. apply moves_intro; [done|..]; unfold invited_state.
  - db_simpl. apply mirror_delete, I.
  - db_simpl. apply mirror_insert, I.
  - db_simpl. apply mirror_delete, I.
  - intros. rewrite in_tree_delete by (db_simpl; done). destruct (decide _); naive_solver.
  - intros. rewrite in_tree_insert by (db_simpl; done). destruct (decide _); naive_solver.
  - intros. rewrite in_tree_delete by (db_simpl; done). destruct (decide _); naive_solver.
Qed.

Lemma moves_left u r s : MemberInv s → moves u r (Some Left) s (left_state_of u r s).
Proof.
  intros I. apply moves_intro; [done|..]; unfold left_state_of.
  - db_simpl. apply mirror_delete, I.
  - db_simpl. apply mirror_delete, I.
  - db_simpl. apply mirror_insert, I.
  - intros. rewrite in_tree_delete by (db_simpl; done). destruct (decide _); naive_solver.
  - intros. rewrite in_tree_delete by (db_simpl; done). destruct (decide _); naive_solver.
  - intros. rewrite in_tree_insert by (db_simpl; done). destruct (decide _); naive_solver.
Qed.

Lemma forget_run r u s :
  forget r u s = (Ok (), del roomuserid_leftcount (idkey r u) (del userroomid_leftstate (idkey u r) s)).
Proof. done. Qed.

Lemma moves_forget u r s :
  MemberInv s →
  moves u r (if decide (membership s u r = Some Left) then None else membership s u r) s (forget r u s).2.
Proof.
  intros I. rewrite forget_run. cbn [snd]. destruct (membership_cases s u r I) as (H1 & H2 & H3).
  apply moves_intro; [done|..].
  - db_simpl. apply I.
  - db_simpl. apply I.
  - db_simpl. apply mirror_delete, I.
  - intros u' r'. unfold in_tree at 1. db_simpl. fold (in_tree s userroomid_joined u' r').
    destruct (decide ((u', r') = (u, r))) as [[= -> ->]|]; [|done]. rewrite H1.
    destruct (decide _) as [E|]; [|done]. rewrite E. naive_solver.
  - intros u' r'. unfold in_tree at 1. db_simpl. fold (in_tree s userroomid_invitestate u' r').
    destruct (decide ((u', r') = (u, r))) as [[= -> ->]|]; [|done]. rewrite H2.
    destruct (decide _) as [E|]; [|done]. rewrite E. naive_solver.
  - intros. rewrite in_tree_delete by (db_simpl; done). destruct (decide ((_, _) = _)); [|done].
    destruct (decide _); naive_solver.
Qed.

(** *** The operations as a machine, and its specification *)

Inductive MemberOp :=
  | OpJoin (u : UserId) (r : RoomId)
  | OpInvite (u : UserId) (r : RoomId) (state : option (list Raw))
  | OpLeave (u : UserId) (r : RoomId)
  | OpForget (u : UserId) (r : RoomId).

Definition run_op (o : MemberOp) : DB unit :=
  match o with
  | OpJoin u r => mark_as_joined u r
  | OpInvite u r st => mark_as_invited u r st
  | OpLeave u r => mark_as_left u r
  | OpForget u r => forget r u
  end.

(** The specification: one table of memberships. *)
Definition spec_op (f : UserId → RoomId → option Membership) (o : MemberOp)
    : UserId → RoomId → option Membership := λ u' r',
  match o with
  | OpJoin u r => if decide ((u', r') = (u, r)) then Some Joined else f u' r'
  | OpInvite u r _ => if decide ((u', r') = (u, r)) then Some Invited else f u' r'
  | OpLeave u r => if decide ((u', r') = (u, r)) then Some Left else f u' r'
  | OpForget u r =>
      if decide ((u', r') = (u, r)) then
        (if decide (f u r = Some Left) then None else f u r)
      else f u' r'
  end.

Lemma run_op_refines o s :
  MemberInv s →
  ∃ s', run_op o s = (Ok (), s') ∧ MemberInv s' ∧ ∀ u r, membership s' u r = spec_op (membership s) o u r.
Proof.
  intros I. destruct o as [u r|u r st|u r|u r]; cbn [run_op spec_op]; eexists.
  - split; [apply mark_as_joined_run|]. by apply moves_joined.
  - split; [apply mark_as_invited_run|]. by apply moves_invited.
  - split; [apply mark_as_left_run|]. by apply moves_left.
  - split; [apply forget_run|]. by apply (moves_forget u r s).
Qed.

(** C6: any sequence of joins, invitations, leaves and forgets succeeds, keeps
    the six membership trees consistent (each pair of trees mirrors the other,
    and nobody has two memberships in a room), and what the trees say is what a
    single table of memberships would say after the same sequence. *)
Theorem membership_refinement ops s :
  MemberInv s →
  ∃ s', for_each ops run_op s = (Ok (), s') ∧ MemberInv s' ∧
    ∀ u r, membership s' u r = foldl spec_op (membership s) ops u r.
Proof.
  intros I.
  enough (∀ f, (∀ u r, membership s u r = f u r) → ∃ s', for_each ops run_op s = (Ok (), s') ∧
    MemberInv s' ∧ ∀ u r, membership s' u r = foldl spec_op f ops u r) as H by (by apply H).
  revert s I. induction ops as [|o ops IH]; intros s I f Hf.
  { exists s. done. }
  cbn [for_each foldl] in *.
  destruct (run_op_refines o s I) as (s1 & Hrun & I1 & Hm1).
  destruct (IH s1 I1) with (f := spec_op f o) as (s' & Hrun' & I' & Hm').
  - intros u r. rewrite Hm1. destruct o; cbn [spec_op]; repeat case_decide; rewrite ?Hf in *; done.
  - exists s'. split; [|done]. by rewrite (bind_Ok _ _ _ _ _ Hrun).
Qed.

Lemma is_joined_run u r s : MemberInv s → is_joined u r s = (Ok (bool_decide (membership s u r = Some Joined)), s).
Proof.
  intros I. destruct (membership_cases s u r I) as (H & _). unfold is_joined. db_step. by rewrite (bool_decide_ext _ _ H).
Qed.
Lemma room_members_run r s :
  MemberInv s → ∃ us, room_members r s = (Ok (Ok <$> us), s) ∧ NoDup us ∧ ∀ u, u ∈ us ↔ membership s u r = Some Joined.
Proof.
  intros I. destruct (scan_idkey_parse "User ID in roomuserid_joined is invalid unicode."
    "User ID in roomuserid_joined is invalid." _ r (mirror_keyed2 _ _ (mem_joined s I))) as (us & E & Hnd & Hus).
  exists us. unfold room_members, scan_last. db_step. rewrite E. split_and!; try done. intros u.
  rewrite Hus, <- (mirror_iff _ _ (mem_joined s I)). apply membership_cases, I.
Qed.

(** The queries and the member lists agree with the memberships: the three
    tests are exclusive, and the listed members are exactly the joined
    (invited) users, each once and without error. *)
Theorem membership_queries u r s :
  MemberInv s →
  is_joined u r s = (Ok (bool_decide (membership s u r = Some Joined)), s) ∧
  is_invited u r s = (Ok (bool_decide (membership s u r = Some Invited)), s) ∧
  is_left u r s = (Ok (bool_decide (membership s u r = Some Left)), s) ∧
  (∃ us, room_members r s = (Ok (Ok <$> us), s) ∧ NoDup us ∧ (u ∈ us ↔ membership s u r = Some Joined)) ∧
  (∃ us, room_members_invited r s = (Ok (Ok <$> us), s) ∧ NoDup us ∧ (u ∈ us ↔ membership s u r = Some Invited)).
Proof.
  intros I. destruct (membership_cases s u r I) as (H1 & H2 & H3). split_and!.
  - by apply is_joined_run.
  - unfold is_invited. db_step. by rewrite (bool_decide_ext _ _ H2).
  - unfold is_left. db_step. by rewrite (bool_decide_ext _ _ H3).
  - destruct (room_members_run r s I) as (us & ? & ? & Hus). by exists us.
  - destruct (scan_idkey_parse "User ID in roomuserid_invited is invalid unicode."
      "User ID in roomuserid_invited is invalid." _ r (mirror_keyed2 _ _ (mem_invited s I))) as (us & E & Hnd & Hus).
    exists us. unfold room_members_invited, scan_last. db_step. rewrite E. split_and!; try done.
    rewrite Hus, <- (mirror_iff _ _ (mem_invited s I)). exact H2.
Qed.

(** ** Derived data *)

Abbreviation room_servers_mirror s :=
  (mirror valid_room_id valid_server_name (db_map s roomserverids) (db_map s serverroomids)).

Definition recorded s (r : RoomId) (srv : ServerName) : Prop :=
  is_Some (db_map s roomserverids !! idkey r srv).

(** A user of this server whose account is active. *)
Definition real_user s (u : UserId) : Prop :=
  user_server_name u = server_name ∧
  match db_map s userid_password !! idb u with Some b => b ≠ [] | None => False end.
#[local] Instance real_user_dec s u : Decision (real_user s u).
Proof. unfold real_user. destruct (db_map s userid_password !! idb u); apply _. Defined.

Lemma is_deactivated_run u s :
  is_deactivated u s =
  (match db_map s userid_password !! idb u with
   | Some b => Ok (bool_decide (b = []))
   | None => Err (BadRequest InvalidParam "User does not exist.")
   end, s).
Proof. unfold is_deactivated. db_step. by destruct (db_map s userid_password !! idb u). Qed.

Lemma count_member_run js ru n u s :
  count_member (js, ru, n) u s =
  (Ok ({[user_server_name u]} ∪ js, (if decide (real_user s u) then {[u]} ∪ ru else ru), n + 1), s).
Proof.
  destruct (decide (real_user s u)) as [[Hs Hp]|Hn]; unfold count_member.
  - rewrite decide_True by done. unfold try_ok, mbind, M_bind. rewrite is_deactivated_run.
    destruct (db_map s userid_password !! idb u) as [p|]; [|done]. by rewrite bool_decide_false.
  - destruct (decide (user_server_name u = server_name)) as [Hs|]; [|done].
    unfold try_ok, mbind, M_bind. rewrite is_deactivated_run. unfold real_user in Hn.
    destruct (db_map s userid_password !! idb u) as [p|]; [|done].
    destruct (decide (p = [])); [by rewrite bool_decide_true|]. by destruct Hn.
Qed.

Lemma count_members_run us js ru n s :
  for_fold us (js, ru, n) count_member s =
  (Ok (list_to_set (user_server_name <$> us) ∪ js,
       list_to_set (filter (real_user s) us) ∪ ru, n + N.of_nat (length us)), s).
Proof.
  revert js ru n. induction us as [|u us IH]; intros js ru n; cbn [for_fold].
  { rewrite N.add_0_r. unfold mret, M_ret. cbn. by rewrite !(left_id_L ∅ (∪)). }
  rewrite (bind_Ok _ _ _ _ _ (count_member_run _ _ _ _ _)), IH. do 2 f_equal. f_equal; [f_equal|].
  - csimpl. set_solver.
  - rewrite filter_cons. destruct (decide (real_user s u)); set_solver.
  - cbn [length]. lia.
Qed.

Lemma drop_old_server_run r js o s :
  drop_old_server r js o s =
  if decide (o ∈ js) then (Ok (js ∖ {[o]}), s)
  else (Ok js, del serverroomids (idkey o r) (del roomserverids (idkey r o) s)).
Proof. unfold drop_old_server. by destruct (decide (o ∈ js)). Qed.

(** Dropping the recorded servers that no member is on. *)
Lemma drop_servers_run r os js s :
  NoDup os → room_servers_mirror s →
  ∃ s', for_fold os js (drop_old_server r) s = (Ok (js ∖ list_to_set os), s') ∧ room_servers_mirror s' ∧
    frame [roomserverids; serverroomids] s s' ∧
    ∀ r' srv, recorded s' r' srv ↔ recorded s r' srv ∧ ¬ (r' = r ∧ srv ∈ os ∧ srv ∉ js).
Proof.
  revert js s. induction os as [|o os IH]; intros js s Hnd Hm; cbn [for_fold].
  { exists s. replace (js ∖ list_to_set []) with js by set_solver. split_and!; try done.
    intros. split; [|tauto]. intros ?. split; [done|]. by intros (_ & ?%not_elem_of_nil & _). }
  apply NoDup_cons in Hnd as [Ho Hnd]. pose proof (drop_old_server_run r js o s) as Hdrop.
  destruct (decide (o ∈ js)) as [Hjs|Hjs]; rewrite (bind_Ok _ _ _ _ _ Hdrop).
  - destruct (IH (js ∖ {[o]}) s Hnd Hm) as (s' & Hrun & Hm' & Hf & Hr). exists s'.
    split_and!; try done.
    { rewrite Hrun. do 2 f_equal. set_solver. }
    intros r' srv. rewrite Hr. set_solver.
  - set (s1 := del serverroomids (idkey o r) (del roomserverids (idkey r o) s)).
    destruct (IH js s1 Hnd) as (s' & Hrun & Hm' & Hf & Hr); [unfold s1; db_simpl; by apply mirror_delete|].
    exists s'. split_and!; try done.
    + fold s1. rewrite Hrun. do 2 f_equal. set_solver.
    + eapply frame_trans, Hf. unfold s1. repeat (apply frame_del; [set_solver|]). apply frame_refl.
    + intros r' srv. rewrite Hr. unfold recorded, s1. db_simpl. rewrite lookup_idkey_delete.
      rewrite elem_of_cons. split; [|naive_solver].
      intros ((Hne & ?) & Hn). split; [done|]. naive_solver.
Qed.

Lemma add_servers_run r l s :
  room_servers_mirror s →
  ∃ s', for_each l (add_server r) s = (Ok (), s') ∧ room_servers_mirror s' ∧
    frame [roomserverids; serverroomids] s s' ∧
    ∀ r' srv, recorded s' r' srv ↔ recorded s r' srv ∨ (r' = r ∧ srv ∈ l).
Proof.
  revert s. induction l as [|x l IH]; intros s Hm; cbn [for_each].
  { exists s. split_and!; try done. intros. split; [tauto|].
    intros [?|[_ ?%not_elem_of_nil]]; done. }
  set (s1 := put serverroomids (idkey x r) [] (put roomserverids (idkey r x) [] s)).
  destruct (IH s1) as (s' & Hrun & Hm' & Hf & Hr); [unfold s1; db_simpl; by apply mirror_insert|].
  exists s'. split_and!; try done.
  - eapply frame_trans, Hf. unfold s1. repeat (apply frame_put; [set_solver|]). apply frame_refl.
  - intros r' srv. rewrite Hr. unfold recorded, s1. db_simpl. rewrite lookup_idkey_insert, elem_of_cons.
    naive_solver.
Qed.

Lemma filter_map_ok_fmap {A} (l : list A) : filter_map ok (Ok <$> l) = l.
Proof. unfold filter_map. induction l as [|x l IH]; [done|]. csimpl. by rewrite IH. Qed.

(** A scan of a keyed tree lists the second parts. *)
Lemma scan_last_run {va vb} t u w (x : identifier va) s :
  id_keyed (va := va) (vb := vb) (db_map s t) →
  ∃ ys, scan_last (vb := vb) t u w x s = (Ok (Ok <$> ys), s) ∧ NoDup ys ∧
    ∀ y, y ∈ ys ↔ is_Some (db_map s t !! idkey x y).
Proof.
  intros Hk. destruct (scan_idkey_parse u w _ x Hk) as (ys & E & Hnd & Hys).
  exists ys. unfold scan_last. db_step. rewrite E. done.
Qed.

(** What an update of the derived data leaves: [us] and [inv] are the joined and
    the invited users. *)
Definition counted (r : RoomId) s (us inv : list UserId) s' : Prop :=
  NoDup us ∧ NoDup inv ∧
  (∀ u, u ∈ us ↔ membership s u r = Some Joined) ∧
  (∀ u, u ∈ inv ↔ membership s u r = Some Invited) ∧
  db_map s' roomid_joinedcount !! idb r = Some (to_be_bytes (N.of_nat (length us))) ∧
  db_map s' roomid_invitedcount !! idb r = Some (to_be_bytes (N.of_nat (length inv))) ∧
  our_real_users_cache s' !! r = Some (list_to_set (filter (real_user s) us)) ∧
  room_servers_mirror s' ∧
  (∀ srv, recorded s' r srv ↔ ∃ u, u ∈ us ∧ user_server_name u = srv) ∧
  (∀ r' srv, r' ≠ r → recorded s' r' srv ↔ recorded s r' srv) ∧
  (∀ u r', membership s' u r' = membership s u r') ∧
  appservice_in_room_cache s' !! r = None.

Lemma update_joined_count_run r s :
  MemberInv s → room_servers_mirror s →
  ∃ s' us inv, update_joined_count r s = (Ok (), s') ∧ counted r s us inv s'.
Proof.
  intros I Hm.
  destruct (scan_last_run (vb := valid_user_id) roomuserid_joined "User ID in roomuserid_joined is invalid unicode."
      "User ID in roomuserid_joined is invalid." r s (mirror_keyed2 _ _ (mem_joined s I))) as (us & Eus & Hnd & Hus).
  destruct (scan_last_run (vb := valid_user_id) roomuserid_invitecount "User ID in roomuserid_invited is invalid unicode."
      "User ID in roomuserid_invited is invalid." r s (mirror_keyed2 _ _ (mem_invited s I))) as (inv & Einv & Hndi & Hinv).
  set (servers := list_to_set (user_server_name <$> us) ∪ ∅ : gset ServerName).
  set (real := list_to_set (filter (real_user s) us) ∪ ∅ : gset UserId).
  set (s1 := set_our_real_users_cache (<[r := real]> (our_real_users_cache s))
               (put roomid_invitedcount (idb r) (to_be_bytes (N.of_nat (length inv)))
                  (put roomid_joinedcount (idb r) (to_be_bytes (0 + N.of_nat (length us))) s))).
  assert (room_servers_mirror s1) as Hm1 by (unfold s1; by db_simpl).
  destruct (scan_last_run (vb := valid_server_name) roomserverids "Server name in roomserverids is invalid unicode."
      "Server name in roomserverids is invalid." r s1 (mirror_keyed1 _ _ Hm1)) as (os & Eos & Hndo & Hos).
  destruct (drop_servers_run r os servers s1 Hndo Hm1) as (s2 & E2 & Hm2 & Hf2 & Hr2).
  destruct (add_servers_run r (elements (servers ∖ list_to_set os)) s2 Hm2) as (s3 & E3 & Hm3 & Hf3 & Hr3).
  assert (frame [roomserverids; serverroomids] s1 s3) as Hf by (by eapply frame_trans).
  exists (set_appservice_in_room_cache (delete r (appservice_in_room_cache s3)) s3), us, inv.
  split; [|split_and!; try done].
  - unfold update_joined_count.
    rewrite (bind_Ok _ _ _ _ _ Eus), filter_map_ok_fmap.
    rewrite (bind_Ok _ _ _ _ _ (count_members_run _ _ _ _ _)), (bind_Ok _ _ _ _ _ Einv), filter_map_ok_fmap.
    db_run. rewrite (bind_Ok _ _ _ _ _ Eos), filter_map_ok_fmap, (bind_Ok _ _ _ _ _ E2).
    by rewrite (bind_Ok _ _ _ _ _ E3).
  - intros u. rewrite Hus, <- (mirror_iff _ _ (mem_joined s I)). by apply membership_cases.
  - intros u. rewrite Hinv, <- (mirror_iff _ _ (mem_invited s I)). by apply membership_cases.
  - db_simpl. rewrite (fr_trees _ _ _ Hf) by set_solver. unfold s1. db_simpl. by rewrite lookup_insert_eq.
  - db_simpl. rewrite (fr_trees _ _ _ Hf) by set_solver. unfold s1. db_simpl. by rewrite lookup_insert_eq.
  - cbn. rewrite (fr_users _ _ _ Hf). unfold s1. cbn. rewrite lookup_insert_eq. f_equal. set_solver.
  - intros srv. change (recorded s3 r srv ↔ ∃ u, u ∈ us ∧ user_server_name u = srv).
    rewrite Hr3, Hr2. rewrite (elem_of_elements (servers ∖ list_to_set os)).
    assert (srv ∈ servers ↔ ∃ u, u ∈ us ∧ user_server_name u = srv) as <-.
    { unfold servers. rewrite (right_id_L ∅ (∪)), elem_of_list_to_set, list_elem_of_fmap. naive_solver. }
    specialize (Hos srv). change (srv ∈ os ↔ recorded s1 r srv) in Hos. split.
    + intros [[Hrec Hn]|[_ [? _]%elem_of_difference]]; [|done].
      destruct (decide (srv ∈ servers)); [done|]. destruct Hn. by rewrite Hos.
    + intros Hs. destruct (decide (srv ∈ os)) as [Hin|Hnin]; [left|right].
      * split; [by apply Hos|]. by intros (_ & _ & ?).
      * split; [done|]. set_solver.
  - intros r' srv Hne. change (recorded s3 r' srv ↔ recorded s r' srv). rewrite Hr3, Hr2.
    assert (recorded s1 r' srv ↔ recorded s r' srv) as -> by (unfold recorded, s1; by db_simpl).
    split; [|intros ?; left; split; [done|by intros [? _]]].
    intros [[? _]|[? _]]; done.
  - intros u r'. unfold membership, in_tree. db_simpl. rewrite !(fr_trees _ _ _ Hf) by set_solver.
    unfold s1. by db_simpl.
  - cbn. by rewrite lookup_delete_eq.
Qed.

(** After [update_joined_count] the counts of the room are the numbers of its
    joined and invited users, the recorded servers of the room are exactly the
    servers of its joined users (in both trees), the servers of other rooms are
    as before, the cache holds the active local members, and the membership of
    nobody changed. *)
Theorem update_joined_count_correct r s :
  MemberInv s → room_servers_mirror s →
  ∃ s' us inv, update_joined_count r s = (Ok (), s') ∧ NoDup us ∧ NoDup inv ∧
    (∀ u, u ∈ us ↔ membership s u r = Some Joined) ∧
    (∀ u, u ∈ inv ↔ membership s u r = Some Invited) ∧
    db_map s' roomid_joinedcount !! idb r = Some (to_be_bytes (N.of_nat (length us))) ∧
    db_map s' roomid_invitedcount !! idb r = Some (to_be_bytes (N.of_nat (length inv))) ∧
    our_real_users_cache s' !! r = Some (list_to_set (filter (real_user s) us)) ∧
    room_servers_mirror s' ∧
    (∀ srv, recorded s' r srv ↔ ∃ u, u ∈ us ∧ user_server_name u = srv) ∧
    (∀ r' srv, r' ≠ r → recorded s' r' srv ↔ recorded s r' srv) ∧
    (∀ u r', membership s' u r' = membership s u r') ∧
    appservice_in_room_cache s' !! r = None.
Proof. apply update_joined_count_run. Qed.

(** ** Two scans with the wrong prefix *)

(** [rooms_joined] scans the user id without the separator that ends it: it
    also returns the rooms of every user whose id extends the given one (as
    [@a:x.com] extends [@a:x.co]). *)
Theorem rooms_joined_extends u u' r s :
  MemberInv s → idb u `prefix_of` idb u' → membership s u' r = Some Joined →
  ∃ l, rooms_joined u s = (Ok l, s) ∧ Ok r ∈ l.
Proof.
  intros I Hp Hj. apply membership_cases in Hj as [v Hv]; [|done].
  unfold rooms_joined. db_step. eexists. split; [done|]. apply list_elem_of_fmap.
  exists (idkey u' r, v). cbn [fst]. unfold idkey. rewrite parse_last_key2. split; [done|].
  apply elem_of_with_prefix. split; [done|]. etrans; [done|]. by exists (sep :: idb r).
Qed.

(** [mark_as_once_joined] stores the user before the room, while
    [room_useroncejoined] scans for the room first: it never finds anybody
    (user ids and room ids being different strings). *)
Theorem room_useroncejoined_empty u r s :
  (∀ (u : UserId) (r : RoomId), idb u ≠ idb r) →
  id_keyed (va := valid_user_id) (vb := valid_room_id) (db_map s roomuseroncejoinedids) →
  let s' := (mark_as_once_joined u r s).2 in
  once_joined u r s' = (Ok true, s') ∧ room_useroncejoined r s' = (Ok [], s').
Proof.
  intros Hne Hk s'. unfold s', mark_as_once_joined. rewrite t_insert_run. cbn [snd]. split.
  - unfold once_joined. db_step. db_simpl. rewrite lookup_insert_eq, bool_decide_true; done.
  - unfold room_useroncejoined, scan_last. db_step. db_simpl. rewrite with_prefix_empty; [done|].
    intros k v Hv. apply (id_keyed_insert (va := valid_user_id) (vb := valid_room_id) _ u r []) in Hk.
    destruct (Hk k v Hv) as (u' & r' & ->). intros Hp.
    apply key2_prefix in Hp; [|auto with kv..]. by apply (Hne u' r).
Qed.
End state_cache.
