(* ===== verification/DeviceKeys.v ===== *)
(** * End-to-end encryption keys
    ([src/database/key_value/users.rs], [clean_signatures] of [src/service/users/mod.rs])

    One-time keys, device keys, cross-signing keys with their signatures, and the
    log of key changes that clients follow. *)

From S2P Require Import Prelude Bytes RStr Error Utils KvTree Env Db Keys Globals Short Timeline StateAccessor Users StateCache.

Section device_keys.
Context {Ev : Env}.
Implicit Types s : State.

(** ** The log of key changes *)

Definition mark_device_key_update (user_id : UserId) : DB unit :=
  count ← next_count;
  rooms ← rooms_joined user_id;
  for_each (filter_map ok rooms) (λ room_id,
    o ← room_state_get room_id (lit "m.room.encryption") (lit "");
    match o with
    | None => mret ()
    | Some _ => t_insert keychangeid_userid (key2 (idb room_id) (to_be_bytes count)) (idb user_id)
    end) ;;
  t_insert keychangeid_userid (key2 (idb user_id) (to_be_bytes count)) (idb user_id).

(** The test of [take_while]: a change of [user_or_room_id] up to [to]. *)
Definition change_until (prefix : bytes) (to : N) (e : entry) : bool :=
  starts_with e.1 prefix &&
  match splitn_ff 2 e.1 !! 1%nat with
  | Some current => match u64_from_bytes current with Some c => bool_decide (c ≤ to) | None => false end
  | None => false
  end.

Definition keys_changed (user_or_room_id : rstr) (from : N) (to : option N) : DB (list (res UserId)) :=
  let prefix := as_bytes user_or_room_id ++ [sep] in
  let start := prefix ++ to_be_bytes (from + 1) in
  let to := default u64_max to in
  l ← t_iter_from keychangeid_userid start false;
  mret ((λ e : entry, parse_bytes "User ID in devicekeychangeid_userid is invalid unicode."
                        "User ID in devicekeychangeid_userid is invalid." e.2) <$>
        take_while (change_until prefix to) l).

(** ** One-time keys *)

Definition add_one_time_key (user_id : UserId) (device_id : DeviceId) (one_time_key_key : DeviceKeyId)
    (one_time_key_value : Raw) : DB unit :=
  let ud := userdeviceid user_id device_id in
  m ← t_get userdeviceid_metadata ud;
  lift (assert (bool_decide (is_Some m))) ;;
  t_insert onetimekeyid_onetimekeys (key2 ud (to_vec one_time_key_key)) (to_vec one_time_key_value) ;;
  count ← next_count;
  t_insert userid_lastonetimekeyupdate (idb user_id) (to_be_bytes count).

Definition last_one_time_keys_update (user_id : UserId) : DB N :=
  o ← t_get userid_lastonetimekeyupdate (idb user_id);
  lift (match o with
        | Some b => parse_u64 "Count in roomid_lastroomactiveupdate is invalid." b
        | None => Ok 0
        end).

(** The id of a one-time key from the key it is stored under. *)
Definition parse_otk_id (missing invalid : string) (key : bytes) : res DeviceKeyId :=
  b ← ok_or (rsplit_ff key !! 0%nat) (BadDatabase missing);
  parse_json invalid b.

Definition otk_prefix (user_id : UserId) (device_id : DeviceId) (algorithm : rstr) : bytes :=
  userdeviceid user_id device_id ++ [sep] ++ [x22] ++ as_bytes algorithm ++ [x3a].

Definition take_one_time_key (user_id : UserId) (device_id : DeviceId) (key_algorithm : rstr)
    : DB (option (DeviceKeyId * Raw)) :=
  count ← next_count;
  t_insert userid_lastonetimekeyupdate (idb user_id) (to_be_bytes count) ;;
  l ← t_scan_prefix onetimekeyid_onetimekeys (otk_prefix user_id device_id key_algorithm);
  match l with
  | [] => mret None
  | (key, value) :: _ =>
      t_remove onetimekeyid_onetimekeys key ;;
      id ← lift (parse_otk_id "OneTimeKeyId in db is invalid." "OneTimeKeyId in db is invalid." key);
      v ← lift (parse_json "OneTimeKeys in db are invalid." value);
      mret (Some (id, v))
  end.

(** One entry of the loop: the count of its algorithm goes up. *)
Definition count_entry (counts : gmap rstr N) (e : entry) : DB (gmap rstr N) :=
  id ← lift (parse_otk_id "OneTimeKey ID in db is invalid." "DeviceKeyId in db is invalid." e.1);
  let algorithm := device_key_algorithm id in
  mret (<[algorithm := default 0 (counts !! algorithm) + 1]> counts).

(** The scanned prefix is the device id without the separator. *)
Definition count_one_time_keys (user_id : UserId) (device_id : DeviceId) : DB (gmap rstr N) :=
  l ← t_scan_prefix onetimekeyid_onetimekeys (userdeviceid user_id device_id);
  for_fold l ∅ count_entry.

(** ** Device and cross-signing keys *)

Definition add_device_keys (user_id : UserId) (device_id : DeviceId) (device_keys : Raw) : DB unit :=
  t_insert keyid_key (userdeviceid user_id device_id) (to_vec device_keys) ;;
  mark_device_key_update user_id.

Definition get_device_keys (user_id : UserId) (device_id : DeviceId) : DB (option Raw) :=
  o ← t_get keyid_key (userdeviceid user_id device_id);
  lift (transpose (parse_json "DeviceKeys in db are invalid." <$> o)).

(** The one key id of a cross-signing key. *)
Definition single_key_id (invalid none many : string) (key : Raw) : res rstr :=
  ids ← ok_or (cross_signing_key_ids key) (BadRequest InvalidParam invalid);
  id ← ok_or (ids !! 0%nat) (BadRequest InvalidParam none);
  if bool_decide (is_Some (ids !! 1%nat)) then Err (BadRequest InvalidParam many) else Ok id.

(** Stores a cross-signing key and the pointer of its kind. *)
Definition store_cross_signing (t : TreeId) (user_id : UserId) (invalid none many : string) (key : Raw)
    : DB unit :=
  id ← lift (single_key_id invalid none many key);
  let key_key := key2 (idb user_id) (as_bytes id) in
  t_insert keyid_key key_key (raw_text key) ;;
  t_insert t (idb user_id) key_key.

Definition add_cross_signing_keys (user_id : UserId) (master_key : Raw)
    (self_signing_key user_signing_key : option Raw) : DB unit :=
  store_cross_signing userid_masterkeyid user_id "Invalid master key" "Master key contained no key."
    "Master key contained more than one key." master_key ;;
  match self_signing_key with
  | Some k => store_cross_signing userid_selfsigningkeyid user_id "Invalid self signing key"
                "Self signing key contained no key." "Self signing key contained more than one key." k
  | None => mret ()
  end ;;
  match user_signing_key with
  | Some k => store_cross_signing userid_usersigningkeyid user_id "Invalid user signing key"
                "User signing key contained no key." "User signing key contained more than one key." k
  | None => mret ()
  end ;;
  mark_device_key_update user_id.

Definition as_object (v : json) : option (list (rstr * json)) :=
  match v with JObj l => Some l | _ => None end.

(** Adds a signature to the JSON of a key. *)
Definition with_signature (key : json) (signature : rstr * rstr) (sender_id : UserId) : res json :=
  sigs ← ok_or (json_get (lit "signatures") key) (BadDatabase "key in keyid_key has no signatures field.");
  sigs ← ok_or (as_object sigs) (BadDatabase "key in keyid_key has invalid signatures field.");
  user_sigs ← ok_or (as_object (default (JObj []) (obj_get (as_str sender_id) sigs)))
                (BadDatabase "signatures in keyid_key for a user is invalid.");
  fields ← ok_or (as_object key) (BadDatabase "key in keyid_key has no signatures field.");
  let user_sigs := obj_insert signature.1 (JStr signature.2) user_sigs in
  Ok (JObj (obj_insert (lit "signatures") (JObj (obj_insert (as_str sender_id) (JObj user_sigs) sigs)) fields)).

Definition sign_key (target_id : UserId) (key_id : rstr) (signature : rstr * rstr) (sender_id : UserId)
    : DB unit :=
  let key := key2 (idb target_id) (as_bytes key_id) in
  o ← t_get keyid_key key;
  b ← lift (ok_or o (BadRequest InvalidParam "Tried to sign nonexistent key."));
  cross_signing_key ← lift (parse_json "key in keyid_key is invalid." b);
  cross_signing_key ← lift (with_signature cross_signing_key signature sender_id);
  t_insert keyid_key key (to_vec cross_signing_key) ;;
  mark_device_key_update target_id.

(** [for (user, signature) in mem::replace(signatures, ..) { .. }] *)
Fixpoint clean_loop (user_id : UserId) (allowed : UserId → bool) (old signatures : list (rstr * json))
    : res (list (rstr * json)) :=
  match old with
  | [] => Ok signatures
  | (user, signature) :: old =>
      id ← ok_or (parse_id valid_user_id user) (BadDatabase "Invalid user ID in database.");
      if bool_decide (id = user_id) || allowed id then
        clean_loop user_id allowed old (obj_insert user signature signatures)
      else clean_loop user_id allowed old signatures
  end.

Definition clean_signatures (cross_signing_key : json) (user_id : UserId) (allowed : UserId → bool)
    : res json :=
  match as_object cross_signing_key with
  | None => Ok cross_signing_key
  | Some fields =>
      match obj_get (lit "signatures") fields ≫= as_object with
      | None => Ok cross_signing_key
      | Some signatures =>
          cleaned ← clean_loop user_id allowed signatures [];
          Ok (JObj (obj_insert (lit "signatures") (JObj cleaned) fields))
      end
  end.

(** The stored key behind a pointer, with the signatures the caller may see. *)
Definition cleaned_key (t : TreeId) (user_id : UserId) (allowed : UserId → bool) : DB (option Raw) :=
  o ← t_get t (idb user_id);
  match o with
  | None => mret None
  | Some key =>
      b ← t_get keyid_key key;
      match b with
      | None => mret None
      | Some bs =>
          k ← lift (parse_json "CrossSigningKey in db is invalid." bs);
          k ← lift (clean_signatures k user_id allowed);
          mret (Some (to_raw_value k))
      end
  end.

Definition get_master_key (user_id : UserId) (allowed_signatures : UserId → bool) : DB (option Raw) :=
  cleaned_key userid_masterkeyid user_id allowed_signatures.

Definition get_self_signing_key (user_id : UserId) (allowed_signatures : UserId → bool) : DB (option Raw) :=
  cleaned_key userid_selfsigningkeyid user_id allowed_signatures.

Definition get_user_signing_key (user_id : UserId) : DB (option Raw) :=
  o ← t_get userid_usersigningkeyid (idb user_id);
  match o with
  | None => mret None
  | Some key =>
      b ← t_get keyid_key key;
      lift (transpose (parse_json "CrossSigningKey in db is invalid." <$> b))
  end.

(** ** Key changes *)

Definition change_key (x : rstr) (c : N) : bytes := key2 (as_bytes x) (to_be_bytes c).

Definition changes_keyed s : Prop :=
  ∀ k v, db_map s keychangeid_userid !! k = Some v → ∃ x c, u64 c ∧ k = change_key x c.

Lemma change_key_prefix x y c : (as_bytes x ++ [sep]) `prefix_of` change_key y c ↔ x = y.
Proof.
  unfold change_key. rewrite key2_prefix by auto with kv. split; [by intros ?%(inj as_bytes)|by intros ->].
Qed.

Lemma change_key_lt x c c' : u64 c → u64 c' → change_key x c <b change_key x c' ↔ c < c'.
Proof. intros. unfold change_key. by rewrite key2_lt, to_be_bytes_lt. Qed.

Lemma change_until_key x y c v to :
  u64 c → change_until (as_bytes x ++ [sep]) to (change_key y c, v) = bool_decide (x = y ∧ c ≤ to).
Proof.
  intros Hc. unfold change_until. cbn [fst]. destruct (decide (x = y)) as [->|Hne].
  - assert (starts_with (change_key y c) (as_bytes y ++ [sep]) = true) as ->
      by (by apply starts_with_iff, change_key_prefix).
    unfold change_key, key2. rewrite splitn2_app by auto with kv. cbn. rewrite u64_from_be_u64 by done.
    apply bool_decide_ext. tauto.
  - assert (starts_with (change_key y c) (as_bytes x ++ [sep]) = false) as ->
      by (apply starts_with_false; by rewrite change_key_prefix).
    rewrite bool_decide_false; [done|]. by intros [? _].
Qed.

(** [keys_changed] lists exactly the users whose keys changed after [from] and
    not after [to], in the order of the changes. *)
Theorem keys_changed_correct x from to s :
  changes_keyed s → from + 1 < 2 ^ 64 →
  ∃ l, keys_changed x from to s =
         (Ok ((λ e : entry, parse_bytes "User ID in devicekeychangeid_userid is invalid unicode."
                 "User ID in devicekeychangeid_userid is invalid." e.2) <$> l), s) ∧
    StronglySorted key_lt l ∧
    ∀ k v, (k, v) ∈ l ↔ ∃ c, u64 c ∧ from < c ∧ c ≤ default u64_max to ∧ k = change_key x c ∧
                              db_map s keychangeid_userid !! k = Some v.
Proof.
  intros Hk Hf. set (m := db_map s keychangeid_userid).
  set (start := (as_bytes x ++ [sep]) ++ to_be_bytes (from + 1)).
  assert (start = change_key x (from + 1)) as Estart.
  { unfold start, change_key, key2. by rewrite <- app_assoc. }
  set (to' := default u64_max to).
  exists (filter (λ e, change_until (as_bytes x ++ [sep]) to' e = true) (filter (λ e, start ≤b e.1) (sorted_entries m))).
  split_and!.
  - unfold keys_changed, t_iter_from. db_step. rewrite iter_from_forward. fold start to'.
    change (contents (trees s keychangeid_userid)) with m.
    rewrite (take_while_filter (λ e1 e2, key_lt e1 e2 ∧ start ≤b e1.1 ∧
      m !! e1.1 = Some e1.2 ∧ m !! e2.1 = Some e2.2)); [done|..].
    + assert (∀ l, StronglySorted key_lt l → (∀ e, e ∈ l → m !! e.1 = Some e.2) →
        StronglySorted (λ e1 e2, key_lt e1 e2 ∧ start ≤b e1.1 ∧ m !! e1.1 = Some e1.2 ∧ m !! e2.1 = Some e2.2)
          (filter (λ e, start ≤b e.1) l)) as Hgen.
      { intros l Hs. induction Hs as [|e l Hs IH Hall]; intros Hl; [constructor|].
        rewrite filter_cons. assert (∀ e, e ∈ l → m !! e.1 = Some e.2) by (intros; apply Hl; by right).
        case_decide; [|by apply IH]. constructor; [by apply IH|]. apply Forall_forall.
        rewrite Forall_forall in Hall. intros e' [_ He']%list_elem_of_filter.
        split_and!; auto. apply Hl. by left. }
      apply Hgen; [auto with kv|]. intros [k v] He. by apply elem_of_sorted_entries.
    + intros [k1 v1] [k2 v2] (Hlt & Hst & H1 & H2). unfold key_lt in Hlt. cbn [fst snd] in *.
      destruct (Hk k1 v1 H1) as (x1 & c1 & Hc1 & ->), (Hk k2 v2 H2) as (x2 & c2 & Hc2 & ->).
      rewrite !change_until_key by done. rewrite !bool_decide_eq_false. intros Hn [<- Hle]. apply Hn.
      assert (x = x1) as <-.
      { apply (change_key_prefix x x1 c1). eapply (prefix_convex _ start _ (change_key x c2)).
        all: first [done|by exists (to_be_bytes (from + 1))|by apply change_key_prefix
                   |apply bytes_le_lt_eq; by left]. }
      split; [done|]. apply change_key_lt in Hlt; [lia|done..].
  - apply StronglySorted_filter, StronglySorted_filter. auto with kv.
  - intros k v. rewrite !list_elem_of_filter, elem_of_sorted_entries. cbn [fst]. split.
    + intros (Hu & Hle & Hv). destruct (Hk k v Hv) as (y & c & Hc & ->).
      rewrite change_until_key in Hu by done. apply bool_decide_eq_true in Hu as [<- ?].
      exists c. rewrite Estart in Hle. unfold change_key in Hle.
      rewrite key2_le, to_be_bytes_le in Hle by done. split_and!; try done. lia.
    + intros (c & Hc & Hlt & Hle & -> & Hv). split_and!; [|..|done].
      * rewrite change_until_key by done. by apply bool_decide_eq_true.
      * rewrite Estart. unfold change_key. rewrite key2_le, to_be_bytes_le by done. lia.
Qed.

(** ** One-time keys *)

Definition otk_key (u : UserId) (d : DeviceId) (id : DeviceKeyId) : bytes :=
  key2 (userdeviceid u d) (to_vec id).

Definition otk_keyed s : Prop :=
  ∀ k v, db_map s onetimekeyid_onetimekeys !! k = Some v →
  ∃ u d id raw, k = otk_key u d id ∧ v = raw_text raw.

(** JSON text is UTF-8. *)
Context (dkid_utf8 : ∀ id : DeviceKeyId, sep ∉ to_vec id).

Lemma parse_otk_key m1 m2 u d id : parse_otk_id m1 m2 (otk_key u d id) = Ok id.
Proof.
  unfold parse_otk_id, otk_key, key2. rewrite rsplit_ff_last by done. cbn.
  unfold parse_json. by rewrite from_slice_to_vec.
Qed.

Lemma otk_prefix_device u d alg u' d' id :
  otk_prefix u d alg `prefix_of` otk_key u' d' id → u = u' ∧ d = d'.
Proof.
  unfold otk_prefix, otk_key, userdeviceid, key2. rewrite <- !app_assoc. cbn [app].
  rewrite !key_prefix by auto with kv. intros (E1 & E2 & _).
  split; [by apply (inj idb)|by apply (inj as_bytes)].
Qed.

(** Taking a one-time key hands out a key of the device and the algorithm
    asked for and removes it, so that no key is handed out twice; there is no
    answer only when the device has no such key. *)
Theorem take_one_time_key_once u d alg s :
  otk_keyed s →
  ∃ o s', take_one_time_key u d alg s = (Ok o, s') ∧
    match o with
    | None => db_map s' onetimekeyid_onetimekeys = db_map s onetimekeyid_onetimekeys ∧
              ∀ k v, db_map s onetimekeyid_onetimekeys !! k = Some v →
                     ¬ otk_prefix u d alg `prefix_of` k
    | Some (id, key) =>
        otk_prefix u d alg `prefix_of` otk_key u d id ∧
        db_map s onetimekeyid_onetimekeys !! otk_key u d id = Some (raw_text key) ∧
        db_map s' onetimekeyid_onetimekeys = delete (otk_key u d id) (db_map s onetimekeyid_onetimekeys)
    end.
Proof.
  intros Hk. unfold take_one_time_key. rewrite (bind_Ok _ _ _ _ _ (next_count_run s)).
  db_run. set (s1 := put _ _ _ _).
  assert (db_map s1 onetimekeyid_onetimekeys = db_map s onetimekeyid_onetimekeys) as E
    by (unfold s1; by db_simpl). rewrite E.
  destruct (with_prefix _ _) as [|[k v] l] eqn:El.
  - exists None, s1. split_and!; try done. intros k v Hv Hp.
    assert ((k, v) ∈ []) as []%not_elem_of_nil. rewrite <- El. by apply elem_of_with_prefix.
  - assert ((k, v) ∈ (k, v) :: l) as Hin by left. rewrite <- El in Hin.
    apply elem_of_with_prefix in Hin as [Hv Hp]. destruct (Hk k v Hv) as (u' & d' & id & raw & -> & ->).
    destruct (otk_prefix_device _ _ _ _ _ _ Hp) as [<- <-].
    db_step. rewrite parse_otk_key. db_run. unfold parse_json. cbn [from_slice raw_serde].
    rewrite raw_from_text. eexists (Some (id, raw)), _. split; [done|]. split_and!; try done.
    db_simpl. by rewrite E.
Qed.

Lemma count_keys_fold (l : list entry) (m : gmap rstr N) s :
  (∀ e, e ∈ l → ∃ u d id, e.1 = otk_key u d id) →
  ∃ m', for_fold l m count_entry s = (Ok m', s) ∧
    (∀ a, is_Some (m !! a) → is_Some (m' !! a)) ∧
    ∀ e u d id, e ∈ l → e.1 = otk_key u d id → is_Some (m' !! device_key_algorithm id).
Proof.
  revert m. induction l as [|e l IH]; intros m Hl; cbn [for_fold].
  { exists m. split_and!; try done. by intros ???? ?%not_elem_of_nil. }
  destruct (Hl e) as (u & d & id & Ee); [by left|].
  destruct (IH (<[device_key_algorithm id := default 0 (m !! device_key_algorithm id) + 1]> m))
    as (m' & Hrun & Hm & Hin); [intros; apply Hl; by right|].
  assert (count_entry m e s = (Ok (<[device_key_algorithm id := default 0 (m !! device_key_algorithm id) + 1]> m), s))
    as Hone by (unfold count_entry; by rewrite Ee, parse_otk_key).
  exists m'. rewrite (bind_Ok _ _ _ _ _ Hone), Hrun. split_and!; [done|..].
  - intros a Ha. apply Hm. destruct (decide (a = device_key_algorithm id)) as [->|].
    + by rewrite lookup_insert_eq.
    + by rewrite lookup_insert_ne.
  - intros e' u' d' id' [->|He']%elem_of_cons Ee'; [|eauto].
    rewrite Ee in Ee'. assert (id = id') as <-.
    { assert (parse_otk_id "" "" (otk_key u d id) = parse_otk_id "" "" (otk_key u' d' id')) as E by congruence.
      rewrite !parse_otk_key in E. congruence. }
    apply Hm. by rewrite lookup_insert_eq.
Qed.

(** [count_one_time_keys] scans the device id without the separator that ends
    it: the keys of every device whose id extends the given one are counted as
    keys of the device (those of [ABC] for [AB]). *)
Theorem count_one_time_keys_extends u d d' id s :
  otk_keyed s → as_bytes d `prefix_of` as_bytes d' →
  is_Some (db_map s onetimekeyid_onetimekeys !! otk_key u d' id) →
  ∃ m, count_one_time_keys u d s = (Ok m, s) ∧ is_Some (m !! device_key_algorithm id).
Proof.
  intros Hk Hp [v Hv]. unfold count_one_time_keys. db_step.
  destruct (count_keys_fold (with_prefix (userdeviceid u d) (db_map s onetimekeyid_onetimekeys)) ∅ s)
    as (m & Hrun & _ & Hin).
  { intros [k w] [Hw _]%elem_of_with_prefix. destruct (Hk k w Hw) as (u1 & d1 & id1 & raw & -> & _). eauto. }
  exists m. split; [done|]. apply (Hin (otk_key u d' id, v) u d' id); [|done].
  apply elem_of_with_prefix. split; [done|]. destruct Hp as [x Hx].
  exists (x ++ sep :: to_vec id). unfold otk_key, userdeviceid, key2. rewrite Hx.
  by rewrite <- !app_assoc; cbn; rewrite <- !app_assoc.
Qed.

(** ** Signatures *)

Lemma clean_loop_get user allowed old acc cleaned :
  NoDup (old.*1) → (∀ k, k ∈ old.*1 → obj_get k acc = None) →
  clean_loop user allowed old acc = Ok cleaned →
  ∀ k, obj_get k cleaned =
    match obj_get k old with
    | Some v => match parse_id valid_user_id k with
                | Some id => if bool_decide (id = user) || allowed id then Some v else None
                | None => None
                end
    | None => obj_get k acc
    end.
Proof.
  revert acc. induction old as [|[k0 v0] old IH]; intros acc Hnd Hacc Hrun k; cbn in *.
  { by simplify_eq. }
  apply NoDup_cons in Hnd as [Hk0 Hnd].
  destruct (parse_id valid_user_id k0) as [id|] eqn:Eid; [|done]. cbn in Hrun.
  assert (obj_get k0 old = None) as Hold.
  { clear -Hk0. induction old as [|[k1 v1] old IH]; [done|]. cbn in *.
    apply not_elem_of_cons in Hk0 as [? ?]. rewrite decide_False by done. auto. }
  destruct (bool_decide (id = user) || allowed id) eqn:Eb.
  - rewrite (IH _ Hnd) with (k := k) (2 := Hrun).
    + rewrite obj_get_insert. destruct (decide (k = k0)) as [->|]; [|done]. by rewrite Hold, Eid, Eb.
    + intros k' Hk'. rewrite obj_get_insert, decide_False by congruence. apply Hacc. by right.
  - rewrite (IH _ Hnd) with (k := k) (2 := Hrun).
    + destruct (decide (k = k0)) as [->|]; [|done]. rewrite Hold, Eid, Eb. apply Hacc. by left.
    + intros k' Hk'. apply Hacc. by right.
Qed.

(** The signatures of a cross-signing key that are handed out are those made
    by its owner or by a user the caller may see, unchanged, and no others; the
    rest of the key is unchanged. *)
Theorem clean_signatures_correct fields sigs user allowed key :
  obj_get (lit "signatures") fields = Some (JObj sigs) → NoDup (sigs.*1) →
  clean_signatures (JObj fields) user allowed = Ok key →
  ∃ fields' sigs', key = JObj fields' ∧ obj_get (lit "signatures") fields' = Some (JObj sigs') ∧
    (∀ k, k ≠ lit "signatures" → obj_get k fields' = obj_get k fields) ∧
    ∀ u : UserId, obj_get (as_str u) sigs' =
      if bool_decide (u = user) || allowed u then obj_get (as_str u) sigs else None.
Proof.
  intros Hs Hnd. unfold clean_signatures. cbn [as_object]. rewrite Hs. cbn [mbind option_bind as_object].
  destruct (clean_loop user allowed sigs []) as [cleaned| |] eqn:El; [|done..]. cbn. intros [= <-].
  eexists _, cleaned. split_and!; [done|..].
  - by rewrite obj_get_insert, decide_True.
  - intros k Hk. by rewrite obj_get_insert, decide_False.
  - intros u. rewrite (clean_loop_get _ _ _ [] _ Hnd (λ _ _, eq_refl) El), parse_as_str.
    destruct (obj_get (as_str u) sigs); [done|]. by destruct (_ || _).
Qed.
End device_keys.
