(* ===== verification/KeyBackups.v ===== *)
(** * Key backups ([src/database/key_value/key_backups.rs])

    A backup is a version of a user, numbered from the global counter and named
    by the decimal text of its number; it holds session keys by room and
    session. *)

From S2P Require Import Prelude Bytes RStr Decimal Error Utils KvTree Env Db Keys Globals Short Timeline Users.

(** ** Operations *)

Section key_backups.
Context {Ev : Env}.
Implicit Types s : State.

(** [user_id 0xff version] *)
Definition backup_key (user_id : UserId) (version : rstr) : bytes := key2 (idb user_id) (as_bytes version).

(** [user_id 0xff version 0xff room_id 0xff session_id] *)
Definition session_key (user_id : UserId) (version : rstr) (room_id : RoomId) (session_id : rstr) : bytes :=
  key2 (idb user_id) (key2 (as_bytes version) (key2 (idb room_id) (as_bytes session_id))).

Definition create_backup (user_id : UserId) (backup_metadata : Raw) : DB rstr :=
  count ← next_count;
  let version := u64_to_string count in
  let key := backup_key user_id version in
  t_insert backupid_algorithm key (to_vec backup_metadata) ;;
  etag ← next_count;
  t_insert backupid_etag key (to_be_bytes etag) ;;
  mret version.

Definition delete_backup (user_id : UserId) (version : rstr) : DB unit :=
  let key := backup_key user_id version in
  t_remove backupid_algorithm key ;;
  t_remove backupid_etag key ;;
  t_remove_prefix backupkeyid_backup (key ++ [sep]).

Definition update_backup (user_id : UserId) (version : rstr) (backup_metadata : Raw) : DB rstr :=
  let key := backup_key user_id version in
  o ← t_get backupid_algorithm key;
  match o with
  | None => fail (BadRequest NotFound "Tried to update nonexistent backup.")
  | Some _ =>
      t_insert backupid_algorithm key (raw_text backup_metadata) ;;
      etag ← next_count;
      t_insert backupid_etag key (to_be_bytes etag) ;;
      mret version
  end.

(** The entries of the user's backups from the last possible key down. *)
Definition backups_descending (user_id : UserId) : DB (list entry) :=
  let prefix := idb user_id ++ [sep] in
  l ← t_iter_from backupid_algorithm (prefix ++ to_be_bytes u64_max) true;
  mret (take_while (λ e : entry, starts_with e.1 prefix) l).

Definition parse_version (key : bytes) : res rstr :=
  b ← last_part key; parse_string "backupid_algorithm key is invalid." b.

Definition get_latest_backup_version (user_id : UserId) : DB (option rstr) :=
  l ← backups_descending user_id;
  lift (transpose ((λ e : entry, parse_version e.1) <$> head l)).

Definition get_latest_backup (user_id : UserId) : DB (option (rstr * Raw)) :=
  l ← backups_descending user_id;
  lift (transpose ((λ e : entry,
    version ← parse_version e.1;
    algorithm ← parse_json "Algorithm in backupid_algorithm is invalid." e.2;
    Ok (version, algorithm)) <$> head l)).

Definition get_backup (user_id : UserId) (version : rstr) : DB (option Raw) :=
  o ← t_get backupid_algorithm (backup_key user_id version);
  lift (match o with
        | None => Ok None
        | Some b => ok_or (from_slice_opt b) (BadDatabase "Algorithm in backupid_algorithm is invalid.")
        end).

Definition add_key (user_id : UserId) (version : rstr) (room_id : RoomId) (session_id : rstr) (key_data : Raw)
    : DB unit :=
  let key := backup_key user_id version in
  o ← t_get backupid_algorithm key;
  match o with
  | None => fail (BadRequest NotFound "Tried to update nonexistent backup.")
  | Some _ =>
      etag ← next_count;
      t_insert backupid_etag key (to_be_bytes etag) ;;
      t_insert backupkeyid_backup (session_key user_id version room_id session_id) (raw_text key_data)
  end.

(** The scanned prefix ends with the version, without the separator. *)
Definition count_keys (user_id : UserId) (version : rstr) : DB nat :=
  l ← t_scan_prefix backupkeyid_backup (backup_key user_id version);
  mret (length l).

Definition get_etag (user_id : UserId) (version : rstr) : DB rstr :=
  o ← t_get backupid_etag (backup_key user_id version);
  b ← lift (ok_or o (BadDatabase "Backup has no etag."));
  n ← lift (parse_u64 "etag in backupid_etag invalid." b);
  mret (u64_to_string n).

(** Session id and key data of an entry. *)
Definition parse_session (e : entry) : res (rstr * Raw) :=
  b ← ok_or (rsplit_ff e.1 !! 0%nat) (BadDatabase "backupkeyid_backup key is invalid.");
  session_id ← parse_string "backupkeyid_backup session_id is invalid." b;
  key_data ← parse_json "KeyBackupData in backupkeyid_backup is invalid." e.2;
  Ok (session_id, key_data).

Definition parse_room_session (e : entry) : res (RoomId * rstr * Raw) :=
  b ← ok_or (rsplit_ff e.1 !! 0%nat) (BadDatabase "backupkeyid_backup key is invalid.");
  session_id ← parse_string "backupkeyid_backup session_id is invalid." b;
  r ← ok_or (rsplit_ff e.1 !! 1%nat) (BadDatabase "backupkeyid_backup key is invalid.");
  room_id ← parse_bytes "backupkeyid_backup room_id is invalid."
              "backupkeyid_backup room_id is invalid room id." r;
  key_data ← parse_json "KeyBackupData in backupkeyid_backup is invalid." e.2;
  Ok (room_id, session_id, key_data).

Definition add_session (rooms : gmap RoomId (gmap rstr Raw)) (e : entry) : DB (gmap RoomId (gmap rstr Raw)) :=
  r ← lift (parse_room_session e);
  let '(room_id, session_id, key_data) := (r : RoomId * rstr * Raw) in
  mret (<[room_id := <[session_id := key_data]> (default ∅ (rooms !! room_id))]> rooms).

Definition get_all (user_id : UserId) (version : rstr) : DB (gmap RoomId (gmap rstr Raw)) :=
  l ← t_scan_prefix backupkeyid_backup (backup_key user_id version ++ [sep]);
  for_fold l ∅ add_session.

Definition room_prefix_of (user_id : UserId) (version : rstr) (room_id : RoomId) : bytes :=
  key2 (idb user_id) (key2 (as_bytes version) (idb room_id)) ++ [sep].

Definition get_room (user_id : UserId) (version : rstr) (room_id : RoomId) : DB (gmap rstr Raw) :=
  l ← t_scan_prefix backupkeyid_backup (room_prefix_of user_id version room_id);
  mret (foldl (λ m x, <[x.1 := x.2]> m) ∅ (filter_map ok (parse_session <$> l))).

Definition get_session (user_id : UserId) (version : rstr) (room_id : RoomId) (session_id : rstr)
    : DB (option Raw) :=
  o ← t_get backupkeyid_backup (session_key user_id version room_id session_id);
  lift (transpose (parse_json "KeyBackupData in backupkeyid_backup is invalid." <$> o)).

Definition delete_all_keys (user_id : UserId) (version : rstr) : DB unit :=
  t_remove_prefix backupkeyid_backup (backup_key user_id version ++ [sep]).

Definition delete_room_keys (user_id : UserId) (version : rstr) (room_id : RoomId) : DB unit :=
  t_remove_prefix backupkeyid_backup (room_prefix_of user_id version room_id).

(** The session key is used as a prefix, so longer session ids match too. *)
Definition delete_room_key (user_id : UserId) (version : rstr) (room_id : RoomId) (session_id : rstr) : DB unit :=
  t_remove_prefix backupkeyid_backup (session_key user_id version room_id session_id).

(** ** Lemmas *)

Lemma backup_key_inj u u' v v' : backup_key u v = backup_key u' v' → u = u' ∧ v = v'.
Proof.
  intros [Hu Hv]%key2_inj; [|auto with kv..]. split; [by apply (inj idb)|by apply (inj as_bytes)].
Qed.

Lemma session_key_inj u u' v v' r r' i i' :
  session_key u v r i = session_key u' v' r' i' → u = u' ∧ v = v' ∧ r = r' ∧ i = i'.
Proof.
  intros (E1 & E2)%key2_inj; [|auto with kv..]. apply key2_inj in E2 as (E2 & E3); [|auto with kv..].
  apply key2_inj in E3 as (E3 & E4); [|auto with kv..].
  split_and!; [by apply (inj idb)|by apply (inj as_bytes)|by apply (inj idb)|by apply (inj as_bytes)].
Qed.

Lemma backup_prefix u v u' v' r i :
  (backup_key u v ++ [sep]) `prefix_of` session_key u' v' r i ↔ u = u' ∧ v = v'.
Proof.
  unfold backup_key, session_key, key2. rewrite <- app_assoc. cbn [app].
  rewrite !key_prefix by auto with kv. split.
  - intros (E1 & E2 & _). split; [by apply (inj idb)|by apply (inj as_bytes)].
  - intros [-> ->]. split_and!; [done..|apply prefix_nil].
Qed.

Lemma room_prefix_of_iff u v r u' v' r' i :
  room_prefix_of u v r `prefix_of` session_key u' v' r' i ↔ u = u' ∧ v = v' ∧ r = r'.
Proof.
  unfold room_prefix_of, session_key, key2. rewrite <- !app_assoc. cbn [app]. rewrite <- !app_assoc. cbn [app].
  rewrite !key_prefix by auto with kv. split.
  - intros (E1 & E2 & E3 & _). split_and!; [by apply (inj idb)|by apply (inj as_bytes)|by apply (inj idb)].
  - intros (-> & -> & ->). split_and!; [done..|apply prefix_nil].
Qed.

Lemma get_session_eq u v r i s s' :
  db_map s' backupkeyid_backup !! session_key u v r i = db_map s backupkeyid_backup !! session_key u v r i →
  (get_session u v r i s').1 = (get_session u v r i s).1.
Proof. intros E. unfold get_session, mbind, M_bind. by rewrite !t_get_run, E. Qed.

Lemma get_session_gone u v r i s :
  db_map s backupkeyid_backup !! session_key u v r i = None → get_session u v r i s = (Ok None, s).
Proof. intros E. unfold get_session. db_step. by rewrite E. Qed.

(** ** Theorems *)

(** A session key added to a backup is read back, every other session is as it
    was; adding to a backup that does not exist is refused and changes nothing. *)
Theorem add_key_correct u v r i data s :
  count_ok s →
  match db_map s backupid_algorithm !! backup_key u v with
  | None => add_key u v r i data s = (Err (BadRequest NotFound "Tried to update nonexistent backup."), s)
  | Some _ =>
      let s' := (add_key u v r i data s).2 in
      (add_key u v r i data s).1 = Ok () ∧ get_session u v r i s' = (Ok (Some data), s') ∧
      get_etag u v s' = (Ok (u64_to_string (count s + 1)), s') ∧
      ∀ u' v' r' i', (u', v', r', i') ≠ (u, v, r, i) →
        (get_session u' v' r' i' s').1 = (get_session u' v' r' i' s).1
  end.
Proof.
  intros Hc. destruct (db_map s backupid_algorithm !! backup_key u v) as [b|] eqn:E.
  - assert (add_key u v r i data s =
      (Ok (), put backupkeyid_backup (session_key u v r i) (raw_text data)
                (put backupid_etag (backup_key u v) (to_be_bytes (count s + 1)) (bump s)))) as ->.
    { unfold add_key. db_step. rewrite E. by rewrite (bind_Ok _ _ _ _ _ (next_count_ok s Hc)). }
    cbn [fst snd]. split_and!; [done|..].
    + unfold get_session. db_step. db_simpl. rewrite lookup_insert_eq. unfold lift, parse_json. cbn.
      by rewrite raw_from_text.
    + unfold get_etag. db_step. db_simpl. rewrite lookup_insert_eq. cbn [ok_or]. db_step.
      unfold parse_u64. rewrite u64_from_be_u64 by (unfold count_ok, u64 in *; lia). done.
    + intros u' v' r' i' Hne. apply get_session_eq. db_simpl. rewrite lookup_insert_ne; [done|].
      intros (-> & -> & -> & ->)%session_key_inj. done.
  - unfold add_key. db_step. by rewrite E.
Qed.

(** Deleting a backup or all its keys deletes every session of that version and
    deleting a room's keys every session of that room, and neither touches any
    other version, room or user. *)
Theorem delete_keys_correct u v s :
  (∀ u' v' r' i',
     (get_session u' v' r' i' (delete_backup u v s).2).1 =
       (if decide ((u', v') = (u, v)) then Ok None else (get_session u' v' r' i' s).1) ∧
     (get_session u' v' r' i' (delete_all_keys u v s).2).1 =
       (if decide ((u', v') = (u, v)) then Ok None else (get_session u' v' r' i' s).1)) ∧
  (∀ r u' v' r' i',
     (get_session u' v' r' i' (delete_room_keys u v r s).2).1 =
       (if decide ((u', v', r') = (u, v, r)) then Ok None else (get_session u' v' r' i' s).1)) ∧
  get_backup u v (delete_backup u v s).2 = (Ok None, (delete_backup u v s).2).
Proof.
  assert (delete_backup u v s = (Ok (), del_prefix backupkeyid_backup (backup_key u v ++ [sep])
            (del backupid_etag (backup_key u v) (del backupid_algorithm (backup_key u v) s)))) as ->
    by (unfold delete_backup; db_step; db_step; apply t_remove_prefix_run).
  unfold delete_all_keys, delete_room_keys. cbn [snd]. rewrite t_remove_prefix_run. cbn [snd]. split_and!.
  - intros u' v' r' i'. split.
    + destruct (decide ((u', v') = (u, v))) as [[= -> ->]|Hne].
      * rewrite get_session_gone; [done|]. rewrite lookup_del_prefix, decide_True; [done|]. by apply backup_prefix.
      * apply get_session_eq. rewrite lookup_del_prefix, decide_False; [by db_simpl|].
        intros [-> ->]%backup_prefix. done.
    + destruct (decide ((u', v') = (u, v))) as [[= -> ->]|Hne].
      * rewrite get_session_gone; [done|]. rewrite lookup_del_prefix, decide_True; [done|]. by apply backup_prefix.
      * apply get_session_eq. rewrite lookup_del_prefix, decide_False; [done|].
        intros [-> ->]%backup_prefix. done.
  - intros r u' v' r' i'. rewrite t_remove_prefix_run. cbn [snd].
    destruct (decide ((u', v', r') = (u, v, r))) as [[= -> -> ->]|Hne].
    + rewrite get_session_gone; [done|]. rewrite lookup_del_prefix, decide_True; [done|].
      by apply room_prefix_of_iff.
    + apply get_session_eq. rewrite lookup_del_prefix, decide_False; [done|].
      intros (-> & -> & ->)%room_prefix_of_iff. done.
  - unfold get_backup. db_step. db_simpl. by rewrite lookup_delete_eq.
Qed.

(** [delete_room_key] uses the session key as a prefix: with a session it also
    deletes every session of the room whose id extends that id. *)
Theorem delete_room_key_extends u v r i i' s :
  as_bytes i `prefix_of` as_bytes i' →
  let s' := (delete_room_key u v r i s).2 in
  get_session u v r i' s' = (Ok None, s').
Proof.
  intros [x Hx] s'. unfold s', delete_room_key. rewrite t_remove_prefix_run. cbn [snd].
  apply get_session_gone. rewrite lookup_del_prefix, decide_True; [done|].
  exists x. unfold session_key, key2. by rewrite Hx, <- !app_assoc; cbn; rewrite <- !app_assoc; cbn; rewrite <- !app_assoc.
Qed.

(** The latest backup is the one with the greatest text. *)
Lemma latest_version_run u s :
  (∀ k w, db_map s backupid_algorithm !! k = Some w → ∃ u' n, u64 n ∧ k = backup_key u' (u64_to_string n)) →
  ∃ o, get_latest_backup_version u s = (Ok o, s) ∧
    match o with
    | None => ∀ n, db_map s backupid_algorithm !! backup_key u (u64_to_string n) = None
    | Some v => is_Some (db_map s backupid_algorithm !! backup_key u v) ∧
        ∀ n, is_Some (db_map s backupid_algorithm !! backup_key u (u64_to_string n)) →
             as_bytes (u64_to_string n) ≤b as_bytes v
    end.
Proof.
  intros Hk. set (m := db_map s backupid_algorithm). set (p := idb u ++ [sep]).
  set (l := reverse (filter (λ e, e.1 ≤b p ++ to_be_bytes u64_max) (with_prefix p m))).
  assert (backups_descending u s = (Ok l, s)) as Hrun.
  { unfold backups_descending, t_iter_from. db_step.
    rewrite iter_backward_while by (by exists (to_be_bytes u64_max)). done. }
  assert (StronglySorted (flip key_lt) l) as Hs by (apply StronglySorted_reverse, StronglySorted_filter; auto with kv).
  assert (∀ n w, (backup_key u (u64_to_string n), w) ∈ l ↔ m !! backup_key u (u64_to_string n) = Some w) as Hl.
  { intros n w. unfold l. rewrite elem_of_reverse, list_elem_of_filter, elem_of_with_prefix. cbn [fst].
    split; [tauto|]. intros Hw. split_and!; [|done|apply key2_prefix_self].
    unfold p, backup_key, key2. rewrite <- app_assoc. apply bytes_le_app. cbn [app].
    apply (bytes_le_app [sep]). apply digits_le_max. }
  unfold get_latest_backup_version. rewrite (bind_Ok _ _ _ _ _ Hrun).
  destruct l as [|[k w] l'] eqn:El.
  - exists None. split; [done|]. intros n. destruct (m !! _) as [w|] eqn:Ew; [|done].
    apply Hl in Ew. by apply not_elem_of_nil in Ew.
  - assert ((k, w) ∈ l) as Hin by (rewrite El; left). unfold l in Hin.
    apply elem_of_reverse, list_elem_of_filter in Hin as [_ [Hw Hp]%elem_of_with_prefix].
    destruct (Hk k w Hw) as (u' & n & Hn & ->). unfold p, backup_key in Hp.
    apply key2_prefix in Hp; [|auto with kv..]. apply (inj idb) in Hp as <-.
    exists (Some (u64_to_string n)). split; [|split; [eauto|]].
    + cbn [head fmap option_fmap option_map fst]. unfold lift, parse_version, backup_key.
      rewrite last_part_key2 by auto with kv. cbn [mbind res_bind]. unfold parse_string, string_from_bytes.
      by rewrite from_utf8_as_bytes.
    + intros n' [w' Hw']. apply Hl in Hw' as [E|Hin]%elem_of_cons.
      * apply (f_equal fst) in E. cbn [fst] in E. apply backup_key_inj in E as [_ ->]. apply bytes_le_refl.
      * inversion Hs as [|? ? _ Hall]; subst. rewrite Forall_forall in Hall. specialize (Hall _ Hin).
        unfold flip, key_lt, backup_key in Hall. cbn [fst] in Hall. rewrite key2_lt in Hall.
        apply bytes_le_lt_eq. by left.
Qed.

(** Versions are compared as texts, not as numbers: a user with the backups 9
    and 10 is never told that 10 is the latest. *)
Theorem latest_backup_by_text u s :
  (∀ k w, db_map s backupid_algorithm !! k = Some w → ∃ u' n, u64 n ∧ k = backup_key u' (u64_to_string n)) →
  is_Some (db_map s backupid_algorithm !! backup_key u (u64_to_string 9)) →
  is_Some (db_map s backupid_algorithm !! backup_key u (u64_to_string 10)) →
  ∃ v, get_latest_backup_version u s = (Ok (Some v), s) ∧ v ≠ u64_to_string 10.
Proof.
  intros Hk H9 H10. destruct (latest_version_run u s Hk) as (o & Hrun & Ho). destruct o as [v|].
  - exists v. split; [done|]. intros ->. destruct Ho as [_ Ho]. specialize (Ho 9 H9).
    by vm_compute in Ho.
  - destruct H9 as [w Hw]. by rewrite Ho in Hw.
Qed.

(** [count_keys] scans the version without the separator that ends it: the keys
    of version 10 are counted for version 1. *)
Theorem count_keys_extends u v v' r i s :
  as_bytes v `prefix_of` as_bytes v' →
  is_Some (db_map s backupkeyid_backup !! session_key u v' r i) →
  ∃ n, count_keys u v s = (Ok n, s) ∧ (0 < n)%nat.
Proof.
  intros [x Hx] [w Hw]. unfold count_keys. db_step. eexists. split; [done|].
  assert ((session_key u v' r i, w) ∈ with_prefix (backup_key u v) (db_map s backupkeyid_backup)) as Hin.
  { apply elem_of_with_prefix. split; [done|]. exists (x ++ sep :: key2 (idb r) (as_bytes i)).
    unfold session_key, backup_key, key2. by rewrite Hx, <- !app_assoc. }
  destruct (with_prefix _ _); [by apply not_elem_of_nil in Hin|cbn; lia].
Qed.
End key_backups.
