(* ===== verification/Edus.v ===== *)
(** * Ephemeral data: typing, read receipts, presence
    ([src/database/key_value/rooms/edus/]) *)

From S2P Require Import Prelude Bytes RStr Error Utils KvTree Env Db Keys Globals Short Timeline Users.

Section edus.
Context {Ev : Env}.
Implicit Types s : State.

(** ** Typing ([typing.rs]) *)

(** [room_id 0xff timeout 0xff count] *)
Definition typing_key (room_id : RoomId) (timeout count : N) : bytes :=
  key2 (idb room_id) (to_be_bytes timeout ++ sep :: to_be_bytes count).

Definition typing_add (user_id : UserId) (room_id : RoomId) (timeout : N) : DB unit :=
  count ← next_count;
  t_insert typingid_userid (typing_key room_id timeout count) (idb user_id) ;;
  t_insert roomid_lasttypingupdate (idb room_id) (to_be_bytes count).

(** [if found_outdated { .. }]: the room's typing list has changed. *)
Definition typing_changed (room_id : RoomId) (found_outdated : bool) : DB unit :=
  if found_outdated then
    count ← next_count;
    t_insert roomid_lasttypingupdate (idb room_id) (to_be_bytes count)
  else mret ().

Definition typing_remove (user_id : UserId) (room_id : RoomId) : DB unit :=
  l ← t_scan_prefix typingid_userid (idb room_id ++ [sep]);
  let outdated := filter (λ e : entry, e.2 = idb user_id) l in
  for_each outdated (λ e, t_remove typingid_userid e.1) ;;
  typing_changed room_id (bool_decide (outdated ≠ [])).

(** The time until which an entry is valid. *)
Definition typing_timeout (key : bytes) : res N :=
  rest ← ok_or (splitn_ff 2 key !! 1%nat) (BadDatabase "RoomTyping has invalid timestamp or delimiters.");
  if bool_decide (length rest < 8)%nat then Panic "range end index 8 out of range"
  else ok_or (u64_from_bytes (take 8 rest)) (BadDatabase "RoomTyping has invalid timestamp bytes.").

(** The loop of [typings_maintain]; the result says whether something was removed. *)
Fixpoint maintain_loop (current_timestamp : N) (l : list entry) (found_outdated : bool) : DB bool :=
  match l with
  | [] => mret found_outdated
  | e :: l =>
      match typing_timeout e.1 with
      | Ok timestamp =>
          if bool_decide (timestamp < current_timestamp) then
            t_remove typingid_userid e.1 ;; maintain_loop current_timestamp l true
          else mret found_outdated
      | Err _ => maintain_loop current_timestamp l found_outdated
      | Panic p => lift (Panic p)
      end
  end.

Definition typings_maintain (room_id : RoomId) : DB unit :=
  current_timestamp ← gets now;
  l ← t_scan_prefix typingid_userid (idb room_id ++ [sep]);
  found_outdated ← maintain_loop current_timestamp l false;
  typing_changed room_id found_outdated.

Definition last_typing_update (room_id : RoomId) : DB N :=
  o ← t_get roomid_lasttypingupdate (idb room_id);
  r ← lift (transpose (parse_u64 "Count in roomid_lastroomactiveupdate is invalid." <$> o));
  mret (default 0 r).

Definition typings_all (room_id : RoomId) : DB (gset UserId) :=
  l ← t_scan_prefix typingid_userid (idb room_id ++ [sep]);
  lift (list_to_set <$> collect ((λ e : entry,
    parse_bytes "User ID in typingid_userid is invalid unicode." "User ID in typingid_userid is invalid." e.2) <$> l)).

(** ** Read receipts ([read_receipt.rs]) *)

(** [room_id 0xff count 0xff user_id] *)
Definition receipt_key (room_id : RoomId) (count : N) (user_id : UserId) : bytes :=
  key2 (idb room_id) (to_be_bytes count ++ sep :: idb user_id).

(** Remove the user's old entry in the room. *)
Definition remove_old_receipt (user_id : UserId) (room_id : RoomId) : DB unit :=
  let prefix := idb room_id ++ [sep] in
  l ← t_iter_from readreceiptid_readreceipt (prefix ++ to_be_bytes u64_max) true;
  match list_find (λ e : entry, rsplit_ff e.1 !! 0%nat = Some (idb user_id))
          (take_while (λ e : entry, starts_with e.1 prefix) l) with
  | Some (_, old) => t_remove readreceiptid_readreceipt old.1
  | None => mret ()
  end.

Definition readreceipt_update (user_id : UserId) (room_id : RoomId) (event : ReceiptEvent) : DB unit :=
  remove_old_receipt user_id room_id ;;
  count ← next_count;
  t_insert readreceiptid_readreceipt (receipt_key room_id count user_id) (to_vec event).

(** [&k[a..b]] and [&k[a..]] *)
Definition slice (k : bytes) (a b : nat) : res bytes :=
  if bool_decide (a ≤ b ≤ length k)%nat then Ok (take (b - a) (drop a k)) else Panic "slice index out of range".
Definition slice_from (k : bytes) (a : nat) : res bytes :=
  if bool_decide (a ≤ length k)%nat then Ok (drop a k) else Panic "slice index out of range".

Definition parse_receipt (prefix : bytes) (e : entry) : res (UserId * N * Raw) :=
  let n := length prefix in
  c ← slice e.1 n (n + 8);
  count ← ok_or (u64_from_bytes c) (BadDatabase "Invalid readreceiptid count in db.");
  u ← slice_from e.1 (n + 9);
  user_id ← parse_bytes "Invalid readreceiptid userid bytes in db." "Invalid readreceiptid userid in db." u;
  js ← ok_or (from_slice e.2) (BadDatabase "Read receipt in roomlatestid_roomlatest is invalid json.");
  Ok (user_id, count, canonical_to_raw (canonical_remove (lit "room_id") js)).

Definition readreceipts_since (room_id : RoomId) (since : N) : DB (list (res (UserId * N * Raw))) :=
  let prefix := idb room_id ++ [sep] in
  l ← t_iter_from readreceiptid_readreceipt (prefix ++ to_be_bytes (since + 1)) false;
  mret (parse_receipt prefix <$> take_while (λ e : entry, starts_with e.1 prefix) l).

Definition private_read_set (room_id : RoomId) (user_id : UserId) (count : N) : DB unit :=
  let key := idkey room_id user_id in
  t_insert roomuserid_privateread key (to_be_bytes count) ;;
  c ← next_count;
  t_insert roomuserid_lastprivatereadupdate key (to_be_bytes c).

Definition private_read_get (room_id : RoomId) (user_id : UserId) : DB (option N) :=
  o ← t_get roomuserid_privateread (idkey room_id user_id);
  lift (transpose (parse_u64 "Invalid private read marker bytes" <$> o)).

Definition last_privateread_update (user_id : UserId) (room_id : RoomId) : DB N :=
  o ← t_get roomuserid_lastprivatereadupdate (idkey room_id user_id);
  r ← lift (transpose (parse_u64 "Count in roomuserid_lastprivatereadupdate is invalid." <$> o));
  mret (default 0 r).

(** ** Presence ([presence.rs]) *)

Definition set_last_active_ago (x : option N) (p : PresenceEvent) : PresenceEvent :=
  {| pe_sender := pe_sender p; pe_presence := pe_presence p; pe_last_active_ago := x; pe_status_msg := pe_status_msg p;
     pe_displayname := pe_displayname p; pe_avatar_url := pe_avatar_url p; pe_currently_active := pe_currently_active p |}.

(** [UInt] holds numbers below 2^53; its subtraction panics on underflow. *)
Definition parse_presence_event (b : bytes) : DB PresenceEvent :=
  presence ← lift (parse_json "Invalid presence event in db." b);
  ts ← gets now;
  current_timestamp ← lift (if bool_decide (ts < 2 ^ 53) then Ok ts else Panic "time is valid");
  if decide (pe_presence presence = Online) then mret (set_last_active_ago None presence)
  else
    match pe_last_active_ago presence with
    | None => mret presence
    | Some timestamp =>
        if bool_decide (timestamp ≤ current_timestamp) then
          mret (set_last_active_ago (Some (current_timestamp - timestamp)) presence)
        else lift (Panic "attempt to subtract with overflow")
    end.

Definition presence_key (room_id : RoomId) (count : N) (user_id : UserId) : bytes :=
  key2 (idb room_id) (to_be_bytes count ++ sep :: idb user_id).

Definition ping_presence (user_id : UserId) : DB unit :=
  ts ← gets now;
  t_insert userid_lastpresenceupdate (idb user_id) (to_be_bytes ts).

Definition update_presence (user_id : UserId) (room_id : RoomId) (presence : PresenceEvent) : DB unit :=
  count ← next_count;
  t_insert presenceid_presence (presence_key room_id count (pe_sender presence)) (to_vec presence) ;;
  ping_presence user_id.

Definition last_presence_update (user_id : UserId) : DB (option N) :=
  o ← t_get userid_lastpresenceupdate (idb user_id);
  lift (transpose (parse_u64 "Invalid timestamp in userid_lastpresenceupdate." <$> o)).

Definition get_presence_event (room_id : RoomId) (user_id : UserId) (count : N) : DB (option PresenceEvent) :=
  o ← t_get presenceid_presence (presence_key room_id count user_id);
  match o with
  | None => mret None
  | Some v => p ← parse_presence_event v; mret (Some p)
  end.

Definition add_presence (m : gmap UserId PresenceEvent) (e : entry) : DB (gmap UserId PresenceEvent) :=
  user_id ← lift (parse_last "Invalid UserId bytes in presenceid_presence."
                    "Invalid UserId in presenceid_presence." e.1);
  presence ← parse_presence_event e.2;
  mret (<[user_id := presence]> m).

Definition presence_since (room_id : RoomId) (since : N) : DB (gmap UserId PresenceEvent) :=
  let prefix := idb room_id ++ [sep] in
  l ← t_iter_from presenceid_presence (prefix ++ to_be_bytes (since + 1)) false;
  for_fold (take_while (λ e : entry, starts_with e.1 prefix) l) ∅ add_presence.

(** ** Theorems on typing *)

Lemma room_key_prefix (r r' : RoomId) x : (idb r ++ [sep]) `prefix_of` key2 (idb r') x ↔ r = r'.
Proof. rewrite key2_prefix by auto with kv. split; [by intros ?%(inj idb)|by intros ->]. Qed.

(** A room, eight bytes, and the rest. *)
Lemma room_count_inj (r r' : RoomId) c c' x x' :
  u64 c → u64 c' → key2 (idb r) (to_be_bytes c ++ x) = key2 (idb r') (to_be_bytes c' ++ x') →
  r = r' ∧ c = c' ∧ x = x'.
Proof.
  intros Hc Hc' [Er E]%key2_inj; [|auto with kv..]. apply (inj idb) in Er.
  apply app_inj_1 in E as [E Ex]; [|by rewrite !length_to_be_bytes]. by apply to_be_bytes_inj in E.
Qed.

Lemma typing_key_inj r r' t t' c c' :
  u64 t → u64 t' → u64 c → u64 c' → typing_key r t c = typing_key r' t' c' → r = r' ∧ t = t' ∧ c = c'.
Proof.
  intros ???? (-> & -> & E)%room_count_inj; [|done..].
  apply (f_equal tail) in E. cbn [tail] in E. by apply to_be_bytes_inj in E.
Qed.

Lemma typing_timeout_key r t c : u64 t → typing_timeout (typing_key r t c) = Ok t.
Proof.
  intros Ht. unfold typing_timeout, typing_key, key2. rewrite splitn2_app by auto with kv. cbn [lookup list_lookup ok_or].
  cbn [mbind res_bind]. rewrite bool_decide_false by (rewrite length_app, length_to_be_bytes; lia).
  rewrite take_app_length' by (by rewrite length_to_be_bytes). by rewrite u64_from_be_u64.
Qed.

Record TypingInv s : Prop := {
  ty_keyed k v : db_map s typingid_userid !! k = Some v →
    ∃ r t c (u : UserId), u64 t ∧ c ≤ count s ∧ k = typing_key r t c ∧ v = idb u;
}.

Definition is_typing s (r : RoomId) (u : UserId) : Prop :=
  ∃ t c, u64 t ∧ c ≤ count s ∧ db_map s typingid_userid !! typing_key r t c = Some (idb u).

Lemma typings_all_run r s :
  TypingInv s → ∃ X, typings_all r s = (Ok X, s) ∧ ∀ u, u ∈ X ↔ is_typing s r u.
Proof.
  intros [Hk].
  assert (∀ l : list entry, (∀ e, e ∈ l → ∃ u : UserId, e.2 = idb u) → ∃ us : list UserId,
    collect ((λ e : entry, parse_bytes "User ID in typingid_userid is invalid unicode."
               "User ID in typingid_userid is invalid." e.2) <$> l) = Ok us ∧
    ∀ u, u ∈ us ↔ ∃ e, e ∈ l ∧ e.2 = idb u) as Hgen.
  { intros l. induction l as [|e l IH]; intros Hl.
    { exists []. split; [done|]. intros u. split; [by intros ?%not_elem_of_nil|].
      by intros (? & ?%not_elem_of_nil & _). }
    destruct IH as (us & E & Hus); [intros; apply Hl; by right|]. destruct (Hl e) as [u Hu]; [by left|].
    exists (u :: us). csimpl. rewrite Hu, parse_bytes_idb. cbn. rewrite E. split; [done|].
    intros u'. rewrite elem_of_cons, Hus. split.
    - intros [->|(e' & ? & ?)]; [exists e|exists e']; split; [by left|done|by right|done].
    - intros (e' & [->|He']%elem_of_cons & E'); [left|eauto]. rewrite Hu in E'. by apply (inj idb) in E'. }
  destruct (Hgen (with_prefix (idb r ++ [sep]) (db_map s typingid_userid))) as (us & E & Hus).
  { intros [k v] [Hv _]%elem_of_with_prefix. destruct (Hk k v Hv) as (? & ? & ? & u & _ & _ & _ & ->). eauto. }
  exists (list_to_set us). unfold typings_all. db_step. rewrite E. split; [done|].
  intros u. rewrite elem_of_list_to_set, Hus. split.
  - intros ([k v] & [Hv Hp]%elem_of_with_prefix & Eu). cbn in Eu. subst v.
    destruct (Hk k _ Hv) as (r' & t & c & u' & Ht & Hc & -> & _). apply room_key_prefix in Hp as <-.
    by exists t, c.
  - intros (t & c & Ht & Hc & Hv). exists (typing_key r t c, idb u). split; [|done].
    apply elem_of_with_prefix. split; [done|]. by apply room_key_prefix.
Qed.

Lemma typing_fresh r t s :
  TypingInv s → count_ok s → u64 t → db_map s typingid_userid !! typing_key r t (count s + 1) = None.
Proof.
  intros [Hk] Hc Ht. unfold count_ok in *. destruct (_ !! _) as [v|] eqn:E; [|done].
  destruct (Hk _ _ E) as (r1 & t1 & c1 & u1 & ? & ? & Ek & _).
  apply typing_key_inj in Ek as (_ & _ & ?); unfold u64 in *; lia.
Qed.

(** Entries the counter has not reached are not there. *)
Lemma typing_count r t c s v :
  TypingInv s → count_ok s → u64 t → u64 c → db_map s typingid_userid !! typing_key r t c = Some v → c ≤ count s.
Proof.
  intros [Hk] Hc Ht Hu Hv. unfold count_ok in *. destruct (Hk _ _ Hv) as (r2 & t2 & c2 & u2 & ? & ? & Ek & _).
  apply typing_key_inj in Ek as (_ & _ & ->); unfold u64 in *; lia || done.
Qed.

Lemma typing_add_run u r t s :
  TypingInv s → count_ok s → u64 t →
  ∃ s', typing_add u r t s = (Ok (), s') ∧ TypingInv s' ∧ count s' ≤ count s + 1 ∧
    last_typing_update r s' = (Ok (count s + 1), s') ∧
    ∀ r' u', is_typing s' r' u' ↔ is_typing s r' u' ∨ (r' = r ∧ u' = u).
Proof.
  intros HI Hc Ht. pose proof (ty_keyed s HI) as Hk. pose proof (typing_fresh r t s HI Hc Ht) as Hnew.
  pose proof (count_bump_ok s Hc) as Hb. unfold count_ok in *.
  unfold typing_add. rewrite (bind_Ok _ _ _ _ _ (next_count_ok s Hc)). db_run. rewrite t_insert_run.
  eexists. split; [done|]. set (s' := put _ _ _ _).
  assert (count s' = count s + 1) as Hcnt by (unfold s'; by db_simpl).
  assert (∀ k, db_map s' typingid_userid !! k =
    <[typing_key r t (count s + 1) := idb u]> (db_map s typingid_userid) !! k) as El
    by (intros; unfold s'; by db_simpl).
  split_and!; [|lia|..].
  - split. intros k v. rewrite El, Hcnt. intros [[<- <-]|[_ Hv]]%lookup_insert_Some.
    + exists r, t, (count s + 1), u. split_and!; try done; lia.
    + destruct (Hk k v Hv) as (r1 & t1 & c1 & u1 & ? & ? & ? & ?). exists r1, t1, c1, u1. split_and!; try done. lia.
  - unfold last_typing_update. db_step. unfold s'. db_simpl. rewrite lookup_insert_eq. unfold parse_u64.
    cbn [fmap option_fmap option_map]. rewrite u64_from_be_u64 by (unfold u64; lia). done.
  - intros r' u'. unfold is_typing. rewrite Hcnt. setoid_rewrite El. split.
    + intros (t1 & c1 & Ht1 & Hc1 & [[E Eu]|[_ Hv]]%lookup_insert_Some).
      * right. apply (inj idb) in Eu. apply typing_key_inj in E as (? & _ & _); [done|unfold u64; try lia; done..].
      * left. exists t1, c1. split_and!; try done. eapply typing_count; try done. unfold u64; lia.
    + intros [(t1 & c1 & ? & ? & Hv)|[-> ->]].
      * exists t1, c1. split_and!; [done|lia|]. rewrite lookup_insert_ne by congruence. done.
      * exists t, (count s + 1). split_and!; [done|lia|]. by rewrite lookup_insert_eq.
Qed.

Lemma typing_changed_run r b s :
  count_ok s → ∃ s', typing_changed r b s = (Ok (), s') ∧ count s ≤ count s' ≤ count s + 1 ∧
    db_map s' typingid_userid = db_map s typingid_userid.
Proof.
  intros Hc. unfold typing_changed. destruct b; [|exists s; split_and!; done || lia].
  rewrite (bind_Ok _ _ _ _ _ (next_count_ok s Hc)). rewrite t_insert_run. eexists. split; [done|].
  pose proof (count_bump_ok s Hc). db_simpl. split_and!; lia || done.
Qed.

(** Removing entries [l] of the tree. *)
Lemma typing_delete (l : list entry) r b s :
  TypingInv s → count_ok s →
  ∃ s', (for_each l (λ e : entry, t_remove typingid_userid e.1) ;; typing_changed r b) s = (Ok (), s') ∧
    TypingInv s' ∧ count s' ≤ count s + 1 ∧
    ∀ r' u', is_typing s' r' u' ↔ ∃ t c, u64 t ∧ c ≤ count s ∧ typing_key r' t c ∉ l.*1 ∧
      db_map s typingid_userid !! typing_key r' t c = Some (idb u').
Proof.
  intros HI Hc. pose proof (ty_keyed s HI) as Hk. erewrite bind_Ok by apply for_each_modify.
  set (s1 := foldl _ _ _).
  assert (count s1 = count s) as Hcnt by (apply count_frame; unfold s1; by rewrite db_map_del_all_ne).
  destruct (typing_changed_run r b s1) as (s' & E & Hle & Hm); [unfold count_ok; by rewrite Hcnt|].
  assert (∀ k v, db_map s' typingid_userid !! k = Some v ↔ k ∉ l.*1 ∧ db_map s typingid_userid !! k = Some v) as El.
  { intros k v. rewrite Hm. unfold s1. rewrite db_map_del_all_eq, lookup_delete_keys. case_decide; naive_solver. }
  exists s'. split; [done|]. split_and!; [|lia|].
  - split. intros k v [_ Hv]%El. destruct (Hk k v Hv) as (r1 & t1 & c1 & u1 & ? & ? & ? & ?).
    exists r1, t1, c1, u1. split_and!; try done. lia.
  - intros r' u'. unfold is_typing. split.
    + intros (t & c & Ht & Hc' & [Hn Hv]%El). exists t, c. split_and!; try done.
      eapply typing_count; try done. pose proof (count_u64 s'). unfold u64 in *; lia.
    + intros (t & c & Ht & Hc' & Hn & Hv). exists t, c. split_and!; try done; [lia|]. by apply El.
Qed.

Lemma typing_remove_run u r s :
  TypingInv s → count_ok s →
  ∃ s', typing_remove u r s = (Ok (), s') ∧ TypingInv s' ∧ count s' ≤ count s + 1 ∧
    ∀ r' u', is_typing s' r' u' ↔ is_typing s r' u' ∧ ¬ (r' = r ∧ u' = u).
Proof.
  intros HI Hc. unfold typing_remove. db_step.
  edestruct typing_delete as (s' & E & HI' & Hle & Hty); [done..|]. rewrite E. exists s'. split_and!; [done..|].
  intros r' u'. rewrite Hty. unfold is_typing. split.
  - intros (t & c & Ht & Hc' & Hn & Hv). split; [by exists t, c|]. intros [-> ->]. apply Hn.
    apply list_elem_of_fmap. exists (typing_key r t c, idb u). split; [done|].
    apply list_elem_of_filter. split; [done|]. apply elem_of_with_prefix. split; [done|]. by apply room_key_prefix.
  - intros [(t & c & Ht & Hc' & Hv) Hne]. exists t, c. split_and!; try done.
    intros ([k v] & Ek & [Eu [Hv' Hp]%elem_of_with_prefix]%list_elem_of_filter)%list_elem_of_fmap.
    cbn in Ek, Eu. subst k v. apply room_key_prefix in Hp as ->. rewrite Hv in Hv'. apply Hne.
    split; [done|]. apply (inj idb). congruence.
Qed.

(** ** The typing list against its specification *)

Inductive typing_op := TypingStart (u : UserId) (r : RoomId) (t : N) | TypingStop (u : UserId) (r : RoomId).

Definition run_typing (o : typing_op) : DB unit :=
  match o with
  | TypingStart u r t => typing_add u r t
  | TypingStop u r => typing_remove u r
  end.

(** The specification: who types where. *)
Definition typing_spec (P : RoomId → gset UserId) (o : typing_op) : RoomId → gset UserId :=
  match o with
  | TypingStart u r _ => λ r', if decide (r' = r) then P r' ∪ {[u]} else P r'
  | TypingStop u r => λ r', if decide (r' = r) then P r' ∖ {[u]} else P r'
  end.

Definition timeout_u64 (o : typing_op) : Prop :=
  match o with TypingStart _ _ t => u64 t | TypingStop _ _ => True end.

Lemma typing_step o P s :
  TypingInv s → count_ok s → timeout_u64 o → (∀ r u, is_typing s r u ↔ u ∈ P r) →
  ∃ s', run_typing o s = (Ok (), s') ∧ TypingInv s' ∧ count s' ≤ count s + 1 ∧
    ∀ r u, is_typing s' r u ↔ u ∈ typing_spec P o r.
Proof.
  intros HI Hc Ht HP. destruct o as [u r t|u r]; cbn in *.
  - destruct (typing_add_run u r t s) as (s' & E & HI' & ? & _ & H); [done..|]. exists s'. split_and!; try done.
    intros r' u'. rewrite H, HP. case_decide; [rewrite elem_of_union, elem_of_singleton|]; tauto.
  - destruct (typing_remove_run u r s) as (s' & E & HI' & ? & H); [done..|]. exists s'. split_and!; try done.
    intros r' u'. rewrite H, HP. case_decide; [rewrite elem_of_difference, elem_of_singleton|]; tauto.
Qed.

(** For every sequence of start and stop notices, [typings_all] returns
    exactly the users the specification has typing in the room. *)
Theorem typing_refinement (ops : list typing_op) (P : RoomId → gset UserId) s :
  TypingInv s → count s + N.of_nat (length ops) < 2 ^ 64 → Forall timeout_u64 ops →
  (∀ r u, is_typing s r u ↔ u ∈ P r) →
  ∃ s', for_each ops run_typing s = (Ok (), s') ∧ TypingInv s' ∧
    ∀ r, typings_all r s' = (Ok (foldl typing_spec P ops r), s').
Proof.
  revert P s. induction ops as [|o ops IH]; intros P s HI Hc Ht HP.
  - exists s. split_and!; [done..|]. intros r. destruct (typings_all_run r s HI) as (X & -> & HX).
    do 2 f_equal. apply set_eq. intros u. by rewrite HX, HP.
  - apply Forall_cons in Ht as [Ht Hts]. cbn [length] in Hc.
    destruct (typing_step o P s) as (s1 & E & HI1 & Hc1 & HP1); [done|unfold count_ok; lia|done..|].
    destruct (IH (typing_spec P o) s1) as (s' & E' & ?); [done|lia|done..|].
    exists s'. cbn [for_each foldl]. by rewrite (bind_Ok _ _ _ _ _ E), E'.
Qed.

(** ** Expiry *)

Definition outdated (current_timestamp : N) (e : entry) : bool :=
  match typing_timeout e.1 with Ok t => bool_decide (t < current_timestamp) | _ => false end.

Lemma typing_key_lt r t t' c c' : u64 t → u64 t' → t < t' → typing_key r t c <b typing_key r t' c'.
Proof.
  intros. unfold typing_key. apply key2_lt, bytes_lt_app_r; [by rewrite !length_to_be_bytes|].
  by apply to_be_bytes_lt.
Qed.

Lemma maintain_loop_run r now l b s :
  (∀ e, e ∈ l → ∃ t c, u64 t ∧ e.1 = typing_key r t c) →
  maintain_loop now l b s =
    (Ok (b || bool_decide (take_while (outdated now) l ≠ [])),
     foldl (λ s (e : entry), del typingid_userid e.1 s) s (take_while (outdated now) l)).
Proof.
  revert b s. induction l as [|[k v] l IH]; intros b s Hl; cbn [maintain_loop take_while]; [by destruct b|].
  destruct (Hl (k, v)) as (t & c & Ht & Ek); [by left|]. cbn [fst] in *. subst k.
  assert (outdated now (typing_key r t c, v) = bool_decide (t < now)) as ->
    by (unfold outdated; cbn [fst]; by rewrite typing_timeout_key).
  rewrite typing_timeout_key by done. destruct (bool_decide (t < now)); [|by destruct b].
  db_step. rewrite IH by (intros; apply Hl; by right). by destruct b.
Qed.

(** The entries of a room are in the order of their timeouts. *)
Lemma outdated_sorted r now l :
  StronglySorted key_lt l → (∀ e, e ∈ l → ∃ t c, u64 t ∧ e.1 = typing_key r t c) →
  take_while (outdated now) l = filter (λ e, outdated now e = true) l.
Proof.
  intros Hs Hl. apply (take_while_filter (λ x y, key_lt x y ∧ x ∈ l ∧ y ∈ l)).
  - assert (∀ e, e ∈ l → e ∈ l) as Hin by done. revert Hin. generalize l at 2 3 4. clear Hl. intros L.
    induction Hs as [|x l Hs IH Hall]; intros HL; constructor; [apply IH; intros; apply HL; by right|].
    rewrite Forall_forall in *. intros y Hy. split_and!; [by apply Hall|apply HL; by left|apply HL; by right].
  - intros x y (Hlt & Hx & Hy). destruct (Hl x Hx) as (t & c & Ht & Ex), (Hl y Hy) as (t' & c' & Ht' & Ey).
    unfold outdated, key_lt in *. rewrite Ex, Ey in *. rewrite !typing_timeout_key by done.
    rewrite !bool_decide_eq_false. intros Hn Hn'.
    eapply (irreflexivity bytes_lt), transitivity; [exact Hlt|]. apply typing_key_lt; [done..|lia].
Qed.

(** Maintenance removes exactly the room's entries whose time is over. *)
Theorem typings_maintain_correct r s :
  TypingInv s → count_ok s →
  ∃ s', typings_maintain r s = (Ok (), s') ∧ TypingInv s' ∧
    ∀ r' t c, u64 t → 
      db_map s' typingid_userid !! typing_key r' t c =
      if bool_decide (r' = r ∧ t < now s) then None else db_map s typingid_userid !! typing_key r' t c.
Proof.
  intros HI Hc. pose proof (ty_keyed s HI) as Hk. unfold typings_maintain. db_step. db_step.
  set (l := with_prefix _ _).
  assert (∀ e, e ∈ l → ∃ t c, u64 t ∧ e.1 = typing_key r t c) as Hl.
  { intros [k v] [Hv Hp]%elem_of_with_prefix. destruct (Hk k v Hv) as (r' & t & c & ? & ? & ? & -> & _).
    apply room_key_prefix in Hp as <-. by exists t, c. }
  rewrite (bind_Ok _ _ _ _ _ (maintain_loop_run r (now s) l false s Hl)).
  rewrite (outdated_sorted r) by (done || apply with_prefix_sorted). set (s1 := foldl _ _ _).
  assert (count s1 = count s) as Hcnt by (apply count_frame; unfold s1; by rewrite db_map_del_all_ne).
  destruct (typing_changed_run r (false || bool_decide (filter (λ e, outdated (now s) e = true) l ≠ [])) s1)
    as (s' & E & Hle & Hm); [unfold count_ok; by rewrite Hcnt|].
  exists s'. split; [exact E|].
  assert (∀ k, db_map s' typingid_userid !! k = if decide (k ∈ (filter (λ e, outdated (now s) e = true) l).*1)
    then None else db_map s typingid_userid !! k) as El
    by (intros k; rewrite Hm; unfold s1; by rewrite db_map_del_all_eq, lookup_delete_keys).
  split.
  - split. intros k v. rewrite El. case_decide; [done|]. intros Hv.
    destruct (Hk k v Hv) as (r1 & t1 & c1 & u1 & ? & ? & ? & ?). exists r1, t1, c1, u1. split_and!; try done. lia.
  - intros r' t c Ht. rewrite El. case_decide as Hin.
    + apply list_elem_of_fmap in Hin as ([k v] & Ek & [Ho [_ Hp]%elem_of_with_prefix]%list_elem_of_filter).
      cbn in Ek. subst k. apply room_key_prefix in Hp as <-. unfold outdated in Ho. cbn [fst] in Ho.
      rewrite typing_timeout_key in Ho by done. apply bool_decide_eq_true in Ho. by rewrite bool_decide_true.
    + destruct (decide (r' = r ∧ t < now s)) as [Hd|Hd]; [rewrite bool_decide_true by done|by rewrite bool_decide_false by done]. destruct Hd as [-> Hlt]. destruct (db_map s _ !! _) as [v|] eqn:Hv; [|done].
      destruct Hin. apply list_elem_of_fmap. exists (typing_key r t c, v). split; [done|].
      apply list_elem_of_filter. split; [|apply elem_of_with_prefix; split; [done|by apply room_key_prefix]].
      unfold outdated. cbn [fst]. rewrite typing_timeout_key by done. by apply bool_decide_eq_true.
Qed.

(** ** Theorems on read receipts *)

Lemma receipt_key_inj r r' c c' u u' :
  u64 c → u64 c' → receipt_key r c u = receipt_key r' c' u' → r = r' ∧ c = c' ∧ u = u'.
Proof.
  intros ?? (-> & -> & E)%room_count_inj; [|done..].
  apply (f_equal tail) in E. cbn [tail] in E. by apply (inj idb) in E.
Qed.

Lemma receipt_key_user r c u : rsplit_ff (receipt_key r c u) !! 0%nat = Some (idb u).
Proof.
  unfold receipt_key, key2.
  replace (idb r ++ sep :: to_be_bytes c ++ sep :: idb u)
    with ((idb r ++ sep :: to_be_bytes c) ++ sep :: idb u) by (by rewrite <- app_assoc).
  by rewrite rsplit_ff_last by auto with kv.
Qed.

(** Every receipt has a key the counter has reached; a user has one per room. *)
Record ReceiptInv s : Prop := {
  rr_keyed k v : db_map s readreceiptid_readreceipt !! k = Some v →
    ∃ r c u, c ≤ count s ∧ k = receipt_key r c u;
  rr_unique r u c c' : is_Some (db_map s readreceiptid_readreceipt !! receipt_key r c u) →
    is_Some (db_map s readreceiptid_readreceipt !! receipt_key r c' u) → c ≤ count s → c' ≤ count s → c = c';
}.

(** The old receipt the update looks for. *)
Lemma find_receipt r u s :
  ReceiptInv s → count_ok s →
  match list_find (λ e : entry, rsplit_ff e.1 !! 0%nat = Some (idb u))
    (take_while (λ e : entry, starts_with e.1 (idb r ++ [sep]))
       (kv_iter_from (trees s readreceiptid_readreceipt) ((idb r ++ [sep]) ++ to_be_bytes u64_max) true)) with
  | Some (_, e) => ∃ c, c ≤ count s ∧ e.1 = receipt_key r c u ∧ db_map s readreceiptid_readreceipt !! e.1 = Some e.2
  | None => ∀ c, c ≤ count s → db_map s readreceiptid_readreceipt !! receipt_key r c u = None
  end.
Proof.
  intros [Hk Hu] Hc. unfold count_ok in Hc. rewrite iter_backward_while by (by exists (to_be_bytes u64_max)).
  destruct (list_find _ _) as [[i [k v]]|] eqn:E.
  - apply list_find_Some in E as (Hi & Hl & _).
    apply list_elem_of_lookup_2, elem_of_reverse, list_elem_of_filter in Hi as [_ [Hv Hp]%elem_of_with_prefix].
    destruct (Hk k v Hv) as (r' & c & u' & Hle & ->). apply room_key_prefix in Hp as <-.
    cbn [fst snd] in *. rewrite receipt_key_user in Hl. injection Hl as Hl%(inj idb). subst u'. eauto.
  - apply list_find_None in E. rewrite Forall_forall in E. intros c Hle.
    destruct (_ !! _) as [v|] eqn:Hv; [|done]. exfalso.
    apply (E (receipt_key r c u, v)); [|apply receipt_key_user].
    apply elem_of_reverse, list_elem_of_filter. cbn [fst]. split.
    + unfold receipt_key, key2. rewrite <- app_assoc. cbn [app]. apply bytes_le_app.
      apply (bytes_le_app [sep]), bytes_le_lt_eq. left. rewrite <- (app_nil_r (to_be_bytes u64_max)).
      apply bytes_lt_app_r; [by rewrite !length_to_be_bytes|].
      apply to_be_bytes_lt; unfold u64, u64_max; lia.
    + apply elem_of_with_prefix. split; [done|]. by apply room_key_prefix.
Qed.

Lemma remove_old_receipt_run u r s :
  ReceiptInv s → count_ok s →
  ∃ s', remove_old_receipt u r s = (Ok (), s') ∧ count s' = count s ∧
    (∀ k v, db_map s' readreceiptid_readreceipt !! k = Some v → db_map s readreceiptid_readreceipt !! k = Some v) ∧
    ∀ r' c' u' v, c' ≤ count s →
      db_map s' readreceiptid_readreceipt !! receipt_key r' c' u' = Some v ↔
      (r', u') ≠ (r, u) ∧ db_map s readreceiptid_readreceipt !! receipt_key r' c' u' = Some v.
Proof.
  intros HI Hc. pose proof (find_receipt r u s HI Hc) as Hf. destruct HI as [Hk Hu].
  unfold remove_old_receipt, t_iter_from. db_step. unfold count_ok in Hc.
  destruct (list_find _ _) as [[i [k v]]|].
  - destruct Hf as (c & Hle & Ek & Hv). cbn [fst snd] in *. subst k. rewrite t_remove_run.
    eexists. split; [done|]. db_simpl. split_and!; [done|by intros k w [_ ?]%lookup_delete_Some|].
    intros r' c' u' w Hle'. rewrite lookup_delete_Some. split.
    + intros [Hne Hw]. split; [|done]. intros [= -> ->]. apply Hne. f_equal. eapply Hu; eauto.
    + intros [Hne Hw]. split; [|done].
      intros (-> & -> & ->)%receipt_key_inj; [done|unfold u64; lia..].
  - exists s. split_and!; [done..|]. intros r' c' u' w Hle'. split; [|tauto].
    intros Hw. split; [|done]. intros [= -> ->]. by rewrite Hf in Hw.
Qed.

Lemma receipt_count s r c u :
  ReceiptInv s → count_ok s → u64 c → is_Some (db_map s readreceiptid_readreceipt !! receipt_key r c u) →
  c ≤ count s.
Proof.
  intros [Hk _] Hc Hu [v Hv]. unfold count_ok in Hc. destruct (Hk _ _ Hv) as (? & ? & ? & ? & E).
  apply receipt_key_inj in E as (_ & ? & _); unfold u64 in *; lia.
Qed.

(** The tree once the old receipt is gone and the new one written. *)
Lemma receipt_written u r x s s1 :
  ReceiptInv s → count_ok s →
  (∀ k v, db_map s1 readreceiptid_readreceipt !! k = Some v → db_map s readreceiptid_readreceipt !! k = Some v) →
  (∀ r' c' u' v, c' ≤ count s →
    db_map s1 readreceiptid_readreceipt !! receipt_key r' c' u' = Some v ↔
    (r', u') ≠ (r, u) ∧ db_map s readreceiptid_readreceipt !! receipt_key r' c' u' = Some v) →
  ∀ r' c' u' v, c' ≤ count s + 1 →
    <[receipt_key r (count s + 1) u := x]> (db_map s1 readreceiptid_readreceipt) !! receipt_key r' c' u' = Some v ↔
    if decide ((r', u') = (r, u)) then c' = count s + 1 ∧ v = x
    else db_map s readreceiptid_readreceipt !! receipt_key r' c' u' = Some v.
Proof.
  intros HI Hc Hsub Hs1 r' c' u' v Hle. pose proof (receipt_count s r' c' u' HI Hc) as Hcnt.
  unfold count_ok in Hc. rewrite lookup_insert_Some. destruct (decide (c' = count s + 1)) as [->|Hne].
  - destruct (db_map s readreceiptid_readreceipt !! receipt_key r' _ u') as [w|] eqn:Hw.
    { enough (count s + 1 ≤ count s) by lia. apply Hcnt; [unfold u64; lia|eauto]. }
    case_decide as Hd.
    + injection Hd as -> ->. naive_solver.
    + split; [|done]. intros [[(-> & _ & ->)%receipt_key_inj _]|[_ Hv%Hsub]]; [done|unfold u64; lia..|congruence].
  - rewrite Hs1 by lia. assert (receipt_key r (count s + 1) u ≠ receipt_key r' c' u') as Hkn.
    { intros (_ & ? & _)%receipt_key_inj; unfold u64; lia. }
    case_decide; naive_solver.
Qed.

(** A new receipt replaces the user's previous one in the room and touches
    no other receipt; each user keeps at most one receipt per room. *)
Theorem readreceipt_update_correct u r event s :
  ReceiptInv s → count_ok s →
  ∃ s', readreceipt_update u r event s = (Ok (), s') ∧ ReceiptInv s' ∧
    ∀ r' c' u' v, c' ≤ count s + 1 →
      db_map s' readreceiptid_readreceipt !! receipt_key r' c' u' = Some v ↔
      if decide ((r', u') = (r, u)) then c' = count s + 1 ∧ v = to_vec event
      else db_map s readreceiptid_readreceipt !! receipt_key r' c' u' = Some v.
Proof.
  intros HI Hc. destruct (remove_old_receipt_run u r s HI Hc) as (s1 & E1 & Hc1 & Hsub & Hs1).
  pose proof (receipt_written u r (to_vec event) s s1 HI Hc Hsub Hs1) as Hspec.
  assert (count_ok s1) as Hok by (unfold count_ok; by rewrite Hc1).
  pose proof (count_bump_ok s1 Hok) as Hb. unfold readreceipt_update.
  rewrite (bind_Ok _ _ _ _ _ E1), (bind_Ok _ _ _ _ _ (next_count_ok s1 Hok)), t_insert_run, Hc1 in *.
  eexists. split; [done|]. set (s' := put _ _ _ _).
  assert (count s' = count s + 1) as Hcnt by (unfold s'; db_simpl; lia).
  assert (db_map s' readreceiptid_readreceipt =
    <[receipt_key r (count s + 1) u := to_vec event]> (db_map s1 readreceiptid_readreceipt)) as Em
    by (unfold s'; by db_simpl).
  rewrite <- Em in Hspec. split; [|done]. split; rewrite Hcnt.
  - intros k v. rewrite Em. intros [[<- _]|[_ Hv%Hsub]]%lookup_insert_Some; [by eexists r, _, u|].
    destruct (rr_keyed s HI k v Hv) as (r1 & c1 & u1 & ? & ->). exists r1, c1, u1. split; [lia|done].
  - intros r1 u1 c1 c2 [v1 H1] [v2 H2] Hle1 Hle2. apply Hspec in H1, H2; [|done..].
    case_decide; [destruct H1, H2; congruence|]. unfold count_ok in Hc.
    apply (rr_unique s HI r1 u1); eauto; eapply receipt_count; eauto; unfold u64; lia.
Qed.
End edus.
