(* ===== verification/Uiaa.v ===== *)
(** * User-interactive authentication
    ([src/database/key_value/uiaa.rs], [src/service/uiaa/mod.rs])

    A client that must authenticate again works through the stages of one of
    the offered flows; the stages done so far are kept per session. *)

From S2P Require Import Prelude Bytes RStr Error Utils KvTree Env Db Keys Globals Users.

Section uiaa.
Context {Ev : Env}.
Implicit Types s : State.

(** ** Stored sessions *)

Definition userdevicesessionid (user_id : UserId) (device_id : DeviceId) (session : rstr) : bytes :=
  key2 (idb user_id) (key2 (as_bytes device_id) (as_bytes session)).

Definition set_uiaa_request (user_id : UserId) (device_id : DeviceId) (session : rstr) (request : json) : DB unit :=
  modify (λ s, set_userdevicesessionid_uiaarequest
    (<[(user_id, device_id, session) := request]> (userdevicesessionid_uiaarequest s)) s).

Definition get_uiaa_request (user_id : UserId) (device_id : DeviceId) (session : rstr) : DB (option json) :=
  gets (λ s, userdevicesessionid_uiaarequest s !! (user_id, device_id, session)).

Definition update_uiaa_session (user_id : UserId) (device_id : DeviceId) (session : rstr)
    (uiaainfo : option UiaaInfo) : DB unit :=
  let key := userdevicesessionid user_id device_id session in
  match uiaainfo with
  | Some uiaainfo => t_insert userdevicesessionid_uiaainfo key (to_vec uiaainfo)
  | None => t_remove userdevicesessionid_uiaainfo key
  end.

Definition get_uiaa_session (user_id : UserId) (device_id : DeviceId) (session : rstr) : DB UiaaInfo :=
  o ← t_get userdevicesessionid_uiaainfo (userdevicesessionid user_id device_id session);
  b ← lift (ok_or o (BadRequest Forbidden "UIAA session does not exist."));
  lift (ok_or (from_slice b) (BadDatabase "UiaaInfo in userdeviceid_uiaainfo is invalid.")).

(** ** Authentication data (ruma's [AuthData]) *)

Inductive UserIdentifier := UserIdOrLocalpart (username : rstr) | OtherIdentifier.

Inductive AuthData :=
  | AuthPassword (identifier : UserIdentifier) (password : rstr) (session : option rstr)
  | AuthDummy (session : option rstr)
  | AuthUnsupported (session : option rstr).

Definition auth_session (auth : AuthData) : option rstr :=
  match auth with AuthPassword _ _ session | AuthDummy session | AuthUnsupported session => session end.

Definition with_session (session : option rstr) (i : UiaaInfo) : UiaaInfo :=
  {| ui_flows := ui_flows i; ui_completed := ui_completed i; ui_params := ui_params i;
     ui_session := session; ui_auth_error := ui_auth_error i |}.
Definition with_auth_error (e : StandardErrorBody) (i : UiaaInfo) : UiaaInfo :=
  {| ui_flows := ui_flows i; ui_completed := ui_completed i; ui_params := ui_params i;
     ui_session := ui_session i; ui_auth_error := Some e |}.
(** [uiaainfo.completed.push(stage)] *)
Definition push_completed (stage : AuthType) (i : UiaaInfo) : UiaaInfo :=
  {| ui_flows := ui_flows i; ui_completed := ui_completed i ++ [stage]; ui_params := ui_params i;
     ui_session := ui_session i; ui_auth_error := ui_auth_error i |}.

(** ** The service *)

Definition create (user_id : UserId) (device_id : DeviceId) (uiaainfo : UiaaInfo) (json_body : json) : DB unit :=
  session ← lift (expect (ui_session uiaainfo) "session should be set");
  set_uiaa_request user_id device_id session json_body ;;
  update_uiaa_session user_id device_id session (Some uiaainfo).

(** [argon2::verify_encoded(&hash, password).unwrap_or(false)] *)
Definition hash_matches (hash password : rstr) : bool := default false (argon2_verify hash password).

(** A wrong password ends the attempt with an error in the answer ([inl]); a
    stage that is done is recorded ([inr]). *)
Definition check_stage (auth : AuthData) (uiaainfo : UiaaInfo) : DB (UiaaInfo + UiaaInfo) :=
  match auth with
  | AuthPassword OtherIdentifier _ _ => fail (BadRequest Unrecognized "Identifier type not recognized.")
  | AuthPassword (UserIdOrLocalpart username) password _ =>
      user_id ← lift (ok_or (parse_with_server_name username server_name)
                        (BadRequest InvalidParam "User ID is invalid."));
      o ← password_hash user_id;
      match o with
      | Some hash =>
          if hash_matches hash password then mret (inr (push_completed APassword uiaainfo))
          else mret (inl (with_auth_error
                 {| eb_kind := Forbidden; eb_message := "Invalid username or password." |} uiaainfo))
      | None => mret (inr (push_completed APassword uiaainfo))
      end
  | AuthDummy _ => mret (inr (push_completed ADummy uiaainfo))
  | AuthUnsupported _ => mret (inr uiaainfo)
  end.

(** The loop over the flows: the last flow all of whose stages are completed
    sets the flag. *)
Definition flow_done (uiaainfo : UiaaInfo) (flow : list AuthType) : bool :=
  forallb (λ stage, bool_decide (stage ∈ ui_completed uiaainfo)) flow.
Definition flows_completed (uiaainfo : UiaaInfo) : bool :=
  foldl (λ completed flow, if flow_done uiaainfo flow then true else completed) false (ui_flows uiaainfo).

(** [random_session] is the string drawn for a session without identifier. *)
Definition try_auth (random_session : rstr) (user_id : UserId) (device_id : DeviceId) (auth : AuthData)
    (uiaainfo : UiaaInfo) : DB (bool * UiaaInfo) :=
  uiaainfo ← match auth_session auth with
             | Some session => get_uiaa_session user_id device_id session
             | None => mret uiaainfo
             end;
  let session := default random_session (ui_session uiaainfo) in
  let uiaainfo := with_session (Some session) uiaainfo in
  r ← check_stage auth uiaainfo;
  match (r : UiaaInfo + UiaaInfo) with
  | inl uiaainfo => mret (false, uiaainfo)
  | inr uiaainfo =>
      if flows_completed uiaainfo then
        update_uiaa_session user_id device_id session None ;; mret (true, uiaainfo)
      else
        update_uiaa_session user_id device_id session (Some uiaainfo) ;; mret (false, uiaainfo)
  end.

(** ** Theorems *)

Lemma userdevicesessionid_inj u u' d d' x x' :
  userdevicesessionid u d x = userdevicesessionid u' d' x' → u = u' ∧ d = d' ∧ x = x'.
Proof.
  intros [Eu [Ed Ex]%key2_inj]%key2_inj; [|auto with kv..].
  split_and!; [by apply (inj idb)|by apply (inj as_bytes)..].
Qed.

Lemma get_uiaa_session_run u d x s :
  get_uiaa_session u d x s =
    (b ← ok_or (db_map s userdevicesessionid_uiaainfo !! userdevicesessionid u d x)
           (BadRequest Forbidden "UIAA session does not exist.");
     ok_or (from_slice b) (BadDatabase "UiaaInfo in userdeviceid_uiaainfo is invalid."), s).
Proof. unfold get_uiaa_session. db_step. by destruct (_ !! _). Qed.

Lemma get_uiaa_session_put u d x i u' d' x' s :
  (get_uiaa_session u' d' x' (put userdevicesessionid_uiaainfo (userdevicesessionid u d x) (to_vec i) s)).1 =
  if decide ((u', d', x') = (u, d, x)) then Ok i else (get_uiaa_session u' d' x' s).1.
Proof.
  rewrite !get_uiaa_session_run. db_simpl. case_decide as Hd.
  - injection Hd as -> -> ->. rewrite lookup_insert_eq. cbn. by rewrite from_slice_to_vec.
  - rewrite lookup_insert_ne; [done|]. intros (-> & -> & ->)%userdevicesessionid_inj. done.
Qed.

Lemma get_uiaa_session_del u d x u' d' x' s :
  (get_uiaa_session u' d' x' (del userdevicesessionid_uiaainfo (userdevicesessionid u d x) s)).1 =
  if decide ((u', d', x') = (u, d, x)) then Err (BadRequest Forbidden "UIAA session does not exist.")
  else (get_uiaa_session u' d' x' s).1.
Proof.
  rewrite !get_uiaa_session_run. db_simpl. case_decide as Hd.
  - injection Hd as -> -> ->. by rewrite lookup_delete_eq.
  - rewrite lookup_delete_ne; [done|]. intros (-> & -> & ->)%userdevicesessionid_inj. done.
Qed.

Lemma flows_completed_spec i :
  flows_completed i = true ↔ ∃ flow, flow ∈ ui_flows i ∧ ∀ stage, stage ∈ flow → stage ∈ ui_completed i.
Proof.
  assert (∀ flow, flow_done i flow = true ↔ ∀ stage, stage ∈ flow → stage ∈ ui_completed i) as Hd.
  { intros flow. unfold flow_done. rewrite forallb_forall. setoid_rewrite bool_decide_eq_true.
    by setoid_rewrite list_elem_of_In. }
  assert (∀ l b, foldl (λ c flow, if flow_done i flow then true else c) b l = true ↔
    b = true ∨ ∃ flow, flow ∈ l ∧ flow_done i flow = true) as Hf.
  { intros l. induction l as [|f l IH]; intros b; cbn [foldl].
    - split; [by left|]. intros [?|(? & ?%not_elem_of_nil & _)]; done.
    - rewrite IH. destruct (flow_done i f) eqn:E; split.
      + intros _. right. exists f. split; [by left|done].
      + by left.
      + intros [->|(f' & ? & ?)]; [by left|right]. exists f'. split; [by right|done].
      + intros [->|(f' & [->|?]%elem_of_cons & E')]; [by left|congruence|right]. by exists f'. }
  unfold flows_completed. rewrite Hf. split.
  - intros [?|(f & ? & ?)]; [done|]. exists f. split; [done|]. by apply Hd.
  - intros (f & ? & ?). right. exists f. split; [done|]. by apply Hd.
Qed.

(** The session an attempt works on, and what it starts from. *)
Lemma try_auth_start rnd u d auth i0 s i :
  match auth_session auth with
  | Some session => get_uiaa_session u d session
  | None => mret i0
  end s = (Ok i, s) →
  try_auth rnd u d auth i0 s =
    (let session := default rnd (ui_session i) in
     r ← check_stage auth (with_session (Some session) i);
     match (r : UiaaInfo + UiaaInfo) with
     | inl i => mret (false, i)
     | inr i => if flows_completed i then update_uiaa_session u d session None ;; mret (true, i)
                else update_uiaa_session u d session (Some i) ;; mret (false, i)
     end) s.
Proof. intros E. unfold try_auth. by rewrite (bind_Ok _ _ _ _ _ E). Qed.

(** The stages an attempt adds. *)
Definition stage_of (auth : AuthData) : list AuthType :=
  match auth with AuthPassword _ _ _ => [APassword] | AuthDummy _ => [ADummy] | AuthUnsupported _ => [] end.

(** The password of the user named by the client, if he has one, matches. *)
Definition password_ok (auth : AuthData) s : Prop :=
  match auth with
  | AuthPassword (UserIdOrLocalpart username) password _ =>
      ∃ user_id, parse_with_server_name username server_name = Some user_id ∧
        ∀ hash, (password_hash user_id s).1 = Ok (Some hash) → hash_matches hash password = true
  | AuthPassword OtherIdentifier _ _ => False
  | _ => True
  end.

Lemma password_hash_state v s : (password_hash v s).2 = s.
Proof.
  unfold password_hash. db_step. by destruct (_ !! _).
Qed.

Lemma check_stage_inr auth i s i' s' :
  check_stage auth i s = (Ok (inr i'), s') →
  s' = s ∧ password_ok auth s ∧ ui_completed i' = ui_completed i ++ stage_of auth ∧
  ui_flows i' = ui_flows i ∧ ui_session i' = ui_session i.
Proof.
  destruct auth as [[username|] password x|x|x]; cbn [check_stage password_ok stage_of].
  - unfold lift at 1. unfold mbind at 1, M_bind at 1.
    destruct (parse_with_server_name _ _) as [v|]; [|done]. cbn [ok_or].
    pose proof (password_hash_state v s) as Hs. unfold mbind, M_bind.
    destruct (password_hash v s) as [[o| |] s1] eqn:E; [|done..]. cbn in Hs. subst s1.
    destruct o as [hash|]; [destruct (hash_matches _ _) eqn:Em|]; [|done|].
    + intros [= <- <-]. split_and!; try done. exists v. split; [done|]. intros h. rewrite E. cbn. by intros [= <-].
    + intros [= <- <-]. split_and!; try done. exists v. split; [done|]. intros h. by rewrite E.
  - done.
  - by intros [= <- <-].
  - intros [= <- <-]. by rewrite app_nil_r.
Qed.

(** An attempt succeeds only when every stage of one of the session's flows
    is completed by it and its predecessors, a password stage only with a
    password that matches the account's; success ends the session. *)
Theorem try_auth_sound rnd u d auth i0 s i' s' :
  try_auth rnd u d auth i0 s = (Ok (true, i'), s') →
  ∃ i session,
    match auth_session auth with
    | Some x => get_uiaa_session u d x s = (Ok i, s)
    | None => i = i0
    end ∧
    session = default rnd (ui_session i) ∧ ui_session i' = Some session ∧
    password_ok auth s ∧
    ui_completed i' = ui_completed i ++ stage_of auth ∧
    (∃ flow, flow ∈ ui_flows i ∧ ∀ stage, stage ∈ flow → stage ∈ ui_completed i') ∧
    (get_uiaa_session u d session s').1 = Err (BadRequest Forbidden "UIAA session does not exist.").
Proof.
  intros H. pose proof H as H0. unfold try_auth in H0. apply bind_Ok_inv in H0 as (i & s1 & E1 & _).
  assert (s1 = s) as ->.
  { destruct (auth_session auth); [|by injection E1]. rewrite get_uiaa_session_run in E1. by injection E1. }
  rewrite (try_auth_start _ _ _ _ _ _ _ E1) in H. cbv zeta in H.
  apply bind_Ok_inv in H as ([i1|i1] & s1 & E2 & H); [done|].
  apply check_stage_inr in E2 as (-> & Hp & Hc & Hf & Hs). cbn [with_session ui_completed ui_flows ui_session] in *.
  destruct (flows_completed i1) eqn:Ef; [|by revert H; unfold update_uiaa_session; db_step].
  revert H. unfold update_uiaa_session. db_step. unfold mret, M_ret. intros [= -> <-].
  exists i, (default rnd (ui_session i)). split_and!; try done.
  - destruct (auth_session auth); [done|]. by injection E1.
  - apply flows_completed_spec in Ef. by rewrite Hf in Ef.
  - rewrite get_uiaa_session_del. by rewrite decide_True.
Qed.

Lemma check_stage_inl auth i s i' s' :
  check_stage auth i s = (Ok (inl i'), s') →
  s' = s ∧ ¬ password_ok auth s ∧
  i' = with_auth_error {| eb_kind := Forbidden; eb_message := "Invalid username or password." |} i.
Proof.
  destruct auth as [[username|] password x|x|x]; cbn [check_stage password_ok]; [|done..].
  unfold lift at 1. unfold mbind at 1, M_bind at 1.
  destruct (parse_with_server_name _ _) as [v|]; [|done]. cbn [ok_or].
  pose proof (password_hash_state v s) as Hs. unfold mbind, M_bind.
  destruct (password_hash v s) as [[o| |] s1] eqn:E; [|done..]. cbn in Hs. subst s1.
  destruct o as [hash|]; [destruct (hash_matches _ _) eqn:Em|]; [done| |done].
  intros [= <- <-]. split_and!; try done. intros (v' & [= <-] & Hh). rewrite Hh in Em; [done|by rewrite E].
Qed.

(** An attempt that does not finish either had a wrong password, and then
    nothing is stored, or is recorded: no flow is complete yet, and the next
    attempt with this session starts from what this one reached. *)
Theorem try_auth_progress rnd u d auth i0 s i' s' :
  try_auth rnd u d auth i0 s = (Ok (false, i'), s') →
  (s' = s ∧ ¬ password_ok auth s ∧ ui_auth_error i' ≠ None) ∨
  (password_ok auth s ∧
   (¬ ∃ flow, flow ∈ ui_flows i' ∧ ∀ stage, stage ∈ flow → stage ∈ ui_completed i') ∧
   ∃ session, ui_session i' = Some session ∧ get_uiaa_session u d session s' = (Ok i', s')).
Proof.
  intros H. pose proof H as H0. unfold try_auth in H0. apply bind_Ok_inv in H0 as (i & s1 & E1 & _).
  assert (s1 = s) as ->.
  { destruct (auth_session auth); [|by injection E1]. rewrite get_uiaa_session_run in E1. by injection E1. }
  rewrite (try_auth_start _ _ _ _ _ _ _ E1) in H. cbv zeta in H.
  apply bind_Ok_inv in H as ([i1|i1] & s1 & E2 & H).
  - apply check_stage_inl in E2 as (-> & Hp & ->). injection H as <- <-. by left.
  - right. apply check_stage_inr in E2 as (-> & Hp & _ & Hf & Hs). cbn [with_session ui_session] in Hs.
    revert H. destruct (flows_completed i1) eqn:Ef; unfold update_uiaa_session; db_step; unfold mret, M_ret; [done|].
    intros [= -> <-]. split_and!; [done|by rewrite <- flows_completed_spec, Ef|].
    exists (default rnd (ui_session i)). split; [done|]. rewrite get_uiaa_session_run. f_equal. db_simpl.
    rewrite lookup_insert_eq. cbn. by rewrite from_slice_to_vec.
Qed.

(** A password stage is completed with any password when the named user
    does not exist. *)
Theorem try_auth_unknown_user rnd u d username password v i s :
  parse_with_server_name username server_name = Some v → password_hash v s = (Ok None, s) →
  ui_flows i = [[APassword]] → ui_session i = None →
  ∃ i' s', try_auth rnd u d (AuthPassword (UserIdOrLocalpart username) password None) i s = (Ok (true, i'), s').
Proof.
  intros Ep Eh Ef Es. erewrite try_auth_start by done. rewrite Es. cbn [default from_option].
  assert (check_stage (AuthPassword (UserIdOrLocalpart username) password None) (with_session (Some rnd) i) s =
    (Ok (inr (push_completed APassword (with_session (Some rnd) i))), s)) as Hc.
  { cbn [check_stage]. rewrite Ep. cbn [ok_or]. db_step. by rewrite (bind_Ok _ _ _ _ _ Eh). }
  rewrite (bind_Ok _ _ _ _ _ Hc).
  assert (flows_completed (push_completed APassword (with_session (Some rnd) i)) = true) as ->.
  { apply flows_completed_spec. exists [APassword]. cbn. rewrite Ef. split; [by left|].
    intros ? ->%list_elem_of_singleton. apply elem_of_app. right. by left. }
  cbn [update_uiaa_session]. db_step. eauto.
Qed.
End uiaa.
