(* ===== verification/Sending.v ===== *)
(** * The outgoing queue ([src/database/key_value/sending.rs])

    Requests to other servers, push gateways and appservices wait in
    [servernameevent_data] and move to [servercurrentevent_data] while a
    transaction with them is under way.  A key is the prefix of the destination
    followed by the position of the event; [parse_servercurrentevent] reads it. *)

From S2P Require Import Prelude Bytes RStr Error Utils KvTree Env Db Keys Globals.

Section kinds.
Context {Ev : Env}.

Inductive OutgoingKind :=
  | Appservice (id : rstr)
  | Push (user : UserId) (pushkey : rstr)
  | Normal (server : ServerName).

Inductive SendingEventType := SPdu (pdu_id : bytes) | SEdu (edu : bytes).

#[export] Instance OutgoingKind_eq_dec : EqDecision OutgoingKind.
Proof. solve_decision. Defined.
#[export] Instance SendingEventType_eq_dec : EqDecision SendingEventType.
Proof. solve_decision. Defined.

#[export] Instance OutgoingKind_countable : Countable OutgoingKind.
Proof.
  refine (inj_countable'
    (λ k, match k with Appservice i => inl (inl i) | Push u p => inl (inr (u, p)) | Normal n => inr n end)
    (λ x, match x with inl (inl i) => Appservice i | inl (inr (u, p)) => Push u p | inr n => Normal n end) _).
  by intros [].
Defined.
End kinds.

Section sending.
Context {Ev : Env}.
Implicit Types s : State.

Definition get_prefix (k : OutgoingKind) : bytes :=
  match k with
  | Appservice server => b#"+" ++ as_bytes server
  | Push user pushkey => b#"$" ++ idb user ++ [sep] ++ as_bytes pushkey
  | Normal server => idb server
  end ++ [sep].

(** [if value.is_empty() { Pdu(event) } else { Edu(value) }] *)
Definition event_of (event value : bytes) : SendingEventType :=
  if bool_decide (value = []) then SPdu event else SEdu value.

Definition parse_servercurrentevent (key value : bytes) : res (OutgoingKind * SendingEventType) :=
  if starts_with key b#"+" then
    let parts := splitn_ff 2 (drop 1 key) in
    server ← expect (parts !! 0%nat) "splitn always returns one element";
    event ← ok_or (parts !! 1%nat) (BadDatabase "Invalid bytes in servercurrentpdus.");
    server ← ok_or (string_from_bytes server) (BadDatabase "Invalid server bytes in server_currenttransaction");
    Ok (Appservice server, event_of event value)
  else if starts_with key b#"$" then
    let parts := splitn_ff 3 (drop 1 key) in
    user ← expect (parts !! 0%nat) "splitn always returns one element";
    user_id ← parse_bytes "Invalid user string in servercurrentevent" "Invalid user id in servercurrentevent" user;
    pushkey ← ok_or (parts !! 1%nat) (BadDatabase "Invalid bytes in servercurrentpdus.");
    pushkey_string ← ok_or (string_from_bytes pushkey) (BadDatabase "Invalid pushkey in servercurrentevent");
    event ← ok_or (parts !! 2%nat) (BadDatabase "Invalid bytes in servercurrentpdus.");
    Ok (Push user_id pushkey_string, event_of event value)
  else
    let parts := splitn_ff 2 key in
    server ← expect (parts !! 0%nat) "splitn always returns one element";
    event ← ok_or (parts !! 1%nat) (BadDatabase "Invalid bytes in servercurrentpdus.");
    server ← parse_bytes "Invalid server bytes in server_currenttransaction"
               "Invalid server string in server_currenttransaction" server;
    Ok (Normal server, event_of event value).

(** The value stored for an event: the EDU itself, nothing for a PDU. *)
Definition event_value (e : SendingEventType) : bytes :=
  match e with SEdu value => value | SPdu _ => [] end.

Definition active_requests : DB (list (res (bytes * OutgoingKind * SendingEventType))) :=
  l ← t_iter servercurrentevent_data;
  mret ((λ e : entry, '(k, ev) ← parse_servercurrentevent e.1 e.2; Ok (e.1, k, ev)) <$> l).

Definition active_requests_for (outgoing_kind : OutgoingKind) : DB (list (res (bytes * SendingEventType))) :=
  l ← t_scan_prefix servercurrentevent_data (get_prefix outgoing_kind);
  mret ((λ e : entry, '(_, ev) ← parse_servercurrentevent e.1 e.2; Ok (e.1, ev)) <$> l).

Definition delete_active_request (key : bytes) : DB unit := t_remove servercurrentevent_data key.

Definition delete_all_active_requests_for (outgoing_kind : OutgoingKind) : DB unit :=
  t_remove_prefix servercurrentevent_data (get_prefix outgoing_kind).

Definition delete_all_requests_for (outgoing_kind : OutgoingKind) : DB unit :=
  t_remove_prefix servercurrentevent_data (get_prefix outgoing_kind) ;;
  t_remove_prefix servernameevent_data (get_prefix outgoing_kind).

(** The key of a request: a PDU's position, or the next count for an EDU. *)
Definition request_key (outgoing_kind : OutgoingKind) (event : SendingEventType) : DB bytes :=
  match event with
  | SPdu value => mret (get_prefix outgoing_kind ++ value)
  | SEdu _ => c ← next_count; mret (get_prefix outgoing_kind ++ to_be_bytes c)
  end.

Definition queue_requests (requests : list (OutgoingKind * SendingEventType)) : DB (list bytes) :=
  batch ← for_fold requests [] (λ batch r,
    key ← request_key r.1 r.2;
    mret (batch ++ [(key, event_value r.2)]));
  t_insert_batch servernameevent_data batch ;;
  mret batch.*1.

Definition queued_requests (outgoing_kind : OutgoingKind) : DB (list (res (SendingEventType * bytes))) :=
  l ← t_scan_prefix servernameevent_data (get_prefix outgoing_kind);
  mret ((λ e : entry, '(_, ev) ← parse_servercurrentevent e.1 e.2; Ok (ev, e.1)) <$> l).

Definition mark_one (e : SendingEventType * bytes) : DB unit :=
  t_insert servercurrentevent_data e.2 (event_value e.1) ;;
  t_remove servernameevent_data e.2.
Definition mark_as_active (events : list (SendingEventType * bytes)) : DB unit := for_each events mark_one.

Definition set_latest_educount (server_name : ServerName) (last_count : N) : DB unit :=
  t_insert servername_educount (idb server_name) (to_be_bytes last_count).

Definition get_latest_educount (server_name : ServerName) : DB N :=
  o ← t_get servername_educount (idb server_name);
  lift (match o with
        | None => Ok 0
        | Some b => ok_or (u64_from_bytes b) (BadDatabase "Invalid u64 in servername_educount.")
        end).

(** ** Theorems *)

(** Server names begin with neither of the marks of the other kinds. *)
Definition servers_unmarked : Prop :=
  ∀ n : ServerName, starts_with (idb n) b#"+" = false ∧ starts_with (idb n) b#"$" = false.
End sending.

Section sending_theorems.
Context {Ev : Env} (Hservers : servers_unmarked).
Implicit Types s : State.

Lemma starts_with_cons b x r : starts_with (x :: r) [b] = bool_decide (b = x).
Proof.
  case_bool_decide; [subst; apply (starts_with_app [x])|]. apply starts_with_false. intros [? [= ??]]. done.
Qed.

Lemma starts_with_byte b x k r :
  starts_with (k ++ x :: r) [b] = if bool_decide (k = []) then bool_decide (b = x) else starts_with k [b].
Proof.
  destruct k as [|y k]; cbn [app]; rewrite !starts_with_cons.
  - by rewrite (bool_decide_true ([] = [])).
  - by rewrite (bool_decide_false (y :: k = [])).
Qed.

(** Reading back a key: the destination and the rest. *)
Lemma parse_key k rest value :
  parse_servercurrentevent (get_prefix k ++ rest) value = Ok (k, event_of rest value).
Proof using Hservers.
  unfold parse_servercurrentevent, get_prefix. destruct k as [i|u p|n].
  - change b#"+" with [Byte.x2b]. rewrite <- !app_assoc, starts_with_app. cbn [app drop]. rewrite ?drop_0.
    rewrite splitn2_app by auto with kv. cbn. unfold string_from_bytes. by rewrite from_utf8_as_bytes.
  - change b#"+" with [Byte.x2b]. change b#"$" with [Byte.x24]. rewrite <- !app_assoc. cbn [app].
    rewrite !starts_with_cons. rewrite bool_decide_false, bool_decide_true by done.
    cbn [drop]. rewrite !drop_0. cbn [splitn_ff]. rewrite cut_ff_app by auto with kv. cbn. rewrite cut_ff_app by auto with kv.
    rewrite parse_bytes_idb. cbn. unfold string_from_bytes. by rewrite from_utf8_as_bytes.
  - destruct (Hservers n) as [H1 H2]. change b#"+" with [Byte.x2b] in *. change b#"$" with [Byte.x24] in *.
    rewrite <- !app_assoc. cbn [app]. rewrite !starts_with_byte, H1, H2.
    rewrite splitn2_app by auto with kv. cbn [lookup list_lookup expect mbind res_bind ok_or].
    rewrite parse_bytes_idb. by case_bool_decide as E.
Qed.

Lemma parse_prefix k key value :
  get_prefix k `prefix_of` key → ∃ rest, parse_servercurrentevent key value = Ok (k, event_of rest value).
Proof using Hservers. intros [rest ->]. exists rest. apply parse_key. Qed.

(** No key has the prefixes of two destinations. *)
Lemma get_prefix_inj k k' key : get_prefix k `prefix_of` key → get_prefix k' `prefix_of` key → k = k'.
Proof using Hservers.
  intros (r & E)%(parse_prefix _ _ []) (r' & E')%(parse_prefix _ _ []). rewrite E in E'. by injection E'.
Qed.

(** An event that can be told from its stored form: an EDU is not empty. *)
Definition wf_event (e : SendingEventType) : Prop := e ≠ SEdu [].

Lemma event_of_value rest e :
  wf_event e → (∀ p, e = SPdu p → rest = p) → event_of rest (event_value e) = e.
Proof.
  intros He Hp. destruct e as [p|v]; unfold event_of; cbn.
  - f_equal. by apply Hp.
  - rewrite bool_decide_false; [done|]. intros ->. done.
Qed.

Lemma request_key_run k e s :
  ∃ rest s', request_key k e s = (Ok (get_prefix k ++ rest), s') ∧ (∀ p, e = SPdu p → rest = p) ∧
    ∀ t, t ≠ global → db_map s' t = db_map s t.
Proof.
  destruct e as [p|v]; cbn [request_key].
  - exists p, s. split_and!; [done|by intros ? [= <-]|done].
  - rewrite (bind_Ok _ _ _ _ _ (next_count_run s)). eexists _, _. split_and!; [done..|].
    intros t Ht. by apply db_map_bump_ne.
Qed.

Lemma db_map_insert_batch t l s : db_map (t_insert_batch t l s).2 t = insert_all (db_map s t) l.
Proof. cbn. by rewrite db_map_upd_eq, contents_insert_batch. Qed.
Lemma db_map_insert_batch_ne t t' l s : t ≠ t' → db_map (t_insert_batch t l s).2 t' = db_map s t'.
Proof. intros. cbn. by rewrite db_map_upd_ne. Qed.

Lemma queue_loop_run reqs batch s :
  Forall (λ r, wf_event r.2) reqs →
  ∃ l s', for_fold reqs batch (λ batch r, key ← request_key r.1 r.2; mret (batch ++ [(key, event_value r.2)])) s =
      (Ok (batch ++ l), s') ∧
    Forall2 (λ (r : OutgoingKind * SendingEventType) (e : entry), get_prefix r.1 `prefix_of` e.1 ∧
      e.2 = event_value r.2 ∧ parse_servercurrentevent e.1 e.2 = Ok r) reqs l ∧
    ∀ t, t ≠ global → db_map s' t = db_map s t.
Proof using Hservers.
  revert batch s. induction reqs as [|[k e] reqs IH]; intros batch s Hwf; cbn [for_fold].
  { exists [], s. rewrite app_nil_r. split_and!; [done|constructor|done]. }
  apply Forall_cons in Hwf as [He Hwf]. cbn [fst snd] in *.
  destruct (request_key_run k e s) as (rest & s1 & E & Hrest & Hs1).
  destruct (IH (batch ++ [(get_prefix k ++ rest, event_value e)]) s1) as (l & s' & El & Hl & Hs'); [done|].
  exists ((get_prefix k ++ rest, event_value e) :: l), s'. split_and!.
  - erewrite bind_Ok by (rewrite (bind_Ok _ _ _ _ _ E); done). rewrite El. by rewrite <- app_assoc.
  - constructor; [|done]. cbn. split_and!; [by exists rest|done|]. by rewrite parse_key, event_of_value.
  - intros t Ht. by rewrite Hs', Hs1.
Qed.

(** Queueing requests: every one has a key of its destination under which the
    event can be read back. *)
Lemma queue_requests_run reqs s :
  Forall (λ r, wf_event r.2) reqs →
  ∃ l s', queue_requests reqs s = (Ok l.*1, s') ∧
    Forall2 (λ (r : OutgoingKind * SendingEventType) (e : entry), get_prefix r.1 `prefix_of` e.1 ∧
      e.2 = event_value r.2 ∧ parse_servercurrentevent e.1 e.2 = Ok r) reqs l ∧
    db_map s' servernameevent_data = insert_all (db_map s servernameevent_data) l ∧
    ∀ t, t ≠ global → t ≠ servernameevent_data → db_map s' t = db_map s t.
Proof using Hservers.
  intros Hwf. destruct (queue_loop_run reqs [] s Hwf) as (l & s1 & E & Hl & Hs1).
  exists l, (t_insert_batch servernameevent_data l s1).2. split_and!.
  - unfold queue_requests. by rewrite (bind_Ok _ _ _ _ _ E).
  - done.
  - rewrite db_map_insert_batch. by rewrite Hs1.
  - intros t Ht Ht'. rewrite db_map_insert_batch_ne by done. by apply Hs1.
Qed.

(** A request that is queued is among the queued requests of its
    destination, with the event that was sent, and no other destination's queue
    changes. *)
Theorem queue_roundtrip k e s :
  wf_event e → ∃ key s', queue_requests [(k, e)] s = (Ok [key], s') ∧
    (∃ l, queued_requests k s' = (Ok l, s') ∧ Ok (e, key) ∈ l) ∧
    ∀ k', k' ≠ k → (queued_requests k' s').1 = (queued_requests k' s).1.
Proof using Hservers.
  intros He. destruct (queue_requests_run [(k, e)] s) as (l & s' & E & Hl & Hq & _); [by repeat constructor|].
  apply Forall2_cons_inv_l in Hl as ([key v] & l' & (Hp & Hv & Hparse) & Hl & ->). apply Forall2_nil_inv_l in Hl as ->.
  cbn [fst snd] in *. subst v. cbn in Hq. exists key, s'. split_and!; [done|..]; unfold queued_requests.
  - db_step. eexists. split; [done|]. rewrite Hq. apply list_elem_of_fmap. exists (key, event_value e).
    cbn. rewrite Hparse. split; [done|]. apply elem_of_with_prefix. by rewrite lookup_insert_eq.
  - intros k' Hne. db_step. db_step. unfold mret, M_ret. cbn [fst]. do 2 f_equal. rewrite Hq.
    apply with_prefix_insert_other. intros Hp'. by eapply Hne, get_prefix_inj.
Qed.
End sending_theorems.
