(* ===== verification/SendingService.v ===== *)
(** * The sending service ([src/service/sending/mod.rs])

    One task owns the outgoing transactions: it starts one per destination,
    waits for their outcomes, batches what was queued meanwhile into the next
    transaction and backs off exponentially after failures.  The task is
    modelled as a transition system: its state is the database, the status of
    each destination, the transactions under way and the channel other tasks
    send requests through; its events are the outcomes of transactions (which
    the network decides), messages on the channel, and the work of other tasks. *)

From S2P Require Import Prelude Bytes RStr Error Utils KvTree Env Db Keys Globals StateCache DeviceKeys Edus Sending.

(** What the code uses of ruma's event and federation types. *)
Section federation.
Context {Ev : Env}.

(** [AnySyncEphemeralRoomEvent]: the receipts of each event, by type and user. *)
Inductive EphemeralEvent :=
  | EphemeralReceipt (content : list (EventId * list (rstr * list (UserId * bytes))))
  | EphemeralOther.

Inductive Edu :=
  | EduReceipt (room_id : RoomId) (user_id : UserId) (data : bytes) (event_ids : list EventId)
  | EduDeviceListUpdate (user_id : UserId).

Class FederationLib := {
  ephemeral_from_raw : Raw → option EphemeralEvent;
  edu_to_vec : Edu → bytes;
}.
End federation.

Fixpoint assoc {K V} `{!EqDecision K} (k : K) (l : list (K * V)) : option V :=
  match l with [] => None | (k', v) :: l => if decide (k = k') then Some v else assoc k l end.

Section service.
Context {Ev : Env} {Fed : FederationLib}.
Implicit Types s : State.

(** ** Ephemeral events for a server *)

(** The federation form of a receipt; [None] for another type of event. *)
Definition federation_event (room_id : RoomId) (user_id : UserId) (read_receipt : Raw) : res (option Edu) :=
  event ← ok_or (ephemeral_from_raw read_receipt) (BadDatabase "Invalid edu event in read_receipts.");
  match event with
  | EphemeralReceipt content =>
      '(event_id, receipt) ← expect (head content) "we only use one event per read receipt";
      receipt ← expect (assoc (lit "m.read") receipt) "our read receipts always set this";
      receipt ← expect (assoc user_id receipt) "our read receipts always have the user here";
      Ok (Some (EduReceipt room_id user_id receipt [event_id]))
  | EphemeralOther => Ok None
  end.

(** The loop over the receipts of a room; the flag says that there are enough
    events ([break 'outer]). *)
Fixpoint receipts_loop (room_id : RoomId) (l : list (res (UserId * N * Raw))) (events : list bytes)
    (max_edu_count : N) : res (list bytes * N * bool) :=
  match l with
  | [] => Ok (events, max_edu_count, false)
  | r :: l =>
      '(user_id, count, read_receipt) ← r;
      let max_edu_count := N.max max_edu_count count in
      if decide (user_server_name user_id = server_name) then
        o ← federation_event room_id user_id read_receipt;
        match o with
        | Some edu =>
            let events := events ++ [edu_to_vec edu] in
            if bool_decide (20 ≤ length events)%nat then Ok (events, max_edu_count, true)
            else receipts_loop room_id l events max_edu_count
        | None => receipts_loop room_id l events max_edu_count
        end
      else receipts_loop room_id l events max_edu_count
  end.

Fixpoint rooms_loop (since : N) (rooms : list (res RoomId)) (events : list bytes) (max_edu_count : N)
    (changes : gset UserId) : DB (list bytes * N * gset UserId) :=
  match rooms with
  | [] => mret (events, max_edu_count, changes)
  | room :: rooms =>
      room_id ← lift room;
      changed ← keys_changed (as_str room_id) since None;
      let local := filter (λ u : UserId, user_server_name u = server_name) (filter_map ok changed) in
      receipts ← readreceipts_since room_id since;
      r ← lift (receipts_loop room_id receipts events max_edu_count);
      let '(events, max_edu_count, enough) := (r : list bytes * N * bool) in
      let changes := changes ∪ list_to_set local in
      if enough then mret (events, max_edu_count, changes)
      else rooms_loop since rooms events max_edu_count changes
  end.

(** The device list updates follow in the order of the set. *)
Definition select_edus (server : ServerName) : DB (list bytes * N) :=
  since ← get_latest_educount server;
  rooms ← server_rooms server;
  r ← rooms_loop since rooms [] since ∅;
  let '(events, max_edu_count, changes) := (r : list bytes * N * gset UserId) in
  mret (events ++ ((λ u, edu_to_vec (EduDeviceListUpdate u)) <$> elements changes), max_edu_count).

(** ** The handler *)

(** Times are in milliseconds. *)
Inductive TransactionStatus :=
  | Running
  | Failed (tries : N) (time : N)
  | Retrying (tries : N).

Record HandlerState := MkHandler {
  h_db : State;
  h_status : gmap OutgoingKind TransactionStatus;
  h_futures : list (OutgoingKind * list SendingEventType);
  h_channel : list (OutgoingKind * SendingEventType * bytes)
}.
Definition set_db (x : State) (h : HandlerState) : HandlerState :=
  MkHandler x (h_status h) (h_futures h) (h_channel h).
Definition set_status (x : gmap OutgoingKind TransactionStatus) (h : HandlerState) : HandlerState :=
  MkHandler (h_db h) x (h_futures h) (h_channel h).
Definition set_futures (x : list (OutgoingKind * list SendingEventType)) (h : HandlerState) : HandlerState :=
  MkHandler (h_db h) (h_status h) x (h_channel h).
Definition set_channel (x : list (OutgoingKind * SendingEventType * bytes)) (h : HandlerState) : HandlerState :=
  MkHandler (h_db h) (h_status h) (h_futures h) x.

Abbreviation HM := (M HandlerState).

(** An operation on the database. *)
Definition indb {A} (m : DB A) : HM A := λ h, let '(r, s) := m (h_db h) in (r, set_db s h).

(** [futures.push(Self::handle_events(kind, events))] *)
Definition push_future (k : OutgoingKind) (events : list SendingEventType) : HM unit :=
  modify (λ h, set_futures (h_futures h ++ [(k, events)]) h).

(** [Duration::from_secs(30) * tries * tries], at most a day; the product must
    fit the seconds of a duration. *)
Definition DAY : N := 60 * 60 * 24.
Definition min_elapsed_duration (tries : N) : res N :=
  if bool_decide (30 * tries * tries < 2 ^ 64) then Ok (1000 * N.min (30 * tries * tries) DAY)
  else Panic "overflow when multiplying duration by scalar".

(** [entry.and_modify(..).or_insert(Running)]: the new status, [allow], [retry]. *)
Definition transaction_entry (t : N) (e : option TransactionStatus) : res (TransactionStatus * bool * bool) :=
  match e with
  | None => Ok (Running, true, false)
  | Some (Failed tries time) =>
      d ← min_elapsed_duration tries;
      if bool_decide (t - time < d) then Ok (Failed tries time, false, false)
      else Ok (Retrying tries, true, true)
  | Some e => Ok (e, false, false)
  end.

(** The EDUs that go with a new transaction to a server. *)
Definition add_edus (k : OutgoingKind) : DB (list SendingEventType) :=
  match k with
  | Normal server =>
      r ← try_ok (select_edus server);
      match r with
      | Some (edus, last_count) => set_latest_educount server last_count ;; mret (SEdu <$> edus)
      | None => mret []
      end
  | _ => mret []
  end.

Definition select_events (k : OutgoingKind) (new_events : list (SendingEventType * bytes)) :
    HM (option (list SendingEventType)) :=
  t ← gets (λ h, now (h_db h));
  status ← gets h_status;
  r ← lift (transaction_entry t (status !! k));
  let '(e, allow, retry) := (r : TransactionStatus * bool * bool) in
  modify (set_status (<[k := e]> status)) ;;
  if negb allow then mret None
  else if (retry : bool) then
    l ← indb (active_requests_for k);
    mret (Some (filter_map ok l).*2)
  else
    indb (mark_as_active new_events) ;;
    edus ← indb (add_edus k);
    mret (Some (new_events.*1 ++ edus)).

(** A transaction was delivered. *)
Definition on_success (k : OutgoingKind) : HM unit :=
  indb (delete_all_active_requests_for k) ;;
  l ← indb (queued_requests k);
  let new_events := take 30 (filter_map ok l) in
  if bool_decide (new_events ≠ []) then
    indb (mark_as_active new_events) ;;
    push_future k new_events.*1
  else modify (λ h, set_status (delete k (h_status h)) h).

(** A transaction failed; [u32] addition as in release builds. *)
Definition failed_status (t : N) (e : TransactionStatus) : TransactionStatus :=
  match e with
  | Running => Failed 1 t
  | Retrying n => Failed ((n + 1) mod 2 ^ 32) t
  | Failed n t' => Failed n t'
  end.
Definition on_failure (k : OutgoingKind) : HM unit :=
  modify (λ h, set_status (alter (failed_status (now (h_db h))) k (h_status h)) h).

(** A message on the channel. *)
Definition on_receive : HM unit :=
  c ← gets h_channel;
  match c with
  | [] => mret ()
  | (k, event, key) :: rest =>
      modify (set_channel rest) ;;
      o ← try_ok (select_events k [(event, key)]);
      match o with
      | Some (Some events) => push_future k events
      | _ => mret ()
      end
  end.

(** The start of the task: the transactions that were under way, at most 31
    requests each. *)
Definition initial_entry (m : gmap OutgoingKind (list SendingEventType))
    (r : bytes * OutgoingKind * SendingEventType) : DB (gmap OutgoingKind (list SendingEventType)) :=
  let '(key, k, event) := r in
  let entry := default [] (m !! k) in
  if bool_decide (30 < length entry)%nat then
    delete_active_request key ;; mret (<[k := entry]> m)
  else mret (<[k := entry ++ [event]]> m).

Definition handler_start : HM unit :=
  l ← indb active_requests;
  m ← indb (for_fold (filter_map ok l) ∅ initial_entry);
  for_each (map_to_list m) (λ e : OutgoingKind * list SendingEventType,
    modify (λ h, set_status (<[e.1 := Running]> (h_status h)) h) ;;
    push_future e.1 e.2).

(** ** Requests of other tasks *)

Definition enqueue (requests : list (OutgoingKind * SendingEventType)) : HM unit :=
  keys ← indb (queue_requests requests);
  modify (λ h, set_channel (h_channel h ++ zip requests keys) h).

Definition send_push_pdu (pdu_id : bytes) (user : UserId) (pushkey : rstr) : HM unit :=
  enqueue [(Push user pushkey, SPdu pdu_id)].
Definition send_pdu (servers : list ServerName) (pdu_id : bytes) : HM unit :=
  enqueue ((λ server, (Normal server, SPdu pdu_id)) <$> servers).
Definition send_reliable_edu (server : ServerName) (serialized : bytes) : HM unit :=
  enqueue [(Normal server, SEdu serialized)].
Definition send_pdu_appservice (appservice_id : rstr) (pdu_id : bytes) : HM unit :=
  enqueue [(Appservice appservice_id, SPdu pdu_id)].
Definition cleanup_events (appservice_id : rstr) : HM unit :=
  indb (delete_all_requests_for (Appservice appservice_id)).
End service.

(** ** The task as a transition system *)

Section transitions.
Context {Ev : Env} {Fed : FederationLib}.
Implicit Types (s : State) (h : HandlerState) (k : OutgoingKind).

Inductive label :=
  | LSuccess (k : OutgoingKind) (events : list SendingEventType)
  | LFailure (k : OutgoingKind) (events : list SendingEventType)
  | LReceive
  | LRequest
  | LCleanup (id : rstr)
  | LRestart
  | LOther.

(** The requests and what is left of them. *)
Definition current h : gmap bytes bytes := db_map (h_db h) servercurrentevent_data.
Definition queued h : gmap bytes bytes := db_map (h_db h) servernameevent_data.

Inductive step : HandlerState → label → HandlerState → Prop :=
  | step_success h k events l1 l2 h' :
      h_futures h = l1 ++ (k, events) :: l2 →
      on_success k (set_futures (l1 ++ l2) h) = (Ok (), h') → step h (LSuccess k events) h'
  | step_failure h k events l1 l2 h' :
      h_futures h = l1 ++ (k, events) :: l2 →
      on_failure k (set_futures (l1 ++ l2) h) = (Ok (), h') → step h (LFailure k events) h'
  | step_receive h h' : on_receive h = (Ok (), h') → step h LReceive h'
  | step_request h requests h' :
      Forall (λ r, wf_event r.2) requests → enqueue requests h = (Ok (), h') → step h LRequest h'
  | step_cleanup h id h' : cleanup_events id h = (Ok (), h') → step h (LCleanup id) h'
  (** the server stops at any time, and the task starts again on the same database *)
  | step_restart h h' : handler_start (MkHandler (h_db h) ∅ [] []) = (Ok (), h') → step h LRestart h'
  | step_other h s' :
      db_map s' servercurrentevent_data = current h → db_map s' servernameevent_data = queued h →
      step h LOther (set_db s' h).

(** The state before the task starts, and what it can reach. *)
Inductive reachable : HandlerState → Prop :=
  | reach_start s h' : handler_start (MkHandler s ∅ [] []) = (Ok (), h') → reachable h'
  | reach_step h l h' : reachable h → step h l h' → reachable h'.

Definition in_flight (st : TransactionStatus) : Prop :=
  match st with Running | Retrying _ => True | Failed _ _ => False end.

Record HandlerInv h : Prop := {
  hi_nodup : NoDup (h_futures h).*1;
  hi_status k : k ∈ (h_futures h).*1 ↔ ∃ st, h_status h !! k = Some st ∧ in_flight st;
  hi_active k events key v :
    (k, events) ∈ h_futures h → current h !! key = Some v → get_prefix k `prefix_of` key →
    ∃ e, parse_servercurrentevent key v = Ok (k, e) ∧ e ∈ events;
  hi_idle k key : h_status h !! k = None → get_prefix k `prefix_of` key → current h !! key = None;
  hi_channel k e key : (k, e, key) ∈ h_channel h →
    get_prefix k `prefix_of` key ∧ parse_servercurrentevent key (event_value e) = Ok (k, e);
}.

(** ** What the operations leave alone *)

Lemma keys_changed_reads x from to s : ∃ l, keys_changed x from to s = (Ok l, s).
Proof. by eexists. Qed.
Lemma readreceipts_since_reads r since s : ∃ l, readreceipts_since r since s = (Ok l, s).
Proof. by eexists. Qed.
Lemma server_rooms_reads n s : ∃ l, server_rooms n s = (Ok l, s).
Proof. by eexists. Qed.

Lemma rooms_loop_state since rooms events c changes s :
  (rooms_loop since rooms events c changes s).2 = s.
Proof.
  revert events c changes. induction rooms as [|[room_id| |] rooms IH]; intros; [done|cbn [rooms_loop]|done..].
  destruct (keys_changed_reads (as_str room_id) since None s) as [changed Ec].
  destruct (readreceipts_since_reads room_id since s) as [receipts Er].
  rewrite bind_lift_Ok, (bind_Ok _ _ _ _ _ Ec), (bind_Ok _ _ _ _ _ Er). unfold mbind, M_bind, lift.
  destruct (receipts_loop _ _ _ _) as [[[ev c'] [|]]| |]; [done|apply IH|done..].
Qed.

Lemma select_edus_state server s : (select_edus server s).2 = s.
Proof.
  unfold select_edus. destruct (server_rooms_reads server s) as [rooms Er].
  assert (∃ r, get_latest_educount server s = (r, s)) as [[since| |] Es];
    [unfold get_latest_educount; db_step; by eexists| |by unfold mbind, M_bind; rewrite Es..].
  rewrite (bind_Ok _ _ _ _ _ Es), (bind_Ok _ _ _ _ _ Er). unfold mbind, M_bind.
  pose proof (rooms_loop_state since rooms [] since ∅ s) as H.
  by destruct (rooms_loop _ _ _ _ _ s) as [[[[? ?] ?]| |] s'].
Qed.

Lemma add_edus_frame k s r s' t :
  add_edus k s = (r, s') → t ≠ servername_educount → db_map s' t = db_map s t.
Proof.
  intros E Ht. destruct k as [| |server]; [by injection E as _ <-..|]. unfold add_edus in E.
  unfold mbind at 1, M_bind at 1 in E. unfold try_ok in E. pose proof (select_edus_state server s) as Hs.
  destruct (select_edus server s) as [[[edus c]| |] s1]; cbn in Hs; subst s1.
  - unfold set_latest_educount in E. revert E. db_step. intros [= _ <-]. by rewrite db_map_put_ne.
  - by injection E as _ <-.
  - by injection E as _ <-.
Qed.

(** ** Moving requests *)

Lemma mark_as_active_run events s :
  ∃ s', mark_as_active events s = (Ok (), s') ∧
    (∀ key v, db_map s' servercurrentevent_data !! key = Some v →
       (∃ e, (e, key) ∈ events ∧ v = event_value e) ∨ db_map s servercurrentevent_data !! key = Some v) ∧
    (∀ key, is_Some (db_map s' servercurrentevent_data !! key) ↔
       key ∈ events.*2 ∨ is_Some (db_map s servercurrentevent_data !! key)) ∧
    (∀ key, db_map s' servernameevent_data !! key =
       if decide (key ∈ events.*2) then None else db_map s servernameevent_data !! key).
Proof.
  unfold mark_as_active. revert s. induction events as [|[e key0] events IH]; intros s; cbn [for_each].
  { exists s. split_and!; [done|by right|..|done].
    intros key. split; [by right|]. intros [?%not_elem_of_nil|?]; done. }
  set (s1 := del servernameevent_data key0 (put servercurrentevent_data key0 (event_value e) s)).
  assert (mark_one (e, key0) s = (Ok (), s1)) as E by done. rewrite (bind_Ok _ _ _ _ _ E).
  destruct (IH s1) as (s' & -> & Hv & Hs & Hq). exists s'. cbn [fmap list_fmap snd].
  assert (db_map s1 servercurrentevent_data = <[key0 := event_value e]> (db_map s servercurrentevent_data)) as E1
    by (unfold s1; by db_simpl).
  assert (db_map s1 servernameevent_data = delete key0 (db_map s servernameevent_data)) as E2
    by (unfold s1; by db_simpl).
  split_and!; [done|..].
  - intros key v [(e' & ? & ?)|H]%Hv; [left; exists e'; split; [by right|done]|]. rewrite E1 in H.
    apply lookup_insert_Some in H as [[<- <-]|[_ H]]; [left; exists e; split; [by left|done]|by right].
  - intros key. rewrite Hs, E1, elem_of_cons, lookup_insert_is_Some. destruct (decide (key0 = key)); naive_solver.
  - intros key. rewrite Hq, E2. destruct (decide (key ∈ events.*2)) as [H|H].
    + rewrite decide_True by (by right). done.
    + destruct (decide (key = key0)) as [->|Hne].
      * rewrite decide_True by (by left). by rewrite lookup_delete_eq.
      * rewrite decide_False by (rewrite elem_of_cons; tauto). by rewrite lookup_delete_ne.
Qed.

(** Requests that are waiting or under way. *)
Definition pending h (key : bytes) : Prop := is_Some (current h !! key) ∨ is_Some (queued h !! key).
End transitions.

Section handler_theorems.
Context {Ev : Env} {Fed : FederationLib} (Hservers : servers_unmarked).
Implicit Types (s : State) (h : HandlerState) (k : OutgoingKind).

Lemma bind_indb {A B} (m : DB A) (f : A → M HandlerState B) h a s' :
  m (h_db h) = (Ok a, s') → (indb m ≫= f) h = f a (set_db s' h).
Proof using. intros E. apply bind_Ok. unfold indb. by rewrite E. Qed.

Lemma event_value_of rest v : event_value (event_of rest v) = v.
Proof using. unfold event_of. case_bool_decide; by subst. Qed.

(** The requests of a destination that can be read, all of them. *)
Lemma readable_requests {A} t k s (f : entry → OutgoingKind * SendingEventType → res A) g a :
  (∀ e x, f e x = Ok (g e.1 x.2)) →
  a ∈ filter_map ok ((λ x : entry, p ← parse_servercurrentevent x.1 x.2; f x p) <$>
    with_prefix (get_prefix k) (db_map s t)) ↔
  ∃ key v e, get_prefix k `prefix_of` key ∧ db_map s t !! key = Some v ∧
    parse_servercurrentevent key v = Ok (k, e) ∧ event_value e = v ∧ a = g key e.
Proof using Hservers.
  intros Hf. unfold filter_map. rewrite list_elem_of_omap. split.
  - intros (r & ([key v] & -> & [Hv Hp]%elem_of_with_prefix)%list_elem_of_fmap & E). cbn [fst snd] in *.
    destruct (parse_prefix Hservers k key v Hp) as [rest Ep]. rewrite Ep in E. cbn in E. rewrite Hf in E.
    injection E as <-. exists key, v, (event_of rest v). split_and!; try done. apply event_value_of.
  - intros (key & v & e & Hp & Hv & Ep & _ & ->). exists (Ok (g key e)). split; [|done].
    apply list_elem_of_fmap. exists (key, v).
    cbn [fst snd]. rewrite Ep. cbn. rewrite Hf. split; [done|]. by apply elem_of_with_prefix.
Qed.

Lemma queued_requests_run k s :
  ∃ l, queued_requests k s = (Ok l, s) ∧ ∀ e key, (e, key) ∈ filter_map ok l →
    get_prefix k `prefix_of` key ∧ parse_servercurrentevent key (event_value e) = Ok (k, e) ∧
    is_Some (db_map s servernameevent_data !! key).
Proof using Hservers.
  unfold queued_requests. db_step. eexists. split; [done|]. intros e key.
  rewrite (readable_requests _ _ _ _ (λ key e, (e, key))) by (by intros ? []).
  intros (key' & v & e' & ? & ? & ? & ? & [= -> ->]). subst v. eauto.
Qed.

Lemma active_requests_for_run k s :
  ∃ l, active_requests_for k s = (Ok l, s) ∧
    ∀ key v, db_map s servercurrentevent_data !! key = Some v → get_prefix k `prefix_of` key →
      ∃ e, parse_servercurrentevent key v = Ok (k, e) ∧ e ∈ (filter_map ok l).*2.
Proof using Hservers.
  unfold active_requests_for. db_step. eexists. split; [done|]. intros key v Hv Hp.
  destruct (parse_prefix Hservers k key v Hp) as [rest Ep]. exists (event_of rest v). split; [done|].
  apply list_elem_of_fmap. exists (key, event_of rest v). split; [done|].
  rewrite (readable_requests _ _ _ _ (λ key e, (key, e))) by (by intros ? []).
  exists key, v, (event_of rest v). split_and!; try done. apply event_value_of.
Qed.

(** The outcome of a delivered transaction. *)
Lemma on_success_run k h :
  ∃ h', on_success k h = (Ok (), h') ∧ h_channel h' = h_channel h ∧
    (∀ key v, current h' !! key = Some v → ¬ get_prefix k `prefix_of` key → current h !! key = Some v) ∧
    (∀ key, pending h key → pending h' key ∨ (get_prefix k `prefix_of` key ∧ is_Some (current h !! key))) ∧
    ((h_futures h' = h_futures h ∧ h_status h' = delete k (h_status h) ∧
      ∀ key, get_prefix k `prefix_of` key → current h' !! key = None) ∨
     ∃ events, h_futures h' = h_futures h ++ [(k, events)] ∧ h_status h' = h_status h ∧
       ∀ key v, get_prefix k `prefix_of` key → current h' !! key = Some v →
         ∃ e, parse_servercurrentevent key v = Ok (k, e) ∧ e ∈ events).
Proof using Hservers.
  unfold on_success, delete_all_active_requests_for.
  rewrite (bind_indb _ _ _ _ _ (t_remove_prefix_run _ _ _)). set (s1 := del_prefix _ _ _).
  destruct (queued_requests_run k s1) as (l & Eq & Hl).
  rewrite (bind_indb _ _ (set_db s1 h) l s1 Eq). cbv zeta. set (new := take 30 (filter_map ok l)).
  assert (∀ e key, (e, key) ∈ new → (e, key) ∈ filter_map ok l) as Hnew
    by (intros e key H; rewrite <- (take_drop 30 (filter_map ok l)); apply elem_of_app; by left).
  assert (∀ key, db_map s1 servercurrentevent_data !! key =
    if decide (get_prefix k `prefix_of` key) then None else current h !! key) as Hcur
    by (intros; unfold s1; by rewrite lookup_del_prefix).
  assert (db_map s1 servernameevent_data = queued h) as Hq
    by (unfold s1; by rewrite db_map_del_prefix_ne).
  case_bool_decide as Hne.
  - destruct (mark_as_active_run new s1) as (s2 & Em & Hv & Hs & Hd).
    rewrite (bind_indb _ _ (set_db s1 (set_db s1 h)) () s2 Em). eexists. split; [done|]. split_and!; [done|..].
    + intros key v H Hp. apply Hv in H as [(e & He%Hnew%Hl & _)|H]; [tauto|]. by rewrite Hcur, decide_False in H.
    + intros key. enough (pending h key →
        (is_Some (db_map s2 servercurrentevent_data !! key) ∨ is_Some (db_map s2 servernameevent_data !! key)) ∨
        get_prefix k `prefix_of` key ∧ is_Some (current h !! key)) by done. unfold pending.
      rewrite Hs, Hd, Hcur, Hq. destruct (decide (key ∈ new.*2)); [tauto|].
      destruct (decide (get_prefix k `prefix_of` key)); tauto.
    + right. exists new.*1. split_and!; [done..|]. intros key v Hp H.
      apply Hv in H as [(e & He & ->)|H]; [|by rewrite Hcur, decide_True in H].
      exists e. split; [by apply Hl, Hnew|]. apply list_elem_of_fmap. by exists (e, key).
  - eexists. split; [done|]. split_and!; [done|..].
    + intros key v. unfold current at 1. cbn. rewrite Hcur. intros H Hp. by rewrite decide_False in H.
    + intros key. enough (pending h key →
        (is_Some (db_map s1 servercurrentevent_data !! key) ∨ is_Some (db_map s1 servernameevent_data !! key)) ∨
        get_prefix k `prefix_of` key ∧ is_Some (current h !! key)) by done. unfold pending. rewrite Hcur, Hq.
      destruct (decide (get_prefix k `prefix_of` key)); tauto.
    + left. split_and!; [done..|]. intros key Hp. unfold current. cbn. by rewrite Hcur, decide_True.
Qed.

Lemma add_edus_outcome k s r s' : add_edus k s = (r, s') → (∃ l, r = Ok l) ∨ ∃ p, r = Panic p.
Proof using.
  destruct k as [| |server]; [intros [= <- _]; eauto..|]. unfold add_edus, mbind, M_bind, try_ok.
  destruct (select_edus server s) as [[[edus c]| |] s1]; intros [= <- _]; eauto.
Qed.

(** What a message on the channel does: nothing but take it, when a transaction
    is under way or failed recently; else a transaction starts. *)
Lemma on_receive_run h h' :
  on_receive h = (Ok (), h') → h_channel h = [] ∧ h' = h ∨
  ∃ k e key rest, h_channel h = (k, e, key) :: rest ∧ h_channel h' = rest ∧
    ((h_status h' = h_status h ∧ is_Some (h_status h !! k) ∧ h_futures h' = h_futures h ∧
      current h' = current h ∧ queued h' = queued h) ∨
     ∃ events st, h_futures h' = h_futures h ++ [(k, events)] ∧ h_status h' = <[k := st]> (h_status h) ∧
       in_flight st ∧
       ((∃ n t, h_status h !! k = Some (Failed n t) ∧ current h' = current h ∧ queued h' = queued h ∧
           ∀ key v, current h !! key = Some v → get_prefix k `prefix_of` key →
             ∃ e, parse_servercurrentevent key v = Ok (k, e) ∧ e ∈ events) ∨
        (h_status h !! k = None ∧ e ∈ events ∧
           current h' = <[key := event_value e]> (current h) ∧ queued h' = delete key (queued h)))).
Proof using Hservers.
  unfold on_receive. rewrite bind_gets. destruct (h_channel h) as [|[[k e] key] rest] eqn:Ec.
  { intros [= <-]. by left. }
  rewrite bind_modify. unfold select_events, mbind at 1, M_bind at 1, try_ok. rewrite !bind_gets.
  cbn [h_status h_db set_channel]. intros H. right. exists k, e, key, rest. split; [done|]. revert H.
  unfold transaction_entry. destruct (h_status h !! k) as [[|n t|n]|] eqn:Est.
  - rewrite bind_lift_Ok, bind_modify. intros [= <-]. split; [done|]. left. cbn. rewrite insert_id by done. eauto.
  - unfold min_elapsed_duration. case_bool_decide; [|done]. cbn [mbind res_bind].
    case_bool_decide; rewrite bind_lift_Ok, bind_modify.
    { intros [= <-]. split; [done|]. left. cbn. rewrite insert_id by done. eauto. }
    cbn [negb]. destruct (active_requests_for_run k (h_db h)) as (l & El & Hl).
    rewrite (bind_indb _ _ (set_status _ (set_channel rest h)) l (h_db h) El). intros [= <-]. split; [done|]. right.
    exists (filter_map ok l).*2, (Retrying n). split_and!; [done..|]. left. by exists n, t.
  - rewrite bind_lift_Ok, bind_modify. intros [= <-]. split; [done|]. left. cbn. rewrite insert_id by done. eauto.
  - rewrite bind_lift_Ok, bind_modify. cbn [negb mark_as_active for_each].
    set (s1 := del servernameevent_data key (put servercurrentevent_data key (event_value e) (h_db h))).
    assert (mark_as_active [(e, key)] (h_db h) = (Ok (), s1)) as Em by done.
    rewrite (bind_indb _ _ (set_status _ (set_channel rest h)) () s1 Em).
    destruct (add_edus k s1) as [r s2] eqn:Ea. destruct (add_edus_outcome _ _ _ _ Ea) as [[edus ->]|[p ->]].
    + rewrite (bind_indb _ _ (set_db s1 _) edus s2 Ea). intros [= <-]. split; [done|]. right.
      exists ([e] ++ edus), Running. split_and!; [done..|]. right. split_and!; [done|by left|..];
        unfold current, queued; cbn; rewrite (add_edus_frame _ _ _ _ _ Ea) by done; unfold s1; by db_simpl.
    + unfold indb at 1, mbind at 1, M_bind at 1. cbn [h_db set_db]. by rewrite Ea.
Qed.

(** ** The invariant *)

(** A transaction is under way exactly when its status says so, at most one
    per destination: taking one out, and putting one in. *)
Lemma futures_split h k events l1 l2 :
  HandlerInv h → h_futures h = l1 ++ (k, events) :: l2 →
  k ∉ (l1 ++ l2).*1 ∧ NoDup (l1 ++ l2).*1 ∧ (∃ st, h_status h !! k = Some st ∧ in_flight st) ∧
  (∀ k', k' ≠ k → k' ∈ (l1 ++ l2).*1 ↔ k' ∈ (h_futures h).*1) ∧ ∀ x, x ∈ l1 ++ l2 → x ∈ h_futures h.
Proof using.
  intros [Hnd Hst _ _ _] E. assert ((h_futures h).*1 ≡ₚ k :: (l1 ++ l2).*1) as HP
    by (rewrite E, !fmap_app; cbn; by rewrite Permutation_middle).
  rewrite HP in Hnd. apply NoDup_cons in Hnd as [Hk Hnd]. split_and!; [done|done|apply Hst; rewrite HP; by left|..].
  - intros k' Hne. rewrite HP, elem_of_cons. tauto.
  - intros x Hx. rewrite E. rewrite elem_of_app, elem_of_cons. apply elem_of_app in Hx. tauto.
Qed.

Lemma NoDup_snoc_fst {A B} (l : list (A * B)) a b : a ∉ l.*1 → NoDup l.*1 → NoDup (l ++ [(a, b)]).*1.
Proof using.
  intros Ha Hnd. rewrite fmap_app. apply NoDup_app. split_and!; [done|..|apply NoDup_singleton].
  intros x Hx ->%list_elem_of_singleton. done.
Qed.

Lemma success_inv h k events l1 l2 h' :
  HandlerInv h → h_futures h = l1 ++ (k, events) :: l2 →
  on_success k (set_futures (l1 ++ l2) h) = (Ok (), h') → HandlerInv h'.
Proof using Hservers.
  intros HI E Eo. destruct (futures_split h k events l1 l2 HI E) as (Hk & Hnd & (st & Hst & Hfl) & Hin & Hsub).
  destruct (on_success_run k (set_futures (l1 ++ l2) h)) as (h1 & Eo' & Hch & Hcur & _ & Hcase).
  rewrite Eo in Eo'. injection Eo' as <-. cbn [h_futures h_status h_channel set_futures] in *.
  change (current (set_futures (l1 ++ l2) h)) with (current h) in *.
  assert (∀ k' ev' key v, k' ≠ k → (k', ev') ∈ l1 ++ l2 → current h' !! key = Some v → get_prefix k' `prefix_of` key →
    ∃ e, parse_servercurrentevent key v = Ok (k', e) ∧ e ∈ ev') as Hact.
  { intros k' ev' key v Hne Hf Hv Hp. eapply hi_active; [done|by apply Hsub|..|done].
    apply Hcur; [done|]. intros Hp'. by eapply Hne, get_prefix_inj. }
  assert (∀ k' key, k' ≠ k → h_status h !! k' = None → get_prefix k' `prefix_of` key → current h' !! key = None) as Hidle.
  { intros k' key Hne Hn Hp. destruct (current h' !! key) as [v|] eqn:Hv; [|done].
    apply Hcur in Hv; [|intros Hp'; by eapply Hne, get_prefix_inj]. by erewrite hi_idle in Hv. }
  assert (∀ x, x ∈ l1 ++ l2 → x.1 ≠ k) as Hnk by (intros x Hx <-; apply Hk, list_elem_of_fmap; eauto).
  destruct Hcase as [(Ef & Es & Hdel)|(new & Ef & Es & Hnew)].
  - split; rewrite ?Ef, ?Es; rewrite ?Hch; [done|..|by apply hi_channel].
    + intros k'. destruct (decide (k' = k)) as [->|Hne].
      * rewrite lookup_delete_eq. split; [done|]. by intros (? & ? & _).
      * rewrite lookup_delete_ne by done. rewrite Hin by done. by apply hi_status.
    + intros k' ev' key v Hf. apply Hact; [|done]. by apply (Hnk (k', ev')).
    + intros k' key. destruct (decide (k' = k)) as [->|Hne]; [by intros _; apply Hdel|].
      rewrite lookup_delete_ne by done. by apply Hidle.
  - split; rewrite ?Ef, ?Es; rewrite ?Hch; [by apply NoDup_snoc_fst|..|by apply hi_channel].
    + intros k'. rewrite fmap_app, elem_of_app. cbn. rewrite list_elem_of_singleton.
      destruct (decide (k' = k)) as [->|Hne]; [split; [eauto|by right]|].
      rewrite Hin by done. rewrite hi_status by done. tauto.
    + intros k' ev' key v [Hf|Hf%list_elem_of_singleton]%elem_of_app; [apply Hact; [by apply (Hnk (k', ev'))|done]|].
      injection Hf as -> ->. eauto.
    + intros k' key. destruct (decide (k' = k)) as [->|Hne]; [congruence|]. by apply Hidle.
Qed.

Lemma failure_inv h k events l1 l2 h' :
  HandlerInv h → h_futures h = l1 ++ (k, events) :: l2 →
  on_failure k (set_futures (l1 ++ l2) h) = (Ok (), h') → HandlerInv h'.
Proof using.
  intros HI E [= <-]. destruct (futures_split h k events l1 l2 HI E) as (Hk & Hnd & (st & Hst & Hfl) & Hin & Hsub).
  split; cbn [h_futures h_status h_channel set_status set_futures h_db]; [done|..|by apply hi_channel].
  - intros k'. destruct (decide (k' = k)) as [->|Hne].
    + rewrite lookup_alter_eq, Hst. split; [done|]. intros (st' & [= <-] & H). by destruct st.
    + rewrite lookup_alter_ne, Hin by done. by apply hi_status.
  - intros k' ev' key v Hf. apply (hi_active h HI). by apply Hsub.
  - intros k' key Hn. apply (hi_idle h HI). destruct (decide (k' = k)) as [->|Hne].
    + rewrite lookup_alter_eq, Hst in Hn. done.
    + by rewrite lookup_alter_ne in Hn.
Qed.

Lemma receive_inv h h' : HandlerInv h → on_receive h = (Ok (), h') → HandlerInv h'.
Proof using Hservers.
  intros HI E. destruct (on_receive_run h h' E) as [[_ ->]|(k & e & key & rest & Ec & Ec' & Hcase)]; [done|].
  assert (∀ k e key, (k, e, key) ∈ h_channel h' → get_prefix k `prefix_of` key ∧
    parse_servercurrentevent key (event_value e) = Ok (k, e)) as Hch.
  { intros ???. rewrite Ec'. intros H. apply (hi_channel h HI). rewrite Ec. by right. }
  destruct (hi_channel h HI k e key) as [Hkp Hke]; [rewrite Ec; by left|].
  destruct Hcase as [(Es & Hs & Ef & Ecu & Eq)|(events & st & Ef & Es & Hfl & Hcase)].
  - split; rewrite ?Ef, ?Es, ?Ecu; [by apply hi_nodup|by apply hi_status|by apply hi_active|by apply hi_idle|done].
  - assert (k ∉ (h_futures h).*1) as Hk.
    { rewrite hi_status by done. destruct Hcase as [(n & t & H & _)|[H _]]; rewrite H; [|by intros (? & ? & _)].
      intros (? & [= <-] & ?). done. }
    assert (∀ k' key', k' ≠ k → get_prefix k' `prefix_of` key' → current h' !! key' = current h !! key') as Ecu.
    { intros k' key' Hne Hp. destruct Hcase as [(_ & _ & _ & -> & _)|(_ & _ & -> & _)]; [done|].
      apply lookup_insert_ne. intros <-. by eapply Hne, get_prefix_inj. }
    split; rewrite ?Ef, ?Es; [apply NoDup_snoc_fst; [done|by apply hi_nodup]|..|done].
    + intros k'. rewrite fmap_app, elem_of_app. cbn. rewrite list_elem_of_singleton.
      destruct (decide (k' = k)) as [->|Hne]; [rewrite lookup_insert_eq; split; [eauto|by right]|].
      rewrite lookup_insert_ne, hi_status by done. tauto.
    + intros k' ev' key' v [Hf|Hf%list_elem_of_singleton]%elem_of_app Hv Hp.
      * rewrite (Ecu k') in Hv; [by eapply hi_active| |done].
        intros ->. apply Hk, list_elem_of_fmap. by exists (k, ev').
      * injection Hf as -> ->. destruct Hcase as [(_ & _ & _ & Ecur & _ & Hall)|(Hn & He & Ecur & _)];
          rewrite Ecur in Hv; [by apply Hall|].
        apply lookup_insert_Some in Hv as [[<- <-]|[_ Hv]]; [eauto|]. by erewrite hi_idle in Hv.
    + intros k' key'. destruct (decide (k' = k)) as [->|Hne]; [by rewrite lookup_insert_eq|].
      rewrite lookup_insert_ne by done. intros Hn Hp. rewrite (Ecu k') by done. by eapply hi_idle.
Qed.

Lemma lookup_insert_all m (l : list entry) key :
  is_Some (insert_all m l !! key) ↔ key ∈ l.*1 ∨ is_Some (m !! key).
Proof using.
  unfold insert_all. revert m. induction l as [|[a b] l IH]; intros m; cbn [foldl fmap list_fmap fst snd].
  - split; [by right|]. by intros [?%not_elem_of_nil|?].
  - rewrite IH, lookup_insert_is_Some, elem_of_cons. destruct (decide (a = key)); naive_solver.
Qed.

Lemma enqueue_run requests h :
  Forall (λ r, wf_event r.2) requests →
  ∃ l h', enqueue requests h = (Ok (), h') ∧ h_status h' = h_status h ∧ h_futures h' = h_futures h ∧
    current h' = current h ∧ queued h' = insert_all (queued h) l ∧
    ∀ k e key, (k, e, key) ∈ h_channel h' → (k, e, key) ∈ h_channel h ∨
      (get_prefix k `prefix_of` key ∧ parse_servercurrentevent key (event_value e) = Ok (k, e)).
Proof using Hservers.
  intros Hwf. destruct (queue_requests_run Hservers requests (h_db h) Hwf) as (l & s' & E & Hl & Hq & Ho).
  unfold enqueue. rewrite (bind_indb _ _ h _ _ E). eexists l, _. split; [done|]. split_and!; [done..|by apply Ho|done|].
  cbn. intros k e key [?|H]%elem_of_app; [by left|right].
  revert Hl H. clear. intros Hl. induction Hl as [|[k1 e1] [key1 v1] reqs l (Hp & Hv & Hparse) Hl IH].
  - by intros ?%not_elem_of_nil.
  - cbn [fmap list_fmap fst snd zip zip_with] in *. subst v1. intros [[= -> -> ->]|H]%elem_of_cons; [done|by apply IH].
Qed.

Definition cleaned k s : State :=
  del_prefix servernameevent_data (get_prefix k) (del_prefix servercurrentevent_data (get_prefix k) s).
Lemma cleanup_run id h : cleanup_events id h = (Ok (), set_db (cleaned (Appservice id) (h_db h)) h).
Proof using.
  unfold cleanup_events, indb, delete_all_requests_for.
  by rewrite (bind_Ok _ _ _ _ _ (t_remove_prefix_run _ _ _)), t_remove_prefix_run.
Qed.
Lemma current_cleaned k h key :
  current (set_db (cleaned k (h_db h)) h) !! key =
  if decide (get_prefix k `prefix_of` key) then None else current h !! key.
Proof using.
  unfold current, cleaned. cbn. by rewrite db_map_del_prefix_ne, lookup_del_prefix.
Qed.
Lemma queued_cleaned k h key :
  queued (set_db (cleaned k (h_db h)) h) !! key =
  if decide (get_prefix k `prefix_of` key) then None else queued h !! key.
Proof using.
  unfold queued, cleaned. cbn. rewrite lookup_del_prefix. case_decide; [done|]. by rewrite db_map_del_prefix_ne.
Qed.

(** ** The start of the task *)

Lemma initial_loop l m s :
  ∃ m' s', for_fold l m initial_entry s = (Ok m', s') ∧
    (∀ key v, db_map s' servercurrentevent_data !! key = Some v → db_map s servercurrentevent_data !! key = Some v) ∧
    (∀ k ev e, m !! k = Some ev → e ∈ ev → ∃ ev', m' !! k = Some ev' ∧ e ∈ ev') ∧
    (∀ key k e, (key, k, e) ∈ l → is_Some (db_map s' servercurrentevent_data !! key) →
       ∃ ev, m' !! k = Some ev ∧ e ∈ ev).
Proof using.
  revert m s. induction l as [|[[key k] e] l IH]; intros m s; cbn [for_fold].
  { exists m, s. split_and!; [done..|eauto|]. by intros ??? ?%not_elem_of_nil. }
  set (en := default [] (m !! k)).
  destruct (decide (30 < length en)%nat) as [Hlen|Hlen].
  - assert (initial_entry m (key, k, e) s = (Ok (<[k := en]> m), del servercurrentevent_data key s)) as E
      by (unfold initial_entry; by rewrite bool_decide_true).
    rewrite (bind_Ok _ _ _ _ _ E).
    destruct (IH (<[k := en]> m) (del servercurrentevent_data key s)) as (m' & s' & E' & Hsub & Hm & Hl).
    exists m', s'. db_simpl. split_and!; [done|..].
    + intros key' v [_ ?]%Hsub%lookup_delete_Some. done.
    + intros k' ev e' Hk He. apply (Hm k' ev); [|done]. destruct (decide (k' = k)) as [->|Hne].
      * rewrite lookup_insert_eq. unfold en. by rewrite Hk.
      * by rewrite lookup_insert_ne.
    + intros key' k' e' [[= -> -> ->]|H]%elem_of_cons Hs; [|eauto]. destruct Hs as [v Hv%Hsub].
      by rewrite lookup_delete_eq in Hv.
  - assert (initial_entry m (key, k, e) s = (Ok (<[k := en ++ [e]]> m), s)) as E
      by (unfold initial_entry; by rewrite bool_decide_false).
    rewrite (bind_Ok _ _ _ _ _ E). destruct (IH (<[k := en ++ [e]]> m) s) as (m' & s' & E' & Hsub & Hm & Hl).
    exists m', s'. split_and!; [done..| |].
    + intros k' ev e' Hk He. destruct (decide (k' = k)) as [->|Hne].
      * apply (Hm k (en ++ [e])); [by rewrite lookup_insert_eq|]. unfold en. rewrite Hk. apply elem_of_app. by left.
      * apply (Hm k' ev); [by rewrite lookup_insert_ne|done].
    + intros key' k' e' [[= -> -> ->]|H]%elem_of_cons Hs; [|eauto].
      apply (Hm k (en ++ [e])); [by rewrite lookup_insert_eq|]. apply elem_of_app. right. by left.
Qed.

Lemma start_futures (l : list (OutgoingKind * list SendingEventType)) h :
  ∃ h', for_each l (λ e, modify (λ h, set_status (<[e.1 := Running]> (h_status h)) h) ;; push_future e.1 e.2) h
      = (Ok (), h') ∧ h_futures h' = h_futures h ++ l ∧ h_db h' = h_db h ∧ h_channel h' = h_channel h ∧
    ∀ k, h_status h' !! k = if decide (k ∈ l.*1) then Some Running else h_status h !! k.
Proof using.
  clear Hservers. revert h. induction l as [|[k ev] l IH]; intros h; cbn [for_each].
  { exists h. by rewrite app_nil_r. }
  destruct (IH (set_futures (h_futures h ++ [(k, ev)]) (set_status (<[k := Running]> (h_status h)) h)))
    as (h' & E & Ef & Ed & Ec & Es).
  exists h'. split_and!; try done.
  - rewrite Ef. cbn. by rewrite <- app_assoc.
  - intros k'. rewrite Es. cbn. rewrite lookup_insert. repeat case_decide; try done.
    + exfalso. set_solver.
    + exfalso. set_solver.
    + exfalso. set_solver.
Qed.

Lemma start_inv s h : handler_start (MkHandler s ∅ [] []) = (Ok (), h) → HandlerInv h.
Proof using Hservers.
  unfold handler_start. intros E.
  set (l := (λ e : entry, '(k, ev) ← parse_servercurrentevent e.1 e.2; Ok (e.1, k, ev)) <$>
              sorted_entries (db_map s servercurrentevent_data)).
  assert (active_requests s = (Ok l, s)) as Ea by (unfold active_requests; by db_step).
  rewrite (bind_indb _ _ (MkHandler s ∅ [] []) l s Ea) in E.
  destruct (initial_loop (filter_map ok l) ∅ s) as (m & s1 & Em & Hsub & _ & Hl).
  rewrite (bind_indb _ _ (set_db s (MkHandler s ∅ [] [])) m s1 Em) in E.
  destruct (start_futures (map_to_list m) (set_db s1 (set_db s (MkHandler s ∅ [] [])))) as (h1 & E1 & Ef & Ed & Ec & Es).
  rewrite E in E1. injection E1 as <-. cbn in Ef, Ed, Ec, Es.
  assert (∀ k key v, current h !! key = Some v → get_prefix k `prefix_of` key →
    ∃ ev e, m !! k = Some ev ∧ parse_servercurrentevent key v = Ok (k, e) ∧ e ∈ ev) as Hact.
  { intros k key v. unfold current. rewrite Ed. intros Hv Hp.
    destruct (parse_prefix Hservers k key v Hp) as [rest Ep].
    destruct (Hl key k (event_of rest v)) as (ev & ? & ?); [|eauto|by exists ev, (event_of rest v)].
    unfold filter_map, l. apply list_elem_of_omap. exists (Ok (key, k, event_of rest v)). split; [|done].
    apply list_elem_of_fmap. exists (key, v). split; [|by apply elem_of_sorted_entries, Hsub]. cbn [fst snd]. by rewrite Ep. }
  assert (∀ k, k ∈ (map_to_list m).*1 ↔ is_Some (m !! k)) as Hdom.
  { intros k. rewrite list_elem_of_fmap. split.
    - intros ([k' ev] & -> & H%elem_of_map_to_list). eauto.
    - intros [ev H]. exists (k, ev). split; [done|]. by apply elem_of_map_to_list. }
  split; rewrite ?Ef, ?Ec.
  - apply NoDup_fst_map_to_list.
  - intros k. rewrite Es. case_decide; [split; [by exists Running|done]|]. rewrite lookup_empty.
    split; [done|by intros (? & ? & _)].
  - intros k ev key v Hk%elem_of_map_to_list Hv Hp. destruct (Hact k key v Hv Hp) as (ev' & e & E' & ? & ?).
    rewrite Hk in E'. injection E' as <-. eauto.
  - intros k key. rewrite Es. case_decide as Hk; [done|]. intros _ Hp. destruct (current h !! key) as [v|] eqn:Hv; [|done].
    destruct Hk. apply Hdom. destruct (Hact k key v Hv Hp) as (ev & ? & ? & _). eauto.
  - by intros ??? ?%not_elem_of_nil.
Qed.

Lemma step_inv h l h' : HandlerInv h → step h l h' → HandlerInv h'.
Proof using Hservers.
  intros HI Hstep. destruct Hstep as [h k ev l1 l2 h' E Eo|h k ev l1 l2 h' E Eo|h h' E|h reqs h' Hwf E|h id h' E|h h' E|h s' Ec Eq].
  - by eapply success_inv.
  - by eapply failure_inv.
  - by eapply receive_inv.
  - destruct (enqueue_run reqs h Hwf) as (l & h1 & E1 & Es & Ef & Ec & Eq & Hch). rewrite E in E1. injection E1 as <-.
    split; rewrite ?Es, ?Ef, ?Ec; [by apply hi_nodup|by apply hi_status|by apply hi_active|by apply hi_idle|].
    intros k e key [H|H]%Hch; [by apply (hi_channel h HI)|done].
  - rewrite cleanup_run in E. injection E as <-.
    assert (∀ key v, current (set_db (cleaned (Appservice id) (h_db h)) h) !! key = Some v →
      current h !! key = Some v) as Hsub by (intros key v; rewrite current_cleaned; by case_decide).
    split; [apply (hi_nodup h HI)|apply (hi_status h HI)|..|apply (hi_channel h HI)].
    + intros k ev key v Hf Hv%Hsub. by apply (hi_active h HI).
    + intros k key Hn Hp. rewrite current_cleaned. case_decide; [done|]. by eapply (hi_idle h HI).
  - by eapply start_inv.
  - assert (current (set_db s' h) = current h) as Ecu by done.
    split; [apply (hi_nodup h HI)|apply (hi_status h HI)|..|apply (hi_channel h HI)]; rewrite Ecu.
    + apply (hi_active h HI).
    + apply (hi_idle h HI).
Qed.

Lemma reachable_inv h : reachable h → HandlerInv h.
Proof using Hservers. induction 1; [by eapply start_inv|by eapply step_inv]. Qed.

(** C17: at any time at most one transaction per destination is under way, and
    the status table says which. *)
Theorem one_transaction_per_destination h :
  reachable h →
  NoDup (h_futures h).*1 ∧
  ∀ k, k ∈ (h_futures h).*1 ↔ ∃ st, h_status h !! k = Some st ∧ in_flight st.
Proof using Hservers. intros [? ? _ _ _]%reachable_inv. done. Qed.

(** ** Requests the start drops *)

(** An active request. *)
Definition active h k (e : SendingEventType) (key : bytes) : Prop :=
  ∃ v, current h !! key = Some v ∧ parse_servercurrentevent key v = Ok (k, e).

(** The loop of the start drops a request only after 31 others of its destination. *)
Lemma initial_drops l m s m' s' key :
  for_fold l m initial_entry s = (Ok m', s') →
  is_Some (db_map s servercurrentevent_data !! key) → db_map s' servercurrentevent_data !! key = None →
  ∃ l1 k e l2, l = l1 ++ (key, k, e) :: l2 ∧
    (30 < length (default [] (m !! k)) + length (filter (λ x : bytes * OutgoingKind * SendingEventType, x.1.2 = k) l1))%nat.
Proof using.
  revert m s. induction l as [|[[key0 k0] e0] l IH]; intros m s H Hs Hn; cbn [for_fold] in H.
  { injection H as _ ->. rewrite Hn in Hs. by destruct Hs. }
  apply bind_Ok_inv in H as (m1 & s1 & E & H). unfold initial_entry in E. case_bool_decide as Hlen.
  - injection E as <- <-. destruct (decide (key0 = key)) as [->|Hne].
    { exists [], k0, e0, l. split; [done|]. cbn. lia. }
    destruct (IH _ _ H) as (l1 & k & e & l2 & -> & Hl); [db_simpl; by rewrite lookup_delete_ne|done|].
    exists ((key0, k0, e0) :: l1), k, e, l2. split; [done|]. rewrite filter_cons. cbn [fst snd].
    destruct (decide (k = k0)) as [->|Hk]; [rewrite lookup_insert_eq in Hl; rewrite decide_True by done; cbn in *; lia|].
    rewrite lookup_insert_ne in Hl by done. by rewrite decide_False.
  - injection E as <- <-. destruct (IH _ _ H Hs Hn) as (l1 & k & e & l2 & -> & Hl).
    exists ((key0, k0, e0) :: l1), k, e, l2. split; [done|]. rewrite filter_cons. cbn [fst snd].
    destruct (decide (k = k0)) as [->|Hk].
    + rewrite lookup_insert_eq in Hl. rewrite decide_True by done. cbn in *. rewrite length_app in Hl. cbn in Hl. lia.
    + rewrite lookup_insert_ne in Hl by done. by rewrite decide_False.
Qed.

Lemma initial_queued l m s m' s' :
  for_fold l m initial_entry s = (Ok m', s') → db_map s' servernameevent_data = db_map s servernameevent_data.
Proof using.
  revert m s. induction l as [|[[key0 k0] e0] l IH]; intros m s H; cbn [for_fold] in H; [by injection H as _ ->|].
  apply bind_Ok_inv in H as (m1 & s1 & E & H). rewrite (IH _ _ H). unfold initial_entry in E.
  case_bool_decide; injection E as _ <-; by db_simpl.
Qed.

(** The readable active requests, in the order of their keys. *)
Lemma active_list h :
  ∃ l, active_requests (h_db h) = (Ok l, h_db h) ∧
    (∀ key k e, (key, k, e) ∈ filter_map ok l ↔ active h k e key) ∧
    StronglySorted (λ x y : bytes * OutgoingKind * SendingEventType, x.1.1 <b y.1.1) (filter_map ok l).
Proof using.
  unfold active_requests. db_step. eexists. split; [done|]. split.
  - intros key k e. unfold filter_map. rewrite list_elem_of_omap. setoid_rewrite list_elem_of_fmap. unfold active. split.
    + intros (r & ([key' v] & -> & Hin%elem_of_sorted_entries) & Hok). cbn in Hok.
      destruct (parse_servercurrentevent key' v) as [[k' e']| |] eqn:Ep; [|done..]. injection Hok as -> -> ->. eauto.
    + intros (v & Hv & Ep). exists (Ok (key, k, e)). split; [|done]. exists (key, v). cbn. rewrite Ep.
      split; [done|]. by apply elem_of_sorted_entries.
  - pose proof (sorted_entries_sorted (db_map (h_db h) servercurrentevent_data)) as Hs.
    induction Hs as [|[key v] l Hs IH Hall]; [constructor|]. cbn.
    destruct (parse_servercurrentevent key v) as [[k e]| |]; cbn; [|done..]. constructor; [done|].
    rewrite Forall_forall in Hall. rewrite Forall_forall. intros [[key' k'] e'] Hin. unfold filter_map in Hin.
    apply list_elem_of_omap in Hin as (r & Hr & Hok). apply list_elem_of_fmap in Hr as ([key2 v2] & -> & Hin).
    cbn in Hok. destruct (parse_servercurrentevent key2 v2) as [[]| |]; [|done..]. injection Hok as <- _ _.
    exact (Hall _ Hin).
Qed.

(** Of a request that was active before a start and is not afterwards, there were 31
    others to the same destination with smaller keys. *)
Lemma start_drops h h' key :
  handler_start (MkHandler (h_db h) ∅ [] []) = (Ok (), h') → pending h key →
  pending h' key ∨ ∃ k e before, active h k e key ∧ NoDup before ∧ (30 < length before)%nat ∧
    ∀ key', key' ∈ before → key' <b key ∧ ∃ e', active h k e' key'.
Proof using.
  unfold handler_start. intros H Hp. destruct (active_list h) as (l & El & Hl & Hsort).
  rewrite (bind_indb _ _ (MkHandler (h_db h) ∅ [] []) l (h_db h) El) in H.
  destruct (initial_loop (filter_map ok l) ∅ (h_db h)) as (m & s1 & Em & _).
  rewrite (bind_indb _ _ (set_db (h_db h) (MkHandler (h_db h) ∅ [] [])) m s1 Em) in H.
  destruct (start_futures (map_to_list m) (set_db s1 (set_db (h_db h) (MkHandler (h_db h) ∅ [] [])))) as (h1 & E1 & _ & Ed & _).
  rewrite H in E1. injection E1 as <-. cbn in Ed. unfold pending, current, queued in *. rewrite Ed.
  rewrite (initial_queued _ _ _ _ _ Em). destruct Hp as [Hc|Hq]; [|by left; right].
  destruct (db_map s1 servercurrentevent_data !! key) eqn:Hn; [by left; left|right].
  destruct (initial_drops _ _ _ _ _ _ Em Hc Hn) as (l1 & k & e & l2 & Ell & Hlen). rewrite lookup_empty in Hlen. cbn in Hlen.
  rewrite Ell in Hsort. exists k, e, (filter (λ x : bytes * OutgoingKind * SendingEventType, x.1.2 = k) l1).*1.*1.
  assert (StronglySorted (λ x y : bytes * OutgoingKind * SendingEventType, x.1.1 <b y.1.1) l1 ∧ ∀ x, x ∈ l1 → x.1.1 <b key) as [Hs1 Hlt].
  { clear -Hsort. induction l1 as [|x l1 IH]; cbn in Hsort; [split; [constructor|by intros ? ?%not_elem_of_nil]|].
    inversion Hsort as [|? ? Hs Hall]; subst. destruct (IH Hs) as [Hs1 Hlt]. rewrite Forall_forall in Hall. split.
    - constructor; [done|]. rewrite Forall_forall. intros y Hy. apply Hall. apply elem_of_app. by left.
    - intros y [->|Hy]%elem_of_cons; [|by apply Hlt]. apply (Hall (key, k, e)). apply elem_of_app. right. by left. }
  split_and!.
  - apply Hl. rewrite Ell. apply elem_of_app. right. by left.
  - rewrite <- list_fmap_compose. apply (NoDup_sorted bytes_lt). eapply StronglySorted_fmap; [|by apply StronglySorted_filter].
    by intros x y _ _.
  - by rewrite !length_fmap.
  - intros key'. rewrite <- list_fmap_compose. intros ([[key1 k1] e1] & -> & [Hk Hin]%list_elem_of_filter)%list_elem_of_fmap. cbn in Hk |- *. subst k1.
    split; [exact (Hlt _ Hin)|]. exists e1. apply Hl. rewrite Ell. apply elem_of_app. by left.
Qed.

(** C4: A request stays stored, as queued or as active, until a transaction that
    contained its event was delivered.  It is lost otherwise only when the requests of
    its appservice are cleaned up, or when the task starts again and the request is
    active after 31 others of the same destination, which the source drops with a
    warning; no failure, restart of a transaction or interleaving loses one. *)
Theorem no_request_lost h l h' key :
  reachable h → step h l h' → pending h key →
  pending h' key ∨
  (∃ id, l = LCleanup id ∧ get_prefix (Appservice id) `prefix_of` key) ∨
  (∃ k e before, l = LRestart ∧ active h k e key ∧ NoDup before ∧ (30 < length before)%nat ∧
     ∀ key', key' ∈ before → key' <b key ∧ ∃ e', active h k e' key') ∨
  ∃ k events e, l = LSuccess k events ∧ (k, events) ∈ h_futures h ∧ active h k e key ∧ e ∈ events.
Proof using Hservers.
  intros HI%reachable_inv Hstep Hpend.
  destruct Hstep as [h k ev l1 l2 h' E Eo|h k ev l1 l2 h' E Eo|h h' E|h reqs h' Hwf E|h id h' E|h h' E|h s' Ec Eq].
  - destruct (on_success_run k (set_futures (l1 ++ l2) h)) as (h1 & Eo' & _ & _ & Hp & _).
    rewrite Eo in Eo'. injection Eo' as <-. destruct (Hp key Hpend) as [?|[Hpre [v Hv]]]; [by left|do 3 right].
    assert ((k, ev) ∈ h_futures h) as Hf by (rewrite E; apply elem_of_app; right; by left).
    destruct (hi_active h HI k ev key v Hf Hv Hpre) as (e & ? & ?). exists k, ev, e. split_and!; [done..|by exists v|done].
  - injection Eo as <-. by left.
  - left. destruct (on_receive_run h h' E) as [[_ ->]|(k & e & key' & rest & _ & _ & Hcase)]; [done|].
    unfold pending in *. destruct Hcase as [(_ & _ & _ & -> & ->)|(? & ? & _ & _ & _ & Hcase)]; [done|].
    destruct Hcase as [(_ & _ & _ & -> & -> & _)|(_ & _ & -> & ->)]; [done|].
    rewrite lookup_insert_is_Some, lookup_delete_is_Some. destruct (decide (key' = key)); tauto.
  - left. destruct (enqueue_run reqs h Hwf) as (l & h1 & E1 & _ & _ & Ec & Eq & _). rewrite E in E1. injection E1 as <-.
    unfold pending in *. rewrite Ec, Eq, lookup_insert_all. tauto.
  - rewrite cleanup_run in E. injection E as <-.
    destruct (decide (get_prefix (Appservice id) `prefix_of` key)) as [Hp|Hp]; [right; left; eauto|left].
    unfold pending. rewrite current_cleaned, queued_cleaned, !decide_False by done. exact Hpend.
  - destruct (start_drops h h' key E Hpend) as [?|(k & e & before & ?)]; [by left|]. do 2 right. left. by exists k, e, before.
  - left. unfold pending in *. change (current (set_db s' h)) with (db_map s' servercurrentevent_data).
    change (queued (set_db s' h)) with (db_map s' servernameevent_data). by rewrite Ec, Eq.
Qed.

(** After the n-th failure in a row a destination is left alone for 30·n²
    seconds, at most a day; then the same requests are sent again, and no new
    transaction starts before. *)
Theorem backoff k e key rest h n t :
  h_status h !! k = Some (Failed n t) → h_channel h = (k, e, key) :: rest → n < 2 ^ 29 →
  ∃ h', on_receive h = (Ok (), h') ∧ h_channel h' = rest ∧ current h' = current h ∧ queued h' = queued h ∧
    if bool_decide (now (h_db h) - t < 1000 * N.min (30 * n * n) DAY) then
      h_status h' = h_status h ∧ h_futures h' = h_futures h
    else h_status h' = <[k := Retrying n]> (h_status h) ∧
      ∃ l, active_requests_for k (h_db h) = (Ok l, h_db h) ∧
           h_futures h' = h_futures h ++ [(k, (filter_map ok l).*2)].
Proof using Hservers.
  intros Hst Hch Hn. unfold on_receive. rewrite bind_gets, Hch, bind_modify.
  unfold select_events, mbind at 1, M_bind at 1, try_ok. rewrite !bind_gets. cbn [h_status h_db set_channel].
  rewrite Hst. cbn [transaction_entry]. unfold min_elapsed_duration. rewrite bool_decide_true by nia.
  cbn [mbind res_bind]. case_bool_decide as Hd; rewrite bind_lift_Ok, bind_modify; cbn [negb].
  - eexists. split; [done|]. cbn. by rewrite insert_id.
  - destruct (active_requests_for_run k (h_db h)) as (l & El & _).
    rewrite (bind_indb _ _ (set_status _ (set_channel rest h)) l (h_db h) El).
    eexists. split; [done|]. split_and!; [done..|]. by exists l.
Qed.
End handler_theorems.
