(* ===== verification/RoomIndex.v ===== *)
(** * Room indexes: aliases, directory, lazy loading, metadata, references
    ([src/database/key_value/rooms/]: [alias.rs], [directory.rs], [lazy_load.rs],
    [metadata.rs], [pdu_metadata.rs]) *)

From S2P Require Import Prelude Bytes RStr Error Utils KvTree Env Db Keys Globals Short.

Section room_index.
Context {Ev : Env}.
Implicit Types s : State.

(** ** Aliases ([alias.rs]) *)

Definition alias_key (alias : RoomAliasId) : bytes := as_bytes (alias_localpart alias).

Definition aliasid (room_id : RoomId) (count : N) : bytes := key2 (idb room_id) (to_be_bytes count).

Definition set_alias (alias : RoomAliasId) (room_id : RoomId) : DB unit :=
  t_insert alias_roomid (alias_key alias) (idb room_id) ;;
  count ← next_count;
  t_insert aliasid_alias (aliasid room_id count) (idb alias).

Definition remove_alias (alias : RoomAliasId) : DB unit :=
  o ← t_get alias_roomid (alias_key alias);
  match o with
  | Some room_id =>
      t_remove_prefix aliasid_alias (room_id ++ [sep]) ;;
      t_remove alias_roomid (alias_key alias)
  | None => fail (BadRequest NotFound "Alias does not exist.")
  end.

Definition resolve_local_alias (alias : RoomAliasId) : DB (option RoomId) :=
  o ← t_get alias_roomid (alias_key alias);
  lift (transpose (parse_bytes "Room ID in alias_roomid is invalid unicode."
                     "Room ID in alias_roomid is invalid." <$> o)).

Definition local_aliases_for_room (room_id : RoomId) : DB (list (res RoomAliasId)) :=
  l ← t_scan_prefix aliasid_alias (idb room_id ++ [sep]);
  mret ((λ e : entry, parse_bytes "Invalid alias bytes in aliasid_alias."
                        "Invalid alias in aliasid_alias." e.2) <$> l).

(** ** The public room directory ([directory.rs]) *)

Definition set_public (room_id : RoomId) : DB unit := t_insert publicroomids (idb room_id) [].
Definition set_not_public (room_id : RoomId) : DB unit := t_remove publicroomids (idb room_id).
Definition is_public_room (room_id : RoomId) : DB bool :=
  o ← t_get publicroomids (idb room_id); mret (bool_decide (is_Some o)).
Definition public_rooms : DB (list (res RoomId)) :=
  l ← t_iter publicroomids;
  mret ((λ e : entry, parse_bytes "Room ID in publicroomids is invalid unicode."
                        "Room ID in publicroomids is invalid." e.1) <$> l).

(** ** Lazily loaded members ([lazy_load.rs]) *)

Definition lazy_prefix (user_id : UserId) (device_id : DeviceId) (room_id : RoomId) : bytes :=
  idb user_id ++ [sep] ++ as_bytes device_id ++ [sep] ++ idb room_id ++ [sep].

Definition lazy_load_was_sent_before (user_id : UserId) (device_id : DeviceId) (room_id : RoomId)
    (ll_user : UserId) : DB bool :=
  o ← t_get lazyloadedids (lazy_prefix user_id device_id room_id ++ idb ll_user);
  mret (bool_decide (is_Some o)).

Definition lazy_load_confirm_delivery (user_id : UserId) (device_id : DeviceId) (room_id : RoomId)
    (confirmed_user_ids : list UserId) : DB unit :=
  for_each confirmed_user_ids (λ ll_id,
    t_insert lazyloadedids (lazy_prefix user_id device_id room_id ++ idb ll_id) []).

Definition lazy_load_reset (user_id : UserId) (device_id : DeviceId) (room_id : RoomId) : DB unit :=
  t_remove_prefix lazyloadedids (lazy_prefix user_id device_id room_id).

(** ** Rooms ([metadata.rs]) *)

(** Is there an event in the room? *)
Definition room_exists (room_id : RoomId) : DB bool :=
  o ← get_shortroomid room_id;
  match o with
  | Some b =>
      let prefix := to_be_bytes b in
      l ← t_iter_from pduid_pdu prefix false;
      mret (match head l with Some e => starts_with e.1 prefix | None => false end)
  | None => mret false
  end.

Definition iter_ids : DB (list (res RoomId)) :=
  l ← t_iter roomid_shortroomid;
  mret ((λ e : entry, parse_bytes "Room ID in publicroomids is invalid unicode."
                        "Room ID in roomid_shortroomid is invalid." e.1) <$> l).

Definition is_disabled (room_id : RoomId) : DB bool :=
  o ← t_get disabledroomids (idb room_id); mret (bool_decide (is_Some o)).

Definition disable_room (room_id : RoomId) (disabled : bool) : DB unit :=
  if disabled then t_insert disabledroomids (idb room_id) [] else t_remove disabledroomids (idb room_id).

(** ** Marks on events ([pdu_metadata.rs]) *)

Definition mark_as_referenced (room_id : RoomId) (event_ids : list EventId) : DB unit :=
  for_each event_ids (λ prev, t_insert referencedevents (idb room_id ++ idb prev) []).
Definition is_event_referenced (room_id : RoomId) (event_id : EventId) : DB bool :=
  o ← t_get referencedevents (idb room_id ++ idb event_id); mret (bool_decide (is_Some o)).
Definition mark_event_soft_failed (event_id : EventId) : DB unit := t_insert softfailedeventids (idb event_id) [].
Definition is_event_soft_failed (event_id : EventId) : DB bool :=
  o ← t_get softfailedeventids (idb event_id); mret (bool_decide (is_Some o)).

(** ** Theorems on aliases *)

Lemma aliasid_prefix r r' c : (idb r ++ [sep]) `prefix_of` aliasid r' c ↔ r = r'.
Proof. unfold aliasid. rewrite key2_prefix by auto with kv. split; [by intros ?%(inj idb)|by intros ->]. Qed.

(** The room list has keys the counter has reached. *)
Definition alias_keyed s : Prop :=
  ∀ k v, db_map s aliasid_alias !! k = Some v → ∃ r c, c ≤ count s ∧ k = aliasid r c.

(** After an alias is set it resolves to the room and is the last of the
    room's aliases; aliases with another local part and the lists of other rooms
    are as before. *)
Theorem set_alias_correct a r s l :
  alias_keyed s → count_ok s → local_aliases_for_room r s = (Ok l, s) →
  ∃ s', set_alias a r s = (Ok (), s') ∧ alias_keyed s' ∧
    resolve_local_alias a s' = (Ok (Some r), s') ∧
    local_aliases_for_room r s' = (Ok (l ++ [Ok a]), s') ∧
    (∀ a', alias_localpart a' ≠ alias_localpart a → (resolve_local_alias a' s').1 = (resolve_local_alias a' s).1) ∧
    ∀ r', r' ≠ r → (local_aliases_for_room r' s').1 = (local_aliases_for_room r' s).1.
Proof.
  intros Hk Hc Hl. unfold set_alias. db_step. set (s1 := put _ _ _ _).
  assert (count s1 = count s) as Hc1 by (unfold s1; by db_simpl).
  assert (count_ok s1) as Hok by (unfold count_ok in *; by rewrite Hc1).
  rewrite (bind_Ok _ _ _ _ _ (next_count_ok s1 Hok)), Hc1, t_insert_run. eexists. split; [done|].
  set (s' := put _ _ _ (bump s1)).
  assert (db_map s' aliasid_alias = <[aliasid r (count s + 1) := idb a]> (db_map s aliasid_alias)) as Ea
    by (unfold s', s1; by db_simpl).
  assert (db_map s' alias_roomid = <[alias_key a := idb r]> (db_map s alias_roomid)) as Er
    by (unfold s', s1; by db_simpl).
  assert (count s' = count s + 1) as Hc' by (unfold s'; db_simpl; rewrite count_bump_ok by done; lia).
  unfold count_ok in Hc. split_and!.
  - intros k v. rewrite Ea, Hc'. intros [[<- _]|[_ H]]%lookup_insert_Some; [by exists r, (count s + 1)|].
    destruct (Hk k v H) as (r' & c & ? & ->). exists r', c. split; [lia|done].
  - unfold resolve_local_alias. db_step. rewrite Er, lookup_insert_eq. cbn [fmap option_fmap option_map].
    by rewrite parse_bytes_idb.
  - revert Hl. unfold local_aliases_for_room. db_step. unfold mret, M_ret. intros [= <-]. db_step. rewrite Ea.
    rewrite with_prefix_insert_last, fmap_app.
    + cbn. by rewrite parse_bytes_idb.
    + apply key2_prefix_self.
    + intros k v Hv Hp. destruct (Hk k v Hv) as (r' & c & Hle & ->). apply aliasid_prefix in Hp as <-.
      apply key2_lt, to_be_bytes_lt; unfold u64; lia.
  - intros a' Hne. unfold resolve_local_alias. do 2 db_step. rewrite Er, lookup_insert_ne; [done|].
    by intros ?%(inj as_bytes).
  - intros r' Hne. unfold local_aliases_for_room. do 2 db_step. unfold mret, M_ret. cbn [fst]. rewrite Ea.
    rewrite with_prefix_insert_other; [done|]. by intros ?%aliasid_prefix.
Qed.

(** Removing an alias makes it unknown, but also empties the alias list of
    its room, while the room's other aliases still resolve to it. *)
Theorem remove_alias_empties a a' r s :
  alias_key a' ≠ alias_key a →
  resolve_local_alias a s = (Ok (Some r), s) → resolve_local_alias a' s = (Ok (Some r), s) →
  ∃ s', remove_alias a s = (Ok (), s') ∧ resolve_local_alias a s' = (Ok None, s') ∧
    resolve_local_alias a' s' = (Ok (Some r), s') ∧ local_aliases_for_room r s' = (Ok [], s').
Proof.
  intros Hne. unfold resolve_local_alias. do 2 db_step. intros Ha Ha'.
  destruct (db_map s alias_roomid !! alias_key a) as [b|] eqn:Eb; [|done].
  destruct (db_map s alias_roomid !! alias_key a') as [b'|] eqn:Eb'; [|done].
  assert (b = idb r) as ->.
  { cbn in Ha. unfold lift in Ha. destruct (parse_bytes _ _ b) eqn:Ep; [|done..].
    injection Ha as ->. by apply parse_bytes_Ok in Ep. }
  unfold remove_alias. db_step. rewrite Eb. db_step. rewrite t_remove_run. eexists. split; [done|].
  set (s' := del _ _ _). split_and!.
  - db_step. unfold s'. db_simpl. by rewrite lookup_delete_eq.
  - db_step. unfold s'. db_simpl. rewrite lookup_delete_ne by done. rewrite Eb'. unfold lift in Ha' |- *.
    apply (f_equal fst) in Ha'. cbn [fst] in Ha'. by rewrite Ha'.
  - unfold local_aliases_for_room. db_step. rewrite with_prefix_empty; [done|].
    intros k v Hv Hp. unfold s' in Hv. rewrite db_map_del_ne, lookup_del_prefix, decide_True in Hv; done.
Qed.

(** ** Theorems on lazy loading *)

Lemma lazy_key_inj u d r x u' d' r' x' :
  lazy_prefix u d r ++ idb x = lazy_prefix u' d' r' ++ idb (x' : UserId) → u = u' ∧ d = d' ∧ r = r' ∧ x = x'.
Proof.
  unfold lazy_prefix. rewrite <- !app_assoc. cbn [app].
  intros [Eu [Ed [Er Ex]%key2_inj]%key2_inj]%key2_inj; [|auto with kv..].
  split_and!; [by apply (inj idb)|by apply (inj as_bytes)|by apply (inj idb)..].
Qed.

Lemma lazy_prefix_iff u d r u' d' r' (x : UserId) :
  lazy_prefix u d r `prefix_of` lazy_prefix u' d' r' ++ idb x ↔ (u, d, r) = (u', d', r').
Proof.
  split; [|intros [= -> -> ->]; by exists (idb x)]. unfold lazy_prefix. rewrite <- !app_assoc. cbn [app].
  intros [z E]. rewrite <- !app_assoc in E. cbn [app] in E. rewrite <- !app_assoc in E. cbn [app] in E.
  rewrite <- !app_assoc in E. cbn [app] in E.
  apply key2_inj in E as [Eu [Ed [Er _]%key2_inj]%key2_inj]; [|auto with kv..].
  f_equal; [f_equal|]; symmetry; [by apply (inj idb)|by apply (inj as_bytes)|by apply (inj idb)].
Qed.

Definition was_sent s u d r x : Prop := is_Some (db_map s lazyloadedids !! (lazy_prefix u d r ++ idb (x : UserId))).

Lemma was_sent_query s u d r x :
  lazy_load_was_sent_before u d r x s = (Ok (bool_decide (was_sent s u d r x)), s).
Proof. unfold lazy_load_was_sent_before. by db_step. Qed.

Lemma confirm_run u d r xs s :
  ∃ s', lazy_load_confirm_delivery u d r xs s = (Ok (), s') ∧
    ∀ u' d' r' x, was_sent s' u' d' r' x ↔ was_sent s u' d' r' x ∨ ((u', d', r') = (u, d, r) ∧ x ∈ xs).
Proof.
  unfold lazy_load_confirm_delivery. revert s. induction xs as [|y xs IH]; intros s; cbn [for_each].
  { exists s. split; [done|]. intros. split; [by left|]. by intros [?|[_ ?%not_elem_of_nil]]. }
  db_step. destruct (IH (put lazyloadedids (lazy_prefix u d r ++ idb y) [] s)) as (s' & E & H).
  exists s'. split; [done|]. intros u' d' r' x. rewrite H. unfold was_sent. db_simpl.
  rewrite lookup_insert_is_Some, elem_of_cons. destruct (decide ((u', d', r', x) = (u, d, r, y))) as [Ek|Hne].
  - injection Ek as -> -> -> ->. naive_solver.
  - assert (lazy_prefix u d r ++ idb y ≠ lazy_prefix u' d' r' ++ idb x) as Hk
      by (intros (-> & -> & -> & ->)%lazy_key_inj; done).
    naive_solver.
Qed.

Lemma reset_run u d r s :
  ∃ s', lazy_load_reset u d r s = (Ok (), s') ∧
    ∀ u' d' r' x, was_sent s' u' d' r' x ↔ was_sent s u' d' r' x ∧ (u', d', r') ≠ (u, d, r).
Proof.
  unfold lazy_load_reset. rewrite t_remove_prefix_run. eexists. split; [done|]. intros u' d' r' x.
  unfold was_sent. rewrite lookup_del_prefix. case_decide as Hp; rewrite lazy_prefix_iff in Hp.
  - split; [by intros []|]. intros [_ Hn]. by destruct Hn.
  - split; [|tauto]. intros. split; [done|congruence].
Qed.
End room_index.
