(* ===== verification/ClientData.v ===== *)
(** * Client data: account data, appservices, pushers, media, transactions
    ([src/database/key_value/]: [account_data.rs], [appservice.rs], [pusher.rs],
    [media.rs], [transaction_ids.rs]) *)

From S2P Require Import Prelude Bytes RStr Error Utils KvTree Env Db Keys Globals.

Section client_data.
Context {Ev : Env}.
Implicit Types s : State.

(** ** Account data ([account_data.rs]); without a room it is global *)

Definition room_part (room_id : option RoomId) : bytes := default [] (idb <$> room_id).

Definition account_prefix (room_id : option RoomId) (user_id : UserId) : bytes :=
  room_part room_id ++ [sep] ++ idb user_id ++ [sep].

Definition roomuserdataid (room_id : option RoomId) (user_id : UserId) (count : N) (event_type : rstr) : bytes :=
  account_prefix room_id user_id ++ to_be_bytes count ++ [sep] ++ as_bytes event_type.

Definition update (room_id : option RoomId) (user_id : UserId) (event_type : rstr) (data : json) : DB unit :=
  count ← next_count;
  let id := roomuserdataid room_id user_id count event_type in
  let key := account_prefix room_id user_id ++ as_bytes event_type in
  if bool_decide (json_get (lit "type") data = None) || bool_decide (json_get (lit "content") data = None) then
    fail (BadRequest InvalidParam "Account data doesn't have all required fields.")
  else
    t_insert roomuserdataid_accountdata id (to_vec data) ;;
    prev ← t_get roomusertype_roomuserdataid key;
    t_insert roomusertype_roomuserdataid key id ;;
    match prev with
    | Some prev => t_remove roomuserdataid_accountdata prev
    | None => mret ()
    end.

Definition get (room_id : option RoomId) (user_id : UserId) (kind : rstr) : DB (option Raw) :=
  o ← t_get roomusertype_roomuserdataid (account_prefix room_id user_id ++ as_bytes kind);
  match o with
  | None => mret None
  | Some id =>
      d ← t_get roomuserdataid_accountdata id;
      lift (transpose ((λ data, ok_or (from_slice data) (BadDatabase "could not deserialize")) <$> d))
  end.

Definition parse_change (e : entry) : res (rstr * Raw) :=
  k ← ok_or (rsplit_ff e.1 !! 0%nat) (BadDatabase "RoomUserData ID in db is invalid.");
  kind ← ok_or (string_from_bytes k) (BadDatabase "RoomUserData ID in db is invalid.");
  data ← ok_or (from_slice e.2) (BadDatabase "Database contains invalid account data.");
  Ok (kind, data).

(** The later entry of a type replaces the earlier one in the map. *)
Definition changes_since (room_id : option RoomId) (user_id : UserId) (since : N) : DB (gmap rstr Raw) :=
  let prefix := account_prefix room_id user_id in
  l ← t_iter_from roomuserdataid_accountdata (prefix ++ to_be_bytes (since + 1)) false;
  changes ← lift (collect (parse_change <$> take_while (λ e : entry, starts_with e.1 prefix) l));
  mret (foldl (λ m c, <[c.1 := c.2]> m) ∅ changes).

(** ** Appservices ([appservice.rs]) *)

Definition register_appservice (yaml : json) : DB rstr :=
  v ← lift (expect (json_get (lit "id") yaml) "called `Option::unwrap()` on a `None` value");
  id ← lift (match v with JStr id => Ok id | _ => Panic "called `Option::unwrap()` on a `None` value" end);
  text ← lift (expect (yaml_to_string yaml) "called `Result::unwrap()` on an `Err` value");
  t_insert id_appserviceregistrations (as_bytes id) (as_bytes text) ;;
  modify (λ s, set_cached_registrations (<[id := yaml]> (cached_registrations s)) s) ;;
  mret id.

Definition unregister_appservice (service_name : rstr) : DB unit :=
  t_remove id_appserviceregistrations (as_bytes service_name) ;;
  modify (λ s, set_cached_registrations (delete service_name (cached_registrations s)) s).

Definition get_registration (id : rstr) : DB (option json) :=
  c ← gets cached_registrations;
  match c !! id with
  | Some r => mret (Some r)
  | None =>
      o ← t_get id_appserviceregistrations (as_bytes id);
      lift (transpose ((λ b, ok_or (yaml_from_slice b)
        (BadDatabase "Invalid registration bytes in id_appserviceregistrations.")) <$> o))
  end.

Definition appservice_ids : DB (list (res rstr)) :=
  l ← t_iter id_appserviceregistrations;
  mret ((λ e : entry, ok_or (string_from_bytes e.1)
    (BadDatabase "Invalid id bytes in id_appserviceregistrations.")) <$> l).

Definition registration_of (acc : list (rstr * json)) (id : rstr) : DB (list (rstr * json)) :=
  o ← get_registration id;
  r ← lift (expect o "iter_ids only returns appservices that exist");
  mret (acc ++ [(id, r)]).
Definition all : DB (list (rstr * json)) :=
  ids ← appservice_ids;
  for_fold (filter_map ok ids) [] registration_of.

(** ** Pushers ([pusher.rs]) *)

Inductive PusherAction :=
  | PusherPost (pusher : Pusher) (append : bool)
  | PusherDelete (pushkey : rstr).

Definition senderkey (sender : UserId) (pushkey : rstr) : bytes := key2 (idb sender) (as_bytes pushkey).

Definition set_pusher (sender : UserId) (action : PusherAction) : DB unit :=
  match action with
  | PusherPost pusher append =>
      t_insert senderkey_pusher (senderkey sender (pushkey pusher)) (pusher_post_to_vec pusher append)
  | PusherDelete pushkey => t_remove senderkey_pusher (senderkey sender pushkey)
  end.

Definition parse_pusher (b : bytes) : res Pusher := ok_or (pusher_from_slice b) (BadDatabase "Invalid Pusher in db.").

Definition get_pusher (sender : UserId) (pushkey : rstr) : DB (option Pusher) :=
  o ← t_get senderkey_pusher (senderkey sender pushkey);
  lift (transpose (parse_pusher <$> o)).

Definition get_pushers (sender : UserId) : DB (list Pusher) :=
  l ← t_scan_prefix senderkey_pusher (idb sender ++ [sep]);
  lift (collect ((λ e : entry, parse_pusher e.2) <$> l)).

Definition get_pushkeys (sender : UserId) : DB (list (res rstr)) :=
  l ← t_scan_prefix senderkey_pusher (idb sender ++ [sep]);
  mret ((λ e : entry,
    push_key ← ok_or (splitn_ff 2 e.1 !! 1%nat) (BadDatabase "Invalid senderkey_pusher in db");
    ok_or (string_from_bytes push_key) (BadDatabase "Invalid pusher bytes in senderkey_pusher")) <$> l).

(** ** Media ([media.rs]); sizes are [u32] *)

Definition media_prefix (mxc : rstr) (width height : N) : bytes :=
  key2 (as_bytes mxc) (to_be 4 width ++ to_be 4 height ++ [sep]).

(** [as_ref().map(as_bytes).unwrap_or_default()] *)
Definition opt_bytes (o : option rstr) : bytes := default [] (as_bytes <$> o).

Definition media_key (mxc : rstr) (width height : N) (content_disposition content_type : option rstr) : bytes :=
  media_prefix mxc width height ++ opt_bytes content_disposition ++ sep :: opt_bytes content_type.

Definition create_file_metadata (mxc : rstr) (width height : N) (content_disposition content_type : option rstr) :
    DB bytes :=
  let key := media_key mxc width height content_disposition content_type in
  t_insert mediaid_file key [] ;; mret key.

Definition search_file_metadata (mxc : rstr) (width height : N) : DB (option rstr * option rstr * bytes) :=
  l ← t_scan_prefix mediaid_file (media_prefix mxc width height);
  e ← lift (ok_or (head l) (BadRequest NotFound "Media not found"));
  let parts := rsplit_ff e.1 in
  content_type ← lift (transpose ((λ b, ok_or (string_from_bytes b)
    (BadDatabase "Content type in mediaid_file is invalid unicode.")) <$> parts !! 0%nat));
  cd ← lift (ok_or (parts !! 1%nat) (BadDatabase "Media ID in db is invalid."));
  content_disposition ← lift (if bool_decide (cd = []) then Ok None
    else Some <$> ok_or (string_from_bytes cd) (BadDatabase "Content Disposition in mediaid_file is invalid unicode."));
  mret (content_disposition, content_type, e.1).

(** ** Transaction identifiers ([transaction_ids.rs]) *)

Definition txn_key (user_id : UserId) (device_id : option DeviceId) (txn_id : rstr) : bytes :=
  key2 (idb user_id) (key2 (opt_bytes device_id) (as_bytes txn_id)).

Definition add_txnid (user_id : UserId) (device_id : option DeviceId) (txn_id : rstr) (data : bytes) : DB unit :=
  t_insert userdevicetxnid_response (txn_key user_id device_id txn_id) data.

Definition existing_txnid (user_id : UserId) (device_id : option DeviceId) (txn_id : rstr) : DB (option bytes) :=
  t_get userdevicetxnid_response (txn_key user_id device_id txn_id).
End client_data.

Section client_data_theorems.
(** A room identifier is not empty: it begins with an exclamation mark. *)
Context {Ev : Env} (Hrooms : ∀ r : RoomId, idb r ≠ []).
Implicit Types s : State.

(** ** Account data *)

Definition account_key (r : option RoomId) (u : UserId) (t : rstr) : bytes := account_prefix r u ++ as_bytes t.

Lemma account_key_eq r u t : account_key r u t = key2 (room_part r) (key2 (idb u) (as_bytes t)).
Proof using. unfold account_key, account_prefix, key2. by rewrite <- !app_assoc. Qed.
Lemma roomuserdataid_eq r u c t :
  roomuserdataid r u c t = key2 (room_part r) (key2 (idb u) (to_be_bytes c ++ sep :: as_bytes t)).
Proof using. unfold roomuserdataid, account_prefix, key2. by rewrite <- !app_assoc. Qed.

Lemma room_part_no_sep r : sep ∉ room_part r.
Proof using. destruct r; cbn; [auto with kv|apply not_elem_of_nil]. Qed.
Hint Resolve room_part_no_sep : kv.
Lemma room_part_inj r r' : room_part r = room_part r' → r = r'.
Proof using Hrooms.
  destruct r as [x|], r' as [y|]; cbn; intros E; [f_equal; by apply (inj idb)| | |done].
  - by apply Hrooms in E.
  - symmetry in E. by apply Hrooms in E.
Qed.

Lemma account_key_inj r u t r' u' t' :
  account_key r u t = account_key r' u' t' → r = r' ∧ u = u' ∧ t = t'.
Proof using Hrooms.
  rewrite !account_key_eq. intros [Er [Eu Et]%key2_inj]%key2_inj; [|auto with kv..].
  split_and!; [by apply room_part_inj|by apply (inj idb)|by apply (inj as_bytes)].
Qed.

Lemma roomuserdataid_inj r u c t r' u' c' t' :
  u64 c → u64 c' → roomuserdataid r u c t = roomuserdataid r' u' c' t' → r = r' ∧ u = u' ∧ c = c' ∧ t = t'.
Proof using Hrooms.
  intros Hc Hc'. rewrite !roomuserdataid_eq. intros [Er [Eu Et]%key2_inj]%key2_inj; [|auto with kv..].
  apply app_inj_1 in Et as [Ec Et]; [|by rewrite !length_to_be_bytes]. apply to_be_bytes_inj in Ec; [|done..].
  apply (f_equal tail) in Et. cbn [tail] in Et.
  split_and!; [by apply room_part_inj|by apply (inj idb)|done|by apply (inj as_bytes)].
Qed.

Lemma account_prefix_id r u r' u' c t :
  account_prefix r u `prefix_of` roomuserdataid r' u' c t ↔ (r, u) = (r', u').
Proof using Hrooms.
  split; [|intros [= -> ->]; by eexists]. intros [z E]. rewrite roomuserdataid_eq in E.
  unfold account_prefix in E. rewrite <- !app_assoc in E. cbn [app] in E. fold (key2 (idb u) z) in E.
  symmetry in E. apply key2_inj in E as [Er [Eu _]%key2_inj]; [|auto with kv..].
  apply room_part_inj in Er as ->. by apply (inj idb) in Eu as ->.
Qed.

(** Every entry is the latest of its room, user and type. *)
Record AccountInv s : Prop := {
  ac_index k id : db_map s roomusertype_roomuserdataid !! k = Some id →
    ∃ r u c t, c ≤ count s ∧ k = account_key r u t ∧ id = roomuserdataid r u c t;
  ac_data k v : db_map s roomuserdataid_accountdata !! k = Some v →
    ∃ r u c t, c ≤ count s ∧ k = roomuserdataid r u c t ∧
      db_map s roomusertype_roomuserdataid !! account_key r u t = Some k;
}.

Definition has_fields (data : json) : Prop :=
  json_get (lit "type") data ≠ None ∧ json_get (lit "content") data ≠ None.

(** The entry to be written is new. *)
Lemma account_fresh r u t s :
  AccountInv s → count_ok s →
  db_map s roomuserdataid_accountdata !! roomuserdataid r u (count s + 1) t = None ∧
  ∀ k, db_map s roomusertype_roomuserdataid !! k ≠ Some (roomuserdataid r u (count s + 1) t).
Proof using Hrooms.
  intros [Hi Hd] Hc. unfold count_ok in Hc. split.
  - destruct (_ !! _) as [v|] eqn:E; [|done]. destruct (Hd _ _ E) as (r' & u' & c & t' & Hle & E' & _).
    apply roomuserdataid_inj in E' as (_ & _ & ? & _); unfold u64; lia.
  - intros k (r' & u' & c & t' & Hle & _ & E')%Hi.
    apply roomuserdataid_inj in E' as (_ & _ & ? & _); unfold u64; lia.
Qed.

(** The trees after an update satisfy the invariant again. *)
Lemma account_written r u t x s s' :
  AccountInv s → count_ok s → count s' = count s + 1 →
  db_map s' roomusertype_roomuserdataid =
    <[account_key r u t := roomuserdataid r u (count s + 1) t]> (db_map s roomusertype_roomuserdataid) →
  (∀ k v, db_map s' roomuserdataid_accountdata !! k = Some v ↔
     (k = roomuserdataid r u (count s + 1) t ∧ v = x) ∨
     (db_map s roomusertype_roomuserdataid !! account_key r u t ≠ Some k ∧
      db_map s roomuserdataid_accountdata !! k = Some v)) →
  AccountInv s'.
Proof using Hrooms.
  intros [Hi Hd] Hc Hc' Eidx Edata. unfold count_ok in Hc. split; rewrite Hc', Eidx.
  - intros k id [[<- <-]|[_ H]]%lookup_insert_Some; [by exists r, u, (count s + 1), t|].
    destruct (Hi k id H) as (r' & u' & c & t' & ? & ? & ?). exists r', u', c, t'. split_and!; [lia|done..].
  - intros k v [[-> ->]|[Hne H]]%Edata.
    + exists r, u, (count s + 1), t. by rewrite lookup_insert_eq.
    + destruct (Hd k v H) as (r' & u' & c & t' & ? & -> & Hk). exists r', u', c, t'.
      split_and!; [lia|done|]. rewrite lookup_insert_ne; [done|]. congruence.
Qed.

(** The two trees after an update. *)
Lemma update_run r u t data s :
  AccountInv s → count_ok s → has_fields data →
  ∃ s', update r u t data s = (Ok (), s') ∧ AccountInv s' ∧
    db_map s' roomusertype_roomuserdataid =
      <[account_key r u t := roomuserdataid r u (count s + 1) t]> (db_map s roomusertype_roomuserdataid) ∧
    (∀ k v, db_map s' roomuserdataid_accountdata !! k = Some v ↔
       (k = roomuserdataid r u (count s + 1) t ∧ v = to_vec data) ∨
       (db_map s roomusertype_roomuserdataid !! account_key r u t ≠ Some k ∧
        db_map s roomuserdataid_accountdata !! k = Some v)).
Proof using Hrooms.
  intros HI Hc [Hf1 Hf2]. pose proof (count_bump_ok s Hc) as Hb.
  destruct (account_fresh r u t s HI Hc) as [Hfresh Hidx]. unfold update.
  rewrite (bind_Ok _ _ _ _ _ (next_count_ok s Hc)). cbv zeta.
  rewrite (bool_decide_false (json_get (lit "type") data = None)),
    (bool_decide_false (json_get (lit "content") data = None)) by done. cbn [orb].
  fold (account_key r u t). db_run. set (id := roomuserdataid r u (count s + 1) t) in *.
  set (s1 := put roomusertype_roomuserdataid _ _ _). db_simpl.
  set (prev := db_map s roomusertype_roomuserdataid !! account_key r u t).
  set (s' := match prev with Some p => del roomuserdataid_accountdata p s1 | None => s1 end).
  exists s'. split; [unfold s'; by destruct prev|].
  assert (count s' = count s + 1) as Hc' by (unfold s', s1; destruct prev; db_simpl; lia).
  assert (db_map s' roomusertype_roomuserdataid = <[account_key r u t := id]> (db_map s roomusertype_roomuserdataid))
    as Eidx by (unfold s', s1; destruct prev; by db_simpl).
  assert (∀ k v, db_map s' roomuserdataid_accountdata !! k = Some v ↔
    (k = id ∧ v = to_vec data) ∨ (prev ≠ Some k ∧ db_map s roomuserdataid_accountdata !! k = Some v)) as Edata.
  { intros k v. assert (prev ≠ Some id) as Hp by apply Hidx. unfold s'. clearbody prev.
    destruct prev as [p|]; unfold s1; db_simpl; rewrite ?lookup_delete_Some, lookup_insert_Some;
      (destruct (decide (id = k)) as [<-|Hne]; [rewrite Hfresh|]); intuition congruence. }
  split_and!; [|done..]. by eapply account_written.
Qed.

Lemma get_run r u t s :
  get r u t s = (transpose ((λ data, ok_or (from_slice data) (BadDatabase "could not deserialize")) <$>
    (db_map s roomusertype_roomuserdataid !! account_key r u t ≫= λ id,
     db_map s roomuserdataid_accountdata !! id)), s).
Proof using.
  unfold get. db_step. fold (account_key r u t). destruct (_ !! account_key r u t); [|done]. cbn [mbind option_bind].
  by db_step.
Qed.

(** The order of the entries of a room and user. *)
Lemma account_order r u c c' t :
  u64 c → u64 c' → (account_prefix r u ++ to_be_bytes c') ≤b roomuserdataid r u c t ↔ c' ≤ c.
Proof using.
  intros Hc Hc'. unfold roomuserdataid. rewrite bytes_le_app. split.
  - intros Hle. apply N.le_ngt. intros Hlt. apply (bytes_nlt_ge (to_be_bytes c ++ [sep] ++ as_bytes t)) in Hle.
    apply Hle. rewrite <- (app_nil_r (to_be_bytes c')). apply bytes_lt_app_r; [by rewrite !length_to_be_bytes|].
    by apply to_be_bytes_lt.
  - intros Hle. apply (bytes_le_trans _ (to_be_bytes c)); [by apply to_be_bytes_le|]. apply bytes_le_prefix. by eexists.
Qed.

Lemma parse_change_id r u c t data :
  parse_change (roomuserdataid r u c t, to_vec data) = Ok (t, to_raw_value data).
Proof using.
  unfold parse_change. cbn [fst snd].
  assert (rsplit_ff (roomuserdataid r u c t) !! 0%nat = Some (as_bytes t)) as ->.
  { unfold roomuserdataid. rewrite !app_assoc. rewrite <- (app_assoc _ [sep]). cbn [app].
    by rewrite rsplit_ff_last by auto with kv. }
  cbn [ok_or mbind res_bind]. unfold string_from_bytes. rewrite from_utf8_as_bytes. cbn [ok_or mbind res_bind].
  rewrite <- raw_text_value. cbn. by rewrite raw_from_text.
Qed.

(** New account data replaces the old of the same room, user and type, is
    read back as it was written, leaves all other account data alone, and is the
    only change since the position before the update. *)
Theorem update_correct r u t data s :
  AccountInv s → count_ok s → has_fields data →
  ∃ s', update r u t data s = (Ok (), s') ∧ AccountInv s' ∧
    get r u t s' = (Ok (Some (to_raw_value data)), s') ∧
    (∀ r' u' t', (r', u', t') ≠ (r, u, t) → (get r' u' t' s').1 = (get r' u' t' s).1) ∧
    changes_since r u (count s) s' = (Ok {[t := to_raw_value data]}, s').
Proof using Hrooms.
  intros HI Hc Hf. destruct (update_run r u t data s HI Hc Hf) as (s' & E & HI' & Eidx & Edata).
  exists s'. split_and!; [done..| | |].
  - rewrite get_run, Eidx, lookup_insert_eq. cbn [mbind option_bind].
    assert (db_map s' roomuserdataid_accountdata !! roomuserdataid r u (count s + 1) t = Some (to_vec data)) as ->
      by (apply Edata; by left).
    cbn [fmap option_fmap option_map]. rewrite <- raw_text_value. cbn. by rewrite raw_from_text.
  - intros r' u' t' Hne. rewrite !get_run. cbn [fst]. rewrite Eidx, lookup_insert_ne
      by (intros (-> & -> & ->)%account_key_inj; done).
    destruct (_ !! account_key r' u' t') as [id|] eqn:Ei; [|done]. cbn [mbind option_bind]. do 2 f_equal.
    apply option_eq. intros v. rewrite Edata. split; [|right; split; [|done]].
    + intros [[-> _]|[_ ?]]; [|done]. by apply (account_fresh r u t s HI Hc) in Ei.
    + intros Ei'. destruct (ac_index s HI _ _ Ei) as (r1 & u1 & c1 & t1 & Hc1 & (-> & -> & ->)%account_key_inj & E1).
      destruct (ac_index s HI _ _ Ei') as (r2 & u2 & c2 & t2 & Hc2 & (-> & -> & ->)%account_key_inj & E2).
      unfold count_ok in Hc. rewrite E1 in E2.
      apply roomuserdataid_inj in E2 as (-> & -> & _ & ->); [done|unfold u64; lia..].
  - unfold changes_since, t_iter_from. db_step. unfold count_ok in Hc.
    rewrite iter_forward_while by (by exists (to_be_bytes (count s + 1))).
    assert (filter (λ e : entry, (account_prefix r u ++ to_be_bytes (count s + 1)) ≤b e.1)
      (with_prefix (account_prefix r u) (contents (trees s' roomuserdataid_accountdata))) =
      [(roomuserdataid r u (count s + 1) t, to_vec data)]) as ->.
    { apply entries_unique; [apply StronglySorted_filter, with_prefix_sorted|repeat constructor|].
      intros [k v]. rewrite list_elem_of_filter, elem_of_with_prefix, list_elem_of_singleton. cbn [fst].
      change (contents (trees s' roomuserdataid_accountdata)) with (db_map s' roomuserdataid_accountdata).
      rewrite Edata. split.
      - intros (Hle & [[-> ->]|[_ Hv]] & Hp); [done|].
        destruct (ac_data s HI k v Hv) as (r1 & u1 & c1 & t1 & Hc1 & -> & _).
        apply account_prefix_id in Hp as [= <- <-]. apply account_order in Hle; unfold u64; lia.
      - intros [= -> ->]. split_and!; [apply account_order; unfold u64; lia|by left|by apply account_prefix_id]. }
    cbn [fmap list_fmap collect]. rewrite parse_change_id. cbn [mbind res_bind]. by rewrite bind_lift_Ok.
Qed.

(** ** Appservices *)

(** The cache holds what the database holds. *)
Definition registrations_cached s : Prop :=
  ∀ id y, cached_registrations s !! id = Some y →
    ∃ b, db_map s id_appserviceregistrations !! as_bytes id = Some b ∧ yaml_from_slice b = Some y.

(** What is registered, whether it is cached or not. *)
Lemma get_registration_run id s :
  registrations_cached s →
  get_registration id s =
    (transpose ((λ b, ok_or (yaml_from_slice b)
       (BadDatabase "Invalid registration bytes in id_appserviceregistrations.")) <$>
       db_map s id_appserviceregistrations !! as_bytes id), s).
Proof using.
  intros Hs. unfold get_registration. rewrite bind_gets. destruct (cached_registrations s !! id) as [y|] eqn:E.
  - destruct (Hs id y E) as (b & -> & Hy). cbn. by rewrite Hy.
  - by db_step.
Qed.

(** A registered appservice is found under its id, from the cache or from the
    database after a restart, an unregistered one is not, and other
    registrations are not affected. *)
Theorem register_unregister yaml id text s :
  registrations_cached s → json_get (lit "id") yaml = Some (JStr id) → yaml_to_string yaml = Some text →
  (∃ s', register_appservice yaml s = (Ok id, s') ∧ registrations_cached s' ∧
     get_registration id s' = (Ok (Some yaml), s') ∧
     (get_registration id (set_cached_registrations ∅ s')).1 = Ok (Some yaml) ∧
     ∀ id', id' ≠ id → (get_registration id' s').1 = (get_registration id' s).1) ∧
  (∃ s', unregister_appservice id s = (Ok (), s') ∧ registrations_cached s' ∧
     get_registration id s' = (Ok None, s') ∧
     ∀ id', id' ≠ id → (get_registration id' s').1 = (get_registration id' s).1).
Proof using.
  intros Hs Hid Hy. pose proof (yaml_roundtrip _ _ Hy) as Hr. split.
  - unfold register_appservice. rewrite Hid, Hy. cbn [expect]. db_run. eexists. split; [done|].
    set (s1 := put _ _ _ s). set (s' := set_cached_registrations _ s1).
    assert (∀ i, db_map s' id_appserviceregistrations !! as_bytes i =
      if decide (i = id) then Some (as_bytes text) else db_map s id_appserviceregistrations !! as_bytes i) as El.
    { intros i. unfold s', s1. db_simpl. case_decide as Hd; [subst; by rewrite lookup_insert_eq|].
      rewrite lookup_insert_ne; [done|]. intros ?%(inj as_bytes). congruence. }
    assert (registrations_cached s') as Hs'.
    { intros i y. rewrite El. unfold s'. cbn. intros [[<- <-]|[Hne H]]%lookup_insert_Some.
      - rewrite decide_True by done. eauto.
      - rewrite decide_False by congruence. by apply Hs. }
    split_and!; [done|..].
    + rewrite get_registration_run, El, decide_True by done. cbn. by rewrite Hr.
    + rewrite get_registration_run by done. rewrite db_map_set_cached_registrations, El, decide_True by done.
      cbn. by rewrite Hr.
    + intros i Hne. rewrite !get_registration_run by done. by rewrite El, decide_False.
  - unfold unregister_appservice. db_step. eexists. split; [done|].
    set (s' := set_cached_registrations _ _).
    assert (∀ i, db_map s' id_appserviceregistrations !! as_bytes i =
      if decide (i = id) then None else db_map s id_appserviceregistrations !! as_bytes i) as El.
    { intros i. unfold s'. db_simpl. case_decide as Hd; [subst; by rewrite lookup_delete_eq|].
      rewrite lookup_delete_ne; [done|]. intros ?%(inj as_bytes). congruence. }
    assert (registrations_cached s') as Hs'.
    { intros i y. rewrite El. unfold s'. cbn. intros [Hne H]%lookup_delete_Some.
      rewrite decide_False by congruence. by apply Hs. }
    split_and!; [done|..].
    + by rewrite get_registration_run, El, decide_True by done.
    + intros i Hne. rewrite !get_registration_run by done. by rewrite El, decide_False.
Qed.

(** ** Media *)

Lemma media_parts mxc w h cd ct :
  ∃ rest, rsplit_ff (media_key mxc w h cd ct) = opt_bytes ct :: opt_bytes cd :: rest.
Proof using.
  assert (∀ o : option rstr, sep ∉ opt_bytes o) as Ho by (intros [?|]; cbn; [auto with kv|apply not_elem_of_nil]).
  unfold media_key, media_prefix, key2.
  replace ((as_bytes mxc ++ sep :: to_be 4 w ++ to_be 4 h ++ [sep]) ++ opt_bytes cd ++ sep :: opt_bytes ct)
    with (((as_bytes mxc ++ sep :: to_be 4 w ++ to_be 4 h) ++ sep :: opt_bytes cd) ++ sep :: opt_bytes ct)
    by (repeat (rewrite <- !app_assoc; cbn [app]); done).
  rewrite !rsplit_ff_last by apply Ho. eauto.
Qed.

(** The first file stored under a URI and size is found again; the name and
    type come back, an absent type as the empty string. *)
Theorem media_roundtrip mxc w h cd ct s :
  (∀ k v, db_map s mediaid_file !! k = Some v → ¬ media_prefix mxc w h `prefix_of` k) →
  ∃ s', create_file_metadata mxc w h cd ct s = (Ok (media_key mxc w h cd ct), s') ∧
    search_file_metadata mxc w h s' =
      (Ok (x ← cd; (if bool_decide (as_bytes x = []) then None else Some x),
           Some (default (lit "") ct), media_key mxc w h cd ct), s').
Proof using.
  intros Hnew. unfold create_file_metadata. db_step. eexists. split; [done|].
  set (k := media_key mxc w h cd ct). unfold search_file_metadata. db_step. db_simpl.
  rewrite with_prefix_insert_last; [|by eexists|intros k' v Hv Hp; by destruct (Hnew k' v Hv)].
  rewrite with_prefix_empty by done. cbn [app head ok_or]. rewrite bind_lift_Ok. cbn [fst].
  destruct (media_parts mxc w h cd ct) as [rest Er]. fold k in Er. rewrite Er. cbn [lookup list_lookup fmap option_fmap option_map].
  assert (∀ o : option rstr, string_from_bytes (opt_bytes o) = Some (default (lit "") o)) as Ho.
  { intros [x|]; unfold string_from_bytes; cbn [opt_bytes default fmap option_fmap option_map from_option].
    - apply from_utf8_as_bytes.
    - apply (from_utf8_as_bytes (lit "")). }
  rewrite Ho. cbn [ok_or transpose]. do 2 (rewrite bind_lift_Ok; cbn [ok_or]).
  destruct cd as [x|]; cbn [opt_bytes default fmap option_fmap option_map from_option mbind option_bind].
  - destruct (decide (as_bytes x = [])).
    + rewrite !bool_decide_true by done. by rewrite bind_lift_Ok.
    + rewrite !bool_decide_false by done. unfold string_from_bytes. cbn [id]. rewrite from_utf8_as_bytes. by cbn.
  - rewrite bool_decide_true by done. by rewrite bind_lift_Ok.
Qed.
End client_data_theorems.
