(* ===== verification/EventFormat.v ===== *)
(** * Formats of events ([src/service/pdu.rs])

    The JSON an event is shown as to clients and to other servers, and the way
    back.  [EventLib] collects what the services need of ruma's event types:
    fields of canonical objects and the typed contents of a few events. *)

From S2P Require Import Prelude Bytes RStr Decimal Error Utils KvTree Env Db Pdu.

(** [MembershipState] of ruma. *)
Inductive MembershipState := MJoin | MInvite | MLeave | MBan | MKnock | MOther (s : rstr).

#[export] Instance MembershipState_eq_dec : EqDecision MembershipState.
Proof. solve_decision. Defined.

(** The fields of [RoomCreateEventContent] the code reads. *)
Record CreateContent `{!Ruma} := { cc_room_version : rstr; cc_predecessor : option RoomId }.

(** A canonical JSON object is an ordered map; its values are JSON values. *)
Class EventLib {Ev : Env} := {
  canonical_get : rstr → CanonicalJsonObject → option json;
  canonical_insert : rstr → json → CanonicalJsonObject → CanonicalJsonObject;
  canonical_get_insert k k' v o :
    canonical_get k (canonical_insert k' v o) = if decide (k = k') then Some v else canonical_get k o;
  canonical_get_remove k k' o :
    canonical_get k (canonical_remove k' o) = if decide (k = k') then None else canonical_get k o;
  (** [serde_json::from_value] of an object as an event *)
  pdu_of_canonical : CanonicalJsonObject → option PduEvent;
  (** [serde_json::from_str] at the typed contents *)
  extract_membership : bytes → option MembershipState;
  create_content : bytes → option CreateContent;
  (** [DirectEvent] with its rooms by user, [IgnoredUserListEvent] with its users *)
  direct_event : Raw → option (list (UserId * list RoomId));
  direct_to_value : list (UserId * list RoomId) → json;
  ignored_users : Raw → option (list UserId);
  (** [state_res::auth_types_for_event] *)
  auth_types_for_event : rstr → UserId → option rstr → bytes → option (list (rstr * rstr));
  (** [ruma::signatures::reference_hash] for a room version *)
  reference_hash : CanonicalJsonObject → rstr → option rstr;
}.

Section formats.
Context {Ev : Env}.
Implicit Types p : PduEvent.

(** A [RawValue] in a [json!] literal is the value of its text. *)
Definition raw_value (b : bytes) : json := default JNull (from_slice b).
Definition opt_value {A} (f : A → json) (o : option A) : json := default JNull (f <$> o).
Definition id_value {valid} (i : identifier valid) : json := JStr (as_str i).

Definition event_fields p : list (rstr * json) :=
  [(lit "content", raw_value (content p));
   (lit "type", JStr (kind p));
   (lit "event_id", id_value (event_id p));
   (lit "sender", id_value (sender p));
   (lit "origin_server_ts", JNum (u64_to_string (origin_server_ts p)));
   (lit "unsigned", opt_value raw_value (unsigned p))].

(** [if let Some(x) = .. { json[key] = json!(x) }] *)
Definition set_some {A} (key : rstr) (f : A → json) (o : option A) (l : list (rstr * json)) : list (rstr * json) :=
  match o with Some x => obj_insert key (f x) l | None => l end.

Definition room_event_value p : json :=
  JObj (set_some (lit "redacts") id_value (redacts p)
    (set_some (lit "state_key") JStr (state_key p)
      (obj_of (event_fields p ++ [(lit "room_id", id_value (room_id p))])))).

Definition to_sync_room_event p : Raw :=
  to_raw_value (JObj (set_some (lit "redacts") id_value (redacts p)
    (set_some (lit "state_key") JStr (state_key p) (obj_of (event_fields p))))).

Definition to_any_event p : Raw := to_raw_value (room_event_value p).
Definition to_room_event p : Raw := to_raw_value (room_event_value p).

Definition to_state_event p : Raw :=
  to_raw_value (JObj (obj_of (event_fields p ++
    [(lit "room_id", id_value (room_id p)); (lit "state_key", opt_value JStr (state_key p))]))).

Definition to_sync_state_event p : Raw :=
  to_raw_value (JObj (obj_of (event_fields p ++ [(lit "state_key", opt_value JStr (state_key p))]))).

Definition to_stripped_state_event p : Raw :=
  to_raw_value (JObj (obj_of
    [(lit "content", raw_value (content p)); (lit "type", JStr (kind p));
     (lit "sender", id_value (sender p)); (lit "state_key", opt_value JStr (state_key p))])).

Definition to_member_event p : Raw :=
  to_raw_value (JObj (obj_of
    [(lit "content", raw_value (content p)); (lit "type", JStr (kind p));
     (lit "event_id", id_value (event_id p)); (lit "sender", id_value (sender p));
     (lit "origin_server_ts", JNum (u64_to_string (origin_server_ts p)));
     (lit "redacts", opt_value id_value (redacts p)); (lit "unsigned", opt_value raw_value (unsigned p));
     (lit "room_id", id_value (room_id p)); (lit "state_key", opt_value JStr (state_key p))])).

Context {EL : EventLib}.

(** The transaction id and the event id stay on this server. *)
Definition outgoing_object (pdu_json : CanonicalJsonObject) : CanonicalJsonObject :=
  let pdu_json :=
    match canonical_get (lit "unsigned") pdu_json with
    | Some (JObj unsigned) =>
        canonical_insert (lit "unsigned") (JObj (obj_remove (lit "transaction_id") unsigned)) pdu_json
    | _ => pdu_json
    end in
  canonical_remove (lit "event_id") pdu_json.

Definition convert_to_outgoing_federation_event (pdu_json : CanonicalJsonObject) : Raw :=
  canonical_to_raw (outgoing_object pdu_json).

Definition from_id_val (id : EventId) (o : CanonicalJsonObject) : option PduEvent :=
  pdu_of_canonical (canonical_insert (lit "event_id") (JStr (as_str id)) o).

(** [format!("${}", hash)] as an event id. *)
Definition hash_event_id (hash : rstr) : option EventId :=
  parse_id valid_event_id (str_app (lit "$") hash).

Definition gen_event_id_canonical_json (pdu : Raw) (room_version_id : rstr) : res (EventId * CanonicalJsonObject) :=
  value ← ok_or (from_slice (raw_text pdu)) (BadServerResponse "Invalid PDU in server response");
  hash ← expect (reference_hash value room_version_id) "ruma can calculate reference hashes";
  event_id ← expect (hash_event_id hash) "ruma's reference hashes are valid event ids";
  Ok (event_id, value).

(** ** Theorems *)

(** What leaves this server has neither the event id nor the transaction id of
    the sending client; every other field is as it was. *)
Theorem outgoing_event_private (o : CanonicalJsonObject) :
  let o' := outgoing_object o in
  canonical_get (lit "event_id") o' = None ∧
  (∀ u, canonical_get (lit "unsigned") o' = Some (JObj u) → obj_get (lit "transaction_id") u = None) ∧
  (∀ u k, canonical_get (lit "unsigned") o = Some (JObj u) → k ≠ lit "transaction_id" →
     ∃ u', canonical_get (lit "unsigned") o' = Some (JObj u') ∧ obj_get k u' = obj_get k u) ∧
  ∀ k, k ≠ lit "event_id" → k ≠ lit "unsigned" → canonical_get k o' = canonical_get k o.
Proof.
  assert (lit "unsigned" ≠ lit "event_id") as Hne by (by intros [=]%(f_equal as_bytes)).
  unfold outgoing_object. cbn zeta. split_and!.
  - by rewrite canonical_get_remove, decide_True.
  - intros u. rewrite canonical_get_remove, decide_False by done.
    destruct (canonical_get (lit "unsigned") o) as [[| | | | |l]|] eqn:E; rewrite ?E; try done.
    rewrite canonical_get_insert, decide_True by done. intros [= <-]. by rewrite obj_get_remove, decide_True.
  - intros u k E Hk. rewrite E, canonical_get_remove, decide_False, canonical_get_insert, decide_True by done.
    eexists. split; [done|]. by rewrite obj_get_remove, decide_False.
  - intros k H1 H2. rewrite canonical_get_remove, decide_False by done.
    destruct (canonical_get (lit "unsigned") o) as [[| | | | |l]|]; try done.
    by rewrite canonical_get_insert, decide_False.
Qed.
End formats.
