(* ===== verification/RoomUser.v ===== *)
(** * Rooms as a user sees them ([src/database/key_value/rooms/user.rs]) and the
    search index ([src/database/key_value/rooms/search.rs])

    Both answer with the common elements of sorted iterators. *)

From S2P Require Import Prelude Bytes RStr Error Utils KvTree Env Db Keys Globals Short.
Import CommonElements.

Section room_user.
Context {Ev : Env}.
Implicit Types s : State.

(** ** Notification counts ([user.rs]) *)

Definition reset_notification_counts (user_id : UserId) (room_id : RoomId) : DB unit :=
  t_insert userroomid_notificationcount (idkey user_id room_id) (to_be_bytes 0) ;;
  t_insert userroomid_highlightcount (idkey user_id room_id) (to_be_bytes 0) ;;
  c ← next_count;
  t_insert roomuserid_lastnotificationread (idkey room_id user_id) (to_be_bytes c).

Definition notification_count (user_id : UserId) (room_id : RoomId) : DB N :=
  o ← t_get userroomid_notificationcount (idkey user_id room_id);
  lift (match o with Some b => parse_u64 "Invalid notification count in db." b | None => Ok 0 end).

Definition highlight_count (user_id : UserId) (room_id : RoomId) : DB N :=
  o ← t_get userroomid_highlightcount (idkey user_id room_id);
  lift (match o with Some b => parse_u64 "Invalid highlight count in db." b | None => Ok 0 end).

Definition last_notification_read (user_id : UserId) (room_id : RoomId) : DB N :=
  o ← t_get roomuserid_lastnotificationread (idkey room_id user_id);
  r ← lift (transpose (parse_u64 "Count in roomuserid_lastprivatereadupdate is invalid." <$> o));
  mret (default 0 r).

(** ** States at sync tokens *)

Definition room_short (room_id : RoomId) : DB N :=
  o ← get_shortroomid room_id;
  lift (expect o "room exists").

Definition associate_token_shortstatehash (room_id : RoomId) (token shortstatehash : N) : DB unit :=
  shortroomid ← room_short room_id;
  t_insert roomsynctoken_shortstatehash (to_be_bytes shortroomid ++ to_be_bytes token) (to_be_bytes shortstatehash).

Definition get_token_shortstatehash (room_id : RoomId) (token : N) : DB (option N) :=
  shortroomid ← room_short room_id;
  o ← t_get roomsynctoken_shortstatehash (to_be_bytes shortroomid ++ to_be_bytes token);
  lift (transpose (parse_u64 "Invalid shortstatehash in roomsynctoken_shortstatehash" <$> o)).

(** ** Shared rooms *)

(** The room id starts after the first separator. *)
Definition room_of_key (key : bytes) : res bytes :=
  '(i, _) ← ok_or (list_find (λ b, b = sep) key) (BadDatabase "Invalid userroomid_joined in db.");
  Ok (drop (i + 1) key).

Definition rooms_iterator (user_id : UserId) s : list bytes :=
  filter_map ok ((λ e : entry, room_of_key e.1) <$>
    kv_scan_prefix (trees s userroomid_joined) (idb user_id ++ [sep])).

Definition get_shared_rooms (users : list UserId) : DB (list (res RoomId)) :=
  iterators ← gets (λ s, (λ u, rooms_iterator u s) <$> users);
  common ← lift (expect (common_elements bytes_cmp iterators) "users is not empty");
  mret (parse_bytes "Invalid RoomId bytes in userroomid_joined" "Invalid RoomId in userroomid_joined." <$> common).

(** ** Full text search ([search.rs]) *)

(** [shortroomid word 0xff] *)
Definition word_prefix (shortroomid : N) (word : rstr) : bytes :=
  to_be_bytes shortroomid ++ as_bytes word ++ [sep].

Definition index_words (message_body : rstr) : list rstr :=
  to_lowercase <$> filter (λ w, (length (as_bytes w) ≤ 50)%nat) (alphanumeric_words message_body).

Definition index_pdu (shortroomid : N) (pdu_id : bytes) (message_body : rstr) : DB unit :=
  t_insert_batch tokenids ((λ w, (word_prefix shortroomid w ++ pdu_id, [])) <$> index_words message_body).

Definition word_iterator (shortroomid : N) (word : rstr) s : list bytes :=
  let prefix2 := word_prefix shortroomid word in
  (λ e : entry, drop (length e.1 - 8) e.1) <$>
    take_while (λ e : entry, starts_with e.1 prefix2)
      (kv_iter_from (trees s tokenids) (prefix2 ++ to_be_bytes u64_max) true).

Definition search_pdus (room_id : RoomId) (search_string : rstr) : DB (option (list bytes * list rstr)) :=
  shortroomid ← room_short room_id;
  let words : list rstr := to_lowercase <$> alphanumeric_words search_string in
  iterators ← gets (λ s, (λ w, word_iterator shortroomid w s) <$> words);
  mret (match common_elements (λ a b, bytes_cmp b a) iterators with
        | Some common => Some ((λ id, to_be_bytes shortroomid ++ id) <$> common, words)
        | None => None
        end).

(** ** Theorems on shared rooms *)

Lemma room_of_idkey (u : UserId) (r : RoomId) : room_of_key (idkey u r) = Ok (idb r).
Proof.
  unfold room_of_key, idkey, key2.
  assert (list_find (λ b, b = sep) (idb u ++ sep :: idb r) = Some (length (idb u), sep)) as ->.
  { apply list_find_Some. split_and!; [by apply list_lookup_middle|done|].
    intros j y Hj Hlt ->. rewrite lookup_app_l in Hj by done. apply list_elem_of_lookup_2 in Hj. by apply idb_no_sep in Hj. }
  cbn [ok_or mbind res_bind]. f_equal. rewrite drop_app_add. done.
Qed.

Lemma bytes_check :
  (∀ a b, bytes_cmp a b = Eq ↔ a = b) ∧ (∀ a b, bytes_cmp a b = Lt ↔ a <b b) ∧ (∀ a b, bytes_cmp a b = Gt ↔ b <b a).
Proof.
  split_and!; [apply bytes_cmp_eq|done|]. intros a b. unfold bytes_lt. rewrite (bytes_cmp_antisym a b).
  by destruct (bytes_cmp a b).
Qed.

(** The rooms of a user, in order. *)
Lemma rooms_iterator_spec u s :
  id_keyed (va := valid_user_id) (vb := valid_room_id) (db_map s userroomid_joined) →
  StronglySorted bytes_lt (rooms_iterator u s) ∧
  ∀ b, b ∈ rooms_iterator u s ↔ ∃ r : RoomId, b = idb r ∧ is_Some (db_map s userroomid_joined !! idkey u r).
Proof.
  intros Hk. unfold rooms_iterator. rewrite scan_prefix_contents. fold (db_map s userroomid_joined).
  assert (∀ e, e ∈ with_prefix (idb u ++ [sep]) (db_map s userroomid_joined) → ∃ r : RoomId, e.1 = idkey u r) as Hl.
  { intros [k v] H. apply (scan_idkey (vb := valid_room_id)) in H as (r & -> & _); [|done]. eauto. }
  pose proof (with_prefix_sorted (idb u ++ [sep]) (db_map s userroomid_joined)) as Hs. split.
  - induction Hs as [|e l Hs IH Hall]; [constructor|]. destruct (Hl e) as [r Er]; [by left|].
    csimpl. unfold filter_map in *. cbn. rewrite Er, room_of_idkey. cbn.
    constructor; [apply IH; intros; apply Hl; by right|]. rewrite Forall_forall in Hall. apply Forall_forall.
    intros b (x & ([k v] & -> & Hin)%list_elem_of_fmap & Ex)%list_elem_of_omap. specialize (Hall _ Hin).
    destruct (Hl (k, v)) as [r' Er']; [by right|]. unfold key_lt in Hall. rewrite Er, Er' in Hall.
    rewrite Er', room_of_idkey in Ex. injection Ex as <-. by apply key2_lt in Hall.
  - intros b. unfold filter_map. rewrite list_elem_of_omap. split.
    + intros (x & ([k v] & -> & Hin)%list_elem_of_fmap & Ex). destruct (Hl _ Hin) as [r Er]. cbn in Er. subst k.
      cbn [fst] in Ex. rewrite room_of_idkey in Ex. injection Ex as <-. exists r. split; [done|].
      apply elem_of_with_prefix in Hin as [-> _]. done.
    + intros (r & -> & [v Hv]). exists (Ok (idb r)). split; [|done]. apply list_elem_of_fmap.
      exists (idkey u r, v). cbn [fst]. rewrite room_of_idkey. split; [done|].
      apply elem_of_with_prefix. split; [done|]. apply key2_prefix_self.
Qed.

(** The shared rooms of some users are exactly the rooms all of them have
    joined, each listed once. *)
Theorem get_shared_rooms_correct u us s :
  id_keyed (va := valid_user_id) (vb := valid_room_id) (db_map s userroomid_joined) →
  ∃ rooms : list RoomId, get_shared_rooms (u :: us) s = (Ok (Ok <$> rooms), s) ∧ NoDup rooms ∧
    ∀ r, r ∈ rooms ↔ ∀ u', u' ∈ u :: us → is_Some (db_map s userroomid_joined !! idkey u' r).
Proof.
  intros Hk. destruct bytes_check as (He & Hlt & Hgt). unfold get_shared_rooms. rewrite bind_gets. csimpl.
  cbn [common_elements expect]. rewrite bind_lift_Ok.
  destruct (rooms_iterator_spec u s Hk) as [Hs Hu].
  rewrite (filter_common_spec bytes_cmp bytes_lt He Hlt Hgt); [|done|].
  2:{ apply Forall_fmap, Forall_forall. intros u' _. by apply rooms_iterator_spec. }
  set (bs := filter _ _). assert (StronglySorted bytes_lt bs) as Hbs by (by apply StronglySorted_filter).
  assert (∀ b, b ∈ bs → ∃ r : RoomId, b = idb r) as Hr.
  { intros b [_ (r & -> & _)%Hu]%list_elem_of_filter. eauto. }
  assert (∃ rooms : list RoomId, bs = idb <$> rooms) as [rooms Ers].
  { clear -Hr. induction bs as [|b bs IH]; [by exists []|]. destruct (Hr b) as [r ->]; [by left|].
    destruct IH as [rs ->]; [intros; apply Hr; by right|]. by exists (r :: rs). }
  exists rooms. rewrite Ers in Hbs |- *. split_and!.
  - unfold mret, M_ret. do 2 f_equal. rewrite <- list_fmap_compose. apply list_fmap_ext. intros _ r _. cbn.
    apply parse_bytes_idb.
  - clear -Hbs. induction rooms as [|r rooms IH]; [constructor|]. csimpl. inversion Hbs as [|?? Hs Hall]; subst.
    constructor; [|by apply IH]. intros Hin. rewrite Forall_forall in Hall.
    apply (irreflexivity bytes_lt (idb r)), Hall. apply list_elem_of_fmap. eauto.
  - intros r. assert (r ∈ rooms ↔ idb r ∈ bs) as ->.
    { rewrite Ers, list_elem_of_fmap. split; [eauto|]. by intros (r' & ->%(inj idb) & ?). }
    unfold bs. rewrite list_elem_of_filter, Hu, Forall_fmap, Forall_forall. split.
    + intros [Hall (r' & <-%(inj idb) & Hr1)] u' [->|Hin]%elem_of_cons; [done|].
      apply Hall in Hin. cbn in Hin. by apply rooms_iterator_spec in Hin as (r'' & <-%(inj idb) & ?).
    + intros Hall. split; [|exists r; split; [done|apply Hall; by left]].
      intros u' Hin. cbn. apply rooms_iterator_spec; [done|]. exists r. split; [done|]. apply Hall. by right.
Qed.

(** ** Theorems on search *)

(** The entry for a word of the event at position [c] of a room. *)
Definition token_key (sr : N) (w : rstr) (c : N) : bytes :=
  word_prefix sr w ++ to_be_bytes sr ++ to_be_bytes c.

Definition indexed s (sr : N) (w : rstr) (c : N) : Prop := is_Some (db_map s tokenids !! token_key sr w c).

Definition tokens_keyed s : Prop :=
  ∀ k v, db_map s tokenids !! k = Some v → ∃ sr w c, sr < u64_max ∧ u64 c ∧ k = token_key sr w c.

Lemma word_prefix_iff sr w sr' w' c :
  u64 sr → u64 sr' → word_prefix sr w `prefix_of` token_key sr' w' c ↔ sr = sr' ∧ w = w'.
Proof.
  intros Hs Hs'. split; [|intros [-> ->]; by eexists]. intros [z E]. unfold token_key, word_prefix in E.
  repeat (rewrite <- !app_assoc in E; cbn [app] in E).
  apply app_inj_1 in E as [Es E]; [|by rewrite !length_to_be_bytes]. apply to_be_bytes_inj in Es as ->; [|done..].
  apply key_inj in E as [E _]; [|auto with kv..]. split; [done|]. by apply (inj as_bytes).
Qed.

Lemma token_key_inj sr w c sr' w' c' :
  u64 sr → u64 sr' → u64 c → u64 c' → token_key sr w c = token_key sr' w' c' → sr = sr' ∧ w = w' ∧ c = c'.
Proof.
  intros Hs Hs' Hc Hc' E. destruct (word_prefix_iff sr w sr' w' c') as [[-> ->] _]; [done..|rewrite <- E; by eexists|].
  unfold token_key in E. apply app_inv_head, app_inv_head in E. by apply to_be_bytes_inj in E.
Qed.

(** The positions at which a word occurs, newest first. *)
Lemma word_iterator_spec sr w s :
  tokens_keyed s → sr < u64_max →
  StronglySorted (flip bytes_lt) (word_iterator sr w s) ∧
  ∀ b, b ∈ word_iterator sr w s ↔ ∃ c, u64 c ∧ b = to_be_bytes c ∧ indexed s sr w c.
Proof.
  intros Hk Hsr. assert (u64 sr) as Hu by (unfold u64, u64_max in *; lia).
  unfold word_iterator. rewrite iter_backward_while by (by exists (to_be_bytes u64_max)).
  fold (db_map s tokenids). set (l := reverse _).
  assert (∀ e, e ∈ l ↔ ∃ c v, u64 c ∧ e = (token_key sr w c, v) ∧ db_map s tokenids !! token_key sr w c = Some v) as Hl.
  { intros [k v]. unfold l. rewrite elem_of_reverse, list_elem_of_filter, elem_of_with_prefix. cbn [fst]. split.
    - intros (_ & Hv & Hp). destruct (Hk k v Hv) as (sr' & w' & c & Hsr' & Hc & ->).
      apply word_prefix_iff in Hp as [<- <-]; [by exists c, v|done|unfold u64, u64_max in *; lia].
    - intros (c & v' & Hc & [= -> ->] & Hv). split_and!; [|done|by apply word_prefix_iff].
      unfold token_key. apply bytes_le_app, bytes_le_lt_eq. left. rewrite <- (app_nil_r (to_be_bytes u64_max)).
      apply bytes_lt_app_r; [by rewrite !length_to_be_bytes|]. apply to_be_bytes_lt; [done|done|done]. }
  assert (∀ c, drop (length (token_key sr w c) - 8) (token_key sr w c) = to_be_bytes c) as Hd.
  { intros c. unfold token_key. rewrite !app_assoc, length_app, length_to_be_bytes.
    replace (_ + 8 - 8)%nat with (length ((word_prefix sr w ++ to_be_bytes sr))) by lia. apply drop_app_length. }
  split.
  - assert (StronglySorted (flip key_lt) l) as Hs
      by (unfold l; apply StronglySorted_reverse, StronglySorted_filter; auto with kv).
    assert (∀ e, e ∈ l → ∃ c, u64 c ∧ e.1 = token_key sr w c) as Hl' by (intros e (c & v & ? & -> & _)%Hl; eauto).
    clear Hl. clearbody l. induction Hs as [|e l Hs IH Hall]; [constructor|]. csimpl.
    destruct (Hl' e) as (c & Hc & Ec); [by left|]. rewrite Ec, Hd.
    constructor; [apply IH; intros; apply Hl'; by right|]. rewrite Forall_forall in Hall. apply Forall_forall.
    intros b (e' & -> & He')%list_elem_of_fmap. specialize (Hall _ He'). unfold flip, key_lt in *.
    destruct (Hl' e') as (c' & Hc' & E'); [by right|]. rewrite E', Hd.
    rewrite Ec, E' in Hall. unfold token_key in Hall. by rewrite !bytes_lt_app in Hall.
  - intros b. rewrite list_elem_of_fmap. unfold indexed. split.
    + intros (e & -> & (c & v & Hc & -> & Hv)%Hl). exists c. cbn [fst]. rewrite Hd. eauto.
    + intros (c & Hc & -> & [v Hv]). exists (token_key sr w c, v). cbn [fst]. rewrite Hd. split; [done|].
      apply Hl. by exists c, v.
Qed.

Lemma room_short_run r sr s :
  u64 sr → db_map s roomid_shortroomid !! idb r = Some (to_be_bytes sr) → room_short r s = (Ok sr, s).
Proof.
  intros Hu Hr. assert (get_shortroomid r s = (Ok (Some sr), s)) as E.
  { unfold get_shortroomid. db_step. rewrite Hr. unfold parse_u64. cbn [fmap option_fmap option_map].
    by rewrite u64_from_be_u64. }
  unfold room_short. by rewrite (bind_Ok _ _ _ _ _ E).
Qed.

(** A search returns, newest first and without repetition, exactly the
    events of the room in which every word of the search string is indexed. *)
Theorem search_pdus_correct r sr w ws search_string s :
  tokens_keyed s → sr < u64_max → db_map s roomid_shortroomid !! idb r = Some (to_be_bytes sr) →
  to_lowercase <$> alphanumeric_words search_string = w :: ws →
  ∃ cs, search_pdus r search_string s =
      (Ok (Some ((λ c, to_be_bytes sr ++ to_be_bytes c) <$> cs, w :: ws)), s) ∧
    StronglySorted (λ c c', c' < c) cs ∧
    ∀ c, c ∈ cs ↔ u64 c ∧ ∀ w', w' ∈ w :: ws → indexed s sr w' c.
Proof.
  intros Hk Hsr Hr Hw. destruct bytes_check as (He & Hlt & Hgt).
  assert (u64 sr) as Hu by (unfold u64, u64_max in *; lia).
  unfold search_pdus. rewrite (bind_Ok _ _ _ _ _ (room_short_run r sr s Hu Hr)), Hw. cbv zeta. rewrite bind_gets.
  csimpl. cbn [common_elements]. destruct (word_iterator_spec sr w s Hk Hsr) as [Hs Hin].
  rewrite (filter_common_spec (λ a b, bytes_cmp b a) (flip bytes_lt));
    [|intros a b; rewrite He; by split|intros a b; apply Hlt|intros a b; apply Hgt|done|].
  2:{ apply Forall_fmap, Forall_forall. intros w' _. by apply word_iterator_spec. }
  set (bs := filter _ _). assert (StronglySorted (flip bytes_lt) bs) as Hbs by (by apply StronglySorted_filter).
  assert (∀ b, b ∈ bs → ∃ c, u64 c ∧ b = to_be_bytes c) as Hb.
  { intros b [_ (c & ? & -> & _)%Hin]%list_elem_of_filter. eauto. }
  assert (∃ cs, bs = to_be_bytes <$> cs ∧ Forall u64 cs) as (cs & Ecs & Hcs).
  { clear -Hb. induction bs as [|b bs IH]; [by exists []|]. destruct (Hb b) as (c & Hc & ->); [by left|].
    destruct IH as (cs & -> & Hcs); [intros; apply Hb; by right|]. exists (c :: cs). split; [done|by constructor]. }
  exists cs. rewrite Ecs in Hbs |- *. split_and!.
  - unfold mret, M_ret. by rewrite <- list_fmap_compose.
  - clear -Hbs Hcs. induction Hcs as [|c cs Hc Hcs IH]; [constructor|]. csimpl. inversion Hbs as [|?? Hs Hall]; subst.
    constructor; [by apply IH|]. rewrite Forall_forall in Hall. rewrite Forall_forall in Hcs. apply Forall_forall. intros c' Hc'.
    apply to_be_bytes_lt; [by apply Hcs|done|]. apply Hall. apply list_elem_of_fmap. eauto.
  - intros c. assert (c ∈ cs ↔ u64 c ∧ to_be_bytes c ∈ bs) as ->.
    { rewrite Ecs, list_elem_of_fmap. rewrite Forall_forall in Hcs. split; [eauto|].
      intros (Hc & c' & E & Hc'). apply to_be_bytes_inj in E as ->; auto. }
    unfold bs. rewrite list_elem_of_filter, Hin, Forall_fmap, Forall_forall. split.
    + intros (Hc & Hall & (c' & Hc' & E & Hi)). apply to_be_bytes_inj in E as <-; [|done..]. split; [done|].
      intros w' [->|Hw']%elem_of_cons; [done|]. apply Hall in Hw'. cbn in Hw'.
      apply word_iterator_spec in Hw' as (c' & ? & E & ?); [|done..]. by apply to_be_bytes_inj in E as <-.
    + intros [Hc Hall]. split_and!; [done| |exists c; split_and!; [done..|apply Hall; by left]].
      intros w' Hw'. cbn. apply word_iterator_spec; [done..|]. exists c. split_and!; [done..|]. apply Hall. by right.
Qed.

(** Indexing an event makes it findable by every word of its text of at most
    50 bytes, in lower case, and by nothing else. *)
Theorem index_pdu_correct sr c body s :
  tokens_keyed s → sr < u64_max → u64 c →
  let s' := (index_pdu sr (to_be_bytes sr ++ to_be_bytes c) body s).2 in
  tokens_keyed s' ∧ ∀ sr' w c', u64 sr' → u64 c' →
    indexed s' sr' w c' ↔ indexed s sr' w c' ∨ (sr' = sr ∧ c' = c ∧ w ∈ index_words body).
Proof.
  intros Hk Hsr Hc s'. assert (u64 sr) as Hu by (unfold u64, u64_max in *; lia).
  assert (∀ k, is_Some (db_map s' tokenids !! k) ↔
    is_Some (db_map s tokenids !! k) ∨ ∃ w, w ∈ index_words body ∧ k = token_key sr w c) as Hl.
  { intros k. unfold s', index_pdu, t_insert_batch, modify. cbn [snd].
    rewrite db_map_upd_eq, contents_insert_batch. fold (db_map s tokenids). unfold insert_all.
    generalize (db_map s tokenids). induction (index_words body) as [|w ws IH]; intros m; csimpl.
    - split; [by left|]. intros [?|(? & ?%not_elem_of_nil & _)]; done.
    - rewrite IH, lookup_insert_is_Some. fold (token_key sr w c). split.
      + intros [[<-|[_ ?]]|(w' & ? & ->)]; [right; exists w; split; [by left|done]|by left|].
        right. exists w'. split; [by right|done].
      + destruct (decide (token_key sr w c = k)) as [E|Hne]; [intros _; by left; left|].
        intros [?|(w' & [->|?]%elem_of_cons & ->)]; [left; right; done|done|right; eauto]. }
  split.
  - intros k v Hv. destruct (Hl k) as [[[v' Hv']|(w & _ & ->)] _]; [eauto|by apply (Hk k v')|by exists sr, w, c].
  - intros sr' w c' Hs' Hc'. unfold indexed. rewrite Hl. split; (intros [?|H]; [by left|right]).
    + destruct H as (w' & Hw & (-> & -> & ->)%token_key_inj); done.
    + destruct H as (-> & -> & Hw). eauto.
Qed.
End room_user.
