(* ===== verification/OpFrames.v ===== *)
(** * Frames of the operations

    Which trees each operation may change, for the services that call many of
    them one after the other. *)

From S2P Require Import Prelude Bytes RStr Error Utils KvTree Env Db Globals Frames Short RoomState StateCompressor Pdu Timeline StateAccessor Users StateCache Edus Sending RoomIndex ClientData RoomUser.

Section frames.
Context {Ev : Env}.

(** ** Lookups: no tree changes *)

Lemma get_room_shortstatehash_keeps r : keeps [] (get_room_shortstatehash r).
Proof. unfold get_room_shortstatehash. keeps_tac. Qed.
Lemma get_shortroomid_keeps r : keeps [] (get_shortroomid r).
Proof. unfold get_shortroomid. keeps_tac. Qed.
Lemma get_shortstatekey_keeps t k : keeps [] (get_shortstatekey t k).
Proof. unfold get_shortstatekey. keeps_tac. Qed.
Lemma get_eventid_from_short_keeps n : keeps [] (get_eventid_from_short n).
Proof. unfold get_eventid_from_short. keeps_tac. Qed.
Lemma parse_compressed_state_event_keeps c : keeps [] (parse_compressed_state_event c).
Proof. unfold parse_compressed_state_event. pose proof get_eventid_from_short_keeps. keeps_tac. Qed.
Lemma get_statediff_keeps h : keeps [] (get_statediff h).
Proof. unfold get_statediff. keeps_tac. Qed.
Lemma load_layers_keeps f h : keeps [] (load_layers f h).
Proof. revert h. induction f as [|f IH]; intros h; cbn [load_layers]; pose proof get_statediff_keeps; keeps_tac. Qed.
Lemma load_shortstatehash_info_keeps h : keeps [] (load_shortstatehash_info h).
Proof. intros s. apply load_layers_keeps. Qed.
End frames.
#[export] Hint Resolve get_room_shortstatehash_keeps get_shortroomid_keeps get_shortstatekey_keeps
  get_eventid_from_short_keeps parse_compressed_state_event_keeps load_shortstatehash_info_keeps : keeps.

Section lookups.
Context {Ev : Env}.

Lemma get_pdu_keeps e : keeps [] (get_pdu e).
Proof. unfold get_pdu, event_text. keeps_tac. Qed.
Lemma get_pdu_json_keeps e : keeps [] (get_pdu_json e).
Proof. unfold get_pdu_json, event_text. keeps_tac. Qed.
Lemma get_pdu_id_keeps e : keeps [] (get_pdu_id e).
Proof. unfold get_pdu_id. keeps_tac. Qed.
Lemma get_pdu_from_id_keeps i : keeps [] (get_pdu_from_id i).
Proof. unfold get_pdu_from_id. keeps_tac. Qed.
Lemma full_state_keeps h : keeps [] (full_state h).
Proof. unfold full_state. keeps_tac. Qed.
Lemma state_get_id_keeps h t k : keeps [] (state_get_id h t k).
Proof. unfold state_get_id. pose proof full_state_keeps. keeps_tac. Qed.
Lemma state_get_keeps h t k : keeps [] (state_get h t k).
Proof. unfold state_get. pose proof state_get_id_keeps. pose proof get_pdu_keeps. keeps_tac. Qed.
Lemma room_state_get_keeps r t k : keeps [] (room_state_get r t k).
Proof. unfold room_state_get. pose proof state_get_keeps. keeps_tac. Qed.
Lemma pdu_shortstatehash_keeps e : keeps [] (pdu_shortstatehash e).
Proof. unfold pdu_shortstatehash. keeps_tac. Qed.
Lemma once_joined_keeps u r : keeps [] (once_joined u r).
Proof. unfold once_joined. keeps_tac. Qed.
Lemma account_get_keeps r u t : keeps [] (ClientData.get r u t).
Proof. unfold ClientData.get. keeps_tac. Qed.
Lemma room_servers_keeps r : keeps [] (room_servers r).
Proof. unfold room_servers, scan_last. keeps_tac. Qed.
Lemma local_aliases_for_room_keeps r : keeps [] (local_aliases_for_room r).
Proof. unfold local_aliases_for_room. keeps_tac. Qed.
Lemma resolve_local_alias_keeps a : keeps [] (resolve_local_alias a).
Proof. unfold resolve_local_alias. keeps_tac. Qed.
Lemma get_pushkeys_keeps u : keeps [] (get_pushkeys u).
Proof. unfold get_pushkeys. keeps_tac. Qed.
Lemma is_deactivated_keeps u : keeps [] (is_deactivated u).
Proof. unfold is_deactivated. keeps_tac. Qed.
Lemma get_forward_extremities_keeps r : keeps [] (get_forward_extremities r).
Proof. unfold get_forward_extremities. keeps_tac. Qed.
End lookups.
#[export] Hint Resolve get_pdu_keeps get_pdu_json_keeps get_pdu_id_keeps get_pdu_from_id_keeps full_state_keeps
  state_get_id_keeps state_get_keeps room_state_get_keeps pdu_shortstatehash_keeps once_joined_keeps
  account_get_keeps room_servers_keeps local_aliases_for_room_keeps resolve_local_alias_keeps
  get_pushkeys_keeps is_deactivated_keeps get_forward_extremities_keeps : keeps.

(** ** Updates *)

Section updates.
Context {Ev : Env}.

Lemma get_or_create_shorteventid_keeps e :
  keeps [global; eventid_shorteventid; shorteventid_eventid] (get_or_create_shorteventid e).
Proof. unfold get_or_create_shorteventid. keeps_tac. Qed.
Lemma get_or_create_shortstatekey_keeps t k :
  keeps [global; statekey_shortstatekey; shortstatekey_statekey] (get_or_create_shortstatekey t k).
Proof. unfold get_or_create_shortstatekey. keeps_tac. Qed.
Lemma get_or_create_shortstatehash_keeps h :
  keeps [global; statehash_shortstatehash] (get_or_create_shortstatehash h).
Proof. unfold get_or_create_shortstatehash. keeps_tac. Qed.
Lemma save_from_diff_keeps h A R k l : keeps [shortstatehash_statediff] (save_from_diff h A R k l).
Proof.
  revert A R k. induction l as [|i l IH]; intros A R k; cbn [save_from_diff]; unfold save_statediff; keeps_tac;
    apply IH.
Qed.
Lemma save_state_from_diff_keeps h A R k l : keeps [shortstatehash_statediff] (save_state_from_diff h A R k l).
Proof. apply save_from_diff_keeps. Qed.
Lemma set_room_state_keeps r h : keeps [roomid_shortstatehash] (set_room_state r h).
Proof. unfold set_room_state. keeps_tac. Qed.
Lemma set_event_state_keeps e h : keeps [shorteventid_shortstatehash] (set_event_state e h).
Proof. unfold set_event_state. keeps_tac. Qed.
Lemma set_forward_extremities_keeps r es : keeps [roomid_pduleaves] (set_forward_extremities r es).
Proof. unfold set_forward_extremities. keeps_tac. Qed.
Lemma mark_as_referenced_keeps r es : keeps [referencedevents] (mark_as_referenced r es).
Proof. unfold mark_as_referenced. keeps_tac. Qed.
Lemma set_password_keeps u p : keeps [userid_password] (set_password u p).
Proof. unfold set_password. keeps_tac. Qed.
Lemma account_update_keeps r u t d :
  keeps [global; roomuserdataid_accountdata; roomusertype_roomuserdataid] (ClientData.update r u t d).
Proof. unfold ClientData.update. keeps_tac. Qed.
Lemma mark_as_once_joined_keeps u r : keeps [roomuseroncejoinedids] (mark_as_once_joined u r).
Proof. unfold mark_as_once_joined. keeps_tac. Qed.

(** The trees of the memberships. *)
Definition member_trees : list TreeId :=
  [global; userroomid_joined; roomuserid_joined; userroomid_invitestate; roomuserid_invitecount;
   userroomid_leftstate; roomuserid_leftcount].
Lemma mark_as_joined_keeps u r : keeps member_trees (mark_as_joined u r).
Proof. unfold mark_as_joined. keeps_tac. Qed.
Lemma mark_as_invited_keeps u r l : keeps member_trees (mark_as_invited u r l).
Proof. unfold mark_as_invited. keeps_tac. Qed.
Lemma mark_as_left_keeps u r : keeps member_trees (mark_as_left u r).
Proof. unfold mark_as_left. keeps_tac. Qed.
Definition count_trees : list TreeId :=
  [roomid_joinedcount; roomid_invitedcount; roomserverids; serverroomids].
Lemma update_joined_count_keeps r : keeps count_trees (update_joined_count r).
Proof. unfold update_joined_count, count_member, drop_old_server, add_server, scan_last, room_members, room_members_invited. keeps_tac. Qed.
Lemma get_our_real_users_keeps r : keeps count_trees (get_our_real_users r).
Proof. unfold get_our_real_users. pose proof update_joined_count_keeps. keeps_tac. Qed.

Lemma private_read_set_keeps r u c :
  keeps [global; roomuserid_privateread; roomuserid_lastprivatereadupdate] (private_read_set r u c).
Proof. unfold private_read_set. keeps_tac. Qed.
Lemma reset_notification_counts_keeps u r :
  keeps [global; userroomid_notificationcount; userroomid_highlightcount; roomuserid_lastnotificationread]
    (reset_notification_counts u r).
Proof. unfold reset_notification_counts. keeps_tac. Qed.
Lemma append_pdu_keeps i p j c : keeps [pduid_pdu; eventid_pduid; eventid_outlierpdu] (append_pdu i p j c).
Proof. unfold append_pdu. keeps_tac. Qed.
Lemma increment_notification_counts_keeps r n h :
  keeps [userroomid_notificationcount; userroomid_highlightcount] (increment_notification_counts r n h).
Proof. unfold increment_notification_counts. keeps_tac. Qed.
Lemma replace_pdu_keeps i p : keeps [pduid_pdu] (replace_pdu i p).
Proof. unfold replace_pdu. keeps_tac. Qed.
Lemma index_pdu_keeps r i b : keeps [tokenids] (index_pdu r i b).
Proof. unfold index_pdu. keeps_tac. Qed.
Lemma queue_requests_keeps l : keeps [global; servernameevent_data] (queue_requests l).
Proof. unfold queue_requests, request_key. keeps_tac. Qed.
Lemma appservice_all_keeps : keeps [] ClientData.all.
Proof. unfold ClientData.all, appservice_ids, registration_of, get_registration. keeps_tac. Qed.
Lemma appservice_in_room_keeps r a : keeps [] (appservice_in_room r a).
Proof. unfold appservice_in_room, room_members, scan_last, is_joined. cbn zeta. keeps_tac. Qed.
End updates.
#[export] Hint Resolve get_or_create_shorteventid_keeps get_or_create_shortstatekey_keeps
  get_or_create_shortstatehash_keeps save_state_from_diff_keeps set_room_state_keeps set_event_state_keeps
  set_forward_extremities_keeps mark_as_referenced_keeps set_password_keeps account_update_keeps
  mark_as_once_joined_keeps mark_as_joined_keeps mark_as_invited_keeps mark_as_left_keeps
  update_joined_count_keeps get_our_real_users_keeps private_read_set_keeps reset_notification_counts_keeps
  append_pdu_keeps increment_notification_counts_keeps replace_pdu_keeps index_pdu_keeps queue_requests_keeps
  appservice_all_keeps appservice_in_room_keeps : keeps.
