(* ===== verification/MembershipService.v ===== *)
(** * Membership updates ([src/service/rooms/state_cache/mod.rs])

    [update_membership] records the membership a member event gives a user: it
    registers remote users, carries tags and direct chats over from the
    predecessor of a room the user joins for the first time, drops invitations
    from ignored users, and moves the user in the membership trees. *)

From S2P Require Import Prelude Bytes RStr Error Utils KvTree Env Db Keys Globals Frames Short RoomState StateCompressor Pdu Timeline StateAccessor Users StateCache Edus Sending RoomIndex ClientData EventFormat RoomUser OpFrames.

Section membership_service.
Context {Ev : Env} {EL : EventLib}.
Implicit Types s : State.

(** [serde_json::from_str(event.get())] with the message of a bad entry. *)
Definition account_event {A} (o : option A) : res A :=
  ok_or o (BadDatabase "Invalid account data event in db.").

(** Copy old tags to new room; a failed update is ignored. *)
Definition copy_tags (predecessor room_id : RoomId) (user_id : UserId) : DB unit :=
  o ← ClientData.get (Some predecessor) user_id (lit "m.tag");
  match o with
  | Some event =>
      tag_event ← lift (account_event (from_slice (raw_text event)));
      try_ok (ClientData.update (Some room_id) user_id (lit "m.tag") tag_event) ;;
      mret ()
  | None => mret ()
  end.

(** The loop over the direct chats: every list with the old room gains the new
    one; says whether there was one. *)
Fixpoint direct_loop (predecessor room_id : RoomId) (l : list (UserId * list RoomId))
    : list (UserId * list RoomId) * bool :=
  match l with
  | [] => ([], false)
  | (u, room_ids) :: l =>
      let '(l', updated) := direct_loop predecessor room_id l in
      if bool_decide (predecessor ∈ room_ids) then ((u, room_ids ++ [room_id]) :: l', true)
      else ((u, room_ids) :: l', updated)
  end.

(** Copy direct chat flag. *)
Definition copy_direct (predecessor room_id : RoomId) (user_id : UserId) : DB unit :=
  o ← ClientData.get None user_id (lit "m.direct");
  match o with
  | Some event =>
      direct ← lift (account_event (direct_event event));
      let '(direct, room_ids_updated) := direct_loop predecessor room_id direct in
      if (room_ids_updated : bool) then ClientData.update None user_id (lit "m.direct") (direct_to_value direct)
      else mret ()
  | None => mret ()
  end.

(** The predecessor the create event of a room names. *)
Definition room_predecessor (room_id : RoomId) : DB (option RoomId) :=
  create ← room_state_get room_id (lit "m.room.create") (lit "");
  mret (create ← create; content ← create_content (content create); cc_predecessor content).

Definition first_join (room_id : RoomId) (user_id : UserId) : DB unit :=
  mark_as_once_joined user_id room_id ;;
  predecessor ← room_predecessor room_id;
  match predecessor with
  | Some predecessor => copy_tags predecessor room_id user_id ;; copy_direct predecessor room_id user_id
  | None => mret ()
  end.

(** Whether the receiver ignores the sender. *)
Definition is_ignored (user_id sender : UserId) : DB bool :=
  o ← ClientData.get None user_id (lit "m.ignored_user_list");
  ignored ← lift (transpose ((λ event, account_event (ignored_users event)) <$> o));
  mret (match ignored with Some l => bool_decide (sender ∈ l) | None => false end).

(** [false]: return at once, without updating the counts. *)
Definition apply_membership (room_id : RoomId) (user_id : UserId) (membership : MembershipState)
    (sender : UserId) (last_state : option (list Raw)) : DB bool :=
  match membership with
  | MJoin =>
      before ← once_joined user_id room_id;
      (if (before : bool) then mret () else first_join room_id user_id) ;;
      mark_as_joined user_id room_id ;;
      mret true
  | MInvite =>
      ignored ← is_ignored user_id sender;
      if (ignored : bool) then mret false
      else mark_as_invited user_id room_id last_state ;; mret true
  | MLeave | MBan => mark_as_left user_id room_id ;; mret true
  | _ => mret true
  end.

Definition update_membership (room_id : RoomId) (user_id : UserId) (membership : MembershipState)
    (sender : UserId) (last_state : option (list Raw)) (update_joined_count : bool) : DB unit :=
  (if decide (user_server_name user_id = server_name) then mret () else set_password user_id None) ;;
  continue ← apply_membership room_id user_id membership sender last_state;
  if (continue : bool) && update_joined_count then StateCache.update_joined_count room_id else mret ().

(** ** Frames *)

Lemma copy_tags_keeps p r u :
  keeps [global; roomuserdataid_accountdata; roomusertype_roomuserdataid] (copy_tags p r u).
Proof. unfold copy_tags. keeps_tac. Qed.
Lemma copy_direct_keeps p r u :
  keeps [global; roomuserdataid_accountdata; roomusertype_roomuserdataid] (copy_direct p r u).
Proof. unfold copy_direct. keeps_tac. Qed.
Lemma room_predecessor_keeps r : keeps [] (room_predecessor r).
Proof. unfold room_predecessor. keeps_tac. Qed.
Lemma is_ignored_keeps u v : keeps [] (is_ignored u v).
Proof. unfold is_ignored. keeps_tac. Qed.
Hint Resolve copy_tags_keeps copy_direct_keeps room_predecessor_keeps is_ignored_keeps : keeps.

Lemma first_join_keeps r u :
  keeps [global; roomuseroncejoinedids; roomuserdataid_accountdata; roomusertype_roomuserdataid] (first_join r u).
Proof. unfold first_join. keeps_tac. Qed.
Hint Resolve first_join_keeps : keeps.

Lemma update_membership_keeps r u m v l b :
  keeps (member_trees ++ count_trees ++
         [userid_password; roomuseroncejoinedids; roomuserdataid_accountdata; roomusertype_roomuserdataid])
    (update_membership r u m v l b).
Proof. unfold update_membership, apply_membership. keeps_tac. Qed.

(** Memberships depend on the six membership trees only. *)
Definition member_maps : list TreeId :=
  [userroomid_joined; roomuserid_joined; userroomid_invitestate; roomuserid_invitecount;
   userroomid_leftstate; roomuserid_leftcount].

Lemma membership_agree ts s s' :
  agree ts s s' → Forall (.∉ ts) member_maps → MemberInv s →
  MemberInv s' ∧ ∀ u r, membership s' u r = membership s u r.
Proof.
  intros Ha Hf []. rewrite Forall_forall in Hf.
  assert (∀ t, t ∈ member_maps → db_map s' t = db_map s t) as E by auto.
  split; [split; unfold in_tree|intros u r; unfold membership, in_tree]; rewrite !E by by_compute; auto.
Qed.
(** ** The outcome *)

(** What a member event makes of a membership. *)
Definition membership_after (m : MembershipState) (ignored : bool) (old : option Membership) : option Membership :=
  match m with
  | MJoin => Some Joined
  | MInvite => if ignored then old else Some Invited
  | MLeave | MBan => Some Left
  | _ => old
  end.

(** The answer of [is_ignored]. *)
Definition ignores (u v : UserId) s : bool := match (is_ignored u v s).1 with Ok b => b | _ => false end.

(** The ignore list is account data: other trees do not matter. *)
Lemma is_ignored_agree ts u v s s' :
  agree ts s s' → roomusertype_roomuserdataid ∉ ts → roomuserdataid_accountdata ∉ ts →
  ignores u v s' = ignores u v s.
Proof.
  intros Ha H1 H2. unfold ignores, is_ignored, ClientData.get, mbind, M_bind. rewrite !t_get_run, (Ha _ H1).
  destruct (_ !! _) as [id|]; [|done]. rewrite !t_get_run, (Ha _ H2).
  destruct (db_map s roomuserdataid_accountdata !! id) as [d|]; [|done]. cbn.
  destruct (raw_from_slice d) as [x|]; [|done]. cbn. by destruct (account_event _).
Qed.

(** One step of [moves] after a part that leaves the memberships alone. *)
Lemma moves_after u r m s s1 s' :
  (∀ u r, membership s1 u r = membership s u r) → moves u r m s1 s' → moves u r m s s'.
Proof. intros E [I H]. split; [done|]. intros u' r'. by rewrite H, E. Qed.
Lemma moves_none u r s s' :
  MemberInv s' → (∀ u r, membership s' u r = membership s u r) → moves u r (membership s u r) s s'.
Proof. intros I E. split; [done|]. intros u' r'. rewrite E. by case_decide as H; [injection H as -> ->|]. Qed.

(** A join: the first one may fail on bad account data, before the user moves. *)
Lemma first_join_member r u s :
  MemberInv s → MemberInv (first_join r u s).2 ∧ ∀ u' r', membership (first_join r u s).2 u' r' = membership s u' r'.
Proof. intros I. eapply membership_agree; [apply first_join_keeps|by_compute|done]. Qed.

Lemma is_ignored_state u v s : MemberInv s → MemberInv (is_ignored u v s).2 ∧
  ∀ u' r', membership (is_ignored u v s).2 u' r' = membership s u' r'.
Proof. intros I. eapply membership_agree; [apply is_ignored_keeps|by_compute|done]. Qed.

Lemma apply_membership_moves r u m v l s :
  MemberInv s →
  let '(o, s') := apply_membership r u m v l s in
  let after := membership_after m (ignores u v s) (membership s u r) in
  ∃ new, moves u r new s s' ∧ new = match o with Ok _ => after | _ => membership s u r end ∧
    ((m = MJoin → is_Some (db_map s roomuseroncejoinedids !! idkey u r)) → m ≠ MInvite → o = Ok true).
Proof.
  intros I. unfold apply_membership. destruct m as [| | | | |t].
  - unfold once_joined. rewrite (bind_Ok _ _ s (bool_decide (is_Some (db_map s roomuseroncejoinedids !! idkey u r))) s)
      by (by db_run).
    case_bool_decide as Hj.
    + db_step. rewrite (bind_Ok _ _ _ _ _ (mark_as_joined_run u r s)). exists (Some Joined).
      split_and!; [by apply moves_joined|done|done].
    + destruct (first_join_member r u s I) as [I1 E1]. unfold mbind at 1, M_bind at 1.
      destruct (first_join r u s) as [[[]|e|p] s1]; cbn [snd] in *.
      * rewrite (bind_Ok _ _ _ _ _ (mark_as_joined_run u r s1)). exists (Some Joined).
        split_and!; [by eapply moves_after, moves_joined|done|]. intros H. destruct (H eq_refl). by destruct Hj.
      * exists (membership s u r). split_and!; [by apply moves_none|done|]. intros H. by destruct Hj; apply H.
      * exists (membership s u r). split_and!; [by apply moves_none|done|]. intros H. by destruct Hj; apply H.
  - destruct (is_ignored_state u v s I) as [I1 E1]. unfold mbind at 1, M_bind at 1.
    unfold ignores. destruct (is_ignored u v s) as [[[]|e|p] s1]; cbn [fst snd] in *.
    + exists (membership s u r). cbn. split_and!; [by apply moves_none|done|done].
    + rewrite (bind_Ok _ _ _ _ _ (mark_as_invited_run u r l s1)). exists (Some Invited). cbn.
      split_and!; [by eapply moves_after, moves_invited|done|done].
    + exists (membership s u r). split_and!; [by apply moves_none|done|done].
    + exists (membership s u r). split_and!; [by apply moves_none|done|done].
  - rewrite (bind_Ok _ _ _ _ _ (mark_as_left_run u r s)). exists (Some Left).
    split_and!; [by apply moves_left|done|done].
  - rewrite (bind_Ok _ _ _ _ _ (mark_as_left_run u r s)). exists (Some Left).
    split_and!; [by apply moves_left|done|done].
  - exists (membership s u r). split_and!; [by apply moves_none|done|done].
  - exists (membership s u r). split_and!; [by apply moves_none|done|done].
Qed.

Lemma apply_membership_servers r u m v l s t :
  t ∈ count_trees → db_map (apply_membership r u m v l s).2 t = db_map s t.
Proof.
  intros Ht. assert (keeps (member_trees ++ [roomuseroncejoinedids; roomuserdataid_accountdata; roomusertype_roomuserdataid])
    (apply_membership r u m v l)) as H by (unfold apply_membership; keeps_tac).
  apply H. revert t Ht. apply (Forall_forall (.∉ _)). by_compute.
Qed.

Abbreviation room_servers_mirror s :=
  (mirror valid_room_id valid_server_name (db_map s roomserverids) (db_map s serverroomids)).

(** The outcome of a member event; a leave or a ban never fails. *)
Lemma update_membership_run r u m v l b s :
  MemberInv s → room_servers_mirror s →
  let '(o, s') := update_membership r u m v l b s in
  let after := membership_after m (ignores u v s) (membership s u r) in
  MemberInv s' ∧
  (∀ u' r', (u', r') ≠ (u, r) → membership s' u' r' = membership s u' r') ∧
  membership s' u r = match o with Ok _ => after | _ => membership s u r end ∧
  ((m = MJoin → (once_joined u r s).1 = Ok true) → m ≠ MInvite → o = Ok ()).
Proof.
  intros I Hm. unfold update_membership.
  set (m0 := if decide _ then _ else _ : DB unit).
  assert (∃ s1, m0 s = (Ok (), s1) ∧ agree [userid_password] s s1) as (s1 & E1 & Ha).
  { unfold m0. destruct (decide _); eexists; (split; [done|]); [by intros t _|apply agree_put; by left]. }
  rewrite (bind_Ok _ _ _ _ _ E1). destruct (membership_agree _ _ _ Ha) as [I1 Em]; [by_compute|done|].
  rewrite <- (is_ignored_agree _ u v _ _ Ha) by by_compute.
  pose proof (apply_membership_moves r u m v l s1 I1) as H.
  pose proof (apply_membership_servers r u m v l s1) as Hs.
  unfold mbind at 1, M_bind at 1. destruct (apply_membership r u m v l s1) as [o s2].
  destruct H as (new & [I2 Hmv] & Hnew & Hdone). rewrite (Em u r) in *.
  assert (∀ u' r', (u', r') ≠ (u, r) → membership s2 u' r' = membership s u' r') as Hother.
  { intros u' r' Hne. by rewrite Hmv, decide_False, Em. }
  assert (membership s2 u r = new) as Hu by (by rewrite Hmv, decide_True).
  assert ((m = MJoin → (once_joined u r s).1 = Ok true) → m ≠ MInvite → o = Ok true) as Hdone'.
  { intros Hj. apply Hdone. intros Em'. specialize (Hj Em'). rewrite (Ha roomuseroncejoinedids) by by_compute.
    revert Hj. unfold once_joined. db_step. cbn. intros [= ?%bool_decide_eq_true]. done. }
  destruct o as [c|e|p].
  - assert (room_servers_mirror s2) as Hm2 by (rewrite !Hs, !Ha by by_compute; done).
    destruct (update_joined_count_run r s2 I2 Hm2) as (s3 & us & inv & E3 & Hc).
    destruct Hc as (_ & _ & _ & _ & _ & _ & _ & _ & _ & _ & Hm3 & _).
    assert (MemberInv s3) as I3.
    { eapply membership_agree; [eapply preserves_inv; [apply update_joined_count_keeps|exact E3]|by_compute|done]. }
    destruct (c && b); [rewrite E3|].
    + split_and!; [done| |by rewrite Hm3, Hu|done].
      intros u' r' Hne. rewrite Hm3. auto.
    + split_and!; [done..|by rewrite Hu|done].
  - split_and!; [done|done|by rewrite Hu|]. intros H1 H2. specialize (Hdone' H1 H2). done.
  - split_and!; [done|done|by rewrite Hu|]. intros H1 H2. specialize (Hdone' H1 H2). done.
Qed.

(** C16: The user is moved as the event says if the operation succeeds, and stays where
    they were if it fails because stored data cannot be read.  An invitation from an ignored user moves nobody.  The
    membership of everyone else and the consistency of the trees are kept
    whatever the outcome, and the only operations that can fail are an
    invitation and a first join. *)
Theorem update_membership_correct r u m v l b s :
  MemberInv s → room_servers_mirror s →
  let '(o, s') := update_membership r u m v l b s in
  let after := membership_after m (ignores u v s) (membership s u r) in
  MemberInv s' ∧
  (∀ u' r', (u', r') ≠ (u, r) → membership s' u' r' = membership s u' r') ∧
  membership s' u r = match o with Ok _ => after | _ => membership s u r end ∧
  ((m = MJoin → (once_joined u r s).1 = Ok true) → m ≠ MInvite → o = Ok ()).
Proof. apply update_membership_run. Qed.
End membership_service.
