(* ===== verification/StateService.v ===== *)
(** * The room state service ([src/service/rooms/state/mod.rs])

    How events move the state of a room: the state before an event is recorded
    with it, a state event replaces the entry of its state key, and the state
    the server resolves for an incoming event is stored whole. *)

From S2P Require Import Prelude Bytes RStr Error Utils KvTree Env Db Keys Globals Frames Short RoomState StateCompressor Pdu Timeline StateAccessor Users StateCache ClientData EventFormat OpFrames MembershipService.

Section state_service.
Context {Ev : Env} {EL : EventLib}.
Implicit Types s : State.

(** [match x { Some(x) => x, None => continue }] *)
Definition or_continue {A} (o : option A) (f : A → DB unit) : DB unit :=
  match o with Some a => f a | None => mret () end.

(** The membership a new state event gives a user, if it is a member event. *)
Definition force_member (room_id : RoomId) (event_id : EventId) : DB unit :=
  pdu ← get_pdu_json event_id;
  or_continue pdu (λ pdu,
  if decide ((canonical_get (lit "type") pdu ≫= as_string) = Some (lit "m.room.member")) then
    or_continue (pdu_of_canonical pdu) (λ pdu,
    or_continue (extract_membership (content pdu)) (λ membership,
    or_continue (state_key pdu) (λ state_key,
    or_continue (parse_id valid_user_id state_key) (λ user_id,
    update_membership room_id user_id membership (sender pdu) None false))))
  else mret ()).

Definition force_state (room_id : RoomId) (shortstatehash : N)
    (statediffnew statediffremoved : gset CompressedStateEvent) : DB unit :=
  for_each (elements statediffnew) (λ new,
    r ← try_ok (parse_compressed_state_event new);
    or_continue r (λ r, force_member room_id r.2)) ;;
  update_joined_count room_id ;;
  set_room_state room_id shortstatehash.

(** [state_ids_compressed] is the set in the order of its iteration, which the
    hash depends on. *)
Definition set_event_state (event_id : EventId) (room_id : RoomId)
    (state_ids_compressed : list CompressedStateEvent) : DB N :=
  let state : gset CompressedStateEvent := list_to_set state_ids_compressed in
  shorteventid ← get_or_create_shorteventid event_id;
  previous_shortstatehash ← get_room_shortstatehash room_id;
  let state_hash := calculate_hash sha256 (arr <$> state_ids_compressed) in
  r ← get_or_create_shortstatehash state_hash;
  let '(shortstatehash, already_existed) := (r : N * bool) in
  (if already_existed then mret ()
   else
     states_parents ← match previous_shortstatehash with
                      | None => mret []
                      | Some p => load_shortstatehash_info p
                      end;
     let '(statediffnew, statediffremoved) :=
       match last states_parents with
       | Some parent_stateinfo => (state ∖ si_full parent_stateinfo, si_full parent_stateinfo ∖ state)
       | None => (state, ∅)
       end in
     save_state_from_diff shortstatehash statediffnew statediffremoved 1000000 states_parents) ;;
  RoomState.set_event_state shorteventid shortstatehash ;;
  mret shortstatehash.

(** The entry of a state key in the state at the top of a stack. *)
Definition find_replaced (states_parents : list StateInfo) (shortstatekey : N) : option CompressedStateEvent :=
  info ← last states_parents;
  snd <$> list_find (λ c : CompressedStateEvent, starts_with (arr c) (to_be_bytes shortstatekey) = true)
            (elements (si_full info)).

Definition append_to_state (new_pdu : PduEvent) : DB N :=
  shorteventid ← get_or_create_shorteventid (event_id new_pdu);
  previous_shortstatehash ← get_room_shortstatehash (room_id new_pdu);
  match previous_shortstatehash with
  | Some p => RoomState.set_event_state shorteventid p
  | None => mret ()
  end ;;
  match state_key new_pdu with
  | Some state_key =>
      states_parents ← match previous_shortstatehash with
                       | None => mret []
                       | Some p => load_shortstatehash_info p
                       end;
      shortstatekey ← get_or_create_shortstatekey (kind new_pdu) state_key;
      new ← compress_state_event shortstatekey (event_id new_pdu);
      let replaces := find_replaced states_parents shortstatekey in
      if bool_decide (Some new = replaces) then lift (expect previous_shortstatehash "must exist")
      else
        shortstatehash ← next_count;
        save_state_from_diff shortstatehash {[new]} (from_option singleton ∅ replaces) 2 states_parents ;;
        mret shortstatehash
  | None => lift (expect previous_shortstatehash "first event in room must be a state event")
  end.

(** [if let Some(e) = room_state_get(..)? { state.push(e.to_stripped_state_event()) }] *)
Definition push_stripped (room_id : RoomId) (state : list Raw) (key : StateEventType * rstr) : DB (list Raw) :=
  o ← room_state_get room_id key.1 key.2;
  mret (match o with Some e => state ++ [to_stripped_state_event e] | None => state end).

Definition calculate_invite_state (invite_event : PduEvent) : DB (list Raw) :=
  state ← for_fold
    [(lit "m.room.create", lit ""); (lit "m.room.join_rules", lit ""); (lit "m.room.canonical_alias", lit "");
     (lit "m.room.avatar", lit ""); (lit "m.room.name", lit "");
     (lit "m.room.member", as_str (sender invite_event))] []
    (push_stripped (room_id invite_event));
  mret (state ++ [to_stripped_state_event invite_event]).

Definition get_room_version (room_id : RoomId) : DB rstr :=
  create_event ← room_state_get room_id (lit "m.room.create") (lit "");
  content ← lift (transpose ((λ e, ok_or (create_content (content e)) (BadDatabase "Invalid create event in db."))
                    <$> create_event));
  lift (ok_or (cc_room_version <$> content) (BadDatabase "Invalid room version")).

(** The short state keys of the auth types that have one. *)
Definition short_auth_type (m : gmap N (rstr * rstr)) (t : rstr * rstr) : DB (gmap N (rstr * rstr)) :=
  o ← try_ok (get_shortstatekey t.1 t.2);
  mret (match mjoin o with Some short => <[short := t]> m | None => m end).

(** One entry of the state: an auth type is taken once. *)
Definition auth_entry (acc : gmap N (rstr * rstr) * gmap (rstr * rstr) PduEvent)
    (compressed : CompressedStateEvent) : DB (gmap N (rstr * rstr) * gmap (rstr * rstr) PduEvent) :=
  let '(sauthevents, events) := acc in
  r ← try_ok (parse_compressed_state_event compressed);
  match r with
  | None => mret acc
  | Some (shortstatekey, event_id) =>
      match sauthevents !! shortstatekey with
      | None => mret acc
      | Some k =>
          pdu ← try_ok (get_pdu event_id);
          mret (delete shortstatekey sauthevents,
                match mjoin pdu with Some pdu => <[k := pdu]> events | None => events end)
      end
  end.

Definition get_auth_events (room_id : RoomId) (kind : rstr) (sender : UserId) (state_key : option rstr)
    (content : bytes) : DB (gmap (rstr * rstr) PduEvent) :=
  o ← get_room_shortstatehash room_id;
  match o with
  | None => mret ∅
  | Some shortstatehash =>
      auth_events ← lift (expect (auth_types_for_event kind sender state_key content) "content is a valid JSON object");
      sauthevents ← for_fold auth_events ∅ short_auth_type;
      full ← full_state shortstatehash;
      r ← for_fold (elements full) (sauthevents, ∅) auth_entry;
      mret r.2
  end.

(** ** Lemmas *)

(** The trees of the numberings and of the stored states. *)
Definition numbering_trees : list TreeId :=
  [global; eventid_shorteventid; shorteventid_eventid; statekey_shortstatekey; shortstatekey_statekey;
   roomid_shortroomid; statehash_shortstatehash].

Lemma short_inv_put t k v s : t ∉ numbering_trees → ShortInv s → ShortInv (put t k v s).
Proof.
  intros Ht []. assert (∀ t', t' ∈ numbering_trees → db_map (put t k v s) t' = db_map s t') as E.
  { intros t' Ht'. apply db_map_put_ne. congruence. }
  assert (count (put t k v s) = count s) as Ec by (apply count_frame, E; by left).
  split; intros *; rewrite ?Ec, ?E by by_compute; eauto.
Qed.
Lemma short_inv_bump s : count_ok s → ShortInv s → ShortInv (bump s).
Proof.
  intros Hc []. pose proof (count_bump_ok s Hc) as Ec.
  split; intros *; rewrite ?Ec; db_simpl; eauto using numbering_mono, injection_mono, N.le_add_r.
Qed.

(** The invariant of the stored states looks at four trees and a cache. *)
Lemma state_inv_same s s' :
  StateInv s → count s ≤ count s' → stateinfo_cache s' = stateinfo_cache s →
  (∀ t, t ∈ [shortstatehash_statediff; roomid_shortstatehash; statehash_shortstatehash] → db_map s' t = db_map s t) →
  StateInv s'.
Proof.
  intros [HL HC HR HH] Hc Ecache E.
  assert (∀ h l, layers s h l → layers s' h l) as Hl by (intros h l; apply layers_mono; by rewrite E by by_compute).
  split.
  - intros k v. rewrite E by by_compute. intros (h & l & ? & ? & ? & ? & ?)%HL. exists h, l. split_and!; auto. lia.
  - intros h l. rewrite Ecache. auto.
  - intros k b. rewrite E by by_compute. intros (n & l & ? & ? & ? & ?)%HR. exists n, l. split_and!; auto. lia.
  - intros k b. rewrite E by by_compute. intros (n & l & o & ? & ? & ? & ? & ?)%HH. exists n, l, o.
    split_and!; try tauto; [lia|auto].
Qed.
Lemma state_inv_grows s s' : StateInv s → grows s s' → StateInv s'.
Proof.
  intros I [F]. apply (state_inv_same s); [done..|apply F|]. intros t Ht. apply F. revert t Ht.
  apply (Forall_forall (.∉ _)). by_compute.
Qed.

(** A room can be given any stored state. *)
Lemma state_inv_set_room (r : RoomId) h l s :
  StateInv s → 1 ≤ h → h ≤ count s → layers s h l →
  StateInv (put roomid_shortstatehash (idb r) (to_be_bytes h) s).
Proof.
  intros [HL HC HR HH] H1 H2 Hl.
  split; [intros k v; db_simpl|intros h' l'; db_simpl|intros k b; db_simpl|intros k b; db_simpl].
  - intros (h' & l' & ? & ? & ? & ? & ?)%HL. exists h', l'. split_and!; auto.
    eapply layers_mono; [|done]. by db_simpl.
  - intros Hp%HC. eapply layers_mono, Hp. by db_simpl.
  - intros [[_ <-]|[_ (n & l' & ? & ? & ? & ?)%HR]]%lookup_insert_Some; [exists h, l|exists n, l'];
      (split_and!; [done..|]); (eapply layers_mono; [|done]; by db_simpl).
  - intros (n & l' & o & ? & ? & ? & ? & ?)%HH. exists n, l', o. split_and!; try tauto.
    eapply layers_mono; [|done]. by db_simpl.
Qed.

Lemma get_room_shortstatehash_same r o s s' :
  db_map s' roomid_shortstatehash = db_map s roomid_shortstatehash →
  get_room_shortstatehash r s = (Ok o, s) → get_room_shortstatehash r s' = (Ok o, s').
Proof.
  intros E. unfold get_room_shortstatehash. db_step. db_step. rewrite E. unfold lift. by intros [= ->].
Qed.

Lemma previous_state_mono s s' o parents :
  count s ≤ count s' → db_map s shortstatehash_statediff ⊆ db_map s' shortstatehash_statediff →
  previous_state s o parents → previous_state s' o parents.
Proof.
  intros Hc Hsub. destruct o as [p|]; [|done]. intros (? & ? & Hl). split_and!; [done|lia|by eapply layers_mono].
Qed.

Lemma previous_parents s o parents : count_ok s → previous_state s o parents → parents_ok s parents.
Proof.
  intros Hc. destruct o as [p|]; [|by left]. intros (? & ? & Hl). right. exists p. unfold u64, count_ok in *.
  split_and!; [lia..|done].
Qed.

(** Entries stay entries when the numberings grow. *)
Lemma entry_of_mono s s' c t k e :
  db_map s statekey_shortstatekey ⊆ db_map s' statekey_shortstatekey →
  db_map s eventid_shorteventid ⊆ db_map s' eventid_shorteventid →
  entry_of s c t k e → entry_of s' c t k e.
Proof.
  intros Hk He (sk & n & ? & ? & ? & ? & ?). exists sk, n. split_and!; try done; by eapply lookup_weaken.
Qed.

Lemma compress_run sk (e : EventId) s :
  ShortInv s → count_ok s →
  ∃ c n s', compress_state_event sk e s = (Ok c, s') ∧ arr c = to_be_bytes sk ++ to_be_bytes n ∧
    event_numbered e n s s'.
Proof.
  intros I Hc. destruct (get_or_create_shorteventid_spec e s I Hc) as (n & s' & E & H).
  assert (length (to_be_bytes sk ++ to_be_bytes n) = 16%nat) as Hlen by (by rewrite length_app, !length_to_be_bytes).
  exists (MkArr (n := 16) _ Hlen), n, s'. split_and!; [|done|done].
  unfold compress_state_event. rewrite (bind_Ok _ _ _ _ _ E). unfold lift.
  change (to_be_bytes sk ++ to_be_bytes n) with (arr (MkArr (n := 16) _ Hlen)). by rewrite try_arr_arr.
Qed.

(** A state means the same when the numberings have grown. *)
Lemma state_has_grow s s' F t k e :
  ShortInv s' → state_wf s F →
  db_map s statekey_shortstatekey ⊆ db_map s' statekey_shortstatekey →
  db_map s eventid_shorteventid ⊆ db_map s' eventid_shorteventid →
  state_has s' F t k e ↔ state_has s F t k e.
Proof.
  intros I [_ Hwf] Gk Ge. split; intros (c & Hc & He); exists c; (split; [done|]).
  - destruct (Hwf c Hc) as (t1 & k1 & e1 & H1).
    destruct (entry_of_inj s' c t1 k1 e1 t k e I) as (-> & -> & ->); [exact (entry_of_mono _ _ _ _ _ _ Gk Ge H1)|done..].
  - exact (entry_of_mono _ _ _ _ _ _ Gk Ge He).
Qed.
Lemma state_wf_grow s s' F :
  state_wf s F → db_map s statekey_shortstatekey ⊆ db_map s' statekey_shortstatekey →
  db_map s eventid_shorteventid ⊆ db_map s' eventid_shorteventid → state_wf s' F.
Proof.
  intros [Hone Hwf] Gk Ge. split; [done|]. intros c Hc. destruct (Hwf c Hc) as (t & k & e & He). exists t, k, e.
  exact (entry_of_mono _ _ _ _ _ _ Gk Ge He).
Qed.

(** The entry that a new one replaces. *)
Lemma find_replaced_spec parents sk :
  one_per_key (full_of parents) →
  match find_replaced parents sk with
  | Some c => c ∈ full_of parents ∧ take 8 (arr c) = to_be_bytes sk
  | None => ∀ c, c ∈ full_of parents → take 8 (arr c) ≠ to_be_bytes sk
  end.
Proof.
  unfold find_replaced, full_of. destruct (last parents) as [i|]; cbn.
  - intros H%(find_entry _ sk). by destruct (list_find _ _) as [[? ?]|].
  - intros _ c []%elem_of_empty.
Qed.

(** Replacing the entry of a state key. *)
Definition replace_entry (F : gset CompressedStateEvent) (new : CompressedStateEvent)
    (old : option CompressedStateEvent) : gset CompressedStateEvent :=
  apply_diff F {[new]} (from_option singleton ∅ old).

Lemma elem_of_replace F new old sk :
  one_per_key F → take 8 (arr new) = to_be_bytes sk → Some new ≠ old →
  match old with
  | Some c => c ∈ F ∧ take 8 (arr c) = to_be_bytes sk
  | None => ∀ c, c ∈ F → take 8 (arr c) ≠ to_be_bytes sk
  end →
  proper F {[new]} (from_option singleton ∅ old) ∧
  ∀ c, c ∈ replace_entry F new old ↔ c = new ∨ (c ∈ F ∧ take 8 (arr c) ≠ to_be_bytes sk).
Proof.
  intros Hone Hnew Hne Hold. unfold replace_entry, apply_diff, proper. destruct old as [o|]; cbn.
  - destruct Hold as [Ho Hk]. assert (∀ c, c ∈ F → take 8 (arr c) = to_be_bytes sk → c = o) as Hu.
    { intros c Hc Hck. apply Hone; congruence. }
    split; [split|].
    + apply disjoint_singleton_l. intros Hin. apply Hne. f_equal. auto.
    + by apply singleton_subseteq_l.
    + intros c. rewrite elem_of_difference, elem_of_union, !elem_of_singleton. split.
      * intros [[Hc| ->] Hco]; [right|by left]. split; [done|]. auto.
      * intros [->|[Hc Hck]]; (split; [auto|]); congruence.
  - split; [split|].
    + apply disjoint_singleton_l. intros Hin. by apply (Hold new).
    + apply empty_subseteq.
    + intros c. rewrite elem_of_difference, elem_of_union, elem_of_singleton. split.
      * intros [[Hc| ->] _]; [right|by left]. auto.
      * intros [->|[Hc _]]; (split; [auto|apply not_elem_of_empty]).
Qed.

Lemma replace_state s s' F X new sk n t k e :
  ShortInv s' → state_wf s F →
  db_map s statekey_shortstatekey ⊆ db_map s' statekey_shortstatekey →
  db_map s eventid_shorteventid ⊆ db_map s' eventid_shorteventid →
  arr new = to_be_bytes sk ++ to_be_bytes n → u64 sk → u64 n →
  db_map s' statekey_shortstatekey !! statekey_bytes t k = Some (to_be_bytes sk) →
  db_map s' eventid_shorteventid !! idb e = Some (to_be_bytes n) →
  (∀ c, c ∈ X ↔ c = new ∨ (c ∈ F ∧ take 8 (arr c) ≠ to_be_bytes sk)) →
  state_wf s' X ∧ ∀ t' k' e', state_has s' X t' k' e' ↔
    if decide ((t', k') = (t, k)) then e' = e else state_has s F t' k' e'.
Proof.
  intros I [Hone Hwf] Gk Ge Enew Hsk Hn Hk He HX.
  assert (entry_of s' new t k e) as Hnew by (by exists sk, n).
  assert (take 8 (arr new) = to_be_bytes sk) as Htake by (by eapply take8_entry).
  split; [split|].
  - intros c c' [->|[Hc Hcs]]%HX [->|[Hc' Hcs']]%HX Et.
    + done.
    + destruct Hcs'. by rewrite <- Et.
    + destruct Hcs. by rewrite Et.
    + by apply Hone.
  - intros c [->|[Hc _]]%HX; [by exists t, k, e|]. destruct (Hwf c Hc) as (t1 & k1 & e1 & H1).
    exists t1, k1, e1. exact (entry_of_mono _ _ _ _ _ _ Gk Ge H1).
  - intros t' k' e'. split.
    + intros (c & [->|[Hc Hcs]]%HX & Hent).
      * destruct (entry_of_inj _ _ _ _ _ _ _ _ I Hnew Hent) as (-> & -> & ->). by rewrite decide_True.
      * destruct (Hwf c Hc) as (t1 & k1 & e1 & H1).
        destruct (entry_of_inj s' c t1 k1 e1 t' k' e' I) as (-> & -> & ->); [exact (entry_of_mono _ _ _ _ _ _ Gk Ge H1)|done|].
        rewrite decide_False; [by exists c|]. intros [= -> ->]. apply Hcs. exact (take8_entry _ _ _ _ _ _ Hent Hk).
    + case_decide as E; [injection E as -> ->; intros ->; exists new; split; [apply HX; by left|done]|].
      intros (c & Hc & Hent). apply (entry_of_mono _ s') in Hent as Hent'; [|done..].
      exists c. split; [|done]. apply HX. right. split; [done|]. intros Et.
      destruct Hent' as (sk' & n' & Ec & ? & ? & Hk' & _). rewrite Ec, take_app_length' in Et by (by rewrite length_to_be_bytes).
      rewrite Et in Hk'. apply E.
      pose proof (numbering_inj _ _ _ _ _ _ (inv_statekeys s' I) Hk' Hk) as [-> ->]%statekey_bytes_inj. done.
Qed.

(** Saving the new state. *)
Lemma save_replaced s parents new old :
  ShortInv s → StateInv s → count_ok s → parents_ok s parents → keyed new →
  proper (full_of parents) {[new]} (from_option singleton ∅ old) →
  ∃ l s', (shortstatehash ← next_count;
           save_state_from_diff shortstatehash {[new]} (from_option singleton ∅ old) 2 parents ;;
           mret shortstatehash) s = (Ok (count s + 1), s') ∧
    ShortInv s' ∧ StateInv s' ∧ count s' = count s + 1 ∧ layers s' (count s + 1) l ∧
    full_of l = replace_entry (full_of parents) new old ∧ agree [global; shortstatehash_statediff] s s'.
Proof.
  intros I SI Hc Hpar Hk Hp. rewrite (bind_Ok _ _ _ _ _ (next_count_ok s Hc)).
  assert (db_map (bump s) shortstatehash_statediff = db_map s shortstatehash_statediff) as Ed by (by db_simpl).
  assert (db_map (bump s) shortstatehash_statediff !! to_be_bytes (count s + 1) = None) as Hf.
  { rewrite Ed. apply statediff_fresh; unfold u64, count_ok in *; [done..|lia|lia]. }
  destruct (save_state_from_diff_spec (bump s) (count s + 1) parents {[new]} (from_option singleton ∅ old) 2)
    as (s' & Hrun & d & l & -> & Hl & Hlen & Hfull); [|done|by apply set_Forall_singleton|done|].
  { destruct Hpar as [->|(h & ? & ? & Hl)]; [by left|right]. exists h. split_and!; try done.
    eapply layers_mono, Hl. by rewrite Ed. }
  assert (count (put_diff (count s + 1) d (bump s)) = count s + 1) as Hcount
    by (unfold put_diff; db_simpl; by apply count_bump_ok).
  exists l, (put_diff (count s + 1) d (bump s)). split_and!; try done.
  - by rewrite (bind_Ok _ _ _ _ _ Hrun).
  - apply short_inv_put_diff. by apply short_inv_bump.
  - apply (state_inv_extend s _ (count s + 1) l); try done.
    + rewrite Hcount. lia.
    + rewrite <- Ed. by apply put_diff_fresh.
    + intros k v. unfold put_diff. db_simpl. intros [[<- _]|[_ ?]]%lookup_insert_Some; auto.
    + lia.
    + by rewrite Hcount.
    + intros k b. unfold put_diff. db_simpl. by left.
  - intros t Ht. unfold put_diff. rewrite db_map_put_ne, db_map_bump_ne; [done|..]; intros ?; subst t; apply Ht; by_compute.
Qed.

(** The steps before the new state is computed: the event and its key are
    numbered, the state before the event is recorded, the parents are loaded. *)
Lemma append_prepare p k o parents s :
  ShortInv s → StateInv s → count s + 4 < 2 ^ 64 →
  get_room_shortstatehash (room_id p) s = (Ok o, s) → previous_state s o parents → state_key p = Some k →
  ∃ sk n new s1,
    append_to_state p s =
      (if bool_decide (Some new = find_replaced parents sk) then lift (expect o "must exist")
       else
         shortstatehash ← next_count;
         save_state_from_diff shortstatehash {[new]} (from_option singleton ∅ (find_replaced parents sk)) 2 parents ;;
         mret shortstatehash) s1 ∧
    ShortInv s1 ∧ StateInv s1 ∧ count s ≤ count s1 ∧ count s1 ≤ count s + 3 ∧
    1 ≤ sk ∧ u64 sk ∧ u64 n ∧ arr new = to_be_bytes sk ++ to_be_bytes n ∧
    db_map s statekey_shortstatekey ⊆ db_map s1 statekey_shortstatekey ∧
    db_map s eventid_shorteventid ⊆ db_map s1 eventid_shorteventid ∧
    db_map s1 statekey_shortstatekey !! statekey_bytes (kind p) k = Some (to_be_bytes sk) ∧
    db_map s1 eventid_shorteventid !! idb (event_id p) = Some (to_be_bytes n) ∧
    previous_state s1 o parents ∧
    db_map s1 roomid_shortstatehash = db_map s roomid_shortstatehash ∧
    (∀ q, o = Some q → db_map s1 shorteventid_shortstatehash !! to_be_bytes n = Some (to_be_bytes q)).
Proof.
  intros I SI Hc Ho Hprev Ek. unfold append_to_state. rewrite Ek.
  destruct (get_or_create_shorteventid_spec (event_id p) s I) as (n & s1 & E1 & I1 & G1 & C1 & N1 & N1' & D1);
    [unfold count_ok; lia|]. rewrite (bind_Ok _ _ _ _ _ E1).
  pose proof (gr_frame _ _ G1) as F1. pose proof (gr_count _ _ G1).
  rewrite (bind_Ok _ _ _ _ _ (get_room_shortstatehash_same (room_id p) o s s1 (fr_trees _ _ _ F1 roomid_shortstatehash ltac:(by_compute)) Ho)).
  set (m := match o with Some _ => _ | None => _ end : DB unit).
  set (s2 := match o with Some q => put shorteventid_shortstatehash (to_be_bytes n) (to_be_bytes q) s1 | None => s1 end).
  assert (m s1 = (Ok (), s2)) as Em by (unfold m, s2; by destruct o). rewrite (bind_Ok _ _ _ _ _ Em).
  assert (∀ t, t ≠ shorteventid_shortstatehash → db_map s2 t = db_map s1 t) as D2.
  { intros t Ht. unfold s2. destruct o; [by apply db_map_put_ne|done]. }
  assert (ShortInv s2) as I2 by (unfold s2; destruct o; [apply short_inv_put; [by_compute|done]|done]).
  assert (count s2 = count s1) as C2 by (apply count_frame, D2; discriminate).
  assert (StateInv s2) as SI2.
  { apply (state_inv_same s1); [by eapply state_inv_grows|by rewrite C2|unfold s2; by destruct o|].
    intros t Ht. apply D2. intros ->. revert Ht. by_compute. }
  assert (previous_state s2 o parents) as Hp2.
  { eapply previous_state_mono, Hprev; [lia|]. rewrite D2, (fr_trees _ _ _ F1) by by_compute. done. }
  destruct (load_previous s2 o parents (sti_cache _ SI2) Hp2) as (c & E3 & Hcache).
  rewrite (bind_Ok _ _ _ _ _ E3). set (s3 := set_stateinfo_cache c s2) in *.
  assert (ShortInv s3) as I3 by (by apply short_inv_info). assert (StateInv s3) as SI3 by (by apply state_inv_info).
  destruct (get_or_create_shortstatekey_spec (kind p) k s3 I3) as (sk & s4 & E4 & I4 & G4 & C4 & K4 & K4' & D4);
    [unfold count_ok, s3; db_simpl; lia|]. rewrite (bind_Ok _ _ _ _ _ E4).
  pose proof (gr_frame _ _ G4) as F4. pose proof (gr_count _ _ G4).
  assert (count s3 = count s1) as C3 by (unfold s3; by db_simpl).
  destruct (compress_run sk (event_id p) s4 I4) as (new & n' & s5 & E5 & Enew & I5 & G5 & C5 & N5 & N5' & D5);
    [unfold count_ok; lia|]. rewrite (bind_Ok _ _ _ _ _ E5).
  pose proof (gr_frame _ _ G5) as F5. pose proof (gr_count _ _ G5).
  assert (db_map s1 eventid_shorteventid ⊆ db_map s5 eventid_shorteventid) as Ge.
  { etrans; [|apply (gr_event _ _ G5)]. etrans; [|apply (gr_event _ _ G4)]. unfold s3. db_simpl. by rewrite D2. }
  assert (n' = n) as ->.
  { pose proof (lookup_weaken _ _ _ _ D1 Ge) as D1'. rewrite D5 in D1'. apply (inj Some), to_be_bytes_inj in D1';
      [done|unfold u64; lia..]. }
  assert (∀ t, t ∉ short_trees → db_map s5 t = db_map s2 t) as D5'.
  { intros t Ht. rewrite (fr_trees _ _ _ F5), (fr_trees _ _ _ F4) by done. unfold s3. by db_simpl. }
  exists sk, n, new, s5. split_and!.
  - done.
  - done.
  - eapply state_inv_grows, G5. by eapply state_inv_grows, G4.
  - lia.
  - lia.
  - done.
  - unfold u64. lia.
  - unfold u64. lia.
  - done.
  - etrans; [apply (gr_key _ _ G1)|]. etrans; [|apply (gr_key _ _ G5)]. etrans; [|apply (gr_key _ _ G4)].
    unfold s3. db_simpl. by rewrite D2.
  - etrans; [apply (gr_event _ _ G1)|done].
  - eapply lookup_weaken, (gr_key _ _ G5). done.
  - done.
  - eapply previous_state_mono, Hp2; [lia|]. by rewrite D5' by by_compute.
  - rewrite D5', D2, (fr_trees _ _ _ F1) by by_compute. done.
  - intros q ->. rewrite D5' by by_compute. unfold s2. db_simpl. apply lookup_insert_eq.
Qed.

Lemma append_to_state_run p k o parents s :
  ShortInv s → StateInv s → count s + 4 < 2 ^ 64 →
  get_room_shortstatehash (room_id p) s = (Ok o, s) → previous_state s o parents → state_wf s (full_of parents) →
  state_key p = Some k →
  ∃ h l s', append_to_state p s = (Ok h, s') ∧ ShortInv s' ∧ StateInv s' ∧ count s ≤ count s' ∧ count s' ≤ count s + 4 ∧
    1 ≤ h ∧ h ≤ count s' ∧ layers s' h l ∧ state_wf s' (full_of l) ∧
    (∀ t' k' e, state_has s' (full_of l) t' k' e ↔
       if decide ((t', k') = (kind p, k)) then e = event_id p else state_has s (full_of parents) t' k' e) ∧
    (∀ q, o = Some q → (pdu_shortstatehash (event_id p) s').1 = Ok (Some q)).
Proof.
  intros I SI Hc Ho Hprev Hwf Ek.
  destruct (append_prepare p k o parents s I SI Hc Ho Hprev Ek) as
    (sk & n & new & s1 & -> & I1 & SI1 & C1 & C1' & Hsk1 & Hsk & Hn & Enew & Gk & Ge & Dk & De & Hp1 & _ & Hev).
  assert (∀ s' q, agree [global; shortstatehash_statediff] s1 s' → o = Some q →
    (pdu_shortstatehash (event_id p) s').1 = Ok (Some q)) as Hpdu.
  { intros s' q Ha ->. destruct Hp1 as (_ & ? & _). unfold pdu_shortstatehash. db_step.
    rewrite (Ha eventid_shorteventid), De by by_compute. db_step.
    rewrite (Ha shorteventid_shortstatehash), (Hev q) by (done || by_compute). unfold parse_u64, lift.
    cbn [fmap option_fmap option_map fst]. by rewrite u64_from_be_u64 by (unfold u64; lia). }
  assert (take 8 (arr new) = to_be_bytes sk) as Htake
    by (by rewrite Enew, take_app_length' by (by rewrite length_to_be_bytes)).
  pose proof (find_replaced_spec parents sk (proj1 Hwf)) as Hrep.
  destruct (bool_decide (Some new = find_replaced parents sk)) eqn:Eb.
  - apply bool_decide_eq_true in Eb. rewrite <- Eb in Hrep. destruct Hrep as [Hin _].
    destruct o as [q|]; [|cbn in Hp1; subst parents; by apply elem_of_empty in Hin].
    pose proof Hp1 as (? & ? & Hl). exists q, parents, s1. cbn [expect].
    destruct (replace_state s s1 (full_of parents) (full_of parents) new sk n (kind p) k (event_id p)) as [W1 H1]; try done.
    { intros c. split; [|intros [->|[? _]]; done]. intros Hcin. destruct (decide (c = new)) as [->|Hne]; [by left|right].
      split; [done|]. intros Et. apply Hne, Hwf; [done..|]. by rewrite Htake. }
    split_and!; try done; [lia|]. intros q' E. by apply Hpdu.
  - apply bool_decide_eq_false in Eb.
    destruct (elem_of_replace _ _ _ _ (proj1 Hwf) Htake Eb Hrep) as [Hproper HX].
    destruct (save_replaced s1 parents new (find_replaced parents sk)) as (l & s' & -> & I' & SI' & C' & Hl & Hfull & Ha);
      try done.
    { unfold count_ok. lia. }
    { eapply previous_parents, Hp1. unfold count_ok. lia. }
    { unfold keyed. rewrite Enew. intros [x Hx].
      apply app_inj_1 in Hx as [Hx _]; [|by rewrite !length_to_be_bytes]. apply to_be_bytes_inj in Hx; [lia|done..]. }
    exists (count s1 + 1), l, s'. rewrite Hfull.
    destruct (replace_state s s' (full_of parents) (replace_entry (full_of parents) new (find_replaced parents sk))
      new sk n (kind p) k (event_id p)) as [W1 H1]; try done; try (rewrite Ha by by_compute; done).
    split_and!; try done; [lia..|]. intros q E. by apply Hpdu.
Qed.

Lemma room_state_get_id_run r o parents t k s :
  ShortInv s → StateInv s → count_ok s →
  get_room_shortstatehash r s = (Ok o, s) → previous_state s o parents → state_wf s (full_of parents) →
  ∃ x s', room_state_get_id r t k s = (Ok x, s') ∧ ∀ e, x = Some e ↔ state_has s (full_of parents) t k e.
Proof.
  intros I SI Hc Ho Hp Hwf. unfold room_state_get_id. rewrite (bind_Ok _ _ _ _ _ Ho). destruct o as [q|].
  - destruct Hp as (_ & _ & Hl). apply state_get_id_run; try done. apply SI.
  - cbn in Hp. subst parents. exists None, s. split; [done|]. intros e. split; [done|].
    by intros (c & ?%elem_of_empty & _).
Qed.

(** Storing a state that is given as a whole. *)
Lemma save_whole_state `{!Inj (=) (=) sha256} order o parents s :
  ShortInv s → StateInv s → count_ok s → Forall keyed order → previous_state s o parents →
  ∃ n ex s1 s' l, get_or_create_shortstatehash (calculate_hash sha256 (arr <$> order)) s = (Ok (n, ex), s1) ∧
    (if ex then mret ()
     else
       states_parents ← match o with None => mret [] | Some p => load_shortstatehash_info p end;
       let '(statediffnew, statediffremoved) :=
         match last states_parents with
         | Some i => (list_to_set order ∖ si_full i, si_full i ∖ list_to_set order)
         | None => (list_to_set order, ∅)
         end in
       save_state_from_diff n statediffnew statediffremoved 1000000 states_parents) s1 = (Ok (), s') ∧
    ShortInv s' ∧ StateInv s' ∧ 1 ≤ n ∧ n ≤ count s + 1 ∧ layers s' n l ∧ full_of l = list_to_set order ∧
    agree [global; statehash_shortstatehash; shortstatehash_statediff] s s'.
Proof.
  intros I SI Hc Hk Hprev. set (hash := calculate_hash sha256 (arr <$> order)).
  destruct (get_or_create_shortstatehash_spec hash s I Hc)
    as (n & ex & s1 & Hgc & I1 & Hc1 & Hn1 & Hn & Hh & Hex & Hex' & _).
  assert (n ≤ count s + 1) as Hn' by lia. destruct ex.
  - subst s1. destruct (hash_found s order n SI Hc Hn1 Hn Hh) as (l & Hl & Hf & _).
    exists n, true, s, s, l. split_and!; done.
  - destruct Hex as [-> ->]. set (s1 := put _ _ _ _) in *.
    destruct (load_previous s1 o parents) as (c & Hld & Hcache).
    { intros h l Hp. eapply layers_mono; [|by apply (sti_cache s SI)]. unfold s1. by db_simpl. }
    { eapply previous_state_mono, Hprev; [unfold s1; db_simpl; rewrite count_bump_ok by done; lia|unfold s1; by db_simpl]. }
    destruct (save_new_state s order c parents 1000000) as (s' & Hrun & I' & SI' & _ & (l & Hl & Hf & _) & _); try done.
    { apply eq_None_not_Some. intros ?%Hex'. done. }
    { by eapply previous_parents. }
    exists (count s + 1), false, s1, s', l.
    split_and!; [done| |done|done|done|done|done|done|].
    + by rewrite (bind_Ok _ _ _ _ _ Hld), save_state_diff.
    + intros t Ht. rewrite (preserves_inv _ _ _ _ _ (save_state_from_diff_keeps _ _ _ _ _) Hrun t)
        by (intros Hin; apply Ht; apply list_elem_of_singleton in Hin as ->; by_compute).
      unfold s1. db_simpl. rewrite db_map_put_ne, db_map_bump_ne; [done|..]; intros ?; subst t; apply Ht; by_compute.
Qed.

(** *** Auth events *)

(** Lookups move caches only, and keep them right. *)
Record looked s0 s : Prop := {
  lk_trees t : db_map s t = db_map s0 t;
  lk_short : ShortInv s;
  lk_pdus : pdu_cache_ok s;
  lk_info : info_cache_ok s;
}.

Lemma info_cache_same s s' :
  stateinfo_cache s' = stateinfo_cache s → db_map s' shortstatehash_statediff = db_map s shortstatehash_statediff →
  info_cache_ok s → info_cache_ok s'.
Proof. intros Ec Ed H h l. rewrite Ec. intros Hp%H. eapply layers_mono, Hp. by rewrite Ed. Qed.

Lemma looked_stored s0 s e : looked s0 s → stored_pdu s e = stored_pdu s0 e.
Proof. intros [E _ _ _]. unfold stored_pdu. by rewrite !E. Qed.

Lemma looked_get_pdu s0 s e :
  looked s0 s → ∃ x s', try_ok (get_pdu e) s = (Ok x, s') ∧ mjoin x = stored_pdu s0 e ∧ looked s0 s'.
Proof.
  intros L. destruct (get_pdu_run e s (lk_pdus _ _ L)) as (x & c & E & Hc & Hx).
  rewrite (looked_stored _ _ _ L) in Hx. unfold try_ok. rewrite E.
  assert (looked s0 (set_pdu_cache c s)) as L'.
  { destruct L as [Et [] _ Hi]. split; [done|by split|done|by apply (info_cache_same s)]. }
  destruct (stored_pdu s0 e) as [p|]; [subst x; by eexists _, _|].
  destruct Hx as [->|[err ->]]; by eexists _, _.
Qed.

Lemma auth_types_loop s0 types done_ m s :
  ShortInv s0 → count_ok s0 → looked s0 s →
  (∀ sk t, u64 sk → m !! sk = Some t ↔
     t ∈ done_ ∧ db_map s0 statekey_shortstatekey !! statekey_bytes t.1 t.2 = Some (to_be_bytes sk)) →
  ∃ m' s', for_fold types m short_auth_type s = (Ok m', s') ∧ looked s0 s' ∧
    ∀ sk t, u64 sk → m' !! sk = Some t ↔
      t ∈ done_ ++ types ∧ db_map s0 statekey_shortstatekey !! statekey_bytes t.1 t.2 = Some (to_be_bytes sk).
Proof.
  intros I0 Hc0. revert done_ m s. induction types as [|[t k] types IH]; intros done_ m s L Hm; cbn [for_fold].
  { exists m, s. split_and!; [done..|]. intros sk t. rewrite app_nil_r. apply Hm. }
  assert (count s = count s0) as Ec by (apply count_frame; apply L).
  destruct (get_shortstatekey_spec t k s (lk_short _ _ L)) as (c & E & I1); [unfold count_ok in *; by rewrite Ec|].
  rewrite (lk_trees _ _ L) in E. set (s1 := set_statekeyshort_cache c s) in *.
  assert (looked s0 s1) as L1 by (split; [apply L|done|apply L|by apply (info_cache_same s), L]).
  erewrite bind_Ok; [|unfold short_auth_type, try_ok, mbind, M_bind; cbn [fst snd]; rewrite E; done].
  set (m1 := match _ with Some short => _ | None => _ end).
  destruct (IH (done_ ++ [(t, k)]) m1 s1 L1) as (m' & s' & E' & L' & Hm').
  - intros sk t' Hsk. rewrite elem_of_app, list_elem_of_singleton. unfold m1. cbn [mjoin option_join].
    destruct (db_map s0 statekey_shortstatekey !! statekey_bytes t k) as [b|] eqn:Eb; cbn [mbind option_bind].
    + destruct (num_range _ _ _ (inv_statekeys s0 I0) _ _ Eb) as (n & -> & ? & ?).
      rewrite u64_from_be_u64 by (unfold u64, count_ok in *; lia). rewrite lookup_insert. case_decide as Hn.
      * subst n. split; [intros [= <-]; by split; [right|]|]. intros [_ Ht'].
        pose proof (numbering_inj _ _ _ _ _ _ (inv_statekeys s0 I0) Ht' Eb) as [E1 E2]%statekey_bytes_inj.
        destruct t'. cbn in *. by subst.
      * rewrite Hm by done. split; [tauto|]. intros [[?| ->] Ht']; [done|]. cbn in Ht'. rewrite Eb in Ht'.
        apply (inj Some), to_be_bytes_inj in Ht'; [done|unfold u64, count_ok in *; lia|done].
    + rewrite Hm by done. split; [tauto|]. intros [[?| ->] Ht']; [done|]. cbn in Ht'. congruence.
  - exists m', s'. split_and!; [done..|]. intros sk t'. rewrite <- (assoc_L (++)) in Hm'. apply Hm'.
Qed.

Lemma auth_entries_loop s0 (types : list (rstr * rstr)) (m : gmap N (rstr * rstr)) (l dl : list CompressedStateEvent) (sa : gmap N (rstr * rstr)) (ev : gmap (rstr * rstr) PduEvent) s :
  ShortInv s0 → state_wf s0 (list_to_set (dl ++ l)) → NoDup (dl ++ l) → looked s0 s →
  (∀ sk t, u64 sk → m !! sk = Some t ↔
     t ∈ types ∧ db_map s0 statekey_shortstatekey !! statekey_bytes t.1 t.2 = Some (to_be_bytes sk)) →
  (∀ c sk, c ∈ l → take 8 (arr c) = to_be_bytes sk → u64 sk → sa !! sk = m !! sk) →
  (∀ t p, ev !! t = Some p ↔ t ∈ types ∧ ∃ c e, c ∈ dl ∧ entry_of s0 c t.1 t.2 e ∧ stored_pdu s0 e = Some p) →
  ∃ r s', for_fold l (sa, ev) auth_entry s = (Ok r, s') ∧
    ∀ t p, r.2 !! t = Some p ↔ t ∈ types ∧ ∃ c e, c ∈ dl ++ l ∧ entry_of s0 c t.1 t.2 e ∧ stored_pdu s0 e = Some p.
Proof.
  intros I0. revert dl sa ev s. induction l as [|c l IH]; intros dl sa ev s Hwf Hnd L Hm Hsa Hev; cbn [for_fold].
  { exists (sa, ev), s. split; [done|]. intros t p. rewrite app_nil_r. apply Hev. }
  pose proof Hwf as [Hone Hent]. destruct (Hent c) as (t & k & e & Hc); [set_solver|].
  pose proof Hc as (sk & n & Ec & Hsk & Hn & Hk & He).
  assert (take 8 (arr c) = to_be_bytes sk) as Htake by (by eapply take8_entry).
  destruct (parse_compressed_run c sk n e s (lk_short _ _ L) Hsk Hn Ec) as (x & Ep & I1).
  { rewrite (lk_trees _ _ L). by apply (num_inverse _ _ _ (inv_events s0 I0)). }
  set (s1 := set_shorteventid_cache x s) in *. assert (looked s0 s1) as L1 by (split; [apply L|done|apply L|by apply (info_cache_same s), L]).
  assert (∀ c' sk', c' ∈ l → take 8 (arr c') = to_be_bytes sk' → sk' ≠ sk) as Hother.
  { intros c' sk' Hc' Ht ->. apply NoDup_app in Hnd as (_ & _ & Hnd). apply NoDup_cons in Hnd as [Hnin _].
    apply Hnin. assert (c = c') as -> by (apply Hone; [set_solver..|by rewrite Htake]). done. }
  assert (dl ++ c :: l = (dl ++ [c]) ++ l) as Eapp by (by rewrite <- (assoc_L (++))).
  rewrite Eapp in Hwf, Hnd |- *.
  assert (∀ sa' ev' s', looked s0 s' → auth_entry (sa, ev) c s = (Ok (sa', ev'), s') →
    (∀ sk', sk' ≠ sk → sa' !! sk' = sa !! sk') →
    (∀ t' p, ev' !! t' = Some p ↔ ev !! t' = Some p ∨ t' = (t, k) ∧ t' ∈ types ∧ stored_pdu s0 e = Some p) →
    ∃ r s'', for_fold (c :: l) (sa, ev) auth_entry s = (Ok r, s'') ∧
      ∀ t p, r.2 !! t = Some p ↔ t ∈ types ∧ ∃ c' e, c' ∈ (dl ++ [c]) ++ l ∧ entry_of s0 c' t.1 t.2 e ∧ stored_pdu s0 e = Some p)
    as Hstep.
  { intros sa' ev' s' L' E' Hsa' Hev'. cbn [for_fold]. rewrite (bind_Ok _ _ _ _ _ E').
    apply IH; [done..| |].
    - intros c' sk' Hc' Ht Hu. rewrite Hsa' by (by eapply Hother). apply (Hsa c'); [by right|done..].
    - intros t' p. rewrite Hev', Hev. split.
      + intros [(? & c' & e' & ? & ?)|(-> & ? & ?)]; (split; [done|]).
        * exists c', e'. split; [apply elem_of_app; by left|done].
        * exists c, e. split; [apply elem_of_app; right; by left|done].
      + intros (? & c' & e' & [?| ->%list_elem_of_singleton]%elem_of_app & Hent' & Hst); [left; split; [done|]; by exists c', e'|right].
        destruct t' as [t' k']. destruct (entry_of_inj _ _ _ _ _ _ _ _ I0 Hc Hent') as (-> & -> & ->). done. }
  change (for_fold (c :: l) (sa, ev) auth_entry s) with
    ((acc ← auth_entry (sa, ev) c; for_fold l acc auth_entry) s) in Hstep.
  assert (sa !! sk = m !! sk) as Esa by (apply (Hsa c); [by left|done..]).
  destruct (m !! sk) as [t1|] eqn:Em.
  - apply (Hm sk t1 Hsk) in Em as [Hin Hk1].
    pose proof (numbering_inj _ _ _ _ _ _ (inv_statekeys s0 I0) Hk1 Hk) as [E1 E2]%statekey_bytes_inj.
    destruct t1 as [t1 k1]. cbn in E1, E2. subst t1 k1.
    destruct (looked_get_pdu s0 s1 e L1) as (o & s2 & Eg & Ej & L2).
    apply (Hstep (delete sk sa) (match mjoin o with Some pdu => <[(t, k) := pdu]> ev | None => ev end) s2 L2).
    + unfold auth_entry. erewrite bind_Ok by (unfold try_ok; rewrite Ep; done). cbn [fst]. rewrite Esa.
      by rewrite (bind_Ok _ _ _ _ _ Eg).
    + intros sk' Hne. by rewrite lookup_delete_ne.
    + intros t' p. rewrite Ej. destruct (stored_pdu s0 e) as [p0|] eqn:Ep0; [|naive_solver].
      rewrite lookup_insert. case_decide as Et'.
      * subst t'. split; [intros [= <-]; by right|]. intros [Hold|(_ & _ & ?)]; [exfalso|done].
        apply Hev in Hold as (_ & c' & e' & Hc' & Hent' & _).
        assert (c' = c) as ->.
        { apply Hone; [set_solver..|]. rewrite Htake. by eapply take8_entry. }
        apply NoDup_app in Hnd as (Hnd & _). apply NoDup_app in Hnd as (_ & Hd & _). by apply (Hd c Hc'), list_elem_of_singleton.
      * split; [by left|]. intros [?|(-> & _)]; done.
  - apply (Hstep sa ev s1 L1).
    + unfold auth_entry. erewrite bind_Ok by (unfold try_ok; rewrite Ep; done). cbn [fst]. by rewrite Esa.
    + done.
    + intros t' p. split; [by left|]. intros [?|(-> & Hin & _)]; [done|]. exfalso.
      assert (m !! sk = Some (t, k)) as ? by (apply Hm; done). congruence.
Qed.

Lemma get_auth_events_run r k u sk content types h parents s :
  ShortInv s → StateInv s → count_ok s → pdu_cache_ok s →
  get_room_shortstatehash r s = (Ok (Some h), s) → previous_state s (Some h) parents → state_wf s (full_of parents) →
  auth_types_for_event k u sk content = Some types →
  ∃ m s', get_auth_events r k u sk content s = (Ok m, s') ∧
    ∀ t k' p, m !! (t, k') = Some p ↔
      (t, k') ∈ types ∧ ∃ e, state_has s (full_of parents) t k' e ∧ stored_pdu s e = Some p.
Proof.
  intros I SI Hc Hpc Ho (_ & _ & Hl) Hwf Hty. unfold get_auth_events. rewrite (bind_Ok _ _ _ _ _ Ho), Hty. cbn [expect]. db_step.
  destruct (auth_types_loop s types [] ∅ s) as (m & s1 & E1 & L1 & Hm); [done|done|split; [done..|apply SI]| |].
  { intros sk' t Hsk'. rewrite lookup_empty. split; [done|]. by intros [?%not_elem_of_nil _]. }
  rewrite (bind_Ok _ _ _ _ _ E1).
  destruct (full_state_run h parents s1) as (c & E2 & Hc2).
  { eapply layers_mono, Hl. by rewrite (lk_trees _ _ L1). }
  { apply L1. }
  rewrite (bind_Ok _ _ _ _ _ E2). set (s2 := set_stateinfo_cache c s1).
  assert (looked s s2) as L2 by (split; [apply L1|apply short_inv_info, L1|apply L1|done]).
  destruct (auth_entries_loop s types m (elements (full_of parents)) [] m ∅ s2) as (x & s3 & E3 & Hx); try done.
  { rewrite app_nil_l. by rewrite list_to_set_elements_L. }
  { apply NoDup_elements. }
  { intros t p. rewrite lookup_empty. split; [done|]. intros (_ & c' & e & ?%not_elem_of_nil & _). done. }
  rewrite (bind_Ok _ _ _ _ _ E3). eexists _, _. split; [done|]. intros t k' p. rewrite Hx. split.
  - intros (Ht & c' & e & Hin & Hent & Hst). split; [done|]. exists e. split; [|done].
    exists c'. split; [by apply elem_of_elements|done].
  - intros (Ht & e & (c' & Hin & Hent) & Hst). split; [done|]. exists c', e.
    split_and!; [by apply elem_of_elements|done..].
Qed.

(** *** Events without a state key *)

Lemma append_to_state_keeps p :
  keeps [global; eventid_shorteventid; shorteventid_eventid; statekey_shortstatekey; shortstatekey_statekey;
         shorteventid_shortstatehash; shortstatehash_statediff] (append_to_state p).
Proof. unfold append_to_state, compress_state_event. keeps_tac. Qed.

Lemma append_to_state_other_run p q s :
  ShortInv s → count_ok s → get_room_shortstatehash (room_id p) s = (Ok (Some q), s) → state_key p = None →
  ∃ s', append_to_state p s = (Ok q, s') ∧ ShortInv s' ∧ count s' ≤ count s + 1 ∧
    db_map s eventid_shorteventid ⊆ db_map s' eventid_shorteventid ∧
    agree [global; eventid_shorteventid; shorteventid_eventid; shorteventid_shortstatehash] s s'.
Proof.
  intros I Hc Ho Ek. unfold append_to_state. rewrite Ek.
  destruct (get_or_create_shorteventid_spec (event_id p) s I Hc) as (n & s1 & E1 & I1 & G1 & C1 & _).
  pose proof (preserves_inv _ _ _ _ _ (get_or_create_shorteventid_keeps _) E1) as A1.
  rewrite (bind_Ok _ _ _ _ _ E1).
  rewrite (bind_Ok _ _ _ _ _ (get_room_shortstatehash_same (room_id p) _ s s1 (A1 roomid_shortstatehash ltac:(by_compute)) Ho)).
  eexists. split; [done|]. split_and!.
  - by apply short_inv_put; [by_compute|].
  - by rewrite count_put.
  - rewrite db_map_put_ne by discriminate. apply G1.
  - etrans; [eapply agree_mono; [|exact A1]; by_compute|]. apply agree_put. by_compute.
Qed.

(** What an event makes of a state. *)
Definition state_after (p : PduEvent) (old : StateEventType → rstr → EventId → Prop) (t : StateEventType) (k : rstr)
    (e : EventId) : Prop :=
  match state_key p with
  | Some sk => if decide ((t, k) = (kind p, sk)) then e = event_id p else old t k e
  | None => old t k e
  end.

Lemma append_to_state_any p o parents s h s' :
  ShortInv s → StateInv s → count s + 4 < 2 ^ 64 →
  get_room_shortstatehash (room_id p) s = (Ok o, s) → previous_state s o parents → state_wf s (full_of parents) →
  append_to_state p s = (Ok h, s') →
  ∃ l, count s' ≤ count s + 4 ∧ u64 h ∧ layers s' h l ∧ state_wf s' (full_of l) ∧
    ∀ t k e, state_has s' (full_of l) t k e ↔ state_after p (state_has s (full_of parents)) t k e.
Proof.
  intros I SI Hc Ho Hp Hwf E. unfold state_after. destruct (state_key p) as [sk|] eqn:Ek.
  - destruct (append_to_state_run p sk o parents s I SI Hc Ho Hp Hwf Ek)
      as (h' & l & s'' & E' & _ & _ & _ & C & _ & Hh & Hl & Hwf' & Hhas & _).
    rewrite E in E'. injection E' as <- <-. exists l. split_and!; [done|unfold u64; lia|done..].
  - destruct o as [q|].
    + destruct (append_to_state_other_run p q s) as (s'' & E' & I' & C & Sub & A); [done|unfold count_ok; lia|done..|].
      rewrite E in E'. injection E' as -> ->. destruct Hp as (_ & Hq & Hl).
      assert (db_map s statekey_shortstatekey ⊆ db_map s'' statekey_shortstatekey) as Sub' by (rewrite A by by_compute; done).
      exists parents. split_and!; [lia|unfold u64; lia| | |].
      * eapply layers_mono, Hl. rewrite A by by_compute. done.
      * by eapply state_wf_grow.
      * intros. by apply state_has_grow.
    + exfalso. unfold append_to_state in E. rewrite Ek in E.
      destruct (get_or_create_shorteventid_spec (event_id p) s I) as (n & s1 & E1 & _ & G1 & _); [unfold count_ok; lia|].
      rewrite (bind_Ok _ _ _ _ _ E1) in E.
      rewrite (bind_Ok _ _ _ _ _ (get_room_shortstatehash_same (room_id p) _ s s1
        (fr_trees _ _ _ (gr_frame _ _ G1) roomid_shortstatehash ltac:(by_compute)) Ho)) in E. done.
Qed.

Lemma set_event_state_run `{!Inj (=) (=) sha256} e r order s :
  ShortInv s → StateInv s → count s + 2 < 2 ^ 64 → Forall keyed order →
  ∃ h l s', set_event_state e r order s = (Ok h, s') ∧ ShortInv s' ∧ StateInv s' ∧
    (pdu_shortstatehash e s').1 = Ok (Some h) ∧ layers s' h l ∧ full_of l = list_to_set order.
Proof.
  intros I SI Hc Hk. unfold set_event_state.
  destruct (get_or_create_shorteventid_spec e s I) as (n & s1 & E1 & I1 & G1 & C1 & N1 & N1' & D1);
    [unfold count_ok; lia|]. rewrite (bind_Ok _ _ _ _ _ E1).
  assert (StateInv s1) as SI1 by (by eapply state_inv_grows).
  assert (count_ok s1) as Hc1 by (unfold count_ok; lia).
  destruct (room_state_previous r s1 SI1 Hc1) as (o & parents & Ho & Hp). rewrite (bind_Ok _ _ _ _ _ Ho).
  destruct (save_whole_state order o parents s1 I1 SI1 Hc1 Hk Hp)
    as (h & ex & s2 & s3 & l & E2 & E3 & I3 & SI3 & Hh1 & Hh2 & Hl & Hf & Ha).
  rewrite (bind_Ok _ _ _ _ _ E2), (bind_Ok _ _ _ _ _ E3). unfold RoomState.set_event_state. db_step.
  set (s4 := put _ _ _ s3).
  assert (StateInv s4) as SI4.
  { apply (state_inv_same s3); [done|unfold s4; by db_simpl|done|]. intros t Ht. apply db_map_put_ne. intros <-.
    revert Ht. by_compute. }
  assert (layers s4 h l) as Hl4 by (eapply layers_mono, Hl; unfold s4; by db_simpl).
  exists h, l, s4. split_and!; try done.
  - apply short_inv_put; [by_compute|done].
  - unfold pdu_shortstatehash. db_step. unfold s4. db_simpl. rewrite (Ha eventid_shorteventid), D1 by by_compute.
    db_step. db_simpl. rewrite lookup_insert_eq. unfold parse_u64, lift. cbn [fmap option_fmap option_map fst].
    by rewrite u64_from_be_u64 by (unfold u64, count_ok in *; lia).
Qed.

Lemma service_set_event_state_keeps e r order :
  keeps [global; eventid_shorteventid; shorteventid_eventid; statehash_shortstatehash; shortstatehash_statediff;
         shorteventid_shortstatehash] (set_event_state e r order).
Proof. unfold set_event_state. keeps_tac. Qed.

(** ** Theorems *)

(** The auth events of an event are exactly those the current state of the room
    has for its auth types: nothing of another type, nothing that is not
    current, and none that is stored is left out. *)
Theorem get_auth_events_correct r k u sk content types h parents s :
  ShortInv s → StateInv s → count_ok s → pdu_cache_ok s →
  get_room_shortstatehash r s = (Ok (Some h), s) → previous_state s (Some h) parents → state_wf s (full_of parents) →
  auth_types_for_event k u sk content = Some types →
  ∃ m s', get_auth_events r k u sk content s = (Ok m, s') ∧
    ∀ t k' p, m !! (t, k') = Some p ↔
      (t, k') ∈ types ∧ ∃ e, state_has s (full_of parents) t k' e ∧ stored_pdu s e = Some p.
Proof. apply get_auth_events_run. Qed.

(** A state event becomes the entry of its state key: the state that
    [append_to_state] returns answers the event for its own key and, for every
    other key, what the current state of the room answers; the state recorded
    with the event is the one before it.  The numberings and the stored states
    stay consistent, and the new state is again a function of its keys, so the
    next event can be appended to it. *)
Theorem append_to_state_correct p k o parents s :
  ShortInv s → StateInv s → count s + 5 < 2 ^ 64 →
  get_room_shortstatehash (room_id p) s = (Ok o, s) → previous_state s o parents → state_wf s (full_of parents) →
  state_key p = Some k →
  ∃ h l s', append_to_state p s = (Ok h, s') ∧ ShortInv s' ∧ StateInv s' ∧
    layers s' h l ∧ state_wf s' (full_of l) ∧
    (∀ t' k', (state_get_id h t' k' s').1 =
       if decide ((t', k') = (kind p, k)) then Ok (Some (event_id p))
       else (room_state_get_id (room_id p) t' k' s).1) ∧
    (∀ q, o = Some q → (pdu_shortstatehash (event_id p) s').1 = Ok (Some q)).
Proof.
  intros I SI Hc Ho Hprev Hwf Ek.
  destruct (append_to_state_run p k o parents s I SI)
    as (h & l & s' & E & I' & SI' & C1 & C2 & _ & _ & Hl & Hwf' & Hhas & Hpdu); [lia|done..|].
  exists h, l, s'. split_and!; try done. intros t' k'.
  destruct (state_get_id_run h l t' k' s') as (x & s2 & -> & Hx); [done|apply SI'|unfold count_ok; lia|done|done|].
  destruct (room_state_get_id_run (room_id p) o parents t' k' s) as (y & s3 & -> & Hy); [done|done|unfold count_ok; lia|done|done|done|].
  cbn [fst]. specialize (Hhas t' k'). case_decide.
  - f_equal. apply Hx. by apply Hhas.
  - f_equal. apply option_eq. intros e. by rewrite Hx, Hhas, Hy.
Qed.

(** The state that comes with an incoming event is stored whole and recorded
    with the event: it is loaded again as the given set.  Assumes that the hash
    function does not collide. *)
Theorem set_event_state_correct `{!Inj (=) (=) sha256} e r order s :
  ShortInv s → StateInv s → count s + 2 < 2 ^ 64 → Forall keyed order →
  ∃ h l s' s'', set_event_state e r order s = (Ok h, s') ∧ ShortInv s' ∧ StateInv s' ∧
    (pdu_shortstatehash e s').1 = Ok (Some h) ∧
    load_shortstatehash_info h s' = (Ok l, s'') ∧ full_of l = list_to_set order.
Proof.
  intros I SI Hc Hk. destruct (set_event_state_run e r order s I SI Hc Hk) as (h & l & s' & E & I' & SI' & Hp & Hl & Hf).
  destruct (load_shortstatehash_info_spec s' h l Hl (sti_cache s' SI')) as (c & Hld & _).
  by eexists h, l, s', _.
Qed.

(** An event that is no state event leaves the state of the room alone; without
    any state the code panics. *)
Theorem append_to_state_other p o s :
  ShortInv s → count_ok s → get_room_shortstatehash (room_id p) s = (Ok o, s) → state_key p = None →
  (append_to_state p s).1 =
    match o with Some q => Ok q | None => Panic "first event in room must be a state event" end.
Proof.
  intros I Hc Ho Ek. unfold append_to_state. rewrite Ek.
  destruct (get_or_create_shorteventid_spec (event_id p) s I Hc) as (n & s1 & E1 & _ & G1 & _).
  rewrite (bind_Ok _ _ _ _ _ E1).
  rewrite (bind_Ok _ _ _ _ _ (get_room_shortstatehash_same (room_id p) o s s1
    (fr_trees _ _ _ (gr_frame _ _ G1) roomid_shortstatehash ltac:(by_compute)) Ho)).
  by destruct o.
Qed.
End state_service.
