(* ===== verification/LazyLoading.v ===== *)
(** * The lazy loading service ([src/service/rooms/lazy_loading/mod.rs])

    Members that a sync response carried wait under the token of the response;
    the next request of the device confirms the token, and only then are they
    recorded as sent. *)

From S2P Require Import Prelude Bytes RStr Error Utils KvTree Env Db Keys Globals RoomIndex.

Section lazy_loading.
Context {Ev : Env}.

(** [lazy_load_waiting] beside the database. *)
Record LazyState := MkLazy {
  ll_db : State;
  lazy_load_waiting : gmap (UserId * DeviceId * RoomId * N) (gset UserId)
}.
Abbreviation LM := (M LazyState).

Definition in_db {A} (m : DB A) : LM A := λ s,
  let '(r, d) := m (ll_db s) in (r, MkLazy d (lazy_load_waiting s)).
Definition set_waiting (f : gmap (UserId * DeviceId * RoomId * N) (gset UserId) →
    gmap (UserId * DeviceId * RoomId * N) (gset UserId)) : LM unit :=
  modify (λ s, MkLazy (ll_db s) (f (lazy_load_waiting s))).

Definition lazy_load_was_sent_before (u : UserId) (d : DeviceId) (r : RoomId) (ll_user : UserId) : LM bool :=
  in_db (RoomIndex.lazy_load_was_sent_before u d r ll_user).

Definition lazy_load_mark_sent (user_id : UserId) (device_id : DeviceId) (room_id : RoomId)
    (lazy_load : gset UserId) (count : N) : LM unit :=
  set_waiting (<[(user_id, device_id, room_id, count) := lazy_load]>).

Definition lazy_load_confirm_delivery (user_id : UserId) (device_id : DeviceId) (room_id : RoomId) (since : N) : LM unit :=
  w ← gets lazy_load_waiting;
  match w !! (user_id, device_id, room_id, since) with
  | Some user_ids =>
      set_waiting (delete (user_id, device_id, room_id, since)) ;;
      in_db (RoomIndex.lazy_load_confirm_delivery user_id device_id room_id (elements user_ids))
  | None => mret ()
  end.

Definition lazy_load_reset (user_id : UserId) (device_id : DeviceId) (room_id : RoomId) : LM unit :=
  in_db (RoomIndex.lazy_load_reset user_id device_id room_id).

(** ** The protocol *)

Inductive lazy_op :=
  | LazySent (u : UserId) (d : DeviceId) (r : RoomId) (xs : gset UserId) (count : N)
  | LazyConfirm (u : UserId) (d : DeviceId) (r : RoomId) (since : N)
  | LazyReset (u : UserId) (d : DeviceId) (r : RoomId).

Definition run_lazy (o : lazy_op) : LM unit :=
  match o with
  | LazySent u d r xs c => lazy_load_mark_sent u d r xs c
  | LazyConfirm u d r c => lazy_load_confirm_delivery u d r c
  | LazyReset u d r => lazy_load_reset u d r
  end.

(** The specification of one device in one room, as a list of operations, the
    latest first: the members of a response that is not confirmed yet, and the
    members known to the device. *)
Definition about (u : UserId) (d : DeviceId) (r : RoomId) (o : lazy_op) : bool :=
  match o with
  | LazySent u' d' r' _ _ | LazyConfirm u' d' r' _ | LazyReset u' d' r' => bool_decide ((u', d', r') = (u, d, r))
  end.

Fixpoint response_of (c : N) (history : list lazy_op) : option (gset UserId) :=
  match history with
  | [] => None
  | LazySent _ _ _ xs c' :: h => if decide (c' = c) then Some xs else response_of c h
  | LazyConfirm _ _ _ c' :: h => if decide (c' = c) then None else response_of c h
  | LazyReset _ _ _ :: h => response_of c h
  end.

Fixpoint known (history : list lazy_op) : gset UserId :=
  match history with
  | [] => ∅
  | LazySent _ _ _ _ _ :: h => known h
  | LazyConfirm _ _ _ c :: h => default ∅ (response_of c h) ∪ known h
  | LazyReset _ _ _ :: _ => ∅
  end.

Definition history_of (u : UserId) (d : DeviceId) (r : RoomId) (h : list lazy_op) : list lazy_op :=
  filter (λ o, about u d r o = true) h.

(** What the state has to do with the operations so far. *)
Definition lazy_ok (h : list lazy_op) (s : LazyState) : Prop :=
  (∀ u d r c, lazy_load_waiting s !! (u, d, r, c) = response_of c (history_of u d r h)) ∧
  (∀ u d r x, was_sent (ll_db s) u d r x ↔ x ∈ known (history_of u d r h)).

Lemma history_cons u d r o h :
  history_of u d r (o :: h) = if about u d r o then o :: history_of u d r h else history_of u d r h.
Proof. unfold history_of. rewrite filter_cons. destruct (about u d r o); by case_decide. Qed.

Lemma lazy_step o h s : lazy_ok h s → ∃ s', run_lazy o s = (Ok (), s') ∧ lazy_ok (o :: h) s'.
Proof.
  intros [Hw Hs]. destruct o as [u d r xs c|u d r c|u d r]; cbn [run_lazy].
  - eexists. split; [done|]. split; intros u' d' r' ?; rewrite history_cons; cbn [about].
    + cbn. rewrite lookup_insert. case_bool_decide as E; [injection E as -> -> ->|].
      * cbn. rewrite <- Hw. repeat case_decide; congruence.
      * rewrite decide_False by congruence. apply Hw.
    + case_bool_decide; apply Hs.
  - unfold lazy_load_confirm_delivery. db_step. rewrite Hw.
    destruct (response_of c (history_of u d r h)) as [xs|] eqn:Er.
    + unfold set_waiting. db_step. unfold in_db. cbn [ll_db].
      destruct (confirm_run u d r (elements xs) (ll_db s)) as (s' & -> & Hs'). eexists. split; [done|].
      split; intros u' d' r' x; rewrite history_cons; cbn [about ll_db lazy_load_waiting].
      * rewrite lookup_delete. case_bool_decide as E; [injection E as -> -> ->|].
        -- cbn. rewrite <- Hw. repeat case_decide; congruence.
        -- rewrite decide_False by congruence. apply Hw.
      * rewrite Hs', Hs, elem_of_elements. case_bool_decide as E; [injection E as -> -> ->|].
        -- cbn. rewrite Er. cbn. rewrite elem_of_union. naive_solver.
        -- naive_solver.
    + eexists. split; [done|]. split; intros u' d' r' x; rewrite history_cons; cbn [about];
        (case_bool_decide as E; [injection E as -> -> ->; cbn|apply Hw || apply Hs]).
      * rewrite Hw. case_decide; [by subst|done].
      * rewrite Hs, Er. cbn. by rewrite (left_id_L ∅ (∪)).
  - unfold lazy_load_reset, in_db. destruct (reset_run u d r (ll_db s)) as (s' & -> & Hs'). eexists. split; [done|].
    split; intros u' d' r' x; rewrite history_cons; cbn [about ll_db lazy_load_waiting].
    + rewrite Hw. by case_bool_decide.
    + rewrite Hs', Hs. case_bool_decide as E; [|naive_solver]. cbn. split; [naive_solver|by intros ?%elem_of_empty].
Qed.

(** A device is taken to know a member exactly when, since the last reset of the
    room, it confirmed a response that carried the member: the latest one sent
    under the confirmed token and not confirmed before. *)
Theorem lazy_loading_refinement ops s :
  lazy_load_waiting s = ∅ → (∀ u d r x, ¬ was_sent (ll_db s) u d r x) →
  ∃ s', for_each ops run_lazy s = (Ok (), s') ∧
    ∀ u d r x, (lazy_load_was_sent_before u d r x s').1 = Ok (bool_decide (x ∈ known (history_of u d r (reverse ops)))).
Proof.
  intros Hw Hs.
  assert (∀ h, lazy_ok h s → ∃ s', for_each ops run_lazy s = (Ok (), s') ∧ lazy_ok (reverse ops ++ h) s') as H.
  { clear Hw Hs. revert s. induction ops as [|o ops IH]; intros s h H; [by exists s|]. cbn [for_each].
    destruct (lazy_step o h s H) as (s1 & E1 & H1). rewrite (bind_Ok _ _ _ _ _ E1).
    destruct (IH s1 (o :: h) H1) as (s' & E' & H'). exists s'. split; [done|].
    by rewrite reverse_cons, <- (assoc_L (++)). }
  destruct (H []) as (s' & E & [_ H']).
  { split; intros *; [by rewrite Hw, lookup_empty|]. cbn. split; [by intros ?%Hs|by intros ?%elem_of_empty]. }
  exists s'. split; [done|]. intros u d r x. unfold lazy_load_was_sent_before, in_db. rewrite was_sent_query. cbn.
  f_equal. apply bool_decide_ext. rewrite H', app_nil_r. done.
Qed.
End lazy_loading.
