(* ===== verification/Lookups.v ===== *)
(** * Lookups

    The operations that read the state of a room move cached entries and nothing
    else.  [looks m]: a run of [m], whatever its outcome, changes no tree and
    keeps the invariants of the numberings, of the stored states and of the
    caches.  The hint database [looks] has one lemma per operation; [looks_tac]
    walks a program. *)

From S2P Require Import Prelude Bytes RStr Error Utils KvTree Env Db Keys Globals Frames Short RoomState StateCompressor Pdu Timeline StateAccessor EventFormat OpFrames StateService.

Section lookups.
Context {Ev : Env}.
Implicit Types s : State.

Record Good s : Prop := {
  good_count : count_ok s;
  good_short : ShortInv s;
  good_state : StateInv s;
  good_pdus : pdu_cache_ok s;
}.

(** The trees are the same and the invariants are kept. *)
Definition looked_up s s' : Prop := agree [] s s' ∧ (Good s → Good s').
#[export] Instance looked_up_preorder : PreOrder looked_up.
Proof.
  split; [by intros s; split|]. intros s1 s2 s3 [A1 G1] [A2 G2]. split; [by etrans|auto].
Qed.
Abbreviation looks := (preserves looked_up).

Lemma looks_keeps {A} (m : DB A) : looks m → keeps [] m.
Proof. intros H s. apply H. Qed.

(** A cache of the numberings or of the states moves. *)
Lemma good_cache s s' :
  Good s → (∀ t, db_map s' t = db_map s t) → ShortInv s' → info_cache_ok s' → pdu_cache s' = pdu_cache s → Good s'.
Proof.
  intros [Hc I [HL _ HR HH] Hp] E I' Hi Ep. assert (count s' = count s) as Ec by (by apply count_frame).
  assert (∀ h l, layers s h l → layers s' h l) as Hl by (intros h l; apply layers_mono; by rewrite E).
  split; [unfold count_ok in *; by rewrite Ec|done|split; [|done|..]|].
  - intros k v. rewrite E, Ec. intros (h & l & ? & ? & ? & ? & ?)%HL. exists h, l. auto 10.
  - intros k b. rewrite E, Ec. intros (n & l & ? & ? & ? & ?)%HR. exists n, l. auto 10.
  - intros k b. rewrite E, Ec. intros (n & l & o & ? & ? & ? & ? & ?)%HH. exists n, l, o. auto 10.
  - intros e p. unfold stored_pdu. rewrite !E, Ep. apply Hp.
Qed.

Lemma get_shortstatekey_looks t k : looks (get_shortstatekey t k).
Proof.
  intros s. split; [apply get_shortstatekey_keeps|]. intros G.
  destruct (get_shortstatekey_spec t k s (good_short _ G) (good_count _ G)) as (c & -> & I). cbn [snd].
  apply (good_cache s); [done|done|done| |done]. by apply (info_cache_same s), G.
Qed.

Lemma get_eventid_from_short_looks n : looks (get_eventid_from_short n).
Proof.
  intros s. split; [apply get_eventid_from_short_keeps|]. intros G. pose proof (good_short _ G) as I.
  assert (∃ c, (get_eventid_from_short n s).2 = set_shorteventid_cache c s ∧ ShortInv (set_shorteventid_cache c s))
    as (c & -> & I').
  { destruct (db_map s shorteventid_eventid !! to_be_bytes n) as [b|] eqn:Eb.
    - pose proof (proj2 (num_inverse _ _ _ (inv_events s I) _ _) Eb) as Ef.
      destruct (inv_event_names s I _ _ Ef) as [e ->].
      destruct (get_eventid_from_short_spec n e s I Eb) as (c & -> & I'). by exists c.
    - exists (lru_get_mut n (shorteventid_cache s)).2. split.
      + unfold get_eventid_from_short. erewrite bind_Ok by apply cache_get_run.
        destruct (lru_peek (shorteventid_cache s) n) as [e'|] eqn:Epk; [apply (inv_shorteventid s I) in Epk; congruence|].
        db_step. db_simpl. by rewrite Eb.
      + destruct I. split; db_simpl; try done. intros n' e. cbn. rewrite lru_peek_get. auto. }
  apply (good_cache s); [done..| |done]. by apply (info_cache_same s), G.
Qed.

Lemma layers_key s h h' l : layers s h l → to_be_bytes h = to_be_bytes h' → ∃ l', layers s h' l'.
Proof.
  intros Hl E. destruct Hl as [h A [v Hv] Hk|h p l i A R [v Hv] Hl Hp Hk]; rewrite E in Hv; eexists.
  - apply layers_root; [by exists v|done].
  - eapply layers_push; [by exists v|done..].
Qed.

Lemma load_shortstatehash_info_looks h : looks (load_shortstatehash_info h).
Proof.
  intros s. split; [apply load_shortstatehash_info_keeps|]. intros G. pose proof (good_state _ G) as SI.
  assert (∃ c, (load_shortstatehash_info h s).2 = set_stateinfo_cache c s ∧ info_cache_ok (set_stateinfo_cache c s))
    as (c & -> & Hc).
  { destruct (db_map s shortstatehash_statediff !! to_be_bytes h) as [v|] eqn:Ev'.
    - destruct (sti_layers s SI _ _ Ev') as (h' & l & E & _ & _ & Hl & _).
      destruct (layers_key s h' h l Hl) as [l' Hl']; [done|].
      destruct (load_shortstatehash_info_spec s h l' Hl' (sti_cache s SI)) as (c & -> & Hc). by exists c.
    - exists (lru_get_mut h (stateinfo_cache s)).2. split; [|by apply info_cache_touch, SI].
      destruct (lru_peek (stateinfo_cache s) h) as [l|] eqn:Ep.
      { apply (sti_cache s SI) in Ep. destruct Ep as [h A (v & Hv & _)|h p l i A R (v & Hv & _)]; congruence. }
      unfold load_shortstatehash_info. destruct (size _); cbn [load_layers];
        (erewrite bind_Ok by apply cache_get_run); rewrite Ep; unfold get_statediff, mbind, M_bind; rewrite t_get_run;
        db_simpl; by rewrite Ev'. }
  apply (good_cache s); [done|done| |done|done]. apply short_inv_info, G.
Qed.

Lemma get_pdu_looks e : looks (get_pdu e).
Proof.
  intros s. split; [apply get_pdu_keeps|]. intros [Hc I SI Hp].
  destruct (get_pdu_run e s Hp) as (r & c & -> & Hp' & _). cbn [snd].
  split; [done|by destruct I|by apply (state_inv_same s)|done].
Qed.
End lookups.
Abbreviation looks := (preserves looked_up).

Create HintDb looks.
#[export] Hint Resolve get_shortstatekey_looks get_eventid_from_short_looks load_shortstatehash_info_looks
  get_pdu_looks : looks.

Ltac looks_step :=
  lazymatch goal with
  | |- preserves _ (mret _) => apply preserves_ret, _
  | |- preserves _ (lift _) => apply preserves_lift, _
  | |- preserves _ (fail _) => apply preserves_fail, _
  | |- preserves _ (gets _) => apply preserves_gets, _
  | |- preserves _ (t_get _ _) => apply preserves_gets, _
  | |- preserves _ (t_scan_prefix _ _) => apply preserves_gets, _
  | |- preserves _ (try_ok _) => apply preserves_try_ok; [apply _|]
  | |- preserves _ (for_each _ _) => apply preserves_for_each; [apply _|intros]
  | |- preserves _ (for_fold _ _ _) => apply preserves_for_fold; [apply _|intros]
  | |- preserves _ (_ ≫= _) => apply preserves_bind; [apply _| |intros]
  | |- preserves _ (match ?x with _ => _ end) => destruct x
  | |- preserves _ (let '_ := ?x in _) => destruct x
  | |- preserves _ _ => solve [eauto 2 with looks]
  end.
Ltac looks_tac := intros; repeat looks_step.

Section room_lookups.
Context {Ev : Env} {EL : EventLib}.

Lemma get_room_shortstatehash_looks r : looks (get_room_shortstatehash r).
Proof. unfold get_room_shortstatehash. looks_tac. Qed.
Lemma get_forward_extremities_looks r : looks (get_forward_extremities r).
Proof. unfold get_forward_extremities. looks_tac. Qed.
Lemma pdu_shortstatehash_looks e : looks (pdu_shortstatehash e).
Proof. unfold pdu_shortstatehash. looks_tac. Qed.
Lemma parse_compressed_state_event_looks c : looks (parse_compressed_state_event c).
Proof. unfold parse_compressed_state_event. looks_tac. Qed.
Lemma full_state_looks h : looks (full_state h).
Proof. unfold full_state. looks_tac. Qed.
Hint Resolve get_room_shortstatehash_looks parse_compressed_state_event_looks full_state_looks : looks.
Lemma state_get_looks h t k : looks (state_get h t k).
Proof. unfold state_get, state_get_id. looks_tac. Qed.
Hint Resolve state_get_looks : looks.
Lemma room_state_get_looks r t k : looks (room_state_get r t k).
Proof. unfold room_state_get. looks_tac. Qed.
Lemma get_auth_events_looks r k u sk c : looks (get_auth_events r k u sk c).
Proof. unfold get_auth_events, short_auth_type, auth_entry. looks_tac. Qed.
End room_lookups.
#[export] Hint Resolve get_room_shortstatehash_looks get_forward_extremities_looks pdu_shortstatehash_looks
  parse_compressed_state_event_looks full_state_looks state_get_looks room_state_get_looks get_auth_events_looks : looks.
