(* ===== verification/TimelineService.v ===== *)
(** * The timeline service ([src/service/rooms/timeline/mod.rs], [get_actions] of
    [src/service/pusher/mod.rs])

    How events get into a room: building and signing an event of a local user,
    appending an event to the timeline with everything that follows from it
    (read marker, notifications, memberships, search index, redaction, requests
    to push gateways, appservices and servers). *)

From S2P Require Import Prelude Bytes RStr Error Utils KvTree Env Db Keys Globals Frames Short RoomState StateCompressor Pdu Timeline StateAccessor Users StateCache Edus Sending SendingService RoomIndex ClientData EventFormat RoomUser OpFrames MembershipService StateService Lookups.

(** ** What the code uses of ruma's push rules, authorisation and signatures *)

Inductive Tweak := Highlight (b : bool) | OtherTweak (name : rstr) (value : json).
Inductive Action := DontNotify | Notify | Coalesce | SetTweak (t : Tweak).

Section libraries.
Context {Ev : Env}.

(** The fields of [RoomPowerLevelsEventContent] the code reads. *)
Record PowerLevels := {
  pl_users : list (UserId * Z);
  pl_users_default : Z;
  pl_notifications_room : Z
}.

Record PushConditionRoomCtx := {
  ctx_room_id : RoomId;
  ctx_member_count : N;
  ctx_user_id : UserId;
  ctx_user_display_name : rstr;
  ctx_users_power_levels : list (UserId * Z);
  ctx_default_power_level : Z;
  ctx_notification_power_levels : Z
}.

Inductive SignError := PduSize | OtherSignError.

Class TimelineLib := {
  (** push rules: [PushRulesEvent], [Ruleset::server_default], [Ruleset::get_actions] *)
  Ruleset : Type;
  push_rules_global : Raw → option Ruleset;
  server_default : UserId → Ruleset;
  ruleset_get_actions : Ruleset → Raw → PushConditionRoomCtx → list Action;
  localpart : UserId → rstr;
  (** typed contents; the default of the power levels *)
  power_levels_content : bytes → option PowerLevels;
  default_power_levels : PowerLevels;
  extract_body : bytes → option (option rstr);
  (** [utils::to_canonical_object] of raw JSON and of an event *)
  canonical_of_content : bytes → option (list (rstr * json));
  canonical_of_pdu : PduEvent → option CanonicalJsonObject;
  (** room versions and [state_res::auth_check]: [None] is an error *)
  room_version_supported : rstr → bool;
  auth_check : rstr → PduEvent → (rstr * rstr → option PduEvent) → option bool;
  (** [hash_and_sign_event] with the key pair of the server *)
  hash_and_sign_event : CanonicalJsonObject → rstr → CanonicalJsonObject + SignError;
  (** addition of [UInt] *)
  uint_add : N → N → N;
  uint_add_small x y : x + y < 2 ^ 53 → uint_add x y = x + y;
  (** [event_id!("$thiswillbefilledinlater")] *)
  placeholder_id : EventId;
  placeholder_text : as_str placeholder_id = lit "$thiswillbefilledinlater";
  (** the configuration *)
  default_room_version : rstr;
  emergency_password : option rstr;
}.
End libraries.

(** ** The state of the server: the database, the sending task, and the messages
    for the admin task *)

(** [RoomMessageEventContent] as the code makes it. *)
Inductive RoomMessage := NoticePlain (body : rstr) | TextPlain (body : rstr) | TextHtml (body html : rstr).

(** The channel of the admin task. *)
Inductive AdminRoomEvent := ProcessMessage (room_message : rstr) | SendMessage (content : RoomMessage).

Section server.
Context {Ev : Env}.

Record ServerState := MkServer { sv_handler : HandlerState; sv_admin : list AdminRoomEvent }.
Definition sv_db (s : ServerState) : State := h_db (sv_handler s).
Abbreviation SM := (M ServerState).

Definition on_sending {A} (m : M HandlerState A) : SM A := λ s,
  let '(r, h) := m (sv_handler s) in (r, MkServer h (sv_admin s)).
Definition on_db {A} (m : DB A) : SM A := on_sending (indb m).
Definition process_message (room_message : rstr) : SM unit :=
  modify (λ s, MkServer (sv_handler s) (sv_admin s ++ [ProcessMessage room_message])).
Definition send_message (message_content : RoomMessage) : SM unit :=
  modify (λ s, MkServer (sv_handler s) (sv_admin s ++ [SendMessage message_content])).
End server.
Abbreviation SM := (M ServerState).

(** [unwrap] of a result *)
Definition unwrap {S A} (m : M S A) : M S A := λ s,
  match m s with
  | (Err _, s') => (Panic "called Result::unwrap on an Err value", s')
  | x => x
  end.

Section timeline_service.
Context {Ev : Env} {EL : EventLib} {TL : TimelineLib}.
Implicit Types s : State.

(** ** Redaction *)

Definition redact_pdu (event_id : EventId) (reason : PduEvent) : DB unit :=
  o ← get_pdu_id event_id;
  match o with
  | Some pdu_id =>
      pdu ← get_pdu_from_id pdu_id;
      pdu ← lift (ok_or pdu (BadDatabase "PDU ID points to invalid PDU."));
      pdu ← lift (redact pdu reason);
      replace_pdu pdu_id pdu
  | None => mret ()
  end.

(** ** Appending *)

(** State events carry the content they replace in [unsigned]. *)
Definition with_prev_content (pdu : PduEvent) (pdu_json : CanonicalJsonObject) : DB CanonicalJsonObject :=
  match state_key pdu with
  | Some state_key =>
      let pdu_json :=
        match canonical_get (lit "unsigned") pdu_json with
        | Some _ => pdu_json
        | None => canonical_insert (lit "unsigned") (JObj []) pdu_json
        end in
      match canonical_get (lit "unsigned") pdu_json with
      | Some (JObj unsigned) =>
          o ← unwrap (pdu_shortstatehash (event_id pdu));
          match o with
          | Some shortstatehash =>
              prev ← unwrap (state_get shortstatehash (kind pdu) state_key);
              match prev with
              | Some prev_state =>
                  c ← lift (expect (canonical_of_content (content prev_state)) "event is valid, we just created it");
                  mret (canonical_insert (lit "unsigned")
                    (JObj (obj_insert (lit "prev_content") (JObj c) unsigned)) pdu_json)
              | None => mret pdu_json
              end
          | None => mret pdu_json
          end
      | _ => mret pdu_json
      end
  | None => mret pdu_json
  end.

(** The first half of [append_pdu]: the event is in the timeline. *)
Definition insert_pdu (pdu : PduEvent) (pdu_json : CanonicalJsonObject) (leaves : list EventId) : DB (N * bytes) :=
  o ← get_shortroomid (room_id pdu);
  shortroomid ← lift (expect o "room exists");
  pdu_json ← with_prev_content pdu pdu_json;
  mark_as_referenced (room_id pdu) (prev_events pdu) ;;
  set_forward_extremities (room_id pdu) leaves ;;
  count1 ← next_count;
  private_read_set (room_id pdu) (sender pdu) count1 ;;
  reset_notification_counts (sender pdu) (room_id pdu) ;;
  count2 ← next_count;
  let pdu_id := to_be_bytes shortroomid ++ to_be_bytes count2 in
  Timeline.append_pdu pdu_id pdu pdu_json count2 ;;
  mret (shortroomid, pdu_id).

Definition get_actions (user : UserId) (ruleset : Ruleset) (power_levels : PowerLevels) (pdu : Raw)
    (room_id : RoomId) : DB (list Action) :=
  name ← displayname user;
  mret (ruleset_get_actions ruleset pdu
    {| ctx_room_id := room_id; ctx_member_count := 10; ctx_user_id := user;
       ctx_user_display_name := default (localpart user) name;
       ctx_users_power_levels := pl_users power_levels; ctx_default_power_level := pl_users_default power_levels;
       ctx_notification_power_levels := pl_notifications_room power_levels |}).

(** The loop over the actions: (notify, highlight). *)
Definition action_step (acc : bool * bool) (action : Action) : bool * bool :=
  match action with
  | DontNotify => (false, acc.2)
  | Notify | Coalesce => (true, acc.2)
  | SetTweak (Highlight true) => (acc.1, true)
  | _ => acc
  end.

Definition rules_for (user : UserId) : DB Ruleset :=
  o ← ClientData.get None user (lit "m.push_rules");
  o ← lift (transpose ((λ event, ok_or (push_rules_global event) (BadDatabase "Invalid push rules event in db.")) <$> o));
  mret (default (server_default user) o).

(** One local user: the lists of users to notify, and the requests to push. *)
Definition notify_user (pdu : PduEvent) (pdu_id : bytes) (power_levels : PowerLevels)
    (acc : list UserId * list UserId) (user : UserId) : SM (list UserId * list UserId) :=
  if decide (user = sender pdu) then mret acc
  else
    rules_for_user ← on_db (rules_for user);
    actions ← on_db (get_actions user rules_for_user power_levels (to_sync_room_event pdu) (room_id pdu));
    let '(notify, highlight) := foldl action_step (false, false) actions in
    push_keys ← on_db (get_pushkeys user);
    for_each push_keys (λ push_key,
      push_key ← lift push_key; on_sending (send_push_pdu pdu_id user push_key)) ;;
    mret ((if (notify : bool) then acc.1 ++ [user] else acc.1), (if (highlight : bool) then acc.2 ++ [user] else acc.2)).

Definition notify_users (pdu : PduEvent) (pdu_id : bytes) : SM unit :=
  ev ← on_db (room_state_get (room_id pdu) (lit "m.room.power_levels") (lit ""));
  power_levels ← lift (transpose
    ((λ ev, ok_or (power_levels_content (content ev)) (BadDatabase "invalid m.room.power_levels event")) <$> ev));
  users ← on_db (get_our_real_users (room_id pdu));
  r ← for_fold (elements users) ([], []) (notify_user pdu pdu_id (default default_power_levels power_levels));
  let '(notifies, highlights) := (r : list UserId * list UserId) in
  on_db (increment_notification_counts (room_id pdu) notifies highlights).

(** The cases of the event type. *)
Definition member_effect (pdu : PduEvent) : DB unit :=
  match state_key pdu with
  | Some state_key =>
      target_user_id ← lift (expect (parse_id valid_user_id state_key) "This state_key was previously validated");
      membership ← lift (ok_or (extract_membership (content pdu)) (BadDatabase "Invalid content in pdu."));
      invite_state ← (if decide (membership = MInvite) then state ← calculate_invite_state pdu; mret (Some state)
                      else mret None);
      update_membership (room_id pdu) target_user_id membership (sender pdu) invite_state true
  | None => mret ()
  end.

(** [format!("#admins:{}", server_name)], [format!("@conduit:{}", server_name)] *)
Definition with_server (prefix : string) : rstr := str_app (lit prefix) (as_str server_name).

Definition message_effect (pdu : PduEvent) (shortroomid : N) (pdu_id : bytes) : SM unit :=
  body ← lift (ok_or (extract_body (content pdu)) (BadDatabase "Invalid content in pdu."));
  match body with
  | Some body =>
      on_db (index_pdu shortroomid pdu_id body) ;;
      alias ← lift (expect (parse_id valid_room_alias_id (with_server "#admins:"))
                      "#admins:server_name is a valid room alias");
      admin_room ← on_db (resolve_local_alias alias);
      let server_user := with_server "@conduit:" in
      let to_conduit := starts_with (as_bytes body) (as_bytes server_user ++ b#": ") in
      let from_conduit := bool_decide (as_str (sender pdu) = server_user) && bool_decide (emergency_password = None) in
      if to_conduit && negb from_conduit && bool_decide (admin_room = Some (room_id pdu)) then process_message body
      else mret ()
  | None => mret ()
  end.

Definition kind_effect (pdu : PduEvent) (shortroomid : N) (pdu_id : bytes) : SM unit :=
  if decide (kind pdu = lit "m.room.redaction") then
    match redacts pdu with
    | Some redact_id => on_db (redact_pdu redact_id pdu)
    | None => mret ()
    end
  else if decide (kind pdu = lit "m.room.member") then on_db (member_effect pdu)
  else if decide (kind pdu = lit "m.room.message") then message_effect pdu shortroomid pdu_id
  else mret ().

(** ** Appservices *)

(** A member event that targets the user of the appservice. *)
Definition targets_appservice (pdu : PduEvent) (appservice : rstr * json) : bool :=
  bool_decide (kind pdu = lit "m.room.member") &&
  match (k ← state_key pdu; parse_id valid_user_id k),
        (v ← json_get (lit "sender_localpart") appservice.2; t ← as_string v; parse_with_server_name t server_name) with
  | Some state_key_uid, Some appservice_uid => bool_decide (state_key_uid = appservice_uid)
  | _, _ => false
  end.

(** The regular expressions of a namespace. *)
Definition namespace_regexes (name : string) (namespaces : json) : list Regex :=
  match json_get (lit name) namespaces with
  | Some (JArr l) => filter_map (λ u, r ← json_get (lit "regex") u; r ← as_string r; regex_new r) l
  | _ => []
  end.

Definition namespaces_match (pdu : PduEvent) (aliases_of_room : list RoomAliasId) (namespaces : json) : bool :=
  existsb (λ r, existsb (λ a : RoomAliasId, is_match r (as_str a)) aliases_of_room)
    (namespace_regexes "aliases" namespaces) ||
  match json_get (lit "rooms") namespaces with
  | Some (JArr rooms) => existsb (λ v, bool_decide (as_string v = Some (as_str (room_id pdu)))) rooms
  | _ => false
  end ||
  existsb (λ r, is_match r (as_str (sender pdu)) ||
      bool_decide (kind pdu = lit "m.room.member") && from_option (is_match r) false (state_key pdu))
    (namespace_regexes "users" namespaces).

Definition to_appservice (pdu : PduEvent) (pdu_id : bytes) (appservice : rstr * json) : SM unit :=
  in_room ← on_db (appservice_in_room (room_id pdu) appservice);
  if (in_room : bool) then on_sending (send_pdu_appservice appservice.1 pdu_id)
  else if targets_appservice pdu appservice then on_sending (send_pdu_appservice appservice.1 pdu_id)
  else
    match json_get (lit "namespaces") appservice.2 with
    | Some namespaces =>
        aliases ← on_db (local_aliases_for_room (room_id pdu));
        if namespaces_match pdu (filter_map ok aliases) namespaces then
          on_sending (send_pdu_appservice appservice.1 pdu_id)
        else mret ()
    | None => mret ()
    end.

(** The second half of [append_pdu]: what follows from the event. *)
Definition follow_up (pdu : PduEvent) (shortroomid : N) (pdu_id : bytes) : SM unit :=
  notify_users pdu pdu_id ;;
  kind_effect pdu shortroomid pdu_id ;;
  apps ← on_db ClientData.all;
  for_each apps (to_appservice pdu pdu_id).

Definition append_pdu (pdu : PduEvent) (pdu_json : CanonicalJsonObject) (leaves : list EventId) : SM bytes :=
  r ← on_db (insert_pdu pdu pdu_json leaves);
  let '(shortroomid, pdu_id) := (r : N * bytes) in
  follow_up pdu shortroomid pdu_id ;;
  mret pdu_id.

(** ** Building events *)

Record PduBuilder := {
  pb_event_type : rstr;
  pb_content : bytes;
  pb_unsigned : option (list (rstr * json));
  pb_state_key : option rstr;
  pb_redacts : option EventId
}.

(** The depths of the previous events that are known, and the greatest. *)
Definition max_depth (acc : option N) (event_id : EventId) : DB (option N) :=
  o ← try_ok (get_pdu event_id);
  mret (match mjoin o with
        | Some pdu => Some (from_option (N.max (depth pdu)) (depth pdu) acc)
        | None => acc
        end).

Definition room_version_of (create_event : option PduEvent) : res rstr :=
  content ← transpose ((λ e, ok_or (create_content (content e)) (BadDatabase "Invalid create event in db.")) <$> create_event);
  Ok (from_option cc_room_version default_room_version content).

(** The replaced content and its sender. *)
Definition unsigned_of (room_id : RoomId) (event_type : rstr) (state_key : option rstr) (unsigned : list (rstr * json))
    : DB (list (rstr * json)) :=
  match state_key with
  | Some state_key =>
      o ← room_state_get room_id event_type state_key;
      match o with
      | Some prev_pdu =>
          c ← lift (expect (from_slice (content prev_pdu)) "string is valid json");
          mret (obj_insert (lit "prev_sender") (id_value (sender prev_pdu)) (obj_insert (lit "prev_content") c unsigned))
      | None => mret unsigned
      end
  | None => mret unsigned
  end.

Definition sign_event (pdu : PduEvent) (room_version_id : rstr) : res (PduEvent * CanonicalJsonObject) :=
  pdu_json ← expect (canonical_of_pdu pdu) "event is valid, we just created it";
  let pdu_json := canonical_remove (lit "event_id") pdu_json in
  let pdu_json := canonical_insert (lit "origin") (id_value server_name) pdu_json in
  match hash_and_sign_event pdu_json room_version_id with
  | inl pdu_json =>
      hash ← expect (reference_hash pdu_json room_version_id) "ruma can calculate reference hashes";
      id ← expect (hash_event_id hash) "ruma's reference hashes are valid event ids";
      Ok (set_event_id id pdu, canonical_insert (lit "event_id") (JStr (as_str id)) pdu_json)
  | inr PduSize => Err (BadRequest TooLarge "Message is too long")
  | inr OtherSignError => Err (BadRequest Unknown "Signing event failed")
  end.

(** [UInt::try_from]: integers above [2 ^ 53 - 1] are refused. *)
Definition to_uint (n : N) : option N := if bool_decide (n < 2 ^ 53) then Some n else None.

(** [create_hash_and_sign_event] up to the number of the event.  At most 20 of
    the forward extremities are previous events, in the order of the set. *)
Definition prepare_event (pdu_builder : PduBuilder) (sender : UserId) (room_id : RoomId)
    : DB (PduEvent * CanonicalJsonObject) :=
  leaves ← get_forward_extremities room_id;
  let prev_events := take 20 (elements leaves) in
  create_event ← room_state_get room_id (lit "m.room.create") (lit "");
  room_version_id ← lift (room_version_of create_event);
  lift (if room_version_supported room_version_id then Ok () else Panic "room version is supported") ;;
  auth_events ← get_auth_events room_id (pb_event_type pdu_builder) sender (pb_state_key pdu_builder)
    (pb_content pdu_builder);
  d ← for_fold prev_events None max_depth;
  unsigned ← unsigned_of room_id (pb_event_type pdu_builder) (pb_state_key pdu_builder)
    (default [] (pb_unsigned pdu_builder));
  millis ← gets now;
  ts ← lift (expect (to_uint millis) "time is valid");
  let pdu := {|
    event_id := placeholder_id; room_id := room_id; sender := sender; origin_server_ts := ts;
    kind := pb_event_type pdu_builder; content := pb_content pdu_builder; state_key := pb_state_key pdu_builder;
    prev_events := prev_events; depth := uint_add (default 0 d) 1;
    auth_events := (λ e, event_id e.2) <$> map_to_list auth_events; redacts := pb_redacts pdu_builder;
    unsigned := match unsigned with [] => None | _ => Some (raw_text (to_raw_value (JObj unsigned))) end;
    hashes := b#"aaa"; signatures := None |} in
  ok ← lift (ok_or (auth_check room_version_id pdu (auth_events !!.)) (BadDatabase "Auth check failed."));
  if (ok : bool) then lift (sign_event pdu room_version_id)
  else fail (BadRequest Forbidden "Event is not authorized.").

Definition create_hash_and_sign_event (pdu_builder : PduBuilder) (sender : UserId) (room_id : RoomId)
    : DB (PduEvent * CanonicalJsonObject) :=
  r ← prepare_event pdu_builder sender room_id;
  get_or_create_shorteventid (event_id r.1) ;;
  mret r.

(** The servers a new event is sent to. *)
Definition destinations (pdu : PduEvent) (room_servers : list (res ServerName)) : gset ServerName :=
  let servers : gset ServerName := list_to_set (filter_map ok room_servers) in
  let servers :=
    if decide (kind pdu = lit "m.room.member") then
      match k ← state_key pdu; parse_id valid_user_id k with
      | Some state_key_uid => {[user_server_name state_key_uid]} ∪ servers
      | None => servers
      end
    else servers in
  servers ∖ {[server_name]}.

Definition build_and_append_pdu (pdu_builder : PduBuilder) (sender : UserId) (room_id : RoomId) : SM EventId :=
  r ← on_db (create_hash_and_sign_event pdu_builder sender room_id);
  let '(pdu, pdu_json) := (r : PduEvent * CanonicalJsonObject) in
  statehashid ← on_db (append_to_state pdu);
  pdu_id ← append_pdu pdu pdu_json [event_id pdu];
  on_db (set_room_state room_id statehashid) ;;
  servers ← on_db (room_servers room_id);
  on_sending (send_pdu (elements (destinations pdu servers)) pdu_id) ;;
  mret (event_id pdu).

(** ** Incoming events *)

Definition append_incoming_pdu (pdu : PduEvent) (pdu_json : CanonicalJsonObject) (new_room_leaves : list EventId)
    (state_ids_compressed : list CompressedStateEvent) (soft_fail : bool) : SM (option bytes) :=
  on_db (StateService.set_event_state (event_id pdu) (room_id pdu) state_ids_compressed) ;;
  if soft_fail then
    on_db (mark_as_referenced (room_id pdu) (prev_events pdu)) ;;
    on_db (set_forward_extremities (room_id pdu) new_room_leaves) ;;
    mret None
  else
    pdu_id ← append_pdu pdu pdu_json new_room_leaves;
    mret (Some pdu_id).

Definition all_pdus (user_id : UserId) (room_id : RoomId) : DB (list (res (bytes * PduEvent))) :=
  pdus_since user_id room_id 0.
End timeline_service.

(** ** Frames *)

Section server_frames.
Context {Ev : Env} {EL : EventLib} {TL : TimelineLib}.

(** The trees outside [ts] are the same. *)
Definition sagree (ts : list TreeId) (s s' : ServerState) : Prop := agree ts (sv_db s) (sv_db s').
#[export] Instance sagree_preorder ts : PreOrder (sagree ts).
Proof.
  unfold sagree. split; [intros s; reflexivity|]. intros s1 s2 s3 H1 H2. by etrans.
Qed.

Lemma on_db_run {A} (m : DB A) s r d :
  m (sv_db s) = (r, d) → on_db m s = (r, MkServer (set_db d (sv_handler s)) (sv_admin s)).
Proof. intros E. unfold on_db, on_sending, indb. unfold sv_db in E. by rewrite E. Qed.
Lemma on_db_keeps {A} ts (m : DB A) : keeps ts m → preserves (sagree ts) (on_db m).
Proof.
  intros H s. specialize (H (sv_db s)). unfold sagree. destruct (m (sv_db s)) as [r d] eqn:E.
  by rewrite (on_db_run _ _ _ _ E).
Qed.
Lemma enqueue_keeps l : preserves (sagree [global; servernameevent_data]) (on_sending (enqueue l)).
Proof.
  intros s. unfold sagree, sv_db, on_sending, enqueue, mbind, M_bind, indb.
  pose proof (queue_requests_keeps l (h_db (sv_handler s))) as H.
  by destruct (queue_requests l (h_db (sv_handler s))) as [[keys| |] d].
Qed.
Lemma process_message_keeps b : preserves (sagree []) (process_message b).
Proof. by intros s t _. Qed.
Lemma send_message_keeps m : preserves (sagree []) (send_message m).
Proof. by intros s t _. Qed.
Lemma sagree_mono {A} ts ts' (m : M ServerState A) : preserves (sagree ts) m → ts ⊆ ts' → preserves (sagree ts') m.
Proof. intros H Hs s. exact (agree_mono _ _ _ _ Hs (H s)). Qed.
Lemma unwrap_keeps {A} ts (m : DB A) : keeps ts m → keeps ts (unwrap m).
Proof. intros H s. specialize (H s). unfold unwrap. by destruct (m s) as [[a| |] s']. Qed.
End server_frames.

Ltac server_step :=
  lazymatch goal with
  | |- preserves _ (on_db _) => apply on_db_keeps
  | |- preserves _ (unwrap _) => apply unwrap_keeps
  | |- preserves _ (process_message _) => eapply sagree_mono; [apply process_message_keeps|by_compute]
  | |- preserves _ (send_message _) => eapply sagree_mono; [apply send_message_keeps|by_compute]
  | |- preserves _ (on_sending (enqueue _)) => eapply sagree_mono; [apply enqueue_keeps|by_compute]
  | |- preserves _ (on_sending (send_push_pdu _ _ _)) => unfold send_push_pdu
  | |- preserves _ (on_sending (send_pdu_appservice _ _)) => unfold send_pdu_appservice
  | |- preserves _ (on_sending (send_pdu _ _)) => unfold send_pdu
  | _ => keeps_step
  end.
Ltac server_tac := intros; repeat server_step.

Section timeline_frames.
Context {Ev : Env} {EL : EventLib} {TL : TimelineLib}.

Lemma with_prev_content_keeps p js : keeps [] (with_prev_content p js).
Proof. unfold with_prev_content. server_tac. Qed.
Lemma displayname_keeps u : keeps [] (displayname u).
Proof. unfold displayname. keeps_tac. Qed.
Lemma calculate_invite_state_keeps p : keeps [] (calculate_invite_state p).
Proof. unfold calculate_invite_state, push_stripped. keeps_tac. Qed.
Lemma redact_pdu_keeps e p : keeps [pduid_pdu] (redact_pdu e p).
Proof. unfold redact_pdu. keeps_tac. Qed.
Hint Resolve displayname_keeps calculate_invite_state_keeps redact_pdu_keeps update_membership_keeps : keeps.

(** What follows from an event that redacts nothing. *)
Definition follow_trees : list TreeId :=
  count_trees ++ member_trees ++
  [userid_password; roomuseroncejoinedids; roomuserdataid_accountdata; roomusertype_roomuserdataid;
   servernameevent_data; userroomid_notificationcount; userroomid_highlightcount; tokenids].

Lemma notify_users_keeps p id : preserves (sagree follow_trees) (notify_users p id).
Proof. unfold notify_users, notify_user, rules_for, get_actions. server_tac. Qed.
Lemma to_appservice_keeps p id a : preserves (sagree follow_trees) (to_appservice p id a).
Proof. unfold to_appservice. server_tac. Qed.
Lemma kind_effect_keeps p sr id :
  preserves (sagree (if decide (kind p = lit "m.room.redaction") then pduid_pdu :: follow_trees else follow_trees))
    (kind_effect p sr id).
Proof. unfold kind_effect, member_effect, message_effect. destruct (decide _); server_tac. Qed.
Lemma follow_up_keeps p sr id :
  preserves (sagree (if decide (kind p = lit "m.room.redaction") then pduid_pdu :: follow_trees else follow_trees))
    (follow_up p sr id).
Proof.
  unfold follow_up. pose proof (kind_effect_keeps p sr id) as Hk. destruct (decide _).
  - server_tac; (eapply sagree_mono; [apply notify_users_keeps || apply to_appservice_keeps|by_compute]).
  - server_tac; apply notify_users_keeps || apply to_appservice_keeps.
Qed.
End timeline_frames.

(** ** Lemmas *)

(** One step of a chain of frames. *)
Ltac agree_via H := etrans; [eapply agree_mono; [|exact H]; by_compute|].

Section timeline_lemmas.
Context {Ev : Env} {EL : EventLib} {TL : TimelineLib}.
Implicit Types s : State.

Lemma agree_count ts s s' : agree ts s s' → global ∉ ts → count s' = count s.
Proof. intros H Ht. by apply count_frame, H. Qed.

Lemma agree_bump s ts : global ∈ ts → agree ts s (bump s).
Proof. intros Hg t Ht. apply db_map_bump_ne. congruence. Qed.

(** Loops over updates of trees leave the cache of states alone. *)
Lemma foldl_info {A} (f : State → A → State) (l : list A) s :
  (∀ s a, stateinfo_cache (f s a) = stateinfo_cache s) → stateinfo_cache (foldl f s l) = stateinfo_cache s.
Proof. intros Hf. revert s. induction l as [|a l IH]; intros s; [done|]. cbn [foldl]. by rewrite IH. Qed.
Lemma mark_as_referenced_run r es s :
  ∃ s', mark_as_referenced r es s = (Ok (), s') ∧ agree [referencedevents] s s' ∧ stateinfo_cache s' = stateinfo_cache s.
Proof.
  assert (mark_as_referenced r es s = (Ok (), foldl (λ s e, put referencedevents (idb r ++ idb e) [] s) s es)) as E
    by apply for_each_modify.
  eexists. split_and!; [exact E|exact (preserves_inv _ _ _ _ _ (mark_as_referenced_keeps r es) E)|].
  by apply foldl_info.
Qed.
Lemma private_read_set_run r u c s :
  count_ok s → ∃ s', private_read_set r u c s = (Ok (), s') ∧ count s' = count s + 1.
Proof.
  intros Hc. unfold private_read_set. db_step. set (s1 := put _ _ _ s).
  assert (count s1 = count s) as E1 by (by apply count_put). assert (count_ok s1) as K1 by (unfold count_ok in *; lia).
  rewrite (bind_Ok _ _ _ _ _ (next_count_ok _ K1)). eexists. split; [done|].
  rewrite count_put by done. by rewrite count_bump_ok, E1.
Qed.
Lemma reset_notification_counts_run u r s :
  count_ok s → ∃ s', reset_notification_counts u r s = (Ok (), s') ∧ count s' = count s + 1.
Proof.
  intros Hc. unfold reset_notification_counts. do 2 db_step. set (s1 := put _ _ _ (put _ _ _ s)).
  assert (count s1 = count s) as E1 by (unfold s1; by rewrite !count_put).
  assert (count_ok s1) as K1 by (unfold count_ok in *; lia).
  rewrite (bind_Ok _ _ _ _ _ (next_count_ok _ K1)). eexists. split; [done|].
  rewrite count_put by done. by rewrite count_bump_ok, E1.
Qed.
Lemma get_shortroomid_run r n s : room_numbered s r n → get_shortroomid r s = (Ok (Some n), s).
Proof.
  intros [Hn E]. unfold get_shortroomid. db_step. rewrite E. unfold parse_u64, lift. cbn.
  by rewrite u64_from_be_u64.
Qed.

(** Only [unsigned] changes. *)
Lemma with_prev_content_fields p js s js' s' :
  with_prev_content p js s = (Ok js', s') → ∀ k, k ≠ lit "unsigned" → canonical_get k js' = canonical_get k js.
Proof.
  unfold with_prev_content. destruct (state_key p) as [sk|]; [|by intros [= <- _]].
  set (js1 := match canonical_get (lit "unsigned") js with Some _ => js | None => _ end).
  intros E k Hk. assert (canonical_get k js1 = canonical_get k js) as E1.
  { unfold js1. destruct (canonical_get (lit "unsigned") js); [done|]. by rewrite canonical_get_insert, decide_False. }
  rewrite <- E1. clearbody js1. clear E1.
  destruct (canonical_get (lit "unsigned") js1) as [[| | | | |u]|]; try (by injection E as <- _).
  revert E. unfold mbind at 1, M_bind at 1. destruct (unwrap (pdu_shortstatehash (event_id p)) s) as [[[h|]| |] s1];
    [|by intros [= <- _]|done..].
  unfold mbind at 1, M_bind at 1. destruct (unwrap (state_get h (kind p) sk) s1) as [[[prev|]| |] s2];
    [|by intros [= <- _]|done..].
  destruct (canonical_of_content (content prev)) as [c|]; [|done]. cbn. intros [= <- _].
  by rewrite canonical_get_insert, decide_False.
Qed.

(** The trees of the first half of [append_pdu]. *)
Definition insert_trees : list TreeId :=
  [global; referencedevents; roomid_pduleaves; roomuserid_privateread; roomuserid_lastprivatereadupdate;
   userroomid_notificationcount; userroomid_highlightcount; roomuserid_lastnotificationread;
   pduid_pdu; eventid_pduid; eventid_outlierpdu].

(** An event [e] stored at [id] as [js]. *)
Definition in_timeline s (e : EventId) (id : bytes) (js : CanonicalJsonObject) : Prop :=
  db_map s eventid_pduid !! idb e = Some id ∧ db_map s pduid_pdu !! id = Some (to_vec js).

Lemma in_timeline_get s e id js : in_timeline s e id js → get_pdu_json e s = (Ok (Some js), s).
Proof.
  intros [H1 H2]. destruct (event_text_timeline e id (to_vec js) s H1 H2) as [Ht _].
  unfold get_pdu_json. rewrite (bind_Ok _ _ _ _ _ Ht). unfold lift, parse_json. cbn. by rewrite from_slice_to_vec.
Qed.

Lemma insert_pdu_run p js leaves sr s js' s0 :
  room_numbered s (room_id p) sr → count s + 4 < 2 ^ 64 → with_prev_content p js s = (Ok js', s0) →
  let id := pdu_id_of sr (count s + 4) in
  ∃ s', insert_pdu p js leaves s = (Ok (sr, id), s') ∧ agree insert_trees s s' ∧ count s' = count s + 4 ∧
    db_map s' pduid_pdu = <[id := to_vec js']> (db_map s pduid_pdu) ∧
    db_map s' eventid_pduid = <[idb (event_id p) := id]> (db_map s eventid_pduid) ∧
    get_forward_extremities (room_id p) s' = (Ok (list_to_set leaves), s').
Proof.
  intros Hr Hc Hp id. unfold insert_pdu. rewrite (bind_Ok _ _ _ _ _ (get_shortroomid_run _ _ _ Hr)). cbn [expect]. db_step.
  rewrite (bind_Ok _ _ _ _ _ Hp). pose proof (preserves_inv _ _ _ _ _ (with_prev_content_keeps p js) Hp) as A0.
  pose proof (agree_count _ _ _ A0 ltac:(by_compute)) as C0.
  destruct (mark_as_referenced_run (room_id p) (prev_events p) s0) as (s1 & E1 & A1 & _). rewrite (bind_Ok _ _ _ _ _ E1).
  pose proof (agree_count _ _ _ A1 ltac:(by_compute)) as C1.
  pose proof (set_forward_extremities_keeps (room_id p) leaves s1) as A2.
  pose proof (leaves_after_set (room_id p) leaves s1) as L2. cbn zeta in L2.
  rewrite set_forward_extremities_run in A2, L2. cbn [snd] in A2, L2.
  rewrite (bind_Ok _ _ _ _ _ (set_forward_extremities_run _ _ _)). set (s2 := put_leaves _ _ _) in *.
  pose proof (agree_count _ _ _ A2 ltac:(by_compute)) as C2.
  assert (count_ok s2) as K2 by (unfold count_ok; lia). rewrite (bind_Ok _ _ _ _ _ (next_count_ok _ K2)).
  pose proof (count_bump_ok _ K2) as C3.
  destruct (private_read_set_run (room_id p) (sender p) (count s2 + 1) (bump s2)) as (s4 & E4 & C4); [unfold count_ok; lia|].
  rewrite (bind_Ok _ _ _ _ _ E4). pose proof (preserves_inv _ _ _ _ _ (private_read_set_keeps _ _ _) E4) as A4.
  destruct (reset_notification_counts_run (sender p) (room_id p) s4) as (s5 & E5 & C5); [unfold count_ok; lia|].
  rewrite (bind_Ok _ _ _ _ _ E5). pose proof (preserves_inv _ _ _ _ _ (reset_notification_counts_keeps _ _) E5) as A5.
  assert (count_ok s5) as K5 by (unfold count_ok; lia). rewrite (bind_Ok _ _ _ _ _ (next_count_ok _ K5)).
  assert (count s5 + 1 = count s + 4) as C6 by lia. rewrite C6.
  change (to_be_bytes sr ++ to_be_bytes (count s + 4)) with id. rewrite (bind_Ok _ _ _ _ _ (append_pdu_run _ _ _ _ _)).
  assert (agree (take 8 insert_trees) s (bump s5)) as A.
  { agree_via A0. agree_via A1.
    agree_via A2. etrans; [apply (agree_bump s2); by_compute|].
    agree_via A4. agree_via A5.
    apply agree_bump. by_compute. }
  pose proof (append_pdu_keeps id p js' (count s + 4) (bump s5)) as A6. rewrite append_pdu_run in A6. cbn [snd] in A6.
  eexists. split; [done|]. split_and!.
  - agree_via A. agree_via A6. reflexivity.
  - rewrite (agree_count _ _ _ A6) by by_compute. rewrite count_bump_ok by done. lia.
  - unfold appended. rewrite <- (A pduid_pdu) by by_compute. by db_simpl.
  - unfold appended. rewrite <- (A eventid_pduid) by by_compute. by db_simpl.
  - apply get_leaves. intros v. specialize (L2 v).
    assert (db_map (appended id p js' (count s + 4) (bump s5)) roomid_pduleaves = db_map s2 roomid_pduleaves) as ->; [|exact L2].
    etrans; [apply A6; by_compute|]. rewrite db_map_bump_ne by discriminate. etrans; [apply A5; by_compute|].
    etrans; [apply A4; by_compute|]. apply db_map_bump_ne. discriminate.
Qed.

Lemma extremities_same r (x : gset EventId) s s' :
  db_map s' roomid_pduleaves = db_map s roomid_pduleaves →
  get_forward_extremities r s = (Ok x, s) → get_forward_extremities r s' = (Ok x, s').
Proof.
  intros E. unfold get_forward_extremities. db_step. db_step. rewrite E. unfold lift. by intros [= ->].
Qed.
Lemma room_servers_same r rs s s' d :
  room_servers r s = (Ok rs, d) →
  d = s ∧ (db_map s' roomserverids = db_map s roomserverids → room_servers r s' = (Ok rs, s')).
Proof.
  unfold room_servers, scan_last. db_step. intros [= <- <-]. split; [done|]. intros E. db_step. by rewrite E.
Qed.

(** What [append_pdu] leaves behind, whatever its outcome. *)
Lemma append_pdu_outcome p js leaves sr (s : ServerState) js' :
  room_numbered (sv_db s) (room_id p) sr → count (sv_db s) + 4 < 2 ^ 64 →
  (with_prev_content p js (sv_db s)).1 = Ok js' → kind p ≠ lit "m.room.redaction" →
  let id := pdu_id_of sr (count (sv_db s) + 4) in
  ∃ (s1 : ServerState) r (s' : ServerState), append_pdu p js leaves s = (r, s') ∧
    sv_db s1 = (insert_pdu p js leaves (sv_db s)).2 ∧
    (r = match (follow_up p sr id s1).1 with Ok _ => Ok id | Err e => Err e | Panic m => Panic m end) ∧
    agree (insert_trees ++ follow_trees) (sv_db s) (sv_db s') ∧
    db_map (sv_db s') pduid_pdu = <[id := to_vec js']> (db_map (sv_db s) pduid_pdu) ∧
    db_map (sv_db s') eventid_pduid = <[idb (event_id p) := id]> (db_map (sv_db s) eventid_pduid) ∧
    get_forward_extremities (room_id p) (sv_db s') = (Ok (list_to_set leaves), sv_db s').
Proof.
  intros Hr Hc Hp Hk id. destruct (with_prev_content p js (sv_db s)) as [x s0] eqn:Ep. cbn in Hp. subst x.
  destruct (insert_pdu_run p js leaves sr (sv_db s) js' s0 Hr Hc Ep) as (d1 & E1 & A1 & C1 & T1 & T2 & L).
  fold id in E1, T1, T2. unfold append_pdu. set (s1 := MkServer (set_db d1 (sv_handler s)) (sv_admin s)).
  rewrite (bind_Ok _ _ _ _ _ (on_db_run _ _ _ _ E1)). fold s1.
  pose proof (follow_up_keeps p sr id s1) as A2. rewrite decide_False in A2 by done.
  unfold mbind, M_bind. destruct (follow_up p sr id s1) as [r s2] eqn:E2. cbn [snd] in A2.
  assert (agree follow_trees d1 (sv_db s2)) as A2' by exact A2. clear A2.
  exists s1, (match r with Ok _ => Ok id | Err e => Err e | Panic m => Panic m end), s2.
  split; [by destruct r|]. rewrite E1, E2. split_and!.
  - reflexivity.
  - by destruct r.
  - agree_via A1. agree_via A2'. reflexivity.
  - rewrite <- T1. apply A2'. by_compute.
  - rewrite <- T2. apply A2'. by_compute.
  - apply (extremities_same _ _ d1); [apply A2'; by_compute|done].
Qed.

(** A message whose body is no text fails after it was stored. *)
Lemma bad_message_fails p sr id (s : ServerState) :
  kind p = lit "m.room.message" → extract_body (content p) = None → ∀ x, (follow_up p sr id s).1 ≠ Ok x.
Proof.
  intros Hk Hb x. unfold follow_up, mbind, M_bind. destruct (notify_users p id s) as [[[]| |] s1]; [|done..].
  unfold kind_effect. rewrite Hk, decide_False, decide_False, decide_True; [|done|by intros [=]%(f_equal as_bytes)..].
  unfold message_effect. by rewrite Hb.
Qed.
(** *** Building an event *)

Lemma max_depth_looks o e : looks (max_depth o e).
Proof. unfold max_depth. looks_tac. Qed.
Lemma unsigned_of_looks r t k l : looks (unsigned_of r t k l).
Proof. unfold unsigned_of. looks_tac. Qed.
Hint Resolve max_depth_looks unsigned_of_looks : looks.

Lemma prepare_event_looks b u r : looks (prepare_event b u r).
Proof. unfold prepare_event. looks_tac. Qed.

(** Numbering one more event keeps the invariants. *)
Lemma number_event_good e s :
  Good s → ∃ n s', get_or_create_shorteventid e s = (Ok n, s') ∧ count s' ≤ count s + 1 ∧ count s ≤ count s' ∧
    ShortInv s' ∧ StateInv s' ∧ pdu_cache_ok s' ∧ agree [global; eventid_shorteventid; shorteventid_eventid] s s' ∧
    db_map s eventid_shorteventid ⊆ db_map s' eventid_shorteventid.
Proof.
  intros [Hc I SI Hp]. destruct (get_or_create_shorteventid_spec e s I Hc) as (n & s' & E & I' & G & C & _).
  exists n, s'. pose proof (preserves_inv _ _ _ _ _ (get_or_create_shorteventid_keeps e) E) as A.
  split_and!; [done|done|apply G|done|by eapply state_inv_grows| |done|apply G].
  intros e' p. unfold stored_pdu. rewrite (fr_pdu _ _ _ (gr_frame _ _ G)), !A by by_compute. apply Hp.
Qed.

(** The event before it is signed. *)
Definition draft (p : PduEvent) : PduEvent := set_event_id placeholder_id p.

Lemma sign_event_draft d ver p js : event_id d = placeholder_id → sign_event d ver = Ok (p, js) → draft p = d.
Proof.
  intros Hd. unfold sign_event. destruct (canonical_of_pdu d) as [o|]; [|done]. cbn.
  destruct (hash_and_sign_event _ ver) as [js'|[]]; [|done..]. destruct (reference_hash js' ver) as [h|]; [|done]. cbn.
  destruct (hash_event_id h) as [id|]; [|done]. cbn. intros [= <- <-]. unfold draft. destruct d. cbn in *. by subst.
Qed.

Lemma create_inv b u r s p js s' :
  Good s → create_hash_and_sign_event b u r s = (Ok (p, js), s') →
  ∃ leaves ver m s1 s2,
    get_forward_extremities r s = (Ok leaves, s) ∧ prev_events p = take 20 (elements leaves) ∧
    looked_up s s1 ∧ get_auth_events r (kind p) u (state_key p) (content p) s1 = (Ok m, s2) ∧
    auth_check ver (draft p) (m !!.) = Some true ∧ auth_events p = (λ e, event_id e.2) <$> map_to_list m ∧
    kind p = pb_event_type b ∧ content p = pb_content b ∧ state_key p = pb_state_key b ∧
    sender p = u ∧ room_id p = r ∧
    count s' ≤ count s + 1 ∧ count s ≤ count s' ∧ ShortInv s' ∧ StateInv s' ∧ pdu_cache_ok s' ∧
    agree [global; eventid_shorteventid; shorteventid_eventid] s s' ∧
    db_map s eventid_shorteventid ⊆ db_map s' eventid_shorteventid.
Proof.
  intros G. unfold create_hash_and_sign_event. intros H.
  apply bind_Ok_inv in H as ([p0 js0] & x7 & H & H8). apply bind_Ok_inv in H8 as (n & x8 & E8 & [= -> -> ->]).
  pose proof (preserves_inv _ _ _ _ _ (prepare_event_looks _ _ _) H) as L. unfold prepare_event in H.
  apply bind_Ok_inv in H as (leaves & x1 & E1 & H).
  assert (x1 = s) as -> by (unfold get_forward_extremities in E1; revert E1; db_step; unfold lift; congruence).
  apply bind_Ok_inv in H as (create & x2 & E2 & H). pose proof (preserves_inv _ _ _ _ _ (room_state_get_looks _ _ _) E2) as L2.
  apply bind_Ok_inv in H as (ver & x3 & [= Ev3 <-] & H). apply bind_Ok_inv in H as ([] & x3 & [= _ <-] & H).
  apply bind_Ok_inv in H as (m & x4 & E4 & H).
  apply bind_Ok_inv in H as (d & x5 & E5 & H).
  apply bind_Ok_inv in H as (un & x6 & E6 & H).
  apply bind_Ok_inv in H as (millis & x9 & [= _ <-] & H). apply bind_Ok_inv in H as (ts & x9 & [= Ets <-] & H).
  apply bind_Ok_inv in H as (ok & x9 & [= Eok <-] & H). destruct ok; [|done]. injection H as Esign <-.
  destruct (number_event_good (event_id p) x6 (proj2 L G)) as (n' & s'' & E8' & C1 & C2 & I' & SI' & P' & A' & Sub').
  cbn [fst] in E8. rewrite E8 in E8'. injection E8' as <- <-.
  assert (count x6 = count s) as Ec by (apply (agree_count []); [apply L|by_compute]).
  pose proof (λ H, sign_event_draft _ _ _ _ H Esign) as Ed. specialize (Ed eq_refl).
  assert (auth_check ver (draft p) (m !!.) = Some true) as Hauth.
  { rewrite Ed. revert Eok. unfold ok_or. destruct (auth_check _ _ _) as [ok|]; [by intros [= ->]|done]. }
  unfold draft in Ed.
  exists leaves, ver, m, x2, x4. split_and!; try done; try lia.
  all: try (by destruct p; cbn in Ed |- *; injection Ed; intros; subst).
  - etrans; [|exact A']. eapply agree_mono; [|apply L]. by_compute.
  - rewrite <- (proj1 L eventid_shorteventid) by by_compute. exact Sub'.
Qed.

Lemma on_db_inv {A} (m : DB A) (s : ServerState) r (s' : ServerState) : on_db m s = (r, s') → m (sv_db s) = (r, sv_db s').
Proof.
  destruct (m (sv_db s)) as [r' d] eqn:E. rewrite (on_db_run _ _ _ _ E). by intros [= <- <-].
Qed.

(** A stored event had its previous content. *)
Lemma append_pdu_prev p js leaves (s s' : ServerState) id :
  append_pdu p js leaves s = (Ok id, s') → ∃ js', (with_prev_content p js (sv_db s)).1 = Ok js'.
Proof.
  intros (x & s1 & E%on_db_inv & _)%bind_Ok_inv. unfold insert_pdu in E.
  apply bind_Ok_inv in E as (o & d1 & E1 & E). apply bind_Ok_inv in E as (n & d2 & [= _ <-] & E).
  apply bind_Ok_inv in E as (js' & d3 & E3 & _).
  assert (d1 = sv_db s) as -> by (unfold get_shortroomid in E1; revert E1; db_step; unfold lift; congruence).
  exists js'. by rewrite E3.
Qed.

(** Requests to servers wait in the queue. *)
Lemma send_pdu_queued (Hs : servers_unmarked) servers id (s s' : ServerState) :
  on_sending (send_pdu servers id) s = (Ok (), s') →
  agree [global; servernameevent_data] (sv_db s) (sv_db s') ∧
  ∀ server, server ∈ servers → ∃ key, get_prefix (Normal server) `prefix_of` key ∧ is_Some (queued (sv_handler s') !! key).
Proof.
  intros E. split; [exact (preserves_inv _ _ _ _ _ (enqueue_keeps _) E)|]. intros server Hin.
  unfold on_sending, send_pdu, enqueue in E.
  destruct (queue_requests_run Hs ((λ server, (Normal server, SPdu id)) <$> servers) (h_db (sv_handler s)))
    as (l & d & Eq & Hl & Hq & _).
  { apply Forall_fmap, Forall_forall. intros x _. done. }
  rewrite (bind_indb _ _ _ _ _ Eq) in E. injection E as <-. cbn [queued sv_handler h_db set_db set_channel].
  assert ((Normal server, SPdu id) ∈ (λ server, (Normal server, SPdu id)) <$> servers) as Hr
    by (apply list_elem_of_fmap; by exists server).
  apply list_elem_of_lookup in Hr as [i Hi]. destruct (Forall2_lookup_l _ _ _ _ _ Hl Hi) as ([key v] & Hk & Hp & _).
  exists key. split; [done|]. unfold queued. cbn. rewrite Hq. apply lookup_insert_all. left.
  apply list_elem_of_fmap. exists (key, v). split; [done|]. by eapply list_elem_of_lookup_2.
Qed.
End timeline_lemmas.

Section timeline_theorems.
Context {Ev : Env} {EL : EventLib} {TL : TimelineLib}.

(** C11: Appending an event that redacts nothing puts it at the next position of the
    timeline, whatever else happens: also when a later part of [append_pdu]
    fails, the event is read back with its fields (only [unsigned] may differ),
    no other event of any timeline has changed, and the forward extremities are
    the given ones.  When it succeeds, it returns that position. *)
Theorem append_pdu_stores p js leaves sr s js' :
  room_numbered (sv_db s) (room_id p) sr → count (sv_db s) + 4 < 2 ^ 64 →
  (with_prev_content p js (sv_db s)).1 = Ok js' → kind p ≠ lit "m.room.redaction" →
  let id := pdu_id_of sr (count (sv_db s) + 4) in
  let '(o, s') := append_pdu p js leaves s in
  (∀ x, o = Ok x → x = id) ∧
  get_pdu_json (event_id p) (sv_db s') = (Ok (Some js'), sv_db s') ∧
  (∀ k, k ≠ lit "unsigned" → canonical_get k js' = canonical_get k js) ∧
  (∀ e, e ≠ event_id p → (get_pdu_id e (sv_db s')).1 = (get_pdu_id e (sv_db s)).1) ∧
  (∀ k, k ≠ id → (get_pdu_json_from_id k (sv_db s')).1 = (get_pdu_json_from_id k (sv_db s)).1) ∧
  get_forward_extremities (room_id p) (sv_db s') = (Ok (list_to_set leaves), sv_db s').
Proof.
  intros Hr Hc Hp Hk id.
  destruct (append_pdu_outcome p js leaves sr s js' Hr Hc Hp Hk) as (s1 & r & s' & -> & _ & -> & _ & T1 & T2 & L).
  fold id in T1, T2 |- *. split_and!.
  - intros x. destruct (follow_up _ _ _ _).1; [by intros [= <-]|done..].
  - apply (in_timeline_get _ _ id). split; [rewrite T2|rewrite T1]; apply lookup_insert_eq.
  - destruct (with_prev_content p js (sv_db s)) as [y d] eqn:E. cbn in Hp. subst y. by eapply with_prev_content_fields.
  - intros e He. unfold get_pdu_id. rewrite !t_get_run, T2, lookup_insert_ne; [done|]. intros E. by apply (inj idb) in E.
  - intros k Hne. unfold get_pdu_json_from_id. db_step. db_step. rewrite T1, lookup_insert_ne by done. done.
  - exact L.
Qed.

(** [append_pdu] can fail after the event is stored: a message whose body is not
    a text is in the timeline, and no position is returned to the caller. *)
Theorem append_pdu_bad_message p js leaves sr s :
  room_numbered (sv_db s) (room_id p) sr → count (sv_db s) + 4 < 2 ^ 64 → state_key p = None →
  kind p = lit "m.room.message" → extract_body (content p) = None →
  let '(o, s') := append_pdu p js leaves s in
  (∀ x, o ≠ Ok x) ∧ get_pdu_json (event_id p) (sv_db s') = (Ok (Some js), sv_db s').
Proof.
  intros Hr Hc Hs Hk Hb.
  destruct (append_pdu_outcome p js leaves sr s js Hr Hc) as (s1 & r & s' & -> & _ & -> & _ & T1 & T2 & _).
  { unfold with_prev_content. by rewrite Hs. }
  { rewrite Hk. by intros [=]%(f_equal as_bytes). }
  split.
  - intros x. pose proof (bad_message_fails p sr (pdu_id_of sr (count (sv_db s) + 4)) s1 Hk Hb) as H.
    destruct (follow_up _ _ _ _).1 as [y| |]; [by destruct (H y)|done..].
  - eapply in_timeline_get. split; [rewrite T2|rewrite T1]; apply lookup_insert_eq.
Qed.

(** The room state a server is in: the number, and what it has. *)
Definition room_has s (r : RoomId) (P : StateEventType → rstr → EventId → Prop) : Prop :=
  ∃ h l, get_room_shortstatehash r s = (Ok (Some h), s) ∧ layers s h l ∧
    ∀ t k e, state_has s (full_of l) t k e ↔ P t k e.

Lemma room_has_set s d r h l (P : StateEventType → rstr → EventId → Prop) :
  u64 h → layers s h l → (∀ t k e, state_has s (full_of l) t k e ↔ P t k e) →
  (∀ t, t ∈ [shortstatehash_statediff; statekey_shortstatekey; eventid_shorteventid] → db_map d t = db_map s t) →
  db_map d roomid_shortstatehash !! idb r = Some (to_be_bytes h) → room_has d r P.
Proof.
  intros Hu Hl HP E Hr. exists h, l. split_and!.
  - unfold get_room_shortstatehash. db_step. rewrite Hr. unfold parse_u64, lift. cbn. by rewrite u64_from_be_u64.
  - eapply layers_mono, Hl. rewrite E by by_compute. done.
  - intros t k e. rewrite <- HP. unfold state_has, entry_of. by rewrite !E by by_compute.
Qed.

Lemma state_after_iff p (P Q : StateEventType → rstr → EventId → Prop) t k e :
  (∀ t k e, P t k e ↔ Q t k e) → state_after p P t k e ↔ state_after p Q t k e.
Proof. intros H. unfold state_after. destruct (state_key p); [by case_decide|done]. Qed.

(** The auth events a lookup finds, after other lookups. *)
Lemma auth_events_seen r ty u sk c h parents types s s1 m s2 :
  Good s → looked_up s s1 → get_room_shortstatehash r s = (Ok (Some h), s) → previous_state s (Some h) parents →
  state_wf s (full_of parents) → auth_types_for_event ty u sk c = Some types →
  get_auth_events r ty u sk c s1 = (Ok m, s2) →
  ∀ t k q, m !! (t, k) = Some q ↔ (t, k) ∈ types ∧ ∃ e, state_has s (full_of parents) t k e ∧ stored_pdu s e = Some q.
Proof.
  intros G [A HG] Ho Hp Hwf Hty E t k q. destruct (HG G) as [Hc I SI Hpc].
  assert (∀ t, db_map s1 t = db_map s t) as Et by (intros x; by apply A, not_elem_of_nil).
  destruct (get_auth_events_run r ty u sk c types h parents s1 I SI Hc Hpc) as (m' & s' & E' & Hm).
  - by apply (get_room_shortstatehash_same _ _ s).
  - apply (previous_state_mono s); [|by rewrite Et|done]. by rewrite (count_frame s s1).
  - apply (state_wf_grow s); [done|by rewrite Et..].
  - done.
  - rewrite E in E'. injection E' as <- <-. rewrite Hm. unfold state_has, entry_of, stored_pdu. by rewrite !Et.
Qed.


(** An event that cannot be built, because it is not authorised, too large or
    for any other reason, leaves no trace: no tree changes, nothing is sent. *)
Theorem build_and_append_pdu_rejected b u r s :
  Good (sv_db s) → (∀ x, (create_hash_and_sign_event b u r (sv_db s)).1 ≠ Ok x) →
  let '(o, s') := build_and_append_pdu b u r s in
  (∀ e, o ≠ Ok e) ∧ (∀ t, db_map (sv_db s') t = db_map (sv_db s) t) ∧ Good (sv_db s') ∧
  h_channel (sv_handler s') = h_channel (sv_handler s) ∧ sv_admin s' = sv_admin s.
Proof.
  intros G Hf. unfold build_and_append_pdu.
  assert (looked_up (sv_db s) (create_hash_and_sign_event b u r (sv_db s)).2) as L.
  { pose proof (prepare_event_looks b u r (sv_db s)) as L. revert Hf. unfold create_hash_and_sign_event, mbind at 1 3, M_bind at 1 3.
    destruct (prepare_event b u r (sv_db s)) as [[[p js]| |] d]; [|done..]. cbn [snd fst] in L |- *.
    destruct (number_event_good (event_id p) d (proj2 L G)) as (n & d' & E & _). rewrite (bind_Ok _ _ _ _ _ E).
    intros Hf. by destruct (Hf (p, js)). }
  destruct (create_hash_and_sign_event b u r (sv_db s)) as [o d] eqn:E. cbn [fst snd] in Hf, L.
  unfold mbind, M_bind. rewrite (on_db_run _ _ _ _ E). destruct o as [x| |]; [by destruct (Hf x)|..];
    (split_and!; [done|intros t; by apply L, not_elem_of_nil|by apply L|done|done]).
Qed.

(** A soft-failed event is recorded with its state and as a forward extremity,
    and is not in the timeline: nothing that clients see changes. *)
Theorem append_incoming_soft_fail `{!Inj (=) (=) sha256} p js leaves order s :
  ShortInv (sv_db s) → StateInv (sv_db s) → count (sv_db s) + 2 < 2 ^ 64 → Forall keyed order →
  ∃ h l s' d, append_incoming_pdu p js leaves order true s = (Ok None, s') ∧
    (pdu_shortstatehash (event_id p) (sv_db s')).1 = Ok (Some h) ∧
    load_shortstatehash_info h (sv_db s') = (Ok l, d) ∧ full_of l = list_to_set order ∧
    get_forward_extremities (room_id p) (sv_db s') = (Ok (list_to_set leaves), sv_db s') ∧
    (∀ e, (get_pdu_id e (sv_db s')).1 = (get_pdu_id e (sv_db s)).1) ∧
    (∀ r, (get_room_shortstatehash r (sv_db s')).1 = (get_room_shortstatehash r (sv_db s)).1) ∧
    sv_admin s' = sv_admin s ∧ h_channel (sv_handler s') = h_channel (sv_handler s).
Proof.
  intros I SI Hc Hk. unfold append_incoming_pdu.
  destruct (set_event_state_run (event_id p) (room_id p) order (sv_db s) I SI Hc Hk)
    as (h & l & d1 & E1 & I1 & SI1 & Hps & Hl & Hf).
  rewrite (bind_Ok _ _ _ _ _ (on_db_run _ _ _ _ E1)). set (s1 := MkServer _ _).
  pose proof (preserves_inv _ _ _ _ _ (service_set_event_state_keeps _ _ _) E1) as A1.
  destruct (mark_as_referenced_run (room_id p) (prev_events p) (sv_db s1)) as (d2 & E2 & A2 & Ei2).
  rewrite (bind_Ok _ _ _ _ _ (on_db_run _ _ _ _ E2)). set (s2 := MkServer _ _).
  pose proof (set_forward_extremities_keeps (room_id p) leaves d2) as A3.
  pose proof (leaves_after_set (room_id p) leaves d2) as L3. cbn zeta in L3.
  pose proof (set_forward_extremities_run (room_id p) leaves (sv_db s2)) as E3. change (sv_db s2) with d2 in E3.
  rewrite E3 in A3, L3. cbn [snd] in A3, L3. set (d3 := put_leaves _ _ _) in *.
  rewrite (bind_Ok _ _ _ _ _ (on_db_run _ s2 _ _ E3)).
  assert (agree [referencedevents; roomid_pduleaves] d1 d3) as A13 by (agree_via A2; agree_via A3; reflexivity).
  assert (agree [global; eventid_shorteventid; shorteventid_eventid; statehash_shortstatehash; shortstatehash_statediff;
    shorteventid_shortstatehash; referencedevents; roomid_pduleaves] (sv_db s) d3) as A by (agree_via A1; agree_via A13; reflexivity).
  destruct (load_shortstatehash_info_spec d3 h l) as (c & Hld & _).
  { eapply layers_mono, Hl. rewrite A13 by by_compute. done. }
  { eapply (info_cache_same d1); [|apply A13; by_compute|apply SI1]. unfold d3, put_leaves, del_prefix. rewrite !foldl_info; done. }
  eexists h, l, _, _. split; [done|]. cbn [sv_db sv_handler h_db set_db sv_admin h_channel].
  split_and!; try done.
  - revert Hps. unfold pdu_shortstatehash. db_step. db_step. rewrite (A13 eventid_shorteventid) by by_compute.
    destruct (db_map d1 eventid_shorteventid !! _) as [v|]; [|done]. db_step. db_step. by rewrite (A13 shorteventid_shortstatehash) by by_compute.
  - apply get_leaves. exact L3.
  - intros e. unfold get_pdu_id. by rewrite !t_get_run, (A eventid_pduid) by by_compute.
  - intros r. unfold get_room_shortstatehash. db_step. db_step. by rewrite (A roomid_shortstatehash) by by_compute.
Qed.
End timeline_theorems.
