(* ===== verification/AuthChain.v ===== *)
(** * Authorisation chains ([src/database/key_value/rooms/auth_chain.rs],
    [src/service/rooms/auth_chain/mod.rs])

    The chain of an event is the set of events reachable from it through the
    [auth_events] of stored events, as short identifiers.  The search keeps a
    stack of events to visit; its loop takes fuel here, and the theorems say how
    much is enough. *)

From S2P Require Import Prelude Bytes RStr Error Utils KvTree Env Db Keys Globals Short Timeline.

Section auth_chain.
Context {Ev : Env}.
Implicit Types s : State.

(** ** The caches *)

(** [chain.chunks_exact(8)], each read as a number; a rest is ignored. *)
Fixpoint parse_chain (chain : bytes) : res (list N) :=
  match chain with
  | b0 :: b1 :: b2 :: b3 :: b4 :: b5 :: b6 :: b7 :: rest =>
      n ← expect (u64_from_bytes [b0; b1; b2; b3; b4; b5; b6; b7]) "byte length is correct";
      ns ← parse_chain rest;
      Ok (n :: ns)
  | _ => Ok []
  end.

Definition get_cached_eventid_authchain (key : list N) : DB (option (gset N)) :=
  cached ← cache_get auth_chain_cache set_auth_chain_cache key;
  match cached with
  | Some result => mret (Some result)
  | None =>
      match key with
      | [k] =>
          o ← t_get shorteventid_authchain (to_be_bytes k);
          match o with
          | Some chain =>
              ns ← lift (parse_chain chain);
              let chain : gset N := list_to_set ns in
              cache_insert auth_chain_cache set_auth_chain_cache [k] chain ;;
              mret (Some chain)
          | None => mret None
          end
      | _ => mret None
      end
  end.

(** The members of the set are written in its order of iteration. *)
Definition cache_auth_chain (key : list N) (auth_chain : gset N) : DB unit :=
  match key with
  | [k] => t_insert shorteventid_authchain (to_be_bytes k) (concat (to_be_bytes <$> elements auth_chain))
  | _ => mret ()
  end ;;
  cache_insert auth_chain_cache set_auth_chain_cache key auth_chain.

(** ** The search *)

(** One auth event: numbered, and if it is new recorded and put on the stack. *)
Definition visit (acc : gset N * list EventId) (auth_event : EventId) : DB (gset N * list EventId) :=
  sauthevent ← get_or_create_shorteventid auth_event;
  if decide (sauthevent ∈ acc.1) then mret acc
  else mret ({[sauthevent]} ∪ acc.1, auth_event :: acc.2).

(** [while let Some(event_id) = todo.pop()]; [None] when the fuel is used up.
    The head of the list is the top of the stack. *)
Fixpoint chain_loop (fuel : nat) (room : RoomId) (todo : list EventId) (found : gset N) : DB (option (gset N)) :=
  match fuel with
  | O => mret None
  | S fuel =>
      match todo with
      | [] => mret (Some found)
      | event_id :: todo =>
          r ← try_ok (get_pdu event_id);
          match r with
          | Some (Some pdu) =>
              if decide (room_id pdu = room) then
                acc ← for_fold (auth_events pdu) (found, todo) visit;
                chain_loop fuel room (snd acc) (fst acc)
              else fail (BadRequest Forbidden "Evil event in db")
          | _ => chain_loop fuel room todo found
          end
      end
  end.

Definition get_auth_chain_inner (fuel : nat) (room : RoomId) (event_id : EventId) : DB (option (gset N)) :=
  chain_loop fuel room [event_id] ∅.

(** ** Chains of several events, by buckets *)

Definition NUM_BUCKETS : N := 50.

(** [BTreeSet::insert] of a pair; the number decides the order, and equal
    numbers are compared by the event. *)
Definition pair_cmp (x y : N * EventId) : comparison :=
  match (x.1 ?= y.1)%N with Eq => bytes_cmp (idb x.2) (idb y.2) | c => c end.
Fixpoint btree_insert (x : N * EventId) (l : list (N * EventId)) : list (N * EventId) :=
  match l with
  | [] => [x]
  | y :: l' => match pair_cmp x y with Lt => x :: l | Eq => l | Gt => y :: btree_insert x l' end
  end.

Definition add_start (buckets : list (list (N * EventId))) (id : EventId) : DB (list (list (N * EventId))) :=
  short ← get_or_create_shorteventid id;
  mret (alter (btree_insert (short, id)) (N.to_nat (short mod NUM_BUCKETS)) buckets).

Definition chunk_event (fuel : nat) (room : RoomId) (chunk_cache : option (gset N)) (e : N * EventId) :
    DB (option (gset N)) :=
  match chunk_cache with
  | None => mret None
  | Some chunk_cache =>
      o ← get_cached_eventid_authchain [e.1];
      match o with
      | Some cached => mret (Some (chunk_cache ∪ cached))
      | None =>
          c ← get_auth_chain_inner fuel room e.2;
          match c with
          | Some auth_chain =>
              cache_auth_chain [e.1] auth_chain ;;
              mret (Some (chunk_cache ∪ auth_chain))
          | None => mret None
          end
      end
  end.

Definition do_chunk (fuel : nat) (room : RoomId) (full_auth_chain : option (gset N)) (chunk : list (N * EventId)) :
    DB (option (gset N)) :=
  match full_auth_chain, chunk with
  | Some full, _ :: _ =>
      let chunk_key := chunk.*1 in
      o ← get_cached_eventid_authchain chunk_key;
      match o with
      | Some cached => mret (Some (full ∪ cached))
      | None =>
          c ← for_fold chunk (Some ∅) (chunk_event fuel room);
          match c with
          | Some chunk_cache =>
              cache_auth_chain chunk_key chunk_cache ;;
              mret (Some (full ∪ chunk_cache))
          | None => mret None
          end
      end
  | _, _ => mret full_auth_chain
  end.

(** [filter_map(|sid| get_eventid_from_short(sid).ok())] *)
Definition add_event_of_short (acc : list EventId) (sid : N) : DB (list EventId) :=
  o ← try_ok (get_eventid_from_short sid);
  mret (match o with Some e => acc ++ [e] | None => acc end).

Definition get_auth_chain (fuel : nat) (room : RoomId) (starting_events : list EventId) :
    DB (option (list EventId)) :=
  buckets ← for_fold starting_events (replicate (N.to_nat NUM_BUCKETS) []) add_start;
  full ← for_fold buckets (Some ∅) (do_chunk fuel room);
  match full with
  | Some full => l ← for_fold (elements full) [] add_event_of_short; mret (Some l)
  | None => mret None
  end.

(** ** Theorems on the caches *)

Lemma parse_chain_concat ns : Forall u64 ns → parse_chain (concat (to_be_bytes <$> ns)) = Ok ns.
Proof.
  induction 1 as [|n ns Hn _ IH]; [done|]. cbn [fmap list_fmap concat].
  pose proof (length_to_be_bytes n) as Hl. pose proof (u64_from_be_u64 n Hn) as Hf.
  destruct (to_be_bytes n) as [|b0 [|b1 [|b2 [|b3 [|b4 [|b5 [|b6 [|b7 [|? ?]]]]]]]]]; try done.
  cbn [app parse_chain]. rewrite Hf. cbn [expect mbind res_bind]. by rewrite IH.
Qed.

(** The chain of a single event that was cached is found again, also when
    the memory cache has been emptied and only the database is left. *)
Theorem auth_chain_cache_roundtrip k chain s cap :
  (∀ n, n ∈ chain → u64 n) →
  ∃ s', cache_auth_chain [k] chain s = (Ok (), s') ∧
    (get_cached_eventid_authchain [k] (set_auth_chain_cache (lru_new cap) s')).1 = Ok (Some chain) ∧
    ∀ k', u64 k → u64 k' → k' ≠ k →
      (get_cached_eventid_authchain [k'] (set_auth_chain_cache (lru_new cap) s')).1 =
      (get_cached_eventid_authchain [k'] (set_auth_chain_cache (lru_new cap) s)).1.
Proof.
  intros Hu. unfold cache_auth_chain. db_step. eexists. split; [done|]. split.
  - unfold get_cached_eventid_authchain. erewrite bind_Ok by apply cache_get_run. cbn [auth_chain_cache set_auth_chain_cache].
    rewrite lru_peek_new. db_step. db_simpl. rewrite lookup_insert_eq, parse_chain_concat.
    + rewrite bind_lift_Ok. cbn. by rewrite list_to_set_elements_L.
    + apply Forall_forall. intros n Hn%elem_of_elements. auto.
  - intros k' Hk Hk' Hne. unfold get_cached_eventid_authchain. erewrite !bind_Ok by apply cache_get_run.
    cbn [auth_chain_cache set_auth_chain_cache]. rewrite !lru_peek_new. unfold mbind, M_bind. rewrite !t_get_run.
    db_simpl. rewrite lookup_insert_ne by (by intros ?%to_be_bytes_inj).
    destruct (_ !! _) as [b|]; [|done]. unfold lift. by destruct (parse_chain b).
Qed.
End auth_chain.

(** ** The search finds the transitive closure *)

Section closure.
Context {Ev : Env} (s0 : State).
Implicit Types (s : State) (F : gset EventId).

(** The edges of the graph: the auth events of the stored events. *)
Definition auth_edge (e e' : EventId) : Prop :=
  ∃ p, stored_pdu s0 e = Some p ∧ e' ∈ auth_events p.

(** The states the search goes through: new numbers and cache contents only. *)
Record SearchState s : Prop := {
  ss_short : ShortInv s;
  ss_pdus : pdu_cache_ok s;
  ss_stored e : stored_pdu s e = stored_pdu s0 e;
}.

Definition short_of s (e : EventId) (n : N) : Prop :=
  db_map s eventid_shorteventid !! idb e = Some (to_be_bytes n) ∧ u64 n.

Lemma short_of_inj s e e' n : ShortInv s → short_of s e n → short_of s e' n → e = e'.
Proof.
  intros HI [H _] [H' _]. apply (inj idb). by eapply numbering_inj; [apply inv_events|..].
Qed.
Lemma short_of_fun s e n n' : short_of s e n → short_of s e n' → n = n'.
Proof. intros [H Hn] [H' Hn']. rewrite H in H'. apply (inj Some) in H'. by apply to_be_bytes_inj in H'. Qed.

(** The numbers of a set of events. *)
Definition numbers s F (found : gset N) : Prop :=
  (∀ e, e ∈ F → ∃ n, short_of s e n) ∧ ∀ n, n ∈ found ↔ ∃ e, e ∈ F ∧ short_of s e n.

Lemma stored_frame ts s s' :
  frame ts s s' → eventid_pduid ∉ ts → pduid_pdu ∉ ts → eventid_outlierpdu ∉ ts →
  ∀ e, stored_pdu s' e = stored_pdu s e.
Proof. intros Hf H1 H2 H3 e. unfold stored_pdu. by rewrite !(fr_trees _ _ _ Hf). Qed.

Lemma numbered_search e n s s' :
  SearchState s → event_numbered e n s s' → SearchState s' ∧ short_of s' e n ∧
    ∀ e' n', short_of s e' n' → short_of s' e' n'.
Proof.
  intros [HI Hp Hs] (HI' & Hg & _ & H1 & Hn & He). destruct Hg as [Hf _ Hsub _ _ _].
  assert (∀ e, stored_pdu s' e = stored_pdu s e) as Hst
    by (apply (stored_frame short_trees); [done|unfold short_trees; set_solver..]).
  split_and!.
  - split; [done|..|by intros; rewrite Hst].
    intros e' p. rewrite (fr_pdu _ _ _ Hf), Hst. apply Hp.
  - split; [done|]. unfold u64. pose proof (count_u64 s'). unfold u64 in *. lia.
  - intros e' n' [H ?]. split; [|done]. by eapply lookup_weaken.
Qed.

Lemma numbers_extend s s' F found e n :
  numbers s F found → ShortInv s' → (∀ e' n', short_of s e' n' → short_of s' e' n') → short_of s' e n →
  numbers s' ({[e]} ∪ F) ({[n]} ∪ found).
Proof.
  intros [HF Hf] HI Hm He. split.
  - intros e' [->%elem_of_singleton|H]%elem_of_union; [eauto|]. destruct (HF e' H) as [n' Hn']. eauto.
  - intros n'. rewrite elem_of_union, elem_of_singleton, Hf. split.
    + intros [->|(e' & ? & ?)]; [exists e|exists e']; (split; [apply elem_of_union|]); eauto.
      * left. by apply elem_of_singleton.
    + intros (e' & [->%elem_of_singleton|H]%elem_of_union & Hn'); [left; by eapply short_of_fun|right].
      exists e'. split; [done|]. destruct (HF e' H) as [n'' Hn'']. by rewrite (short_of_fun s' e' n' n'') by eauto.
Qed.

Lemma union_swap (e : EventId) L F : {[e]} ∪ L ∪ F = L ∪ ({[e]} ∪ F).
Proof. clear s0. set_solver. Qed.

(** The auth events of one event. *)
Lemma visit_all l F found todo s :
  SearchState s → numbers s F found → count s + N.of_nat (length l) < 2 ^ 64 →
  ∃ found' new s', for_fold l (found, todo) visit s = (Ok (found', new ++ todo), s') ∧ SearchState s' ∧
    numbers s' (list_to_set l ∪ F) found' ∧ count s' ≤ count s + N.of_nat (length l) ∧
    (∀ e' n', short_of s e' n' → short_of s' e' n') ∧
    NoDup new ∧ ∀ e, e ∈ new ↔ e ∈ l ∧ e ∉ F.
Proof.
  revert F found todo s. induction l as [|e l IH]; intros F found todo s HS HN Hc; cbn [for_fold].
  { exists found, [], s. rewrite list_to_set_nil, (left_id_L ∅ (∪)). split_and!; try done; [lia|constructor|].
    intros e. split; [by intros ?%not_elem_of_nil|]. by intros [?%not_elem_of_nil _]. }
  cbn [length] in Hc. destruct (get_or_create_shorteventid_spec e s (ss_short s HS)) as (n & s1 & E & Hn);
    [unfold count_ok; lia|].
  destruct (numbered_search e n s s1 HS Hn) as (HS1 & He & Hm). pose proof Hn as (_ & _ & Hc1 & _).
  assert (numbers s1 ({[e]} ∪ F) ({[n]} ∪ found)) as HN1 by (eapply numbers_extend; eauto; apply HS1).
  unfold visit at 2. assert (e ∈ F ↔ n ∈ found) as HeF.
  { destruct HN as [HF Hf]. rewrite Hf. split.
    - intros HeF. destruct (HF e HeF) as [n' Hn']. exists e. split; [done|]. by rewrite (short_of_fun s1 e n n') by eauto.
    - intros (e' & He' & Hs). by rewrite (short_of_inj s1 e e' n) by (eauto; apply HS1). }
  destruct (decide (n ∈ found)) as [Hin|Hin].
  - assert ({[e]} ∪ F = F) as EF by (apply subseteq_union_1_L, singleton_subseteq_l; tauto).
    assert ({[n]} ∪ found = found) as Efd by (apply subseteq_union_1_L, singleton_subseteq_l; done).
    rewrite EF, Efd in HN1.
    destruct (IH F found todo s1) as (f' & new & s' & E' & HS' & HN' & Hc' & Hm' & Hnd & Hnew); [done..|lia|].
    exists f', new, s'. split_and!; [|done|..|cbn [length]; lia|eauto|done|].
    + erewrite bind_Ok by (rewrite (bind_Ok _ _ _ _ _ E); cbn [fst]; rewrite decide_True by done; done). done.
    + by rewrite list_to_set_cons, union_swap, EF.
    + intros x. rewrite Hnew, elem_of_cons. split; [tauto|]. intros [[->|?] ?]; tauto.
  - destruct (IH ({[e]} ∪ F) ({[n]} ∪ found) (e :: todo) s1)
      as (f' & new & s' & E' & HS' & HN' & Hc' & Hm' & Hnd & Hnew); [done..|lia|].
    exists f', (new ++ [e]), s'. split_and!; [|done|..|cbn [length]; lia|eauto| |].
    + erewrite bind_Ok by (rewrite (bind_Ok _ _ _ _ _ E); cbn [fst]; rewrite decide_False by done; done).
      rewrite <- app_assoc. done.
    + by rewrite list_to_set_cons, union_swap.
    + apply NoDup_app. split_and!; [done|..|apply NoDup_singleton]. intros x [_ Hx]%Hnew ->%list_elem_of_singleton.
      apply Hx, elem_of_union. left. by apply elem_of_singleton.
    + intros x. rewrite elem_of_app, list_elem_of_singleton, Hnew, elem_of_cons, elem_of_union, elem_of_singleton.
      destruct (decide (x = e)) as [->|]; tauto.
Qed.

(** A finite set of events that has the auth events of its members, all of the
    room; at most [d] auth events each. *)
Context (room : RoomId) (A : gset EventId) (d : nat).
Record Bounded : Prop := {
  bd_room e p : e ∈ A → stored_pdu s0 e = Some p → room_id p = room;
  bd_closed e e' : e ∈ A → auth_edge e e' → e' ∈ A;
  bd_degree e p : e ∈ A → stored_pdu s0 e = Some p → (length (auth_events p) ≤ d)%nat;
}.

(** Visiting an event moves its new auth events from the rest of [A] to the stack. *)
Lemma visit_measure (l new : list EventId) F :
  NoDup new → (∀ e, e ∈ new ↔ e ∈ l ∧ e ∉ F) → (∀ e, e ∈ l → e ∈ A) →
  (size (A ∖ (list_to_set l ∪ F)) + length new ≤ size (A ∖ F))%nat.
Proof.
  intros Hnd Hnew HA. rewrite <- (size_list_to_set (C := gset EventId) new) by done.
  rewrite <- size_union.
  - apply subseteq_size. intros x [H|H%elem_of_list_to_set]%elem_of_union.
    + apply elem_of_difference in H as [? Hn]. apply elem_of_difference. split; [done|]. intros ?. apply Hn.
      apply elem_of_union. by right.
    + apply Hnew in H as [??]. apply elem_of_difference. auto.
  - intros x [_ Hn]%elem_of_difference H%elem_of_list_to_set. apply Hnew in H as [? _]. apply Hn.
    apply elem_of_union. left. by apply elem_of_list_to_set.
Qed.

Lemma set_pdu_cache_search c s : SearchState s → pdu_cache_ok (set_pdu_cache c s) → SearchState (set_pdu_cache c s).
Proof. intros [[] Hp Hs] Hp'. split; [|done|done]. split; done. Qed.

(** What the loop reaches from its stack. *)
Definition reaches (todo : list EventId) F F' : Prop :=
  F ⊆ F' ∧ (∀ e, e ∈ F' → e ∈ F ∨ ∃ e0, e0 ∈ todo ∧ tc auth_edge e0 e) ∧
  ∀ e e', e ∈ todo ∨ (e ∈ F' ∧ e ∉ F) → auth_edge e e' → e' ∈ F'.

Lemma reaches_visit e p todo new F F' :
  stored_pdu s0 e = Some p → (∀ x, x ∈ new ↔ x ∈ auth_events p ∧ x ∉ F) →
  reaches (new ++ todo) (list_to_set (auth_events p) ∪ F) F' → reaches (e :: todo) F F'.
Proof.
  intros Hp Hnew (Hsub & Hreach & Hclosed).
  assert (∀ x, x ∈ auth_events p → x ∈ F') as Hl
    by (intros x Hx; apply Hsub, elem_of_union; left; by apply elem_of_list_to_set).
  assert (∀ x, x ∈ auth_events p → auth_edge e x) as He by (intros; by exists p).
  split_and!.
  - intros x Hx. apply Hsub, elem_of_union. by right.
  - intros x [[?%elem_of_list_to_set|?]%elem_of_union|(e0 & [Hn|Ht]%elem_of_app & Htc)]%Hreach; [|by left|..].
    + right. exists e. split; [by left|]. by apply tc_once, He.
    + right. exists e. split; [by left|]. apply Hnew in Hn as [? _]. eapply tc_l; eauto.
    + right. exists e0. split; [by right|done].
  - intros x e' [[->|Hx]%elem_of_cons|[Hx HxF]] Hedge.
    + destruct Hedge as (p' & Hp' & ?). rewrite Hp in Hp'. injection Hp' as <-. by apply Hl.
    + eapply Hclosed; [|done]. left. apply elem_of_app. by right.
    + eapply Hclosed; [|done]. destruct (decide (x ∈ auth_events p)) as [?|Hn].
      * left. apply elem_of_app. left. by apply Hnew.
      * right. split; [done|]. intros [?%elem_of_list_to_set|?]%elem_of_union; done.
Qed.

Lemma reaches_skip e todo F F' : stored_pdu s0 e = None → reaches todo F F' → reaches (e :: todo) F F'.
Proof.
  intros Hp (Hsub & Hreach & Hclosed). split_and!; [done|..].
  - intros x [?|(e0 & ? & ?)]%Hreach; [by left|right]. exists e0. split; [by right|done].
  - intros x e' [[->|Hx]%elem_of_cons|Hx] Hedge; [|eauto..]. destruct Hedge as (p & Hp' & _). congruence.
Qed.

Lemma chain_loop_spec (HB : Bounded) fuel todo F found s :
  SearchState s → numbers s F found → (∀ e, e ∈ todo → e ∈ A) →
  (size (A ∖ F) + length todo < fuel)%nat → count s + N.of_nat (fuel * d) < 2 ^ 64 →
  ∃ F' found' s', chain_loop fuel room todo found s = (Ok (Some found'), s') ∧ SearchState s' ∧
    numbers s' F' found' ∧ reaches todo F F'.
Proof.
  revert todo F found s. induction fuel as [|fuel IH]; intros todo F found s HS HN HA Hfuel Hc; [lia|].
  cbn [chain_loop]. destruct todo as [|e todo].
  { exists F, found, s. split_and!; [done..|]. split_and!; [done|by left|].
    intros ? ? [?%not_elem_of_nil|[? ?]]; done. }
  assert (e ∈ A) as HeA by (apply HA; by left). cbn [length Nat.mul] in *.
  destruct (get_pdu_run e s (ss_pdus s HS)) as (r & c & Eg & Hp & Hr). rewrite (ss_stored s HS) in Hr.
  pose proof (set_pdu_cache_search c s HS Hp) as HS1.
  destruct (stored_pdu s0 e) as [p|] eqn:Est.
  - subst r. erewrite bind_Ok by (unfold try_ok; rewrite Eg; done). cbv beta iota.
    rewrite decide_True by (by eapply bd_room). pose proof (bd_degree HB e p HeA Est).
    destruct (visit_all (auth_events p) F found todo (set_pdu_cache c s))
      as (f1 & new & s1 & Ev1 & HS' & HN' & Hc1 & _ & Hnd & Hnew); [done..|db_simpl; lia|].
    rewrite (bind_Ok _ _ _ _ _ Ev1). cbn [fst snd]. db_simpl.
    assert (∀ x, x ∈ auth_events p → x ∈ A) as HpA by (intros x Hx; eapply (bd_closed HB e); [done|by exists p]).
    pose proof (visit_measure (auth_events p) new F Hnd Hnew HpA).
    destruct (IH (new ++ todo) (list_to_set (auth_events p) ∪ F) f1 s1) as (F' & f' & s' & E' & ? & ? & Hre); [done..| | |lia|].
    + intros x [[? _]%Hnew|Hx]%elem_of_app; [auto|]. apply HA. by right.
    + rewrite length_app. lia.
    + exists F', f', s'. split_and!; [done..|]. by eapply reaches_visit.
  - destruct (IH todo F found (set_pdu_cache c s)) as (F' & f' & s' & E' & ? & ? & Hre);
      [done|done|intros; apply HA; by right|lia|db_simpl; lia|].
    exists F', f', s'. split_and!; [|done..|by apply reaches_skip].
    destruct Hr as [->|[x ->]]; (erewrite bind_Ok by (unfold try_ok; rewrite Eg; done)); done.
Qed.

(** C5: given a little more fuel than there are events, the search ends without
    error and finds exactly the events reachable from the start through one or
    more auth edges, also in a graph with cycles. *)
Theorem get_auth_chain_inner_correct fuel e :
  Bounded → ShortInv s0 → pdu_cache_ok s0 → e ∈ A →
  (size A + 1 < fuel)%nat → count s0 + N.of_nat (fuel * d) < 2 ^ 64 →
  ∃ found s', get_auth_chain_inner fuel room e s0 = (Ok (Some found), s') ∧
    (∀ e', tc auth_edge e e' → ∃ n, short_of s' e' n) ∧
    ∀ n, n ∈ found ↔ ∃ e', tc auth_edge e e' ∧ short_of s' e' n.
Proof.
  intros HB HI Hp He Hfuel Hc. unfold get_auth_chain_inner.
  destruct (chain_loop_spec HB fuel [e] ∅ ∅ s0) as (F & found & s' & E & HS & [HF Hf] & Hsub & Hreach & Hcl); [done|..].
  - split; [by intros ? ?%not_elem_of_empty|]. intros n. split; [by intros ?%not_elem_of_empty|].
    by intros (? & ?%not_elem_of_empty & _).
  - by intros ? ->%list_elem_of_singleton.
  - rewrite difference_empty_L. cbn [length]. lia.
  - lia.
  - assert (∀ e', e' ∈ F ↔ tc auth_edge e e') as HFe.
    { intros e'. split.
      - intros [?%not_elem_of_empty|(e0 & ->%list_elem_of_singleton & ?)]%Hreach; done.
      - assert (∀ z, auth_edge e z → z ∈ F) as Hz by (intros z; apply Hcl; left; by left).
        assert (∀ x w, x ∈ F → auth_edge x w → w ∈ F) as Hw
          by (intros x w Hx; apply Hcl; right; split; [done|apply not_elem_of_empty]).
        intros Htc. clear -Htc Hz Hw. induction Htc as [x y Hx|x y z Hx _ IH]; [by apply Hz|]. apply IH. eauto. }
    exists found, s'. split_and!; [done|..].
    + intros e' ?%HFe. auto.
    + intros n. rewrite Hf. by setoid_rewrite HFe.
Qed.
End closure.
