(* ===== verification/Federation.v ===== *)
(** * Other servers, chance and time ([src/database/key_value/globals.rs],
    [src/service/globals/mod.rs], [src/service/rooms/event_handler/mod.rs])

    What the server asks the outside for: answers of other servers, random
    strings and the clock.  [Outside] collects them behind an abstract state that
    every question may change, so that nothing is assumed of remote servers.
    [Node] is a running server: its database and tasks, the rate limits and the
    keys it has gathered, and the outside.  The file also has the store of the
    signing keys of other servers and the search for a missing key. *)

From S2P Require Import Prelude Bytes RStr Error Utils KvTree Env Db Keys Globals Frames EventFormat LazyLoading SendingService TimelineService.

(** ** Signing keys *)

(** The text of a [ServerSigningKeyId] and of a key in Base64. *)
Abbreviation KeyId := rstr (only parsing).
Abbreviation Base64 := rstr (only parsing).
Abbreviation VerifyKeys := (list (KeyId * Base64)).

(** ruma's [ServerSigningKeys]; an old key has the time of its expiry. *)
Record ServerSigningKeys `{!Ruma} := MkSigningKeys {
  sk_server_name : ServerName;
  sk_verify_keys : VerifyKeys;
  sk_old_verify_keys : list (KeyId * (N * Base64));
  sk_signatures : list (rstr * json);
  sk_valid_until_ts : N
}.

(** [BTreeMap::extend]. *)
Definition obj_extend {V} (l l' : list (rstr * V)) : list (rstr * V) := foldl (λ m e, obj_insert e.1 e.2 m) l l'.

(** ** Requests to other servers, with the part of the answer the code reads *)

Section outside.
Context {Ev : Env}.

(** The directory of public rooms: a room, a filter and a page. *)
Inductive PublicRoomJoinRule := PublicRoom | KnockRoom.
Record PublicRoomsChunk := MkChunk {
  ch_canonical_alias : option RoomAliasId;
  ch_name : option rstr;
  ch_num_joined_members : N;
  ch_topic : option rstr;
  ch_world_readable : bool;
  ch_guest_can_join : bool;
  ch_avatar_url : option rstr;
  ch_join_rule : PublicRoomJoinRule;
  ch_room_type : option rstr;
  ch_room_id : RoomId
}.
Record DirectoryFilter := MkDirectoryFilter { df_generic_search_term : option rstr; df_room_types : list (option rstr) }.
Record PublicRooms := MkPublicRooms {
  pr_chunk : list PublicRoomsChunk;
  pr_prev_batch : option rstr;
  pr_next_batch : option rstr;
  pr_total_room_count_estimate : option N
}.

(** A media file. *)
Record Content := MkContent {
  ct_file : bytes;
  ct_content_type : option rstr;
  ct_content_disposition : option rstr
}.

Inductive FedRequest : Type → Type :=
  | GetEvent (event_id : EventId) : FedRequest Raw
  | GetRoomStateIds (room_id : RoomId) (event_id : EventId) : FedRequest (list EventId)
  | GetServerKeys : FedRequest Raw
  | GetRemoteServerKeys (server : ServerName) (minimum_valid_until_ts : N) : FedRequest (list Raw)
  | GetRemoteServerKeysBatch (server_keys : list ServerName) : FedRequest (list Raw)
  (** the room version and the template of the event *)
  | MakeJoin (room_id : RoomId) (user_id : UserId) (ver : list rstr) : FedRequest (option rstr * Raw)
  | MakeLeave (room_id : RoomId) (user_id : UserId) : FedRequest (option rstr * Raw)
  (** the state, the auth chain and the event signed by the server *)
  | SendJoin (room_id : RoomId) (event_id : EventId) (pdu : Raw) : FedRequest (list Raw * list Raw * option Raw)
  | SendLeave (room_id : RoomId) (event_id : EventId) (pdu : Raw) : FedRequest unit
  | CreateInvite (room_id : RoomId) (event_id : EventId) (room_version : rstr) (event : Raw) (invite_room_state : list Raw) :
      FedRequest Raw
  | GetRoomInformation (room_alias : RoomAliasId) : FedRequest (RoomId * list ServerName)
  (** display name, avatar and blurhash *)
  | GetProfileInformation (user_id : UserId) (field : option rstr) : FedRequest (option rstr * option rstr * option rstr)
  (** master keys, self-signing keys and device keys *)
  | GetKeys (device_keys : list (UserId * list DeviceId)) :
      FedRequest (gmap UserId Raw * gmap UserId Raw * gmap UserId (gmap DeviceId Raw))
  | ClaimKeys (one_time_keys : list (UserId * list (DeviceId * rstr))) :
      FedRequest (gmap UserId (gmap DeviceId (gmap DeviceKeyId Raw)))
  | GetPublicRoomsFiltered (limit : option N) (since : option rstr) (filter : DirectoryFilter) : FedRequest PublicRooms
  | GetContent (server : ServerName) (media_id : rstr) : FedRequest Content
  | GetContentThumbnail (server : ServerName) (media_id : rstr) (method : option rstr) (width height : N) : FedRequest Content
  (** a transaction; the answer says of each event whether it was accepted *)
  | SendTransaction (origin : ServerName) (pdus : list Raw) (edus : list json) (origin_server_ts : N) (transaction_id : rstr) :
      FedRequest (list (EventId * bool)).

(** [send_federation_request], [random_string] of a length, and the clock. *)
Class Outside := {
  World : Type;
  world_send : ∀ {A}, ServerName → FedRequest A → World → (A + Error) * World;
  world_random : N → World → rstr * World;
  (** [query_room_alias] to an appservice: does it know the alias, and what has it
      done on this server in the meantime *)
  world_appservice : json → RoomAliasId → World → bool * (ServerState → ServerState) * World;
  world_clock : World → N;
  env_signing :: Serde ServerSigningKeys;
  (** the configuration *)
  trusted_servers : list ServerName;
}.
End outside.

(** ** A running server *)

Section node.
Context {Ev : Env} {Out : Outside}.

(** The time of the last failed try and the number of failed tries. *)
Abbreviation RateLimitState := (N * N)%type.

(** [nd_pub_key_map] is the map of keys of the request that is being handled,
    which the functions share through a lock; [nd_lazy] is [lazy_load_waiting]. *)
Record Node := MkNode {
  nd_server : ServerState;
  nd_world : World;
  bad_event_ratelimiter : gmap EventId RateLimitState;
  bad_signature_ratelimiter : gmap (list KeyId) RateLimitState;
  roomid_federationhandletime : gmap RoomId (EventId * N);
  nd_pub_key_map : list (rstr * VerifyKeys);
  nd_lazy : gmap (UserId * DeviceId * RoomId * N) (gset UserId)
}.
Definition set_server (x : ServerState) (n : Node) : Node :=
  MkNode x (nd_world n) (bad_event_ratelimiter n) (bad_signature_ratelimiter n) (roomid_federationhandletime n) (nd_pub_key_map n) (nd_lazy n).
Definition set_world (x : World) (n : Node) : Node :=
  MkNode (nd_server n) x (bad_event_ratelimiter n) (bad_signature_ratelimiter n) (roomid_federationhandletime n) (nd_pub_key_map n) (nd_lazy n).
Definition set_bad_event (x : gmap EventId RateLimitState) (n : Node) : Node :=
  MkNode (nd_server n) (nd_world n) x (bad_signature_ratelimiter n) (roomid_federationhandletime n) (nd_pub_key_map n) (nd_lazy n).
Definition set_bad_signature (x : gmap (list KeyId) RateLimitState) (n : Node) : Node :=
  MkNode (nd_server n) (nd_world n) (bad_event_ratelimiter n) x (roomid_federationhandletime n) (nd_pub_key_map n) (nd_lazy n).
Definition set_handletime (x : gmap RoomId (EventId * N)) (n : Node) : Node :=
  MkNode (nd_server n) (nd_world n) (bad_event_ratelimiter n) (bad_signature_ratelimiter n) x (nd_pub_key_map n) (nd_lazy n).
Definition set_pub_key_map (x : list (rstr * VerifyKeys)) (n : Node) : Node :=
  MkNode (nd_server n) (nd_world n) (bad_event_ratelimiter n) (bad_signature_ratelimiter n) (roomid_federationhandletime n) x (nd_lazy n).
Definition set_lazy (x : gmap (UserId * DeviceId * RoomId * N) (gset UserId)) (n : Node) : Node :=
  MkNode (nd_server n) (nd_world n) (bad_event_ratelimiter n) (bad_signature_ratelimiter n) (roomid_federationhandletime n) (nd_pub_key_map n) x.

Definition nd_db (n : Node) : State := sv_db (nd_server n).
Abbreviation NM := (M Node).

Definition on_server {A} (m : SM A) : NM A := λ n,
  let '(r, s) := m (nd_server n) in (r, set_server s n).
Definition ondb {A} (m : DB A) : NM A := on_server (on_db m).
(** The lazy loading service: the database and the members waiting for delivery. *)
Definition on_lazy {A} (m : M LazyState A) : NM A := λ n,
  let '(r, l) := m (MkLazy (nd_db n) (nd_lazy n)) in
  let h := sv_handler (nd_server n) in
  (r, set_lazy (lazy_load_waiting l) (set_server (MkServer (set_db (ll_db l) h) (sv_admin (nd_server n))) n)).

(** [Instant::now()] *)
Definition instant_now : NM N := gets (λ n, now (nd_db n)).

(** Time passes while an answer is awaited. *)
Definition set_clock (t : N) (s : ServerState) : ServerState :=
  let h := sv_handler s in MkServer (set_db (set_now (N.max (now (h_db h)) t) (h_db h)) h) (sv_admin s).
Definition send_federation_request {A} (destination : ServerName) (request : FedRequest A) : NM A := λ n,
  let '(r, w) := world_send destination request (nd_world n) in
  (match r with inl a => Ok a | inr e => Err e end,
   set_server (set_clock (world_clock w) (nd_server n)) (set_world w n)).
Definition send_appservice_query (registration : json) (room_alias : RoomAliasId) : NM bool := λ n,
  let '(known, act, w) := world_appservice registration room_alias (nd_world n) in
  (Ok known, set_server (act (nd_server n)) (set_world w n)).
Definition random_string (length : N) : NM rstr := λ n,
  let '(r, w) := world_random length (nd_world n) in (Ok r, set_world w n).

(** [match .. { Ok(a) => .., Err(e) => .. }] around a call. *)
Definition catch {S A} (m : M S A) : M S (A + Error) := λ s,
  match m s with
  | (Ok a, s') => (Ok (inl a), s')
  | (Err e, s') => (Ok (inr e), s')
  | (Panic p, s') => (Panic p, s')
  end.

(** A loop of the model has used up its fuel. *)
Definition out_of_fuel {A} : NM A := lift (Panic "out of fuel").

(** ** Rate limits *)

(** [Duration::from_secs(base) * tries * tries], at most a day: is the entry
    younger? *)
Definition backing_off (base : N) (entry : option RateLimitState) : NM bool :=
  match entry with
  | Some (time, tries) =>
      t ← instant_now;
      if bool_decide (base * tries * tries < 2 ^ 64) then
        mret (bool_decide (t - time < 1000 * N.min (base * tries * tries) DAY))
      else lift (Panic "overflow when multiplying duration by scalar")
  | None => mret false
  end.

(** The entry after another failure. *)
Definition failed_again (t : N) (entry : option RateLimitState) : RateLimitState :=
  match entry with
  | None => (t, 1)
  | Some (_, tries) => (t, tries + 1)
  end.
Definition back_off_event (id : EventId) : NM unit :=
  t ← instant_now;
  modify (λ n, set_bad_event (<[id := failed_again t (bad_event_ratelimiter n !! id)]> (bad_event_ratelimiter n)) n).
Definition back_off_signature (ids : list KeyId) : NM unit :=
  t ← instant_now;
  modify (λ n, set_bad_signature (<[ids := failed_again t (bad_signature_ratelimiter n !! ids)]> (bad_signature_ratelimiter n)) n).

(** ** The keys of other servers *)

(** The verify keys with the old ones on top. *)
Definition all_keys (keys : ServerSigningKeys) : VerifyKeys :=
  obj_extend (sk_verify_keys keys) ((λ old, (old.1, old.2.2)) <$> sk_old_verify_keys keys).

Definition add_signing_key (origin : ServerName) (new_keys : ServerSigningKeys) : DB VerifyKeys :=
  signingkeys ← t_get server_signingkeys (idb origin);
  t ← gets now;
  let keys := default (MkSigningKeys _ origin [] [] [] t) (signingkeys ≫= from_slice) in
  let keys := MkSigningKeys _ (sk_server_name keys)
    (obj_extend (sk_verify_keys keys) (sk_verify_keys new_keys))
    (obj_extend (sk_old_verify_keys keys) (sk_old_verify_keys new_keys))
    (sk_signatures keys) (sk_valid_until_ts keys) in
  t_insert server_signingkeys (idb origin) (to_vec keys) ;;
  mret (all_keys keys).

Definition signing_keys_for (origin : ServerName) : DB VerifyKeys :=
  bytes ← t_get server_signingkeys (idb origin);
  mret (from_option all_keys [] (bytes ≫= from_slice)).

(** ** Looking for keys *)

Definition contains_all_ids (signature_ids : list KeyId) (keys : VerifyKeys) : bool :=
  forallb (λ id, bool_decide (is_Some (obj_get id keys))) signature_ids.

(** [result.extend(verify_keys); result.extend(old_verify_keys)] *)
Definition extend_keys (result : VerifyKeys) (k : ServerSigningKeys) : VerifyKeys :=
  obj_extend (obj_extend result (sk_verify_keys k)) ((λ old, (old.1, old.2.2)) <$> sk_old_verify_keys k).

Definition deserialize {A} `{!Serde A} (r : Raw) : option A := from_slice (raw_text r).

(** The loop over the trusted servers; [None] when none had the keys. *)
Fixpoint ask_trusted (origin : ServerName) (signature_ids : list KeyId) (servers : list ServerName)
    (result : VerifyKeys) : NM (option VerifyKeys) :=
  match servers with
  | [] => mret None
  | server :: servers =>
      t ← instant_now;
      resp ← try_ok (send_federation_request server (GetRemoteServerKeys origin (t + 1000 * 3600)));
      match resp with
      | Some server_keys =>
          result ← for_fold (filter_map deserialize server_keys) result (λ result k,
            ondb (add_signing_key origin k) ;; mret (extend_keys result k));
          if contains_all_ids signature_ids result then mret (Some result)
          else ask_trusted origin signature_ids servers result
      | None => ask_trusted origin signature_ids servers result
      end
  end.

Definition fetch_signing_keys (origin : ServerName) (signature_ids : list KeyId) : NM VerifyKeys :=
  entry ← gets (λ n, bad_signature_ratelimiter n !! signature_ids);
  wait ← backing_off 30 entry;
  if (wait : bool) then fail (BadServerResponse "bad signature, still backing off")
  else
    result ← ondb (signing_keys_for origin);
    if contains_all_ids signature_ids result then mret result
    else
      resp ← try_ok (send_federation_request origin GetServerKeys);
      result ← match resp ≫= deserialize with
               | Some server_key =>
                   ondb (add_signing_key origin server_key) ;; mret (extend_keys result server_key)
               | None => mret result
               end;
      if contains_all_ids signature_ids result then mret result
      else
        o ← ask_trusted origin signature_ids trusted_servers result;
        match o with
        | Some result => mret result
        | None =>
            back_off_signature signature_ids ;;
            fail (BadServerResponse "Failed to find public key for server")
        end.
End node.
Abbreviation NM := (M Node).

(** ** Lemmas *)

Section objects.
Context {V : Type}.
Implicit Types l : list (rstr * V).

Lemma obj_get_extend k l l' :
  obj_get k (obj_extend l l') = match obj_get k (reverse l') with Some v => Some v | None => obj_get k l end.
Proof.
  unfold obj_extend. revert l. induction l' as [|[k' v'] l' IH] using rev_ind; intros l; [done|].
  rewrite foldl_app, reverse_snoc. cbn. rewrite obj_get_insert, IH. by case_decide.
Qed.
Lemma obj_get_is_Some k l : is_Some (obj_get k l) ↔ k ∈ l.*1.
Proof.
  induction l as [|[k' v'] l IH]; cbn.
  - split; [by intros []|by intros ?%not_elem_of_nil].
  - rewrite elem_of_cons, <- IH. case_decide; split; naive_solver.
Qed.
Lemma obj_extend_is_Some k l l' : is_Some (obj_get k (obj_extend l l')) ↔ k ∈ l.*1 ∨ k ∈ l'.*1.
Proof.
  assert (k ∈ l'.*1 ↔ k ∈ (reverse l').*1) as -> by (by rewrite fmap_reverse, elem_of_reverse).
  rewrite <- !obj_get_is_Some, obj_get_extend.
  destruct (obj_get k (reverse l')); naive_solver.
Qed.
End objects.

Section node_lemmas.
Context {Ev : Env} {Out : Outside}.
Implicit Types n : Node.

Definition with_db (d : State) n : Node :=
  set_server (MkServer (set_db d (sv_handler (nd_server n))) (sv_admin (nd_server n))) n.

Lemma ondb_run {A} (m : DB A) n r d : m (nd_db n) = (r, d) → ondb m n = (r, with_db d n).
Proof. intros E. unfold ondb, on_server. by rewrite (on_db_run _ _ _ _ E). Qed.
Lemma ondb_inv {A} (m : DB A) n r n' : ondb m n = (r, n') → ∃ d, m (nd_db n) = (r, d) ∧ n' = with_db d n.
Proof.
  intros E. destruct (m (nd_db n)) as [r' d] eqn:Em. rewrite (ondb_run _ _ _ _ Em) in E.
  injection E as -> <-. eauto.
Qed.

(** The trees outside [ts] and the records of the requests being handled are the
    same; time does not run backwards. *)
Record quiet (ts : list TreeId) n n' : Prop := {
  quiet_db : agree ts (nd_db n) (nd_db n');
  quiet_now : now (nd_db n) ≤ now (nd_db n');
  quiet_event : bad_event_ratelimiter n' = bad_event_ratelimiter n;
  quiet_signature : bad_signature_ratelimiter n' = bad_signature_ratelimiter n;
  quiet_keys : nd_pub_key_map n' = nd_pub_key_map n;
}.
#[export] Instance quiet_preorder ts : PreOrder (quiet ts).
Proof.
  split; [intros n; by split|]. intros n1 n2 n3 [] []. split; [by etrans|lia|congruence..].
Qed.

Lemma send_quiet {A} dest (req : FedRequest A) : preserves (quiet []) (send_federation_request dest req).
Proof.
  intros n. unfold send_federation_request. destruct (world_send _ _ _) as [r w]. cbn [snd].
  split; try done. unfold nd_db, sv_db. cbn. lia.
Qed.

(** ** Stored keys *)

Definition stored_keys n (origin : ServerName) : VerifyKeys :=
  from_option all_keys [] (db_map (nd_db n) server_signingkeys !! idb origin ≫= from_slice).

Lemma signing_keys_for_run origin n : ondb (signing_keys_for origin) n = (Ok (stored_keys n origin), n).
Proof.
  unfold signing_keys_for. erewrite ondb_run; [|rewrite (bind_Ok _ _ _ _ _ (t_get_run _ _ _)); reflexivity].
  by destruct n as [[[]]].
Qed.

(** The key ids of a set of keys. *)
Definition key_ids (k : ServerSigningKeys) : list KeyId := (sk_verify_keys k).*1 ++ (sk_old_verify_keys k).*1.

Lemma all_keys_is_Some k id : is_Some (obj_get id (all_keys k)) ↔ id ∈ key_ids k.
Proof.
  unfold all_keys, key_ids. rewrite obj_extend_is_Some, elem_of_app, <- list_fmap_compose. done.
Qed.
Lemma extend_keys_is_Some l k id : is_Some (obj_get id (extend_keys l k)) ↔ id ∈ l.*1 ∨ id ∈ key_ids k.
Proof.
  unfold extend_keys, key_ids. rewrite obj_extend_is_Some, <- obj_get_is_Some, obj_extend_is_Some, elem_of_app.
  rewrite <- list_fmap_compose. naive_solver.
Qed.
Lemma contains_all_ids_spec ids keys : contains_all_ids ids keys = true ↔ ∀ id, id ∈ ids → is_Some (obj_get id keys).
Proof.
  unfold contains_all_ids. rewrite forallb_forall. setoid_rewrite bool_decide_eq_true.
  by setoid_rewrite list_elem_of_In.
Qed.

Lemma add_signing_key_run origin k n :
  ∃ keys d, ondb (add_signing_key origin k) n = (Ok keys, with_db d n) ∧
    quiet [server_signingkeys] n (with_db d n) ∧ keys = stored_keys (with_db d n) origin ∧
    (∀ o, o ≠ origin → stored_keys (with_db d n) o = stored_keys n o) ∧
    ∀ id, is_Some (obj_get id keys) ↔ is_Some (obj_get id (stored_keys n origin)) ∨ id ∈ key_ids k.
Proof.
  destruct (add_signing_key origin k (nd_db n)) as [r d] eqn:E. rewrite (ondb_run _ _ _ _ E).
  revert E. unfold add_signing_key. rewrite (bind_Ok _ _ _ _ _ (t_get_run _ _ _)), bind_gets.
  set (old := default _ _). set (new := MkSigningKeys _ _ _ _ _ _).
  rewrite (bind_Ok _ _ _ _ _ (t_insert_run _ _ _ _)). intros [= <- <-].
  assert (∀ o, stored_keys (with_db (put server_signingkeys (idb origin) (to_vec new) (nd_db n)) n) o =
            if decide (o = origin) then all_keys new else stored_keys n o) as Hs.
  { intros o. unfold stored_keys. change (nd_db (with_db ?d n)) with d. rewrite db_map_put_eq. case_decide as Ho.
    - subst o. rewrite lookup_insert_eq. cbn. by rewrite from_slice_to_vec.
    - rewrite lookup_insert_ne; [done|]. by intros ->%(inj idb). }
  eexists _, _. split_and!; [done|..].
  - split; try done. change (nd_db (with_db ?d n)) with d. apply agree_put. by left.
  - by rewrite Hs, decide_True.
  - intros o Ho. by rewrite Hs, decide_False.
  - intros id. rewrite all_keys_is_Some.
    assert (is_Some (obj_get id (stored_keys n origin)) ↔ id ∈ key_ids old) as ->.
    { unfold old, stored_keys. destruct (_ !! _ ≫= _) as [keys|]; cbn; [apply all_keys_is_Some|].
      unfold key_ids. cbn. split; [by intros []|by intros ?%not_elem_of_nil]. }
    unfold new, key_ids. cbn. rewrite !elem_of_app, <- !(obj_get_is_Some _ (obj_extend _ _)), !obj_extend_is_Some. tauto.
Qed.

(** ** The search for keys *)

(** Every key id of [l] is stored for [origin]. *)
Definition covered n (origin : ServerName) (l : VerifyKeys) : Prop :=
  ∀ id, is_Some (obj_get id l) → is_Some (obj_get id (stored_keys n origin)).

(** One step of the search: the keys of [origin] may grow, nothing else changes. *)
Definition searched (origin : ServerName) n n' : Prop :=
  quiet [server_signingkeys] n n' ∧ (∀ o, o ≠ origin → stored_keys n' o = stored_keys n o) ∧
  (∀ id, is_Some (obj_get id (stored_keys n origin)) → is_Some (obj_get id (stored_keys n' origin))).
#[export] Instance searched_preorder origin : PreOrder (searched origin).
Proof.
  split; [intros n; by split_and!|]. intros n1 n2 n3 (Q1 & O1 & G1) (Q2 & O2 & G2).
  split_and!; [by etrans|intros o Ho; by rewrite O2, O1|auto].
Qed.

Lemma covered_searched n n' origin l : searched origin n n' → covered n origin l → covered n' origin l.
Proof. intros (_ & _ & G) H id Hid. auto. Qed.

Lemma stored_keys_agree n n' o : agree [] (nd_db n) (nd_db n') → stored_keys n' o = stored_keys n o.
Proof. intros H. unfold stored_keys. by rewrite (H server_signingkeys (not_elem_of_nil _)). Qed.

Lemma try_send_run {A} origin dest (req : FedRequest A) n :
  ∃ o n', try_ok (send_federation_request dest req) n = (Ok o, n') ∧ searched origin n n'.
Proof.
  pose proof (send_quiet dest req n) as Q. unfold try_ok. destruct (send_federation_request dest req n) as [r n'] eqn:E.
  assert (quiet [server_signingkeys] n n' ∧ ∀ o, stored_keys n' o = stored_keys n o) as [Q' Hs].
  { split; [|intros o; by apply stored_keys_agree, Q]. destruct Q. split; try done.
    eapply agree_mono; [|done]. by_compute. }
  assert (searched origin n n') as S by (split_and!; [done|auto|intros id; by rewrite Hs]).
  destruct r as [a|e|p]; [by eauto..|]. unfold send_federation_request in E.
  destruct (world_send _ _ _) as [[]]; naive_solver.
Qed.

Lemma store_key_run origin k l n :
  covered n origin l →
  ∃ n', (ondb (add_signing_key origin k) ;; mret (extend_keys l k)) n = (Ok (extend_keys l k), n') ∧
    searched origin n n' ∧ covered n' origin (extend_keys l k).
Proof.
  intros C. destruct (add_signing_key_run origin k n) as (keys & d & E & Q & -> & Ho & Hk).
  eexists. split; [by rewrite (bind_Ok _ _ _ _ _ E)|]. split.
  - split_and!; [done|done|]. intros id Hid. apply Hk. by left.
  - intros id [Hid|Hid]%extend_keys_is_Some; apply Hk; [left|by right]. by apply C, obj_get_is_Some.
Qed.

Lemma store_keys_run origin ks l n :
  covered n origin l →
  ∃ l' n', for_fold ks l (λ l k, ondb (add_signing_key origin k) ;; mret (extend_keys l k)) n = (Ok l', n') ∧
    searched origin n n' ∧ covered n' origin l'.
Proof.
  revert l n. induction ks as [|k ks IH]; intros l n C; cbn [for_fold]; [by exists l, n|].
  destruct (store_key_run origin k l n C) as (n1 & E & S1 & C1). rewrite (bind_Ok _ _ _ _ _ E).
  destruct (IH _ _ C1) as (l' & n' & -> & S' & C'). exists l', n'. split_and!; [done|by etrans|done].
Qed.

Lemma ask_trusted_run origin ids servers l n :
  covered n origin l →
  ∃ o n', ask_trusted origin ids servers l n = (Ok o, n') ∧ searched origin n n' ∧
    ∀ keys, o = Some keys → contains_all_ids ids keys = true ∧ covered n' origin keys.
Proof.
  revert l n. induction servers as [|server servers IH]; intros l n C; cbn [ask_trusted]; [by exists None, n|].
  unfold instant_now at 1. rewrite bind_gets.
  destruct (try_send_run origin server (GetRemoteServerKeys origin (now (nd_db n) + 1000 * 3600)) n)
    as (o & n1 & E & S1). rewrite (bind_Ok _ _ _ _ _ E). apply (covered_searched _ _ _ _ S1) in C.
  destruct o as [server_keys|].
  - destruct (store_keys_run origin (filter_map deserialize server_keys) l n1 C) as (l' & n2 & E2 & S2 & C2).
    rewrite (bind_Ok _ _ _ _ _ E2). destruct (contains_all_ids ids l') eqn:Ec.
    + exists (Some l'), n2. split_and!; [done|by etrans|]. by intros keys [= <-].
    + destruct (IH _ _ C2) as (o & n' & -> & S' & C'). exists o, n'. split_and!; [done|by do 2 (etrans; [done|])|done].
  - destruct (IH _ _ C) as (o & n' & -> & S' & C'). exists o, n'. split_and!; [done|by etrans|done].
Qed.

(** The rate limit of a set of key ids allows a new try. *)
Definition may_try n (ids : list KeyId) : Prop :=
  ∀ time tries, bad_signature_ratelimiter n !! ids = Some (time, tries) →
    30 * tries * tries < 2 ^ 64 ∧ 1000 * N.min (30 * tries * tries) DAY ≤ now (nd_db n) - time.

Lemma backing_off_run n ids :
  may_try n ids → backing_off 30 (bad_signature_ratelimiter n !! ids) n = (Ok false, n).
Proof.
  intros H. unfold backing_off. destruct (_ !! _) as [[time tries]|] eqn:E; [|done].
  destruct (H _ _ E) as [Ho Hle]. unfold instant_now. rewrite bind_gets, bool_decide_true by done.
  by rewrite bool_decide_false by lia.
Qed.

Lemma fetch_local n origin ids :
  may_try n ids → contains_all_ids ids (stored_keys n origin) = true →
  fetch_signing_keys origin ids n = (Ok (stored_keys n origin), n).
Proof.
  intros Ht Hc. unfold fetch_signing_keys. rewrite bind_gets, (bind_Ok _ _ _ _ _ (backing_off_run _ _ Ht)).
  rewrite (bind_Ok _ _ _ _ _ (signing_keys_for_run _ _)). by rewrite Hc.
Qed.

(** A search that is not held back: what it finds is complete and stored, a
    failure is recorded, and the keys of other servers are left alone. *)
Lemma fetch_signing_keys_run n origin ids :
  may_try n ids →
  ∃ n1 r n', searched origin n n1 ∧ fetch_signing_keys origin ids n = (r, n') ∧
    ((∃ keys, r = Ok keys ∧ n' = n1 ∧ contains_all_ids ids keys = true ∧ covered n' origin keys) ∨
     (r = Err (BadServerResponse "Failed to find public key for server") ∧
      n' = set_bad_signature (<[ids := failed_again (now (nd_db n1)) (bad_signature_ratelimiter n !! ids)]>
             (bad_signature_ratelimiter n)) n1)).
Proof.
  intros Ht. destruct (contains_all_ids ids (stored_keys n origin)) eqn:Ec.
  { exists n, (Ok (stored_keys n origin)), n. split_and!; [done|by apply fetch_local|]. left. eexists. split_and!; [done..|by intros id]. }
  unfold fetch_signing_keys. rewrite bind_gets, (bind_Ok _ _ _ _ _ (backing_off_run _ _ Ht)).
  rewrite (bind_Ok _ _ _ _ _ (signing_keys_for_run _ _)), Ec.
  destruct (try_send_run origin origin GetServerKeys n) as (o & n1 & E & S1). rewrite (bind_Ok _ _ _ _ _ E).
  assert (covered n1 origin (stored_keys n origin)) as C1 by (apply (covered_searched _ _ _ _ S1); by intros id).
  assert (∃ l n2, match o ≫= deserialize with
      | Some k => ondb (add_signing_key origin k) ;; mret (extend_keys (stored_keys n origin) k)
      | None => mret (stored_keys n origin)
      end n1 = (Ok l, n2) ∧ searched origin n1 n2 ∧ covered n2 origin l) as (l & n2 & E2 & S2 & C2).
  { destruct (o ≫= deserialize) as [k|]; [|by exists (stored_keys n origin), n1].
    destruct (store_key_run origin k _ n1 C1) as (n2 & ? & ? & ?). eauto. }
  rewrite (bind_Ok _ _ _ _ _ E2). destruct (contains_all_ids ids l) eqn:Ec2.
  { exists n2, (Ok l), n2. split_and!; [by etrans|done|]. left. by exists l. }
  destruct (ask_trusted_run origin ids trusted_servers l n2 C2) as (o' & n3 & E3 & S3 & C3).
  assert (searched origin n n3) as S by (by do 2 (etrans; [done|])).
  rewrite (bind_Ok _ _ _ _ _ E3). destruct o' as [keys|].
  - exists n3, (Ok keys), n3. split_and!; [done|done|]. left. exists keys. destruct (C3 keys eq_refl). by split_and!.
  - unfold back_off_signature, instant_now. exists n3. eexists _, _. split; [done|]. split; [done|]. right. split; [done|].
    cbn. by rewrite (quiet_signature _ _ _ (proj1 S)).
Qed.

(** Whatever the outcome, the keys of the request are left alone and no stored key is
    lost; an answer is complete and stored. *)
Lemma try_fetch_inv origin ids n o n' :
  try_ok (fetch_signing_keys origin ids) n = (Ok o, n') →
  nd_pub_key_map n' = nd_pub_key_map n ∧
  (∀ server l, covered n server l → covered n' server l) ∧
  ∀ keys, o = Some keys → contains_all_ids ids keys = true ∧ covered n' origin keys.
Proof.
  intros H. assert (may_try n ids ∨ n' = n ∧ o = None) as [Ht|[-> ->]]; [| |by split_and!].
  { destruct (bad_signature_ratelimiter n !! ids) as [[time tries]|] eqn:E; [|left; intros ? ?; by rewrite E].
    revert H. unfold try_ok, fetch_signing_keys. rewrite bind_gets, E. unfold mbind at 1, M_bind at 1.
    unfold backing_off, instant_now. rewrite bind_gets. case_bool_decide as Hlt; [|done]. unfold mret at 1, M_ret at 1.
    case_bool_decide as Hw; [intros [= <- <-]; by right|].
    left. intros ? ?. rewrite E. intros [= <- <-]. split; [done|lia]. }
  destruct (fetch_signing_keys_run n origin ids Ht) as (n1 & r & n2 & (Q & Ho & Hk) & E & Hr).
  unfold try_ok in H. rewrite E in H.
  assert (∀ server l, covered n server l → covered n1 server l) as Hcov.
  { intros server l C id Hid. destruct (decide (server = origin)) as [->|]; [auto|]. rewrite Ho by done. auto. }
  destruct Hr as [(keys & -> & -> & Hc & C)|[-> ->]]; injection H as <- <-; split_and!; try done; try apply Q.
  intros keys' [= <-]. done.
Qed.

(** C9: A search for the keys of a server that is not held back by earlier failures
    either returns keys for all the wanted key ids, and they are stored so
    that the next search needs no other server; or it fails, and the failure is
    recorded.  Only the stored keys of that server change, and none is lost. *)
Theorem fetch_signing_keys_correct n origin ids r n' :
  may_try n ids → fetch_signing_keys origin ids n = (r, n') →
  (∀ o, o ≠ origin → stored_keys n' o = stored_keys n o) ∧
  (∀ id, is_Some (obj_get id (stored_keys n origin)) → is_Some (obj_get id (stored_keys n' origin))) ∧
  (∀ t, t ≠ server_signingkeys → db_map (nd_db n') t = db_map (nd_db n) t) ∧
  match r with
  | Ok keys => contains_all_ids ids keys = true ∧
      fetch_signing_keys origin ids n' = (Ok (stored_keys n' origin), n') ∧
      contains_all_ids ids (stored_keys n' origin) = true
  | Err e => e = BadServerResponse "Failed to find public key for server" ∧
      ∃ t, bad_signature_ratelimiter n' !! ids = Some (failed_again t (bad_signature_ratelimiter n !! ids))
  | Panic _ => False
  end.
Proof.
  intros Ht E. destruct (fetch_signing_keys_run n origin ids Ht) as (n1 & r0 & n0 & (Q & Ho & Hk) & E0 & H).
  rewrite E in E0. injection E0 as <- <-. destruct H as [(keys & -> & -> & Hc & C)|[-> ->]].
  - assert (contains_all_ids ids (stored_keys n1 origin) = true) as Hc'.
    { apply contains_all_ids_spec. intros id Hid. apply C. revert id Hid. by apply contains_all_ids_spec. }
    split_and!; try done.
    + intros t Ht'. apply (quiet_db _ _ _ Q). set_solver.
    + apply fetch_local; [|done]. intros time tries. rewrite (quiet_signature _ _ _ Q). intros [? ?]%Ht.
      split; [done|]. pose proof (quiet_now _ _ _ Q). lia.
  - split_and!; try done.
    + intros t Ht'. apply (quiet_db _ _ _ Q). set_solver.
    + eexists. cbn. by rewrite lookup_insert_eq.
Qed.

(** A failed search is recorded under the key ids alone: it makes the server
    refuse the keys of every other server that uses the same key ids, although
    they are stored and were accepted before. *)
Theorem fetch_signing_keys_blocked n bad ids n' other :
  bad_signature_ratelimiter n !! ids = None → fetch_signing_keys bad ids n = (Err (BadServerResponse "Failed to find public key for server"), n') →
  other ≠ bad → contains_all_ids ids (stored_keys n other) = true →
  fetch_signing_keys other ids n = (Ok (stored_keys n other), n) ∧
  stored_keys n' other = stored_keys n other ∧
  fetch_signing_keys other ids n' = (Err (BadServerResponse "bad signature, still backing off"), n').
Proof.
  intros E Hb Hne Hc. assert (may_try n ids) as Ht by (intros time tries; by rewrite E).
  destruct (fetch_signing_keys_run n bad ids Ht) as (n1 & r0 & n0 & (Q & Ho & Hk) & E0 & H).
  rewrite Hb in E0. injection E0 as <- <-. destruct H as [(? & ? & _)|[_ ->]]; [done|].
  split_and!; [by apply fetch_local|by apply Ho|]. unfold fetch_signing_keys. rewrite bind_gets. cbn [bad_signature_ratelimiter set_bad_signature].
  rewrite lookup_insert_eq, E. unfold backing_off, failed_again, instant_now.
  set (n2 := set_bad_signature _ _). rewrite (bind_Ok _ _ n2 true n2); [done|]. rewrite bind_gets.
  rewrite bool_decide_true by done. unfold mret, M_ret. f_equal. f_equal. apply bool_decide_true.
  unfold nd_db. cbn. unfold DAY. lia.
Qed.
End node_lemmas.
