(* ===== verification/EventHandler.v ===== *)
(** * The event handler ([src/service/rooms/event_handler/mod.rs])

    What happens to an event of another server: its signatures and hashes are
    checked, missing authorisation events and previous events are fetched, the
    event is authorised three times (by its authorisation events, by the state
    before it and by the current state of the room), stored as an outlier and, if
    all goes well, appended to the timeline with the state that follows from it.

    [handle_outlier_pdu] and [fetch_and_handle_outliers] call each other; the
    model gives every nested call and every round of a loop a unit of fuel. *)

From S2P Require Import Prelude Bytes RStr Error Utils KvTree Env Db Keys Globals Frames Short RoomState StateCompressor Pdu Timeline StateAccessor StateCache RoomIndex ClientData EventFormat SendingService OpFrames StateService Lookups TimelineService AuthChain Federation.

(** ** What the code uses of ruma's signatures and state resolution *)

Inductive Verified := VerifiedAll | VerifiedSignatures.

Section library.
Context {Ev : Env}.

Class HandlerLib := {
  (** [ruma::signatures::verify_event], [ruma::canonical_json::redact] *)
  verify_event : list (rstr * VerifyKeys) → CanonicalJsonObject → rstr → option Verified;
  canonical_redact : CanonicalJsonObject → rstr → option CanonicalJsonObject;
  (** [state_res::resolve] and [state_res::lexicographical_topological_sort] *)
  resolve : rstr → list (gmap (rstr * rstr) EventId) → list (gset EventId) → (EventId → option PduEvent) →
    option (gmap (rstr * rstr) EventId);
  topological_sort : gmap EventId (gset EventId) → (EventId → N) → option (list EventId);
  (** [RoomServerAclEventContent] *)
  AclContent : Type;
  acl_content : bytes → option AclContent;
  acl_is_allowed : AclContent → ServerName → bool;
  (** the configuration *)
  max_fetch_prev_events : N;
}.
End library.

Section event_handler.
Context {Ev : Env} {EL : EventLib} {TL : TimelineLib} {Out : Outside} {HL : HandlerLib}.

(** ** Signing keys of an event *)

Definition fetch_required_signing_keys (event : CanonicalJsonObject) : NM unit :=
  v ← lift (ok_or (canonical_get (lit "signatures") event)
              (BadServerResponse "No signatures in server response pdu."));
  signatures ← lift (match v with
                     | JObj l => Ok l
                     | _ => Err (BadServerResponse "Invalid signatures object in server response pdu.")
                     end);
  for_each signatures (λ '(signature_server, signature),
    signature_object ← lift (match signature with
      | JObj l => Ok l
      | _ => Err (BadServerResponse "Invalid signatures content object in server response pdu.")
      end);
    origin ← lift (ok_or (parse_id valid_server_name signature_server)
      (BadServerResponse "Invalid servername in signatures of server response pdu."));
    fetch_res ← try_ok (fetch_signing_keys origin signature_object.*1);
    match fetch_res with
    | Some keys => modify (λ n, set_pub_key_map (obj_insert signature_server keys (nd_pub_key_map n)) n)
    | None => mret ()
    end).

(** ** The keys for a join *)

(** The loop over the signatures: the servers whose keys are not known, and the
    error that ended it. *)
Fixpoint keys_from_cache (signatures : list (rstr * json)) (servers : gset ServerName) : NM (gset ServerName * option Error) :=
  match signatures with
  | [] => mret (servers, None)
  | (signature_server, signature) :: signatures =>
      match signature with
      | JObj signature_object =>
          match parse_id valid_server_name signature_server with
          | None => mret (servers, Some (BadServerResponse "Invalid servername in signatures of server response pdu."))
          | Some origin =>
              pub_key_map ← gets nd_pub_key_map;
              if decide (origin ∈ servers ∨ is_Some (obj_get (as_str origin) pub_key_map)) then
                keys_from_cache signatures servers
              else
                result ← ondb (signing_keys_for origin);
                modify (λ n, set_pub_key_map (obj_insert (as_str origin) result (nd_pub_key_map n)) n) ;;
                keys_from_cache signatures
                  (if contains_all_ids signature_object.*1 result then servers else {[origin]} ∪ servers)
          end
      | _ => mret (servers, Some (BadServerResponse "Invalid signatures content object in server response pdu."))
      end
  end.

Definition get_server_keys_from_cache (pdu : Raw) (servers : gset ServerName) (room_version : rstr) :
    NM (gset ServerName * option Error) :=
  match from_slice (raw_text pdu) with
  | None => mret (servers, Some (BadServerResponse "Invalid PDU in server response"))
  | Some value =>
      hash ← lift (expect (reference_hash value room_version) "ruma can calculate reference hashes");
      event_id ← lift (expect (hash_event_id hash) "ruma's reference hashes are valid event ids");
      entry ← gets (λ n, bad_event_ratelimiter n !! event_id);
      wait ← backing_off 30 entry;
      if (wait : bool) then mret (servers, Some (BadServerResponse "bad event, still backing off"))
      else
        match canonical_get (lit "signatures") value with
        | None => mret (servers, Some (BadServerResponse "No signatures in server response pdu."))
        | Some (JObj signatures) => keys_from_cache signatures servers
        | Some _ => mret (servers, Some (BadServerResponse "Invalid signatures object in server response pdu."))
        end
  end.

Definition insert_keys (server : ServerName) (keys : ServerSigningKeys) : NM unit :=
  result ← ondb (add_signing_key server keys);
  modify (λ n, set_pub_key_map (obj_insert (as_str server) result (nd_pub_key_map n)) n).

(** The loop over the trusted servers; it ends when no server is left to ask for. *)
Fixpoint ask_batch (trusted : list ServerName) (servers : gset ServerName) : NM (gset ServerName) :=
  match trusted with
  | [] => mret servers
  | server :: trusted =>
      r ← try_ok (send_federation_request server (GetRemoteServerKeysBatch (elements servers)));
      servers ← match r with
                | Some server_keys =>
                    for_fold server_keys servers (λ servers k,
                      match deserialize k with
                      | None => mret servers
                      | Some k => insert_keys (sk_server_name k) k ;; mret (servers ∖ {[sk_server_name k]})
                      end)
                | None => mret servers
                end;
      if decide (servers = ∅) then mret ∅ else ask_batch trusted servers
  end.

(** The answers of the remaining servers are taken in the order of the questions. *)
Definition fetch_join_signing_keys (state auth_chain : list Raw) (room_version : rstr) : NM unit :=
  servers ← for_fold (state ++ auth_chain) ∅ (λ servers pdu,
    r ← get_server_keys_from_cache pdu servers room_version; mret r.1);
  if decide (servers = ∅) then mret ()
  else
    servers ← ask_batch trusted_servers servers;
    for_each (elements servers) (λ server,
      r ← try_ok (send_federation_request server GetServerKeys);
      match r with
      | Some server_key =>
          keys ← lift (expect (deserialize server_key) "called Result::unwrap on an Err value");
          insert_keys server keys
      | None => mret ()
      end).

(** ** Outliers *)

(** The authorisation events an object names; entries that are no event ids are
    skipped. *)
Definition named_auth_events (value : CanonicalJsonObject) : list EventId :=
  match canonical_get (lit "auth_events") value with
  | Some (JArr l) => filter_map (λ v, s ← as_string v; parse_id valid_event_id s) l
  | _ => []
  end.

(** [while let Some(next_id) = todo_auth_events.pop()]: the head of [todo] is the
    top of the stack, the head of [fetched] was fetched last. *)
Fixpoint fetch_chain (fuel : nat) (origin : ServerName) (room_version_id : rstr) (todo : list EventId)
    (fetched : list (EventId * CanonicalJsonObject)) (events_all : gset EventId) :
    NM (list (EventId * CanonicalJsonObject)) :=
  match todo with
  | [] => mret fetched
  | next_id :: todo =>
      match fuel with
      | O => out_of_fuel
      | S fuel =>
          if decide (next_id ∈ events_all) then fetch_chain fuel origin room_version_id todo fetched events_all
          else
            found ← try_ok (ondb (get_pdu next_id));
            match mjoin found with
            | Some _ => fetch_chain fuel origin room_version_id todo fetched events_all
            | None =>
                r ← try_ok (send_federation_request origin (GetEvent next_id));
                match r with
                | Some pdu =>
                    match gen_event_id_canonical_json pdu room_version_id with
                    | Ok (_, value) =>
                        fetch_chain fuel origin room_version_id (reverse (named_auth_events value) ++ todo)
                          ((next_id, value) :: fetched) ({[next_id]} ∪ events_all)
                    | Err _ =>
                        back_off_event next_id ;; fetch_chain fuel origin room_version_id todo fetched events_all
                    | Panic p => lift (Panic p)
                    end
                | None => back_off_event next_id ;; fetch_chain fuel origin room_version_id todo fetched events_all
                end
            end
      end
  end.

(** [handle_outlier] stands for the call of [handle_outlier_pdu]. *)
Definition fetch_outlier (fuel : nat) (handle_outlier : EventId → CanonicalJsonObject → NM (PduEvent * CanonicalJsonObject))
    (origin : ServerName) (room_version_id : rstr) (pdus : list (PduEvent * option CanonicalJsonObject)) (id : EventId) :
    NM (list (PduEvent * option CanonicalJsonObject)) :=
  entry ← gets (λ n, bad_event_ratelimiter n !! id);
  wait ← backing_off (5 * 60) entry;
  if (wait : bool) then mret pdus
  else
    found ← try_ok (ondb (get_pdu id));
    match mjoin found with
    | Some local_pdu => mret (pdus ++ [(local_pdu, None)])
    | None =>
        fetched ← fetch_chain fuel origin room_version_id [id] [] ∅;
        for_fold fetched pdus (λ pdus '(next_id, value),
          r ← catch (handle_outlier next_id value);
          match r with
          | inl (pdu, json) => mret (if decide (next_id = id) then pdus ++ [(pdu, Some json)] else pdus)
          | inr _ => back_off_event next_id ;; mret pdus
          end)
    end.

Definition fetch_outliers (fuel : nat) (handle_outlier : EventId → CanonicalJsonObject → NM (PduEvent * CanonicalJsonObject))
    (origin : ServerName) (room_version_id : rstr) (events : list EventId) :
    NM (list (PduEvent * option CanonicalJsonObject)) :=
  for_fold events [] (fetch_outlier fuel handle_outlier origin room_version_id).

(** The authorisation events that are known, by type and state key. *)
Definition add_auth_event (auth_events : gmap (rstr * rstr) PduEvent) (id : EventId) : DB (gmap (rstr * rstr) PduEvent) :=
  o ← get_pdu id;
  match o with
  | None => mret auth_events
  | Some auth_event =>
      key ← lift (expect (state_key auth_event) "all auth events have state keys");
      match auth_events !! (kind auth_event, key) with
      | None => mret (<[(kind auth_event, key) := auth_event]> auth_events)
      | Some _ => fail (BadRequest InvalidParam "Auth event's type and state_key combination exists multiple times.")
      end
  end.

(** Steps 2 and 3: the object as it is trusted, with its event id. *)
Definition verified_object (value : CanonicalJsonObject) (event_id : EventId) (room_version_id : rstr) :
    NM (PduEvent * CanonicalJsonObject) :=
  keys ← gets nd_pub_key_map;
  val ← lift (match verify_event keys value room_version_id with
              | None => Err (BadRequest InvalidParam "Signature verification failed")
              | Some VerifiedSignatures =>
                  ok_or (canonical_redact value room_version_id) (BadRequest InvalidParam "Redaction failed")
              | Some VerifiedAll => Ok value
              end);
  let val := canonical_insert (lit "event_id") (JStr (as_str event_id)) val in
  incoming_pdu ← lift (ok_or (pdu_of_canonical val) (BadDatabase "Event is not a valid PDU."));
  mret (incoming_pdu, val).

(** Step 6: the event is allowed by its authorisation events. *)
Definition check_auth_events (create_event incoming_pdu : PduEvent) (room_version_id : rstr) : NM unit :=
  auth_events ← ondb (for_fold (auth_events incoming_pdu) ∅ add_auth_event);
  if decide (event_id <$> (auth_events !! (lit "m.room.create", lit "")) ≠ Some (event_id create_event)) then
    fail (BadRequest InvalidParam "Incoming event refers to wrong create event.")
  else
    ok ← lift (ok_or (auth_check room_version_id incoming_pdu (auth_events !!.)) (BadRequest InvalidParam "Auth check failed"));
    if (ok : bool) then mret () else fail (BadRequest InvalidParam "Auth check failed").

(** The version of the room by its create event. *)
Definition version_of_create (create_event : PduEvent) : res rstr :=
  c ← ok_or (create_content (content create_event)) (BadDatabase "Invalid create event in db");
  if room_version_supported (cc_room_version c) then Ok (cc_room_version c) else Panic "room version is supported".

Fixpoint handle_outlier_pdu (fuel : nat) (origin : ServerName) (create_event : PduEvent) (event_id : EventId)
    (room_id : RoomId) (value : CanonicalJsonObject) : NM (PduEvent * CanonicalJsonObject) :=
  match fuel with
  | O => out_of_fuel
  | S fuel =>
      let value := canonical_remove (lit "unsigned") value in
      fetch_required_signing_keys value ;;
      room_version_id ← lift (version_of_create create_event);
      r ← verified_object value event_id room_version_id;
      let '(incoming_pdu, val) := (r : PduEvent * CanonicalJsonObject) in
      fetch_outliers fuel (λ id v, handle_outlier_pdu fuel origin create_event id room_id v) origin room_version_id
        (auth_events incoming_pdu) ;;
      check_auth_events create_event incoming_pdu room_version_id ;;
      ondb (add_pdu_outlier (Env.event_id incoming_pdu) val) ;;
      mret (incoming_pdu, val)
  end.

Definition fetch_and_handle_outliers (fuel : nat) (origin : ServerName) (events : list EventId) (create_event : PduEvent)
    (room_id : RoomId) (room_version_id : rstr) : NM (list (PduEvent * option CanonicalJsonObject)) :=
  fetch_outliers fuel (λ id v, handle_outlier_pdu fuel origin create_event id room_id v) origin room_version_id events.

(** ** The state before an event *)

(** A read of the database inside a closure passed to the library, which calls it
    any number of times: its answer, [None] for an error. *)
Definition peek {A} (m : DB (option A)) (d : State) : option A := mjoin (ok (m d).1).

(** The state after an event, from the state before it. *)
Definition with_event (state : gmap N EventId) (pdu : PduEvent) (id : EventId) : DB (gmap N EventId) :=
  match state_key pdu with
  | Some state_key =>
      shortstatekey ← get_or_create_shortstatekey (kind pdu) state_key;
      mret (<[shortstatekey := id]> state)
  | None => mret state
  end.

(** One previous event whose state is stored. *)
Definition cached_state (prev_event : EventId) : DB (option (gmap N EventId)) :=
  prev_event_sstatehash ← pdu_shortstatehash prev_event;
  state ← match prev_event_sstatehash with
          | Some shortstatehash => try_ok (state_full_ids shortstatehash)
          | None => mret None
          end;
  match state with
  | Some state =>
      p ← try_ok (get_pdu prev_event);
      prev_pdu ← lift (ok_or (mjoin p) (BadDatabase "Could not find prev event, but we know the state."));
      state ← with_event state prev_pdu prev_event;
      mret (Some state)
  | None => mret None
  end.

(** Several previous events: their states by number, [None] if one is missing. *)
Fixpoint extremity_sstatehashes (prev_events : list EventId) (found : gmap N PduEvent) : DB (option (gmap N PduEvent)) :=
  match prev_events with
  | [] => mret (Some found)
  | prev_eventid :: prev_events =>
      p ← try_ok (get_pdu prev_eventid);
      match mjoin p with
      | None => mret None
      | Some prev_event =>
          h ← try_ok (pdu_shortstatehash prev_eventid);
          match mjoin h with
          | None => mret None
          | Some sstatehash => extremity_sstatehashes prev_events (<[sstatehash := prev_event]> found)
          end
      end
  end.

(** The chain of a set of events; [fuel] is that of [get_auth_chain]. *)
Definition auth_chain_set (fuel : nat) (room_id : RoomId) (events : list EventId) : DB (gset EventId) :=
  o ← get_auth_chain fuel room_id events;
  match o with
  | Some l => mret (list_to_set l)
  | None => lift (Panic "out of fuel")
  end.

(** A state by type and state key instead of numbers; unknown numbers are left out. *)
Definition named_state (state : gmap N EventId) : DB (gmap (rstr * rstr) EventId) :=
  for_fold (map_to_list state) ∅ (λ m '(k, id),
    r ← try_ok (get_statekey_from_short k);
    mret (match r with Some key => <[key := id]> m | None => m end)).

Definition numbered_state (state : gmap (rstr * rstr) EventId) : DB (gmap N EventId) :=
  for_fold (map_to_list state) ∅ (λ m '(key, id),
    shortstatekey ← get_or_create_shortstatekey key.1 key.2;
    mret (<[shortstatekey := id]> m)).

Definition fork_state (fuel : nat) (room_id : RoomId) (acc : list (gmap (rstr * rstr) EventId) * list (gset EventId))
    (fork : N * PduEvent) : DB (list (gmap (rstr * rstr) EventId) * list (gset EventId)) :=
  leaf_state ← state_full_ids fork.1;
  leaf_state ← with_event leaf_state fork.2 (event_id fork.2);
  state ← named_state leaf_state;
  chain ← auth_chain_set fuel room_id (map_to_list leaf_state).*2;
  mret (acc.1 ++ [state], acc.2 ++ [chain]).

Definition resolved_state (fuel : nat) (room_id : RoomId) (room_version_id : rstr) (prev_events : list EventId) :
    DB (option (gmap N EventId)) :=
  o ← extremity_sstatehashes prev_events ∅;
  match o with
  | None => mret None
  | Some extremities =>
      r ← for_fold (map_to_list extremities) ([], []) (fork_state fuel room_id);
      d ← gets id;
      match resolve room_version_id r.1 r.2 (λ id, peek (get_pdu id) d) with
      | Some new_state => state ← numbered_state new_state; mret (Some state)
      | None => mret None
      end
  end.

(** The state by the answer of the server that sent the event. *)
Definition asked_state (fuel : nat) (origin : ServerName) (create_event : PduEvent) (room_id : RoomId) (room_version_id : rstr)
    (incoming_pdu : PduEvent) : NM (gmap N EventId) :=
  pdu_ids ← send_federation_request origin (GetRoomStateIds room_id (event_id incoming_pdu));
  state_vec ← fetch_and_handle_outliers fuel origin pdu_ids create_event room_id room_version_id;
  state ← for_fold state_vec ∅ (λ (state : gmap N EventId) '(pdu, _),
    key ← lift (ok_or (state_key pdu) (BadDatabase "Found non-state pdu in state events."));
    shortstatekey ← ondb (get_or_create_shortstatekey (kind pdu) key);
    match state !! shortstatekey with
    | None => mret (<[shortstatekey := event_id pdu]> state)
    | Some _ => fail (BadDatabase "State event's type and state_key combination exists multiple times.")
    end);
  o ← ondb (get_shortstatekey (lit "m.room.create") (lit ""));
  create_shortstatekey ← lift (expect o "Room exists");
  if decide (state !! create_shortstatekey = Some (event_id create_event)) then mret state
  else fail (BadDatabase "Incoming event refers to wrong create event.").

(** Step 10. *)
Definition state_at (fuel : nat) (origin : ServerName) (create_event : PduEvent) (room_id : RoomId) (room_version_id : rstr)
    (incoming_pdu : PduEvent) : NM (gmap N EventId) :=
  o ← match prev_events incoming_pdu with
      | [prev_event] => ondb (cached_state prev_event)
      | _ => ondb (resolved_state fuel room_id room_version_id (prev_events incoming_pdu))
      end;
  match o with
  | Some state => mret state
  | None => asked_state fuel origin create_event room_id room_version_id incoming_pdu
  end.

(** ** From outlier to timeline *)

(** The event of a state for a type and a state key. *)
Definition state_event (state : gmap N EventId) (d : State) (key : rstr * rstr) : option PduEvent :=
  shortstatekey ← peek (get_shortstatekey key.1 key.2) d;
  id ← state !! shortstatekey;
  peek (get_pdu id) d.

(** The forward extremities that neither the event nor another one refers to. *)
Definition remaining_extremities (room_id : RoomId) (prev_events : list EventId) : DB (gset EventId) :=
  extremities ← get_forward_extremities room_id;
  let extremities := extremities ∖ list_to_set prev_events in
  l ← for_fold (elements extremities) [] (λ l id,
    r ← try_ok (is_event_referenced room_id id);
    mret (if bool_decide (r = Some true) then l else l ++ [id]));
  mret (list_to_set l).

Definition compress_state (state : gmap N EventId) : DB (list CompressedStateEvent) :=
  for_fold (map_to_list state) [] (λ l '(shortstatekey, id),
    c ← compress_state_event shortstatekey id; mret (l ++ [c])).

(** Every extremity must have a stored state. *)
Definition check_extremity (id : EventId) : DB unit :=
  o ← get_pdu id;
  match o with
  | Some leaf_pdu =>
      h ← pdu_shortstatehash (event_id leaf_pdu);
      lift (ok_or h (BadDatabase "Found pdu with no statehash in db.")) ;; mret ()
  | None => fail (BadDatabase "Missing state snapshot.")
  end.

(** Steps 12 and 14: the current state and the state after the event are
    resolved, and the result becomes the state of the room. *)
Definition update_room_state (fuel : nat) (room_id : RoomId) (room_version_id : rstr) (incoming_pdu : PduEvent)
    (state_at_incoming_event : gmap N EventId) (extremities : gset EventId) : DB unit :=
  o ← get_room_shortstatehash room_id;
  current_sstatehash ← lift (expect o "every room has state");
  current_state_ids ← state_full_ids current_sstatehash;
  for_each (elements extremities) check_extremity ;;
  state_after ← with_event state_at_incoming_event incoming_pdu (event_id incoming_pdu);
  if decide (current_state_ids = state_after) then compress_state current_state_ids ;; mret ()
  else
    chain1 ← auth_chain_set fuel room_id (map_to_list current_state_ids).*2;
    chain2 ← auth_chain_set fuel room_id (map_to_list state_after).*2;
    fork1 ← named_state current_state_ids;
    fork2 ← named_state state_after;
    d ← gets id;
    new_state ← lift (ok_or (resolve room_version_id [fork1; fork2] [chain1; chain2] (λ id, peek (get_pdu id) d))
      (BadDatabase "State resolution failed, either an event could not be found or deserialization"));
    new_room_state ← for_fold (map_to_list new_state) [] (λ l '(key, id),
      shortstatekey ← get_or_create_shortstatekey key.1 key.2;
      c ← compress_state_event shortstatekey id; mret (l ++ [c]));
    r ← save_state room_id new_room_state;
    let '(sstatehash, new, removed) := (r : N * gset CompressedStateEvent * gset CompressedStateEvent) in
    force_state room_id sstatehash new removed.

Definition upgrade_outlier_to_timeline_pdu (fuel : nat) (incoming_pdu : PduEvent) (val : CanonicalJsonObject)
    (create_event : PduEvent) (origin : ServerName) (room_id : RoomId) : NM (option bytes) :=
  known ← try_ok (ondb (get_pdu_id (event_id incoming_pdu)));
  match mjoin known with
  | Some pduid => mret (Some pduid)
  | None =>
      failed ← ondb (is_event_soft_failed (event_id incoming_pdu));
      if (failed : bool) then fail (BadRequest InvalidParam "Event has been soft failed")
      else
        room_version_id ← lift (version_of_create create_event);
        state_at_incoming_event ← state_at fuel origin create_event room_id room_version_id incoming_pdu;
        d ← gets nd_db;
        check_result ← lift (ok_or (auth_check room_version_id incoming_pdu (state_event state_at_incoming_event d))
          (BadRequest InvalidParam "Auth check failed."));
        if negb check_result then fail (BadDatabase "Event has failed auth check with state at the event.")
        else
          extremities ← ondb (remaining_extremities room_id (prev_events incoming_pdu));
          state_ids_compressed ← ondb (compress_state state_at_incoming_event);
          auth_events ← ondb (get_auth_events room_id (kind incoming_pdu) (sender incoming_pdu)
            (state_key incoming_pdu) (content incoming_pdu));
          allowed ← lift (ok_or (auth_check room_version_id incoming_pdu (auth_events !!.))
            (BadRequest InvalidParam "Auth check failed."));
          if negb allowed then
            on_server (append_incoming_pdu incoming_pdu val (elements extremities) state_ids_compressed true) ;;
            ondb (mark_event_soft_failed (event_id incoming_pdu)) ;;
            fail (BadRequest InvalidParam "Event has been soft failed")
          else
            (if bool_decide (is_Some (state_key incoming_pdu)) then
               ondb (update_room_state fuel room_id room_version_id incoming_pdu state_at_incoming_event extremities)
             else mret ()) ;;
            on_server (append_incoming_pdu incoming_pdu val (elements ({[event_id incoming_pdu]} ∪ extremities))
              state_ids_compressed false)
  end.

(** ** Previous events *)

(** The graph of the previous events, the events themselves, and how many were
    expanded. *)
Record PrevSearch := MkPrevSearch {
  ps_graph : gmap EventId (gset EventId);
  ps_info : gmap EventId (PduEvent * CanonicalJsonObject);
  ps_amount : N
}.

(** One round of the loop for an event that was fetched; the new entries of the
    stack come first. *)
Definition expand_prev (first_ts : N) (prev_event_id : EventId) (pdu : PduEvent) (json : option CanonicalJsonObject)
    (st : PrevSearch) : PrevSearch * list EventId :=
  if bool_decide (max_fetch_prev_events < ps_amount st) then
    (MkPrevSearch (<[prev_event_id := ∅]> (ps_graph st)) (ps_info st) (ps_amount st), [])
  else
    match json with
    | Some json =>
        let info := <[prev_event_id := (pdu, json)]> (ps_info st) in
        if bool_decide (first_ts < origin_server_ts pdu) then
          (MkPrevSearch (<[prev_event_id := list_to_set (prev_events pdu)]> (ps_graph st)) info (ps_amount st + 1),
           reverse (filter (λ p, ps_graph st !! p = None) (prev_events pdu)))
        else (MkPrevSearch (<[prev_event_id := ∅]> (ps_graph st)) info (ps_amount st), [])
    | None => (MkPrevSearch (<[prev_event_id := ∅]> (ps_graph st)) (ps_info st) (ps_amount st), [])
    end.

(** [while let Some(prev_event_id) = todo_outlier_stack.pop()]; [rounds] is the
    fuel of the loop and [fuel] that of the fetching. *)
Fixpoint prev_loop (rounds fuel : nat) (origin : ServerName) (create_event : PduEvent) (room_id : RoomId)
    (room_version_id : rstr) (first_ts : N) (todo : list EventId) (st : PrevSearch) : NM PrevSearch :=
  match todo with
  | [] => mret st
  | prev_event_id :: todo =>
      match rounds with
      | O => out_of_fuel
      | S rounds =>
          pdus ← fetch_and_handle_outliers fuel origin [prev_event_id] create_event room_id room_version_id;
          match last pdus with
          | Some (pdu, json_opt) =>
              json ← match json_opt with
                     | Some json => mret (Some json)
                     | None =>
                         if bool_decide (max_fetch_prev_events < ps_amount st) then mret None
                         else o ← try_ok (ondb (get_outlier_pdu_json prev_event_id)); mret (mjoin o)
                     end;
              let '(st, new) := expand_prev first_ts prev_event_id pdu json st in
              prev_loop rounds fuel origin create_event room_id room_version_id first_ts (new ++ todo) st
          | None =>
              prev_loop rounds fuel origin create_event room_id room_version_id first_ts todo
                (MkPrevSearch (<[prev_event_id := ∅]> (ps_graph st)) (ps_info st) (ps_amount st))
          end
      end
  end.

Definition fetch_unknown_prev_events (rounds fuel : nat) (origin : ServerName) (create_event : PduEvent) (room_id : RoomId)
    (room_version_id : rstr) (initial_set : list EventId) :
    NM (list EventId * gmap EventId (PduEvent * CanonicalJsonObject)) :=
  o ← ondb (first_pdu_in_room room_id);
  first_pdu ← lift (ok_or o (BadDatabase "Failed to find first pdu in db."));
  st ← prev_loop rounds fuel origin create_event room_id room_version_id (origin_server_ts first_pdu)
    (reverse initial_set) (MkPrevSearch ∅ ∅ 0);
  sorted ← lift (ok_or (topological_sort (ps_graph st) (λ id, from_option (λ i, origin_server_ts i.1) 0 (ps_info st !! id)))
    (BadDatabase "Error sorting prev events"));
  mret (sorted, ps_info st).

(** ** Incoming events *)

Definition set_handling (room_id : RoomId) (event_id : EventId) : NM unit :=
  start_time ← instant_now;
  modify (λ n, set_handletime (<[room_id := (event_id, start_time)]> (roomid_federationhandletime n)) n).
Definition unset_handling (room_id : RoomId) : NM unit :=
  modify (λ n, set_handletime (delete room_id (roomid_federationhandletime n)) n).

Definition check_disabled (room_id : RoomId) : NM unit :=
  disabled ← ondb (is_disabled room_id);
  if (disabled : bool) then
    fail (BadRequest Forbidden "Federation of this room is currently disabled on this server.")
  else mret ().

(** The loop over the previous events, in order; it gives up after five failures. *)
Fixpoint handle_prev_events (fuel : nat) (create_event : PduEvent) (origin : ServerName) (room_id : RoomId) (first_ts : N)
    (sorted_prev_events : list EventId) (eventid_info : gmap EventId (PduEvent * CanonicalJsonObject)) (errors : N) : NM unit :=
  match sorted_prev_events with
  | [] => mret ()
  | prev_id :: rest =>
      check_disabled room_id ;;
      entry ← gets (λ n, bad_event_ratelimiter n !! prev_id);
      wait ← backing_off (5 * 60) entry;
      if (wait : bool) then handle_prev_events fuel create_event origin room_id first_ts rest eventid_info errors
      else if bool_decide (5 ≤ errors) then mret ()
      else
        match eventid_info !! prev_id with
        | Some (pdu, json) =>
            let eventid_info := delete prev_id eventid_info in
            if bool_decide (origin_server_ts pdu < first_ts) then
              handle_prev_events fuel create_event origin room_id first_ts rest eventid_info errors
            else
              set_handling room_id prev_id ;;
              r ← catch (upgrade_outlier_to_timeline_pdu fuel pdu json create_event origin room_id);
              errors ← match r with
                       | inl _ => mret errors
                       | inr _ => back_off_event prev_id ;; mret (errors + 1)
                       end;
              unset_handling room_id ;;
              handle_prev_events fuel create_event origin room_id first_ts rest eventid_info errors
        | None => handle_prev_events fuel create_event origin room_id first_ts rest eventid_info errors
        end
  end.

Definition handle_incoming_pdu (rounds fuel : nat) (origin : ServerName) (event_id : EventId) (room_id : RoomId)
    (value : CanonicalJsonObject) (is_timeline_event : bool) : NM (option bytes) :=
  exist ← ondb (room_exists room_id);
  if negb exist then fail (BadRequest NotFound "Room is unknown to this server")
  else
    check_disabled room_id ;;
    known ← ondb (get_pdu_id event_id);
    match known with
    | Some pdu_id => mret (Some pdu_id)
    | None =>
        o ← ondb (room_state_get room_id (lit "m.room.create") (lit ""));
        create_event ← lift (ok_or o (BadDatabase "Failed to find create event in db."));
        c ← lift (ok_or (create_content (content create_event)) (BadDatabase "Invalid create event in db"));
        let room_version_id := cc_room_version c in
        o ← ondb (first_pdu_in_room room_id);
        first_pdu ← lift (ok_or o (BadDatabase "Failed to find first pdu in db."));
        r ← handle_outlier_pdu fuel origin create_event event_id room_id value;
        let '(incoming_pdu, val) := (r : PduEvent * CanonicalJsonObject) in
        if negb is_timeline_event then mret None
        else if bool_decide (origin_server_ts incoming_pdu < origin_server_ts first_pdu) then mret None
        else
          r ← fetch_unknown_prev_events rounds fuel origin create_event room_id room_version_id (prev_events incoming_pdu);
          let '(sorted_prev_events, eventid_info) := (r : list EventId * gmap EventId (PduEvent * CanonicalJsonObject)) in
          handle_prev_events fuel create_event origin room_id (origin_server_ts first_pdu) sorted_prev_events eventid_info 0 ;;
          set_handling room_id event_id ;;
          r ← catch (upgrade_outlier_to_timeline_pdu fuel incoming_pdu val create_event origin room_id);
          unset_handling room_id ;;
          lift (match r with inl a => Ok a | inr e => Err e end)
    end.

(** ** Access control lists *)

Definition acl_check (server : ServerName) (room_id : RoomId) : DB unit :=
  o ← room_state_get room_id (lit "m.room.server_acl") (lit "");
  match o with
  | None => mret ()
  | Some acl_event =>
      match acl_content (content acl_event) with
      | None => mret ()
      | Some content =>
          if acl_is_allowed content server then mret ()
          else fail (BadRequest Forbidden "Server was denied by ACL")
      end
  end.
End event_handler.

(** ** Runs *)

(** The first step of a run that succeeded. *)
Ltac run_inv H x n1 E := apply bind_Ok_inv in H as (x & n1 & E & H).
(** The first step is a pure one. *)
Ltac lift_inv H x E :=
  let n1 := fresh "n" in let E0 := fresh "E" in
  run_inv H x n1 E; unfold lift at 1 in E; injection E as E E0; subst n1.

Lemma ok_or_Ok {A} (o : option A) e a : ok_or o e = Ok a → o = Some a.
Proof. destruct o; by intros [= ->]. Qed.

Section handler_theorems.
Context {Ev : Env} {EL : EventLib} {TL : TimelineLib} {Out : Outside} {HL : HandlerLib}.
Implicit Types n : Node.

(** Events looked up one after the other. *)
Inductive reads : State → list EventId → list (option PduEvent) → State → Prop :=
  | reads_nil d : reads d [] [] d
  | reads_cons d id o d1 ids os d2 :
      get_pdu id d = (Ok o, d1) → reads d1 ids os d2 → reads d (id :: ids) (o :: os) d2.

(** While the event cache agrees with the trees, these are the stored events. *)
Lemma reads_stored d ids os d' : pdu_cache_ok d → reads d ids os d' → os = stored_pdu d <$> ids.
Proof.
  intros Hc H. revert Hc. induction H as [|d id o d1 ids os d2 E _ IH]; intros Hc; cbn; [done|].
  destruct (get_pdu_run id d Hc) as (r & c & E' & Hc' & Hr). rewrite E in E'. injection E' as <- ->.
  rewrite (IH Hc'). f_equal. destruct (stored_pdu d id) as [p|]; naive_solver.
Qed.

(** The events of a list of lookups, by type and state key. *)
Definition keyed_by (os : list (option PduEvent)) (m : gmap (rstr * rstr) PduEvent) : Prop :=
  ∀ k e, m !! k = Some e ↔ Some e ∈ os ∧ kind e = k.1 ∧ state_key e = Some k.2.

Lemma add_auth_events_inv (ids : list EventId) (m m' : gmap (rstr * rstr) PduEvent) (d d' : State) :
  for_fold ids m add_auth_event d = (Ok m', d') →
  ∃ os, reads d ids os d' ∧
    ∀ k e, m' !! k = Some e ↔ m !! k = Some e ∨ Some e ∈ os ∧ kind e = k.1 ∧ state_key e = Some k.2.
Proof.
  revert m d. induction ids as [|id ids IH]; intros m d H; cbn [for_fold] in H.
  { injection H as -> ->. exists []. split; [constructor|]. intros k e. rewrite elem_of_nil. naive_solver. }
  run_inv H m1 n E. destruct (IH _ _ H) as (os & Hr & Hm). unfold add_auth_event in E. run_inv E o s E1.
  destruct o as [e1|].
  - lift_inv E key Ek. destruct (state_key e1) as [key'|] eqn:Es; [|done]. injection Ek as ->.
    destruct (m !! (kind e1, key)) eqn:Em; [done|]. injection E as <- <-.
    exists (Some e1 :: os). split; [by econstructor|]. intros [t k] e. rewrite Hm, lookup_insert_Some, elem_of_cons. cbn. split.
    + intros [[[Ek <-]|[_ ?]]|?]; [|by auto|naive_solver]. injection Ek as <- <-. by auto.
    + intros [He|([He|He] & Ht & Hk)]; [| |by auto].
      * left. right. split; [|done]. intros [= <- <-]. congruence.
      * injection He as ->. left. left. split; [congruence|done].
  - injection E as <- <-. exists (None :: os). split; [by econstructor|]. intros k e. rewrite Hm, elem_of_cons. naive_solver.
Qed.

(** The keys that are used are those gathered before for the request, and those
    found for a server that has signed the event: they have every key id of
    its signatures and are stored for that server. *)
Definition keys_gathered (value : CanonicalJsonObject) n n' : Prop :=
  ∀ s keys, obj_get s (nd_pub_key_map n') = Some keys →
    obj_get s (nd_pub_key_map n) = Some keys ∨
    ∃ signed signature server, canonical_get (lit "signatures") value = Some (JObj signed) ∧ (s, JObj signature) ∈ signed ∧
      parse_id valid_server_name s = Some server ∧
      (∀ id, id ∈ signature.*1 → is_Some (obj_get id keys)) ∧ covered n' server keys.

Lemma fetch_required_gathers value n n' :
  fetch_required_signing_keys value n = (Ok (), n') → keys_gathered value n n'.
Proof.
  unfold fetch_required_signing_keys. intros H. lift_inv H v Ev'. apply ok_or_Ok in Ev'. lift_inv H signed Es.
  destruct v as [| | | | |signed']; try done. injection Es as ->.
  enough (∀ l n0, l ⊆ signed → keys_gathered value n n0 → ∀ n1, for_each l (λ '(signature_server, signature),
    signature_object ← lift (match signature with
      | JObj l => Ok l
      | _ => Err (BadServerResponse "Invalid signatures content object in server response pdu.")
      end);
    origin ← lift (ok_or (parse_id valid_server_name signature_server)
      (BadServerResponse "Invalid servername in signatures of server response pdu."));
    fetch_res ← try_ok (fetch_signing_keys origin signature_object.*1);
    match fetch_res with
    | Some keys => modify (λ n, set_pub_key_map (obj_insert signature_server keys (nd_pub_key_map n)) n)
    | None => mret ()
    end) n0 = (Ok (), n1) → keys_gathered value n n1) as Hl by (eapply Hl; [|by left|exact H]; done).
  clear H n'. induction l as [|[s sig] l IH]; intros n0 Hl Hg n1 H; cbn [for_each] in H; [by injection H as <-|].
  run_inv H u n2 E. destruct u. lift_inv E obj Eo. destruct sig as [| | | | |obj']; try done. injection Eo as ->.
  lift_inv E server Ep. apply ok_or_Ok in Ep. run_inv E r n3 E3.
  eapply IH; [by intros x Hx; apply Hl; right| |exact H]. clear H IH.
  apply try_fetch_inv in E3 as (Hk & Hc & Hr).
  assert (keys_gathered value n n3) as Hg3.
  { intros s' keys. rewrite Hk. intros [?|(x & y & o & ? & ? & ? & ? & Hcov)]%Hg; [by left|right].
    exists x, y, o. split_and!; try done. by apply Hc. }
  destruct r as [keys|]; [|by injection E as <-]. unfold modify in E. injection E as <-.
  destruct (Hr keys eq_refl) as [Hids Hcov]. intros s' keys'. cbn [nd_pub_key_map set_pub_key_map]. rewrite obj_get_insert. case_decide as Hs.
  - intros [= <-]. subst s'. right. exists signed, obj, server. split_and!; [done| |done| |exact Hcov].
    + apply Hl. left.
    + by apply contains_all_ids_spec.
  - intros H'. apply Hg3 in H' as [?|(x & y & o & ? & ? & ? & ? & Hcov')]; [by left|right]. exists x, y, o. split_and!; done.
Qed.

Lemma verified_object_inv value id v n pdu val n' :
  verified_object value id v n = (Ok (pdu, val), n') →
  n' = n ∧ pdu_of_canonical val = Some pdu ∧
  ∃ trusted, val = canonical_insert (lit "event_id") (JStr (as_str id)) trusted ∧
    (verify_event (nd_pub_key_map n) value v = Some VerifiedAll ∧ trusted = value ∨
     verify_event (nd_pub_key_map n) value v = Some VerifiedSignatures ∧ canonical_redact value v = Some trusted).
Proof.
  unfold verified_object. rewrite bind_gets. intros H. lift_inv H trusted Et. lift_inv H p Ep.
  injection H as -> <- <-. split; [done|]. split.
  - exact (ok_or_Ok _ _ _ Ep).
  - exists trusted. split; [done|]. destruct (verify_event _ _ _) as [[]|]; simplify_eq/=; [by left|].
    right. split; [done|]. by destruct (canonical_redact _ _); simplify_eq/=.
Qed.

Lemma check_auth_events_inv ce pdu v n n' :
  check_auth_events ce pdu v n = (Ok (), n') →
  ∃ (auth : gmap (rstr * rstr) PduEvent) os, reads (nd_db n) (auth_events pdu) os (nd_db n') ∧ keyed_by os auth ∧
    event_id <$> auth !! (lit "m.room.create", lit "") = Some (event_id ce) ∧
    auth_check v pdu (auth !!.) = Some true.
Proof.
  unfold check_auth_events. intros H. run_inv H auth n1 E.
  apply ondb_inv in E as (d & E & ->). apply add_auth_events_inv in E as (os & R & Hm).
  case_decide as Hc; [done|]. lift_inv H b Eb.
  destruct b; [|done]. injection H as <-. exists auth, os. split_and!; [exact R| |done|].
  - intros k e. rewrite Hm, lookup_empty. naive_solver.
  - exact (ok_or_Ok _ _ _ Eb).
Qed.

Lemma version_of_create_inv ce v :
  version_of_create ce = Ok v → ∃ c, create_content (content ce) = Some c ∧ cc_room_version c = v ∧ room_version_supported v = true.
Proof.
  unfold version_of_create. destruct (create_content _) as [c|]; [|done]. cbn.
  destruct (room_version_supported _) eqn:E; [|done]. intros [= <-]. by exists c.
Qed.

(** C1: An event of another server is accepted as an outlier only if its signatures
    are valid under the keys gathered for the request (those of the servers that
    signed it are fetched first, and are stored; an event whose content does not have
    the hash it claims is redacted first), its fields are those of an event, and it is
    allowed by exactly those of its authorisation events that are known after the
    missing ones were fetched, the create event of the room being one of them.  It is
    then stored under its id. *)
Theorem handle_outlier_pdu_sound fuel origin ce id room value n pdu val n' :
  handle_outlier_pdu fuel origin ce id room value n = (Ok (pdu, val), n') →
  let object := canonical_remove (lit "unsigned") value in
  ∃ v n1 n2 d3 fuel' fetched trusted (auth : gmap (rstr * rstr) PduEvent) os,
    version_of_create ce = Ok v ∧
    fetch_required_signing_keys object n = (Ok (), n1) ∧ keys_gathered object n n1 ∧
    (verify_event (nd_pub_key_map n1) object v = Some VerifiedAll ∧ trusted = object ∨
     verify_event (nd_pub_key_map n1) object v = Some VerifiedSignatures ∧ canonical_redact object v = Some trusted) ∧
    val = canonical_insert (lit "event_id") (JStr (as_str id)) trusted ∧
    pdu_of_canonical val = Some pdu ∧
    fetch_and_handle_outliers fuel' origin (auth_events pdu) ce room v n1 = (Ok fetched, n2) ∧
    reads (nd_db n2) (auth_events pdu) os d3 ∧ keyed_by os auth ∧
    (pdu_cache_ok (nd_db n2) → os = stored_pdu (nd_db n2) <$> auth_events pdu) ∧
    event_id <$> auth !! (lit "m.room.create", lit "") = Some (event_id ce) ∧
    auth_check v pdu (auth !!.) = Some true ∧
    db_map (nd_db n') eventid_outlierpdu !! idb (event_id pdu) = Some (to_vec val).
Proof.
  destruct fuel as [|fuel]; [done|]. cbn [handle_outlier_pdu]. intros H.
  run_inv H u n0 E0. destruct u. lift_inv H v Ev'. run_inv H r n1 E1. destruct r as [pdu1 val1].
  apply verified_object_inv in E1 as (-> & Hp & trusted & -> & Ht).
  run_inv H ps n2 E2. run_inv H u3 n3 E3. destruct u3.
  apply check_auth_events_inv in E3 as (auth & os & R & Hk & Hc & Ha).
  run_inv H u4 n4 E4. apply ondb_inv in E4 as (d & E4 & ->). injection H as -> <- <-.
  unfold add_pdu_outlier in E4. rewrite t_insert_run in E4. injection E4 as _ <-.
  exists v, n0, n2, (nd_db n3), fuel, ps, trusted, auth, os. split_and!; try done.
  - by apply fetch_required_gathers.
  - intros Hok. by eapply reads_stored.
  - change (nd_db (with_db ?d n3)) with d. by rewrite db_map_put_eq, lookup_insert_eq.
Qed.

(** ** Frames *)

(** The trees outside [ts] are the same. *)
Definition nagree (ts : list TreeId) n n' : Prop := agree ts (nd_db n) (nd_db n').
#[export] Instance nagree_preorder ts : PreOrder (nagree ts).
Proof. unfold nagree. split; [intros n; reflexivity|]. intros n1 n2 n3 H1 H2. by etrans. Qed.

Lemma nagree_mono {A} ts ts' (m : NM A) : preserves (nagree ts) m → ts ⊆ ts' → preserves (nagree ts') m.
Proof. intros H Hs n. exact (agree_mono _ _ _ _ Hs (H n)). Qed.
Lemma ondb_keeps {A} ts (m : DB A) : keeps ts m → preserves (nagree ts) (ondb m).
Proof.
  intros H n. specialize (H (nd_db n)). destruct (m (nd_db n)) as [r d] eqn:E. by rewrite (ondb_run _ _ _ _ E).
Qed.
Lemma on_server_keeps {A} ts (m : SM A) : preserves (sagree ts) m → preserves (nagree ts) (on_server m).
Proof.
  intros H n. specialize (H (nd_server n)). unfold on_server, nagree. by destruct (m (nd_server n)) as [r s].
Qed.
Lemma catch_keeps {A} ts (m : NM A) : preserves (nagree ts) m → preserves (nagree ts) (catch m).
Proof. intros H n. specialize (H n). unfold catch. by destruct (m n) as [[]]. Qed.
Lemma send_keeps {A} dest (req : FedRequest A) : preserves (nagree []) (send_federation_request dest req).
Proof. intros n. apply (send_quiet dest req n). Qed.
Lemma modify_keeps (f : Node → Node) : (∀ n, nd_server (f n) = nd_server n) → preserves (nagree []) (modify f).
Proof. intros H n t _. cbn. unfold nd_db. by rewrite H. Qed.
End handler_theorems.

(** The frame of a program of the server from the frames of the operations it calls. *)
Create HintDb handler.
#[export] Hint Resolve @send_keeps : handler.
#[export] Hint Extern 1 (preserves _ (modify _)) => simple apply modify_keeps; reflexivity : handler.
Ltac node_step :=
  lazymatch goal with
  | |- preserves _ (mret _) => apply preserves_ret, _
  | |- preserves _ (lift _) => apply preserves_lift, _
  | |- preserves _ (fail _) => apply preserves_fail, _
  | |- preserves _ out_of_fuel => apply preserves_lift, _
  | |- preserves _ (gets _) => apply preserves_gets, _
  | |- preserves _ instant_now => apply preserves_gets, _
  | |- preserves _ (try_ok _) => apply preserves_try_ok; [apply _|]
  | |- preserves _ (catch _) => apply catch_keeps
  | |- preserves _ (for_each _ _) => apply preserves_for_each; [apply _|intros]
  | |- preserves _ (for_fold _ _ _) => apply preserves_for_fold; [apply _|intros]
  | |- preserves _ (_ ≫= _) => apply preserves_bind; [apply _| |intros]
  | |- preserves _ (match ?x with _ => _ end) => destruct x
  | |- preserves _ (let '_ := ?x in _) => destruct x
  | |- preserves _ (ondb _) => apply ondb_keeps; keeps_tac
  | |- preserves _ _ => first [assumption | eapply nagree_mono; [solve [eauto 2 with handler]|by_compute]]
  end.
Ltac node_tac := intros; repeat node_step.

Section handler_frames.
Context {Ev : Env} {EL : EventLib} {TL : TimelineLib} {Out : Outside} {HL : HandlerLib}.
Implicit Types n : Node.

Lemma backing_off_keeps b e : preserves (nagree []) (backing_off b e).
Proof. unfold backing_off. node_tac. Qed.
Lemma back_off_event_keeps id : preserves (nagree []) (back_off_event id).
Proof. unfold back_off_event. node_tac. Qed.
Lemma back_off_signature_keeps ids : preserves (nagree []) (back_off_signature ids).
Proof. unfold back_off_signature. node_tac. Qed.
Lemma add_signing_key_keeps o k : keeps [server_signingkeys] (add_signing_key o k).
Proof. unfold add_signing_key. keeps_tac. Qed.
Lemma signing_keys_for_keeps o : keeps [] (signing_keys_for o).
Proof. unfold signing_keys_for. keeps_tac. Qed.
Hint Resolve backing_off_keeps back_off_event_keeps back_off_signature_keeps : handler.
Hint Resolve add_signing_key_keeps signing_keys_for_keeps : keeps.

Lemma ask_trusted_keeps o ids l r : preserves (nagree [server_signingkeys]) (ask_trusted o ids l r).
Proof. revert r. induction l; intros r; cbn [ask_trusted]; node_tac; auto. Qed.
Hint Resolve ask_trusted_keeps : handler.
Lemma fetch_signing_keys_keeps o ids : preserves (nagree [server_signingkeys]) (fetch_signing_keys o ids).
Proof. unfold fetch_signing_keys. node_tac. Qed.
Hint Resolve fetch_signing_keys_keeps : handler.
Lemma fetch_required_signing_keys_keeps e : preserves (nagree [server_signingkeys]) (fetch_required_signing_keys e).
Proof. unfold fetch_required_signing_keys. node_tac. Qed.
Hint Resolve fetch_required_signing_keys_keeps : handler.

Lemma fetch_chain_keeps fuel o v todo acc all : preserves (nagree []) (fetch_chain fuel o v todo acc all).
Proof.
  revert todo acc all. induction fuel as [|fuel IH]; intros [|e todo] acc all; cbn [fetch_chain]; node_tac; apply IH.
Qed.
Hint Resolve fetch_chain_keeps : handler.

(** What accepting outliers may change. *)
Definition outlier_trees : list TreeId := [eventid_outlierpdu; server_signingkeys].

Lemma fetch_outliers_keeps fuel h o v es :
  (∀ id val, preserves (nagree outlier_trees) (h id val)) → preserves (nagree outlier_trees) (fetch_outliers fuel h o v es).
Proof. intros H. unfold fetch_outliers, fetch_outlier. node_tac. Qed.
Lemma handle_outlier_pdu_keeps fuel o ce id r val :
  preserves (nagree outlier_trees) (handle_outlier_pdu fuel o ce id r val).
Proof.
  revert id val. induction fuel as [|fuel IH]; intros id val; cbn [handle_outlier_pdu]; [node_tac|].
  unfold verified_object, check_auth_events, add_auth_event, add_pdu_outlier. node_tac.
  by apply fetch_outliers_keeps.
Qed.
Lemma fetch_and_handle_outliers_keeps fuel o es ce r v :
  preserves (nagree outlier_trees) (fetch_and_handle_outliers fuel o es ce r v).
Proof. apply fetch_outliers_keeps. intros. apply handle_outlier_pdu_keeps. Qed.

(** The trees of the numberings and of the stored chains. *)
Definition number_trees : list TreeId :=
  [global; eventid_shorteventid; shorteventid_eventid; statekey_shortstatekey; shortstatekey_statekey;
   shorteventid_authchain].
Definition state_at_trees : list TreeId := outlier_trees ++ number_trees.

Lemma state_full_ids_keeps h : keeps [] (state_full_ids h).
Proof. unfold state_full_ids. keeps_tac. Qed.
Lemma get_statekey_from_short_keeps k : keeps [] (get_statekey_from_short k).
Proof. unfold get_statekey_from_short. keeps_tac. Qed.
Lemma compress_state_event_keeps k e :
  keeps [global; eventid_shorteventid; shorteventid_eventid] (compress_state_event k e).
Proof. unfold compress_state_event. keeps_tac. Qed.
Hint Resolve state_full_ids_keeps get_statekey_from_short_keeps compress_state_event_keeps : keeps.
Lemma chain_loop_keeps fuel r todo found : keeps number_trees (chain_loop fuel r todo found).
Proof.
  revert todo found. induction fuel as [|fuel IH]; intros todo found; cbn [chain_loop]; [keeps_tac|].
  unfold visit. keeps_tac; apply IH.
Qed.
Lemma get_auth_chain_keeps fuel r es : keeps number_trees (get_auth_chain fuel r es).
Proof.
  unfold get_auth_chain, add_start, do_chunk, chunk_event, get_auth_chain_inner, add_event_of_short,
    get_cached_eventid_authchain, cache_auth_chain. pose proof chain_loop_keeps. keeps_tac.
Qed.
Hint Resolve get_auth_chain_keeps : keeps.
Lemma auth_chain_set_keeps fuel r es : keeps number_trees (auth_chain_set fuel r es).
Proof. unfold auth_chain_set. keeps_tac. Qed.
Lemma with_event_keeps st p id : keeps number_trees (with_event st p id).
Proof. unfold with_event. keeps_tac. Qed.
Lemma named_state_keeps st : keeps [] (named_state st).
Proof. unfold named_state. keeps_tac. Qed.
Hint Resolve auth_chain_set_keeps with_event_keeps named_state_keeps : keeps.
Lemma cached_state_keeps e : keeps number_trees (cached_state e).
Proof. unfold cached_state. keeps_tac. Qed.
Lemma extremity_sstatehashes_keeps es m : keeps [] (extremity_sstatehashes es m).
Proof. revert m. induction es; intros m; cbn [extremity_sstatehashes]; keeps_tac. Qed.
Hint Resolve cached_state_keeps extremity_sstatehashes_keeps : keeps.
Lemma resolved_state_keeps fuel r v es : keeps number_trees (resolved_state fuel r v es).
Proof. unfold resolved_state, fork_state, numbered_state. keeps_tac. Qed.
Lemma compress_state_keeps st : keeps [global; eventid_shorteventid; shorteventid_eventid] (compress_state st).
Proof. unfold compress_state. keeps_tac. Qed.
Lemma remaining_extremities_keeps r es : keeps [] (remaining_extremities r es).
Proof. unfold remaining_extremities, is_event_referenced. keeps_tac. Qed.
Lemma get_auth_events_keeps r k u sk c : keeps [] (get_auth_events r k u sk c).
Proof. unfold get_auth_events, short_auth_type, auth_entry. keeps_tac. Qed.
Hint Resolve resolved_state_keeps compress_state_keeps remaining_extremities_keeps get_auth_events_keeps : keeps.
Hint Resolve fetch_and_handle_outliers_keeps : handler.

Lemma state_at_keeps fuel o ce r v p : preserves (nagree state_at_trees) (state_at fuel o ce r v p).
Proof. unfold state_at, asked_state. node_tac. Qed.
End handler_frames.

(** ** Theorems *)

Section handler_properties.
Context {Ev : Env} {EL : EventLib} {TL : TimelineLib} {Out : Outside} {HL : HandlerLib}.
Implicit Types n : Node.

(** C32: Fetching and checking events of another server, however many further events
    it leads to, changes nothing but the outliers and the stored keys: not the
    timeline, the state, the extremities or the members of any room. *)
Theorem outliers_safe fuel origin events ce room v n r n' t :
  fetch_and_handle_outliers fuel origin events ce room v n = (r, n') →
  t ≠ eventid_outlierpdu → t ≠ server_signingkeys → db_map (nd_db n') t = db_map (nd_db n) t.
Proof.
  intros E H1 H2. pose proof (fetch_and_handle_outliers_keeps fuel origin events ce room v n) as H.
  rewrite E in H. apply H. unfold outlier_trees. set_solver.
Qed.

Lemma ondb_get_pdu_id e n : ondb (get_pdu_id e) n = (Ok (db_map (nd_db n) eventid_pduid !! idb e), n).
Proof.
  erewrite ondb_run; [|unfold get_pdu_id; apply t_get_run]. by destruct n as [[[]]].
Qed.
Lemma ondb_soft_failed e n :
  ondb (is_event_soft_failed e) n = (Ok (bool_decide (is_Some (db_map (nd_db n) softfailedeventids !! idb e))), n).
Proof.
  erewrite ondb_run; [|unfold is_event_soft_failed; rewrite (bind_Ok _ _ _ _ _ (t_get_run _ _ _)); reflexivity].
  by destruct n as [[[]]].
Qed.

(** The checks an event passes before the last one: the state before the event
    is known in [n1] and allows it; [auth] are the events of the current state
    that decide, read in [n4]. *)
Record Checked (fuel : nat) (origin : ServerName) (ce : PduEvent) (room : RoomId) (pdu : PduEvent) n (v : rstr)
    (state : gmap N EventId) (ext : gset EventId) (comp : list CompressedStateEvent)
    (auth : gmap (rstr * rstr) PduEvent) n1 n4 : Prop := {
  ck_new : db_map (nd_db n) eventid_pduid !! idb (event_id pdu) = None;
  ck_fresh : db_map (nd_db n) softfailedeventids !! idb (event_id pdu) = None;
  ck_version : version_of_create ce = Ok v;
  ck_state : state_at fuel origin ce room v pdu n = (Ok state, n1);
  ck_allowed : auth_check v pdu (state_event state (nd_db n1)) = Some true;
  ck_current : ∃ n2 n3,
    ondb (remaining_extremities room (prev_events pdu)) n1 = (Ok ext, n2) ∧
    ondb (compress_state state) n2 = (Ok comp, n3) ∧
    ondb (get_auth_events room (kind pdu) (sender pdu) (state_key pdu) (content pdu)) n3 = (Ok auth, n4);
}.

(** What the checks may change. *)
Lemma checked_agree fuel origin ce room pdu n v state ext comp auth n1 n4 :
  Checked fuel origin ce room pdu n v state ext comp auth n1 n4 →
  nagree state_at_trees n n4 ∧ nagree number_trees n1 n4.
Proof.
  intros [_ _ _ E1 _ (n2 & n3 & E2 & E3 & E4)].
  apply (preserves_inv _ _ _ _ _ (state_at_keeps fuel origin ce room v pdu)) in E1.
  apply (preserves_inv _ _ _ _ _ (ondb_keeps _ _ (remaining_extremities_keeps _ _))) in E2.
  apply (preserves_inv _ _ _ _ _ (ondb_keeps _ _ (compress_state_keeps _))) in E3.
  apply (preserves_inv _ _ _ _ _ (ondb_keeps _ _ (get_auth_events_keeps _ _ _ _ _))) in E4.
  assert (nagree number_trees n1 n4) as H.
  { unfold nagree in *. agree_via E2. agree_via E3. agree_via E4. done. }
  split; [|done]. unfold nagree in *. etrans; [exact E1|]. eapply agree_mono; [|exact H]. by_compute.
Qed.

(** The run of an event that passes the checks up to the last one. *)
Lemma upgrade_checked fuel origin ce room pdu val n v state ext comp auth n1 n4 :
  Checked fuel origin ce room pdu n v state ext comp auth n1 n4 →
  upgrade_outlier_to_timeline_pdu fuel pdu val ce origin room n =
  (allowed ← lift (ok_or (auth_check v pdu (auth !!.)) (BadRequest InvalidParam "Auth check failed."));
   if negb allowed then
     on_server (append_incoming_pdu pdu val (elements ext) comp true) ;;
     ondb (mark_event_soft_failed (event_id pdu)) ;;
     fail (BadRequest InvalidParam "Event has been soft failed")
   else
     (if bool_decide (is_Some (state_key pdu)) then ondb (update_room_state fuel room v pdu state ext) else mret ()) ;;
     on_server (append_incoming_pdu pdu val (elements ({[event_id pdu]} ∪ ext)) comp false)) n4.
Proof.
  intros [Hn Hf Hv E1 Ha (n2 & n3 & E2 & E3 & E4)]. unfold upgrade_outlier_to_timeline_pdu.
  rewrite (bind_Ok _ _ n (Some None) n); [|unfold try_ok; by rewrite ondb_get_pdu_id, Hn]. cbn [mjoin option_join].
  rewrite (bind_Ok _ _ _ _ _ (ondb_soft_failed _ _)), Hf, bool_decide_false by (by intros []).
  rewrite Hv, bind_lift_Ok, (bind_Ok _ _ _ _ _ E1), bind_gets, Ha. cbn [ok_or negb]. rewrite bind_lift_Ok. cbn [negb].
  rewrite (bind_Ok _ _ _ _ _ E2), (bind_Ok _ _ _ _ _ E3), (bind_Ok _ _ _ _ _ E4). done.
Qed.

Lemma append_soft_keeps pdu val leaves comp :
  preserves (sagree (numbering_trees ++ [shortstatehash_statediff; statehash_shortstatehash; shorteventid_shortstatehash; referencedevents; roomid_pduleaves]))
    (append_incoming_pdu pdu val leaves comp true).
Proof. unfold append_incoming_pdu, StateService.set_event_state. server_tac. Qed.

(** Some trees are as they were. *)
Definition still (ts : list TreeId) n n' : Prop := ∀ t, t ∈ ts → db_map (nd_db n') t = db_map (nd_db n) t.
#[export] Instance still_preorder ts : PreOrder (still ts).
Proof. split; [by intros n t|]. intros n1 n2 n3 H1 H2 t Ht. by rewrite H2, H1. Qed.
Lemma nagree_still {A} ts ts' (m : NM A) :
  preserves (nagree ts') m → forallb (λ t, bool_decide (t ∉ ts')) ts = true → preserves (still ts) m.
Proof.
  intros H Hts n t Ht%list_elem_of_In. apply H. rewrite forallb_forall in Hts. by apply (bool_decide_eq_true_1 _), Hts.
Qed.
Lemma lift_still {A} ts (x : res A) : preserves (still ts) (lift x).
Proof. apply preserves_lift, _. Qed.

(** The trees of the timeline and of the room states. *)
Definition timeline_trees : list TreeId := [pduid_pdu; eventid_pduid; roomid_shortstatehash].

(** C2: Whatever the outcome of the treatment of an event of another server, the
    timeline or the state of a room changes only if the event was not in the
    timeline, was not soft failed before, the state before it allows it, and the
    current state of the room allows it. *)
Theorem upgrade_outlier_sound fuel pdu val ce origin room n r n' :
  upgrade_outlier_to_timeline_pdu fuel pdu val ce origin room n = (r, n') → ¬ still timeline_trees n n' →
  ∃ v state ext comp auth n1 n4, Checked fuel origin ce room pdu n v state ext comp auth n1 n4 ∧
    auth_check v pdu (auth !!.) = Some true.
Proof.
  intros H Hne. unfold upgrade_outlier_to_timeline_pdu in H. unfold mbind at 1, M_bind at 1, try_ok at 1 in H.
  rewrite ondb_get_pdu_id in H.
  destruct (db_map (nd_db n) eventid_pduid !! idb (event_id pdu)) as [id|] eqn:Hn; cbn [mjoin option_join] in H.
  { injection H as _ <-. by destruct Hne. }
  rewrite (bind_Ok _ _ _ _ _ (ondb_soft_failed _ _)) in H.
  destruct (db_map (nd_db n) softfailedeventids !! _) eqn:Hf.
  { rewrite bool_decide_true in H by done. injection H as _ <-. by destruct Hne. }
  rewrite bool_decide_false in H by (by intros []).
  apply (bind_moved (still timeline_trees)) in H as (v & n0 & E0 & H & Hne'); [|apply lift_still|exact Hne]. injection E0 as Hv <-.
  apply (bind_moved (still timeline_trees)) in H as (state & n1 & E1 & H & Hne1); [|eapply nagree_still; [apply state_at_keeps|reflexivity]|done].
  rewrite bind_gets in H.
  apply (bind_moved (still timeline_trees)) in H as (b & n1' & Ha & H & Hne2); [|apply lift_still|done]. injection Ha as Ha <-.
  destruct b; cbn [negb] in H; [|injection H as _ <-; by destruct Hne2].
  apply (bind_moved (still timeline_trees)) in H as (ext & n2 & E2 & H & Hne3);
    [|eapply nagree_still; [apply ondb_keeps, remaining_extremities_keeps|reflexivity]|done].
  apply (bind_moved (still timeline_trees)) in H as (comp & n3 & E3 & H & Hne4);
    [|eapply nagree_still; [apply ondb_keeps, compress_state_keeps|reflexivity]|done].
  apply (bind_moved (still timeline_trees)) in H as (auth & n4 & E4 & H & Hne5);
    [|eapply nagree_still; [apply ondb_keeps, get_auth_events_keeps|reflexivity]|done].
  apply (bind_moved (still timeline_trees)) in H as (b & n4' & Hb & H & Hne6); [|apply lift_still|done]. injection Hb as Hb <-.
  destruct b; cbn [negb] in H.
  - exists v, state, ext, comp, auth, n1, n4. split; [split; try done; [|by exists n2, n3]|].
    + exact (ok_or_Ok _ _ _ Ha).
    + exact (ok_or_Ok _ _ _ Hb).
  - exfalso. apply Hne6. eapply (preserves_inv (still timeline_trees)); [|exact H]. apply preserves_bind; [apply _| |intros].
    + eapply nagree_still; [apply on_server_keeps, append_soft_keeps|reflexivity].
    + apply preserves_bind; [apply _| |intros; apply preserves_fail, _].
      eapply (nagree_still _ [softfailedeventids]); [apply ondb_keeps; unfold mark_event_soft_failed; keeps_tac|reflexivity].
Qed.

(** An event that only the current state of the room forbids is soft failed: the
    timeline and the state of every room stay as they were, the event is marked,
    and a later attempt is refused at once. *)
Theorem upgrade_soft_fail fuel pdu val ce origin room n v state ext comp auth n1 n4 o n5 :
  Checked fuel origin ce room pdu n v state ext comp auth n1 n4 →
  auth_check v pdu (auth !!.) = Some false →
  on_server (append_incoming_pdu pdu val (elements ext) comp true) n4 = (Ok o, n5) →
  ∃ n', upgrade_outlier_to_timeline_pdu fuel pdu val ce origin room n =
      (Err (BadRequest InvalidParam "Event has been soft failed"), n') ∧
    (∀ t, t ∈ [pduid_pdu; eventid_pduid; roomid_shortstatehash; userroomid_joined; roomuserid_joined] →
       db_map (nd_db n') t = db_map (nd_db n) t) ∧
    ∀ fuel' val' ce' origin',
      upgrade_outlier_to_timeline_pdu fuel' pdu val' ce' origin' room n' =
      (Err (BadRequest InvalidParam "Event has been soft failed"), n').
Proof.
  intros C Ha E5. rewrite (upgrade_checked _ _ _ _ _ val _ _ _ _ _ _ _ _ C), Ha. cbn [ok_or negb]. rewrite bind_lift_Ok.
  cbn [negb]. rewrite (bind_Ok _ _ _ _ _ E5).
  erewrite bind_Ok; [|apply ondb_run; unfold mark_event_soft_failed; apply t_insert_run].
  eexists. split; [done|]. set (n' := with_db _ _).
  destruct (checked_agree _ _ _ _ _ _ _ _ _ _ _ _ _ C) as [A1 _].
  apply (preserves_inv _ _ _ _ _ (on_server_keeps _ _ (append_soft_keeps pdu val (elements ext) comp))) in E5.
  assert (∀ t, t ∉ softfailedeventids :: referencedevents :: roomid_pduleaves :: state_at_trees ++ numbering_trees ++
      [shortstatehash_statediff; statehash_shortstatehash; shorteventid_shortstatehash] →
      db_map (nd_db n') t = db_map (nd_db n) t) as A.
  { intros t Ht. unfold n'. change (nd_db (with_db ?d n5)) with d. rewrite db_map_put_ne by set_solver.
    rewrite (E5 t), (A1 t); [done|set_solver..]. }
  split.
  - intros t Ht. apply A. revert t Ht. rewrite <- Forall_forall. by_compute.
  - intros. unfold upgrade_outlier_to_timeline_pdu.
    rewrite (bind_Ok _ _ n' (Some None) n').
    + cbn [mjoin option_join]. rewrite (bind_Ok _ _ _ _ _ (ondb_soft_failed _ _)), bool_decide_true; [done|].
      unfold n'. change (nd_db (with_db ?d n5)) with d. by rewrite db_map_put_eq, lookup_insert_eq.
    + unfold try_ok. rewrite ondb_get_pdu_id, A; [by rewrite (ck_new _ _ _ _ _ _ _ _ _ _ _ _ _ C)|]. by_compute.
Qed.

(** ** The guards of an incoming event *)

Lemma room_exists_state room d : (room_exists room d).2 = d.
Proof.
  unfold room_exists, get_shortroomid, t_get, t_iter_from, lift, gets, mbind, M_bind, mret, M_ret.
  destruct (kv_get _ _) as [b|]; cbn; [|done]. unfold parse_u64. by destruct (u64_from_bytes b).
Qed.
Lemma ondb_room_exists room n r : (room_exists room (nd_db n)).1 = r → ondb (room_exists room) n = (r, n).
Proof.
  intros <-. pose proof (room_exists_state room (nd_db n)) as E. destruct (room_exists room (nd_db n)) as [r d] eqn:Er.
  cbn in E. subst d. rewrite (ondb_run _ _ _ _ Er). by destruct n as [[[]]].
Qed.
Lemma check_disabled_run room n :
  check_disabled room n =
  (if decide (is_Some (db_map (nd_db n) disabledroomids !! idb room)) then
     Err (BadRequest Forbidden "Federation of this room is currently disabled on this server.")
   else Ok (), n).
Proof.
  unfold check_disabled. rewrite (bind_Ok _ _ n (bool_decide (is_Some (db_map (nd_db n) disabledroomids !! idb room))) n).
  - case_decide; [by rewrite bool_decide_true|by rewrite bool_decide_false].
  - erewrite ondb_run; [|unfold is_disabled; rewrite (bind_Ok _ _ _ _ _ (t_get_run _ _ _)); reflexivity].
    by destruct n as [[[]]].
Qed.

(** An incoming event of a room this server has no event of, or whose federation
    is disabled, is refused, and one that is in the timeline already is not
    handled again; in all three cases nothing changes. *)
Theorem handle_incoming_pdu_guards rounds fuel origin id room value is_timeline n exist :
  (room_exists room (nd_db n)).1 = Ok exist →
  (exist = false →
     handle_incoming_pdu rounds fuel origin id room value is_timeline n =
     (Err (BadRequest NotFound "Room is unknown to this server"), n)) ∧
  (exist = true → is_Some (db_map (nd_db n) disabledroomids !! idb room) →
     handle_incoming_pdu rounds fuel origin id room value is_timeline n =
     (Err (BadRequest Forbidden "Federation of this room is currently disabled on this server."), n)) ∧
  (∀ pdu_id, exist = true → db_map (nd_db n) disabledroomids !! idb room = None →
     db_map (nd_db n) eventid_pduid !! idb id = Some pdu_id →
     handle_incoming_pdu rounds fuel origin id room value is_timeline n = (Ok (Some pdu_id), n)).
Proof.
  intros E. apply ondb_room_exists in E. unfold handle_incoming_pdu. rewrite (bind_Ok _ _ _ _ _ E). split_and!.
  - by intros ->.
  - intros -> Hd. cbn [negb]. pose proof (check_disabled_run room n) as Hr. rewrite decide_True in Hr by done.
    unfold mbind at 1, M_bind at 1. by rewrite Hr.
  - intros pdu_id -> Hd Hi. cbn [negb]. pose proof (check_disabled_run room n) as Hr.
    rewrite decide_False in Hr by (rewrite Hd; by intros []). rewrite (bind_Ok _ _ _ _ _ Hr).
    by rewrite (bind_Ok _ _ _ _ _ (ondb_get_pdu_id _ _)), Hi.
Qed.

(** ** The search for previous events ends *)

Lemma expand_prev_cases first id pdu js st st' new :
  expand_prev first id pdu js st = (st', new) →
  ps_amount st' = ps_amount st ∧ new = [] ∨
  ps_amount st ≤ max_fetch_prev_events ∧ ps_amount st' = ps_amount st + 1.
Proof.
  unfold expand_prev. case_bool_decide as Hm; [intros [= <- <-]; by left|].
  destruct js as [js|]; [|intros [= <- <-]; by left].
  case_bool_decide; intros [= <- <-]; [right|by left]. cbn. lia.
Qed.

Section prev_loop.
(** Fetching one event returns, and keeps [I]. *)
Context (fuel : nat) (origin : ServerName) (ce : PduEvent) (room : RoomId) (v : rstr) (first_ts : N).
Context (I : Node → Prop).
Hypothesis fetch_returns : ∀ id n, I n →
  ∃ pdus n', fetch_and_handle_outliers fuel origin [id] ce room v n = (Ok pdus, n') ∧ I n'.
Hypothesis outlier_keeps : ∀ id n, I n → ∃ o n', try_ok (ondb (get_outlier_pdu_json id)) n = (Ok o, n') ∧ I n'.

(** One round. *)
Lemma prev_round id st n :
  I n → ∃ st' new n', I n' ∧
    (ps_amount st' = ps_amount st ∧ new = [] ∨
     ps_amount st ≤ max_fetch_prev_events ∧ ps_amount st' = ps_amount st + 1) ∧
    ∀ rounds todo, prev_loop (S rounds) fuel origin ce room v first_ts (id :: todo) st n =
      prev_loop rounds fuel origin ce room v first_ts (new ++ todo) st' n'.
Proof using Type*.
  intros Hn. destruct (fetch_returns id n Hn) as (pdus & n1 & E1 & I1).
  destruct (last pdus) as [[pdu js]|] eqn:El.
  - assert (∃ js' n2, match js with
        | Some json => mret (Some json)
        | None => if bool_decide (max_fetch_prev_events < ps_amount st) then mret None
                  else o ← try_ok (ondb (get_outlier_pdu_json id)); mret (mjoin o)
        end n1 = (Ok js', n2) ∧ I n2) as (js' & n2 & E2 & I2).
    { destruct js as [js|]; [by eexists _, _|]. case_bool_decide; [by eexists _, _|].
      destruct (outlier_keeps id n1 I1) as (o & n2 & E2 & I2). rewrite (bind_Ok _ _ _ _ _ E2). by eexists _, _. }
    destruct (expand_prev first_ts id pdu js' st) as [st' new] eqn:Ee.
    exists st', new, n2. split; [done|]. split; [by eapply expand_prev_cases|]. intros rounds todo. cbn [prev_loop].
    rewrite (bind_Ok _ _ _ _ _ E1), El, (bind_Ok _ _ _ _ _ E2). by rewrite Ee.
  - exists (MkPrevSearch (<[id := ∅]> (ps_graph st)) (ps_info st) (ps_amount st)), [], n1.
    split; [done|]. split; [by left|]. intros rounds todo. cbn [prev_loop]. by rewrite (bind_Ok _ _ _ _ _ E1), El.
Qed.

Lemma prev_loop_returns (k : nat) st todo n :
  I n → ps_amount st ≤ max_fetch_prev_events + 1 → (N.to_nat (max_fetch_prev_events + 1 - ps_amount st) ≤ k)%nat →
  ∃ rounds st' n', I n' ∧ ps_amount st' ≤ max_fetch_prev_events + 1 ∧
    ∀ more, prev_loop (rounds + more) fuel origin ce room v first_ts todo st n = (Ok st', n').
Proof using Type*.
  revert st todo n. induction k as [k IHk] using lt_wf_ind. intros st todo. revert st.
  induction todo as [|id todo IH]; intros st n Hn Ha Hk.
  { exists O, st, n. split_and!; [done..|]. by intros [|]. }
  destruct (prev_round id st n Hn) as (st1 & new & n1 & I1 & [[Ea ->]|[Hle Ea]] & Hr).
  - destruct (IH st1 n1) as (rounds & st' & n' & ? & ? & H); [done|lia..|].
    exists (S rounds), st', n'. split_and!; [done..|]. intros more. cbn [Nat.add]. rewrite Hr. apply H.
  - destruct (IHk (N.to_nat (max_fetch_prev_events + 1 - ps_amount st1)) ltac:(lia) st1 (new ++ todo) n1)
      as (rounds & st' & n' & ? & ? & H); [done|lia..|].
    exists (S rounds), st', n'. split_and!; [done..|]. intros more. cbn [Nat.add]. rewrite Hr. apply H.
Qed.

(** However long a chain of previous events another server presents, the search
    for them ends, provided the fetching of each single event does; it expands
    at most one event more than the configured limit. *)
Theorem prev_search_terminates initial n :
  I n → ∃ rounds st n', ps_amount st ≤ max_fetch_prev_events + 1 ∧
    ∀ more, prev_loop (rounds + more) fuel origin ce room v first_ts initial (MkPrevSearch ∅ ∅ 0) n = (Ok st, n').
Proof using Type*.
  intros Hn. destruct (prev_loop_returns (N.to_nat (max_fetch_prev_events + 1)) (MkPrevSearch ∅ ∅ 0) initial n)
    as (rounds & st & n' & _ & ? & ?); [done|cbn; lia..|]. by exists rounds, st, n'.
Qed.
End prev_loop.

(** ** Events that authorise themselves *)

(** The server [origin] answers a request for the event [a] with an object that is
    signed by [server], and that names [a] as its only authorisation event. *)
Record SelfReference (origin : ServerName) (v : rstr) (a : EventId) (value : CanonicalJsonObject) (server : ServerName)
    (keys : VerifyKeys) (ids : list KeyId) : Prop := {
  sr_answer : ∀ w, ∃ raw x w', world_send origin (GetEvent a) w = (inl raw, w') ∧
    gen_event_id_canonical_json raw v = Ok (x, value);
  sr_named : named_auth_events value = [a];
  sr_signed : ∃ sigs, canonical_get (lit "signatures") (canonical_remove (lit "unsigned") value) =
      Some (JObj [(as_str server, JObj sigs)]) ∧ sigs.*1 = ids;
  sr_verified : ∀ m, obj_get (as_str server) m = Some keys →
    verify_event m (canonical_remove (lit "unsigned") value) v = Some VerifiedAll;
  sr_event : ∃ pdu, pdu_of_canonical (canonical_insert (lit "event_id") (JStr (as_str a))
      (canonical_remove (lit "unsigned") value)) = Some pdu ∧ auth_events pdu = [a];
}.

(** The event [a] is not known, its fetching is not held back, and the keys it is
    signed with are stored. *)
Record Unseen (a : EventId) (server : ServerName) (keys : VerifyKeys) (ids : list KeyId) n : Prop := {
  un_timeline : db_map (nd_db n) eventid_pduid !! idb a = None;
  un_outlier : db_map (nd_db n) eventid_outlierpdu !! idb a = None;
  un_cache : lru_peek (pdu_cache (nd_db n)) a = None;
  un_limit : bad_event_ratelimiter n !! a = None;
  un_try : may_try n ids;
  un_keys : stored_keys n server = keys ∧ contains_all_ids ids keys = true;
}.

Lemma get_pdu_absent a d :
  db_map d eventid_pduid !! idb a = None → db_map d eventid_outlierpdu !! idb a = None → lru_peek (pdu_cache d) a = None →
  get_pdu a d = (Ok None, set_pdu_cache (lru_get_mut a (pdu_cache d)).2 d).
Proof.
  intros H1 H2 H3. unfold get_pdu. erewrite bind_Ok by apply cache_get_run. rewrite H3.
  set (d1 := set_pdu_cache _ _). rewrite (bind_Ok _ _ d1 None d1); [done|].
  unfold event_text. rewrite (bind_Ok _ _ d1 None d1) by (rewrite t_get_run; unfold d1; db_simpl; by rewrite H1).
  rewrite t_get_run. unfold d1. db_simpl. by rewrite H2.
Qed.

Section diverges.
Context (origin : ServerName) (v : rstr) (a : EventId) (value : CanonicalJsonObject) (server : ServerName).
Context (keys : VerifyKeys) (ids : list KeyId).
Abbreviation unseen := (Unseen a server keys ids).

Lemma unseen_get_pdu n : unseen n → ∃ n', try_ok (ondb (get_pdu a)) n = (Ok (Some None), n') ∧ unseen n'.
Proof.
  intros [H1 H2 H3 H4 H5 H6]. eexists. unfold try_ok.
  rewrite (ondb_run _ _ _ _ (get_pdu_absent _ _ H1 H2 H3)). split; [done|]. split; try done.
  change (nd_db (with_db ?d n)) with d. cbn. by rewrite lru_peek_get.
Qed.
Lemma unseen_send {A} dest (req : FedRequest A) n r w :
  unseen n → world_send dest req (nd_world n) = (inl r, w) →
  ∃ n', try_ok (send_federation_request dest req) n = (Ok (Some r), n') ∧ unseen n'.
Proof.
  intros [H1 H2 H3 H4 H5 H6] E. pose proof (send_quiet dest req n) as Q. unfold try_ok, send_federation_request in *.
  rewrite E in *. cbn [snd] in Q. eexists. split; [done|]. destruct Q as [Qa Qn _ Qs _]. split; try done.
  - intros time tries. rewrite Qs. intros [? ?]%H5. split; [done|]. lia.
Qed.
Lemma unseen_keys n m : unseen n → unseen (set_pub_key_map m n).
Proof. by intros []. Qed.

Context (SR : SelfReference origin v a value server keys ids).

Lemma fetch_chain_self fuel n :
  unseen n →
  (fetch_chain fuel origin v [a] [] ∅ n).1 = Panic "out of fuel" ∨
  ∃ n', fetch_chain fuel origin v [a] [] ∅ n = (Ok [(a, value)], n') ∧ unseen n'.
Proof using SR.
  intros U. destruct fuel as [|fuel]; [by left|]. cbn [fetch_chain]. rewrite decide_False by set_solver.
  destruct (unseen_get_pdu n U) as (n1 & E1 & U1). rewrite (bind_Ok _ _ _ _ _ E1). cbn [mjoin option_join].
  destruct (sr_answer _ _ _ _ _ _ _ SR (nd_world n1)) as (raw & x & w & Ew & Eg).
  destruct (unseen_send _ _ _ _ _ U1 Ew) as (n2 & E2 & U2). rewrite (bind_Ok _ _ _ _ _ E2), Eg.
  rewrite (sr_named _ _ _ _ _ _ _ SR). change (reverse [a] ++ []) with [a].
  destruct fuel as [|fuel]; [by left|]. right. cbn [fetch_chain]. rewrite decide_True by set_solver.
  exists n2. split; [|done]. by destruct fuel.
Qed.

Lemma fetch_required_self n :
  unseen n → ∃ n', fetch_required_signing_keys (canonical_remove (lit "unsigned") value) n = (Ok (), n') ∧ unseen n' ∧
    obj_get (as_str server) (nd_pub_key_map n') = Some keys.
Proof using SR.
  intros U. destruct (sr_signed _ _ _ _ _ _ _ SR) as (sigs & Es & Ei). unfold fetch_required_signing_keys. rewrite Es.
  cbn [ok_or]. rewrite !bind_lift_Ok. cbn [for_each].
  assert (try_ok (fetch_signing_keys server ids) n = (Ok (Some keys), n)) as E.
  { unfold try_ok. destruct (un_keys _ _ _ _ _ U) as [<- Hc]. by rewrite (fetch_local n server ids (un_try _ _ _ _ _ U) Hc). }
  eexists. split.
  - erewrite bind_Ok; [reflexivity|]. rewrite bind_lift_Ok, parse_as_str. cbn [ok_or]. rewrite bind_lift_Ok, Ei.
    by rewrite (bind_Ok _ _ _ _ _ E).
  - split; [by apply unseen_keys|]. cbn. by rewrite obj_get_insert, decide_True.
Qed.

(** C38: If another server answers a request for an event with a properly signed event
    that names itself as its authorisation event, handling it never ends: every
    nested call fetches the event again and starts to handle it.  That the
    answer does not have the requested id is noticed, but only logged. *)
Theorem self_reference_diverges ce room fuel n :
  version_of_create ce = Ok v → unseen n →
  (handle_outlier_pdu fuel origin ce a room value n).1 = Panic "out of fuel".
Proof using SR.
  intros Hv. revert n. induction fuel as [|fuel IH]; intros n U; [done|]. cbn [handle_outlier_pdu].
  destruct (fetch_required_self n U) as (n1 & E1 & U1 & Hk). rewrite (bind_Ok _ _ _ _ _ E1), Hv, bind_lift_Ok.
  destruct (sr_event _ _ _ _ _ _ _ SR) as (pdu & Ep & Ea).
  erewrite (bind_Ok _ _ n1); [|unfold verified_object; rewrite bind_gets, (sr_verified _ _ _ _ _ _ _ SR _ Hk), bind_lift_Ok, Ep; reflexivity].
  cbv beta iota zeta. rewrite Ea. unfold fetch_outliers. cbn [for_fold].
  assert (∀ h, (∀ n, unseen n → (h a value n).1 = Panic "out of fuel") →
    (fetch_outlier fuel h origin v [] a n1).1 = Panic "out of fuel") as H.
  { intros h Hh. unfold fetch_outlier. rewrite bind_gets, (un_limit _ _ _ _ _ U1). cbn [backing_off]. rewrite bind_ret.
    destruct (unseen_get_pdu n1 U1) as (n2 & E2 & U2). rewrite (bind_Ok _ _ _ _ _ E2). cbn [mjoin option_join].
    destruct (fetch_chain_self fuel n2 U2) as [Hp|(n3 & E3 & U3)].
    - unfold mbind, M_bind. by destruct (fetch_chain fuel origin v [a] [] ∅ n2) as [[]]; simplify_eq/=.
    - rewrite (bind_Ok _ _ _ _ _ E3). cbn [for_fold]. unfold mbind, M_bind, catch. specialize (Hh n3 U3).
      by destruct (h a value n3) as [[]]; simplify_eq/=. }
  specialize (H (λ id v, handle_outlier_pdu fuel origin ce id room v) IH). unfold mbind, M_bind.
  by destruct (fetch_outlier _ _ _ _ _ _ n1) as [[]]; simplify_eq/=.
Qed.
End diverges.
End handler_properties.
