(* ===== verification/Request.v ===== *)
(** * Requests ([src/api/ruma_wrapper/axum.rs], [src/api/ruma_wrapper/mod.rs])

    Who sends a request: from the access token, from the registration of an
    appservice, or from the signature of another server in the [X-Matrix] header;
    and the request as it is handed to a route. *)

From S2P Require Import Prelude Bytes RStr Error Utils KvTree Env Db Keys Globals Frames Users StateCache Uiaa ClientData EventFormat OpFrames TimelineService Federation EventHandler.

(** ** The [X-Matrix] header *)

(** The white space [str::trim_start] removes, in UTF-8. *)
Fixpoint trim_start (bs : bytes) : bytes :=
  match bs with
  | (x09 | x0a | x0b | x0c | x0d | x20) :: bs => trim_start bs
  | xc2 :: (x85 | xa0) :: bs => trim_start bs
  | xe1 :: x9a :: x80 :: bs => trim_start bs
  | xe2 :: x80 :: (x80 | x81 | x82 | x83 | x84 | x85 | x86 | x87 | x88 | x89 | x8a | xa8 | xa9 | xaf) :: bs => trim_start bs
  | xe2 :: x81 :: x9f :: bs => trim_start bs
  | xe3 :: x80 :: x80 :: bs => trim_start bs
  | _ => bs
  end.

(** [split_terminator(c)]: the pieces between the occurrences of [c], without an
    empty last piece. *)
Fixpoint split_terminator (c : byte) (bs piece : bytes) : list bytes :=
  match bs with
  | [] => match piece with [] => [] | _ => [piece] end
  | b :: bs => if decide (b = c) then piece :: split_terminator c bs [] else split_terminator c bs (piece ++ [b])
  end.

(** [split_once(c)] *)
Fixpoint split_once (c : byte) (bs : bytes) : option (bytes * bytes) :=
  match bs with
  | [] => None
  | b :: bs =>
      if decide (b = c) then Some ([], bs)
      else '(x, y) ← split_once c bs; Some (b :: x, y)
  end.

(** [strip_prefix('quote').and_then(|rest| rest.strip_suffix('quote')).unwrap_or(value)] *)
Definition strip_quotes (value : bytes) : bytes :=
  match value with
  | x22 :: rest =>
      match reverse rest with
      | x22 :: tser => reverse tser
      | _ => value
      end
  | _ => value
  end.

Section x_matrix.
Context {Ev : Env}.

Record XMatrix := MkXMatrix { xm_origin : ServerName; xm_key : rstr; xm_sig : rstr }.

(** The fields read so far. *)
Record XFields := MkXFields { xf_origin : option ServerName; xf_key : option rstr; xf_sig : option rstr }.

Definition x_field (f : XFields) (entry : bytes) : option XFields :=
  '(name, value) ← split_once x3d entry;
  value ← from_utf8 (strip_quotes value);
  if decide (name = b#"origin") then
    origin ← parse_id valid_server_name value;
    Some (MkXFields (Some origin) (xf_key f) (xf_sig f))
  else if decide (name = b#"key") then Some (MkXFields (xf_origin f) (Some value) (xf_sig f))
  else if decide (name = b#"sig") then Some (MkXFields (xf_origin f) (xf_key f) (Some value))
  else Some f.

(** [Credentials::decode]; pieces of a valid string cut at ASCII characters are valid. *)
Definition x_matrix_decode (value : bytes) : option XMatrix :=
  s ← from_utf8 (drop (length b#"X-Matrix ") value);
  f ← foldl (λ f entry, f ≫= λ f, x_field f entry) (Some (MkXFields None None None))
        (split_terminator x2c (trim_start (as_bytes s)) []);
  origin ← xf_origin f;
  key ← xf_key f;
  sig ← xf_sig f;
  Some (MkXMatrix origin key sig).

(** What [send_request] of [src/api/server_server.rs] writes. *)
Definition x_matrix_header (origin : ServerName) (key sig : rstr) : bytes :=
  b#"X-Matrix origin=" ++ idb origin ++ b#",key=" ++ [x22] ++ as_bytes key ++ [x22] ++
  b#",sig=" ++ [x22] ++ as_bytes sig ++ [x22].
End x_matrix.

(** ** Requests *)

Inductive AuthScheme := SchemeNone | SchemeAccessToken | SchemeServerSignatures.
Inductive HeaderRejection := HeaderMissing | HeaderError | HeaderOther.

Section request.
Context {Ev : Env} {Out : Outside}.

(** [Ruma<T>]: a request as a route receives it. *)
Record Request (T : Type) := MkRequest {
  body : T;
  sender_user : option UserId;
  sender_device : option DeviceId;
  sender_servername : option ServerName;
  json_body : option json;
  from_appservice : bool
}.

(** What the code uses of the HTTP library, of serde and of ruma's signatures. *)
Class HttpLib := {
  HttpRequest : Type;
  http_method : HttpRequest → rstr;
  http_uri : HttpRequest → rstr;
  http_query : HttpRequest → option rstr;
  (** the bytes of the body, unless reading them fails *)
  http_body : HttpRequest → option bytes;
  (** the token of an [Authorization: Bearer] header *)
  bearer_token : HttpRequest → option rstr;
  path_params : HttpRequest → res (list rstr);
  (** [access_token] and [user_id] of a query string *)
  parse_query : rstr → option (option rstr * option rstr);
  (** the [Authorization] header with the scheme [X-Matrix], decoded *)
  x_matrix : (bytes → option XMatrix) → HttpRequest → XMatrix + HeaderRejection;
  canonical_from_slice : bytes → option json;
  canonical_to_vec : json → bytes;
  verify_json : list (rstr * VerifyKeys) → list (rstr * json) → bool;
}.

(** The type of a request: its authentication, and its reading from the body and
    the parameters of the path. *)
Class IncomingRequest `{!HttpLib} (T : Type) := {
  authentication : AuthScheme;
  try_from_http_request : HttpRequest → bytes → list rstr → option T;
}.

Context {HttpL : HttpLib}.

(** The registration whose [as_token] is the token. *)
Definition has_as_token (token : option rstr) (registration : rstr * json) : bool :=
  match json_get (lit "as_token") registration.2 ≫= as_string with
  | Some as_token => bool_decide (token = Some as_token)
  | None => false
  end.

(** The four answers of the authentication. *)
Record Sender := MkSender {
  sd_user : option UserId;
  sd_device : option DeviceId;
  sd_servername : option ServerName;
  sd_appservice : bool
}.

Definition appservice_sender (scheme : AuthScheme) (registration : json) (user_id : option rstr) : NM Sender :=
  match scheme with
  | SchemeAccessToken =>
      user_id ← lift (match user_id with
        | None =>
            localpart ← expect (json_get (lit "sender_localpart") registration ≫= as_string) "called Option::unwrap on a None value";
            expect (parse_with_server_name localpart server_name) "called Result::unwrap on an Err value"
        | Some s => expect (parse_id valid_user_id s) "called Result::unwrap on an Err value"
        end);
      known ← unwrap (ondb (exists_user user_id));
      if (known : bool) then mret (MkSender (Some user_id) None None true)
      else fail (BadRequest Forbidden "User does not exist.")
  | _ => mret (MkSender None None None true)
  end.

Definition token_sender (token : option rstr) : NM Sender :=
  token ← lift (ok_or token (BadRequest MissingToken "Missing access token."));
  o ← unwrap (ondb (find_from_token token));
  match o with
  | None => fail (BadRequest (UnknownToken false) "Unknown access token.")
  | Some (user_id, device_id) => mret (MkSender (Some user_id) (Some device_id) None false)
  end.

(** The object the other server has signed for the one it names as destination. *)
Definition signed_map (method uri : rstr) (destination : ServerName) (x : XMatrix) (json_body : option json) : list (rstr * json) :=
  let m := obj_of
    [(lit "method", JStr method); (lit "uri", JStr uri);
     (lit "origin", id_value (xm_origin x)); (lit "destination", id_value destination);
     (lit "signatures", JObj [(as_str (xm_origin x), JObj [(xm_key x, JStr (xm_sig x))])])] in
  match json_body with
  | Some json_body => obj_insert (lit "content") json_body m
  | None => m
  end.
Definition request_map (req : HttpRequest) (x : XMatrix) (json_body : option json) : list (rstr * json) :=
  signed_map (http_method req) (http_uri req) server_name x json_body.

Definition server_sender (req : HttpRequest) (json_body : option json) : NM Sender :=
  x ← lift (match x_matrix x_matrix_decode req with
            | inl x => Ok x
            | inr HeaderMissing => Err (BadRequest Forbidden "Missing Authorization header.")
            | inr HeaderError => Err (BadRequest Forbidden "Invalid X-Matrix signatures.")
            | inr HeaderOther => Err (BadRequest Forbidden "Unknown header-related error")
            end);
  keys ← catch (fetch_signing_keys (xm_origin x) [xm_key x]);
  match keys with
  | inr _ => fail (BadRequest Forbidden "Failed to fetch signing keys.")
  | inl keys =>
      if verify_json [(as_str (xm_origin x), keys)] (request_map req x json_body) then
        mret (MkSender None None (Some (xm_origin x)) false)
      else fail (BadRequest Forbidden "Failed to verify X-Matrix signatures.")
  end.

(** The fields of an earlier request of the same UIAA session are added. *)
Definition merge_uiaa (sender : Sender) (fields : list (rstr * json)) : NM (list (rstr * json)) :=
  user_id ← lift (match sd_user sender with
                  | Some user_id => Ok user_id
                  | None => expect (parse_with_server_name (lit "") server_name) "we know this is valid"
                  end);
  uiaa_request ← match (auth ← obj_get (lit "auth") fields; session ← json_get (lit "session") auth; as_string session) with
                 | Some session => ondb (get_uiaa_request user_id (default (lit "") (sd_device sender)) session)
                 | None => mret None
                 end;
  mret (match uiaa_request with
        | Some (JObj initial_request) =>
            foldl (λ fields e, match obj_get e.1 fields with Some _ => fields | None => obj_insert e.1 e.2 fields end)
              fields initial_request
        | _ => fields
        end).

Definition authenticate (scheme : AuthScheme) (req : HttpRequest) (query : option rstr * option rstr) (json_body : option json)
    : NM Sender :=
  let token := match bearer_token req with Some token => Some token | None => query.1 end in
  appservices ← unwrap (ondb ClientData.all);
  match list_find (λ a, has_as_token token a = true) appservices with
  | Some (_, (_, registration)) => appservice_sender scheme registration query.2
  | None =>
      match scheme with
      | SchemeAccessToken => token_sender token
      | SchemeServerSignatures => server_sender req json_body
      | SchemeNone => mret (MkSender None None None false)
      end
  end.

Definition from_request {T} `{!IncomingRequest T} (req : HttpRequest) : NM (Request T) :=
  path_params ← lift (path_params req);
  query ← lift (ok_or (parse_query (default (lit "") (http_query req)))
                  (BadRequest Unknown "Failed to read query parameters"));
  body ← lift (ok_or (http_body req) (BadRequest MissingToken "Missing token."));
  let json_body := canonical_from_slice body in
  sender ← authenticate authentication req query json_body;
  r ← match json_body with
      | Some (JObj fields) =>
          fields ← merge_uiaa sender fields;
          mret (Some (JObj fields), canonical_to_vec (JObj fields))
      | _ => mret (json_body, body)
      end;
  let '(json_body, body) := (r : option json * bytes) in
  body ← lift (ok_or (try_from_http_request req body path_params)
                 (BadRequest BadJson "Failed to deserialize request."));
  mret (MkRequest _ body (sd_user sender) (sd_device sender) (sd_servername sender) json_body (sd_appservice sender)).
End request.
Arguments MkRequest {Ev T}.
Arguments body {Ev T}.
Arguments sender_user {Ev T}.
Arguments sender_device {Ev T}.
Arguments sender_servername {Ev T}.
Arguments json_body {Ev T}.
Arguments from_appservice {Ev T}.

(** ** Theorems on the header *)

Lemma split_terminator_piece c l r p : c ∉ l → split_terminator c (l ++ c :: r) p = (p ++ l) :: split_terminator c r [].
Proof.
  revert p. induction l as [|b l IH]; intros p Hc; cbn.
  - by rewrite decide_True, app_nil_r.
  - apply not_elem_of_cons in Hc as [Hb Hc]. rewrite decide_False by done. rewrite IH by done. by rewrite <- app_assoc.
Qed.
Lemma split_terminator_last c l p : c ∉ l → l ≠ [] → split_terminator c l p = [p ++ l].
Proof.
  revert p. induction l as [|b l IH]; intros p Hc Hl; [done|]. apply not_elem_of_cons in Hc as [Hb Hc]. cbn.
  rewrite decide_False by done. destruct l as [|b' l]; [cbn; by destruct p|]. rewrite IH by done. by rewrite <- app_assoc.
Qed.
Lemma split_once_first c l r : c ∉ l → split_once c (l ++ c :: r) = Some (l, r).
Proof.
  induction l as [|b l IH]; intros Hc; cbn; [by rewrite decide_True|].
  apply not_elem_of_cons in Hc as [Hb Hc]. rewrite decide_False by done. by rewrite IH.
Qed.
Lemma strip_quotes_quoted l : strip_quotes (x22 :: l ++ [x22]) = l.
Proof. cbn. rewrite reverse_app. cbn. apply reverse_involutive. Qed.
Lemma strip_quotes_plain l : head l ≠ Some x22 → strip_quotes l = l.
Proof. destruct l as [|b l]; [done|]. cbn. destruct b; done. Qed.

Section x_matrix_theorems.
Context {Ev : Env}.

Lemma x_field_run f name value (s : rstr) :
  x3d ∉ name → strip_quotes value = as_bytes s → x_field f (name ++ x3d :: value) =
  if decide (name = b#"origin") then
    origin ← parse_id valid_server_name s; Some (MkXFields (Some origin) (xf_key f) (xf_sig f))
  else if decide (name = b#"key") then Some (MkXFields (xf_origin f) (Some s) (xf_sig f))
  else if decide (name = b#"sig") then Some (MkXFields (xf_origin f) (xf_key f) (Some s))
  else Some f.
Proof.
  intros Hn Hv. unfold x_field. rewrite split_once_first by done. cbn [mbind option_bind]. rewrite Hv.
  by rewrite from_utf8_as_bytes.
Qed.

(** The header a server writes for its requests is read back by the server that
    receives them, as long as the name, the key id and the signature contain no
    comma and the name does not start with a quotation mark. *)
Theorem x_matrix_roundtrip (origin : ServerName) (key sig : rstr) :
  x2c ∉ idb origin → x2c ∉ as_bytes key → x2c ∉ as_bytes sig → head (idb origin) ≠ Some x22 →
  x_matrix_decode (x_matrix_header origin key sig) = Some (MkXMatrix origin key sig).
Proof.
  intros Ho Hk Hs Hq. unfold x_matrix_decode, x_matrix_header.
  set (q := MkStr [x22] eq_refl).
  set (str := str_app (lit "origin=") (str_app (as_str origin) (str_app (lit ",key=") (str_app q (str_app key (str_app q
    (str_app (lit ",sig=") (str_app q (str_app sig q))))))))).
  assert (drop (length b#"X-Matrix ") (b#"X-Matrix origin=" ++ idb origin ++ b#",key=" ++ [x22] ++ as_bytes key ++ [x22] ++
    b#",sig=" ++ [x22] ++ as_bytes sig ++ [x22]) = as_bytes str) as -> by done.
  rewrite from_utf8_as_bytes. cbn [mbind option_bind].
  assert (trim_start (as_bytes str) = (b#"origin" ++ x3d :: idb origin) ++ x2c :: (b#"key" ++ x3d :: x22 :: as_bytes key ++ [x22]) ++
    x2c :: (b#"sig" ++ x3d :: x22 :: as_bytes sig ++ [x22])) as ->.
  { change (as_bytes str) with (b#"origin=" ++ idb origin ++ b#",key=" ++ [x22] ++ as_bytes key ++ [x22] ++ b#",sig=" ++ [x22] ++ as_bytes sig ++ [x22]).
    cbn. repeat (rewrite <- app_assoc; cbn). done. }
  rewrite !split_terminator_piece by (cbn; set_solver).
  assert (split_terminator x2c (b#"sig" ++ x3d :: x22 :: as_bytes sig ++ [x22]) [] = [b#"sig" ++ x3d :: x22 :: as_bytes sig ++ [x22]]) as ->.
  { apply (split_terminator_last _ _ []); [|done]. cbn. set_solver. }
  cbn [app foldl mbind option_bind].
  rewrite (x_field_run _ b#"origin" (idb origin) (as_str origin)); [|by_compute|by apply strip_quotes_plain].
  rewrite decide_True, parse_as_str by done. cbn [mbind option_bind].
  rewrite (x_field_run _ b#"key" _ key); [|by_compute|apply strip_quotes_quoted].
  rewrite decide_False, decide_True by done. cbn [mbind option_bind].
  rewrite (x_field_run _ b#"sig" _ sig); [|by_compute|apply strip_quotes_quoted].
  by rewrite !decide_False, decide_True by done.
Qed.
End x_matrix_theorems.

(** ** Theorems on the sender *)

Section sender_theorems.
Context {Ev : Env} {Out : Outside} {HttpL : HttpLib}.
Implicit Types n : Node.

(** The token of a request: that of the header, else that of the query. *)
Definition request_token (req : HttpRequest) (query : option rstr * option rstr) : option rstr :=
  match bearer_token req with Some token => Some token | None => query.1 end.

(** What the sender of a request is, by the way it authenticates. *)
Definition sender_ok (scheme : AuthScheme) (req : HttpRequest) (query : option rstr * option rstr) (js : option json) n
    (sender : Sender) : Prop :=
  match scheme with
  | SchemeAccessToken =>
      ∃ t u d, request_token req query = Some t ∧ (find_from_token t (nd_db n)).1 = Ok (Some (u, d)) ∧
        sender = MkSender (Some u) (Some d) None false
  | SchemeServerSignatures =>
      ∃ x keys n1 n2, x_matrix x_matrix_decode req = inl x ∧ nagree [] n n1 ∧
        fetch_signing_keys (xm_origin x) [xm_key x] n1 = (Ok keys, n2) ∧
        verify_json [(as_str (xm_origin x), keys)] (request_map req x js) = true ∧
        sender = MkSender None None (Some (xm_origin x)) false
  | SchemeNone => sender = MkSender None None None false
  end.

(** The sender of an appservice's request is a user that has an account, and no
    device. *)
Definition appservice_ok (scheme : AuthScheme) n (sender : Sender) : Prop :=
  match scheme with
  | SchemeAccessToken => ∃ u, sender = MkSender (Some u) None None true ∧ is_Some (db_map (nd_db n) userid_password !! idb u)
  | _ => sender = MkSender None None None true
  end.

Lemma unwrap_inv {S A} (m : M S A) s a s' : unwrap m s = (Ok a, s') → m s = (Ok a, s').
Proof. unfold unwrap. destruct (m s) as [[]]; naive_solver. Qed.

Lemma find_from_token_agree t d d' : agree [] d d' → (find_from_token t d').1 = (find_from_token t d).1.
Proof.
  intros H. unfold find_from_token. rewrite !(bind_Ok _ _ _ _ _ (t_get_run _ _ _)).
  rewrite (H token_userdeviceid (not_elem_of_nil _)). by destruct (_ !! _).
Qed.

Lemma authenticate_inv scheme req query js n sender n' :
  authenticate scheme req query js n = (Ok sender, n') →
  ∃ apps n1, ondb ClientData.all n = (Ok apps, n1) ∧
    match list_find (λ a, has_as_token (request_token req query) a = true) apps with
    | Some _ => appservice_ok scheme n sender
    | None => sender_ok scheme req query js n sender
    end.
Proof.
  unfold authenticate. intros H. run_inv H apps n1 E. apply unwrap_inv in E. exists apps, n1. split; [done|].
  apply (preserves_inv _ _ _ _ _ (ondb_keeps _ _ appservice_all_keeps)) in E. fold (request_token req query) in H.
  destruct (list_find _ apps) as [[i [id registration]]|].
  - destruct scheme; [by injection H as <- <-| |by injection H as <- <-]. cbn [appservice_sender] in H. lift_inv H u Eu.
    run_inv H b n2 Eb. apply unwrap_inv in Eb. destruct b; [|done]. injection H as <- <-. exists u. split; [done|].
    apply ondb_inv in Eb as (d & Eb & _). unfold exists_user in Eb. rewrite (bind_Ok _ _ _ _ _ (t_get_run _ _ _)) in Eb.
    injection Eb as Eb _. apply bool_decide_eq_true in Eb. by rewrite (E userid_password (not_elem_of_nil _)) in Eb.
  - destruct scheme; [by injection H as <- <-| |].
    + unfold token_sender in H. lift_inv H t Et. apply ok_or_Ok in Et. run_inv H o n2 Eo. apply unwrap_inv in Eo.
      destruct o as [[u d]|]; [|done]. injection H as <- <-. exists t, u, d. split_and!; [done| |done].
      apply ondb_inv in Eo as (d1 & Eo & _). rewrite <- (find_from_token_agree _ _ _ E). by rewrite Eo.
    + unfold server_sender in H. lift_inv H x Ex. run_inv H k n2 Ek.
      destruct k as [keys|]; [|done]. destruct (verify_json _ _) eqn:Ev'; [|done]. injection H as <- <-.
      exists x, keys, n1, n2. split_and!; try done.
      * by destruct (x_matrix _ _) as [|[]]; simplify_eq/=.
      * unfold catch in Ek. destruct (fetch_signing_keys _ _ n1) as [[]]; naive_solver.
Qed.

(** C8: A request reaches a route only with the sender it proves to be: a request with
    an access token is that of the user and the device the token was given to, a
    request of another server carries a valid signature of that server over the
    method, the address, this server's name and the content, and a request with
    the token of an appservice is that of a user that exists. *)
Theorem from_request_sound {T} `{!IncomingRequest T} req n (r : Request T) n' :
  from_request req n = (Ok r, n') →
  ∃ query bs apps n1,
    parse_query (default (lit "") (http_query req)) = Some query ∧ http_body req = Some bs ∧
    ondb ClientData.all n = (Ok apps, n1) ∧
    let sender := MkSender (sender_user r) (sender_device r) (sender_servername r) (from_appservice r) in
    match list_find (λ a, has_as_token (request_token req query) a = true) apps with
    | Some _ => appservice_ok authentication n sender
    | None => sender_ok authentication req query (canonical_from_slice bs) n sender
    end.
Proof.
  unfold from_request. intros H. lift_inv H params Ep. lift_inv H query Eqr. apply ok_or_Ok in Eqr.
  lift_inv H bs Eb. apply ok_or_Ok in Eb. run_inv H sd n1 Es. run_inv H p n2 Er. destruct p as [js b].
  lift_inv H x Ex. injection H as <- <-. apply authenticate_inv in Es as (apps & n3 & Ea & Hs).
  exists query, bs, apps, n3. split_and!; [done..|]. cbn. by destruct sd.
Qed.
End sender_theorems.
