(* ===== verification/Admin.v ===== *)
(** * Room contents and the admin room ([src/service/admin/mod.rs],
    [src/service/users/mod.rs])

    The contents of the events this server makes itself, the creation of the admin
    room at the first start, the way a user becomes an admin, and the task that
    posts in the admin room. *)

From S2P Require Import Prelude Bytes RStr Error Utils KvTree Env Db Keys Globals Frames Short Users StateCache RoomIndex EventFormat TimelineService Federation.

(** ** Contents *)

Inductive HistoryVisibility := HShared | HWorldReadable | HOther (v : rstr).
Inductive GuestAccess := GCanJoin | GForbidden | GOther (v : rstr).

Section contents.
Context {Ev : Env}.

(** The rules by which one may join; a restricted room names other rooms. *)
Inductive AllowRule := RoomMembership (room_id : RoomId) | OtherAllow (rule : json).
Inductive JoinRule :=
  | JPublic
  | JInvite
  | JRestricted (allow : list AllowRule)
  | JKnockRestricted (allow : list AllowRule)
  | JOther (rule : json).

Record RoomMemberEventContent := MkMember {
  rm_membership : MembershipState;
  rm_displayname : option rstr;
  rm_avatar_url : option rstr;
  rm_is_direct : option bool;
  rm_third_party_invite : option json;
  rm_blurhash : option rstr;
  rm_reason : option rstr;
  rm_join_authorized_via_users_server : option UserId
}.

(** [RoomCreateEventContent]: the fields the code sets. *)
Record RoomCreateEventContent := MkCreate {
  rc_creator : UserId;
  rc_federate : bool;
  rc_room_version : rstr;
  rc_predecessor : option (RoomId * EventId)
}.

(** The contents the code makes, as arguments of [to_raw_value]. *)
Inductive RoomContent :=
  | CMember (c : RoomMemberEventContent)
  | CCreate (c : RoomCreateEventContent)
  | CPowerLevels (users : list (UserId * Z))
  | CMessage (m : RoomMessage)
  | CJoinRules (r : JoinRule)
  | CHistoryVisibility (v : HistoryVisibility)
  | CGuestAccess (g : GuestAccess)
  | CName (name : option rstr)
  | CTopic (topic : rstr)
  | CCanonicalAlias (alias : option RoomAliasId) (alt_aliases : list RoomAliasId)
  | CTombstone (body : rstr) (replacement_room : RoomId)
  | CRedaction (reason : option rstr).

(** ruma's contents as JSON text, and back; [RoomId::new]. *)
Class ContentLib {EL : EventLib} := {
  content_text : RoomContent → bytes;
  member_content : bytes → option RoomMemberEventContent;
  member_roundtrip c : member_content (content_text (CMember c)) = Some c;
  member_extract c : extract_membership (content_text (CMember c)) = Some (rm_membership c);
  member_value : RoomMemberEventContent → json;
  join_rules_content : bytes → option JoinRule;
  (** the room id made of eighteen random characters and the name of the server *)
  room_id_new : rstr → RoomId;
  room_server_name : RoomId → ServerName;
  alias_server_name : RoomAliasId → ServerName;
  (** the configuration *)
  allow_unstable_room_versions : bool;
}.
End contents.

Section admin.
Context {Ev : Env} {EL : EventLib} {TL : TimelineLib} {CL : ContentLib} {Out : Outside}.

(** A state event with the state key [""] or that of a user, and a message. *)
Definition state_builder (event_type : rstr) (state_key : rstr) (content : RoomContent) : PduBuilder :=
  {| pb_event_type := event_type; pb_content := content_text content; pb_unsigned := None;
     pb_state_key := Some state_key; pb_redacts := None |}.
Definition message_builder (content : RoomContent) : PduBuilder :=
  {| pb_event_type := lit "m.room.message"; pb_content := content_text content; pb_unsigned := None;
     pb_state_key := None; pb_redacts := None |}.

(** A member content with nothing but the membership. *)
Definition plain_member (membership : MembershipState) (displayname : option rstr) : RoomMemberEventContent :=
  MkMember membership displayname None None None None None None.

Definition new_room_id : NM RoomId :=
  r ← random_string 18; mret (room_id_new r).

Definition conduit_user : res UserId :=
  expect (parse_with_server_name (lit "conduit") server_name) "@conduit:server_name is valid".
Definition admins_alias : res RoomAliasId :=
  expect (parse_id valid_room_alias_id (with_server "#admins:")) "#admins:server_name is a valid alias name".

Definition stable_room_versions : list rstr := [lit "6"; lit "7"; lit "8"; lit "9"; lit "10"].
Definition unstable_room_versions : list rstr := [lit "3"; lit "4"; lit "5"].
Definition supported_room_versions : list rstr :=
  stable_room_versions ++ (if allow_unstable_room_versions then unstable_room_versions else []).

(** ** Admins are the members of the admin room *)

Definition is_admin (user_id : UserId) : DB bool :=
  alias ← lift (ok_or (parse_id valid_room_alias_id (with_server "#admins:")) (BadRequest InvalidParam "Invalid alias."));
  o ← resolve_local_alias alias;
  admin_room_id ← lift (expect o "called Option::unwrap on a None value");
  is_joined user_id admin_room_id.

(** A series of state events by one user; each is [(type, state key, content)]. *)
Definition send_states (user : UserId) (room_id : RoomId) (l : list (string * rstr * RoomContent)) : NM unit :=
  for_each l (λ '(event_type, state_key, content),
    on_server (build_and_append_pdu (state_builder (lit event_type) state_key content) user room_id) ;; mret ()).

Definition create_admin_room : NM unit :=
  room_id ← new_room_id;
  ondb (get_or_create_shortroomid room_id) ;;
  conduit_user ← lift conduit_user;
  ondb (set_password conduit_user None) ;;
  send_states conduit_user room_id
    [("m.room.create", lit "", CCreate (MkCreate conduit_user true default_room_version None));
     ("m.room.member", as_str conduit_user, CMember (plain_member MJoin None));
     ("m.room.power_levels", lit "", CPowerLevels [(conduit_user, 100%Z)]);
     ("m.room.join_rules", lit "", CJoinRules JInvite);
     ("m.room.history_visibility", lit "", CHistoryVisibility HShared);
     ("m.room.guest_access", lit "", CGuestAccess GForbidden);
     ("m.room.name", lit "", CName (Some (str_app (as_str server_name) (lit " Admin Room"))));
     ("m.room.topic", lit "", CTopic (with_server "Manage "))] ;;
  alias ← lift admins_alias;
  send_states conduit_user room_id [("m.room.canonical_alias", lit "", CCanonicalAlias (Some alias) [])] ;;
  ondb (set_alias alias room_id).

(** The text of the welcome message, plain and in HTML, does not matter here. *)
Context (welcome_text welcome_html : rstr).

Definition make_user_admin (user_id : UserId) (displayname : rstr) : NM unit :=
  admin_room_alias ← lift admins_alias;
  o ← ondb (resolve_local_alias admin_room_alias);
  room_id ← lift (expect o "Admin room must exist");
  conduit_user ← lift conduit_user;
  send_states conduit_user room_id [("m.room.member", as_str user_id, CMember (plain_member MInvite None))] ;;
  send_states user_id room_id [("m.room.member", as_str user_id, CMember (plain_member MJoin (Some displayname)))] ;;
  send_states conduit_user room_id
    [("m.room.power_levels", lit "", CPowerLevels [(conduit_user, 100%Z); (user_id, 100%Z)])] ;;
  on_server (build_and_append_pdu (message_builder (CMessage (TextHtml welcome_text welcome_html))) conduit_user room_id) ;;
  mret ().

(** ** The task of the admin room *)

(** [process_admin_message] stands for the commands: it may change the server and
    gives the answer. *)
Definition admin_step (process_admin_message : rstr → NM RoomMessage) (conduit_user : UserId) (conduit_room : RoomId)
    (event : AdminRoomEvent) : NM unit :=
  message_content ← match event with
                    | SendMessage content => mret content
                    | ProcessMessage room_message => process_admin_message room_message
                    end;
  unwrap (on_server (build_and_append_pdu (message_builder (CMessage message_content)) conduit_user conduit_room)) ;;
  mret ().
End admin.
