(* ===== verification/Account.v ===== *)
(** * Sessions, devices and accounts ([src/api/client_server/session.rs],
    [src/api/client_server/device.rs], [src/api/client_server/account.rs],
    [src/service/users/mod.rs])

    The routes by which users register, log in and out, manage their devices,
    change their password and deactivate their account. *)

From S2P Require Import Prelude Bytes RStr Error Utils KvTree Env Db Keys Globals Frames Users StateCache Uiaa ClientData EventFormat OpFrames TimelineService Federation EventHandler Request Admin.

Definition DEVICE_ID_LENGTH : N := 10.
Definition TOKEN_LENGTH : N := 32.
Definition SESSION_ID_LENGTH : N := 32.
Definition RANDOM_USER_ID_LENGTH : N := 10.

Inductive LoginInfo :=
  | LoginPassword (identifier : UserIdentifier) (password : rstr)
  | LoginToken (token : rstr)
  | LoginOther.

Section account.
Context {Ev : Env} {EL : EventLib} {TL : TimelineLib} {CL : ContentLib} {Out : Outside}.

(** The configuration and what the code uses of ruma's user ids, push rules and
    of JSON web tokens. *)
Class AccountLib := {
  allow_registration : bool;
  enable_lightning_bolt : bool;
  (** the [sub] of a token, with the configured key; [None] without a key *)
  jwt_sub : option (rstr → option rstr);
  is_historical : UserId → bool;
  (** the event with the default push rules of a user *)
  default_push_rules : UserId → json;
  (** the welcome message for an admin *)
  welcome_text : rstr;
  welcome_html : rstr;
}.
Context {AL : AccountLib}.

Record LoginRequest := MkLogin {
  lg_login_info : LoginInfo;
  lg_device_id : option DeviceId;
  lg_initial_device_display_name : option rstr
}.
Record LoginResponse := MkLoginResponse {
  lr_user_id : UserId;
  lr_access_token : rstr;
  lr_home_server : option ServerName;
  lr_device_id : DeviceId
}.

(** ** Sessions *)

(** The user a login is for. *)
Definition login_user (login_info : LoginInfo) : NM UserId :=
  match login_info with
  | LoginPassword (UserIdOrLocalpart user_id) password =>
      user_id ← lift (ok_or (parse_with_server_name (to_lowercase user_id) server_name)
                        (BadRequest InvalidUsername "Username is invalid."));
      o ← ondb (password_hash user_id);
      hash ← lift (ok_or o (BadRequest Forbidden "Wrong username or password."));
      if bool_decide (as_bytes hash = []) then fail (BadRequest UserDeactivated "The user has been deactivated")
      else if hash_matches hash password then mret user_id
      else fail (BadRequest Forbidden "Wrong username or password.")
  | LoginPassword OtherIdentifier _ => fail (BadRequest Forbidden "Bad login type.")
  | LoginToken token =>
      match jwt_sub with
      | Some decode =>
          sub ← lift (ok_or (decode token) (BadRequest InvalidUsername "Token is invalid."));
          lift (ok_or (parse_with_server_name (to_lowercase sub) server_name)
                  (BadRequest InvalidUsername "Username is invalid."))
      | None => fail (BadRequest Unknown "Token login is not supported (server has no jwt decoding key).")
      end
  | LoginOther => fail (BadRequest Unknown "Unsupported login type.")
  end.

Definition device_or_random (device_id : option DeviceId) : NM DeviceId :=
  match device_id with
  | Some device_id => mret device_id
  | None => random_string DEVICE_ID_LENGTH
  end.

Definition login_route (b : Request LoginRequest) : NM LoginResponse :=
  let req := body b in
  user_id ← login_user (lg_login_info req);
  device_id ← device_or_random (lg_device_id req);
  token ← random_string TOKEN_LENGTH;
  device_exists ← match lg_device_id req with
                  | Some device_id =>
                      ids ← ondb (all_device_ids user_id);
                      mret (existsb (λ x, bool_decide (ok x = Some device_id)) ids)
                  | None => mret false
                  end;
  (if (device_exists : bool) then ondb (set_token user_id device_id token)
   else ondb (create_device user_id device_id token (lg_initial_device_display_name req))) ;;
  mret (MkLoginResponse user_id token (Some server_name) device_id).

(** [body.sender_user.as_ref().expect("user is authenticated")] *)
Definition the_user {T} (b : Request T) : NM UserId := lift (expect (sender_user b) "user is authenticated").
Definition the_device {T} (b : Request T) : NM DeviceId := lift (expect (sender_device b) "user is authenticated").

Definition logout_route (b : Request unit) : NM unit :=
  sender_user ← the_user b;
  sender_device ← the_device b;
  ondb (remove_device sender_user sender_device).

Definition logout_all_route (b : Request unit) : NM unit :=
  sender_user ← the_user b;
  ids ← ondb (all_device_ids sender_user);
  for_each (filter_map ok ids) (λ device_id, ondb (remove_device sender_user device_id)).

(** ** Devices *)

Definition get_devices_route (b : Request unit) : NM (list Device) :=
  sender_user ← the_user b;
  devices ← ondb (all_devices_metadata sender_user);
  mret (filter_map ok devices).

Definition get_device_route (b : Request DeviceId) : NM Device :=
  sender_user ← the_user b;
  o ← ondb (get_device_metadata sender_user (body b));
  lift (ok_or o (BadRequest NotFound "Device not found.")).

Definition update_device_route (b : Request (DeviceId * option rstr)) : NM unit :=
  sender_user ← the_user b;
  o ← ondb (get_device_metadata sender_user (body b).1);
  device ← lift (ok_or o (BadRequest NotFound "Device not found."));
  ondb (update_device_metadata sender_user (body b).1
    {| device_id := device_id device; display_name := (body b).2;
       last_seen_ip := last_seen_ip device; last_seen_ts := last_seen_ts device |}).

(** ** Authentication of dangerous requests *)

Definition uiaa_flow (stage : AuthType) : UiaaInfo :=
  {| ui_flows := [[stage]]; ui_completed := []; ui_params := []; ui_session := None; ui_auth_error := None |}.

(** The block the routes share: without authentication data a session is started,
    an attempt that does not complete a flow is answered with the session.  The
    random session identifier of [try_auth] is drawn here whether it is used or
    not. *)
Definition require_uiaa (stage : AuthType) (user_id : UserId) (device_id : DeviceId) (auth : option AuthData)
    (json_body : option json) : NM unit :=
  let uiaainfo := uiaa_flow stage in
  match auth, json_body with
  | Some auth, _ =>
      rnd ← random_string SESSION_ID_LENGTH;
      r ← ondb (try_auth rnd user_id device_id auth uiaainfo);
      let '(worked, uiaainfo) := (r : bool * UiaaInfo) in
      if (worked : bool) then mret () else fail (Error.Uiaa uiaainfo)
  | None, Some json =>
      session ← random_string SESSION_ID_LENGTH;
      let uiaainfo := with_session (Some session) uiaainfo in
      ondb (Uiaa.create user_id device_id uiaainfo json) ;;
      fail (Error.Uiaa uiaainfo)
  | None, None => fail (BadRequest NotJson "Not json.")
  end.

Definition delete_device_route (b : Request (DeviceId * option AuthData)) : NM unit :=
  sender_user ← the_user b;
  sender_device ← the_device b;
  require_uiaa APassword sender_user sender_device (body b).2 (json_body b) ;;
  ondb (remove_device sender_user (body b).1).

Definition delete_devices_route (b : Request (list DeviceId * option AuthData)) : NM unit :=
  sender_user ← the_user b;
  sender_device ← the_device b;
  require_uiaa APassword sender_user sender_device (body b).2 (json_body b) ;;
  for_each (body b).1 (λ device_id, ondb (remove_device sender_user device_id)).

(** ** Accounts *)

(** A name of this server for a new account. *)
Definition proposed_user (username : rstr) : option UserId :=
  user_id ← parse_with_server_name (to_lowercase username) server_name;
  if negb (is_historical user_id) && bool_decide (user_server_name user_id = server_name) then Some user_id else None.

Definition get_register_available_route (b : Request rstr) : NM bool :=
  user_id ← lift (ok_or (proposed_user (body b)) (BadRequest InvalidUsername "Username is invalid."));
  taken ← ondb (exists_user user_id);
  if (taken : bool) then fail (BadRequest UserInUse "Desired user ID is already taken.") else mret true.

Record RegisterRequest := MkRegister {
  rg_username : option rstr;
  rg_password : option rstr;
  rg_device_id : option DeviceId;
  rg_initial_device_display_name : option rstr;
  rg_inhibit_login : bool;
  rg_is_guest : bool;
  rg_auth : option AuthData
}.
Record RegisterResponse := MkRegisterResponse {
  rr_access_token : option rstr;
  rr_user_id : UserId;
  rr_device_id : option DeviceId
}.

(** [loop { .. break .. }]: random names until one is free. *)
Fixpoint random_user (fuel : nat) : NM UserId :=
  match fuel with
  | O => out_of_fuel
  | S fuel =>
      name ← random_string RANDOM_USER_ID_LENGTH;
      proposed ← lift (expect (parse_with_server_name (to_lowercase name) server_name) "called Result::unwrap on an Err value");
      taken ← ondb (exists_user proposed);
      if (taken : bool) then random_user fuel else mret proposed
  end.

Definition register_user (fuel : nat) (req : RegisterRequest) : NM UserId :=
  match rg_username req, rg_is_guest req with
  | Some username, false =>
      proposed ← lift (ok_or (proposed_user username) (BadRequest InvalidUsername "Username is invalid."));
      taken ← ondb (exists_user proposed);
      if (taken : bool) then fail (BadRequest UserInUse "Desired user ID is already taken.") else mret proposed
  | _, _ => random_user fuel
  end.

(** The account with its display name and its push rules. *)
Definition create_account (user_id : UserId) (password : option rstr) : NM rstr :=
  ondb (set_password user_id password) ;;
  let displayname := if enable_lightning_bolt then str_app (localpart user_id) (lit " ⚡️") else localpart user_id in
  ondb (set_displayname user_id (Some displayname)) ;;
  ondb (ClientData.update None user_id (lit "m.push_rules") (default_push_rules user_id)) ;;
  mret displayname.

Definition register_route (fuel : nat) (b : Request RegisterRequest) : NM RegisterResponse :=
  let req := body b in
  if negb allow_registration && negb (from_appservice b) then
    fail (BadRequest Forbidden "Registration has been disabled.")
  else
    let is_guest := rg_is_guest req in
    user_id ← register_user fuel req;
    (if from_appservice b then mret ()
     else
       empty ← lift (expect (parse_with_server_name (lit "") server_name) "we know this is valid");
       require_uiaa ADummy empty (lit "") (rg_auth req) (json_body b)) ;;
    displayname ← create_account user_id (if is_guest then None else rg_password req);
    if negb is_guest && rg_inhibit_login req then mret (MkRegisterResponse None user_id None)
    else
      device_id ← device_or_random (if is_guest then None else rg_device_id req);
      token ← random_string TOKEN_LENGTH;
      ondb (create_device user_id device_id token (rg_initial_device_display_name req)) ;;
      on_server (send_message (NoticePlain
        (str_app (lit "New user ") (str_app (as_str user_id) (lit " registered on this server."))))) ;;
      users ← ondb count_users;
      (if bool_decide (users = 2%nat) then make_user_admin welcome_text welcome_html user_id displayname else mret ()) ;;
      mret (MkRegisterResponse (Some token) user_id (Some device_id)).

Record ChangePasswordRequest := MkChangePassword {
  cp_new_password : rstr;
  cp_logout_devices : bool;
  cp_auth : option AuthData
}.

Definition change_password_route (b : Request ChangePasswordRequest) : NM unit :=
  sender_user ← the_user b;
  sender_device ← the_device b;
  require_uiaa APassword sender_user sender_device (cp_auth (body b)) (json_body b) ;;
  ondb (set_password sender_user (Some (cp_new_password (body b)))) ;;
  (if cp_logout_devices (body b) then
     ids ← ondb (all_device_ids sender_user);
     for_each (filter (λ id, id ≠ sender_device) (filter_map ok ids)) (λ id, ondb (remove_device sender_user id))
   else mret ()) ;;
  on_server (send_message (NoticePlain (str_app (lit "User ") (str_app (as_str sender_user) (lit " changed their password."))))).

(** The user, the device and [is_guest]. *)
Definition whoami_route (b : Request unit) : NM (UserId * option DeviceId * bool) :=
  sender_user ← the_user b;
  deactivated ← ondb (is_deactivated sender_user);
  mret (sender_user, sender_device b, deactivated && negb (from_appservice b)).

(** [users.deactivate_account]; the first unreadable device id ends it. *)
Definition deactivate_account (user_id : UserId) : DB unit :=
  ids ← all_device_ids user_id;
  for_each ids (λ device_id, device_id ← lift device_id; remove_device user_id device_id) ;;
  set_password user_id None.

Definition third_party_route (b : Request unit) : NM (list json) :=
  the_user b ;; mret [].
Definition request_3pid_management_token_via_email_route (b : Request unit) : NM unit :=
  fail (BadRequest ThreepidDenied "Third party identifier is not allowed").
Definition request_3pid_management_token_via_msisdn_route (b : Request unit) : NM unit :=
  fail (BadRequest ThreepidDenied "Third party identifier is not allowed").
End account.

(** ** Lemmas *)

Section account_lemmas.
Context {Ev : Env} {EL : EventLib} {TL : TimelineLib} {CL : ContentLib} {Out : Outside} {AL : AccountLib}.
Implicit Types n : Node.

Lemma random_run k n : ∃ r w, random_string k n = (Ok r, set_world w n) ∧ world_random k (nd_world n) = (r, w).
Proof. unfold random_string. destruct (world_random _ _) as [r w]. by exists r, w. Qed.
Lemma with_db_id n : with_db (nd_db n) n = n.
Proof. by destruct n as [[[]]]. Qed.
Lemma ondb_read {A} (m : DB A) n r : m (nd_db n) = (r, nd_db n) → ondb m n = (r, n).
Proof. intros E. by rewrite (ondb_run _ _ _ _ E), with_db_id. Qed.

(** The keys of the devices are made of a user and a device. *)
Definition devices_keyed (d : State) : Prop :=
  ∀ k, is_Some (db_map d userdeviceid_metadata !! k) → ∃ u x, k = userdeviceid u x.

Definition read_device_id (e : entry) : res DeviceId :=
  b ← ok_or (rsplit_ff e.1 !! 0%nat) (BadDatabase "UserDevice ID in db is invalid.");
  parse_string "Device ID in userdeviceid_metadata is invalid." b.

Lemma read_device_id_key u x v : read_device_id (userdeviceid u x, v) = Ok x.
Proof.
  unfold read_device_id, userdeviceid, key2. cbn [fst]. rewrite rsplit_ff_last by auto with kv. cbn.
  unfold parse_string, string_from_bytes. by rewrite from_utf8_as_bytes.
Qed.

Lemma all_device_ids_spec u d :
  devices_keyed d → ∃ l, all_device_ids u d = (Ok (Ok <$> l), d) ∧
    ∀ x, x ∈ l ↔ is_Some (db_map d userdeviceid_metadata !! userdeviceid u x).
Proof.
  intros Hk. unfold all_device_ids. rewrite (bind_Ok _ _ _ _ _ (t_scan_prefix_run _ _ _)).
  set (es := with_prefix _ _). change (λ e : entry, _) with read_device_id.
  assert (∀ k v, (k, v) ∈ es ↔ db_map d userdeviceid_metadata !! k = Some v ∧ ∃ x, k = userdeviceid u x) as Hes.
  { intros k v. unfold es. rewrite elem_of_with_prefix. split.
    - intros [Hv Hp]. split; [done|]. destruct (Hk k) as (u' & x & ->); [by rewrite Hv|]. exists x.
      apply key2_prefix in Hp; [|auto with kv..]. by apply (inj idb) in Hp as <-.
    - intros [Hv [x ->]]. split; [done|]. by apply key2_prefix; auto with kv. }
  exists (omap (λ e, ok (read_device_id e)) es). split.
  - unfold mret, M_ret. f_equal. f_equal. clear Hk.
    assert (∀ e, e ∈ es → ∃ x, read_device_id e = Ok x) as Hr.
    { intros [k v] [_ [x ->]]%Hes. exists x. apply read_device_id_key. }
    clear Hes. induction es as [|e es IH]; [done|]. destruct (Hr e) as [x Hx]; [by left|].
    cbn. rewrite Hx. cbn. f_equal. apply IH. intros e' ?. apply Hr. by right.
  - intros x. rewrite list_elem_of_omap. split.
    + intros ([k v] & [Hv [y ->]]%Hes & E). rewrite read_device_id_key in E. injection E as ->. by rewrite Hv.
    + intros [v Hv]. exists (userdeviceid u x, v). split; [apply Hes; eauto|]. by rewrite read_device_id_key.
Qed.

Lemma existsb_ok (l : list DeviceId) x : existsb (λ r, bool_decide (ok r = Some x)) (Ok <$> l) = bool_decide (x ∈ l).
Proof.
  induction l as [|y l IH]; [done|]. cbn. rewrite IH. repeat case_bool_decide; set_solver.
Qed.

(** Removing devices of a user, one after the other. *)
Lemma remove_devices_run u l d :
  TokenInv d →
  ∃ d', for_each l (remove_device u) d = (Ok (), d') ∧ TokenInv d' ∧
    (∀ t u' x, token_of d' t u' x ↔ token_of d t u' x ∧ ¬ (u' = u ∧ x ∈ l)) ∧
    agree [userdeviceid_token; token_userdeviceid; todeviceid_events; userid_devicelistversion; userdeviceid_metadata] d d'.
Proof.
  revert d. induction l as [|x l IH]; intros d I; cbn [for_each].
  { exists d. split_and!; [done..| |done]. intros t u' x. set_solver. }
  destruct (remove_device_tokens u x d I) as [I1 H1]. pose proof (remove_device_run u x d) as E1. cbn zeta in E1.
  rewrite E1 in I1, H1. cbn [snd] in I1, H1. rewrite (bind_Ok _ _ _ _ _ E1).
  destruct (IH _ I1) as (d' & -> & I' & H' & A'). exists d'. split_and!; [done..| |].
  - intros t u' y. rewrite H', H1, elem_of_cons. naive_solver.
  - etrans; [|exact A']. eapply preserves_inv; [|exact E1]. unfold remove_device. keeps_tac.
Qed.

(** A token in use belongs to a device that is listed. *)
Lemma token_listed d t u x :
  TokenInv d → token_of d t u x → is_Some (db_map d userdeviceid_metadata !! userdeviceid u x).
Proof.
  intros I Ht. apply token_of_iff in Ht; [|done]. by destruct (tok_device d I _ _ Ht) as (? & ? & _ & ?).
Qed.

Lemma for_each_fmap {S A B} (f : A → B) (l : list A) (g : B → M S unit) s :
  for_each (f <$> l) g s = for_each l (λ x, g (f x)) s.
Proof.
  revert s. induction l as [|x l IH]; intros s; [done|]. cbn. unfold mbind, M_bind. by destruct (g (f x) s) as [[]].
Qed.
Lemma ondb_for_each {A} (l : list A) (f : A → DB unit) n d :
  for_each l f (nd_db n) = (Ok (), d) → for_each l (λ x, ondb (f x)) n = (Ok (), with_db d n).
Proof.
  revert n. induction l as [|x l IH]; intros n H; cbn [for_each] in *.
  - injection H as <-. by rewrite with_db_id.
  - apply bind_Ok_inv in H as ([] & d1 & E1 & H). rewrite (bind_Ok _ _ _ _ _ (ondb_run _ _ _ _ E1)).
    exact (IH (with_db d1 n) H).
Qed.

(** ** Logging in *)

(** A login with a name and a password, for the user [u]. *)
Definition password_login (b : Request LoginRequest) (pw : rstr) (u : UserId) : Prop :=
  ∃ name, lg_login_info (body b) = LoginPassword (UserIdOrLocalpart name) pw ∧
    parse_with_server_name (to_lowercase name) server_name = Some u.

Lemma ondb_password_hash u n :
  ondb (password_hash u) n =
  (transpose (parse_string "Password hash in db is not valid string." <$> db_map (nd_db n) userid_password !! idb u), n).
Proof. apply ondb_read. unfold password_hash. by rewrite (bind_Ok _ _ _ _ _ (t_get_run _ _ _)). Qed.

Lemma login_user_run b pw u n (hash : rstr) :
  password_login b pw u → db_map (nd_db n) userid_password !! idb u = Some (as_bytes hash) →
  login_user (lg_login_info (body b)) n =
  (if bool_decide (as_bytes hash = []) then Err (BadRequest UserDeactivated "The user has been deactivated")
   else if hash_matches hash pw then Ok u else Err (BadRequest Forbidden "Wrong username or password."), n).
Proof.
  intros (name & -> & Hu) Hp. cbn [login_user]. rewrite Hu. cbn [ok_or]. rewrite bind_lift_Ok.
  rewrite (bind_Ok _ _ n (Some hash) n); [|rewrite ondb_password_hash, Hp; cbn; unfold parse_string, string_from_bytes; by rewrite from_utf8_as_bytes].
  cbn [ok_or]. rewrite bind_lift_Ok. case_bool_decide; [done|]. by destruct (hash_matches hash pw).
Qed.

(** A login with a wrong name or a wrong password, or into an account that was
    deactivated, is refused and changes nothing. *)
Theorem login_refused b pw u n :
  password_login b pw u →
  (db_map (nd_db n) userid_password !! idb u = None →
     login_route b n = (Err (BadRequest Forbidden "Wrong username or password."), n)) ∧
  (∀ hash, db_map (nd_db n) userid_password !! idb u = Some (as_bytes hash) → as_bytes hash ≠ [] →
     hash_matches hash pw = false → login_route b n = (Err (BadRequest Forbidden "Wrong username or password."), n)) ∧
  (db_map (nd_db n) userid_password !! idb u = Some [] →
     login_route b n = (Err (BadRequest UserDeactivated "The user has been deactivated"), n)).
Proof.
  intros H. unfold login_route. cbv zeta. split_and!; unfold mbind at 1, M_bind at 1.
  - intros Hp. destruct H as (name & -> & Hu). cbn [login_user]. rewrite Hu. cbn [ok_or]. rewrite bind_lift_Ok.
    by rewrite (bind_Ok _ _ n None n) by (by rewrite ondb_password_hash, Hp).
  - intros hash Hp Hne Hm. rewrite (login_user_run _ _ _ _ _ H Hp), bool_decide_false by done. by rewrite Hm.
  - intros Hp. by rewrite (login_user_run _ _ _ _ (lit "") H Hp).
Qed.

(** The token that a login draws, after the name of a device if the request has none. *)
Definition drawn_token (b : Request LoginRequest) n : rstr :=
  (world_random TOKEN_LENGTH
    (match lg_device_id (body b) with Some _ => nd_world n | None => (world_random DEVICE_ID_LENGTH (nd_world n)).2 end)).1.

(** C10: A login with the right password, whose new random token is not in use, gives
    that token, which identifies the user and the device, the device the request names
    if it names one; the old token of the device is no longer valid, and all other
    tokens are as before. *)
Theorem login_correct b pw u n (hash : rstr) :
  password_login b pw u → db_map (nd_db n) userid_password !! idb u = Some (as_bytes hash) →
  as_bytes hash ≠ [] → hash_matches hash pw = true → TokenInv (nd_db n) → devices_keyed (nd_db n) →
  (find_from_token (drawn_token b n) (nd_db n)).1 = Ok None →
  ∃ resp n', login_route b n = (Ok resp, n') ∧ lr_user_id resp = u ∧ lr_access_token resp = drawn_token b n ∧
    (∀ x, lg_device_id (body b) = Some x → lr_device_id resp = x) ∧
    TokenInv (nd_db n') ∧ token_of (nd_db n') (lr_access_token resp) u (lr_device_id resp) ∧
    ∀ t' u' x', t' ≠ lr_access_token resp →
      token_of (nd_db n') t' u' x' ↔ token_of (nd_db n) t' u' x' ∧ (u', x') ≠ (u, lr_device_id resp).
Proof.
  intros H Hp Hne Hm I Hk Hfresh. unfold login_route. cbv zeta.
  rewrite (bind_Ok _ _ n u n) by (rewrite (login_user_run _ _ _ _ _ H Hp), bool_decide_false by done; by rewrite Hm).
  assert (∃ x w, device_or_random (lg_device_id (body b)) n = (Ok x, set_world w n) ∧
    (world_random TOKEN_LENGTH w).1 = drawn_token b n ∧ ∀ y, lg_device_id (body b) = Some y → x = y) as (x & w & E1 & Ed & Hx).
  { unfold device_or_random, drawn_token. destruct (lg_device_id (body b)) as [y|].
    - exists y, (nd_world n). split; [by destruct n|]. split; [done|]. by intros y' [= <-].
    - destruct (random_run DEVICE_ID_LENGTH n) as (r & w & E & Ew). exists r, w. by rewrite Ew. }
  rewrite (bind_Ok _ _ _ _ _ E1). destruct (random_run TOKEN_LENGTH (set_world w n)) as (t & w' & E2 & Ew).
  rewrite (bind_Ok _ _ _ _ _ E2). cbn [nd_world set_world] in Ew. rewrite Ew in Ed. cbn [fst] in Ed. subst t. apply no_token in Hfresh; [|done].
  set (t := drawn_token b n) in *.
  set (n2 := set_world w' _). assert (nd_db n2 = nd_db n) as En by done.
  destruct (all_device_ids_spec u (nd_db n2)) as (l & El & Hl); [done|].
  assert (∃ d, (match lg_device_id (body b) with
      | Some device_id => ids ← ondb (all_device_ids u); mret (existsb (λ x, bool_decide (ok x = Some device_id)) ids)
      | None => mret false
      end ≫= λ device_exists : bool,
      (if device_exists then ondb (set_token u x t) else ondb (create_device u x t (lg_initial_device_display_name (body b)))) ;;
      mret (MkLoginResponse u t (Some server_name) x)) n2 = (Ok (MkLoginResponse u t (Some server_name) x), with_db d n2) ∧
    ∃ d1, d = token_set (userdeviceid u x) t d1 ∧ (TokenInv d1 ∧ is_Some (db_map d1 userdeviceid_metadata !! userdeviceid u x) ∧
      db_map d1 token_userdeviceid = db_map (nd_db n) token_userdeviceid ∧
      ∀ t u' d', token_of d1 t u' d' ↔ token_of (nd_db n) t u' d')) as (d & E3 & d1 & -> & I1 & Hd1 & Et & Ht).
  { assert (∃ e : bool, match lg_device_id (body b) with
      | Some device_id => ids ← ondb (all_device_ids u); mret (existsb (λ x, bool_decide (ok x = Some device_id)) ids)
      | None => mret false
      end n2 = (Ok e, n2) ∧ (e = true → is_Some (db_map (nd_db n) userdeviceid_metadata !! userdeviceid u x))) as (e & Ee & He).
    { destruct (lg_device_id (body b)) as [y|]; [|by exists false].
      rewrite (bind_Ok _ _ n2 (Ok <$> l) n2) by (by apply ondb_read). exists (bool_decide (y ∈ l)).
      rewrite existsb_ok. split; [done|]. intros Hy%bool_decide_eq_true. rewrite (Hx y eq_refl). by apply Hl. }
    rewrite (bind_Ok _ _ _ _ _ Ee). destruct e.
    - rewrite (bind_Ok _ _ _ _ _ (ondb_run _ n2 _ _ (set_token_run u x t (nd_db n2) (He eq_refl)))).
      eexists. split; [done|]. exists (nd_db n). split_and!; try done. by apply He.
    - erewrite (bind_Ok _ _ n2); [|apply ondb_run, create_device_run; rewrite En, Hp; eauto].
      eexists. split; [done|]. eexists. split; [done|]. rewrite En.
      destruct (device_put_tokens u x (lg_initial_device_display_name (body b)) (nd_db n)) as (? & ? & ? & ?).
      split_and!; auto. }
  rewrite E3. destruct (token_set_tokens u x t d1 I1 Hd1) as (I2 & Ht2 & Ho); [by rewrite Et|].
  eexists _, _. split; [done|]. cbn [lr_user_id lr_device_id lr_access_token]. split_and!; [done|done|by intros y ->%Hx|done|done|].
  intros t' u' x' Hne'. change (nd_db (with_db ?d n2)) with d. rewrite Ho by done. by rewrite Ht.
Qed.

(** ** Logging out *)

(** Logging out of all devices makes every token of the user invalid, and none of
    another user. *)
Theorem logout_all_correct b u n :
  sender_user b = Some u → TokenInv (nd_db n) → devices_keyed (nd_db n) →
  ∃ n', logout_all_route b n = (Ok (), n') ∧ TokenInv (nd_db n') ∧
    ∀ t u' x, token_of (nd_db n') t u' x ↔ token_of (nd_db n) t u' x ∧ u' ≠ u.
Proof.
  intros Hb I Hk. unfold logout_all_route, the_user. rewrite Hb. cbn [expect]. rewrite bind_lift_Ok.
  destruct (all_device_ids_spec u (nd_db n) Hk) as (l & El & Hl).
  rewrite (bind_Ok _ _ _ _ _ (ondb_read _ _ _ El)), filter_map_ok_fmap.
  destruct (remove_devices_run u l (nd_db n) I) as (d' & E & I' & H' & _).
  rewrite (ondb_for_each _ _ _ _ E). eexists. split; [done|]. split; [done|].
  intros t u' x. change (nd_db (with_db ?d n)) with d. rewrite H'. split.
  - intros [Ht Hn]. split; [done|]. intros ->. apply Hn. split; [done|]. by eapply Hl, token_listed.
  - intros [Ht Hn]. split; [done|]. by intros [].
Qed.

(** Deactivating an account makes every token of the user invalid, and no password
    logs the user in again; the other users keep their tokens and passwords. *)
Theorem deactivate_account_correct u d :
  TokenInv d → devices_keyed d →
  ∃ d', deactivate_account u d = (Ok (), d') ∧ TokenInv d' ∧
    (∀ t u' x, token_of d' t u' x ↔ token_of d t u' x ∧ u' ≠ u) ∧
    (∀ u', u' ≠ u → db_map d' userid_password !! idb u' = db_map d userid_password !! idb u') ∧
    ∀ b pw n, password_login b pw u → nd_db n = d' →
      login_route b n = (Err (BadRequest UserDeactivated "The user has been deactivated"), n).
Proof.
  intros I Hk. unfold deactivate_account. destruct (all_device_ids_spec u d Hk) as (l & El & Hl).
  rewrite (bind_Ok _ _ _ _ _ El). destruct (remove_devices_run u l d I) as (d1 & E & I1 & H1 & A1).
  assert (for_each (Ok <$> l) (λ device_id, device_id ← lift device_id; remove_device u device_id) d = (Ok (), d1)) as E'.
  { rewrite for_each_fmap. exact E. }
  rewrite (bind_Ok _ _ _ _ _ E'). cbn [set_password]. rewrite t_insert_run. eexists. split; [done|].
  set (d2 := put _ _ _ _). assert (∀ t, t ≠ userid_password → db_map d2 t = db_map d1 t) as A2
    by (intros t Ht; by apply db_map_put_ne).
  assert (TokenInv d2) as I2 by (apply (token_inv_frame d1); rewrite ?A2; done). split_and!; [done|..].
  - intros t u' x. rewrite !token_of_iff, A2, <- !token_of_iff by done. rewrite H1. split.
    + intros [Ht Hn]. split; [done|]. intros ->. apply Hn. split; [done|]. by eapply Hl, token_listed.
    + intros [Ht Hn]. split; [done|]. by intros [].
  - intros u' Hu. unfold d2. rewrite db_map_put_eq, lookup_insert_ne by (by intros ?%(inj idb)).
    rewrite (A1 userid_password); [done|by_compute].
  - intros b pw n Hl' En. unfold login_route. cbv zeta. unfold mbind at 1, M_bind at 1.
    rewrite (login_user_run b pw u n (lit "") Hl'); [done|]. rewrite En. unfold d2. by rewrite db_map_put_eq, lookup_insert_eq.
Qed.

(** ** The password asked for is not that of the sender *)

Lemma require_password_run u x other pw js n v :
  parse_with_server_name other server_name = Some v →
  (∀ o, (password_hash v (nd_db n)).1 = Ok o → from_option (λ hash, hash_matches hash pw) true o = true) →
  (∀ e, (password_hash v (nd_db n)).1 ≠ Err e) →
  ∃ n', require_uiaa APassword u x (Some (AuthPassword (UserIdOrLocalpart other) pw None)) js n = (Ok (), n') ∧
    nagree [userdevicesessionid_uiaainfo] n n'.
Proof.
  intros Hv Hh He. unfold require_uiaa. destruct (random_run SESSION_ID_LENGTH n) as (rnd & w & E1 & _).
  rewrite (bind_Ok _ _ _ _ _ E1). set (n1 := set_world w n).
  assert (∃ d, try_auth rnd u x (AuthPassword (UserIdOrLocalpart other) pw None) (uiaa_flow APassword) (nd_db n) =
    (Ok (true, push_completed APassword (with_session (Some rnd) (uiaa_flow APassword))), d) ∧
    agree [userdevicesessionid_uiaainfo] (nd_db n) d) as (d & Ed & A).
  { unfold try_auth. cbn [auth_session]. rewrite bind_ret. cbn [ui_session uiaa_flow default from_option].
    set (i := with_session _ _).
    rewrite (bind_Ok _ _ (nd_db n) (inr (push_completed APassword i)) (nd_db n)).
    - assert (flows_completed (push_completed APassword i) = true) as -> by reflexivity. unfold update_uiaa_session.
      rewrite (bind_Ok _ _ _ _ _ (t_remove_run _ _ _)). eexists. split; [done|].
      intros t Ht. apply db_map_del_ne. intros <-. apply Ht. by left.
    - cbn [check_stage]. rewrite Hv. cbn [ok_or]. rewrite bind_lift_Ok.
      pose proof (password_hash_state v (nd_db n)) as Hs. unfold mbind, M_bind.
      destruct (password_hash v (nd_db n)) as [[o|e|p] s1] eqn:E; cbn in Hs; subst s1.
      + specialize (Hh o eq_refl). destruct o as [hash|]; [cbn in Hh; by rewrite Hh|done].
      + by destruct (He e).
      + unfold password_hash in E. rewrite (bind_Ok _ _ _ _ _ (t_get_run _ _ _)) in E. unfold lift in E.
        destruct (db_map _ _ !! _) as [h|]; [|done]. cbn in E. unfold parse_string in E. by destruct (string_from_bytes h). }
  rewrite (bind_Ok _ _ _ _ _ (ondb_run _ n1 _ _ Ed)). eexists. split; [done|]. exact A.
Qed.

(** The password stage of a dangerous request accepts the credentials of any account:
    with the name and password of another user, the password of the sender is
    changed. *)
Theorem change_password_other_user b u x other pw v (hash new_hash : rstr) n :
  sender_user b = Some u → sender_device b = Some x →
  cp_auth (body b) = Some (AuthPassword (UserIdOrLocalpart other) pw None) →
  parse_with_server_name other server_name = Some v → v ≠ u →
  db_map (nd_db n) userid_password !! idb v = Some (as_bytes hash) → hash_matches hash pw = true →
  cp_logout_devices (body b) = false → argon2_hash (cp_new_password (body b)) = Some new_hash →
  ∃ n', change_password_route b n = (Ok (), n') ∧
    db_map (nd_db n') userid_password !! idb u = Some (as_bytes new_hash) ∧
    db_map (nd_db n') userid_password !! idb v = Some (as_bytes hash).
Proof.
  intros Hu Hx Ha Hv Hne Hp Hm Hl Hn. unfold change_password_route, the_user, the_device. rewrite Hu, Hx. cbn [expect].
  rewrite !bind_lift_Ok, Ha.
  assert ((password_hash v (nd_db n)).1 = Ok (Some hash)) as Eh.
  { unfold password_hash. rewrite (bind_Ok _ _ _ _ _ (t_get_run _ _ _)), Hp. cbn. unfold parse_string, string_from_bytes.
    by rewrite from_utf8_as_bytes. }
  destruct (require_password_run u x other pw (json_body b) n v Hv) as (n1 & E1 & A1).
  { intros o. rewrite Eh. by intros [= <-]. }
  { intros e. by rewrite Eh. }
  rewrite (bind_Ok _ _ _ _ _ E1).
  erewrite (bind_Ok _ _ n1); [|apply ondb_run; unfold set_password; rewrite Hn; apply t_insert_run].
  rewrite Hl, bind_ret. eexists. split; [done|].
  change (nd_db (set_server _ (with_db ?d n1))) with d. rewrite db_map_put_eq, lookup_insert_eq. split; [done|].
  rewrite lookup_insert_ne by (by intros ?%(inj idb)). rewrite (A1 userid_password); [done|by_compute].
Qed.

(** ** Registering *)

Lemma ondb_exists_user u n :
  ondb (exists_user u) n = (Ok (bool_decide (is_Some (db_map (nd_db n) userid_password !! idb u))), n).
Proof. apply ondb_read. unfold exists_user. by rewrite (bind_Ok _ _ _ _ _ (t_get_run _ _ _)). Qed.

Lemma random_user_free fuel n u n' :
  random_user fuel n = (Ok u, n') → db_map (nd_db n) userid_password !! idb u = None.
Proof.
  revert n. induction fuel as [|fuel IH]; intros n H; [done|]. cbn [random_user] in H.
  destruct (random_run RANDOM_USER_ID_LENGTH n) as (r & w & E & _). rewrite (bind_Ok _ _ _ _ _ E) in H.
  lift_inv H v Ev'. rewrite (bind_Ok _ _ _ _ _ (ondb_exists_user _ _)) in H. change (nd_db (set_world w n)) with (nd_db n) in H.
  case_bool_decide as Hx; [exact (IH (set_world w n) H)|]. injection H as -> <-. by apply eq_None_not_Some.
Qed.

Lemma register_user_inv fuel req n u n' :
  register_user fuel req n = (Ok u, n') →
  db_map (nd_db n) userid_password !! idb u = None ∧
  ∀ name, rg_username req = Some name → rg_is_guest req = false → proposed_user name = Some u.
Proof.
  unfold register_user. destruct (rg_username req) as [name|]; [|intros H; split; [by eapply random_user_free|done]].
  destruct (rg_is_guest req); [intros H; split; [by eapply random_user_free|done]|]. intros H.
  lift_inv H v Ev'. apply ok_or_Ok in Ev'. rewrite (bind_Ok _ _ _ _ _ (ondb_exists_user _ _)) in H.
  case_bool_decide as Hx; [done|]. injection H as -> <-. split; [by apply eq_None_not_Some|]. by intros name' [= <-].
Qed.

(** A registration makes an account only for a user that had none; the name is that
    of the request, if it gives one and does not ask for a guest account.  Unless
    an appservice asks, registration must be enabled. *)
Theorem register_fresh fuel b n resp n' :
  register_route fuel b n = (Ok resp, n') →
  (allow_registration = true ∨ from_appservice b = true) ∧
  db_map (nd_db n) userid_password !! idb (rr_user_id resp) = None ∧
  ∀ name, rg_username (body b) = Some name → rg_is_guest (body b) = false → proposed_user name = Some (rr_user_id resp).
Proof.
  unfold register_route. cbv zeta. intros H.
  assert (allow_registration = true ∨ from_appservice b = true) as Hreg.
  { destruct allow_registration, (from_appservice b); by auto. }
  split; [done|]. assert (negb allow_registration && negb (from_appservice b) = false) as Eg.
  { by destruct Hreg as [-> | ->]; [|destruct allow_registration]. }
  rewrite Eg in H. run_inv H u n1 E1. run_inv H x n2 E2. run_inv H name n3 E3.
  assert (rr_user_id resp = u) as ->.
  { destruct (negb _ && _); [by injection H as <- _|]. run_inv H dev n4 E4. run_inv H tok n5 E5. run_inv H y n6 E6.
    run_inv H y' n7 E7. run_inv H users n8 E8. run_inv H y'' n9 E9. by injection H as <- _. }
  by apply register_user_inv in E1.
Qed.

(** The search for a free name ends as soon as one is drawn. *)
Theorem random_user_returns fuel n (draw : nat → rstr) (world : nat → World) u :
  world O = nd_world n → (∀ i, world_random RANDOM_USER_ID_LENGTH (world i) = (draw i, world (S i))) →
  (∀ i, (i ≤ fuel)%nat → is_Some (parse_with_server_name (to_lowercase (draw i)) server_name)) →
  parse_with_server_name (to_lowercase (draw fuel)) server_name = Some u →
  db_map (nd_db n) userid_password !! idb u = None →
  ∃ v n', random_user (S fuel) n = (Ok v, n') ∧ db_map (nd_db n) userid_password !! idb v = None.
Proof.
  intros H0 Hw Hd Hu Hf.
  assert (∃ v n', random_user (S fuel) n = (Ok v, n')) as (v & n' & E); [|exists v, n'; split; [done|by eapply random_user_free]].
  revert n draw world H0 Hw Hd Hu Hf. induction fuel as [|fuel IH]; intros n draw world H0 Hw Hd Hu Hf;
    assert (random_string RANDOM_USER_ID_LENGTH n = (Ok (draw O), set_world (world 1%nat) n)) as E
      by (unfold random_string; by rewrite <- H0, Hw); cbn [random_user]; rewrite (bind_Ok _ _ _ _ _ E).
  - rewrite Hu. cbn [expect]. rewrite bind_lift_Ok, (bind_Ok _ _ _ _ _ (ondb_exists_user _ _)).
    change (nd_db (set_world _ n)) with (nd_db n). rewrite Hf, bool_decide_false by (by intros []). eauto.
  - destruct (Hd O) as [v Hv]; [lia|]. rewrite Hv. cbn [expect]. rewrite bind_lift_Ok, (bind_Ok _ _ _ _ _ (ondb_exists_user _ _)).
    case_bool_decide; [|eauto]. apply (IH _ (λ i, draw (S i)) (λ i, world (S i))); try done. intros i Hi. apply Hd. lia.
Qed.
End account_lemmas.
