(* ===== verification/Membership.v ===== *)
(** * Joining and leaving rooms ([src/api/client_server/membership.rs],
    [src/api/client_server/alias.rs], [deactivate_route] of
    [src/api/client_server/account.rs])

    The routes by which users join, leave, invite, kick and ban, in rooms this
    server takes part in and, with the help of other servers, in rooms it does not
    know. *)

From S2P Require Import Prelude Bytes RStr Decimal Error Utils KvTree Env Db Keys Globals Frames Short RoomState StateCompressor Pdu Timeline StateAccessor Users StateCache Uiaa RoomIndex ClientData EventFormat OpFrames MembershipService SendingService StateService Lookups TimelineService Federation EventHandler Request Admin Account.

Section membership.
Context {Ev : Env} {EL : EventLib} {TL : TimelineLib} {CL : ContentLib} {Out : Outside} {HL : HandlerLib}.

(** ** Aliases *)

(** The loop over the appservices that may know the alias. *)
Fixpoint ask_appservices (room_alias : RoomAliasId) (l : list (rstr * json)) : NM (option RoomId) :=
  match l with
  | [] => mret None
  | (_, registration) :: l =>
      let aliases := match json_get (lit "namespaces") registration with
                     | Some namespaces => namespace_regexes "aliases" namespaces
                     | None => []
                     end in
      if existsb (λ r, is_match r (as_str room_alias)) aliases then
        known ← send_appservice_query registration room_alias;
        if (known : bool) then
          o ← ondb (resolve_local_alias room_alias);
          room_id ← lift (ok_or o (BadConfig "Appservice lied to us. Room does not exist."));
          mret (Some room_id)
        else ask_appservices room_alias l
      else ask_appservices room_alias l
  end.

Definition get_alias_helper (room_alias : RoomAliasId) : NM (RoomId * list ServerName) :=
  if decide (alias_server_name room_alias ≠ server_name) then
    send_federation_request (alias_server_name room_alias) (GetRoomInformation room_alias)
  else
    o ← ondb (resolve_local_alias room_alias);
    room_id ← match o with
              | Some r => mret (Some r)
              | None => apps ← ondb ClientData.all; ask_appservices room_alias apps
              end;
    room_id ← lift (ok_or room_id (BadRequest NotFound "Room with alias not found."));
    mret (room_id, [server_name]).

Definition create_alias_route (b : Request (RoomAliasId * RoomId)) : NM unit :=
  if decide (alias_server_name (body b).1 ≠ server_name) then
    fail (BadRequest InvalidParam "Alias is from another server.")
  else
    o ← ondb (resolve_local_alias (body b).1);
    match o with
    | Some _ => fail (Conflict "Alias already exists.")
    | None => ondb (set_alias (body b).1 (body b).2)
    end.

Definition delete_alias_route (b : Request RoomAliasId) : NM unit :=
  if decide (alias_server_name (body b) ≠ server_name) then
    fail (BadRequest InvalidParam "Alias is from another server.")
  else ondb (remove_alias (body b)).

Definition get_alias_route (b : Request RoomAliasId) : NM (RoomId * list ServerName) := get_alias_helper (body b).

(** ** Events made with the help of another server *)

Definition with_membership (m : MembershipState) (reason : option rstr) (c : RoomMemberEventContent) : RoomMemberEventContent :=
  MkMember m (rm_displayname c) (rm_avatar_url c) (rm_is_direct c) (rm_third_party_invite c) (rm_blurhash c) reason
    (rm_join_authorized_via_users_server c).

(** The content of a join: the profile of the user. *)
Definition profile_member (m : MembershipState) (user : UserId) (is_direct : option bool) (reason : option rstr)
    (authorized : option UserId) : DB RoomMemberEventContent :=
  d ← displayname user;
  a ← avatar_url user;
  h ← blurhash user;
  mret (MkMember m d a is_direct None h reason authorized).

(** [hash_and_sign_event(..).expect(..)], the event id, and the object with its id. *)
Definition finish_event (stub : CanonicalJsonObject) (room_version_id : rstr) : res (EventId * CanonicalJsonObject) :=
  match hash_and_sign_event (canonical_remove (lit "event_id") stub) room_version_id with
  | inr _ => Panic "event is valid, we just created it"
  | inl stub =>
      hash ← expect (reference_hash stub room_version_id) "ruma can calculate reference hashes";
      event_id ← expect (hash_event_id hash) "ruma's reference hashes are valid event ids";
      Ok (event_id, canonical_insert (lit "event_id") (JStr (as_str event_id)) stub)
  end.

(** The template with the name of this server and the time. *)
Definition with_origin (stub : CanonicalJsonObject) : DB CanonicalJsonObject :=
  millis ← gets now;
  ts ← lift (expect (to_uint millis) "Timestamp is valid js_int value");
  mret (canonical_insert (lit "origin_server_ts") (JNum (u64_to_string ts))
          (canonical_insert (lit "origin") (id_value server_name) stub)).

(** The user of a restricted join, as the template names it. *)
Definition template_authorized (stub : CanonicalJsonObject) : option UserId :=
  content ← canonical_get (lit "content") stub;
  let s := default (lit "") (v ← json_get (lit "join_authorised_via_users_server") content; as_string v) in
  parse_id valid_user_id s.

(** The version of a room another server names must be supported. *)
Definition supported_version (v : option rstr) : res rstr :=
  match v with
  | Some v => if bool_decide (v ∈ supported_room_versions) then Ok v else Err (BadServerResponse "Room version is not supported")
  | None => Err (BadServerResponse "Room version is not supported")
  end.

(** The loop over the servers: the first answer, or the last error. *)
Fixpoint make_join_loop (sender_user : UserId) (room_id : RoomId) (servers : list ServerName)
    (acc : Error) : NM ((option rstr * Raw) * ServerName) :=
  match servers with
  | [] => fail acc
  | remote_server :: servers =>
      if decide (remote_server = server_name) then make_join_loop sender_user room_id servers acc
      else
        r ← catch (send_federation_request remote_server (MakeJoin room_id sender_user supported_room_versions));
        match r with
        | inl r => mret (r, remote_server)
        | inr e => make_join_loop sender_user room_id servers e
        end
  end.
Definition make_join_request (sender_user : UserId) (room_id : RoomId) (servers : list ServerName) :
    NM ((option rstr * Raw) * ServerName) :=
  make_join_loop sender_user room_id servers (BadServerResponse "No server available to assist in joining.").

(** The join event, from the template of another server. *)
Definition join_event_of (sender_user : UserId) (reason : option rstr) (template : Raw) (room_version_id : rstr) :
    NM (EventId * CanonicalJsonObject) :=
  stub ← lift (ok_or (from_slice (raw_text template))
                (BadServerResponse "Invalid make_join event json received from server."));
  let authorized := template_authorized stub in
  stub ← ondb (with_origin stub);
  c ← ondb (profile_member MJoin sender_user None reason authorized);
  lift (finish_event (canonical_insert (lit "content") (member_value c) stub) room_version_id).

Definition validate_and_add_event_id (pdu : Raw) (room_version : rstr) : NM (EventId * CanonicalJsonObject) :=
  value ← lift (ok_or (from_slice (raw_text pdu)) (BadServerResponse "Invalid PDU in server response"));
  hash ← lift (expect (reference_hash value room_version) "ruma can calculate reference hashes");
  event_id ← lift (expect (hash_event_id hash) "ruma's reference hashes are valid event ids");
  entry ← gets (λ n, bad_event_ratelimiter n !! event_id);
  wait ← backing_off 30 entry;
  if (wait : bool) then fail (BadServerResponse "bad event, still backing off")
  else
    keys ← gets nd_pub_key_map;
    match verify_event keys value room_version with
    | None => back_off_event event_id ;; fail (BadServerResponse "Event failed verification.")
    | Some _ => mret (event_id, canonical_insert (lit "event_id") (JStr (as_str event_id)) value)
    end.

(** The signature of the other server is added to the event; [signed_value["signatures"]]
    panics when there is none. *)
Definition add_signature (remote_server : ServerName) (signed_value join_event : CanonicalJsonObject) : res CanonicalJsonObject :=
  signatures ← expect (canonical_get (lit "signatures") signed_value) "no entry found for key";
  match signatures with
  | JObj l =>
      match obj_get (as_str remote_server) l with
      | Some signature =>
          own ← expect (canonical_get (lit "signatures") join_event) "we created a valid pdu";
          match own with
          | JObj own => Ok (canonical_insert (lit "signatures") (JObj (obj_insert (as_str remote_server) signature own)) join_event)
          | _ => Panic "we created a valid pdu"
          end
      | None => Ok join_event
      end
  | _ => Ok join_event
  end.

(** One event of the state in the answer: an outlier, and an entry of the state. *)
Definition join_state_event (room_version_id : rstr) (state : gmap N EventId) (pdu : Raw) : NM (gmap N EventId) :=
  r ← try_ok (validate_and_add_event_id pdu room_version_id);
  match r with
  | None => mret state
  | Some (event_id, value) =>
      pdu ← lift (ok_or (from_id_val event_id value) (BadServerResponse "Invalid PDU in send_join response."));
      ondb (add_pdu_outlier event_id value) ;;
      match state_key pdu with
      | Some state_key =>
          shortstatekey ← ondb (get_or_create_shortstatekey (kind pdu) state_key);
          mret (<[shortstatekey := Env.event_id pdu]> state)
      | None => mret state
      end
  end.
Definition join_auth_event (room_version_id : rstr) (pdu : Raw) : NM unit :=
  r ← try_ok (validate_and_add_event_id pdu room_version_id);
  match r with
  | None => mret ()
  | Some (event_id, value) => ondb (add_pdu_outlier event_id value)
  end.

(** The room becomes known: its state, then the join event.  The check of the join
    numbers the keys of the state it asks for; a key that had no number is not in
    the state that was sent, so that the answers are those of [state_event]. *)
Definition enter_room (room_id : RoomId) (room_version_id : rstr) (join_pdu : PduEvent) (join_event : CanonicalJsonObject)
    (state : gmap N EventId) : NM unit :=
  d ← gets nd_db;
  ok ← lift (ok_or (auth_check room_version_id join_pdu (state_event state d)) (BadRequest InvalidParam "Auth check failed"));
  if negb ok then fail (BadRequest InvalidParam "Auth check failed")
  else
    compressed ← ondb (compress_state state);
    r ← ondb (save_state room_id compressed);
    let '(statehash_before_join, new, removed) := (r : N * gset CompressedStateEvent * gset CompressedStateEvent) in
    ondb (force_state room_id statehash_before_join new removed) ;;
    ondb (update_joined_count room_id) ;;
    statehash_after_join ← ondb (append_to_state join_pdu);
    on_server (append_pdu join_pdu join_event [event_id join_pdu]) ;;
    ondb (set_room_state room_id statehash_after_join).

(** A join of a room this server is not in. *)
Definition join_remote (sender_user : UserId) (room_id : RoomId) (reason : option rstr) (servers : list ServerName) : NM unit :=
  r ← make_join_request sender_user room_id servers;
  let '((version, template), remote_server) := (r : (option rstr * Raw) * ServerName) in
  room_version_id ← lift (supported_version version);
  r ← join_event_of sender_user reason template room_version_id;
  let '(event_id, join_event) := (r : EventId * CanonicalJsonObject) in
  r ← send_federation_request remote_server (SendJoin room_id event_id (convert_to_outgoing_federation_event join_event));
  let '(state_pdus, auth_pdus, signed) := (r : list Raw * list Raw * option Raw) in
  join_event ← lift (match signed with
    | Some signed_raw =>
        match gen_event_id_canonical_json signed_raw room_version_id with
        | Ok (signed_event_id, signed_value) =>
            if decide (signed_event_id ≠ event_id) then Err (BadRequest InvalidParam "Server sent event with wrong event id")
            else add_signature remote_server signed_value join_event
        | Err _ => Err (BadRequest InvalidParam "Could not convert event to canonical json.")
        | Panic p => Panic p
        end
    | None => Ok join_event
    end);
  ondb (get_or_create_shortroomid room_id) ;;
  join_pdu ← lift (ok_or (from_id_val event_id join_event) (BadServerResponse "Invalid join event PDU."));
  modify (set_pub_key_map []) ;;
  fetch_join_signing_keys state_pdus auth_pdus room_version_id ;;
  state ← for_fold state_pdus ∅ (join_state_event room_version_id);
  for_each auth_pdus (join_auth_event room_version_id) ;;
  lift (if room_version_supported room_version_id then Ok () else Panic "room version is supported") ;;
  enter_room room_id room_version_id join_pdu join_event state.

(** ** Restricted rooms *)

Definition restriction_rooms (rule : option JoinRule) : list RoomId :=
  match rule with
  | Some (JRestricted allow) | Some (JKnockRestricted allow) =>
      filter_map (λ a, match a with RoomMembership r => Some r | OtherAllow _ => None end) allow
  | _ => []
  end.

Definition reads {A} (m : DB A) (d : State) : option A := ok (m d).1.

(** [max_by_key(|(_, i)| *i)]: the last of the greatest. *)
Fixpoint max_by_level (l : list (UserId * Z)) (best : option (UserId * Z)) : option (UserId * Z) :=
  match l with
  | [] => best
  | x :: l => max_by_level l (match best with
                              | Some y => if bool_decide (y.2 ≤ x.2)%Z then Some x else Some y
                              | None => Some x
                              end)
  end.

(** A local member of one of the rooms, of high power if there is one. *)
Definition local_authorizer (levels : option PowerLevels) (restriction_room_id : RoomId) (d : State) : option UserId :=
  let powerful := filter (λ e : UserId * Z, user_server_name e.1 = server_name ∧ (0 < e.2)%Z ∧
                     default false (reads (is_joined e.1 restriction_room_id) d) = true)
                   (from_option pl_users [] levels) in
  match max_by_level powerful None with
  | Some (u, _) => Some u
  | None =>
      members ← reads (room_members restriction_room_id) d;
      snd <$> list_find (λ u : UserId, user_server_name u = server_name) (filter_map ok members)
  end.

(** The first room the user is joined to decides. *)
Fixpoint authorized_user (sender_user : UserId) (levels : option PowerLevels) (rooms : list RoomId) (d : State) : option UserId :=
  match rooms with
  | [] => None
  | r :: rooms =>
      match reads (is_joined sender_user r) d with
      | Some true => local_authorizer levels r d
      | _ => authorized_user sender_user levels rooms d
      end
  end.

(** A join of a room this server is in: an event of its own, and if that is not
    allowed in a restricted room, the help of another server. *)
Definition join_local (rounds fuel : nat) (sender_user : UserId) (room_id : RoomId) (reason : option rstr)
    (servers : list ServerName) : NM unit :=
  join_rules_event ← ondb (room_state_get room_id (lit "m.room.join_rules") (lit ""));
  power_levels_event ← ondb (room_state_get room_id (lit "m.room.power_levels") (lit ""));
  rule ← lift (transpose ((λ e, ok_or (join_rules_content (content e)) (BadDatabase "Invalid join rules event in db.")) <$> join_rules_event));
  levels ← lift (transpose ((λ e, ok_or (power_levels_content (content e)) (BadDatabase "Invalid power levels event in db.")) <$> power_levels_event));
  let rooms := restriction_rooms rule in
  d ← gets nd_db;
  c ← ondb (profile_member MJoin sender_user None reason (authorized_user sender_user levels rooms d));
  r ← catch (on_server (build_and_append_pdu (state_builder (lit "m.room.member") (as_str sender_user) (CMember c)) sender_user room_id));
  match r with
  | inl _ => mret ()
  | inr error =>
      if bool_decide (rooms = []) then fail error
      else
        r ← make_join_request sender_user room_id servers;
        let '((version, template), remote_server) := (r : (option rstr * Raw) * ServerName) in
        room_version_id ← lift (supported_version version);
        r ← join_event_of sender_user reason template room_version_id;
        let '(event_id, join_event) := (r : EventId * CanonicalJsonObject) in
        r ← send_federation_request remote_server (SendJoin room_id event_id (convert_to_outgoing_federation_event join_event));
        let '(_, _, signed) := (r : list Raw * list Raw * option Raw) in
        match signed with
        | Some signed_raw =>
            match gen_event_id_canonical_json signed_raw room_version_id with
            | Ok (signed_event_id, signed_value) =>
                if decide (signed_event_id ≠ event_id) then fail (BadRequest InvalidParam "Server sent event with wrong event id")
                else
                  modify (set_pub_key_map []) ;;
                  handle_incoming_pdu rounds fuel remote_server signed_event_id room_id signed_value true ;; mret ()
            | Err _ => fail (BadRequest InvalidParam "Could not convert event to canonical json.")
            | Panic p => lift (Panic p)
            end
        | None => fail error
        end
  end.

Definition join_room_by_id_helper (rounds fuel : nat) (sender_user : option UserId) (room_id : RoomId) (reason : option rstr)
    (servers : list ServerName) : NM RoomId :=
  sender_user ← lift (expect sender_user "user is authenticated");
  here ← ondb (server_in_room server_name room_id);
  (if (here : bool) then join_local rounds fuel sender_user room_id reason servers
   else join_remote sender_user room_id reason servers) ;;
  mret room_id.

(** The servers of the users that sent the events of an invitation. *)
Definition invite_servers (state : list Raw) : list ServerName :=
  filter_map (λ event,
    v ← from_slice (raw_text event); s ← json_get (lit "sender") v; t ← as_string s;
    u ← parse_id valid_user_id t; Some (user_server_name u)) state.

Definition join_room_by_id_route (rounds fuel : nat) (b : Request (RoomId * option rstr)) : NM RoomId :=
  sender_user ← the_user b;
  state ← ondb (invite_state sender_user (body b).1);
  join_room_by_id_helper rounds fuel (Request.sender_user b) (body b).1 (body b).2
    (invite_servers (default [] state) ++ [room_server_name (body b).1]).

(** A room id or an alias, the servers of the request, and the reason. *)
Definition join_room_by_id_or_alias_route (rounds fuel : nat)
    (b : Request ((RoomId + RoomAliasId) * list ServerName * option rstr)) : NM RoomId :=
  sender_user ← the_user b;
  let '(target, server_names, reason) := body b in
  r ← match target with
      | inl room_id =>
          state ← ondb (invite_state sender_user room_id);
          mret (server_names ++ invite_servers (default [] state) ++ [room_server_name room_id], room_id)
      | inr room_alias => r ← get_alias_helper room_alias; mret (r.2, r.1)
      end;
  join_room_by_id_helper rounds fuel (Some sender_user) r.2 reason r.1.

(** ** Leaving *)

Fixpoint make_leave_loop (user_id : UserId) (room_id : RoomId) (servers : list ServerName) (acc : Error) :
    NM ((option rstr * Raw) * ServerName) :=
  match servers with
  | [] => fail acc
  | remote_server :: servers =>
      r ← catch (send_federation_request remote_server (MakeLeave room_id user_id));
      match r with
      | inl r => mret (r, remote_server)
      | inr e => make_leave_loop user_id room_id servers e
      end
  end.

Definition remote_leave_room (user_id : UserId) (room_id : RoomId) : NM unit :=
  o ← ondb (invite_state user_id room_id);
  state ← lift (ok_or o (BadRequest BadState "User is not invited."));
  r ← make_leave_loop user_id room_id (elements (list_to_set (invite_servers state) : gset ServerName))
        (BadServerResponse "No server available to assist in leaving.");
  let '((version, template), remote_server) := (r : (option rstr * Raw) * ServerName) in
  room_version_id ← lift (supported_version version);
  stub ← lift (ok_or (from_slice (raw_text template))
                (BadServerResponse "Invalid make_leave event json received from server."));
  stub ← ondb (with_origin stub);
  r ← lift (finish_event stub room_version_id);
  let '(event_id, leave_event) := (r : EventId * CanonicalJsonObject) in
  send_federation_request remote_server (SendLeave room_id event_id (convert_to_outgoing_federation_event leave_event)).

Definition leave_room (user_id : UserId) (room_id : RoomId) (reason : option rstr) : NM unit :=
  known ← ondb (room_exists room_id);
  if negb known && bool_decide (room_server_name room_id ≠ server_name) then
    catch (remote_leave_room user_id room_id) ;;
    invite ← ondb (invite_state user_id room_id);
    last_state ← match invite with
                 | None => ondb (left_state user_id room_id)
                 | Some s => mret (Some s)
                 end;
    ondb (update_membership room_id user_id MLeave user_id last_state true)
  else
    member_event ← ondb (room_state_get room_id (lit "m.room.member") (as_str user_id));
    match member_event with
    | None => ondb (update_membership room_id user_id MLeave user_id None true)
    | Some e =>
        c ← lift (ok_or (member_content (content e)) (BadDatabase "Invalid member event in database."));
        on_server (build_and_append_pdu (state_builder (lit "m.room.member") (as_str user_id)
          (CMember (with_membership MLeave reason c))) user_id room_id) ;;
        mret ()
    end.

Definition leave_room_route (b : Request (RoomId * option rstr)) : NM unit :=
  sender_user ← the_user b; leave_room sender_user (body b).1 (body b).2.

(** Errors of single rooms are ignored. *)
Definition leave_all_rooms (user_id : UserId) : NM unit :=
  joined ← ondb (rooms_joined user_id);
  invited ← ondb (rooms_invited user_id);
  for_each (filter_map ok joined ++ (fst <$> filter_map ok invited)) (λ room_id,
    catch (leave_room user_id room_id None) ;; mret ()).

(** ** Inviting, kicking and banning *)

Definition member_builder (user_id : UserId) (c : RoomMemberEventContent) : PduBuilder :=
  state_builder (lit "m.room.member") (as_str user_id) (CMember c).

Definition invite_helper (rounds fuel : nat) (sender_user user_id : UserId) (room_id : RoomId) (reason : option rstr)
    (is_direct : bool) : NM unit :=
  if decide (user_server_name user_id ≠ server_name) then
    r ← ondb (create_hash_and_sign_event
      (member_builder user_id (MkMember MInvite None None (Some is_direct) None None reason None)) sender_user room_id);
    let '(pdu, pdu_json) := (r : PduEvent * CanonicalJsonObject) in
    invite_room_state ← ondb (calculate_invite_state pdu);
    room_version_id ← ondb (get_room_version room_id);
    response ← send_federation_request (user_server_name user_id)
      (CreateInvite room_id (event_id pdu) room_version_id (convert_to_outgoing_federation_event pdu_json) invite_room_state);
    match gen_event_id_canonical_json response room_version_id with
    | Ok (event_id, value) =>
        v ← lift (ok_or (canonical_get (lit "origin") value) (BadRequest InvalidParam "Event needs an origin field."));
        origin ← lift (ok_or (s ← as_string v; parse_id valid_server_name s) (BadRequest InvalidParam "Origin field is invalid."));
        modify (set_pub_key_map []) ;;
        o ← handle_incoming_pdu rounds fuel origin event_id room_id value true;
        pdu_id ← lift (ok_or o (BadRequest InvalidParam "Could not accept incoming PDU as timeline event."));
        servers ← ondb (room_servers room_id);
        on_server (on_sending (send_pdu (filter (λ s, s ≠ server_name) (filter_map ok servers)) pdu_id))
    | Err _ => fail (BadRequest InvalidParam "Could not convert event to canonical json.")
    | Panic p => lift (Panic p)
    end
  else
    joined ← ondb (is_joined sender_user room_id);
    if negb joined then fail (BadRequest Forbidden "You don't have permission to view this room.")
    else
      c ← ondb (profile_member MInvite user_id (Some is_direct) reason None);
      on_server (build_and_append_pdu (member_builder user_id c) sender_user room_id) ;;
      mret ().

(** The room, the user unless it is a third-party identifier, and the reason. *)
Definition invite_user_route (rounds fuel : nat) (b : Request (RoomId * option UserId * option rstr)) : NM unit :=
  sender_user ← the_user b;
  let '(room_id, recipient, reason) := body b in
  match recipient with
  | Some user_id => invite_helper rounds fuel sender_user user_id room_id reason false
  | None => fail (BadRequest NotFound "User not found.")
  end.

(** The current member content of a user in a room. *)
Definition current_member (room_id : RoomId) (user_id : UserId) (missing : string) : DB RoomMemberEventContent :=
  o ← room_state_get room_id (lit "m.room.member") (as_str user_id);
  e ← lift (ok_or o (BadRequest BadState missing));
  lift (ok_or (member_content (content e)) (BadDatabase "Invalid member event in database.")).

Definition kick_user_route (b : Request (RoomId * UserId * option rstr)) : NM unit :=
  sender_user ← the_user b;
  let '(room_id, user_id, reason) := body b in
  event ← ondb (current_member room_id user_id "Cannot kick member that's not in the room.");
  on_server (build_and_append_pdu (member_builder user_id (with_membership MLeave reason event)) sender_user room_id) ;;
  mret ().

Definition ban_user_route (b : Request (RoomId * UserId * option rstr)) : NM unit :=
  sender_user ← the_user b;
  let '(room_id, user_id, reason) := body b in
  o ← ondb (room_state_get room_id (lit "m.room.member") (as_str user_id));
  default_event ← ondb (profile_member MBan user_id None reason None);
  event ← lift (match o with
                | None => Ok default_event
                | Some event =>
                    c ← ok_or (member_content (content event)) (BadDatabase "Invalid member event in database.");
                    Ok (with_membership MBan (rm_reason c) c)
                end);
  on_server (build_and_append_pdu (member_builder user_id event) sender_user room_id) ;;
  mret ().

Definition unban_user_route (b : Request (RoomId * UserId * option rstr)) : NM unit :=
  sender_user ← the_user b;
  let '(room_id, user_id, reason) := body b in
  event ← ondb (current_member room_id user_id "Cannot unban a user who is not banned.");
  on_server (build_and_append_pdu (member_builder user_id (with_membership MLeave reason event)) sender_user room_id) ;;
  mret ().

Definition forget_room_route (b : Request RoomId) : NM unit :=
  sender_user ← the_user b; ondb (forget (body b) sender_user).

(** ** Questions about members *)

Definition joined_rooms_route (b : Request unit) : NM (list RoomId) :=
  sender_user ← the_user b;
  rooms ← ondb (rooms_joined sender_user);
  mret (filter_map ok rooms).

Definition get_member_events_route (b : Request RoomId) : NM (list Raw) :=
  sender_user ← the_user b;
  joined ← ondb (is_joined sender_user (body b));
  if negb joined then fail (BadRequest Forbidden "You don't have permission to view this room.")
  else
    state ← ondb (room_state_full (body b));
    mret ((λ e, to_member_event e.2) <$> filter (λ e : rstr * rstr * PduEvent, e.1.1 = lit "m.room.member") (map_to_list state)).

(** The display name and the avatar of every member. *)
Definition joined_members_route (b : Request RoomId) : NM (gmap UserId (option rstr * option rstr)) :=
  sender_user ← the_user b;
  joined ← ondb (is_joined sender_user (body b));
  if negb joined then fail (BadRequest Forbidden "You aren't a member of the room.")
  else
    members ← ondb (room_members (body b));
    for_fold (filter_map ok members) ∅ (λ m user_id,
      display_name ← ondb (displayname user_id);
      avatar ← ondb (avatar_url user_id);
      mret (<[user_id := (display_name, avatar)]> m)).

(** ** Deactivating the account of the sender *)

Context {AL : AccountLib}.

Definition deactivate_route (b : Request (option AuthData)) : NM unit :=
  sender_user ← the_user b;
  sender_device ← the_device b;
  require_uiaa APassword sender_user sender_device (body b) (json_body b) ;;
  leave_all_rooms sender_user ;;
  ondb (deactivate_account sender_user) ;;
  on_server (send_message (NoticePlain (str_app (lit "User ") (str_app (as_str sender_user) (lit " deactivated their account."))))).
End membership.

(** ** Lemmas *)

Section membership_theorems.
Context {Ev : Env} {EL : EventLib} {TL : TimelineLib} {CL : ContentLib} {Out : Outside} {HL : HandlerLib}.
Implicit Types n : Node.

Abbreviation room_servers_mirror s :=
  (mirror valid_room_id valid_server_name (db_map s roomserverids) (db_map s serverroomids)).

Lemma invite_state_keeps u r : keeps [] (invite_state u r).
Proof. unfold invite_state. keeps_tac. Qed.
Lemma room_exists_keeps r : keeps [] (room_exists r).
Proof. unfold room_exists. keeps_tac. Qed.
Lemma with_origin_keeps stub : keeps [] (with_origin stub).
Proof. unfold with_origin. keeps_tac. Qed.
Lemma make_leave_loop_keeps u r l e : preserves (nagree []) (make_leave_loop u r l e).
Proof. revert e. induction l; intros e; cbn [make_leave_loop]; node_tac; auto. Qed.
Hint Resolve invite_state_keeps with_origin_keeps : keeps.
Hint Resolve make_leave_loop_keeps : handler.
Lemma remote_leave_room_keeps u r : preserves (nagree []) (remote_leave_room u r).
Proof. unfold remote_leave_room. node_tac. Qed.

(** What another server says of a room does not change the memberships here. *)
Lemma memberships_kept n n' :
  nagree [] n n' → MemberInv (nd_db n) → MemberInv (nd_db n') ∧ ∀ u r, membership (nd_db n') u r = membership (nd_db n) u r.
Proof. intros H. eapply membership_agree; [exact H|by_compute]. Qed.

(** The invitation is read the same after requests to other servers. *)
Lemma invite_state_same u r d d' o : agree [] d d' → (invite_state u r d).1 = Ok o → invite_state u r d' = (Ok o, d').
Proof.
  intros A. unfold invite_state, mbind, M_bind. rewrite !t_get_run. rewrite (A userroomid_invitestate) by by_compute.
  cbn. by intros ->.
Qed.

(** ** Restricted rooms *)

Lemma is_joined_reads u r d : MemberInv d → reads (is_joined u r) d = Some (bool_decide (membership d u r = Some Joined)).
Proof. intros I. unfold reads. by rewrite is_joined_run. Qed.

Lemma max_by_level_elem l o x : max_by_level l o = Some x → x ∈ l ∨ o = Some x.
Proof.
  revert o. induction l as [|y l IH]; intros o; cbn; [by right|]. intros [?|H]%IH; [left; by right|].
  destruct o as [z|]; [case_bool_decide|]; simplify_eq; (left; by left) || by right.
Qed.

Lemma local_authorizer_sound levels r d u :
  MemberInv d → local_authorizer levels r d = Some u →
  user_server_name u = server_name ∧ membership d u r = Some Joined.
Proof.
  intros I. unfold local_authorizer. destruct (max_by_level _ _) as [[u1 z]|] eqn:E.
  - intros [= ->]. apply max_by_level_elem in E as [H|?]; [|done]. apply list_elem_of_filter in H as ((Hs & _ & Hj) & _).
    cbn [fst] in *. rewrite is_joined_reads in Hj by done. by apply bool_decide_eq_true in Hj.
  - destruct (room_members_run r d I) as (us & Er & _ & Hus). unfold reads. rewrite Er. cbn.
    rewrite filter_map_ok_fmap. intros ([i x] & (Hx & Hs & _)%list_find_Some & [= <-])%fmap_Some.
    split; [done|]. apply Hus. by eapply list_elem_of_lookup_2.
Qed.
Lemma local_authorizer_complete levels r d u :
  MemberInv d → user_server_name u = server_name → membership d u r = Some Joined →
  is_Some (local_authorizer levels r d).
Proof.
  intros I Hs Hj. unfold local_authorizer. destruct (max_by_level _ _) as [[u1 z]|]; [done|].
  destruct (room_members_run r d I) as (us & Er & _ & Hus). unfold reads. rewrite Er. cbn.
  rewrite filter_map_ok_fmap. apply fmap_is_Some. eapply list_find_elem_of; [by apply Hus|done].
Qed.

(** The user who vouches for a join of a restricted room is a user of this server
    joined to one of the rooms the rule names, in which the joining user is too;
    and there is one whenever a user of this server who joins is in one of these
    rooms. *)
Theorem authorized_user_correct (joining : UserId) levels (rooms : list RoomId) (d : State) :
  MemberInv d →
  (∀ u, authorized_user joining levels rooms d = Some u →
    user_server_name u = server_name ∧
    ∃ r, r ∈ rooms ∧ membership d joining r = Some Joined ∧ membership d u r = Some Joined) ∧
  (user_server_name joining = server_name → (∃ r, r ∈ rooms ∧ membership d joining r = Some Joined) →
    is_Some (authorized_user joining levels rooms d)).
Proof.
  intros I. induction rooms as [|r rooms [IHs IHc]]; cbn [authorized_user].
  { split; [done|]. by intros _ (r & ?%not_elem_of_nil & _). }
  rewrite is_joined_reads by done. case_bool_decide as Hj.
  - split.
    + intros u [? ?]%local_authorizer_sound; [|done]. split; [done|]. exists r. split_and!; [by left|done..].
    + intros Hs _. by eapply local_authorizer_complete.
  - split.
    + intros u (? & r' & ? & ?)%IHs. split; [done|]. exists r'. split; [by right|done].
    + intros Hs (r' & [->|Hr]%elem_of_cons & ?); [done|]. eauto.
Qed.

(** ** Leaving *)

(** A user invited to a room this server does not know gets rid of the invitation,
    whatever the servers of the room answer, and nobody else moves; only a
    template that cannot be signed, which panics, prevents it. *)
Theorem leave_unknown_room (u : UserId) (r : RoomId) reason (st : list Raw) n :
  (room_exists r (nd_db n)).1 = Ok false → room_server_name r ≠ server_name →
  (invite_state u r (nd_db n)).1 = Ok (Some st) →
  MemberInv (nd_db n) → room_servers_mirror (nd_db n) →
  let '(o, n') := leave_room u r reason n in
  (∃ p, o = Panic p) ∨
  (o = Ok () ∧ MemberInv (nd_db n') ∧ membership (nd_db n') u r = Some Left ∧
   ∀ u' r', (u', r') ≠ (u, r) → membership (nd_db n') u' r' = membership (nd_db n) u' r').
Proof.
  intros He Hr Hi I Hm. unfold leave_room. pose proof (room_exists_keeps r (nd_db n)) as A0.
  destruct (room_exists r (nd_db n)) as [o d0] eqn:E0. cbn [fst snd] in *. subst o.
  rewrite (bind_Ok _ _ _ _ _ (ondb_run _ _ _ _ E0)). rewrite bool_decide_eq_true_2 by done. cbn [negb andb].
  assert (nagree [] n (with_db d0 n)) as A by exact A0. set (n0 := with_db d0 n) in *. clearbody n0.
  pose proof (catch_keeps _ _ (remote_leave_room_keeps u r) n0) as A1.
  unfold mbind at 1, M_bind at 1. destruct (catch (remote_leave_room u r) n0) as [[x|e|p] n1] eqn:E1; cbn [snd] in A1.
  2: { unfold catch in E1. by destruct (remote_leave_room u r n0) as [[]]. }
  2: { left. by exists p. }
  assert (nagree [] n n1) as A2 by (by etrans). destruct (memberships_kept _ _ A2 I) as [I1 Em].
  rewrite (bind_Ok _ _ _ _ _ (ondb_read _ _ _ (invite_state_same u r _ _ _ A2 Hi))). rewrite bind_ret.
  pose proof (update_membership_run r u MLeave u (Some st) true (nd_db n1) I1) as H.
  rewrite !(A2 roomserverids), !(A2 serverroomids) in H by by_compute. specialize (H Hm).
  destruct (update_membership _ _ _ _ _ _ _) as [o d2] eqn:E2. rewrite (ondb_run _ _ _ _ E2).
  destruct H as (I2 & Ho & Hl & Hd). assert (o = Ok ()) as -> by (by apply Hd).
  right. split_and!; [done|exact I2|exact Hl|]. intros u' r' Hne. rewrite <- Em. by apply Ho.
Qed.

(** ** Joining with the help of another server *)

(** The other server an answer comes from is one of those given, and not this one. *)
Lemma make_join_loop_inv u r (l : list ServerName) e n x (server : ServerName) n' :
  make_join_loop u r l e n = (Ok (x, server), n') → server ∈ l ∧ server ≠ server_name.
Proof.
  revert e n. induction l as [|s l IH]; intros e n; cbn [make_join_loop]; [done|].
  case_decide as Hs; [intros ?%IH; set_solver|]. intros H. run_inv H ans n1 E.
  destruct ans; [injection H as <- <- <-; set_solver|]. apply IH in H. set_solver.
Qed.

Lemma supported_version_inv o v : supported_version o = Ok v → o = Some v ∧ v ∈ supported_room_versions.
Proof. destruct o as [v'|]; cbn; [|done]. case_bool_decide; [|done]. by intros [= ->]. Qed.

(** An event of an answer that passed the verification of its signatures. *)
Definition verified_raw (keys : list (rstr * VerifyKeys)) (v : rstr) (raw : Raw) (id : EventId)
    (value : CanonicalJsonObject) : Prop :=
  from_slice (raw_text raw) = Some value ∧ is_Some (verify_event keys value v) ∧
  (reference_hash value v ≫= hash_event_id) = Some id.

Lemma validate_and_add_event_id_inv raw v n id val n' :
  validate_and_add_event_id raw v n = (Ok (id, val), n') →
  n' = n ∧ ∃ value, verified_raw (nd_pub_key_map n) v raw id value ∧
    val = canonical_insert (lit "event_id") (JStr (as_str id)) value.
Proof.
  unfold validate_and_add_event_id. intros H. lift_inv H obj E1. apply ok_or_Ok in E1.
  lift_inv H hs E2. lift_inv H id' E3. rewrite bind_gets in H. run_inv H w n1 E4.
  assert (n1 = n) as ->.
  { revert E4. unfold backing_off. destruct (_ !! _) as [[]|]; [|by intros [=]].
    unfold instant_now. rewrite bind_gets. case_bool_decide; by intros [=]. }
  destruct w; [done|]. rewrite bind_gets in H. destruct (verify_event _ _ _) eqn:Ev'; [|by run_inv H x n2 E5].
  injection H as -> <- <-. split; [done|]. exists obj. split; [|done]. split_and!; [done|by rewrite Ev'|].
  destruct (reference_hash obj v); simplify_eq/=. by destruct (hash_event_id _); simplify_eq/=.
Qed.

(** The keys in use stay while the state of an answer is stored. *)
Definition keys_kept n n' : Prop := nd_pub_key_map n' = nd_pub_key_map n.
#[local] Instance keys_kept_preorder : PreOrder keys_kept.
Proof. split; [done|]. intros ??? H1 H2. unfold keys_kept in *. congruence. Qed.
Lemma ondb_keys {A} (m : DB A) n r n' : ondb m n = (r, n') → keys_kept n n'.
Proof. by intros (d & _ & ->)%ondb_inv. Qed.

Lemma back_off_event_keys id : preserves keys_kept (back_off_event id).
Proof. intros n. unfold back_off_event. by destruct n. Qed.

Lemma validate_keys raw v : preserves keys_kept (validate_and_add_event_id raw v).
Proof.
  unfold validate_and_add_event_id, backing_off, instant_now, keys_kept.
  repeat (apply preserves_bind; [apply _|by (apply preserves_lift, _) || (apply preserves_gets, _)|intros]).
  apply preserves_bind; [apply _| |intros []].
  - destruct (_ : option _) as [[]|]; [apply preserves_bind; [apply _|apply preserves_gets, _|intros]|apply preserves_ret, _].
    case_bool_decide; [apply preserves_ret, _|apply preserves_lift, _].
  - apply preserves_fail, _.
  - apply preserves_bind; [apply _|apply preserves_gets, _|intros]. destruct (verify_event _ _ _); [apply preserves_ret, _|].
    apply preserves_bind; [apply _|apply back_off_event_keys|intros]. apply preserves_fail, _.
Qed.

Lemma join_state_event_inv v (state : gmap N EventId) raw n (state' : gmap N EventId) n' :
  join_state_event v state raw n = (Ok state', n') →
  keys_kept n n' ∧
  ∀ k e, state' !! k = Some e → state !! k = Some e ∨
    ∃ id value pdu, verified_raw (nd_pub_key_map n) v raw id value ∧
      from_id_val id (canonical_insert (lit "event_id") (JStr (as_str id)) value) = Some pdu ∧ event_id pdu = e.
Proof.
  unfold join_state_event. intros H. run_inv H o n1 E1.
  assert (keys_kept n n1) as K1 by exact (preserves_inv _ _ _ _ _ (preserves_try_ok _ _ (validate_keys raw v)) E1).
  destruct o as [[id val]|]; [|injection H as <- <-; split; [done|by left]].
  unfold try_ok in E1. destruct (validate_and_add_event_id raw v n) as [[]] eqn:E2; try done. injection E1 as -> ->.
  apply validate_and_add_event_id_inv in E2 as (-> & value & Hv & ->).
  lift_inv H pdu E3. apply ok_or_Ok in E3. run_inv H u n2 E4. apply ondb_keys in E4.
  destruct (state_key pdu) as [key|]; [|injection H as <- <-; split; [by etrans|by left]].
  run_inv H sk n3 E5. apply ondb_keys in E5. injection H as <- <-. split; [by do 2 (etrans; [done|])|].
  intros k e [[<- <-]|[_ ?]]%lookup_insert_Some; [right; eauto 10|by left].
Qed.

Lemma join_states_inv v (pdus : list Raw) (state : gmap N EventId) n (state' : gmap N EventId) n' :
  for_fold pdus state (join_state_event v) n = (Ok state', n') →
  ∀ k e, state' !! k = Some e → state !! k = Some e ∨
    ∃ raw id value pdu, raw ∈ pdus ∧ verified_raw (nd_pub_key_map n) v raw id value ∧
      from_id_val id (canonical_insert (lit "event_id") (JStr (as_str id)) value) = Some pdu ∧ event_id pdu = e.
Proof.
  revert state n. induction pdus as [|raw pdus IH]; intros state n H k e Hk; cbn [for_fold] in H.
  { injection H as -> _. by left. }
  run_inv H s1 n1 E. apply join_state_event_inv in E as [K E]. eapply IH in H as [H|H]; [|..|exact Hk].
  - apply E in H as [?|H]; [by left|right]. exists raw. destruct H as (id & value & pdu & ?). exists id, value, pdu.
    split; [by left|done].
  - right. unfold keys_kept in K. rewrite K in H. destruct H as (raw' & id & value & pdu & ? & ?).
    exists raw', id, value, pdu. split; [by right|done].
Qed.

(** ** What a join stores *)

(** New outliers are of a certain kind; others may go. *)
Definition outliers_from (P : bytes → bytes → Prop) n n' : Prop :=
  ∀ k x, db_map (nd_db n') eventid_outlierpdu !! k = Some x →
    db_map (nd_db n) eventid_outlierpdu !! k = Some x ∨ P k x.
#[local] Instance outliers_from_preorder P : PreOrder (outliers_from P).
Proof. split; [by left|]. intros n1 n2 n3 H1 H2 k x [H|?]%H2; [by apply H1|by right]. Qed.

Lemma nagree_outliers {A} P ts (m : NM A) :
  preserves (nagree ts) m → eventid_outlierpdu ∉ ts → preserves (outliers_from P) m.
Proof. intros H Ht n k x. rewrite (H n eventid_outlierpdu Ht). by left. Qed.

(** The event of an answer, as it is stored. *)
Definition verified_outlier (keys : list (rstr * VerifyKeys)) (v : rstr) (raws : list Raw) (k x : bytes) : Prop :=
  ∃ raw id value, raw ∈ raws ∧ verified_raw keys v raw id value ∧ k = idb id ∧
    x = to_vec (canonical_insert (lit "event_id") (JStr (as_str id)) value).

(** The other server that assisted in a join: it is one of those named, it told a
    supported version, these are the state and the auth chain it sent, and the keys of
    the servers that signed them have been gathered. *)
Record Assisted (r : RoomId) (servers : list ServerName) (server : ServerName) (v : rstr) (state_pdus auth_pdus : list Raw)
    (keys : list (rstr * VerifyKeys)) : Prop := {
  as_server : server ∈ servers ∧ server ≠ server_name;
  as_version : v ∈ supported_room_versions;
  as_answer : ∃ id event signed w w', world_send server (SendJoin r id event) w = (inl (state_pdus, auth_pdus, signed), w');
  as_keys : ∃ n1 n2, nd_pub_key_map n1 = [] ∧ fetch_join_signing_keys state_pdus auth_pdus v n1 = (Ok (), n2) ∧
    nd_pub_key_map n2 = keys;
}.

Lemma validate_keeps raw v : preserves (nagree []) (validate_and_add_event_id raw v).
Proof. unfold validate_and_add_event_id. pose proof backing_off_keeps. pose proof back_off_event_keeps. node_tac. Qed.
Lemma join_state_event_keeps v st raw : preserves (nagree (eventid_outlierpdu :: number_trees)) (join_state_event v st raw).
Proof. unfold join_state_event. pose proof validate_keeps as Hv. node_tac. Qed.
Lemma join_auth_event_keeps v raw : preserves (nagree [eventid_outlierpdu]) (join_auth_event v raw).
Proof. unfold join_auth_event. pose proof validate_keeps as Hv. node_tac. Qed.

(** Storing the events of an answer: only those that pass the verification with the
    keys in use, which stay the same. *)
Definition stores_verified (keys : list (rstr * VerifyKeys)) (v : rstr) (raws : list Raw) n n' : Prop :=
  nd_pub_key_map n = keys → nd_pub_key_map n' = keys ∧ outliers_from (verified_outlier keys v raws) n n'.
#[local] Instance stores_verified_preorder keys v raws : PreOrder (stores_verified keys v raws).
Proof.
  split; [intros n H; by split|]. intros n1 n2 n3 H1 H2 H. destruct (H1 H) as [E1 O1]. destruct (H2 E1) as [E2 O2].
  split; [done|]. by etrans.
Qed.
Lemma stores_quiet {A} keys v raws (m : NM A) :
  preserves keys_kept m → preserves (nagree number_trees) m → preserves (stores_verified keys v raws) m.
Proof.
  intros Hk Ha n <-. split; [exact (Hk n)|]. exact (nagree_outliers _ number_trees m Ha ltac:(by_compute) n).
Qed.

Lemma add_verified keys v raws raw id val :
  raw ∈ raws → (∃ value, verified_raw keys v raw id value ∧ val = canonical_insert (lit "event_id") (JStr (as_str id)) value) →
  preserves (stores_verified keys v raws) (ondb (add_pdu_outlier id val)).
Proof.
  intros Hr (value & Hv & ->) n Hk. unfold add_pdu_outlier.
  rewrite (ondb_run _ _ _ _ (t_insert_run _ _ _ _)). cbn [snd]. split; [done|]. intros k x. change (nd_db (with_db ?d n)) with d.
  rewrite db_map_put_eq, lookup_insert_Some. intros [[<- <-]|[_ ?]]; [right|by left]. by exists raw, id, value.
Qed.

(** The two loops over an answer. *)
Lemma validated_store {A} keys v raws raw (none : NM A) (some : EventId → CanonicalJsonObject → NM A) :
  preserves (stores_verified keys v raws) none →
  (∀ id value, verified_raw keys v raw id value →
     preserves (stores_verified keys v raws) (some id (canonical_insert (lit "event_id") (JStr (as_str id)) value))) →
  preserves (stores_verified keys v raws)
    (r ← try_ok (validate_and_add_event_id raw v); match r with None => none | Some (id, val) => some id val end).
Proof.
  intros Hn Hs n Hk. pose proof (validate_keys raw v n) as K. pose proof (validate_keeps raw v n) as A1.
  assert (∀ k x, db_map (nd_db (validate_and_add_event_id raw v n).2) eventid_outlierpdu !! k = Some x →
    db_map (nd_db n) eventid_outlierpdu !! k = Some x) as Ho by (intros k x; by rewrite (A1 eventid_outlierpdu (not_elem_of_nil _))).
  unfold mbind, M_bind, try_ok. destruct (validate_and_add_event_id raw v n) as [o n1] eqn:E. cbn [snd] in *.
  unfold keys_kept in K. rewrite Hk in K.
  destruct o as [[id val]|e|p]; cbn [snd].
  - apply validate_and_add_event_id_inv in E as (-> & value & Hv & ->). rewrite Hk in Hv. by apply Hs.
  - destruct (Hn n1 K) as [K2 O2]. split; [done|]. intros k x Hx. destruct (O2 k x Hx); [by left; apply Ho|by right].
  - split; [done|]. intros k x Hx. left. by apply Ho.
Qed.
Lemma ondb_kept {A} (m : DB A) : preserves keys_kept (ondb m).
Proof. intros n. destruct (ondb m n) as [r n'] eqn:E. by eapply ondb_keys. Qed.
Lemma join_state_stores keys v raws st raw : raw ∈ raws → preserves (stores_verified keys v raws) (join_state_event v st raw).
Proof.
  intros Hr. apply (validated_store keys v raws raw (mret st) (λ id value,
    pdu ← lift (ok_or (from_id_val id value) (BadServerResponse "Invalid PDU in send_join response."));
    ondb (add_pdu_outlier id value) ;;
    match state_key pdu with
    | Some state_key => k ← ondb (get_or_create_shortstatekey (kind pdu) state_key); mret (<[k := Env.event_id pdu]> st)
    | None => mret st
    end)); [apply preserves_ret, _|]. intros id value Hv.
  apply preserves_bind; [apply _|apply preserves_lift, _|intros pdu]. apply preserves_bind; [apply _|by eapply add_verified; eauto|intros _].
  destruct (state_key pdu); [|apply preserves_ret, _]. apply preserves_bind; [apply _| |intros; apply preserves_ret, _].
  apply stores_quiet; [apply ondb_kept|]. node_tac.
Qed.
Lemma join_auth_stores keys v raws raw : raw ∈ raws → preserves (stores_verified keys v raws) (join_auth_event v raw).
Proof.
  intros Hr. apply (validated_store keys v raws raw (mret ()) (λ id value, ondb (add_pdu_outlier id value))); [apply preserves_ret, _|].
  intros id value Hv. by eapply add_verified; eauto.
Qed.
Lemma preserves_for_each_in {S A} (R : relation S) `{!PreOrder R} (l : list A) (body : A → M S unit) :
  (∀ a, a ∈ l → preserves R (body a)) → preserves R (for_each l body).
Proof.
  intros H. induction l as [|a l IH]; cbn [for_each]; [apply preserves_ret, _|].
  apply preserves_bind; [done|apply H; by left|intros]. apply IH. intros; apply H; by right.
Qed.
Lemma preserves_for_fold_in {S A B} (R : relation S) `{!PreOrder R} (l : list A) (b : B) (body : B → A → M S B) :
  (∀ b a, a ∈ l → preserves R (body b a)) → preserves R (for_fold l b body).
Proof.
  intros H. revert b. induction l as [|a l IH]; intros b; cbn [for_fold]; [apply preserves_ret, _|].
  apply preserves_bind; [done|apply H; by left|intros]. apply IH. intros; apply H; by right.
Qed.

(** Entering the room adds no outlier. *)
Lemma insert_pdu_outliers p js l s :
  ∀ k x, db_map (insert_pdu p js l s).2 eventid_outlierpdu !! k = Some x → db_map s eventid_outlierpdu !! k = Some x.
Proof.
  set (R := λ s s' : State, ∀ k x, db_map s' eventid_outlierpdu !! k = Some x → db_map s eventid_outlierpdu !! k = Some x).
  assert (PreOrder R) as HR by (split; [by intros ???|]; intros ??? H1 H2 k x Hx; by apply H1, H2).
  assert (∀ A ts (m : DB A), keeps ts m → eventid_outlierpdu ∉ ts → preserves R m) as Hq.
  { intros A ts m Hm Ht s0 k x. by rewrite (Hm s0 eventid_outlierpdu Ht). }
  change (R s (insert_pdu p js l s).2). revert s. change (preserves R (insert_pdu p js l)). unfold insert_pdu.
  apply preserves_bind; [done|eapply (Hq _ []); [keeps_tac|by_compute]|intros o].
  apply preserves_bind; [done|by apply preserves_lift|intros sr].
  apply preserves_bind; [done|eapply (Hq _ []); [apply with_prev_content_keeps|by_compute]|intros js'].
  apply preserves_bind; [done|eapply (Hq _ [referencedevents]); [keeps_tac|by_compute]|intros _].
  apply preserves_bind; [done|eapply (Hq _ [roomid_pduleaves]); [keeps_tac|by_compute]|intros _].
  apply preserves_bind; [done|eapply (Hq _ [global]); [keeps_tac|by_compute]|intros c].
  apply preserves_bind; [done|eapply (Hq _ [global; roomuserid_privateread; roomuserid_lastprivatereadupdate]); [keeps_tac|by_compute]|intros _].
  apply preserves_bind; [done|eapply (Hq _ [global; userroomid_notificationcount; userroomid_highlightcount]); [keeps_tac|by_compute]|intros _].
  apply preserves_bind; [done|eapply (Hq _ [global]); [keeps_tac|by_compute]|intros c2].
  apply preserves_bind; [done| |intros; by apply preserves_ret].
  intros s k x. rewrite append_pdu_run. cbn [snd]. unfold appended. db_simpl. by intros [_ ?]%lookup_delete_Some.
Qed.
Lemma save_state_keeps r l :
  keeps [global; statehash_shortstatehash; shortstatehash_statediff] (save_state r l).
Proof. unfold save_state. keeps_tac. Qed.
Lemma force_state_keeps r h new removed :
  keeps (roomid_shortstatehash :: follow_trees) (force_state r h new removed).
Proof. unfold force_state, force_member, or_continue. pose proof update_membership_keeps. keeps_tac. Qed.
Lemma append_pdu_outliers P p js l : preserves (outliers_from P) (on_server (append_pdu p js l)).
Proof.
  intros n. unfold append_pdu, on_server, mbind, M_bind.
  pose proof (insert_pdu_outliers p js l (nd_db n)) as Hi. destruct (insert_pdu p js l (nd_db n)) as [o d] eqn:E.
  rewrite (on_db_run _ _ _ _ E). cbn [snd] in Hi.
  set (s1 := MkServer _ _). assert (sv_db s1 = d) as Ed by done.
  destruct o as [[sr id]|e|x]; [|by intros k y Hk; left; apply Hi..].
  pose proof (follow_up_keeps p sr id s1) as Hf. destruct (follow_up p sr id s1) as [[u|e|x] s2]; cbn [snd] in *;
    intros k y Hk; left; apply Hi; rewrite <- Ed;
    (rewrite <- (Hf eventid_outlierpdu); [exact Hk|case_decide; by_compute]).
Qed.

Lemma enter_room_outliers P r v p ev st : preserves (outliers_from P) (enter_room r v p ev st).
Proof.
  unfold enter_room. apply preserves_bind; [apply _|apply preserves_gets, _|intros d].
  apply preserves_bind; [apply _|apply preserves_lift, _|intros []]; [|apply preserves_fail, _].
  apply preserves_bind; [apply _|eapply nagree_outliers; [apply ondb_keeps, compress_state_keeps|by_compute]|intros comp].
  apply preserves_bind; [apply _|eapply nagree_outliers; [apply ondb_keeps, save_state_keeps|by_compute]|intros [[h new] removed]].
  apply preserves_bind; [apply _|eapply nagree_outliers; [apply ondb_keeps, force_state_keeps|by_compute]|intros _].
  apply preserves_bind; [apply _|eapply nagree_outliers; [apply ondb_keeps, update_joined_count_keeps|by_compute]|intros _].
  apply preserves_bind; [apply _|eapply nagree_outliers; [apply ondb_keeps, append_to_state_keeps|by_compute]|intros h'].
  apply preserves_bind; [apply _|apply append_pdu_outliers|intros _].
  eapply (nagree_outliers P [roomid_shortstatehash]); [node_tac|by_compute].
Qed.

(** A room is entered only after the check. *)
Lemma enter_room_checked r v p ev st n res n' :
  enter_room r v p ev st n = (res, n') →
  still timeline_trees n n' ∨ auth_check v p (state_event st (nd_db n)) = Some true.
Proof.
  unfold enter_room. rewrite bind_gets. intros H.
  destruct (auth_check v p (state_event st (nd_db n))) as [[]|]; [by right|left; by injection H as _ <-..].
Qed.

Lemma make_join_loop_keeps u r l e : preserves (nagree []) (make_join_loop u r l e).
Proof. revert e. induction l; intros e; cbn [make_join_loop]; node_tac; auto. Qed.
Lemma join_event_of_keeps u reason t v : preserves (nagree []) (join_event_of u reason t v).
Proof. unfold join_event_of, with_origin, profile_member. node_tac. Qed.
Lemma fetch_join_signing_keys_keeps a b v : preserves (nagree [server_signingkeys]) (fetch_join_signing_keys a b v).
Proof.
  assert (∀ l s, preserves (nagree [server_signingkeys]) (ask_batch l s)) as Hb.
  { induction l; intros s; cbn [ask_batch]; unfold insert_keys; pose proof add_signing_key_keeps; node_tac; auto. }
  assert (∀ l s, preserves (nagree []) (keys_from_cache l s)) as Hc.
  { induction l as [|[] l IH]; intros s; cbn [keys_from_cache]; pose proof signing_keys_for_keeps; node_tac; auto. }
  unfold fetch_join_signing_keys, get_server_keys_from_cache, insert_keys.
  pose proof add_signing_key_keeps. pose proof backing_off_keeps. node_tac.
Qed.

(** One round of the loops over an answer. *)
Definition loop_kept (keys : list (rstr * VerifyKeys)) (v : rstr) (raws : list Raw) n n' : Prop :=
  stores_verified keys v raws n n' ∧ still timeline_trees n n'.
#[local] Instance loop_kept_preorder keys v raws : PreOrder (loop_kept keys v raws).
Proof. split; [by split|]. intros n1 n2 n3 [H1 T1] [H2 T2]. split; by etrans. Qed.
Lemma loop_keeps {A} keys v raws (m : NM A) :
  preserves (stores_verified keys v raws) m → preserves (still timeline_trees) m → preserves (loop_kept keys v raws) m.
Proof. intros H1 H2 n. by split. Qed.

(** An event in the state that a server sends with a join is taken as it is when its
    content does not have the hash the event claims: only its signatures are
    checked.  ([handle_outlier_pdu] redacts such an event.) *)
Theorem join_state_bad_hash raw v id value pdu key (state : gmap N EventId) n :
  verified_raw (nd_pub_key_map n) v raw id value →
  verify_event (nd_pub_key_map n) value v = Some VerifiedSignatures →
  bad_event_ratelimiter n !! id = None →
  from_id_val id (canonical_insert (lit "event_id") (JStr (as_str id)) value) = Some pdu → state_key pdu = Some key →
  ∃ n', nagree [eventid_outlierpdu] n n' ∧
    db_map (nd_db n') eventid_outlierpdu !! idb id =
      Some (to_vec (canonical_insert (lit "event_id") (JStr (as_str id)) value)) ∧
    join_state_event v state raw n =
      (k ← ondb (get_or_create_shortstatekey (kind pdu) key); mret (<[k := event_id pdu]> state)) n'.
Proof.
  intros (Hf & _ & Hh) Hv Hb Hp Hk.
  assert (validate_and_add_event_id raw v n = (Ok (id, canonical_insert (lit "event_id") (JStr (as_str id)) value), n)) as E.
  { unfold validate_and_add_event_id. rewrite Hf. destruct (reference_hash value v) as [hash|] eqn:Er; [|done]. cbn in Hh.
    cbn [ok_or]. rewrite bind_lift_Ok. rewrite Er. cbn [expect]. rewrite bind_lift_Ok.
    rewrite Hh. cbn [expect]. rewrite bind_lift_Ok, bind_gets, Hb. unfold backing_off. rewrite bind_ret, bind_gets. by rewrite Hv. }
  exists (with_db (put eventid_outlierpdu (idb id) (to_vec (canonical_insert (lit "event_id") (JStr (as_str id)) value)) (nd_db n)) n).
  split_and!.
  - apply agree_put. by left.
  - change (nd_db (with_db ?d n)) with d. by rewrite db_map_put_eq, lookup_insert_eq.
  - unfold join_state_event. rewrite (bind_Ok _ _ _ (Some (id, canonical_insert (lit "event_id") (JStr (as_str id)) value)) n)
      by (unfold try_ok; by rewrite E).
    rewrite Hp. cbn [ok_or]. rewrite bind_lift_Ok. unfold add_pdu_outlier.
    rewrite (bind_Ok _ _ _ _ _ (ondb_run _ _ _ _ (t_insert_run _ _ _ _))).
    by rewrite Hk.
Qed.

(** ** Moderation *)

(** One step, whatever its outcome. *)
Lemma bind_run {A B} (m : NM A) (f : A → NM B) n r n' :
  m n = (r, n') → (m ≫= f) n = match r with Ok a => f a n' | Err e => (Err e, n') | Panic p => (Panic p, n') end.
Proof. intros E. unfold mbind, M_bind. rewrite E. by destruct r. Qed.

(** Unbanning does not ask whether the user is banned: it is the same operation as
    kicking, for whoever has a member event in the room. *)
Theorem unban_is_kick (b : Request (RoomId * UserId * option rstr)) n e d :
  room_state_get (body b).1.1 (lit "m.room.member") (as_str (body b).1.2) (nd_db n) = (Ok (Some e), d) →
  unban_user_route b n = kick_user_route b n.
Proof.
  unfold unban_user_route, kick_user_route, the_user. destruct (body b) as [[room user] reason]. cbn [fst snd]. intros E.
  destruct (sender_user b) as [u|]; [|done]. cbn [expect]. rewrite !bind_lift_Ok.
  enough (∀ m, ondb (current_member room user m) n =
    ondb (lift (ok_or (member_content (content e)) (BadDatabase "Invalid member event in database."))) (with_db d n)) as Hc.
  { unfold mbind at 1 3, M_bind at 1 3. by rewrite !Hc. }
  intros m. unfold current_member, ondb, on_server, on_db, on_sending, indb.
  unfold nd_db, sv_db in E. cbn. by rewrite (bind_Ok _ _ _ _ _ E).
Qed.

(** The reason of a ban is lost when the user has a member event: the event of the
    ban has the reason of the old one. *)
Theorem ban_reason_ignored (b b' : Request (RoomId * UserId * option rstr)) n e d :
  sender_user b' = sender_user b → (body b').1 = (body b).1 →
  room_state_get (body b).1.1 (lit "m.room.member") (as_str (body b).1.2) (nd_db n) = (Ok (Some e), d) →
  ban_user_route b' n = ban_user_route b n.
Proof.
  unfold ban_user_route, the_user. destruct (body b) as [[room user] reason], (body b') as [[room' user'] reason'].
  cbn [fst snd]. intros -> [= -> ->] E. destruct (sender_user b) as [u|]; [|done]. cbn [expect]. rewrite !bind_lift_Ok.
  rewrite !(bind_Ok _ _ _ _ _ (ondb_run _ _ _ _ E)). set (n1 := with_db d n).
  enough (∀ o o', profile_member MBan user None o' None (nd_db n1) =
    let '(x, d) := profile_member MBan user None o None (nd_db n1) in
    (match x with Ok c => Ok (with_membership MBan o' c) | Err e => Err e | Panic p => Panic p end, d)) as Hc.
  { specialize (Hc reason reason'). destruct (profile_member _ _ _ reason _ _) as [o1 d1] eqn:E1.
    rewrite (bind_run _ _ _ _ _ (ondb_run _ _ _ _ E1)), (bind_run _ _ _ _ _ (ondb_run _ _ _ _ Hc)). by destruct o1. }
  intros o o'. unfold profile_member, mbind, M_bind.
  destruct (displayname user _) as [[dn|?|?] d1]; [|done..]. destruct (avatar_url user d1) as [[av|?|?] d2]; [|done..].
  by destruct (blurhash user d2) as [[bh|?|?] d3].
Qed.

(** ** Questions about members *)

(** The members of a room are told to its members only, and no question changes
    what is stored. *)
Theorem member_lists_private (b : Request RoomId) n :
  MemberInv (nd_db n) →
  (∀ l n', get_member_events_route b n = (Ok l, n') →
    ∃ u, sender_user b = Some u ∧ membership (nd_db n) u (body b) = Some Joined) ∧
  (∀ m n', joined_members_route b n = (Ok m, n') →
    ∃ u, sender_user b = Some u ∧ membership (nd_db n) u (body b) = Some Joined ∧
      ∀ v, is_Some (m !! v) ↔ membership (nd_db n) v (body b) = Some Joined).
Proof.
  intros I. unfold get_member_events_route, joined_members_route, the_user.
  destruct (sender_user b) as [u|]; [|done]. cbn [expect]. rewrite !bind_lift_Ok.
  rewrite !(bind_Ok _ _ _ _ _ (ondb_read _ _ _ (is_joined_run u (body b) _ I))).
  case_bool_decide as Hj; cbn [negb]; [|done]. split; [by eauto|]. intros m n' H.
  destruct (room_members_run (body b) _ I) as (us & Er & _ & Hus).
  rewrite (bind_Ok _ _ _ _ _ (ondb_read _ _ _ Er)), filter_map_ok_fmap in H.
  exists u. split_and!; [done..|]. intros v. rewrite <- Hus.
  enough (∀ l (m0 : gmap UserId (option rstr * option rstr)) n0,
    for_fold l m0 (λ m user_id, display_name ← ondb (displayname user_id); avatar ← ondb (avatar_url user_id);
      mret (<[user_id := (display_name, avatar)]> m)) n0 = (Ok m, n') → is_Some (m !! v) ↔ v ∈ l ∨ is_Some (m0 !! v)) as G.
  { rewrite (G _ _ _ H), lookup_empty. split; [by intros [?|[]]|by left]. }
  clear. induction l as [|x l IH]; intros m0 n0 H; cbn [for_fold] in H.
  - injection H as -> _. split; [by right|intros [?%not_elem_of_nil|?]; done].
  - run_inv H m1 n1 E. run_inv E d n2 E1. run_inv E a n3 E2. injection E as <- _. rewrite (IH _ _ H), elem_of_cons.
    destruct (decide (v = x)) as [->|Hne]; [rewrite lookup_insert_eq|rewrite lookup_insert_ne by done]; naive_solver.
Qed.
End membership_theorems.
