(* ===== verification/Rooms.v ===== *)
(** * Creating and upgrading rooms ([src/api/client_server/room.rs])

    The routes that make rooms, replace a room by one of another version, and
    read single events and the aliases of a room. *)

From S2P Require Import Prelude Bytes RStr Decimal Error Utils KvTree Env Db Keys Globals Frames Short RoomState StateCompressor Pdu Timeline StateAccessor Users StateCache RoomIndex ClientData EventFormat OpFrames Lookups TimelineService Federation EventHandler Request Admin Account Membership.

Inductive RoomPreset := PrivateChat | PublicChat | TrustedPrivateChat | OtherPreset.
Inductive Visibility := VPublic | VPrivate | VOther.
#[export] Instance RoomPreset_eq_dec : EqDecision RoomPreset.
Proof. solve_decision. Defined.
#[export] Instance Visibility_eq_dec : EqDecision Visibility.
Proof. solve_decision. Defined.

Section rooms.
Context {Ev : Env} {EL : EventLib} {TL : TimelineLib} {CL : ContentLib} {Out : Outside} {HL : HandlerLib}.

(** The configuration and the typed contents of ruma these routes use. *)
Class RoomLib := {
  allow_room_creation : bool;
  allow_encryption : bool;
  (** the version in [RoomCreateEventContent::new] *)
  create_version : rstr;
  (** [RoomPowerLevelsEventContent] with these users and its defaults, as JSON *)
  power_levels_value : gmap UserId Z → list (rstr * json);
  (** [Raw::deserialize_as::<PduBuilder>] *)
  builder_of : Raw → option PduBuilder;
  (** [RoomPowerLevelsEventContent]: its JSON text, and the fields an upgrade sets *)
  PowerContent : Type;
  power_content : bytes → option PowerContent;
  power_text : PowerContent → bytes;
  pc_users_default : PowerContent → Z;
  pc_restrict : Z → Z → PowerContent → PowerContent;
  (** addition of [Int] *)
  int_add : Z → Z → Z;
  (** [RoomHistoryVisibilityEventContent], [RoomCanonicalAliasEventContent] *)
  visibility_content : bytes → option HistoryVisibility;
  canonical_alias_content : bytes → option (option RoomAliasId * list RoomAliasId);
}.
Context {RL : RoomLib}.

Record CreateRoomRequest := MkCreateRoom {
  cr_room_alias_name : option rstr;
  cr_room_version : option rstr;
  cr_creation_content : option Raw;
  cr_is_direct : bool;
  cr_preset : option RoomPreset;
  cr_visibility : Visibility;
  cr_invite : list UserId;
  cr_power_level_content_override : option Raw;
  cr_initial_state : list Raw;
  cr_name : option rstr;
  cr_topic : option rstr
}.

(** The alias of a new room: of this server, and not in use. *)
Definition new_alias (room_alias_name : option rstr) : DB (option RoomAliasId) :=
  match room_alias_name with
  | None => mret None
  | Some localpart =>
      alias ← lift (ok_or (parse_id valid_room_alias_id
                             (str_app (lit "#") (str_app localpart (str_app (lit ":") (as_str server_name)))))
                      (BadRequest InvalidParam "Invalid alias."));
      o ← resolve_local_alias alias;
      match o with
      | Some _ => fail (BadRequest RoomInUse "Room alias already exists.")
      | None => mret (Some alias)
      end
  end.

Definition new_room_version (room_version : option rstr) : res rstr :=
  match room_version with
  | Some v =>
      if bool_decide (v ∈ supported_room_versions) then Ok v
      else Err (BadRequest UnsupportedRoomVersion "This server does not support that room version.")
  | None => Ok default_room_version
  end.

(** The content of the create event. *)
Definition creation_content (sender_user : UserId) (room_version : rstr) (content : option Raw) : res CanonicalJsonObject :=
  match content with
  | Some content =>
      content ← expect (deserialize content) "Invalid creation content";
      Ok (canonical_insert (lit "room_version") (JStr room_version)
            (canonical_insert (lit "creator") (id_value sender_user) content))
  | None =>
      content ← expect (from_slice (content_text (CCreate (MkCreate sender_user true create_version None))))
                  "called Result::unwrap on an Err value";
      Ok (canonical_insert (lit "room_version") (JStr room_version) content)
  end.

(** A state event with a content that is given as text. *)
Definition raw_state (event_type : rstr) (state_key : rstr) (content : bytes) : PduBuilder :=
  {| pb_event_type := event_type; pb_content := content; pb_unsigned := None; pb_state_key := Some state_key;
     pb_redacts := None |}.

Definition send_event (b : PduBuilder) (sender_user : UserId) (room_id : RoomId) : NM EventId :=
  on_server (build_and_append_pdu b sender_user room_id).

Definition preset_of (req : CreateRoomRequest) : RoomPreset :=
  default (match cr_visibility req with VPublic => PublicChat | _ => PrivateChat end) (cr_preset req).

(** The power levels: the creator, everyone invited to a trusted room, and what the
    request overrides. *)
Definition initial_users (sender_user : UserId) (preset : RoomPreset) (invite : list UserId) : gmap UserId Z :=
  let users := {[ sender_user := 100%Z ]} in
  if bool_decide (preset = TrustedPrivateChat) then foldl (λ m u, <[u := 100%Z]> m) users invite else users.
Definition initial_levels (users : gmap UserId Z) (o : option Raw) : res (list (rstr * json)) :=
  let content := power_levels_value users in
  match o with
  | None => Ok content
  | Some raw =>
      v ← ok_or (deserialize raw) (BadRequest BadJson "Invalid power_level_content_override.");
      match v with
      | JObj json => Ok (foldl (λ l e, obj_insert e.1 e.2 l) content json)
      | _ => Err (BadRequest BadJson "Invalid power_level_content_override.")
      end
  end.

(** One event of [initial_state]. *)
Definition initial_event (sender_user : UserId) (room_id : RoomId) (event : Raw) : NM unit :=
  b ← lift (ok_or (builder_of event) (BadRequest InvalidParam "Invalid initial state event."));
  let b := {| pb_event_type := pb_event_type b; pb_content := pb_content b; pb_unsigned := pb_unsigned b;
              pb_state_key := Some (default (lit "") (pb_state_key b)); pb_redacts := pb_redacts b |} in
  if bool_decide (pb_event_type b = lit "m.room.encryption") && negb allow_encryption then mret ()
  else send_event b sender_user room_id ;; mret ().

Definition send_opt {A} (o : option A) (f : A → NM unit) : NM unit :=
  match o with Some x => f x | None => mret () end.

Definition may_create_room (b : Request CreateRoomRequest) (sender_user : UserId) : DB unit :=
  if negb allow_room_creation && negb (from_appservice b) then
    admin ← is_admin sender_user;
    if (admin : bool) then mret () else fail (BadRequest Forbidden "Room creation has been disabled.")
  else mret ().

(** The events of a new room, in their order. *)
Definition first_events (req : CreateRoomRequest) (sender_user : UserId) (room_id : RoomId) (alias : option RoomAliasId)
    (content : CanonicalJsonObject) : NM unit :=
  let preset := preset_of req in
  let send t c := send_states sender_user room_id [(t, lit "", c)] in
  send_event (raw_state (lit "m.room.create") (lit "") (to_vec content)) sender_user room_id ;;
  c ← ondb (profile_member MJoin sender_user (Some (cr_is_direct req)) None None);
  send_event (member_builder sender_user c) sender_user room_id ;;
  levels ← lift (initial_levels (initial_users sender_user preset (cr_invite req)) (cr_power_level_content_override req));
  send_event (raw_state (lit "m.room.power_levels") (lit "") (to_vec (JObj levels))) sender_user room_id ;;
  send_opt alias (λ alias, send "m.room.canonical_alias" (CCanonicalAlias (Some alias) [])) ;;
  send "m.room.join_rules" (CJoinRules (if bool_decide (preset = PublicChat) then JPublic else JInvite)) ;;
  send "m.room.history_visibility" (CHistoryVisibility HShared) ;;
  send "m.room.guest_access" (CGuestAccess (if bool_decide (preset = PublicChat) then GForbidden else GCanJoin)) ;;
  for_each (cr_initial_state req) (initial_event sender_user room_id) ;;
  send_opt (cr_name req) (λ name, send "m.room.name" (CName (Some name))) ;;
  send_opt (cr_topic req) (λ topic, send "m.room.topic" (CTopic topic)).

Definition create_room_route (rounds fuel : nat) (b : Request CreateRoomRequest) : NM RoomId :=
  sender_user ← the_user b;
  let req := body b in
  room_id ← new_room_id;
  ondb (get_or_create_shortroomid room_id) ;;
  ondb (may_create_room b sender_user) ;;
  alias ← ondb (new_alias (cr_room_alias_name req));
  room_version ← lift (new_room_version (cr_room_version req));
  content ← lift (creation_content sender_user room_version (cr_creation_content req));
  lift (ok_or (from_slice (A := CanonicalJsonObject) (to_vec content)) (BadRequest BadJson "Invalid creation content")) ;;
  first_events req sender_user room_id alias content ;;
  for_each (cr_invite req) (λ user_id,
    catch (invite_helper rounds fuel sender_user user_id room_id None (cr_is_direct req)) ;; mret ()) ;;
  send_opt alias (λ alias, ondb (set_alias alias room_id)) ;;
  (if bool_decide (cr_visibility req = VPublic) then ondb (set_public room_id) else mret ()) ;;
  mret room_id.

(** ** Reading *)

Definition require_joined (sender_user : UserId) (room_id : RoomId) : NM unit :=
  joined ← ondb (is_joined sender_user room_id);
  if (joined : bool) then mret () else fail (BadRequest Forbidden "You don't have permission to view this room.").

Definition get_room_event_route (b : Request (RoomId * EventId)) : NM Raw :=
  sender_user ← the_user b;
  require_joined sender_user (body b).1 ;;
  o ← ondb (get_pdu (body b).2);
  pdu ← lift (ok_or o (BadRequest NotFound "Event not found."));
  mret (to_room_event pdu).

Definition get_room_aliases_route (b : Request RoomId) : NM (list RoomAliasId) :=
  sender_user ← the_user b;
  require_joined sender_user (body b) ;;
  l ← ondb (local_aliases_for_room (body b));
  mret (filter_map ok l).

(** ** Upgrading *)

Definition transferable_state_events : list rstr :=
  lit <$> ["m.room.server_acl"; "m.room.encryption"; "m.room.name"; "m.room.avatar"; "m.room.topic"; "m.room.guest_access";
           "m.room.history_visibility"; "m.room.join_rules"; "m.room.power_levels"]%string.

Definition transfer_state (sender_user : UserId) (old new : RoomId) (event_type : rstr) : NM unit :=
  o ← ondb (room_state_get old event_type (lit ""));
  match o with
  | Some v => send_event (raw_state event_type (lit "") (content v)) sender_user new ;; mret ()
  | None => mret ()
  end.

(** The create event of the replacement: that of the old room with a predecessor. *)
Definition replacement_content (sender_user : UserId) (old : RoomId) (new_version : rstr) (tombstone : EventId)
    (content : CanonicalJsonObject) : CanonicalJsonObject :=
  canonical_insert (lit "predecessor") (JObj [(lit "event_id", id_value tombstone); (lit "room_id", id_value old)])
    (canonical_insert (lit "room_version") (JStr new_version)
      (canonical_insert (lit "creator") (id_value sender_user) content)).

Definition move_aliases (old new : RoomId) : DB unit :=
  l ← local_aliases_for_room old;
  for_each (filter_map ok l) (λ alias, set_alias alias new).

(** Nobody but the moderators may speak in the old room. *)
Definition restrict_room (sender_user : UserId) (old : RoomId) : NM unit :=
  o ← ondb (room_state_get old (lit "m.room.power_levels") (lit ""));
  e ← lift (ok_or o (BadDatabase "Found room without m.room.create event."));
  c ← lift (ok_or (power_content (content e)) (BadDatabase "Invalid room event in database."));
  let new_level := Z.max 50 (int_add (pc_users_default c) 1) in
  send_event (raw_state (lit "m.room.power_levels") (lit "") (power_text (pc_restrict new_level new_level c))) sender_user old ;;
  mret ().

Definition upgrade_room_route (b : Request (RoomId * rstr)) : NM RoomId :=
  sender_user ← the_user b;
  let '(old, new_version) := body b in
  if negb (bool_decide (new_version ∈ supported_room_versions)) then
    fail (BadRequest UnsupportedRoomVersion "This server does not support that room version.")
  else
    new ← new_room_id;
    ondb (get_or_create_shortroomid new) ;;
    tombstone ← send_event (state_builder (lit "m.room.tombstone") (lit "") (CTombstone (lit "This room has been replaced") new))
                  sender_user old;
    o ← ondb (room_state_get old (lit "m.room.create") (lit ""));
    e ← lift (ok_or o (BadDatabase "Found room without m.room.create event."));
    c ← lift (ok_or (from_slice (content e)) (BadDatabase "Invalid room event in database."));
    let content := replacement_content sender_user old new_version tombstone c in
    lift (ok_or (from_slice (A := CanonicalJsonObject) (to_vec content)) (BadRequest BadJson "Error forming creation event")) ;;
    send_event (raw_state (lit "m.room.create") (lit "") (to_vec content)) sender_user new ;;
    c ← ondb (profile_member MJoin sender_user None None None);
    send_event (member_builder sender_user c) sender_user new ;;
    for_each transferable_state_events (transfer_state sender_user old new) ;;
    ondb (move_aliases old new) ;;
    restrict_room sender_user old ;;
    mret new.
End rooms.

(** ** Theorems *)

Section room_theorems.
Context {Ev : Env} {EL : EventLib} {TL : TimelineLib} {CL : ContentLib} {Out : Outside} {HL : HandlerLib} {RL : RoomLib}.
Implicit Types n : Node.
Implicit Types s : State.

Lemma the_user_inv {T} (b : Request T) n u n' : the_user b n = (Ok u, n') → sender_user b = Some u ∧ n' = n.
Proof. unfold the_user, lift. destruct (sender_user b); cbn; [|done]. by intros [= -> ->]. Qed.

Lemma require_joined_inv u r n n' :
  require_joined u r n = (Ok (), n') → ∃ d, is_joined u r (nd_db n) = (Ok true, d) ∧ n' = with_db d n.
Proof.
  unfold require_joined. intros H. run_inv H j n1 E. destruct j; [|done]. injection H as ->.
  apply ondb_inv in E as (d & E & ->). by exists d.
Qed.

(** The admins are the members of the room of the alias: a question about two trees. *)
Lemma is_admin_same u s s' r : db_map s' alias_roomid = db_map s alias_roomid → db_map s' userroomid_joined = db_map s userroomid_joined →
  is_admin u s = (r, s) → is_admin u s' = (r, s').
Proof.
  intros Ha Hj. unfold is_admin, mbind, M_bind. destruct (ok_or _ _) as [alias|e|e]; cbn; [|by intros [= <-]..].
  unfold resolve_local_alias, mbind, M_bind. rewrite !t_get_run, Ha. unfold lift.
  destruct (transpose _) as [[room|]|e|e]; cbn; [|by intros [= <-]..].
  unfold is_joined, mbind, M_bind. rewrite !t_get_run, Hj. unfold mret, M_ret. by intros [= <-].
Qed.
Lemma is_admin_read u s : ∃ r, is_admin u s = (r, s).
Proof.
  unfold is_admin, mbind, M_bind. destruct (ok_or _ _) as [alias|e|e]; cbn; [|eauto..].
  unfold resolve_local_alias, mbind, M_bind. rewrite t_get_run. unfold lift.
  destruct (transpose _) as [[room|]|e|e]; cbn; [|eauto..].
  unfold is_joined, mbind, M_bind. rewrite t_get_run. eauto.
Qed.

Lemma may_create_inv b u s s' :
  may_create_room b u s = (Ok (), s') →
  s' = s ∧ (allow_room_creation = true ∨ from_appservice b = true ∨ is_admin u s = (Ok true, s)).
Proof.
  unfold may_create_room. destruct allow_room_creation; [cbn; intros [= <-]; auto|].
  destruct (from_appservice b); [cbn; intros [= <-]; auto|].
  cbn. intros H. run_inv H a s1 E. destruct (is_admin_read u s) as [x Ex]. rewrite Ex in E. injection E as -> <-.
  destruct a; [|done]. injection H as <-. auto.
Qed.

Lemma resolve_same a s s' x : db_map s' alias_roomid = db_map s alias_roomid →
  resolve_local_alias a s = (x, s) → resolve_local_alias a s' = (x, s').
Proof. intros Ha. unfold resolve_local_alias. do 2 db_step. rewrite Ha. unfold lift. by intros [= <-]. Qed.
Lemma resolve_read a s : ∃ x, resolve_local_alias a s = (x, s).
Proof. unfold resolve_local_alias. db_step. unfold lift. eauto. Qed.

Lemma new_alias_inv o s a s' :
  new_alias o s = (Ok a, s') → s' = s ∧
  ∀ name, o = Some name →
  ∃ alias, a = Some alias ∧ as_str alias = str_app (lit "#") (str_app name (str_app (lit ":") (as_str server_name))) ∧
    resolve_local_alias alias s = (Ok None, s).
Proof.
  unfold new_alias. destruct o as [name|]; [|by intros [= <- <-]]. intros H. lift_inv H al E. apply ok_or_Ok in E. run_inv H x s1 E1.
  destruct (resolve_read al s) as [y Ey]. rewrite Ey in E1. injection E1 as -> <-. destruct x; [done|].
  injection H as <- <-. split; [done|]. intros ? [= <-]. exists al. split_and!; [done| |done]. by apply parse_id_Some in E.
Qed.

(** The content of a create event names the version, whatever the request has in
    its place, and the creator. *)
Lemma creation_content_version u v o c :
  creation_content u v o = Ok c → canonical_get (lit "room_version") c = Some (JStr v) ∧
  (is_Some o → canonical_get (lit "creator") c = Some (id_value u)).
Proof.
  unfold creation_content. destruct o as [raw|]; intros H; destruct (expect _ _) as [c0| |]; try discriminate H; injection H as <-.
  - rewrite !canonical_get_insert, decide_True, decide_False, decide_True by done. done.
  - rewrite canonical_get_insert, decide_True by done. split; [done|]. by intros [? ?].
Qed.

(** A room is given its number before anything is checked; only the counter and
    the numbers of rooms change. *)
Lemma room_numbered_frame (r : RoomId) n x n1 :
  ondb (get_or_create_shortroomid r) n = (Ok x, n1) → agree [global; roomid_shortroomid] (nd_db n) (nd_db n1).
Proof.
  intros H. apply ondb_inv in H as (d & H & ->). eapply preserves_inv; [|exact H]. unfold get_or_create_shortroomid. keeps_tac.
Qed.

Lemma resolve_after_set a r s s' :
  set_alias a r s = (Ok (), s') → resolve_local_alias a s' = (Ok (Some r), s').
Proof.
  unfold set_alias. db_step. intros H. run_inv H c s1 E. rewrite t_insert_run in H. injection H as <-.
  assert (db_map s1 alias_roomid = <[alias_key a := idb r]> (db_map s alias_roomid)) as Ea.
  { pose proof (preserves_inv _ _ _ _ _ keeps_next_count E) as K.
    rewrite (K alias_roomid) by by_compute. by db_simpl. }
  unfold resolve_local_alias. db_step. db_simpl. rewrite Ea, lookup_insert_eq. cbn. by rewrite parse_bytes_idb.
Qed.

Lemma resolve_public a r k v s :
  resolve_local_alias a s = (Ok (Some r), s) →
  resolve_local_alias a (put publicroomids k v s) = (Ok (Some r), put publicroomids k v s).
Proof. unfold resolve_local_alias. do 2 db_step. db_simpl. unfold lift. by intros [= ->]. Qed.

(** C19: A room is created only for those who may by the database as the request
    finds it, and only under an alias that is free in that database. The first event sent,
    from the node in which just the new room id is numbered, is the create event of the new room
    by the user, whose content names the version asked for, which is one this server supports, or the
    default version, and the user as the creator where the request brings the content. Afterwards
    the alias asked for is the room's, and a public room is in the directory. *)
Theorem create_room_correct rounds fuel (b : Request CreateRoomRequest) n (room : RoomId) n' :
  create_room_route rounds fuel b n = (Ok room, n') →
  ∃ u n0 k n1 content e n2, sender_user b = Some u ∧
    new_room_id n = (Ok room, n0) ∧ ondb (get_or_create_shortroomid room) n0 = (Ok k, n1) ∧
    (allow_room_creation = true ∨ from_appservice b = true ∨ is_admin u (nd_db n) = (Ok true, nd_db n)) ∧
    (∀ v, cr_room_version (body b) = Some v → v ∈ supported_room_versions) ∧
    canonical_get (lit "room_version") content = Some (JStr (default default_room_version (cr_room_version (body b)))) ∧
    (is_Some (cr_creation_content (body b)) → canonical_get (lit "creator") content = Some (id_value u)) ∧
    send_event (raw_state (lit "m.room.create") (lit "") (to_vec content)) u room n1 = (Ok e, n2) ∧
    (∀ name, cr_room_alias_name (body b) = Some name → ∃ alias,
      as_str alias = str_app (lit "#") (str_app name (str_app (lit ":") (as_str server_name))) ∧
      resolve_local_alias alias (nd_db n) = (Ok None, nd_db n) ∧
      resolve_local_alias alias (nd_db n') = (Ok (Some room), nd_db n')) ∧
    (cr_visibility (body b) = VPublic → is_public_room room (nd_db n') = (Ok true, nd_db n')).
Proof.
  unfold create_room_route. intros H. run_inv H u n0 E0. apply the_user_inv in E0 as [Hu ->]. cbv zeta in H.
  run_inv H r n1 E1. run_inv H sr n2 E2. run_inv H mc n3 E3. destruct mc. apply ondb_inv in E3 as (d3 & E3 & ->).
  apply may_create_inv in E3 as [-> Hmay]. run_inv H al n4 E4. apply ondb_inv in E4 as (d4 & E4 & ->).
  apply new_alias_inv in E4 as [-> Hal]. rewrite !with_db_id in *.
  lift_inv H v E5. lift_inv H c E6. lift_inv H ob E7. run_inv H fe n5 E8. run_inv H fi n6 E9. run_inv H sa n7 E10.
  run_inv H sp n8 E11. injection H as <- <-.
  assert (nd_db n1 = nd_db n) as Ed.
  { unfold new_room_id, random_string in E1. cbv [mbind M_bind] in E1. destruct (world_random _ _) as [x w]. by injection E1 as _ <-. }
  pose proof (room_numbered_frame _ _ _ _ E2) as A. rewrite Ed in A.
  assert (∀ v', cr_room_version (body b) = Some v' → v' ∈ supported_room_versions ∧ v = v') as Hv.
  { intros v' Hv. rewrite Hv in E5. unfold new_room_version in E5.
    destruct (bool_decide (v' ∈ _)) eqn:Eb; [|done]. apply bool_decide_eq_true in Eb. by injection E5 as <-. }
  unfold first_events in E8. cbv zeta in E8. run_inv E8 e m1 F1.
  apply creation_content_version in E6 as [Hcv Hcc].
  exists u, n1, sr, n2, c, e, m1. split_and!; [done|done|done| | | |done|done|..].
  - destruct Hmay as [?|[?|Hmay]]; [auto..|]. right. right. eapply is_admin_same; [| |exact Hmay]; symmetry; apply A; by_compute.
  - intros v' ?. by apply Hv.
  - rewrite Hcv. destruct (cr_room_version (body b)) as [v'|]; [by destruct (Hv v' eq_refl) as [_ ->]|]. by injection E5 as <-.
  - intros name Hn. destruct (Hal name Hn) as (alias & -> & Ha & Hr).
    exists alias. split_and!; [done|eapply resolve_same; [|exact Hr]; symmetry; apply A; by_compute|]. cbn in E10. destruct sa.
    apply ondb_inv in E10 as (d7 & E10 & ->). apply resolve_after_set in E10.
    case_bool_decide; [|by injection E11 as _ <-]. apply ondb_inv in E11 as (d8 & E11 & ->).
    unfold set_public in E11. rewrite t_insert_run in E11. injection E11 as _ <-.
    by apply resolve_public.
  - intros Hp. rewrite bool_decide_eq_true_2 in E11 by done. apply ondb_inv in E11 as (d8 & E11 & ->).
    unfold set_public in E11. rewrite t_insert_run in E11. injection E11 as _ <-.
    change (nd_db (with_db ?d _)) with d. unfold is_public_room. db_step. db_simpl. by rewrite lookup_insert_eq.
Qed.

(** The event a user asks for by its id is given to anyone who is joined to the room
    named in the request, also when the event is of another room, in which the
    user is not. *)
Theorem get_room_event_any_room (b : Request (RoomId * EventId)) n u pdu d :
  sender_user b = Some u → MemberInv (nd_db n) → membership (nd_db n) u (body b).1 = Some Joined →
  get_pdu (body b).2 (nd_db n) = (Ok (Some pdu), d) →
  membership (nd_db n) u (room_id pdu) = None →
  (get_room_event_route b n).1 = Ok (to_room_event pdu).
Proof.
  intros Hu I Hj Hp _. unfold get_room_event_route, the_user, require_joined. rewrite Hu. cbn [expect].
  rewrite bind_lift_Ok. rewrite (bind_Ok _ _ _ () n); [by rewrite (bind_Ok _ _ _ _ _ (ondb_run _ _ _ _ Hp))|].
  rewrite (bind_Ok _ _ _ _ _ (ondb_read _ _ _ (is_joined_run u _ _ I))). by rewrite bool_decide_eq_true_2.
Qed.

(** The counter while an alias is set. *)
Lemma set_alias_count a r s : count_ok s → count (set_alias a r s).2 = count s + 1.
Proof.
  intros Hc. unfold set_alias. db_step. set (s1 := put _ _ _ _).
  assert (count s1 = count s) as Hc1 by (unfold s1; by db_simpl).
  assert (count_ok s1) as Hok by (unfold count_ok in *; by rewrite Hc1).
  rewrite (bind_Ok _ _ _ _ _ (next_count_ok s1 Hok)), t_insert_run. cbn [snd]. db_simpl. rewrite count_bump_ok by done. lia.
Qed.

Lemma move_loop_run (old new : RoomId) (l : list RoomAliasId) s :
  alias_keyed s → count s + N.of_nat (length l) < 2 ^ 64 → old ≠ new →
  ∃ s', for_each l (λ alias, set_alias alias new) s = (Ok (), s') ∧
    (∀ a, a ∈ l → (resolve_local_alias a s').1 = Ok (Some new)) ∧
    (∀ a, (∀ a', a' ∈ l → alias_localpart a ≠ alias_localpart a') → (resolve_local_alias a s').1 = (resolve_local_alias a s).1) ∧
    (local_aliases_for_room old s').1 = (local_aliases_for_room old s).1.
Proof.
  intros Hk Hc Hne. revert s Hk Hc. induction l as [|a l IH]; intros s Hk Hc; cbn [for_each length] in *.
  { exists s. split_and!; [done| |done..]. by intros a ?%not_elem_of_nil. }
  assert (count_ok s) as Hok by (unfold count_ok; lia).
  assert (∃ x, local_aliases_for_room new s = (Ok x, s)) as [x Hx].
  { unfold local_aliases_for_room. db_step. eexists. reflexivity. }
  destruct (set_alias_correct a new s x Hk Hok Hx) as (s1 & E1 & Hk1 & Hr1 & _ & Ho1 & Hl1).
  pose proof (set_alias_count a new s Hok) as Hc1. rewrite E1 in Hc1. cbn [snd] in Hc1.
  destruct (IH s1 Hk1) as (s' & E & Hin & Hout & Hl); [lia|]. exists s'. rewrite (bind_Ok _ _ _ _ _ E1). split_and!; [done|..].
  - intros a' [->|?]%elem_of_cons; [|auto].
    destruct (decide (Exists (λ y, alias_localpart a = alias_localpart y) l)) as [He|Hn].
    + apply Exists_exists in He as (y & Hy & Ey). specialize (Hin y Hy). revert Hin. unfold resolve_local_alias, alias_key.
      do 2 db_step. by rewrite Ey.
    + rewrite Hout; [by rewrite Hr1|]. intros y Hy Ey. apply Hn, Exists_exists. eauto.
  - intros a' Ha. rewrite Hout by (intros y Hy; apply Ha; by right). apply Ho1. apply Ha. by left.
  - rewrite Hl. by apply Hl1.
Qed.

(** An upgrade makes the aliases of the old room those of the new one and leaves
    every other alias alone; but the list of aliases of the old room still has
    them all. *)
Theorem upgrade_moves_aliases (old new : RoomId) (l : list RoomAliasId) s :
  alias_keyed s → count s + N.of_nat (length l) < 2 ^ 64 → old ≠ new →
  local_aliases_for_room old s = (Ok (Ok <$> l), s) →
  ∃ s', move_aliases old new s = (Ok (), s') ∧
    (∀ a, a ∈ l → (resolve_local_alias a s').1 = Ok (Some new)) ∧
    (∀ a, (∀ a', a' ∈ l → alias_localpart a ≠ alias_localpart a') →
      (resolve_local_alias a s').1 = (resolve_local_alias a s).1) ∧
    (local_aliases_for_room old s').1 = Ok (Ok <$> l).
Proof.
  intros Hk Hc Hne Hl. destruct (move_loop_run old new l s Hk Hc Hne) as (s' & E & Hin & Hout & Hold).
  exists s'. unfold move_aliases. rewrite (bind_Ok _ _ _ _ _ Hl), filter_map_ok_fmap. split_and!; try done.
  by rewrite Hold, Hl.
Qed.
End room_theorems.
