(* ===== verification/RoomEvents.v ===== *)
(** * Events of a room ([src/api/client_server/state.rs], [message.rs], [redact.rs],
    [context.rs])

    The routes that send messages, state events and redactions, and those that read
    the state and the history of a room. *)

From S2P Require Import Prelude Bytes RStr Decimal Error Utils KvTree Env Db Keys Globals Frames Short RoomState StateCompressor Pdu Timeline StateAccessor Users StateCache RoomIndex ClientData EventFormat LazyLoading OpFrames Lookups TimelineService Federation EventHandler Request Admin Account Membership Rooms.

Inductive Direction := Forward | Backward.

Section room_events.
Context {Ev : Env} {EL : EventLib} {TL : TimelineLib} {CL : ContentLib} {Out : Outside} {HL : HandlerLib} {RL : RoomLib}.

(** ** State ([state.rs]) *)

(** The aliases of a canonical alias event must be aliases of the room. *)
Definition check_alias (room_id : RoomId) (alias : RoomAliasId) : DB unit :=
  let refused := fail (BadRequest Forbidden "You are only allowed to send canonical_alias events when it's aliases already exists") in
  if decide (alias_server_name alias ≠ server_name) then refused
  else
    o ← resolve_local_alias alias;
    if decide (o = Some room_id) then mret () else refused.

Definition send_state_event_for_key_helper (sender : UserId) (room_id : RoomId) (event_type : rstr) (json : Raw)
    (state_key : rstr) : NM EventId :=
  match canonical_alias_content (raw_text json) with
  | Some (alias, alt_aliases) => ondb (for_each (alt_aliases ++ option_list alias) (check_alias room_id))
  | None => mret ()
  end ;;
  send_event (raw_state event_type state_key (raw_text json)) sender room_id.

(** The room, the event type, the state key and the content. *)
Definition send_state_event_for_key_route (b : Request (RoomId * rstr * rstr * Raw)) : NM EventId :=
  sender_user ← the_user b;
  let '(room_id, event_type, state_key, json) := body b in
  send_state_event_for_key_helper sender_user room_id event_type json state_key.

Definition send_state_event_for_empty_key_route (b : Request (RoomId * rstr * rstr * Raw)) : NM EventId :=
  sender_user ← the_user b;
  let '(room_id, event_type, state_key, json) := body b in
  if bool_decide (event_type = lit "m.room.encryption") && negb allow_encryption then
    fail (BadRequest Forbidden "Encryption has been disabled")
  else send_state_event_for_key_helper sender_user room_id event_type json state_key.

(** The state is shown to the members, and to everyone when the history is world
    readable now. *)
Definition may_read_state (sender_user : UserId) (room_id : RoomId) : NM unit :=
  joined ← ondb (is_joined sender_user room_id);
  allowed ← (if (joined : bool) then mret true
             else
               o ← ondb (room_state_get room_id (lit "m.room.history_visibility") (lit ""));
               mret (match o ≫= (λ e, visibility_content (content e)) with Some HWorldReadable => true | _ => false end));
  if (allowed : bool) then mret ()
  else fail (BadRequest Forbidden "You don't have permission to view the room state.").

Definition get_state_events_route (b : Request RoomId) : NM (list Raw) :=
  sender_user ← the_user b;
  may_read_state sender_user (body b) ;;
  state ← ondb (room_state_full (body b));
  mret ((λ e, to_state_event e.2) <$> map_to_list state).

Definition state_content (room_id : RoomId) (event_type state_key : rstr) : NM bytes :=
  o ← ondb (room_state_get room_id event_type state_key);
  event ← lift (ok_or o (BadRequest NotFound "State event not found."));
  mret (content event).

Definition get_state_events_for_key_route (b : Request (RoomId * rstr * rstr)) : NM bytes :=
  sender_user ← the_user b;
  let '(room_id, event_type, state_key) := body b in
  may_read_state sender_user room_id ;;
  state_content room_id event_type state_key.

Definition get_state_events_for_empty_key_route (b : Request (RoomId * rstr * rstr)) : NM bytes :=
  sender_user ← the_user b;
  let '(room_id, event_type, _) := body b in
  may_read_state sender_user room_id ;;
  state_content room_id event_type (lit "").

(** ** Redactions ([redact.rs]) *)

Definition redact_event_route (b : Request (RoomId * EventId * option rstr)) : NM EventId :=
  sender_user ← the_user b;
  let '(room_id, event_id, reason) := body b in
  send_event {| pb_event_type := lit "m.room.redaction"; pb_content := content_text (CRedaction reason);
                pb_unsigned := None; pb_state_key := None; pb_redacts := Some event_id |} sender_user room_id.

(** ** Messages ([message.rs]) *)

Record SendMessageRequest := MkSend {
  sm_room_id : RoomId;
  sm_event_type : rstr;
  sm_txn_id : rstr;
  sm_body : Raw
}.

Definition send_message_event_route (b : Request SendMessageRequest) : NM EventId :=
  sender_user ← the_user b;
  let req := body b in
  if bool_decide (sm_event_type req = lit "m.room.encrypted") && negb allow_encryption then
    fail (BadRequest Forbidden "Encryption has been disabled")
  else
    o ← ondb (existing_txnid sender_user (sender_device b) (sm_txn_id req));
    match o with
    | Some response =>
        if bool_decide (response = []) then
          fail (BadRequest InvalidParam "Tried to use txn id already used for an incompatible endpoint.")
        else lift (parse_bytes "Invalid txnid bytes in database." "Invalid event id in txnid data." response)
    | None =>
        event_id ← send_event
          {| pb_event_type := sm_event_type req; pb_content := raw_text (sm_body req);
             pb_unsigned := Some [(lit "transaction_id", JStr (sm_txn_id req))];
             pb_state_key := None; pb_redacts := None |} sender_user (sm_room_id req);
        ondb (add_txnid sender_user (sender_device b) (sm_txn_id req) (idb event_id)) ;;
        mret event_id
    end.

(** A page of the history: the first [limit] entries, without those that cannot be
    read, up to the token [to].  (A key begins with the eight bytes of its room, so
    that [pdu_count] does not panic.) *)
Definition page_of (to : option (option N)) (limit : nat) (l : list (res (bytes * PduEvent))) : list (N * PduEvent) :=
  take_while (λ e : N * PduEvent, bool_decide (Some (Some e.1) ≠ to))
    (filter_map (λ e, c ← ok (pdu_count e.1); Some (c, e.2)) (filter_map ok (take limit l))).

Definition message_page (dir : Direction) (sender_user : UserId) (room_id : RoomId) (from : N) (to : option (option N))
    (limit : nat) : DB (list (N * PduEvent)) :=
  l ← match dir with
      | Forward => pdus_after sender_user room_id from
      | Backward => pdus_until sender_user room_id from
      end;
  mret (page_of to limit l).

Record GetMessagesRequest := MkGetMessages {
  gm_room_id : RoomId;
  gm_from : option rstr;
  gm_to : option rstr;
  gm_dir : Direction;
  gm_limit : N
}.
Record GetMessagesResponse := MkMessages {
  mr_start : rstr;
  mr_end : option rstr;
  mr_chunk : list Raw;
  mr_state : list Raw
}.

(** [try_into::<u32>().map_or(10, ..)] *)
Definition page_limit (limit : N) : nat := if bool_decide (limit < 2 ^ 32) then N.to_nat limit else 10%nat.

(** The member events of the senders. *)
Definition member_events (room_id : RoomId) (users : list UserId) : DB (list Raw) :=
  for_fold users [] (λ state ll_id,
    o ← room_state_get room_id (lit "m.room.member") (as_str ll_id);
    mret (match o with Some member_event => state ++ [to_state_event member_event] | None => state end)).

Definition get_message_events_route (b : Request GetMessagesRequest) : NM GetMessagesResponse :=
  sender_user ← the_user b;
  sender_device ← the_device b;
  let req := body b in
  require_joined sender_user (gm_room_id req) ;;
  from ← lift (match gm_from req with
               | Some from => ok_or (u64_from_str from) (BadRequest InvalidParam "Invalid `from` value.")
               | None => Ok (match gm_dir req with Forward => 0 | Backward => u64_max end)
               end);
  on_lazy (LazyLoading.lazy_load_confirm_delivery sender_user sender_device (gm_room_id req) from) ;;
  page ← ondb (message_page (gm_dir req) sender_user (gm_room_id req) from (u64_from_str <$> gm_to req)
                 (page_limit (gm_limit req)));
  state ← ondb (member_events (gm_room_id req) (elements (list_to_set ((λ e, sender e.2) <$> page) : gset UserId)));
  mret (MkMessages (u64_to_string from) (u64_to_string <$> (fst <$> last page))
          ((λ e, to_room_event e.2) <$> page) state).

(** ** The events around an event ([context.rs]) *)

(** The event, [limit], and whether members are loaded lazily, with redundant ones. *)
Record ContextRequest := MkContext {
  cx_event_id : EventId;
  cx_limit : N;
  cx_lazy_load : option bool
}.
Record ContextResponse := MkContextResponse {
  cxr_start : option rstr;
  cxr_end : option rstr;
  cxr_events_before : list Raw;
  cxr_event : Raw;
  cxr_events_after : list Raw;
  cxr_state : list Raw
}.

(** The senders that the device has not been told about. *)
Definition lazy_add (redundant : bool) (user : UserId) (device : DeviceId) (room_id : RoomId) (loaded : gset rstr)
    (e : PduEvent) : NM (gset rstr) :=
  sent ← on_lazy (LazyLoading.lazy_load_was_sent_before user device room_id (sender e));
  mret (if negb sent || redundant then {[ as_str (sender e) ]} ∪ loaded else loaded).

Definition last_token (l : list (bytes * PduEvent)) : option rstr :=
  e ← last l; c ← ok (pdu_count e.1); Some (u64_to_string c).

(** The state events, with the members that are to be loaded. *)
Definition context_state (lazy : bool) (loaded : gset rstr) (state_ids : gmap N EventId) : DB (list Raw) :=
  for_fold (map_to_list state_ids) [] (λ state e,
    k ← get_statekey_from_short e.1;
    if bool_decide (k.1 ≠ lit "m.room.member") || negb lazy || bool_decide (k.2 ∈ loaded) then
      o ← get_pdu e.2;
      mret (match o with Some pdu => state ++ [to_state_event pdu] | None => state end)
    else mret state).

Definition half_limit (limit : N) : res nat :=
  if bool_decide (limit < 2 ^ 32) then Ok (N.to_nat (limit / 2)) else Err (BadRequest InvalidParam "Limit value is invalid.").

Definition get_context_route (b : Request ContextRequest) : NM ContextResponse :=
  sender_user ← the_user b;
  sender_device ← the_device b;
  let req := body b in
  let lazy := bool_decide (is_Some (cx_lazy_load req)) in
  let redundant := default false (cx_lazy_load req) in
  o ← ondb (get_pdu_id (cx_event_id req));
  base_pdu_id ← lift (ok_or o (BadRequest NotFound "Base event id not found."));
  base_token ← lift (pdu_count base_pdu_id);
  o ← ondb (get_pdu_from_id base_pdu_id);
  base_event ← lift (ok_or o (BadRequest NotFound "Base event not found."));
  let room := room_id base_event in
  require_joined sender_user room ;;
  loaded ← lazy_add redundant sender_user sender_device room ∅ base_event;
  before ← ondb (pdus_until sender_user room base_token);
  half ← lift (half_limit (cx_limit req));
  let before := filter_map ok (take half before) in
  loaded ← for_fold before loaded (λ l e, lazy_add redundant sender_user sender_device room l e.2);
  after ← ondb (pdus_after sender_user room base_token);
  let after := filter_map ok (take half after) in
  loaded ← for_fold after loaded (λ l e, lazy_add redundant sender_user sender_device room l e.2);
  o ← ondb (pdu_shortstatehash (from_option (λ e, event_id e.2) (cx_event_id req) (last after)));
  shortstatehash ← match o with
                   | Some s => mret s
                   | None => o ← ondb (get_room_shortstatehash room); lift (expect o "All rooms have state")
                   end;
  state_ids ← ondb (state_full_ids shortstatehash);
  state ← ondb (context_state lazy loaded state_ids);
  mret (MkContextResponse (last_token before) (last_token after) ((λ e, to_room_event e.2) <$> before)
          (to_room_event base_event) ((λ e, to_room_event e.2) <$> after) state).
End room_events.

(** ** Theorems *)

(** The part of a sorted list after one of its elements. *)
Lemma sorted_rest {A} (R : relation A) `{!StrictOrder R} (l l' : list A) k x :
  StronglySorted R l → StronglySorted R l' → l !! k = Some x → (∀ y, y ∈ l' ↔ y ∈ l ∧ R x y) → l' = drop (S k) l.
Proof.
  intros Hl Hl' Hx Hy. assert (StronglySorted R (drop (S k) l)) as Hd.
  { rewrite <- (take_drop (S k) l) in Hl. revert Hl. generalize (take (S k) l).
    intros l0. induction l0; cbn; [done|]. intros H. inversion H. auto. }
  apply (StronglySorted_unique R); [done..|]. intros y. rewrite Hy, !list_elem_of_lookup. split.
  - intros [[j Hj] Hr]. destruct (decide (j < S k)%nat) as [Hlt|Hge].
    + exfalso. destruct (decide (j = k)) as [->|]; [rewrite Hx in Hj; injection Hj as ->; by apply (irreflexivity R y)|].
      assert (R y x) as Hyx by (by eapply (StronglySorted_lookup R l j k); [|lia|..]).
      apply (irreflexivity R x). by etrans.
    + exists (j - S k)%nat. rewrite lookup_drop. by replace (S k + (j - S k))%nat with j by lia.
  - intros [j Hj]. rewrite lookup_drop in Hj. split; [by exists (S k + j)%nat|].
    by eapply (StronglySorted_lookup R l k (S k + j)); [|lia|..].
Qed.

Lemma take_while_all {A} (f : A → bool) (l : list A) : (∀ x, x ∈ l → f x = true) → take_while f l = l.
Proof.
  induction l as [|x l IH]; intros H; cbn; [done|]. rewrite H by (by left). f_equal. apply IH. intros y ?. apply H. by right.
Qed.

Lemma omap_full {A B} (f : A → option B) (l : list A) :
  length (omap f l) = length l → ∀ i x, l !! i = Some x → ∃ y, f x = Some y ∧ omap f l !! i = Some y.
Proof.
  induction l as [|a l IH]; cbn; [done|]. assert (length (omap f l) ≤ length l)%nat as Hle.
  { clear. induction l as [|b l IH]; cbn; [lia|]. destruct (f b); cbn; lia. }
  destruct (f a) as [b|] eqn:E; cbn; [|lia]. intros [= H] [|i] x; cbn; [intros [= <-]; eauto|by apply IH].
Qed.

Section room_event_theorems.
Context {Ev : Env} {EL : EventLib} {TL : TimelineLib} {CL : ContentLib} {Out : Outside} {HL : HandlerLib} {RL : RoomLib}.
Implicit Types n : Node.
Implicit Types s : State.

(** An event identifier is not empty: it begins with a dollar sign. *)
Context (Hevents : ∀ e : EventId, idb e ≠ []).

(** C26: A transaction id of a device sends one event: asking again gives the id of that
    event and changes nothing, whatever happened in between to other data.  This is
    so also when the second request is for another room or of another type. *)
Theorem send_message_once (b b' : Request SendMessageRequest) n (e : EventId) n1 n2 :
  send_message_event_route b n = (Ok e, n1) →
  sender_user b' = sender_user b → sender_device b' = sender_device b → sm_txn_id (body b') = sm_txn_id (body b) →
  (sm_event_type (body b') = lit "m.room.encrypted" → allow_encryption = true) →
  db_map (nd_db n2) userdevicetxnid_response = db_map (nd_db n1) userdevicetxnid_response →
  send_message_event_route b' n2 = (Ok e, n2).
Proof.
  intros H Hu Hd Ht He Hdb. unfold send_message_event_route in *. run_inv H u n0 E0.
  apply the_user_inv in E0 as [Hs ->]. cbv zeta in *.
  assert (db_map (nd_db n1) userdevicetxnid_response !! txn_key u (sender_device b) (sm_txn_id (body b)) = Some (idb e)) as Hk.
  { destruct (_ && negb allow_encryption); [done|]. run_inv H o n3 E1. apply ondb_inv in E1 as (d & E1 & ->).
    unfold existing_txnid in E1. rewrite t_get_run in E1. injection E1 as E1 <-. destruct o as [resp|].
    - case_bool_decide; [done|]. unfold lift in H. injection H as Ep <-. apply parse_bytes_Ok in Ep as ->.
      change (nd_db (with_db ?d _)) with d. done.
    - run_inv H ev n4 E2. run_inv H x n5 E3. injection H as -> ->. apply ondb_inv in E3 as (d & E3 & ->).
      unfold add_txnid in E3. rewrite t_insert_run in E3. injection E3 as _ <-.
      change (nd_db (with_db ?d _)) with d. by rewrite db_map_put_eq, lookup_insert_eq. }
  unfold the_user. rewrite Hu, Hs. cbn [expect]. rewrite bind_lift_Ok.
  assert (bool_decide (sm_event_type (body b') = lit "m.room.encrypted") && negb allow_encryption = false) as ->.
  { destruct (decide (sm_event_type (body b') = lit "m.room.encrypted")) as [Hc|Hc].
    - by rewrite He, andb_false_r.
    - by rewrite bool_decide_eq_false_2. }
  rewrite (bind_Ok _ _ _ (Some (idb e)) n2).
  2: { apply ondb_read. unfold existing_txnid. by rewrite t_get_run, Hd, Ht, Hdb, Hk. }
  rewrite bool_decide_eq_false_2 by done. unfold lift. by rewrite parse_bytes_idb.
Qed.

(** ** Pages of the history *)

(** An entry of the timeline as a page has it. *)
Definition page_entry (u : UserId) (x : entry) : option (N * PduEvent) :=
  e ← ok (visible_pdu u x); c ← ok (pdu_count e.1); Some (c, e.2).

Lemma page_of_omap u limit l : page_of None limit (visible_pdu u <$> l) = omap (page_entry u) (take limit l).
Proof.
  unfold page_of. rewrite <- fmap_take. generalize (take limit l). clear l. intros l.
  rewrite take_while_all by (intros ? _; by apply bool_decide_eq_true). induction l as [|x l IH]; [done|]. cbn.
  unfold page_entry at 1. destruct (visible_pdu u x) as [[id p]|?|?]; cbn; [|done..].
  destruct (pdu_count id); cbn; [f_equal|..]; done.
Qed.

Lemma pdu_id_lt num c c' : u64 c → u64 c' → pdu_id_of num c <b pdu_id_of num c' ↔ c < c'.
Proof. intros. rewrite <- bytes_nle_gt, pdu_id_of_le by done. lia. Qed.

Lemma page_entry_count u num c v p c1 : u64 c → page_entry u (pdu_id_of num c, v) = Some (c1, p) → c1 = c.
Proof.
  intros Hc. unfold page_entry, visible_pdu. destruct (parse_json _ _) as [q|?|?]; cbn; [|done..].
  destruct (if decide _ then _ else _) as [q'|?|?]; cbn; [|done..].
  rewrite pdu_count_of by done. cbn. by intros [= <- _].
Qed.

(** C25: Paging back through a room loses and repeats nothing: a full page, followed by
    the page that starts at its end token, is the page of both lengths. *)
Theorem history_pages u (r : RoomId) num from (k m : nat) s p1 c1 e1 :
  room_numbered s r num → timeline_keyed s → 1 ≤ from → u64 from → 1 ≤ c1 →
  message_page Backward u r from None k s = (Ok p1, s) → length p1 = k → last p1 = Some (c1, e1) →
  ∃ p2, message_page Backward u r c1 None m s = (Ok p2, s) ∧
    message_page Backward u r from None (k + m) s = (Ok (p1 ++ p2), s).
Proof.
  intros Hr Hk Hf Hu Hc1 H1 Hlen Hlast. destruct (iter_until_run u r num from s Hr Hk Hf Hu) as (l & E & Hs & Hl).
  unfold message_page in *. rewrite (bind_Ok _ _ _ _ _ E), page_of_omap in H1. injection H1 as <-.
  rewrite (bind_Ok _ _ _ _ _ E), page_of_omap.
  set (f := page_entry u) in *. assert (length (take k l) = k ∧ 0 < k)%nat as [Hk1 Hk0].
  { assert (∀ l', (length (omap f l') ≤ length l')%nat) as Hle.
    { induction l' as [|b l' IH]; cbn; [lia|]. destruct (f b); cbn; lia. }
    specialize (Hle (take k l)). rewrite length_take in *. split; [lia|].
    destruct k; [|lia]. done. }
  rewrite last_lookup in Hlast. rewrite Hlen in Hlast.
  destruct (take k l !! pred k) as [[key v]|] eqn:Ek; [|apply lookup_ge_None in Ek; lia].
  destruct (omap_full f (take k l) ltac:(congruence) _ _ Ek) as (y & Hy & Hy').
  rewrite Hlast in Hy'. injection Hy' as <-. rewrite lookup_take_lt in Ek by lia.
  destruct (Hl key v) as [(c & Hc & Hlt & -> & Hv) _]; [by eapply list_elem_of_lookup_2|].
  assert (c1 = c) as -> by (by eapply page_entry_count).
  destruct (iter_until_run u r num c s Hr Hk Hc1 Hc) as (l2 & E2 & Hs2 & Hl2).
  assert (l2 = drop k l) as ->.
  { replace k with (S (pred k)) by lia. eapply (sorted_rest (flip key_lt)); [done..|]. intros [k' v']. rewrite Hl, Hl2.
    unfold flip, key_lt. cbn [fst]. split.
    - intros (c' & ? & ? & -> & ?). split; [exists c'; split_and!; [done|lia|done..]|]. by apply pdu_id_lt.
    - intros [(c' & ? & ? & -> & ?) Hlt']. exists c'. split_and!; [done| |done..]. by eapply pdu_id_lt. }
  exists (omap f (take m (drop k l))). rewrite (bind_Ok _ _ _ _ _ E2), page_of_omap. split; [done|].
  unfold mret, M_ret. by rewrite <- take_take_drop, omap_app.
Qed.

(** ** Who may read and write *)

Lemma may_read_inv u r n n' :
  may_read_state u r n = (Ok (), n') → (is_joined u r (nd_db n)).1 = Ok true ∨
    ∃ d e, (room_state_get r (lit "m.room.history_visibility") (lit "") d).1 = Ok (Some e) ∧ agree [] (nd_db n) d ∧
      visibility_content (content e) = Some HWorldReadable.
Proof.
  unfold may_read_state. intros H. run_inv H j n1 E1. apply ondb_inv in E1 as (d1 & E1 & ->).
  assert (agree [] (nd_db n) d1) as A1.
  { unfold is_joined in E1. run_inv E1 x d2 E2. rewrite t_get_run in E2. injection E2 as _ <-. by injection E1 as _ <-. }
  destruct j; [left; by rewrite E1|right]. run_inv H a n2 E2. destruct a; [|done].
  run_inv E2 o n3 E3. apply ondb_inv in E3 as (d3 & E3 & ->). injection E2 as E2 _.
  destruct o as [e|]; [|done]. cbn in E2. exists d1, e. change (nd_db (with_db ?d _)) with d in E3. rewrite E3. split_and!; [done..|].
  by destruct (visibility_content (content e)) as [[]|].
Qed.

(** The state of a room is shown only to its members, or while its history is world
    readable; the events around an event only to the members of its room. *)
Theorem state_reads_private (b : Request RoomId) (bc : Request ContextRequest) n :
  MemberInv (nd_db n) →
  (∀ l n', get_state_events_route b n = (Ok l, n') → ∃ u, sender_user b = Some u ∧
    (membership (nd_db n) u (body b) = Some Joined ∨
     ∃ d e, (room_state_get (body b) (lit "m.room.history_visibility") (lit "") d).1 = Ok (Some e) ∧
       agree [] (nd_db n) d ∧ visibility_content (content e) = Some HWorldReadable)) ∧
  (∀ c n', get_context_route bc n = (Ok c, n') → ∃ u e id, sender_user bc = Some u ∧
    db_map (nd_db n) eventid_pduid !! idb (cx_event_id (body bc)) = Some id ∧
    (get_pdu_from_id id (nd_db n)).1 = Ok (Some e) ∧ cxr_event c = to_room_event e ∧
    membership (nd_db n) u (room_id e) = Some Joined).
Proof.
  intros I. split.
  - intros l n' H. unfold get_state_events_route in H. run_inv H u n0 E0. apply the_user_inv in E0 as [Hu ->].
    exists u. split; [done|]. run_inv H x n1 E1. destruct x. apply may_read_inv in E1 as [E|E]; [left|by right].
    rewrite is_joined_run in E by done. injection E as E. by apply bool_decide_eq_true in E.
  - intros c n' H. unfold get_context_route in H. run_inv H u n0 E0. apply the_user_inv in E0 as [Hu ->].
    run_inv H dv n0 E0. assert (n0 = n) as ->.
    { unfold the_device, lift in E0. destruct (sender_device bc); cbn in E0; by injection E0 as _ <-. }
    cbv zeta in H. run_inv H o n1 E1. apply ondb_inv in E1 as (d1 & E1 & ->). unfold get_pdu_id in E1.
    rewrite t_get_run in E1. injection E1 as E1 <-. rewrite with_db_id in H. lift_inv H pid E2. apply ok_or_Ok in E2 as ->.
    lift_inv H tok E3. run_inv H o n1 E4. apply ondb_inv in E4 as (d2 & E4 & ->).
    assert (d2 = nd_db n) as ->.
    { unfold get_pdu_from_id in E4. rewrite (bind_Ok _ _ _ _ _ (t_get_run _ _ _)) in E4. by injection E4 as _ <-. }
    rewrite with_db_id in H. lift_inv H ev E5. apply ok_or_Ok in E5 as ->. run_inv H x n3 E6. destruct x.
    apply require_joined_inv in E6 as (d3 & E6 & ->). rewrite is_joined_run in E6 by done. injection E6 as E6 _.
    apply bool_decide_eq_true in E6. exists u, ev, pid. split_and!; try done; [by rewrite E4|].
    run_inv H l1 n4 F1. run_inv H bf n5 F2. lift_inv H hf F3. cbv zeta in H. run_inv H l2 n6 F4. run_inv H af n7 F5.
    run_inv H l3 n8 F6. run_inv H o2 n9 F7. run_inv H sh n10 F8. run_inv H si n11 F9. run_inv H st n12 F10. by injection H as <- _.
Qed.

(** A canonical alias event is sent only if each of its aliases is of this server
    and resolves to the room. *)
Theorem canonical_alias_checked u (r : RoomId) ty (js : Raw) key n (e : EventId) n' alias (alt : list RoomAliasId) :
  send_state_event_for_key_helper u r ty js key n = (Ok e, n') →
  canonical_alias_content (raw_text js) = Some (alias, alt) →
  ∀ a, a ∈ alt ++ option_list alias →
    alias_server_name a = server_name ∧ (resolve_local_alias a (nd_db n)).1 = Ok (Some r).
Proof.
  unfold send_state_event_for_key_helper. intros H Hc. rewrite Hc in H. run_inv H x n1 E. apply ondb_inv in E as (d & E & _).
  clear H. destruct x. revert E. generalize (nd_db n) as s. generalize (alt ++ option_list alias) as l. clear Hc.
  induction l as [|a l IH]; intros s E a' Ha; [by apply not_elem_of_nil in Ha|].
  cbn [for_each] in E. run_inv E x s1 E1. destruct x.
  assert (s1 = s ∧ alias_server_name a = server_name ∧ (resolve_local_alias a s).1 = Ok (Some r)) as (-> & H1 & H2).
  { unfold check_alias in E1. case_decide as Hs; [done|]. run_inv E1 o s2 E2.
    assert (s2 = s) as ->.
    { unfold resolve_local_alias in E2. rewrite (bind_Ok _ _ _ _ _ (t_get_run _ _ _)) in E2. by injection E2 as _ <-. }
    case_decide as Ho; [|done]. injection E1 as <-. split_and!; [done..|by rewrite E2, Ho]. }
  apply elem_of_cons in Ha as [->|Ha]; [done|]. by apply (IH s).
Qed.
End room_event_theorems.
