(* ===== verification/ServerServer.v ===== *)
(** * The federation API ([src/api/server_server.rs])

    What other servers may ask of this one: they push events and ephemeral data,
    fetch events and states of the rooms they are in, and join, invite and look up
    users.  The request carries the name of the server whose signature was
    verified ([Request.v]). *)

From S2P Require Import Prelude Bytes RStr Decimal Error Utils KvTree Env Db Keys Globals Frames Short RoomState StateCompressor Pdu Timeline StateAccessor Users StateCache DeviceKeys Edus SendingService RoomIndex ClientData EventFormat OpFrames MembershipService StateService Lookups TimelineService AuthChain Federation EventHandler Request Admin Account Membership.

Section server_server.
Context {Ev : Env} {EL : EventLib} {TL : TimelineLib} {CL : ContentLib} {Out : Outside} {HL : HandlerLib}.

(** ruma's [Edu]; a message for [None] is for all devices of the user. *)
Inductive Edu :=
  | EPresence
  | EReceipt (receipts : list (RoomId * list (UserId * (list EventId * json))))
  | ETyping (room_id : RoomId) (user_id : UserId) (typing : bool)
  | EDeviceListUpdate (user_id : UserId)
  | EDirectToDevice (sender : UserId) (ev_type : rstr) (message_id : rstr)
      (messages : list (UserId * list (option DeviceId * Raw)))
  | ESigningKeyUpdate (user_id : UserId) (master_key self_signing_key : option Raw)
  | ECustom.

Class ServerLib := {
  allow_federation : bool;
  edu_of : Raw → option Edu;
  (** a [ReceiptEvent] with one receipt *)
  receipt_event : RoomId → UserId → EventId → json → ReceiptEvent;
  (** the key of this server: its id, its public part, and [sign_json] with it *)
  own_key_id : rstr;
  own_public_key : rstr;
  sign_json : CanonicalJsonObject → CanonicalJsonObject;
}.
Context {SL : ServerLib}.

Definition require_federation : NM unit :=
  if allow_federation then mret () else fail (BadConfig "Federation is disabled.").
Definition the_server {T} (b : Request T) : NM ServerName := lift (expect (sender_servername b) "server is authenticated").

(** ** Keys of this server *)

Definition get_server_keys_route : NM CanonicalJsonObject :=
  require_federation ;;
  t ← instant_now;
  valid_until_ts ← lift (expect (to_uint (t + 1000 * (86400 * 7))) "time is valid");
  response ← lift (expect (from_slice (to_vec (MkSigningKeys _ server_name [(own_key_id, own_public_key)] [] [] valid_until_ts)))
                     "called Result::unwrap on an Err value");
  mret (sign_json response).

(** ** Transactions *)

(** One event of a transaction; [resolved] has the outcome of each event. *)
Definition transaction_pdu (rounds fuel : nat) (origin : ServerName) (resolved : gmap EventId (unit + Error)) (pdu : Raw) :
    NM (gmap EventId (unit + Error)) :=
  value ← lift (ok_or (from_slice (raw_text pdu)) (BadServerResponse "Invalid PDU in server response"));
  match (v ← canonical_get (lit "room_id") value; s ← as_string v; parse_id valid_room_id s : option RoomId) with
  | None => mret resolved
  | Some room_id =>
      v ← try_ok (ondb (get_room_version room_id));
      match v with
      | None => mret resolved
      | Some room_version_id =>
          match gen_event_id_canonical_json pdu room_version_id with
          | Err _ => mret resolved
          | Panic p => lift (Panic p)
          | Ok (event_id, value) =>
              ondb (acl_check origin room_id) ;;
              r ← catch (handle_incoming_pdu rounds fuel origin event_id room_id value true);
              mret (<[event_id := match r with inl _ => inl () | inr e => inr e end]> resolved)
          end
      end
  end.

(** [max_by_key(|(_, count)| *count)]: the last of the greatest. *)
Fixpoint latest_known (ids : list EventId) (best : option (EventId * N)) : DB (option (EventId * N)) :=
  match ids with
  | [] => mret best
  | id :: ids =>
      o ← try_ok (get_pdu_count id);
      latest_known ids (match mjoin o, best with
                        | Some c, Some (_, c') => if bool_decide (c' ≤ c) then Some (id, c) else best
                        | Some c, None => Some (id, c)
                        | None, _ => best
                        end)
  end.

Definition receipt_edu (receipts : list (RoomId * list (UserId * (list EventId * json)))) : DB unit :=
  for_each receipts (λ '(room_id, read),
    for_each read (λ '(user_id, (event_ids, data)),
      o ← latest_known event_ids None;
      match o with
      | Some (event_id, _) => readreceipt_update user_id room_id (receipt_event room_id user_id event_id data)
      | None => mret ()
      end)).

Definition typing_edu (room_id : RoomId) (user_id : UserId) (typing : bool) : DB unit :=
  joined ← is_joined user_id room_id;
  if (joined : bool) then
    if typing then t ← gets now; typing_add user_id room_id (3000 + t) else typing_remove user_id room_id
  else mret ().

(** [add_to_device_event] with the content read from [event] *)
Definition push_to_device (sender target : UserId) (device_id : DeviceId) (ev_type : rstr) (event : Raw) : DB unit :=
  content ← lift (ok_or (from_slice (raw_text event)) (BadRequest InvalidParam "Event is invalid"));
  add_to_device_event sender target device_id ev_type content.

Definition to_device_edu (sender : UserId) (ev_type message_id : rstr)
    (messages : list (UserId * list (option DeviceId * Raw))) : DB unit :=
  o ← existing_txnid sender None message_id;
  match o with
  | Some _ => mret ()
  | None =>
      for_each messages (λ '(target, l),
        for_each l (λ '(device, event),
          match device with
          | Some device_id => push_to_device sender target device_id ev_type event
          | None =>
              ids ← all_device_ids target;
              for_each ids (λ id, device_id ← lift id; push_to_device sender target device_id ev_type event)
          end)) ;;
      add_txnid sender None message_id []
  end.

Definition handle_edu (origin : ServerName) (edu : Edu) : DB unit :=
  match edu with
  | EPresence => mret ()
  | EReceipt receipts => receipt_edu receipts
  | ETyping room_id user_id typing => typing_edu room_id user_id typing
  | EDeviceListUpdate user_id => mark_device_key_update user_id
  | EDirectToDevice sender ev_type message_id messages => to_device_edu sender ev_type message_id messages
  | ESigningKeyUpdate user_id master_key self_signing_key =>
      if decide (user_server_name user_id ≠ origin) then mret ()
      else
        match master_key with
        | Some master_key => add_cross_signing_keys user_id master_key self_signing_key None
        | None => mret ()
        end
  | ECustom => mret ()
  end.

(** The events and the ephemeral data of the transaction. *)
Definition send_transaction_message_route (rounds fuel : nat) (b : Request (list Raw * list Raw)) :
    NM (gmap EventId (unit + Error)) :=
  require_federation ;;
  origin ← the_server b;
  modify (set_pub_key_map []) ;;
  resolved_map ← for_fold (body b).1 ∅ (transaction_pdu rounds fuel origin);
  for_each (filter_map edu_of (body b).2) (λ edu, ondb (handle_edu origin edu)) ;;
  mret resolved_map.

(** ** Events *)

Definition require_in_room (origin : ServerName) (room_id : RoomId) (message : string) : NM unit :=
  inside ← ondb (server_in_room origin room_id);
  if (inside : bool) then mret () else fail (BadRequest Forbidden message).

(** The room of a stored event. *)
Definition room_of_event (event : CanonicalJsonObject) : res RoomId :=
  s ← ok_or (canonical_get (lit "room_id") event ≫= as_string) (BadDatabase "Invalid event in database");
  ok_or (parse_id valid_room_id s) (BadDatabase "Invalid room id field in event in database").

Definition get_event_route (b : Request EventId) : NM Raw :=
  require_federation ;;
  origin ← the_server b;
  o ← ondb (get_pdu_json (body b));
  event ← lift (ok_or o (BadRequest NotFound "Event not found."));
  room_id ← lift (room_of_event event);
  require_in_room origin room_id "Server is not in room" ;;
  mret (convert_to_outgoing_federation_event event).

Record MissingRequest := MkMissing {
  me_room_id : RoomId;
  me_latest_events : list EventId;
  me_earliest_events : list EventId;
  me_limit : N
}.

(** The ids under [prev_events] of a stored event. *)
Definition prev_of_event (pdu : CanonicalJsonObject) : res (list EventId) :=
  v ← ok_or (canonical_get (lit "prev_events") pdu) (BadDatabase "Event in db has no prev_events field.");
  match v with
  | JArr l => ok_or (mapM (λ x, s ← as_string x; parse_id valid_event_id s) l)
                (BadDatabase "Invalid prev_events content in pdu in db.")
  | _ => Err (BadDatabase "Invalid prev_events content in pdu in db.")
  end.

(** The loop over the queue; [queue] is the part from index [i] on. *)
Fixpoint missing_loop (fuel : nat) (req : MissingRequest) (queue : list EventId) (events : list Raw) : NM (list Raw) :=
  match queue with
  | [] => mret events
  | id :: queue =>
      if bool_decide (N.of_nat (length events) < me_limit req) then
        match fuel with
        | O => out_of_fuel
        | S fuel =>
            o ← ondb (get_pdu_json id);
            match o with
            | Some pdu =>
                event_room_id ← lift (room_of_event pdu);
                if decide (event_room_id ≠ me_room_id req) then fail (BadRequest InvalidParam "Evil event detected")
                else if bool_decide (id ∈ me_earliest_events req) then missing_loop fuel req queue events
                else
                  prev_events ← lift (prev_of_event pdu);
                  missing_loop fuel req (queue ++ prev_events) (events ++ [convert_to_outgoing_federation_event pdu])
            | None => missing_loop fuel req queue events
            end
        end
      else mret events
  end.

Definition get_missing_events_route (fuel : nat) (b : Request MissingRequest) : NM (list Raw) :=
  require_federation ;;
  origin ← the_server b;
  let req := body b in
  require_in_room origin (me_room_id req) "Server is not in room" ;;
  ondb (acl_check origin (me_room_id req)) ;;
  missing_loop fuel req (me_latest_events req) [].

(** [get_auth_chain(..).await?], with the events that can be read *)
Definition auth_chain_ids (fuel : nat) (room_id : RoomId) (events : list EventId) : NM (list EventId) :=
  o ← ondb (get_auth_chain fuel room_id events);
  match o with Some l => mret l | None => out_of_fuel end.
Definition readable_events (ids : list EventId) : NM (list Raw) :=
  for_fold ids [] (λ l id,
    o ← try_ok (ondb (get_pdu_json id));
    mret (match mjoin o with Some e => l ++ [convert_to_outgoing_federation_event e] | None => l end)).

Definition get_event_authorization_route (fuel : nat) (b : Request (RoomId * EventId)) : NM (list Raw) :=
  require_federation ;;
  origin ← the_server b;
  require_in_room origin (body b).1 "Server is not in room." ;;
  ondb (acl_check origin (body b).1) ;;
  o ← ondb (get_pdu_json (body b).2);
  event ← lift (ok_or o (BadRequest NotFound "Event not found."));
  room_id ← lift (room_of_event event);
  ids ← auth_chain_ids fuel room_id [(body b).2];
  readable_events ids.

(** The state at an event. *)
Definition state_at_event (event_id : EventId) : NM (gmap N EventId) :=
  o ← ondb (pdu_shortstatehash event_id);
  shortstatehash ← lift (ok_or o (BadRequest NotFound "Pdu state not found."));
  ondb (state_full_ids shortstatehash).

(** The auth chain and the state. *)
Definition get_room_state_route (fuel : nat) (b : Request (RoomId * EventId)) : NM (list Raw * list Raw) :=
  require_federation ;;
  origin ← the_server b;
  require_in_room origin (body b).1 "Server is not in room." ;;
  ondb (acl_check origin (body b).1) ;;
  state ← state_at_event (body b).2;
  pdus ← for_fold (map_to_list state) [] (λ l e,
           o ← unwrap (ondb (get_pdu_json e.2));
           pdu ← lift (expect o "called Option::unwrap on a None value");
           mret (l ++ [convert_to_outgoing_federation_event pdu]));
  ids ← auth_chain_ids fuel (body b).1 [(body b).2];
  auth_chain ← readable_events ids;
  mret (auth_chain, pdus).

Definition get_room_state_ids_route (fuel : nat) (b : Request (RoomId * EventId)) : NM (list EventId * list EventId) :=
  require_federation ;;
  origin ← the_server b;
  require_in_room origin (body b).1 "Server is not in room." ;;
  ondb (acl_check origin (body b).1) ;;
  state ← state_at_event (body b).2;
  ids ← auth_chain_ids fuel (body b).1 [(body b).2];
  mret (ids, snd <$> map_to_list state).

(** ** Joins by users of other servers *)

Definition no_restricted_join (room_id : RoomId) : DB unit :=
  o ← room_state_get room_id (lit "m.room.join_rules") (lit "");
  rule ← lift (transpose ((λ e, ok_or (join_rules_content (content e)) (BadDatabase "Invalid join rules event in db.")) <$> o));
  match rule with
  | Some (JRestricted _) | Some (JKnockRestricted _) =>
      fail (BadRequest UnableToAuthorizeJoin "Conduit does not support restricted rooms yet.")
  | _ => mret ()
  end.

(** The room, the user and the versions the other server supports. *)
Definition create_join_event_template_route (b : Request (RoomId * UserId * list rstr)) : NM (option rstr * bytes) :=
  require_federation ;;
  let '(room_id, user_id, ver) := body b in
  known ← ondb (room_exists room_id);
  if negb known then fail (BadRequest NotFound "Room is unknown to this server.")
  else
    origin ← the_server b;
    ondb (acl_check origin room_id) ;;
    ondb (no_restricted_join room_id) ;;
    room_version_id ← ondb (get_room_version room_id);
    if negb (bool_decide (room_version_id ∈ ver)) then
      fail (BadRequest (IncompatibleRoomVersion room_version_id) "Room version not supported.")
    else
      r ← ondb (create_hash_and_sign_event (member_builder user_id (plain_member MJoin None)) user_id room_id);
      let '(_, pdu_json) := (r : PduEvent * CanonicalJsonObject) in
      mret (Some room_version_id, to_vec (canonical_remove (lit "event_id") pdu_json)).

(** The auth chain and the state before the join. *)
Definition create_join_event (rounds fuel : nat) (origin_server : ServerName) (room_id : RoomId) (pdu : Raw) :
    NM (list Raw * list Raw) :=
  require_federation ;;
  known ← ondb (room_exists room_id);
  if negb known then fail (BadRequest NotFound "Room is unknown to this server.")
  else
    ondb (acl_check origin_server room_id) ;;
    ondb (no_restricted_join room_id) ;;
    o ← ondb (get_room_shortstatehash room_id);
    shortstatehash ← lift (ok_or o (BadRequest NotFound "Pdu state not found."));
    modify (set_pub_key_map []) ;;
    room_version_id ← ondb (get_room_version room_id);
    match gen_event_id_canonical_json pdu room_version_id with
    | Err _ => fail (BadRequest InvalidParam "Could not convert event to canonical json.")
    | Panic p => lift (Panic p)
    | Ok (event_id, value) =>
        v ← lift (ok_or (canonical_get (lit "origin") value) (BadRequest InvalidParam "Event needs an origin field."));
        origin ← lift (ok_or (s ← as_string v; parse_id valid_server_name s) (BadRequest InvalidParam "Origin field is invalid."));
        o ← handle_incoming_pdu rounds fuel origin event_id room_id value true;
        pdu_id ← lift (ok_or o (BadRequest InvalidParam "Could not accept incoming PDU as timeline event."));
        state_ids ← ondb (state_full_ids shortstatehash);
        ids ← auth_chain_ids fuel room_id (snd <$> map_to_list state_ids);
        servers ← ondb (room_servers room_id);
        on_server (on_sending (send_pdu (filter (λ s, s ≠ server_name) (filter_map ok servers)) pdu_id)) ;;
        auth_chain ← readable_events ids;
        state ← readable_events (snd <$> map_to_list state_ids);
        mret (auth_chain, state)
    end.

Definition create_join_event_v1_route (rounds fuel : nat) (b : Request (RoomId * Raw)) : NM (list Raw * list Raw) :=
  origin ← the_server b; create_join_event rounds fuel origin (body b).1 (body b).2.
Definition create_join_event_v2_route (rounds fuel : nat) (b : Request (RoomId * Raw)) : NM (list Raw * list Raw) :=
  origin ← the_server b; create_join_event rounds fuel origin (body b).1 (body b).2.

(** ** Invitations *)

Record InviteRequest := MkInvite {
  iv_room_id : RoomId;
  iv_room_version : rstr;
  iv_event : Raw;
  iv_invite_room_state : list Raw
}.

Definition user_field (key : string) (missing invalid : string) (event : CanonicalJsonObject) : res UserId :=
  v ← ok_or (canonical_get (lit key) event) (BadRequest InvalidParam missing);
  ok_or (s ← as_string v; parse_id valid_user_id s) (BadRequest InvalidParam invalid).

Definition create_invite_route (b : Request InviteRequest) : NM Raw :=
  require_federation ;;
  origin ← the_server b;
  let req := body b in
  ondb (acl_check origin (iv_room_id req)) ;;
  if negb (bool_decide (iv_room_version req ∈ supported_room_versions)) then
    fail (BadRequest (IncompatibleRoomVersion (iv_room_version req)) "Server does not support this room version.")
  else
    event ← lift (ok_or (from_slice (raw_text (iv_event req))) (BadRequest InvalidParam "Invite event is invalid."));
    signed_event ← lift (match hash_and_sign_event event (iv_room_version req) with
                         | inl e => Ok e
                         | inr _ => Err (BadRequest InvalidParam "Failed to sign event.")
                         end);
    hash ← lift (expect (reference_hash signed_event (iv_room_version req)) "ruma can calculate reference hashes");
    event_id ← lift (expect (hash_event_id hash) "ruma's reference hashes are valid event ids");
    let signed_event := canonical_insert (lit "event_id") (JStr (as_str event_id)) signed_event in
    inviter ← lift (user_field "sender" "Event had no sender field." "sender is not a user id." signed_event);
    invited_user ← lift (user_field "state_key" "Event had no state_key field." "state_key is not a user id." signed_event);
    pdu ← lift (ok_or (pdu_of_canonical (canonical_insert (lit "event_id") (JStr (lit "$dummy")) event))
                  (BadRequest InvalidParam "Invalid invite event."));
    let invite_state := iv_invite_room_state req ++ [to_stripped_state_event pdu] in
    here ← ondb (server_in_room server_name (iv_room_id req));
    (if (here : bool) then mret ()
     else ondb (update_membership (iv_room_id req) invited_user MInvite inviter (Some invite_state) true)) ;;
    mret (convert_to_outgoing_federation_event signed_event).

(** ** Users of this server *)

Record DevicesResponse := MkDevices {
  dv_user_id : UserId;
  dv_stream_id : N;
  dv_devices : list (DeviceId * Raw * option rstr);
  dv_master_key : option Raw;
  dv_self_signing_key : option Raw
}.

(** A device is told when its keys can be read. *)
Definition device_with_keys (user_id : UserId) (l : list (DeviceId * Raw * option rstr)) (d : Device) :
    DB (list (DeviceId * Raw * option rstr)) :=
  o ← try_ok (get_device_keys user_id (device_id d));
  mret (match mjoin o with Some keys => l ++ [(device_id d, keys, display_name d)] | None => l end).

Definition get_devices_route (b : Request UserId) : NM DevicesResponse :=
  require_federation ;;
  origin ← the_server b;
  let allowed u := bool_decide (user_server_name u = origin) in
  v ← ondb (get_devicelist_version (body b));
  stream_id ← lift (expect (to_uint (default 0 v)) "version will not grow that large");
  l ← ondb (all_devices_metadata (body b));
  devices ← ondb (for_fold (filter_map ok l) [] (device_with_keys (body b)));
  master_key ← ondb (get_master_key (body b) allowed);
  self_signing_key ← ondb (get_self_signing_key (body b) allowed);
  mret (MkDevices (body b) stream_id devices master_key self_signing_key).

Definition get_room_information_route (b : Request RoomAliasId) : NM (RoomId * list ServerName) :=
  require_federation ;;
  o ← ondb (resolve_local_alias (body b));
  room_id ← lift (ok_or o (BadRequest NotFound "Room alias not found."));
  mret (room_id, [server_name]).

Inductive ProfileField := FDisplayName | FAvatarUrl | FCustom.

(** Display name, avatar and blurhash. *)
Definition get_profile_information_route (b : Request (UserId * option ProfileField)) :
    NM (option rstr * option rstr * option rstr) :=
  require_federation ;;
  let '(user_id, field) := body b in
  match field with
  | Some FDisplayName => d ← ondb (displayname user_id); mret (d, None, None)
  | Some FAvatarUrl => a ← ondb (avatar_url user_id); h ← ondb (blurhash user_id); mret (None, a, h)
  | Some FCustom => mret (None, None, None)
  | None =>
      d ← ondb (displayname user_id); a ← ondb (avatar_url user_id); h ← ondb (blurhash user_id); mret (d, a, h)
  end.
End server_server.

(** ** Theorems *)

Section server_theorems.
Context {Ev : Env} {EL : EventLib} {TL : TimelineLib} {CL : ContentLib} {Out : Outside} {HL : HandlerLib} {SL : ServerLib}.
Implicit Types n : Node.
Implicit Types s : State.

Lemma the_server_inv {T} (b : Request T) n x n' : the_server b n = (Ok x, n') → sender_servername b = Some x ∧ n' = n.
Proof. unfold the_server, lift. destruct (sender_servername b); cbn; [|done]. by intros [= -> ->]. Qed.
Lemma require_federation_inv n x n' : require_federation n = (Ok x, n') → allow_federation = true ∧ n' = n.
Proof. unfold require_federation. destruct allow_federation; [by intros [= _ ->]|done]. Qed.
Lemma server_in_room_run x r s : server_in_room x r s = (Ok (bool_decide (is_Some (db_map s serverroomids !! idkey x r))), s).
Proof. unfold server_in_room. by db_step. Qed.
Lemma require_in_room_inv x r m n n' :
  require_in_room x r m n = (Ok (), n') → n' = n ∧ is_Some (db_map (nd_db n) serverroomids !! idkey x r).
Proof.
  unfold require_in_room. rewrite (bind_Ok _ _ _ _ _ (ondb_read _ _ _ (server_in_room_run x r _))).
  destruct (bool_decide _) eqn:E; [|done]. intros [= ->]. split; [done|]. by apply bool_decide_eq_true in E.
Qed.

(** ** Missing events *)

(** Reading the JSON of an event changes nothing and does not panic. *)
Lemma get_pdu_json_run e s : ∃ r, get_pdu_json e s = (r, s) ∧ ∀ p, r ≠ Panic p.
Proof.
  unfold get_pdu_json, event_text, timeline_text, mbind, M_bind. rewrite t_get_run. cbn beta iota.
  destruct (db_map s eventid_pduid !! idb e) as [id|]; rewrite t_get_run; cbn beta iota.
  - destruct (db_map s pduid_pdu !! id) as [t|]; [|by eexists]. cbn. unfold lift, parse_json.
    destruct (from_slice t); by eexists.
  - unfold lift, parse_json. destruct (db_map s eventid_outlierpdu !! idb e) as [t|]; cbn; [destruct (from_slice t)|]; by eexists.
Qed.

(** What the loop makes of a stored event: nothing, or more events to look for. *)
Definition missing_next (req : MissingRequest) (id : EventId) (pdu : CanonicalJsonObject) : res (option (list EventId)) :=
  room ← room_of_event pdu;
  if decide (room ≠ me_room_id req) then Err (BadRequest InvalidParam "Evil event detected")
  else if bool_decide (id ∈ me_earliest_events req) then Ok None
  else prev ← prev_of_event pdu; Ok (Some prev).

Lemma missing_next_panics req id pdu p : missing_next req id pdu ≠ Panic p.
Proof.
  unfold missing_next, room_of_event, prev_of_event. destruct (_ ≫= as_string) as [x|]; [|done]. cbn.
  destruct (parse_id _ x); [|done]. cbn. case_decide; [done|]. case_bool_decide; [done|].
  destruct (canonical_get _ pdu) as [[| | | |l|]|]; try done. cbn. by destruct (mapM _ l).
Qed.

Lemma missing_step fuel req id queue events n r :
  N.of_nat (length events) < me_limit req → get_pdu_json id (nd_db n) = (r, nd_db n) →
  missing_loop (S fuel) req (id :: queue) events n =
    match r with
    | Ok (Some pdu) =>
        match missing_next req id pdu with
        | Ok (Some prev) => missing_loop fuel req (queue ++ prev) (events ++ [convert_to_outgoing_federation_event pdu]) n
        | Ok None => missing_loop fuel req queue events n
        | Err e => (Err e, n)
        | Panic p => (Panic p, n)
        end
    | Ok None => missing_loop fuel req queue events n
    | Err e => (Err e, n)
    | Panic p => (Panic p, n)
    end.
Proof.
  intros Hlt E. cbn [missing_loop]. rewrite bool_decide_eq_true_2 by done. rewrite (bind_run _ _ _ _ _ (ondb_read _ _ _ E)).
  destruct r as [[pdu|]|e|p]; [|done..]. unfold missing_next.
  destruct (room_of_event pdu) as [room|e|p]; [|done..]. rewrite bind_lift_Ok. cbn [mbind res_bind].
  case_decide; [done|]. case_bool_decide; [done|]. destruct (prev_of_event pdu) as [prev|e|p]; done.
Qed.

(** C30: Looking for missing events always ends, whatever the stored events refer to:
    some number of rounds is enough, and more of them change nothing. *)
Theorem missing_events_terminate req (queue : list EventId) (events : list Raw) n :
  ∃ fuel r, (∀ more, missing_loop (fuel + more) req queue events n = (r, n)) ∧ ∀ p, r ≠ Panic p.
Proof.
  remember (N.to_nat (me_limit req) - length events)%nat as m eqn:Em. revert queue events Em.
  induction m as [m IHm] using lt_wf_ind. intros queue. induction queue as [|id queue IHq]; intros events Em.
  { exists 0%nat, (Ok events). split; [|done]. by intros []. }
  destruct (decide (N.of_nat (length events) < me_limit req)) as [Hlt|Hge].
  2: { exists 0%nat, (Ok events). split; [|done]. intros []; cbn; by rewrite bool_decide_eq_false_2. }
  destruct (get_pdu_json_run id (nd_db n)) as (o & Eo & Hp). pose proof (λ f, missing_step f req id queue events n o Hlt Eo) as Hs.
  destruct (IHq events Em) as (f & r & Hf & Hr).
  destruct o as [[pdu|]|e|p]; [|by exists (S f), r; split; [intros more; rewrite <- (Hf more); apply Hs|]
    |by exists 1%nat, (Err e); split; [intros more; apply Hs|]|by destruct (Hp p)].
  pose proof (missing_next_panics req id pdu) as Hn.
  destruct (missing_next req id pdu) as [[prev|]|e|p]; [|by exists (S f), r; split; [intros more; rewrite <- (Hf more); apply Hs|]
    |by exists 1%nat, (Err e); split; [intros more; apply Hs|]|by destruct (Hn p)].
  destruct (IHm (N.to_nat (me_limit req) - length (events ++ [convert_to_outgoing_federation_event pdu]))%nat)
    with (queue := queue ++ prev) (events := events ++ [convert_to_outgoing_federation_event pdu]) as (f' & r' & Hf' & Hr').
  - rewrite length_app. cbn. lia.
  - done.
  - exists (S f'), r'. split; [|done]. intros more. rewrite <- (Hf' more). apply Hs.
Qed.

Lemma missing_loop_inv fuel req (queue : list EventId) (events l : list Raw) n n' :
  missing_loop fuel req queue events n = (Ok l, n') → ∃ l', l = events ++ l' ∧ n' = n ∧
    (N.of_nat (length events) ≤ me_limit req → N.of_nat (length l) ≤ me_limit req) ∧
    ∀ x, x ∈ l' → ∃ id pdu, get_pdu_json id (nd_db n) = (Ok (Some pdu), nd_db n) ∧
      room_of_event pdu = Ok (me_room_id req) ∧ ¬ id ∈ me_earliest_events req ∧ x = convert_to_outgoing_federation_event pdu.
Proof.
  revert queue events. induction fuel as [|fuel IH]; intros [|id queue] events H.
  1, 3: injection H as <- <-; exists []; rewrite app_nil_r; split_and!; try done; by intros x ?%not_elem_of_nil.
  all: destruct (decide (N.of_nat (length events) < me_limit req)) as [Hlt|Hge];
    [|cbn [missing_loop] in H; rewrite bool_decide_eq_false_2 in H by done; injection H as <- <-; exists [];
      rewrite app_nil_r; split_and!; try done; by intros x ?%not_elem_of_nil].
  { cbn [missing_loop] in H. by rewrite bool_decide_eq_true_2 in H. }
  destruct (get_pdu_json_run id (nd_db n)) as (o & Eo & Hp). rewrite (missing_step _ _ _ _ _ _ _ Hlt Eo) in H.
  destruct o as [[pdu|]|e|p]; [|by eapply IH|done..].
  destruct (missing_next req id pdu) as [[prev|]|e|p] eqn:En; [|by eapply IH|done..].
  apply IH in H as (l' & -> & -> & Hle & Hl). exists (convert_to_outgoing_federation_event pdu :: l'). rewrite <- app_assoc in *.
  split_and!; [done..| |].
  - intros _. apply Hle. rewrite length_app. cbn. lia.
  - intros x [->|Hx]%elem_of_cons; [|by apply Hl]. exists id, pdu. revert En. unfold missing_next.
    destruct (room_of_event pdu) as [room|e|p]; [|done..]. cbn [mbind res_bind]. case_decide as Hr; [done|].
    case_bool_decide as Hi; [done|]. intros _. by rewrite Hr.
Qed.

(** C31: Missing events are sent only to a server in the room, at most as many as it
    asked for, and all of them are stored events of that room. *)
Theorem missing_events_sound fuel (b : Request MissingRequest) n (l : list Raw) n' :
  get_missing_events_route fuel b n = (Ok l, n') →
  ∃ origin, sender_servername b = Some origin ∧ is_Some (db_map (nd_db n) serverroomids !! idkey origin (me_room_id (body b))) ∧
    N.of_nat (length l) ≤ me_limit (body b) ∧
    ∀ x, x ∈ l → ∃ id pdu, (get_pdu_json id (nd_db n')).1 = Ok (Some pdu) ∧ room_of_event pdu = Ok (me_room_id (body b)) ∧
      ¬ id ∈ me_earliest_events (body b) ∧ x = convert_to_outgoing_federation_event pdu.
Proof.
  unfold get_missing_events_route. intros H. run_inv H u1 n1 E1. apply require_federation_inv in E1 as [_ ->].
  run_inv H origin n2 E2. apply the_server_inv in E2 as [Ho ->]. cbv zeta in H. run_inv H u3 n3 E3. destruct u3.
  apply require_in_room_inv in E3 as [-> Hin]. run_inv H u4 n4 E4. apply missing_loop_inv in H as (l' & -> & -> & Hle & Hl).
  exists origin. split_and!; [done..|apply Hle; cbn; lia|]. intros x (id & pdu & E & ?)%Hl. exists id, pdu. by rewrite E.
Qed.

(** ** What is not checked *)

(** C39: A server can send messages to devices in the name of users of other servers: the
    sender of a direct message is not compared with the server it comes from. *)
Theorem spoofed_to_device rounds fuel (b : Request (list Raw * list Raw)) origin edu (from target : UserId) ty mid dev raw
    (content : json) (l : list Raw) n :
  allow_federation = true → sender_servername b = Some origin → body b = ([], [edu]) →
  edu_of edu = Some (EDirectToDevice from ty mid [(target, [(Some dev, raw)])]) → user_server_name from ≠ origin →
  db_map (nd_db n) userdevicetxnid_response !! txn_key from None mid = None →
  from_slice (raw_text raw) = Some content →
  todevice_keyed (nd_db n) → count_ok (nd_db n) →
  (∀ u d c, is_Some (db_map (nd_db n) todeviceid_events !! todevice_key u d c) → c ≤ count (nd_db n)) →
  get_to_device_events target dev (nd_db n) = (Ok l, nd_db n) →
  ∃ n', send_transaction_message_route rounds fuel b n = (Ok ∅, n') ∧
    (get_to_device_events target dev (nd_db n')).1 = Ok (l ++ [to_raw_value (todevice_message from ty content)]).
Proof.
  intros Hf Ho Hb He _ Ht Hc Hk Hok Hmax Hl. unfold send_transaction_message_route, require_federation, the_server.
  rewrite Hf, bind_ret, Ho, Hb. cbn [expect]. rewrite bind_lift_Ok. cbn [fst snd for_fold].
  assert (filter_map edu_of [edu] = [EDirectToDevice from ty mid [(target, [(Some dev, raw)])]]) as -> by (cbn; by rewrite He).
  rewrite (bind_Ok _ _ _ () (set_pub_key_map [] n)) by done. rewrite bind_ret. cbn [for_each].
  destruct (add_to_device_event_order from target dev ty content l (nd_db n) Hk Hok Hmax Hl) as (H1 & H2 & _).
  destruct (add_to_device_event from target dev ty content (nd_db n)) as [o d1] eqn:E1. cbn [fst snd] in *. subst o.
  set (d2 := put userdevicetxnid_response (txn_key from None mid) [] d1).
  assert (to_device_edu from ty mid [(target, [(Some dev, raw)])] (nd_db n) = (Ok (), d2)) as E2.
  { unfold to_device_edu, existing_txnid. rewrite (bind_Ok _ _ _ _ _ (t_get_run _ _ _)), Ht. cbn [for_each].
    rewrite (bind_Ok _ _ _ () d1); [unfold add_txnid; by rewrite t_insert_run|].
    rewrite (bind_Ok _ _ _ () d1); [done|]. rewrite (bind_Ok _ _ _ () d1); [done|].
    unfold push_to_device. rewrite Hc. cbn [ok_or]. by rewrite bind_lift_Ok. }
  eexists. split.
  - rewrite (bind_Ok _ _ _ () (with_db d2 (set_pub_key_map [] n))); [done|].
    rewrite (bind_Ok _ _ _ () (with_db d2 (set_pub_key_map [] n))); [done|]. cbn [handle_edu]. by apply ondb_run.
  - change (nd_db (with_db ?d _)) with d. revert H2. unfold get_to_device_events, d2. do 2 db_step. db_simpl.
    unfold lift. by intros [= ->].
Qed.

(** A server that is in one room gets the ids of the state at an event of any room:
    only the room named in the request is checked. *)
Theorem state_of_any_event fuel (b : Request (RoomId * EventId)) origin h (state : gmap N EventId) (chain : list EventId) n d1 d2 d3 d4 :
  allow_federation = true → sender_servername b = Some origin →
  is_Some (db_map (nd_db n) serverroomids !! idkey origin (body b).1) →
  acl_check origin (body b).1 (nd_db n) = (Ok (), d1) →
  pdu_shortstatehash (body b).2 d1 = (Ok (Some h), d2) → state_full_ids h d2 = (Ok state, d3) →
  get_auth_chain fuel (body b).1 [(body b).2] d3 = (Ok (Some chain), d4) →
  get_room_state_ids_route fuel b n = (Ok (chain, snd <$> map_to_list state), with_db d4 n).
Proof.
  intros Hf Ho Hin E1 E2 E3 E4. unfold get_room_state_ids_route, require_federation, the_server, require_in_room.
  rewrite Hf, bind_ret, Ho. cbn [expect]. rewrite bind_lift_Ok.
  rewrite (bind_Ok _ _ _ () n).
  2: { rewrite (bind_Ok _ _ _ _ _ (ondb_read _ _ _ (server_in_room_run _ _ _))). by rewrite bool_decide_eq_true_2. }
  rewrite (bind_Ok _ _ _ _ _ (ondb_run _ _ _ _ E1)). unfold state_at_event, auth_chain_ids.
  rewrite (bind_Ok _ _ _ state (with_db d3 n)).
  2: { rewrite (bind_Ok _ _ _ _ _ (ondb_run _ (with_db d1 n) _ _ E2)). cbn [ok_or]. rewrite bind_lift_Ok.
    exact (ondb_run _ (with_db d2 n) _ _ E3). }
  rewrite (bind_Ok _ _ _ chain (with_db d4 n)); [done|].
  by rewrite (bind_Ok _ _ _ _ _ (ondb_run _ (with_db d3 n) _ _ E4)).
Qed.

(** This server signs whatever event another server calls an invitation: its type,
    its content, its room and the server of the invited user are not looked at. *)
Theorem invite_signs_any_event (b : Request InviteRequest) origin (event signed : CanonicalJsonObject) hash id inviter invited pdu n d :
  allow_federation = true → sender_servername b = Some origin → acl_check origin (iv_room_id (body b)) (nd_db n) = (Ok (), d) →
  iv_room_version (body b) ∈ supported_room_versions →
  from_slice (raw_text (iv_event (body b))) = Some event →
  hash_and_sign_event event (iv_room_version (body b)) = inl signed →
  reference_hash signed (iv_room_version (body b)) = Some hash → hash_event_id hash = Some id →
  canonical_get (lit "sender") signed = Some (id_value (inviter : UserId)) →
  canonical_get (lit "state_key") signed = Some (id_value (invited : UserId)) →
  pdu_of_canonical (canonical_insert (lit "event_id") (JStr (lit "$dummy")) event) = Some pdu →
  is_Some (db_map d serverroomids !! idkey server_name (iv_room_id (body b))) →
  create_invite_route b n =
    (Ok (convert_to_outgoing_federation_event (canonical_insert (lit "event_id") (id_value id) signed)), with_db d n).
Proof.
  intros Hf Ho E1 Hv He Hs Hh Hi Hse Hk Hp Hin. unfold create_invite_route, require_federation, the_server, user_field.
  rewrite Hf, bind_ret, Ho. cbn [expect]. rewrite bind_lift_Ok. cbv zeta. rewrite (bind_Ok _ _ _ _ _ (ondb_run _ _ _ _ E1)).
  rewrite bool_decide_eq_true_2 by done. cbn [negb]. rewrite He. cbn [ok_or]. rewrite bind_lift_Ok, Hs, bind_lift_Ok, Hh.
  cbn [expect]. rewrite bind_lift_Ok, Hi. cbn [expect]. rewrite bind_lift_Ok, !canonical_get_insert.
  rewrite !decide_False by by_compute. rewrite Hse, Hk. cbn [ok_or mbind res_bind option_bind as_string id_value].
  rewrite !parse_as_str. cbn [ok_or]. rewrite !bind_lift_Ok, Hp. cbn [ok_or]. rewrite bind_lift_Ok.
  rewrite (bind_Ok _ _ _ true (with_db d n)); [by rewrite bind_ret|].
  apply ondb_read. change (nd_db (with_db d n)) with d. rewrite server_in_room_run. by rewrite bool_decide_eq_true_2.
Qed.

(** One event of a room whose access list excludes the sending server makes the
    whole transaction fail: the events after it, of whatever room, and all
    ephemeral data are dropped. *)
Theorem transaction_acl_aborts rounds fuel (b : Request (list Raw * list Raw)) origin pdu value room v id n rest edus d1 d2 e :
  allow_federation = true → sender_servername b = Some origin → body b = (pdu :: rest, edus) →
  from_slice (raw_text pdu) = Some value → canonical_get (lit "room_id") value = Some (id_value (room : RoomId)) →
  get_room_version room (nd_db n) = (Ok v, d1) → gen_event_id_canonical_json pdu v = Ok (id, value) →
  acl_check origin room d1 = (Err e, d2) →
  ∃ n', send_transaction_message_route rounds fuel b n = (Err e, n') ∧ nagree [] n n'.
Proof.
  intros Hf Ho Hb Hv Hr E1 Hg E2. exists (with_db d2 (set_pub_key_map [] n)). split.
  - unfold send_transaction_message_route, require_federation, the_server. rewrite Hf, bind_ret, Ho, Hb. cbn [expect].
    rewrite bind_lift_Ok. rewrite (bind_Ok _ _ _ () (set_pub_key_map [] n)) by done. cbn [fst snd for_fold].
    rewrite (bind_run _ _ _ (Err e) (with_db d2 (set_pub_key_map [] n))); [done|].
    rewrite (bind_run _ _ _ (Err e) (with_db d2 (set_pub_key_map [] n))); [done|].
    unfold transaction_pdu. rewrite Hv. cbn [ok_or]. rewrite bind_lift_Ok, Hr. cbn [mbind option_bind as_string id_value].
    rewrite parse_as_str. rewrite (bind_Ok _ _ _ (Some v) (with_db d1 (set_pub_key_map [] n))).
    2: { unfold try_ok. by rewrite (ondb_run _ (set_pub_key_map [] n) _ _ E1). }
    rewrite Hg. by rewrite (bind_run _ _ _ _ _ (ondb_run _ (with_db d1 (set_pub_key_map [] n)) _ _ E2)).
  - assert (agree [] (nd_db n) d1) as A1.
    { eapply (preserves_inv (agree [])); [|exact E1]. unfold get_room_version. keeps_tac. }
    assert (agree [] d1 d2) as A2 by (eapply (preserves_inv (agree [])); [|exact E2]; unfold acl_check; keeps_tac).
    unfold nagree. change (nd_db (with_db ?d _)) with d. by etrans.
Qed.
End server_theorems.
