(* ===== verification/Sync.v ===== *)
(** * Synchronisation ([src/api/client_server/sync.rs])

    The route by which a client learns what happened since its last request: for
    every room it is in the new events of the timeline and the changes of the
    state, rooms it left or was invited to, devices that changed, messages to the
    device.  A task answers each request; the answer is kept for repeated requests
    with the same token. *)

From S2P Require Import Prelude Bytes RStr Decimal Error Utils KvTree Env Db Keys Globals Frames Short RoomState StateCompressor Pdu Timeline StateAccessor StateService Users StateCache DeviceKeys Edus RoomIndex ClientData EventFormat RoomUser OpFrames LazyLoading Lookups TimelineService Federation EventHandler Request Admin Account Membership Rooms RoomEvents.

Section sync.
Context {Ev : Env} {EL : EventLib} {TL : TimelineLib} {CL : ContentLib} {Out : Outside}.

(** ** The response *)

Record SyncTimeline := MkTimeline { tl_limited : bool; tl_prev_batch : option rstr; tl_events : list Raw }.
Record RoomSummary := MkSummary {
  su_heroes : list rstr;
  su_joined_member_count : option N;
  su_invited_member_count : option N
}.
Record JoinedRoom := MkJoined {
  jr_account_data : list Raw;
  jr_summary : RoomSummary;
  jr_highlight_count : option N;
  jr_notification_count : option N;
  jr_timeline : SyncTimeline;
  jr_state : list Raw;
  jr_ephemeral : list Raw
}.
Record LeftRoom := MkLeft { lf_timeline : SyncTimeline; lf_state : list Raw }.

Record SyncResponse := MkSync {
  sy_next_batch : rstr;
  sy_leave : gmap RoomId LeftRoom;
  sy_join : gmap RoomId JoinedRoom;
  sy_invite : gmap RoomId (list Raw);
  sy_presence : list Raw;
  sy_account_data : list Raw;
  sy_changed : list UserId;
  sy_left : list UserId;
  sy_one_time_keys : gmap rstr N;
  sy_to_device : list Raw
}.

Inductive SyncFilter := FilterId (filter_id : rstr) | Filter (filter : FilterDefinition).
Record SyncRequest := MkSyncRequest {
  sq_since : option rstr;
  sq_filter : option SyncFilter;
  sq_full_state : bool
}.

(** What the code uses of ruma: the lazy loading options of a filter ([Some] when
    enabled, with [include_redundant_members]), [JoinedRoom::is_empty], and events
    as raw JSON. *)
Class SyncLib := {
  default_filter : FilterDefinition;
  lazy_load_options : FilterDefinition → option bool;
  joined_room_is_empty : JoinedRoom → bool;
  typing_raw : gset UserId → Raw;
  presence_raw : PresenceEvent → Raw;
}.
Context {SyL : SyncLib}.

(** ** The timeline of a room *)

Definition after_token (since : N) (e : bytes * PduEvent) : bool :=
  match pdu_count e.1 with Ok count => bool_decide (since < count) | _ => false end.

(** The last ten events after the token, oldest first, and whether there are more. *)
Definition sync_timeline (sender_user : UserId) (room_id : RoomId) (since : N) : DB (list (bytes * PduEvent) * bool) :=
  last ← last_timeline_count sender_user room_id;
  if bool_decide (since < last) then
    l ← pdus_until sender_user room_id u64_max;
    let non_timeline_pdus := take_while (after_token since) (filter_map ok l) in
    mret (reverse (take 10 non_timeline_pdus), bool_decide (10 < length non_timeline_pdus)%nat)
  else mret ([], false).

(** ** Counts and heroes *)

(** The user of a member event who was and still is in the room or invited. *)
Definition hero_of (room_id : RoomId) (pdu : PduEvent) : DB (option rstr) :=
  match member_content (content pdu), state_key pdu with
  | Some c, Some state_key =>
      match parse_id valid_user_id state_key with
      | Some user_id =>
          if bool_decide (rm_membership c = MJoin ∨ rm_membership c = MInvite) then
            joined ← is_joined user_id room_id;
            invited ← (if (joined : bool) then mret true else is_invited user_id room_id);
            mret (if (invited : bool) then Some state_key else None)
          else mret None
      | None => mret None
      end
  | _, _ => mret None
  end.

Definition add_hero (sender_user : UserId) (room_id : RoomId) (heroes : list rstr) (pdu : PduEvent) : DB (list rstr) :=
  o ← hero_of room_id pdu;
  mret (match o with
        | Some hero =>
            if bool_decide (hero ∈ heroes ∨ hero = as_str sender_user) then heroes else heroes ++ [hero]
        | None => heroes
        end).

Definition calculate_counts (sender_user : UserId) (room_id : RoomId) : DB (option N * option N * list rstr) :=
  j ← room_joined_count room_id;
  i ← room_invited_count room_id;
  let joined_member_count := default 0 j in
  let invited_member_count := default 0 i in
  heroes ← (if bool_decide (joined_member_count + invited_member_count ≤ 5) then
              l ← all_pdus sender_user room_id;
              for_fold (filter (λ pdu, kind pdu = lit "m.room.member") (snd <$> filter_map ok l)) []
                (add_hero sender_user room_id)
            else mret []);
  mret (Some joined_member_count, Some invited_member_count, heroes).

(** ** The state of a room *)

(** An initial sync: all state, with lazy loading only the members that matter.  The
    order of the entries of a hash map is that of [map_to_list]. *)
Definition initial_state_event (sender_user : UserId) (lazy_load_enabled full_state : bool) (timeline_users : gset rstr)
    (acc : list PduEvent * gset UserId) (e : N * EventId) : DB (list PduEvent * gset UserId) :=
  k ← get_statekey_from_short e.1;
  let '(event_type, state_key) := (k : rstr * rstr) in
  if bool_decide (event_type ≠ lit "m.room.member") then
    o ← get_pdu e.2;
    mret (match o with Some pdu => (acc.1 ++ [pdu], acc.2) | None => acc end)
  else if negb lazy_load_enabled || full_state || bool_decide (state_key ∈ timeline_users)
          || bool_decide (as_str sender_user = state_key) then
    o ← get_pdu e.2;
    mret (match o with
          | Some pdu =>
              (acc.1 ++ [pdu],
               match parse_id valid_user_id state_key with Some uid => {[uid]} ∪ acc.2 | None => acc.2 end)
          | None => acc
          end)
  else mret acc.

(** An incremental sync: the entries that are not those of the old state. *)
Definition changed_state_event (full_state : bool) (since_state_ids : gmap N EventId)
    (acc : list PduEvent * gset UserId) (e : N * EventId) : DB (list PduEvent * gset UserId) :=
  if full_state || bool_decide (since_state_ids !! e.1 ≠ Some e.2) then
    o ← get_pdu e.2;
    match o with
    | None => mret acc
    | Some pdu =>
        if bool_decide (kind pdu = lit "m.room.member") then
          key ← lift (expect (state_key pdu) "State event has state key");
          mret (acc.1 ++ [pdu],
                match parse_id valid_user_id key with Some uid => {[uid]} ∪ acc.2 | None => acc.2 end)
        else mret (acc.1 ++ [pdu], acc.2)
    end
  else mret acc.

Definition state_changes (full_state : bool) (since_shortstatehash current_shortstatehash : N) :
    DB (list PduEvent * gset UserId) :=
  if bool_decide (since_shortstatehash ≠ current_shortstatehash) then
    current_state_ids ← state_full_ids current_shortstatehash;
    since_state_ids ← state_full_ids since_shortstatehash;
    for_fold (map_to_list current_state_ids) ([], ∅) (changed_state_event full_state since_state_ids)
  else mret ([], ∅).

(** The member events of the senders in the timeline that the device does not have. *)
Definition timeline_member (sender_user : UserId) (sender_device : DeviceId) (room_id : RoomId) (redundant : bool)
    (acc : list PduEvent * gset UserId) (event : PduEvent) : NM (list PduEvent * gset UserId) :=
  if bool_decide (sender event ∈ acc.2) then mret acc
  else
    sent ← on_lazy (LazyLoading.lazy_load_was_sent_before sender_user sender_device room_id (sender event));
    if negb sent || redundant then
      o ← ondb (room_state_get room_id (lit "m.room.member") (as_str (sender event)));
      mret (match o with
            | Some member_event => (acc.1 ++ [member_event], {[sender event]} ∪ acc.2)
            | None => acc
            end)
    else mret acc.

(** ** Devices of other users *)

(** [.any(|encrypted| encrypted)] over the shared rooms; a room whose state cannot be
    read is passed over. *)
Fixpoint any_encrypted (rooms : list RoomId) : DB bool :=
  match rooms with
  | [] => mret false
  | room :: rooms =>
      o ← try_ok (room_state_get room (lit "m.room.encryption") (lit ""));
      match o with
      | Some (Some _) => mret true
      | _ => any_encrypted rooms
      end
  end.

Definition share_encrypted_room (sender_user user_id : UserId) (ignore_room : RoomId) : DB bool :=
  l ← get_shared_rooms [sender_user; user_id];
  any_encrypted (filter (λ r : RoomId, r ≠ ignore_room) (filter_map ok l)).

(** A member event of an encrypted room: who is new, and who left. *)
Definition member_change (sender_user : UserId) (room_id : RoomId) (acc : gset UserId * gset UserId) (event : PduEvent) :
    DB (gset UserId * gset UserId) :=
  match (if bool_decide (kind event = lit "m.room.member") then state_key event else None) with
  | None => mret acc
  | Some key =>
      user_id ← lift (ok_or (parse_id valid_user_id key) (BadDatabase "Invalid UserId in member PDU."));
      if decide (user_id = sender_user) then mret acc
      else
        c ← lift (ok_or (member_content (content event)) (BadDatabase "Invalid PDU in database."));
        match rm_membership c with
        | MJoin =>
            shared ← share_encrypted_room sender_user user_id room_id;
            mret (if (shared : bool) then acc else ({[user_id]} ∪ acc.1, acc.2))
        | MLeave => mret (acc.1, {[user_id]} ∪ acc.2)
        | _ => mret acc
        end
  end.

Definition new_member (sender_user : UserId) (room_id : RoomId) (acc : gset UserId) (user_id : UserId) : DB (gset UserId) :=
  if decide (sender_user = user_id) then mret acc
  else
    shared ← try_ok (share_encrypted_room sender_user user_id room_id);
    mret (if default false shared then acc else {[user_id]} ∪ acc).

(** ** One joined room *)

(** What the rooms before have added. *)
Record SyncAcc := MkAcc {
  ac_joined : gmap RoomId JoinedRoom;
  ac_presence : gmap UserId PresenceEvent;
  ac_left_encrypted : gset UserId;
  ac_updates : gset UserId
}.

(** The part of the answer about the state, with the sets of users. *)
Record StatePart := MkStatePart {
  sp_counts : option N * option N * list rstr;
  sp_joined_since_last_sync : bool;
  sp_events : list PduEvent;
  sp_updates : gset UserId;
  sp_left_encrypted : gset UserId
}.

Record SyncOptions := MkOptions {
  so_user : UserId;
  so_device : DeviceId;
  so_since : N;
  so_next_batch : N;
  so_full_state : bool;
  so_lazy_load_enabled : bool;
  so_lazy_load_send_redundant : bool
}.

Definition initial_sync (o : SyncOptions) (room_id : RoomId) (timeline : list (bytes * PduEvent)) (current : N)
    (updates left_encrypted : gset UserId) : NM StatePart :=
  counts ← ondb (calculate_counts (so_user o) room_id);
  current_state_ids ← ondb (state_full_ids current);
  r ← ondb (for_fold (map_to_list current_state_ids) ([], ∅)
    (initial_state_event (so_user o) (so_lazy_load_enabled o) (so_full_state o)
      (list_to_set ((λ e, as_str (sender e.2)) <$> timeline))));
  let '(state_events, lazy_loaded) := (r : list PduEvent * gset UserId) in
  on_lazy (LazyLoading.lazy_load_reset (so_user o) (so_device o) room_id) ;;
  on_lazy (LazyLoading.lazy_load_mark_sent (so_user o) (so_device o) room_id lazy_loaded (so_next_batch o)) ;;
  mret (MkStatePart counts true state_events updates left_encrypted).

Definition incremental_sync (o : SyncOptions) (room_id : RoomId) (timeline : list (bytes * PduEvent)) (since current : N)
    (joined_since_last_sync : bool) (updates left_encrypted : gset UserId) : NM StatePart :=
  r ← ondb (state_changes (so_full_state o) since current);
  r ← for_fold (snd <$> timeline) r
    (timeline_member (so_user o) (so_device o) room_id (so_lazy_load_send_redundant o));
  let '(state_events, lazy_loaded) := (r : list PduEvent * gset UserId) in
  on_lazy (LazyLoading.lazy_load_mark_sent (so_user o) (so_device o) room_id lazy_loaded (so_next_batch o)) ;;
  e ← ondb (state_get current (lit "m.room.encryption") (lit ""));
  let encrypted_room := bool_decide (is_Some e) in
  since_encryption ← ondb (state_get since (lit "m.room.encryption") (lit ""));
  let new_encrypted_room := encrypted_room && bool_decide (since_encryption = None) in
  let send_member_count := existsb (λ e, bool_decide (kind e = lit "m.room.member")) state_events in
  r ← (if encrypted_room then ondb (for_fold state_events (updates, left_encrypted) (member_change (so_user o) room_id))
       else mret (updates, left_encrypted));
  let '(updates, left_encrypted) := (r : gset UserId * gset UserId) in
  updates ← (if joined_since_last_sync && encrypted_room || new_encrypted_room then
               l ← ondb (room_members room_id);
               ondb (for_fold (filter_map ok l) updates (new_member (so_user o) room_id))
             else mret updates);
  counts ← (if send_member_count then ondb (calculate_counts (so_user o) room_id) else mret (None, None, []));
  mret (MkStatePart counts joined_since_last_sync state_events updates left_encrypted).

(** The presence of a user in another room adds to the one found before. *)
Definition merge_presence (old new : PresenceEvent) : PresenceEvent :=
  let keep {A} (n o : option A) := match n with Some x => Some x | None => o end in
  {| pe_sender := pe_sender old; pe_presence := pe_presence new;
     pe_last_active_ago := keep (pe_last_active_ago new) (pe_last_active_ago old);
     pe_status_msg := keep (pe_status_msg new) (pe_status_msg old);
     pe_displayname := keep (pe_displayname new) (pe_displayname old);
     pe_avatar_url := keep (pe_avatar_url new) (pe_avatar_url old);
     pe_currently_active := keep (pe_currently_active new) (pe_currently_active old) |}.
Definition add_presences (m new : gmap UserId PresenceEvent) : gmap UserId PresenceEvent :=
  union_with (λ old new, Some (merge_presence old new)) m new.

(** [Raw::from_str] of account data. *)
Definition account_events (changes : gmap rstr Raw) : list Raw :=
  filter_map (λ v, from_slice (raw_text v)) (snd <$> map_to_list changes).

(** [try_into().expect(..)] of a count; [as u32]. *)
Definition count_of (message : string) (n : N) : res N := expect (to_uint n) message.
Definition as_u32 (n : N) : N := n mod 2 ^ 32.

Definition ephemeral_events (room_id : RoomId) (since : N) : DB (list Raw) :=
  receipts ← readreceipts_since room_id since;
  let edus := snd <$> filter_map ok receipts in
  last ← last_typing_update room_id;
  if bool_decide (since < last) then
    users ← typings_all room_id;
    mret (edus ++ [typing_raw users])
  else mret edus.

(** Did the user join after the token? *)
Definition joined_since (sender_user : UserId) (since_shortstatehash : option N) : DB bool :=
  member ← match since_shortstatehash with
           | Some h => state_get h (lit "m.room.member") (as_str sender_user)
           | None => mret None
           end;
  mret (bool_decide (rm_membership <$> (member ≫= λ pdu, member_content (content pdu)) ≠ Some MJoin)).

Definition sync_state (o : SyncOptions) (room_id : RoomId) (timeline : list (bytes * PduEvent)) (current : N)
    (updates left_encrypted : gset UserId) : NM StatePart :=
  since_shortstatehash ← ondb (get_token_shortstatehash room_id (so_since o));
  joined_since_last_sync ← ondb (joined_since (so_user o) since_shortstatehash);
  match since_shortstatehash with
  | Some since =>
      if (joined_since_last_sync : bool) then initial_sync o room_id timeline current updates left_encrypted
      else if bool_decide (timeline = [] ∧ since = current) then
        mret (MkStatePart (None, None, []) false [] updates left_encrypted)
      else incremental_sync o room_id timeline since current joined_since_last_sync updates left_encrypted
  | None => initial_sync o room_id timeline current updates left_encrypted
  end.

Definition prev_batch_of (timeline : list (bytes * PduEvent)) : res (option rstr) :=
  match timeline with
  | [] => Ok None
  | (pdu_id, _) :: _ => c ← pdu_count pdu_id; Ok (Some (u64_to_string c))
  end.

Definition sync_joined_room (o : SyncOptions) (acc : SyncAcc) (room_id : RoomId) : NM SyncAcc :=
  t ← ondb (sync_timeline (so_user o) room_id (so_since o));
  let '(timeline_pdus, limited) := (t : list (bytes * PduEvent) * bool) in
  send_notification_counts ← (if bool_decide (timeline_pdus ≠ []) then mret true
    else c ← ondb (last_notification_read (so_user o) room_id); mret (bool_decide (so_since o < c)));
  on_lazy (LazyLoading.lazy_load_confirm_delivery (so_user o) (so_device o) room_id (so_since o)) ;;
  current ← ondb (get_room_shortstatehash room_id);
  match current with
  | None => mret acc
  | Some current_shortstatehash =>
      part ← sync_state o room_id timeline_pdus current_shortstatehash (ac_updates acc) (ac_left_encrypted acc);
      changed ← ondb (keys_changed (as_str room_id) (so_since o) None);
      let updates : gset UserId := sp_updates part ∪ list_to_set (filter_map ok changed) in
      notification_count ← (if (send_notification_counts : bool) then
          n ← ondb (notification_count (so_user o) room_id);
          n ← lift (count_of "notification count can't go that high" n); mret (Some n)
        else mret None);
      highlight_count ← (if (send_notification_counts : bool) then
          n ← ondb (highlight_count (so_user o) room_id);
          n ← lift (count_of "highlight count can't go that high" n); mret (Some n)
        else mret None);
      prev_batch ← lift (prev_batch_of timeline_pdus);
      edus ← ondb (ephemeral_events room_id (so_since o));
      ondb (associate_token_shortstatehash room_id (so_next_batch o) current_shortstatehash) ;;
      changes ← ondb (changes_since (Some room_id) (so_user o) (so_since o));
      let joined_room := {|
        jr_account_data := account_events changes;
        jr_summary := MkSummary (sp_counts part).2 (as_u32 <$> (sp_counts part).1.1) (as_u32 <$> (sp_counts part).1.2);
        jr_highlight_count := highlight_count; jr_notification_count := notification_count;
        jr_timeline := MkTimeline (limited || sp_joined_since_last_sync part) prev_batch
          ((λ e, to_sync_room_event e.2) <$> timeline_pdus);
        jr_state := to_sync_state_event <$> sp_events part;
        jr_ephemeral := edus |} in
      presences ← ondb (presence_since room_id (so_since o));
      mret {| ac_joined := if joined_room_is_empty joined_room then ac_joined acc else <[room_id := joined_room]> (ac_joined acc);
              ac_presence := add_presences (ac_presence acc) presences;
              ac_left_encrypted := sp_left_encrypted part; ac_updates := updates |}
  end.

(** ** Rooms the user left or was invited to *)

Definition left_state_event (o : SyncOptions) (since_state_ids : gmap N EventId) (events : list Raw) (e : N * EventId) :
    DB (list Raw) :=
  if so_full_state o || bool_decide (since_state_ids !! e.1 ≠ Some e.2) then
    k ← get_statekey_from_short e.1;
    let '(event_type, state_key) := (k : rstr * rstr) in
    if negb (so_lazy_load_enabled o) || bool_decide (event_type ≠ lit "m.room.member") || so_full_state o
       || bool_decide (as_str (so_user o) = state_key) then
      p ← get_pdu e.2;
      mret (match p with Some pdu => events ++ [to_sync_state_event pdu] | None => events end)
    else mret events
  else mret events.

Definition sync_left_room (o : SyncOptions) (left_rooms : gmap RoomId LeftRoom) (r : res (RoomId * list Raw)) :
    DB (gmap RoomId LeftRoom) :=
  x ← lift r;
  let room_id := (x : RoomId * list Raw).1 in
  left_count ← get_left_count room_id (so_user o);
  if bool_decide (default 0 left_count ≤ so_since o) then mret left_rooms
  else
    known ← room_exists room_id;
    if negb known then mret left_rooms
    else
      since_shortstatehash ← get_token_shortstatehash room_id (so_since o);
      since_state_ids ← match since_shortstatehash with Some s => state_full_ids s | None => mret ∅ end;
      left_event_id ← room_state_get_id room_id (lit "m.room.member") (as_str (so_user o));
      match left_event_id with
      | None => mret left_rooms
      | Some left_event_id =>
          left_shortstatehash ← pdu_shortstatehash left_event_id;
          match left_shortstatehash with
          | None => mret left_rooms
          | Some left_shortstatehash =>
              left_state_ids ← state_full_ids left_shortstatehash;
              k ← get_or_create_shortstatekey (lit "m.room.member") (as_str (so_user o));
              events ← for_fold (map_to_list (<[k := left_event_id]> left_state_ids)) [] (left_state_event o since_state_ids);
              mret (<[room_id := MkLeft (MkTimeline false (Some (u64_to_string (so_next_batch o))) []) events]> left_rooms)
          end
      end.

Definition sync_invited_room (o : SyncOptions) (invited_rooms : gmap RoomId (list Raw)) (r : res (RoomId * list Raw)) :
    DB (gmap RoomId (list Raw)) :=
  x ← lift r;
  let '(room_id, invite_state_events) := (x : RoomId * list Raw) in
  invite_count ← get_invite_count room_id (so_user o);
  if bool_decide (default 0 invite_count ≤ so_since o) then mret invited_rooms
  else mret (<[room_id := invite_state_events]> invited_rooms).

(** The users whose devices no longer matter: no encrypted room is shared. *)
Definition device_left (sender_user : UserId) (acc : gset UserId) (user_id : UserId) : DB (gset UserId) :=
  l ← get_shared_rooms [sender_user; user_id];
  encrypted ← any_encrypted (filter_map ok l);
  mret (if (encrypted : bool) then acc else {[user_id]} ∪ acc).

(** ** The whole answer *)

Definition sync_filter (sender_user : UserId) (f : option SyncFilter) : DB FilterDefinition :=
  match f with
  | None => mret default_filter
  | Some (Filter filter) => mret filter
  | Some (FilterId filter_id) => o ← get_filter sender_user filter_id; mret (default default_filter o)
  end.

Definition nothing_new (r : SyncResponse) : bool :=
  bool_decide (sy_leave r = ∅) && bool_decide (sy_join r = ∅) && bool_decide (sy_invite r = ∅) &&
  bool_decide (sy_presence r = []) && bool_decide (sy_account_data r = []) && bool_decide (sy_changed r = []) &&
  bool_decide (sy_left r = []) && bool_decide (sy_to_device r = []).

(** The rooms: joined, left and invited, and the users whose devices no longer matter. *)
Definition sync_rooms (o : SyncOptions) : NM (SyncAcc * gmap RoomId LeftRoom * gmap RoomId (list Raw) * gset UserId) :=
  changed ← ondb (keys_changed (as_str (so_user o)) (so_since o) None);
  all_joined_rooms ← ondb (rooms_joined (so_user o));
  acc ← for_fold all_joined_rooms (MkAcc ∅ ∅ ∅ (list_to_set (filter_map ok changed))) (λ acc room_id,
    room_id ← lift room_id; sync_joined_room o acc room_id);
  all_left_rooms ← ondb (rooms_left (so_user o));
  left_rooms ← ondb (for_fold all_left_rooms ∅ (sync_left_room o));
  all_invited_rooms ← ondb (rooms_invited (so_user o));
  invited_rooms ← ondb (for_fold all_invited_rooms ∅ (sync_invited_room o));
  device_list_left ← ondb (for_fold (elements (ac_left_encrypted acc)) ∅ (device_left (so_user o)));
  mret (acc, left_rooms, invited_rooms, device_list_left).

Definition sync_since (req : SyncRequest) : N := default 0 (sq_since req ≫= u64_from_str).

(** The answer, and whether it may be kept.  (Waiting for news when there are none
    changes nothing.) *)
Definition sync_helper (sender_user : UserId) (sender_device : DeviceId) (req : SyncRequest) : NM (SyncResponse * bool) :=
  ondb (ping_presence sender_user) ;;
  next_batch ← ondb current_count;
  filter ← ondb (sync_filter sender_user (sq_filter req));
  let since := sync_since req in
  let o := {| so_user := sender_user; so_device := sender_device; so_since := since; so_next_batch := next_batch;
              so_full_state := sq_full_state req; so_lazy_load_enabled := bool_decide (is_Some (lazy_load_options filter));
              so_lazy_load_send_redundant := default false (lazy_load_options filter) |} in
  r ← sync_rooms o;
  let '(acc, left_rooms, invited_rooms, device_list_left) :=
    (r : SyncAcc * gmap RoomId LeftRoom * gmap RoomId (list Raw) * gset UserId) in
  ondb (remove_to_device_events sender_user sender_device since) ;;
  changes ← ondb (changes_since None sender_user since);
  counts ← ondb (count_one_time_keys sender_user sender_device);
  to_device ← ondb (get_to_device_events sender_user sender_device);
  let response := {|
    sy_next_batch := u64_to_string next_batch; sy_leave := left_rooms; sy_join := ac_joined acc; sy_invite := invited_rooms;
    sy_presence := presence_raw <$> (snd <$> map_to_list (ac_presence acc));
    sy_account_data := account_events changes; sy_changed := elements (ac_updates acc);
    sy_left := elements device_list_left; sy_one_time_keys := counts; sy_to_device := to_device |} in
  mret (response, negb (negb (sq_full_state req) && nothing_new response) && bool_decide (since ≠ next_batch)).

(** ** Answers that are kept *)

(** [sync_receivers]: by user and device the token of the latest request, and its
    answer; [None] if the task panicked before it sent one. *)
Record SyncNode := MkSyncNode {
  sn_node : Node;
  sync_receivers : gmap (UserId * DeviceId) (option rstr * option (SyncResponse + Error))
}.

(** The task of a request, from its start to the answer. *)
Definition sync_helper_wrapper (u : UserId) (d : DeviceId) (req : SyncRequest) (s : SyncNode) :
    option (SyncResponse + Error) * SyncNode :=
  let '(r, n) := sync_helper u d req (sn_node s) in
  let result := match r with Ok (resp, _) => Some (inl resp) | Err e => Some (inr e) | Panic _ => None end in
  let keep := match r with Ok (_, caching_allowed) => caching_allowed | _ => true end in
  (result, MkSyncNode n (if keep then <[(u, d) := (sq_since req, result)]> (sync_receivers s)
                         else delete (u, d) (sync_receivers s))).

Definition sync_events_route (b : Request SyncRequest) : M SyncNode SyncResponse := λ s,
  match sender_user b, sender_device b with
  | Some u, Some d =>
      let '(result, s') :=
        match sync_receivers s !! (u, d) with
        | Some (since, result) =>
            if decide (since = sq_since (body b)) then (result, s) else sync_helper_wrapper u d (body b) s
        | None => sync_helper_wrapper u d (body b) s
        end in
      (match result with
       | Some (inl response) => Ok response
       | Some (inr e) => Err e
       | None => Panic "When sync channel changes it's always set to some"
       end, s')
  | _, _ => (Panic "user is authenticated", s)
  end.
End sync.

(** ** What a sync changes *)

Section sync_frames.
Context {Ev : Env} {EL : EventLib} {TL : TimelineLib} {CL : ContentLib} {Out : Outside} {SyL : SyncLib}.

(** The lazy loading service as a program on the server. *)
Lemma on_lazy_keeps {A} ts (m : M LazyState A) :
  preserves (λ l l', agree ts (ll_db l) (ll_db l')) m → preserves (nagree ts) (on_lazy m).
Proof.
  intros H n. specialize (H (MkLazy (nd_db n) (nd_lazy n))). unfold on_lazy. by destruct (m _) as [r l].
Qed.
Lemma in_db_keeps {A} ts (m : DB A) : keeps ts m → preserves (λ l l', agree ts (ll_db l) (ll_db l')) (in_db m).
Proof. intros H l. specialize (H (ll_db l)). unfold in_db. by destruct (m (ll_db l)). Qed.

Lemma lazy_sent_before_keeps u d r x : preserves (nagree []) (on_lazy (LazyLoading.lazy_load_was_sent_before u d r x)).
Proof. apply on_lazy_keeps, in_db_keeps. unfold RoomIndex.lazy_load_was_sent_before. keeps_tac. Qed.
Lemma lazy_mark_keeps u d r xs c : preserves (nagree []) (on_lazy (LazyLoading.lazy_load_mark_sent u d r xs c)).
Proof. apply on_lazy_keeps. intros l t _. done. Qed.
Lemma lazy_reset_keeps u d r : preserves (nagree [lazyloadedids]) (on_lazy (LazyLoading.lazy_load_reset u d r)).
Proof. apply on_lazy_keeps, in_db_keeps. unfold RoomIndex.lazy_load_reset. keeps_tac. Qed.
Lemma lazy_confirm_keeps u d r c : preserves (nagree [lazyloadedids]) (on_lazy (LazyLoading.lazy_load_confirm_delivery u d r c)).
Proof.
  apply on_lazy_keeps. intros l. unfold LazyLoading.lazy_load_confirm_delivery, mbind, M_bind, gets, set_waiting, modify.
  cbn. destruct (_ !! _) as [xs|]; [|done].
  refine (in_db_keeps [lazyloadedids] (RoomIndex.lazy_load_confirm_delivery u d r (elements xs)) _ (MkLazy (ll_db l) _)).
  unfold RoomIndex.lazy_load_confirm_delivery. keeps_tac.
Qed.
Hint Resolve lazy_sent_before_keeps lazy_mark_keeps lazy_reset_keeps lazy_confirm_keeps : handler.

Lemma pdus_until_keeps u r c : keeps [] (pdus_until u r c).
Proof. unfold pdus_until, room_prefix. keeps_tac. Qed.
Lemma pdus_since_keeps u r c : keeps [] (pdus_since u r c).
Proof. unfold pdus_since, room_prefix. keeps_tac. Qed.
Hint Resolve pdus_until_keeps pdus_since_keeps state_full_ids_keeps get_statekey_from_short_keeps : keeps.
Lemma sync_timeline_keeps u r c : keeps [] (sync_timeline u r c).
Proof. unfold sync_timeline, last_timeline_count. keeps_tac. Qed.
Lemma calculate_counts_keeps u r : keeps [] (calculate_counts u r).
Proof.
  unfold calculate_counts, room_joined_count, room_invited_count, all_pdus, add_hero, hero_of, is_joined, is_invited. keeps_tac.
Qed.
Lemma get_shared_rooms_keeps l : keeps [] (get_shared_rooms l).
Proof. unfold get_shared_rooms. keeps_tac. Qed.
Lemma any_encrypted_keeps l : keeps [] (any_encrypted l).
Proof. induction l; cbn [any_encrypted]; keeps_tac. Qed.
Hint Resolve sync_timeline_keeps calculate_counts_keeps get_shared_rooms_keeps any_encrypted_keeps : keeps.
Lemma state_changes_keeps f a b : keeps [] (state_changes f a b).
Proof. unfold state_changes, changed_state_event. keeps_tac. Qed.
Lemma member_change_keeps u r acc e : keeps [] (member_change u r acc e).
Proof. unfold member_change, share_encrypted_room. keeps_tac. Qed.
Lemma new_member_keeps u r acc e : keeps [] (new_member u r acc e).
Proof. unfold new_member, share_encrypted_room. keeps_tac. Qed.
Lemma keys_changed_keeps x a b : keeps [] (keys_changed x a b).
Proof. unfold keys_changed. keeps_tac. Qed.
Lemma presence_since_keeps r c : keeps [] (presence_since r c).
Proof. unfold presence_since, add_presence, parse_presence_event. keeps_tac. Qed.
Lemma changes_since_keeps r u c : keeps [] (changes_since r u c).
Proof. unfold changes_since. keeps_tac. Qed.
Lemma ephemeral_keeps r c : keeps [] (ephemeral_events r c).
Proof. unfold ephemeral_events, readreceipts_since, last_typing_update, typings_all. keeps_tac. Qed.
Lemma get_token_keeps r c : keeps [] (get_token_shortstatehash r c).
Proof. unfold get_token_shortstatehash, room_short. keeps_tac. Qed.
Hint Resolve state_changes_keeps member_change_keeps new_member_keeps keys_changed_keeps presence_since_keeps
  changes_since_keeps ephemeral_keeps get_token_keeps : keeps.

Lemma sync_state_keeps o r t c a b : preserves (nagree [lazyloadedids]) (sync_state o r t c a b).
Proof.
  unfold sync_state, joined_since, initial_sync, incremental_sync, initial_state_event, timeline_member, room_members, scan_last.
  node_tac.
Qed.
Hint Resolve sync_state_keeps : handler.
Lemma sync_joined_room_keeps o acc r : preserves (nagree [lazyloadedids; roomsynctoken_shortstatehash]) (sync_joined_room o acc r).
Proof.
  unfold sync_joined_room, last_notification_read, notification_count, highlight_count, associate_token_shortstatehash, room_short.
  node_tac.
Qed.
Lemma sync_left_room_keeps o m x : keeps [global; statekey_shortstatekey; shortstatekey_statekey] (sync_left_room o m x).
Proof. unfold sync_left_room, get_left_count, room_exists, left_state_event, room_state_get_id. keeps_tac. Qed.
Lemma sync_invited_room_keeps o m x : keeps [] (sync_invited_room o m x).
Proof. unfold sync_invited_room, get_invite_count. keeps_tac. Qed.
Hint Resolve sync_joined_room_keeps : handler.
Hint Resolve sync_left_room_keeps sync_invited_room_keeps : keeps.

(** What a sync writes, apart from the messages it confirms. *)
Definition sync_trees : list TreeId :=
  [userid_lastpresenceupdate; lazyloadedids; roomsynctoken_shortstatehash; global; statekey_shortstatekey;
   shortstatekey_statekey].
Lemma sync_rooms_keeps o : preserves (nagree sync_trees) (sync_rooms o).
Proof. unfold sync_rooms, rooms_joined, rooms_left, rooms_invited, device_left. node_tac. Qed.
End sync_frames.

(** ** Theorems *)

(** On a sorted list, the beginning of the images is the images of the beginning. *)
Lemma take_while_omap {A B} (R : relation A) (g : A → option B) (P : B → bool) (Q : A → bool) (l : list A) :
  StronglySorted R l → (∀ x y, R x y → Q x = false → Q y = false) → (∀ x y, x ∈ l → g x = Some y → P y = Q x) →
  take_while P (omap g l) = omap g (filter (λ x, Q x = true) l).
Proof.
  intros Hs HR. induction Hs as [|x l Hs IH Hx]; intros HP; [done|]. rewrite filter_cons. cbn.
  assert (∀ y z, y ∈ l → g y = Some z → P z = Q y) as HP' by (intros; apply HP; [by right|done]).
  destruct (decide (Q x = true)) as [HQ|HQ].
  - cbn. destruct (g x) as [y|] eqn:Ey; [|by apply IH]. cbn. rewrite (HP x y), HQ by (done || by left). f_equal. by apply IH.
  - apply not_true_is_false in HQ.
    assert (∀ y, y ∈ l → Q y = false) as Hall.
    { intros y Hy. rewrite Forall_forall in Hx. by eapply HR; [apply Hx|]. }
    assert (filter (λ x, Q x = true) l = []) as ->.
    { destruct (filter _ l) as [|y l'] eqn:E; [done|]. assert (y ∈ filter (λ x, Q x = true) l) as Hy by (rewrite E; left).
      apply list_elem_of_filter in Hy as [Hy1 Hy2]. apply Hall in Hy2. congruence. }
    assert (∀ z, z ∈ omap g (x :: l) → P z = false) as Hz.
    { intros z (y & Hy & Ey)%list_elem_of_omap. rewrite (HP y z Hy Ey). apply elem_of_cons in Hy as [->|Hy]; auto. }
    change (match g x with Some y => y :: omap g l | None => omap g l end) with (omap g (x :: l)).
    destruct (omap g (x :: l)) as [|z l']; [done|]. cbn. by rewrite (Hz z) by left.
Qed.

Lemma filter_map_fmap {A B C} (f : B → option C) (g : A → B) (l : list A) : filter_map f (g <$> l) = omap (f ∘ g) l.
Proof. induction l as [|x l IH]; [done|]. cbn. unfold filter_map in IH. by rewrite IH. Qed.
Lemma omap_reverse {A B} (f : A → option B) (l : list A) : omap f (reverse l) = reverse (omap f l).
Proof.
  induction l as [|x l IH]; [done|]. rewrite reverse_cons, omap_app, IH.
  assert (omap f (x :: l) = omap f [x] ++ omap f l) as -> by (change (x :: l) with ([x] ++ l); apply omap_app).
  rewrite reverse_app. f_equal. cbn. by destruct (f x).
Qed.

Section sync_theorems.
Context {Ev : Env} {EL : EventLib} {TL : TimelineLib} {CL : ContentLib} {Out : Outside} {SyL : SyncLib}.
Implicit Types n : Node.
Implicit Types s : State.

(** *** The timeline *)

(** Is the entry after the token? *)
Definition entry_after (since : N) (e : entry) : bool :=
  match pdu_count e.1 with Ok c => bool_decide (since < c) | _ => false end.

Lemma visible_after u since e x : ok (visible_pdu u e) = Some x → after_token since x = entry_after since e.
Proof.
  unfold visible_pdu. destruct (parse_json _ _) as [p| |]; [|done..]. cbn.
  destruct (if decide _ then _ else _); [|done..]. cbn. by intros [= <-].
Qed.

(** The entries of a room, read backwards and cut at the token, are those read
    forwards from the token. *)
Lemma news_backward u (r : RoomId) num since s lb lf :
  u64 num → since + 1 < 2 ^ 64 →
  (∀ c v, u64 c → db_map s pduid_pdu !! pdu_id_of num c = Some v → c < u64_max) →
  StronglySorted (flip key_lt) lb →
  (∀ k v, (k, v) ∈ lb ↔ ∃ c, u64 c ∧ c < u64_max ∧ k = pdu_id_of num c ∧ db_map s pduid_pdu !! k = Some v) →
  StronglySorted key_lt lf →
  (∀ k v, (k, v) ∈ lf ↔ ∃ c, u64 c ∧ since < c ∧ k = pdu_id_of num c ∧ db_map s pduid_pdu !! k = Some v) →
  take_while (after_token since) (filter_map ok (visible_pdu u <$> lb)) =
  reverse (filter_map ok (visible_pdu u <$> lf)).
Proof.
  intros Hn Hs Hmax Sb Hb Sf Hf. rewrite !filter_map_fmap, <- omap_reverse.
  assert (∀ c, u64 c → ∀ v, entry_after since (pdu_id_of num c, v) = bool_decide (since < c)) as Hafter.
  { intros c Hc v. unfold entry_after. cbn [fst]. by rewrite pdu_count_of. }
  rewrite (take_while_omap (λ x y, flip key_lt x y ∧ x ∈ lb ∧ y ∈ lb) _ _ (entry_after since)).
  - f_equal. apply (StronglySorted_unique (flip key_lt)).
    + by apply StronglySorted_filter.
    + by apply StronglySorted_reverse.
    + intros [k v]. rewrite list_elem_of_filter, elem_of_reverse, Hb, Hf. split.
      * intros [Ha (c & Hc & _ & -> & Hv)]. rewrite Hafter in Ha by done. apply bool_decide_eq_true in Ha. by exists c.
      * intros (c & Hc & Hlt & -> & Hv). split; [rewrite Hafter by done; by apply bool_decide_eq_true|].
        exists c. split_and!; try done. by eapply Hmax.
  - assert (∀ l, (∀ x, x ∈ l → x ∈ lb) → StronglySorted (flip key_lt) l →
      StronglySorted (λ x y, flip key_lt x y ∧ x ∈ lb ∧ y ∈ lb) l) as H; [|by apply H].
    intros l Hl Sl. induction Sl as [|x l Sl IH Hx]; constructor.
    + apply IH. intros. apply Hl. by right.
    + rewrite Forall_forall in *. intros y Hy. split_and!; [by apply Hx|apply Hl; by left|apply Hl; by right].
  - intros [k v] [k' v'] (Hlt & (c & Hc & _ & -> & _)%Hb & (c' & Hc' & _ & -> & _)%Hb).
    rewrite !Hafter by done. unfold flip, key_lt in Hlt. cbn [fst] in Hlt. apply pdu_id_lt in Hlt; [|done..].
    rewrite !bool_decide_eq_false. lia.
  - intros e x _. apply visible_after.
Qed.

(** A stored event as a user is shown it: one's own events as they are, those of others without the
    transaction id. *)
Definition shown (u : UserId) (v : bytes) (p' : PduEvent) : Prop :=
  ∃ p, from_slice v = Some p ∧
    if decide (sender p = u) then p' = p
    else match unsigned p with
         | None => p' = p
         | Some t => ∃ m m' : list (rstr * Raw), from_slice t = Some m ∧ unsigned p' = Some (to_vec m') ∧
             (∀ k, obj_get k m' = if decide (k = lit "transaction_id") then None else obj_get k m) ∧
             set_unsigned (unsigned p) p' = p
         end.
(** A part of a timeline as a user is shown it; what cannot be read is left out. *)
Inductive Shown (u : UserId) : list entry → list (bytes * PduEvent) → Prop :=
  | shown_nil : Shown u [] []
  | shown_event k v p' entries events :
      shown u v p' → Shown u entries events → Shown u ((k, v) :: entries) ((k, p') :: events)
  | shown_broken k v entries events :
      (∀ p', ¬ shown u v p') → Shown u entries events → Shown u ((k, v) :: entries) events.

Lemma visible_shown u entries : Shown u entries (filter_map ok (visible_pdu u <$> entries)).
Proof.
  induction entries as [|[k v] entries IH]; [constructor|]. rewrite filter_map_fmap in *. cbn [omap list_omap compose].
  assert (∀ p, from_slice v = Some p → sender p ≠ u → ∀ t, unsigned p = Some t → (from_slice t : option (list (rstr * Raw))) = None →
    ∀ p', ¬ shown u v p') as Hno.
  { intros p Hp Hne t Ht Hf p' (q & Hq & H). rewrite Hp in Hq. injection Hq as <-. rewrite decide_False, Ht in H by done.
    destruct H as (m & m' & Hm & _). congruence. }
  unfold visible_pdu, parse_json. cbn [fst snd]. destruct (from_slice v) as [p|] eqn:Ep; cbn.
  2: { apply shown_broken; [|done]. intros p' (q & Hq & _). congruence. }
  destruct (decide (sender p = u)) as [Hu|Hu]; cbn.
  { apply shown_event; [|done]. exists p. split; [done|]. by rewrite decide_True. }
  unfold remove_transaction_id. destruct (unsigned p) as [t|] eqn:Et; cbn.
  2: { apply shown_event; [|done]. exists p. split; [done|]. by rewrite decide_False, Et. }
  destruct (from_slice t) as [m|] eqn:Em; cbn; [|by eapply shown_broken; [eapply Hno|]].
  apply shown_event; [|done]. exists p. split; [done|]. rewrite decide_False, Et by done.
  eexists m, _. split_and!; [done|done|intros k'; apply obj_get_remove|]. rewrite <- Et. by destruct p.
Qed.


(** *** The state *)

Lemma looked_up_good s s' : looked_up s s' → Good s → Good s' ∧ ∀ t, db_map s' t = db_map s t.
Proof. intros [A G] Hg. split; [auto|]. intros t. apply A, not_elem_of_nil. Qed.
Lemma stored_same s s' e : (∀ t, db_map s' t = db_map s t) → stored_pdu s' e = stored_pdu s e.
Proof. intros E. unfold stored_pdu. by rewrite !E. Qed.
Lemma get_pdu_reads e s o s' : Good s → get_pdu e s = (Ok o, s') → o = stored_pdu s e.
Proof.
  intros G E. destruct (get_pdu_run e s (good_pdus s G)) as (r & c & E' & _ & Hr). rewrite E in E'. injection E' as <- _.
  destruct (stored_pdu s e) as [p|]; [by injection Hr|]. destruct Hr as [[= ->]|[x [=]]]. done.
Qed.

(** The ids of a state: under the number of each state key the event of its entry. *)
Definition numbered_entry s (F : gset CompressedStateEvent) (sk : N) (e : EventId) : Prop :=
  ∃ c t k, c ∈ F ∧ entry_of s c t k e ∧ u64 sk ∧ take 8 (arr c) = to_be_bytes sk.
Lemma entry_same s s' c t k e : (∀ t, db_map s' t = db_map s t) → entry_of s' c t k e ↔ entry_of s c t k e.
Proof. intros E. unfold entry_of. by rewrite !E. Qed.

Lemma state_full_ids_looks h : looks (state_full_ids h).
Proof. unfold state_full_ids. looks_tac. Qed.
Lemma state_full_ids_inv h l s ids s' :
  Good s → layers s h l → state_wf s (full_of l) → state_full_ids h s = (Ok ids, s') →
  ∀ sk e, ids !! sk = Some e ↔ numbered_entry s (full_of l) sk e.
Proof.
  intros G Hl [Hone Hwf] H. unfold state_full_ids in H.
  destruct (full_state_run h l s Hl (sti_cache s (good_state s G))) as (c0 & E0 & _). rewrite (bind_Ok _ _ _ _ _ E0) in H.
  pose proof (preserves_inv _ _ _ _ _ (full_state_looks h) E0) as L0. set (s0 := set_stateinfo_cache c0 s) in *. clearbody s0.
  enough (∀ todo seen acc s1, list_to_set (seen ++ todo) = full_of l → looked_up s s1 →
    (∀ sk e, acc !! sk = Some e ↔ numbered_entry s (list_to_set seen) sk e) →
    for_fold todo acc (λ result compressed, parsed ← parse_compressed_state_event compressed; mret (<[parsed.1 := parsed.2]> result)) s1
      = (Ok ids, s') → ∀ sk e, ids !! sk = Some e ↔ numbered_entry s (full_of l) sk e) as Hgen.
  { apply (Hgen (elements (full_of l)) [] ∅ s0); [apply set_eq; intros x; set_solver|done| |done].
    intros sk e. rewrite lookup_empty. split; [done|]. intros (c & t & k & Hc & _). by apply elem_of_empty in Hc. }
  clear dependent s0 c0. induction todo as [|c todo IH]; intros seen acc s1 Hall L Hacc H; cbn [for_fold] in H.
  { injection H as <- _. rewrite app_nil_r in Hall. by rewrite <- Hall. }
  destruct (looked_up_good _ _ L G) as [G1 E1].
  assert (c ∈ full_of l) as Hc by (rewrite <- Hall; set_solver). destruct (Hwf c Hc) as (t & k & e & He).
  pose proof He as (sk & n & Ec & Hsk & Hn & _ & Hen).
  destruct (parse_compressed_run c sk n e s1) as (x & Ep & _); [apply G1|done..| |].
  { rewrite E1. apply (num_inverse _ _ _ (inv_events s (good_short s G))). done. }
  rewrite (bind_Ok _ _ _ (<[sk := e]> acc) (set_shorteventid_cache x s1)) in H by (by rewrite (bind_Ok _ _ _ _ _ Ep)).
  pose proof (preserves_inv _ _ _ _ _ (parse_compressed_state_event_looks c) Ep) as L1.
  assert (take 8 (arr c) = to_be_bytes sk) as Ht by (by rewrite Ec, take_app_length' by (by rewrite length_to_be_bytes)).
  eapply (IH (seen ++ [c])); [by rewrite <- app_assoc|by etrans| |exact H]. intros sk' e'. rewrite lookup_insert_Some. split.
  - intros [[<- <-]|[Hne (c' & t' & k' & Hc' & He')%Hacc]].
    + exists c, t, k. split_and!; [set_solver|done..].
    + exists c', t', k'. split; [set_solver|done].
  - intros (c' & t' & k' & Hc' & He' & Hsk' & Ht'). destruct (decide (sk = sk')) as [<-|Hne].
    + left. split; [done|]. assert (c' = c) as ->.
      { apply Hone; [rewrite <- Hall; set_solver|done|congruence]. }
      by destruct (entry_of_inj _ _ _ _ _ _ _ _ (good_short s G) He He') as (_ & _ & ?).
    + right. split; [done|]. apply Hacc. exists c', t', k'. split_and!; [|done..].
      assert (c' ≠ c); [|set_solver]. intros ->. rewrite Ht in Ht'. by apply to_be_bytes_inj in Ht'.
Qed.

Lemma has_numbered s F t k e : state_has s F t k e →
  ∃ sk, db_map s statekey_shortstatekey !! statekey_bytes t k = Some (to_be_bytes sk) ∧ u64 sk ∧ numbered_entry s F sk e.
Proof.
  intros (c & Hc & He). pose proof He as (sk & n & Ec & Hsk & _ & Hk & _). exists sk. split_and!; [done..|].
  exists c, t, k. split_and!; [done..|]. by eapply take8_entry.
Qed.
Lemma numbered_has s F sk e : numbered_entry s F sk e →
  ∃ t k, db_map s statekey_shortstatekey !! statekey_bytes t k = Some (to_be_bytes sk) ∧ state_has s F t k e.
Proof.
  intros (c & t & k & Hc & He & Hsk & Ht). pose proof He as (sk' & n & Ec & Hsk' & _ & Hk & _). exists t, k. split; [|by exists c].
  rewrite <- Ht, Ec, take_app_length' by (by rewrite length_to_be_bytes). done.
Qed.
(** The entries that are new are those whose event is not the one of their key before. *)
Lemma changed_has s (F0 F1 : gset CompressedStateEvent) (ids0 ids1 : gmap N EventId) e :
  Good s → (∀ sk e, ids0 !! sk = Some e ↔ numbered_entry s F0 sk e) → (∀ sk e, ids1 !! sk = Some e ↔ numbered_entry s F1 sk e) →
  (∃ sk, ids1 !! sk = Some e ∧ ids0 !! sk ≠ Some e) ↔ ∃ t k, state_has s F1 t k e ∧ ¬ state_has s F0 t k e.
Proof.
  intros G H0 H1. split.
  - intros (sk & E1%H1 & E0). assert (u64 sk) as Hu by (by destruct E1 as (? & ? & ? & ? & ? & ? & ?)). apply numbered_has in E1 as (t & k & Hk & Hh). exists t, k. split; [done|]. intros Hh0. apply E0, H0.
    apply has_numbered in Hh0 as (sk' & Hk' & Hsk' & Hn). rewrite Hk in Hk'. apply (inj Some) in Hk'.
    destruct Hn as (c & t' & k' & ? & ? & _ & ?). exists c, t', k'. split_and!; [done..|congruence].
  - intros (t & k & Hh1 & Hh0). apply has_numbered in Hh1 as (sk & Hk & Hsk & Hn). exists sk. split; [by apply H1|].
    intros (t' & k' & Hk' & Hh)%H0%numbered_has. apply Hh0.
    by pose proof (numbering_inj _ _ _ _ _ _ (inv_statekeys s (good_short s G)) Hk Hk') as [-> ->]%statekey_bytes_inj.
Qed.

Lemma changed_state_event_inv full ids0 acc e s acc' s' : Good s →
  changed_state_event full ids0 acc e s = (Ok acc', s') →
  looked_up s s' ∧
  (if full || bool_decide (ids0 !! e.1 ≠ Some e.2) then acc'.1 = acc.1 ++ option_list (stored_pdu s e.2) else acc' = acc) ∧
  (∀ x, x ∈ acc'.2 → x ∈ acc.2 ∨ ∃ p, p ∈ acc'.1 ∧ kind p = lit "m.room.member" ∧ (state_key p ≫= parse_id valid_user_id) = Some x).
Proof.
  intros G. unfold changed_state_event. destruct (full || _); [|intros [= <- <-]; split_and!; [reflexivity|done|auto]].
  intros H. run_inv H o s1 E. pose proof (preserves_inv _ _ _ _ _ (get_pdu_looks e.2) E) as L.
  pose proof (get_pdu_reads _ _ _ _ G E) as <-. destruct o as [pdu|]; [|injection H as <- <-; cbn; rewrite app_nil_r; split_and!; [done..|auto]].
  case_bool_decide as Hk; [lift_inv H key Ek|]; injection H as <- <-; cbn; (split_and!; [done..|]); [|auto].
  intros x Hx. destruct (parse_id valid_user_id key) as [uid|] eqn:Eu; [|auto]. apply elem_of_union in Hx as [->%elem_of_singleton|?]; [|auto].
  right. exists pdu. split; [set_solver|]. split; [done|]. unfold expect in Ek. destruct (state_key pdu); [|done]. by injection Ek as ->.
Qed.

(** The events have a member event of the user. *)
Definition member_told (events : list PduEvent) (x : UserId) : Prop :=
  ∃ p, p ∈ events ∧ kind p = lit "m.room.member" ∧ (state_key p ≫= parse_id valid_user_id) = Some x.

Lemma changed_states_inv full ids0 l acc s acc' s' : Good s →
  for_fold l acc (changed_state_event full ids0) s = (Ok acc', s') →
  looked_up s s' ∧
  (∀ pdu, pdu ∈ acc'.1 ↔ pdu ∈ acc.1 ∨ ∃ e, e ∈ l ∧ (full = true ∨ ids0 !! e.1 ≠ Some e.2) ∧ stored_pdu s e.2 = Some pdu) ∧
  ((∀ x, x ∈ acc.2 → member_told acc.1 x) → ∀ x, x ∈ acc'.2 → member_told acc'.1 x).
Proof.
  revert acc s. induction l as [|e l IH]; intros acc s G H; cbn [for_fold] in H.
  { injection H as <- <-. split_and!; [done| |done]. intros pdu. split; [auto|]. intros [?|(e & ?%not_elem_of_nil & _)]; done. }
  run_inv H acc1 s1 E. apply changed_state_event_inv in E as (L & Ea & Em); [|done]. destruct (looked_up_good _ _ L G) as [G1 E1].
  apply IH in H as (L' & Hin & Hm); [|done].
  assert (∀ pdu, pdu ∈ acc1.1 ↔ pdu ∈ acc.1 ∨ (full = true ∨ ids0 !! e.1 ≠ Some e.2) ∧ stored_pdu s e.2 = Some pdu) as Ha.
  { intros pdu. assert (full || bool_decide (ids0 !! e.1 ≠ Some e.2) = true ↔ full = true ∨ ids0 !! e.1 ≠ Some e.2) as Hb
      by (rewrite orb_true_iff, bool_decide_eq_true; done).
    rewrite <- Hb. clear Hb. destruct (full || _).
    - assert (pdu ∈ option_list (stored_pdu s e.2) ↔ stored_pdu s e.2 = Some pdu) as Ho
        by (destruct (stored_pdu s e.2); cbn; [rewrite list_elem_of_singleton|rewrite elem_of_nil]; split; congruence || done).
      rewrite Ea, elem_of_app, Ho. clear. intuition.
    - subst acc1. clear. intuition done. }
  split_and!; [by etrans| |].
  - intros pdu. rewrite Hin, Ha. setoid_rewrite elem_of_cons. setoid_rewrite (stored_same s s1 _ E1). clear. split.
    + intros [[?|?]|(e' & ? & ?)]; [auto|right; exists e; auto|right; exists e'; auto].
    + intros [?|(e' & [->|?] & ?)]; [auto|auto|right; exists e'; auto].
  - intros H0. apply Hm. intros x Hx. apply Em in Hx as [(p & Hp & ?)%H0|(p & Hp & ?)]; exists p; (split; [|done]); [|done].
    apply Ha. by left.
Qed.

(** The event of a state key in the current state of a room. *)
Lemma state_get_id_looks h t k : looks (state_get_id h t k).
Proof. unfold state_get_id. looks_tac. Qed.
Lemma state_get_reads h l t k s o s' :
  Good s → layers s h l → state_wf s (full_of l) → state_get h t k s = (Ok o, s') →
  ∀ pdu, o = Some pdu ↔ ∃ e, state_has s (full_of l) t k e ∧ stored_pdu s e = Some pdu.
Proof.
  intros G Hl Hwf H pdu. unfold state_get in H.
  destruct (state_get_id_run h l t k s (good_short s G) (sti_cache s (good_state s G)) (good_count s G) Hl Hwf) as (x & s1 & E & Hx).
  rewrite (bind_Ok _ _ _ _ _ E) in H. destruct (looked_up_good s s1) as [G1 E1]; [exact (preserves_inv _ _ _ _ _ (state_get_id_looks h t k) E)|done|].
  destruct x as [e|].
  - apply get_pdu_reads in H as ->; [|done]. rewrite (stored_same s s1 _ E1). pose proof (proj1 (Hx e) eq_refl) as He. split; [eauto|].
    intros (e' & He' & Hp). by rewrite (state_has_fun s _ t k e e' (good_short s G) (proj1 Hwf) He He').
  - injection H as <- _. split; [done|]. intros (e & He%Hx & _). done.
Qed.

Lemma wf_same s s' F : (∀ t, db_map s' t = db_map s t) → state_wf s F → state_wf s' F.
Proof.
  intros E [H1 H2]. split; [done|]. intros c Hc. destruct (H2 c Hc) as (t & k & e & He). exists t, k, e. by apply (entry_same s s').
Qed.
Lemma has_same s s' F t k e : (∀ t, db_map s' t = db_map s t) → state_has s' F t k e ↔ state_has s F t k e.
Proof. intros E. unfold state_has. by setoid_rewrite (entry_same s s' _ _ _ _ E). Qed.

(** The loop over the timeline: members that the device may not know. *)
Section timeline_members.
Context (u : UserId) (d : DeviceId) (r : RoomId) (redundant : bool) (n0 : Node) (current : N) (l : list StateInfo).
Context (G : Good (nd_db n0)) (Hroom : get_room_shortstatehash r (nd_db n0) = (Ok (Some current), nd_db n0)).
Context (Hl : layers (nd_db n0) current l) (Hwf : state_wf (nd_db n0) (full_of l)).

(** The stored member event of a user in the current state. *)
Definition current_member (x : UserId) (pdu : PduEvent) : Prop :=
  ∃ e, state_has (nd_db n0) (full_of l) (lit "m.room.member") (as_str x) e ∧ stored_pdu (nd_db n0) e = Some pdu.
Definition device_knows (x : UserId) : Prop :=
  is_Some (db_map (nd_db n0) lazyloadedids !! (lazy_prefix u d r ++ idb x)).
Definition told (acc : list PduEvent * gset UserId) : Prop :=
  ∀ x, x ∈ acc.2 → member_told acc.1 x ∨ ∃ pdu, current_member x pdu ∧ pdu ∈ acc.1.

Lemma timeline_member_inv acc ev n acc' n' :
  looked_up (nd_db n0) (nd_db n) → timeline_member u d r redundant acc ev n = (Ok acc', n') → told acc →
  looked_up (nd_db n0) (nd_db n') ∧ told acc' ∧ acc.1 ⊆ acc'.1 ∧ acc.2 ⊆ acc'.2 ∧
  (∀ pdu, pdu ∈ acc'.1 → pdu ∈ acc.1 ∨ current_member (sender ev) pdu) ∧
  (¬ device_knows (sender ev) → ∀ pdu, current_member (sender ev) pdu → sender ev ∈ acc'.2).
Proof using G Hroom Hl Hwf.
  intros L H Ht. unfold timeline_member in H. case_bool_decide as Hin; [injection H as <- <-; split_and!; auto|].
  destruct (looked_up_good _ _ L G) as [G1 E1].
  assert (on_lazy (LazyLoading.lazy_load_was_sent_before u d r (sender ev)) n = (Ok (bool_decide (device_knows (sender ev))), n)) as Es.
  { unfold on_lazy, LazyLoading.lazy_load_was_sent_before, RoomIndex.lazy_load_was_sent_before, in_db, mbind, M_bind.
    cbn [ll_db lazy_load_waiting]. rewrite t_get_run, E1. cbn. unfold device_knows. by destruct n as [[[]]]. }
  rewrite (bind_Ok _ _ _ _ _ Es) in H. destruct (negb _ || redundant) eqn:Eb.
  - run_inv H o n1 E. apply ondb_inv in E as (s1 & E & ->). injection H as <- <-.
    pose proof (preserves_inv _ _ _ _ _ (room_state_get_looks r _ _) E) as L1.
    unfold room_state_get in E. rewrite (bind_Ok _ _ _ _ _ (get_room_shortstatehash_same r _ (nd_db n0) (nd_db n) (E1 _) Hroom)) in E.
    assert (∀ pdu, o = Some pdu ↔ current_member (sender ev) pdu) as Ho.
    { intros pdu. rewrite (state_get_reads current l (lit "m.room.member") (as_str (sender ev)) (nd_db n) o s1 G1); [|eapply layers_mono, Hl; by rewrite E1|by apply (wf_same (nd_db n0))|done].
      unfold current_member. by setoid_rewrite (has_same (nd_db n0) (nd_db n) _ _ _ _ E1); setoid_rewrite (stored_same (nd_db n0) (nd_db n) _ E1). }
    split; [by etrans|]. destruct o as [m|].
    + pose proof (proj1 (Ho m) eq_refl) as Hm. split_and!.
      * intros x. cbn. intros [->%elem_of_singleton|Hx]%elem_of_union; [right; exists m; split; [done|set_solver]|].
        destruct (Ht x Hx) as [(p & Hp & ?)|(p & ? & Hp)]; [left|right]; exists p; split_and?; try done; set_solver.
      * set_solver.
      * set_solver.
      * intros pdu. cbn. intros [?| ->%list_elem_of_singleton]%elem_of_app; auto.
      * set_solver.
    + split_and!; [done..|auto|]. intros _ pdu Hp%Ho. done.
  - injection H as <- <-. apply orb_false_iff in Eb as [Eb _]. apply negb_false_iff, bool_decide_eq_true in Eb. split_and!; auto. done.
Qed.

Lemma timeline_members_inv evs acc n acc' n' :
  looked_up (nd_db n0) (nd_db n) → for_fold evs acc (timeline_member u d r redundant) n = (Ok acc', n') → told acc →
  told acc' ∧ acc.1 ⊆ acc'.1 ∧ acc.2 ⊆ acc'.2 ∧
  (∀ pdu, pdu ∈ acc'.1 → pdu ∈ acc.1 ∨ ∃ ev, ev ∈ evs ∧ current_member (sender ev) pdu) ∧
  (∀ ev pdu, ev ∈ evs → ¬ device_knows (sender ev) → current_member (sender ev) pdu → sender ev ∈ acc'.2).
Proof using G Hroom Hl Hwf.
  revert acc n. induction evs as [|ev evs IH]; intros acc n L H Ht; cbn [for_fold] in H.
  { injection H as <- <-. split_and!; auto. by intros ev pdu ?%not_elem_of_nil. }
  run_inv H acc1 n1 E. apply timeline_member_inv in E as (L1 & Ht1 & Hs1 & Hm1 & Hi1 & Hk1); [|done..].
  apply IH in H as (Ht' & Hs & Hm & Hi & Hk); [|done..]. split_and!; [done|set_solver|set_solver|..].
  - intros pdu [Hp|(ev' & ? & ?)]%Hi; [|right; exists ev'; split; [by right|done]].
    apply Hi1 in Hp as [?|?]; [by left|right; exists ev; split; [by left|done]].
  - intros ev' pdu [->|?]%elem_of_cons Hd Hc; [|by eapply Hk]. eapply Hm, Hk1; done.
Qed.
End timeline_members.

(** The changes between two states. *)
Lemma state_changes_inv full since current s l0 l1 r s' :
  Good s → layers s current l1 → state_wf s (full_of l1) → layers s since l0 → state_wf s (full_of l0) →
  state_changes full since current s = (Ok r, s') →
  looked_up s s' ∧ (∀ x, x ∈ r.2 → member_told r.1 x) ∧
  (∀ t k e pdu, state_has s (full_of l1) t k e → ¬ state_has s (full_of l0) t k e → stored_pdu s e = Some pdu → pdu ∈ r.1) ∧
  (∀ pdu, pdu ∈ r.1 → ∃ t k e, state_has s (full_of l1) t k e ∧ (full = true ∨ ¬ state_has s (full_of l0) t k e) ∧
     stored_pdu s e = Some pdu).
Proof.
  intros G L1 W1 L0 W0 H. unfold state_changes in H. case_bool_decide as Hne.
  - run_inv H ids1 s1 E1. run_inv H ids0 s2 E0.
    pose proof (preserves_inv _ _ _ _ _ (state_full_ids_looks current) E1) as K1. destruct (looked_up_good _ _ K1 G) as [G1 D1].
    pose proof (preserves_inv _ _ _ _ _ (state_full_ids_looks since) E0) as K0. destruct (looked_up_good _ _ K0 G1) as [G2 D2].
    pose proof (state_full_ids_inv _ _ _ _ _ G L1 W1 E1) as H1.
    assert (∀ sk e, ids0 !! sk = Some e ↔ numbered_entry s (full_of l0) sk e) as H0.
    { intros sk e. rewrite (state_full_ids_inv since l0 s1 ids0 s2 G1); [|eapply layers_mono, L0; by rewrite D1|by apply (wf_same s)|done].
      unfold numbered_entry. by setoid_rewrite (entry_same s s1 _ _ _ _ D1). }
    apply changed_states_inv in H as (K & Hin & Hm); [|done]. split_and!.
    + by do 2 (etrans; [eassumption|]).
    + apply Hm. by intros x ?%elem_of_empty.
    + intros t k e pdu Hh1 Hh0 Hp. apply Hin. right.
      destruct (proj2 (changed_has s _ _ _ _ e G H0 H1)) as (sk & I1 & I0); [eauto|]. exists (sk, e).
      split; [by apply elem_of_map_to_list|]. split; [by right|]. cbn. rewrite (stored_same s s2); [done|]. intros x. by rewrite D2.
    + intros pdu [?%not_elem_of_nil|([sk e] & I1%elem_of_map_to_list & Hc & Hp)]%Hin; [done|]. cbn [fst snd] in *.
      rewrite (stored_same s s2) in Hp by (intros x; by rewrite D2). destruct Hc as [Hf|Hc].
      * apply H1, numbered_has in I1 as (t & k & _ & Hh). exists t, k, e. auto.
      * destruct (proj1 (changed_has s _ _ _ _ e G H0 H1)) as (t & k & Hh1 & Hh0); [eauto|]. exists t, k, e. auto.
  - subst current. injection H as <- <-. rewrite (layers_fun _ _ _ _ L1 L0). split_and!; [reflexivity|..].
    + by intros x ?%elem_of_empty.
    + done.
    + by intros pdu ?%not_elem_of_nil.
Qed.


(** A request for the full state gets no state when nothing has changed. *)
Theorem full_state_ignored o r current a b n d :
  so_full_state o = true → get_token_shortstatehash r (so_since o) (nd_db n) = (Ok (Some current), nd_db n) →
  joined_since (so_user o) (Some current) (nd_db n) = (Ok false, d) →
  sync_state o r [] current a b n = (Ok (MkStatePart (None, None, []) false [] a b), with_db d n).
Proof.
  intros _ E1 E2. unfold sync_state. rewrite (bind_Ok _ _ _ _ _ (ondb_read _ _ _ E1)), (bind_Ok _ _ _ _ _ (ondb_run _ _ _ _ E2)).
  by rewrite bool_decide_eq_true_2.
Qed.

(** The sync after a join does not announce the devices of the members of the room,
    encrypted or not. *)
Theorem joined_room_devices o r t current a b n part n' :
  initial_sync o r t current a b n = (Ok part, n') → sp_updates part = a ∧ sp_left_encrypted part = b.
Proof.
  unfold initial_sync. intros H. run_inv H c n1 E1. run_inv H ids n2 E2. run_inv H x n3 E3. destruct x as [ev ll].
  run_inv H y n4 E4. run_inv H z n5 E5. by injection H as <- _.
Qed.

(** *** Messages to the device *)

Lemma u64_from_str_bound x c : u64_from_str x = Some c → u64 c.
Proof.
  unfold u64_from_str. cbv zeta.
  generalize (match as_bytes x with b :: bs => if bool_decide (b = x2b) then bs else b :: bs | [] => [] end). intros ds.
  destruct (_ && bool_decide (decimal_value 0 ds < 2 ^ 64)) eqn:E; [|done]. intros [= <-].
  apply andb_true_iff in E as [_ E]. by apply bool_decide_eq_true in E.
Qed.

Lemma remove_until_keeps c l : keeps [todeviceid_events] (remove_until c l).
Proof. induction l; cbn [remove_until]; keeps_tac. Qed.

(** C29: A sync confirms the messages to the device up to its token, which are removed,
    and hands out all later ones; it changes no event, no state, no membership and
    no account data. *)
Theorem sync_to_device u d req n resp keep n' :
  sync_helper u d req n = (Ok (resp, keep), n') → todevice_keyed (nd_db n) →
  (get_to_device_events u d (nd_db n')).1 = Ok (sy_to_device resp) ∧
  (∀ c, u64 c → c ≤ sync_since req → db_map (nd_db n') todeviceid_events !! todevice_key u d c = None) ∧
  (∀ u' d' c, u64 c → (u', d') ≠ (u, d) ∨ sync_since req < c →
     db_map (nd_db n') todeviceid_events !! todevice_key u' d' c = db_map (nd_db n) todeviceid_events !! todevice_key u' d' c) ∧
  (∀ t, t ∉ todeviceid_events :: sync_trees → db_map (nd_db n') t = db_map (nd_db n) t).
Proof.
  unfold sync_helper. intros H Hk. run_inv H x n1 E1. run_inv H nb n2 E2. run_inv H f n3 E3. cbv zeta in H.
  run_inv H r n4 E4. destruct r as [[[acc lr] ir] dl]. run_inv H y n5 E5. run_inv H ch n6 E6. run_inv H cs n7 E7.
  run_inv H td n8 E8. injection H as <- _ <-. cbn [sy_to_device].
  assert (nagree sync_trees n n4) as A.
  { apply (preserves_inv (nagree sync_trees)) in E1; [|unfold ping_presence; node_tac].
    apply (preserves_inv (nagree sync_trees)) in E2; [|node_tac].
    apply (preserves_inv (nagree sync_trees)) in E3; [|unfold sync_filter, get_filter; node_tac].
    apply (preserves_inv _ _ _ _ _ (sync_rooms_keeps _)) in E4. by do 3 (etrans; [eassumption|]). }
  assert (nagree [] n5 n7) as B.
  { apply (preserves_inv (nagree [])) in E6; [|unfold changes_since; node_tac].
    apply (preserves_inv (nagree [])) in E7; [|unfold count_one_time_keys, count_entry; node_tac]. by etrans. }
  assert (u64 (sync_since req)) as Hs.
  { unfold sync_since. destruct (sq_since req ≫= u64_from_str) as [c|] eqn:E; [|done]. cbn.
    apply bind_Some in E as (t & _ & E). by eapply u64_from_str_bound. }
  assert (todevice_keyed (nd_db n4)) as Hk4 by (intros k v; rewrite (A todeviceid_events) by by_compute; apply Hk).
  destruct (remove_to_device_events_correct u d (sync_since req) (nd_db n4) Hk4 Hs) as (_ & R1 & R2).
  apply ondb_inv in E5 as (d5 & E5 & ->). rewrite E5 in R1, R2. cbn [snd] in R1, R2.
  assert (nd_db n8 = nd_db n7 ∧ (get_to_device_events u d (nd_db n7)).1 = Ok td) as [-> Htd].
  { apply ondb_inv in E8 as (d8 & E8 & ->). rewrite E8. split; [|done]. change (nd_db (with_db ?d _)) with d.
    unfold get_to_device_events in E8. revert E8. db_step. by intros [= _ <-]. }
  split; [exact Htd|]. split_and!.
  - intros c Hc Hle. rewrite (B todeviceid_events) by by_compute. by apply R1.
  - intros u' d' c Hc Hd. rewrite (B todeviceid_events) by by_compute. change (nd_db (with_db ?d _)) with d.
    rewrite (R2 u' d' c Hc Hd). by rewrite (A todeviceid_events) by by_compute.
  - intros t Ht. apply not_elem_of_cons in Ht as [Ht1 Ht2]. rewrite (B t) by apply not_elem_of_nil.
    change (nd_db (with_db ?d _)) with d. rewrite <- (A t Ht2).
    assert (keeps [todeviceid_events] (remove_to_device_events u d (sync_since req))) as K
      by (unfold remove_to_device_events; pose proof remove_until_keeps; keeps_tac; auto).
    apply (preserves_inv _ _ _ _ _ K) in E5. apply E5. set_solver.
Qed.

(** *** Kept answers *)

(** An error of a sync is kept: as long as the device asks with the same token, and
    it has no newer one, it gets the same error again, whatever has changed on the
    server. *)
Theorem sync_error_sticky (b b' : Request SyncRequest) (s : SyncNode) u d e n (n2 : Node) :
  sender_user b = Some u → sender_device b = Some d →
  (∀ x, sync_receivers s !! (u, d) = Some x → x.1 ≠ sq_since (body b)) →
  sync_helper u d (body b) (sn_node s) = (Err e, n) →
  sender_user b' = Some u → sender_device b' = Some d → sq_since (body b') = sq_since (body b) →
  ∃ receivers, sync_events_route b s = (Err e, MkSyncNode n receivers) ∧
    sync_events_route b' (MkSyncNode n2 receivers) = (Err e, MkSyncNode n2 receivers).
Proof.
  intros Hu Hd Hr E Hu' Hd' Hs. exists (<[(u, d) := (sq_since (body b), Some (inr e))]> (sync_receivers s)).
  unfold sync_events_route. rewrite Hu, Hd, Hu', Hd'. cbn [sync_receivers]. rewrite lookup_insert_eq, decide_True by done.
  split; [|done].
  assert (sync_helper_wrapper u d (body b) s =
    (Some (inr e), MkSyncNode n (<[(u, d) := (sq_since (body b), Some (inr e))]> (sync_receivers s)))) as W
    by (unfold sync_helper_wrapper; by rewrite E).
  destruct (sync_receivers s !! (u, d)) as [[since result]|]; [|by rewrite W].
  rewrite decide_False by (exact (Hr _ eq_refl)). by rewrite W.
Qed.
End sync_theorems.
