(* ===== verification/KeysApi.v ===== *)
(** * Routes for end-to-end encryption keys ([src/api/client_server/keys.rs],
    [get_keys_route] and [claim_keys_route] of [src/api/server_server.rs])

    Uploading device keys, one-time keys, cross-signing keys and signatures,
    asking for the keys of users of any server, claiming one-time keys, and the
    list of users whose keys changed.  Other servers are asked for the keys of
    their users; their answers come in the order of the questions. *)

From S2P Require Import Prelude Bytes RStr Decimal Error Utils KvTree Env Db Keys Globals Frames Short Timeline StateAccessor Users StateCache DeviceKeys Uiaa OpFrames Federation EventFormat TimelineService EventHandler Request Admin Account ServerServer.

Section keys_api.
Context {Ev : Env} {Out : Outside}.

(** ** Uploads *)

Definition upload_keys_route (b : Request (list (DeviceKeyId * Raw) * option Raw)) : NM (gmap rstr N) :=
  sender_user ← the_user b;
  sender_device ← the_device b;
  for_each (body b).1 (λ k, ondb (add_one_time_key sender_user sender_device k.1 k.2)) ;;
  match (body b).2 with
  | Some device_keys =>
      o ← ondb (get_device_keys sender_user sender_device);
      match o with
      | None => ondb (add_device_keys sender_user sender_device device_keys)
      | Some _ => mret ()
      end
  | None => mret ()
  end ;;
  ondb (count_one_time_keys sender_user sender_device).

Record SigningKeysRequest := MkSigningKeysRequest {
  su_master_key : option Raw;
  su_self_signing_key : option Raw;
  su_user_signing_key : option Raw;
  su_auth : option AuthData
}.

Definition upload_signing_keys_route (b : Request SigningKeysRequest) : NM unit :=
  let req := body b in
  sender_user ← the_user b;
  sender_device ← the_device b;
  require_uiaa APassword sender_user sender_device (su_auth req) (json_body b) ;;
  match su_master_key req with
  | Some master_key =>
      ondb (add_cross_signing_keys sender_user master_key (su_self_signing_key req) (su_user_signing_key req))
  | None => mret ()
  end.

(** Keys without a usage, or with one that does not contain [master]. *)
Definition is_signed_key (key : json) : bool :=
  match json_get (lit "usage") key with
  | Some (JArr usage) => negb (existsb (λ u, match u with JStr t => bool_decide (t = lit "master") | _ => false end) usage)
  | Some _ => false
  | None => true
  end.

(** The signatures of the sender on a key. *)
Definition own_signatures (sender_user : UserId) (key : json) : res (list (rstr * json)) :=
  sigs ← ok_or (json_get (lit "signatures") key) (BadRequest InvalidParam "Missing signatures field.");
  own ← ok_or (json_get (as_str sender_user) sigs) (BadRequest InvalidParam "Invalid user in signatures field.");
  ok_or (as_object own) (BadRequest InvalidParam "Invalid signature.").

Definition upload_signature (sender_user user_id : UserId) (key_id : rstr) (signature : rstr * json) : NM unit :=
  value ← lift (ok_or (as_string signature.2) (BadRequest InvalidParam "Invalid signature value."));
  ondb (sign_key user_id key_id (signature.1, value) sender_user).

Definition upload_key_signatures (sender_user user_id : UserId) (signed : rstr * Raw) : NM unit :=
  key ← lift (ok_or (deserialize signed.2) (BadRequest InvalidParam "Invalid key JSON"));
  if negb (is_signed_key key) then mret ()
  else
    signatures ← lift (own_signatures sender_user key);
    for_each signatures (upload_signature sender_user user_id signed.1).

Definition upload_signatures_route (b : Request (list (UserId * list (rstr * Raw)))) : NM unit :=
  sender_user ← the_user b;
  for_each (body b) (λ e, for_each e.2 (upload_key_signatures sender_user e.1)).

(** ** Changes *)

Definition get_key_changes_route (b : Request (rstr * rstr)) : NM (gset UserId) :=
  sender_user ← the_user b;
  let parse_from := ok_or (u64_from_str (body b).1) (BadRequest InvalidParam "Invalid `from`.") in
  let parse_to := ok_or (u64_from_str (body b).2) (BadRequest InvalidParam "Invalid `to`.") in
  let changed (x : rstr) : NM (list UserId) :=
    from ← lift parse_from;
    to ← lift parse_to;
    l ← ondb (keys_changed x from (Some to));
    mret (filter_map ok l) in
  own ← changed (as_str sender_user);
  rooms ← ondb (rooms_joined sender_user);
  for_fold (filter_map ok rooms) (list_to_set own) (λ acc room_id,
    l ← changed (as_str room_id);
    mret (acc ∪ list_to_set l)).

(** ** Queries *)

(** [add_unsigned_device_display_name]; [None] when the JSON is no object. *)
Definition add_unsigned_device_display_name (keys : Raw) (metadata : Device) : option Raw :=
  match display_name metadata with
  | Some name =>
      object ← (deserialize keys : option json) ≫= as_object;
      let unsigned := match default (JObj []) (obj_get (lit "unsigned") object) with
                      | JObj l => JObj (obj_insert (lit "device_display_name") (JStr name) l)
                      | v => v
                      end in
      Some (to_raw_value (JObj (obj_insert (lit "unsigned") unsigned object)))
  | None => Some keys
  end.

Record KeysResponse := MkKeysResponse {
  kr_master_keys : gmap UserId Raw;
  kr_self_signing_keys : gmap UserId Raw;
  kr_user_signing_keys : gmap UserId Raw;
  kr_device_keys : gmap UserId (gmap DeviceId Raw);
  kr_failures : gmap rstr json
}.
Definition no_keys : KeysResponse := MkKeysResponse ∅ ∅ ∅ ∅ ∅.

(** Adds the keys of a device, if it has some, to a container. *)
Definition add_device (user_id : UserId) (missing : Error) (container : gmap DeviceId Raw) (device_id : DeviceId)
    : NM (gmap DeviceId Raw) :=
  o ← ondb (get_device_keys user_id device_id);
  match o with
  | Some keys =>
      m ← ondb (get_device_metadata user_id device_id);
      metadata ← lift (ok_or m missing);
      keys ← lift (ok_or (add_unsigned_device_display_name keys metadata) (BadDatabase "invalid device keys in database"));
      mret (<[device_id := keys]> container)
  | None => mret container
  end.

(** The device keys of a local user: of all devices, or of those asked for, each
    of which replaces the container of the user. *)
Definition user_device_keys (user_id : UserId) (device_ids : list DeviceId) (device_keys : gmap UserId (gmap DeviceId Raw))
    : NM (gmap UserId (gmap DeviceId Raw)) :=
  match device_ids with
  | [] =>
      ids ← ondb (all_device_ids user_id);
      container ← for_fold ids ∅ (λ container r,
        device_id ← lift r;
        add_device user_id (BadDatabase "all_device_keys contained nonexistent device.") container device_id);
      mret (<[user_id := container]> device_keys)
  | _ =>
      for_fold device_ids device_keys (λ device_keys device_id,
        container ← add_device user_id (BadRequest InvalidParam "Tried to get keys for nonexistent device.") ∅ device_id;
        mret (<[user_id := container]> device_keys))
  end.

Definition insert_some {K V} `{Countable K} (k : K) (o : option V) (m : gmap K V) : gmap K V :=
  match o with Some v => <[k := v]> m | None => m end.

(** The keys of a local user. *)
Definition local_user_keys (sender_user : option UserId) (allowed_signatures : UserId → bool) (resp : KeysResponse)
    (user_id : UserId) (device_ids : list DeviceId) : NM KeysResponse :=
  device_keys ← user_device_keys user_id device_ids (kr_device_keys resp);
  master_key ← ondb (get_master_key user_id allowed_signatures);
  self_signing_key ← ondb (get_self_signing_key user_id allowed_signatures);
  user_signing_key ← (if bool_decide (Some user_id = sender_user) then ondb (get_user_signing_key user_id) else mret None);
  mret (MkKeysResponse (insert_some user_id master_key (kr_master_keys resp))
          (insert_some user_id self_signing_key (kr_self_signing_keys resp))
          (insert_some user_id user_signing_key (kr_user_signing_keys resp)) device_keys (kr_failures resp)).

(** [entry(server).or_insert_with(Vec::new).push(x)] *)
Definition push_to {A} (server : ServerName) (x : A) (m : gmap ServerName (list A)) : gmap ServerName (list A) :=
  <[server := default [] (m !! server) ++ [x]]> m.

(** The first loop: local users are answered, the others grouped by server. *)
Definition query_user (sender_user : option UserId) (allowed_signatures : UserId → bool)
    (acc : KeysResponse * gmap ServerName (list (UserId * list DeviceId))) (e : UserId * list DeviceId)
    : NM (KeysResponse * gmap ServerName (list (UserId * list DeviceId))) :=
  if bool_decide (user_server_name e.1 ≠ server_name) then mret (acc.1, push_to (user_server_name e.1) e acc.2)
  else
    resp ← local_user_keys sender_user allowed_signatures acc.1 e.1 e.2;
    mret (resp, acc.2).

(** The answer of a server, or its failure. *)
Definition query_server (resp : KeysResponse) (e : ServerName * list (UserId * list DeviceId)) : NM KeysResponse :=
  r ← catch (send_federation_request e.1 (GetKeys e.2));
  mret (match r with
        | inl (master_keys, self_signing_keys, device_keys) =>
            MkKeysResponse (master_keys ∪ kr_master_keys resp) (self_signing_keys ∪ kr_self_signing_keys resp)
              (kr_user_signing_keys resp) (device_keys ∪ kr_device_keys resp) (kr_failures resp)
        | inr _ =>
            MkKeysResponse (kr_master_keys resp) (kr_self_signing_keys resp) (kr_user_signing_keys resp) (kr_device_keys resp)
              (<[as_str e.1 := JObj []]> (kr_failures resp))
        end).

Definition get_keys_helper (sender_user : option UserId) (device_keys_input : list (UserId * list DeviceId))
    (allowed_signatures : UserId → bool) : NM KeysResponse :=
  acc ← for_fold device_keys_input (no_keys, ∅) (query_user sender_user allowed_signatures);
  for_fold (map_to_list acc.2) acc.1 query_server.

Definition get_keys_route (b : Request (list (UserId * list DeviceId))) : NM KeysResponse :=
  sender_user ← the_user b;
  get_keys_helper (Some sender_user) (body b) (λ u, bool_decide (u = sender_user)).

(** ** Claims *)

Abbreviation ClaimedKeys := (gmap UserId (gmap DeviceId (gmap DeviceKeyId Raw))).

(** Takes one key of each device asked for. *)
Definition claim_devices (user_id : UserId) (devices : list (DeviceId * rstr)) : NM (gmap DeviceId (gmap DeviceKeyId Raw)) :=
  for_fold devices ∅ (λ container e,
    o ← ondb (take_one_time_key user_id e.1 e.2);
    mret (match o with
          | Some (id, key) => <[e.1 := {[id := key]}]> container
          | None => container
          end)).

(** The first loop; a user of another server is looked up here too. *)
Definition claim_user (acc : ClaimedKeys * gmap ServerName (list (UserId * list (DeviceId * rstr))))
    (e : UserId * list (DeviceId * rstr)) : NM (ClaimedKeys * gmap ServerName (list (UserId * list (DeviceId * rstr)))) :=
  let get_over_federation :=
    if bool_decide (user_server_name e.1 ≠ server_name) then push_to (user_server_name e.1) e acc.2 else acc.2 in
  container ← claim_devices e.1 e.2;
  mret (<[e.1 := container]> acc.1, get_over_federation).

Definition claim_server (acc : ClaimedKeys * gmap rstr json) (e : ServerName * list (UserId * list (DeviceId * rstr)))
    : NM (ClaimedKeys * gmap rstr json) :=
  r ← catch (send_federation_request e.1 (ClaimKeys e.2));
  mret (match r with
        | inl keys => (keys ∪ acc.1, acc.2)
        | inr _ => (acc.1, <[as_str e.1 := JObj []]> acc.2)
        end).

Definition claim_keys_helper (one_time_keys_input : list (UserId * list (DeviceId * rstr)))
    : NM (ClaimedKeys * gmap rstr json) :=
  acc ← for_fold one_time_keys_input (∅, ∅) claim_user;
  for_fold (map_to_list acc.2) (acc.1, ∅) claim_server.

Definition claim_keys_route (b : Request (list (UserId * list (DeviceId * rstr)))) : NM (ClaimedKeys * gmap rstr json) :=
  claim_keys_helper (body b).

(** ** The same for other servers *)
Context {SL : ServerLib}.

Definition federation_get_keys_route (b : Request (list (UserId * list DeviceId)))
    : NM (gmap UserId (gmap DeviceId Raw) * gmap UserId Raw * gmap UserId Raw) :=
  if negb allow_federation then fail (BadConfig "Federation is disabled.")
  else
    result ← get_keys_helper None (body b) (λ u, bool_decide (Some (user_server_name u) = sender_servername b));
    mret (kr_device_keys result, kr_master_keys result, kr_self_signing_keys result).

Definition federation_claim_keys_route (b : Request (list (UserId * list (DeviceId * rstr)))) : NM ClaimedKeys :=
  if negb allow_federation then fail (BadConfig "Federation is disabled.")
  else
    result ← claim_keys_helper (body b);
    mret result.1.
End keys_api.

Lemma for_fold_app {S A B} (l1 l2 : list A) (b : B) (f : B → A → M S B) s :
  for_fold (l1 ++ l2) b f s = (for_fold l1 b f ≫= λ b', for_fold l2 b' f) s.
Proof.
  revert b s. induction l1 as [|x l1 IH]; intros b s; cbn [for_fold app]; [done|].
  unfold mbind, M_bind in *. destruct (f b x s) as [[b1| |] s1]; [apply IH|done..].
Qed.

(** ** The form of the stored keys *)

Section key_invariant.
Context {Ev : Env} {Out : Outside}.
Implicit Types (s : State) (n : Node).

(** Every one-time key is stored under its user, device and id, every change
    under a name and the time of the change. *)
Record KeyInv s : Prop := { ki_otk : otk_keyed s; ki_changes : changes_keyed s }.
Definition NodeKeyInv n : Prop := KeyInv (nd_db n).

Definition key_trees : list TreeId := [onetimekeyid_onetimekeys; keychangeid_userid].

Lemma KeyInv_agree ts s s' : (∀ t, t ∈ key_trees → t ∉ ts) → agree ts s s' → KeyInv s → KeyInv s'.
Proof.
  intros Hts Ha [H1 H2].
  assert (∀ t, t ∈ key_trees → db_map s' t = db_map s t) as E by (intros t Ht; by apply Ha, Hts).
  split; intros k v; rewrite E by by_compute; [apply H1|apply H2].
Qed.
Lemma KeyInv_put_otk u d id raw s :
  KeyInv s → KeyInv (put onetimekeyid_onetimekeys (otk_key u d id) (raw_text raw) s).
Proof.
  intros [H1 H2]. split; intros k v; db_simpl; [|apply H2].
  rewrite lookup_insert_Some. intros [[<- <-]|[_ H]]; [by exists u, d, id, raw|by apply H1].
Qed.
Lemma KeyInv_put_change x c v s : KeyInv s → KeyInv (put keychangeid_userid (key2 (as_bytes x) (to_be_bytes c)) v s).
Proof.
  intros [H1 H2]. split; intros k w; db_simpl; [apply H1|].
  rewrite lookup_insert_Some. intros [[<- _]|[_ H]]; [|by apply (H2 k w)].
  exists x, (wrap64 c). split; [apply wrap64_u64|]. unfold change_key. by rewrite to_be_bytes_wrap.
Qed.
Lemma KeyInv_del_otk k s : KeyInv s → KeyInv (del onetimekeyid_onetimekeys k s).
Proof.
  intros [H1 H2]. split; intros k' v; db_simpl; [|apply H2]. intros [_ H]%lookup_delete_Some. by apply H1.
Qed.

(** Programs that touch neither tree. *)
Lemma avoids (ts : list TreeId) : forallb (λ t, bool_decide (t ∉ ts)) key_trees = true → ∀ t, t ∈ key_trees → t ∉ ts.
Proof.
  intros Ht t Hin%list_elem_of_In. rewrite forallb_forall in Ht. specialize (Ht t Hin). by apply bool_decide_eq_true in Ht.
Qed.
Lemma keeps_keyed {A} ts (m : DB A) :
  keeps ts m → forallb (λ t, bool_decide (t ∉ ts)) key_trees = true → preserves (stays KeyInv) m.
Proof.
  intros H Ht. eapply keeps_stays; [exact H|]. intros s s'. apply KeyInv_agree. by apply avoids.
Qed.
Lemma ondb_keyed {A} (m : DB A) : preserves (stays KeyInv) m → preserves (stays NodeKeyInv) (ondb m).
Proof.
  intros H n. specialize (H (nd_db n)). destruct (m (nd_db n)) as [r d] eqn:E. by rewrite (ondb_run _ _ _ _ E).
Qed.
Lemma nagree_keyed {A} ts (m : NM A) :
  preserves (nagree ts) m → forallb (λ t, bool_decide (t ∉ ts)) key_trees = true → preserves (stays NodeKeyInv) m.
Proof. intros H Ht n. refine (KeyInv_agree ts _ _ _ (H n)). by apply avoids. Qed.
Lemma catch_keyed {A} (m : NM A) : preserves (stays NodeKeyInv) m → preserves (stays NodeKeyInv) (catch m).
Proof. intros H n. specialize (H n). unfold catch. by destruct (m n) as [[]]. Qed.
End key_invariant.

Create HintDb keyed.
Ltac keyed_step :=
  lazymatch goal with
  | |- preserves _ (mret _) => apply preserves_ret, _
  | |- preserves _ (lift _) => apply preserves_lift, _
  | |- preserves _ (fail _) => apply preserves_fail, _
  | |- preserves _ (the_user _) => apply preserves_lift, _
  | |- preserves _ (the_device _) => apply preserves_lift, _
  | |- preserves _ (for_each _ _) => apply preserves_for_each; [apply _|intros]
  | |- preserves _ (for_fold _ _ _) => apply preserves_for_fold; [apply _|intros]
  | |- preserves _ (_ ≫= _) => apply preserves_bind; [apply _| |intros]
  | |- preserves _ (match ?x with _ => _ end) => destruct x
  | |- preserves _ (let '_ := ?x in _) => destruct x
  | |- preserves _ (ondb _) => apply ondb_keyed
  | |- preserves _ (catch _) => apply catch_keyed
  | |- preserves (stays NodeKeyInv) _ => first [solve [eauto 1 with keyed] | eapply nagree_keyed; [solve [eauto 2 with handler]|reflexivity]]
  | |- preserves (stays KeyInv) _ =>
      first [solve [eauto 1 with keyed] | eapply keeps_keyed; [solve [eauto 2 with keeps]|reflexivity]]
  end.
Ltac keyed_tac := intros; repeat keyed_step.

Section keyed_operations.
Context {Ev : Env} {Out : Outside}.
Implicit Types (s : State) (n : Node).
Abbreviation keyed m := (preserves (stays KeyInv) m).
Abbreviation nkeyed m := (preserves (stays NodeKeyInv) m).

Lemma put_change_keyed {va} (i : identifier va) c v : keyed (t_insert keychangeid_userid (key2 (idb i) (to_be_bytes c)) v).
Proof. intros s H. by apply KeyInv_put_change. Qed.
Lemma put_otk_keyed u d (id : DeviceKeyId) (r : Raw) :
  keyed (t_insert onetimekeyid_onetimekeys (key2 (userdeviceid u d) (to_vec id)) (to_vec r)).
Proof. intros s H. by apply KeyInv_put_otk. Qed.
Lemma del_otk_keyed k : keyed (t_remove onetimekeyid_onetimekeys k).
Proof. intros s H. by apply KeyInv_del_otk. Qed.
Lemma rooms_joined_keeps u : keeps [] (rooms_joined u).
Proof. unfold rooms_joined. keeps_tac. Qed.
Lemma all_device_ids_keeps u : keeps [] (all_device_ids u).
Proof. unfold all_device_ids. keeps_tac. Qed.
Lemma get_device_metadata_keeps u d : keeps [] (get_device_metadata u d).
Proof. unfold get_device_metadata. keeps_tac. Qed.
Lemma get_device_keys_keeps u d : keeps [] (get_device_keys u d).
Proof. unfold get_device_keys. keeps_tac. Qed.
Lemma count_one_time_keys_keeps u d : keeps [] (count_one_time_keys u d).
Proof. unfold count_one_time_keys, count_entry. keeps_tac. Qed.
Lemma cleaned_key_keeps t u f : keeps [] (cleaned_key t u f).
Proof. unfold cleaned_key. keeps_tac. Qed.
Lemma get_user_signing_key_keeps u : keeps [] (get_user_signing_key u).
Proof. unfold get_user_signing_key. keeps_tac. Qed.
Lemma keys_changed_pure x a b : keeps [] (keys_changed x a b).
Proof. unfold keys_changed. keeps_tac. Qed.
Hint Resolve put_change_keyed put_otk_keyed del_otk_keyed : keyed.
Hint Resolve rooms_joined_keeps all_device_ids_keeps get_device_metadata_keeps get_device_keys_keeps
  count_one_time_keys_keeps cleaned_key_keeps get_user_signing_key_keeps keys_changed_pure : keeps.

Lemma mark_device_key_update_keyed u : keyed (mark_device_key_update u).
Proof. unfold mark_device_key_update. keyed_tac. Qed.
Lemma store_cross_signing_keyed t u a b c k :
  forallb (λ t', bool_decide (t' ∉ [t])) key_trees = true → keyed (store_cross_signing t u a b c k).
Proof. intros Ht. unfold store_cross_signing. keyed_tac. eapply keeps_keyed; [apply keeps_insert|exact Ht]. Qed.
Hint Resolve mark_device_key_update_keyed : keyed.
Lemma sign_key_keyed t k sg u : keyed (sign_key t k sg u).
Proof. unfold sign_key. keyed_tac. Qed.
Lemma add_device_keys_keyed u d k : keyed (add_device_keys u d k).
Proof. unfold add_device_keys. keyed_tac. Qed.
Lemma add_one_time_key_keyed u d k v : keyed (add_one_time_key u d k v).
Proof. unfold add_one_time_key. keyed_tac. Qed.
Lemma take_one_time_key_keyed u d a : keyed (take_one_time_key u d a).
Proof. unfold take_one_time_key. keyed_tac. Qed.
Lemma add_cross_signing_keys_keyed u m x y : keyed (add_cross_signing_keys u m x y).
Proof.
  unfold add_cross_signing_keys.
  pose proof (λ t, store_cross_signing_keyed t u). keyed_tac; first [done | by apply store_cross_signing_keyed].
Qed.
Hint Resolve sign_key_keyed add_device_keys_keyed add_one_time_key_keyed take_one_time_key_keyed
  add_cross_signing_keys_keyed : keyed.

(** ** The routes *)

Lemma random_string_keeps k : preserves (nagree []) (random_string k).
Proof. intros n. unfold random_string. by destruct (world_random k (nd_world n)). Qed.
Lemma try_auth_keeps rnd u d a i : keeps [userdevicesessionid_uiaainfo] (try_auth rnd u d a i).
Proof. unfold try_auth, check_stage, update_uiaa_session, get_uiaa_session, password_hash. keeps_tac. Qed.
Lemma uiaa_create_keeps u d i j : keeps [userdevicesessionid_uiaainfo] (Uiaa.create u d i j).
Proof. unfold Uiaa.create, update_uiaa_session, set_uiaa_request. keeps_tac. Qed.
Hint Resolve random_string_keeps : handler.
Hint Resolve try_auth_keeps uiaa_create_keeps : keeps.
Lemma require_uiaa_keyed st u d a j : nkeyed (require_uiaa st u d a j).
Proof. unfold require_uiaa. cbn zeta. keyed_tac. Qed.
Hint Resolve require_uiaa_keyed : keyed.
Lemma upload_keys_keyed b : nkeyed (upload_keys_route b).
Proof. unfold upload_keys_route. keyed_tac. Qed.
Lemma upload_signing_keys_keyed b : nkeyed (upload_signing_keys_route b).
Proof. unfold upload_signing_keys_route. cbn zeta. keyed_tac. Qed.
Lemma upload_signatures_keyed b : nkeyed (upload_signatures_route b).
Proof. unfold upload_signatures_route, upload_key_signatures, upload_signature. keyed_tac. Qed.
Lemma get_key_changes_keyed b : nkeyed (get_key_changes_route b).
Proof. unfold get_key_changes_route. cbn zeta. keyed_tac. Qed.
Lemma get_keys_helper_keyed u l f : nkeyed (get_keys_helper u l f).
Proof.
  unfold get_keys_helper, query_user, query_server, local_user_keys, user_device_keys, add_device, get_master_key,
    get_self_signing_key. keyed_tac.
Qed.
Lemma claim_keys_helper_keyed l : nkeyed (claim_keys_helper l).
Proof. unfold claim_keys_helper, claim_user, claim_server, claim_devices. cbn zeta. keyed_tac. Qed.
End keyed_operations.

(** ** Theorems *)

Section keys_theorems.
Context {Ev : Env} {Out : Outside} {SL : ServerLib}.
Implicit Types (s : State) (n : Node).

Inductive KeysRequest :=
  | UploadKeys (b : Request (list (DeviceKeyId * Raw) * option Raw))
  | UploadSigningKeys (b : Request SigningKeysRequest)
  | UploadSignatures (b : Request (list (UserId * list (rstr * Raw))))
  | KeyChanges (b : Request (rstr * rstr))
  | QueryKeys (b : Request (list (UserId * list DeviceId)))
  | TakeKeys (b : Request (list (UserId * list (DeviceId * rstr))))
  | FederationQueryKeys (b : Request (list (UserId * list DeviceId)))
  | FederationTakeKeys (b : Request (list (UserId * list (DeviceId * rstr)))).

(** The server after a request, whatever the answer is. *)
Definition serve_keys n (r : KeysRequest) : Node :=
  match r with
  | UploadKeys b => (upload_keys_route b n).2
  | UploadSigningKeys b => (upload_signing_keys_route b n).2
  | UploadSignatures b => (upload_signatures_route b n).2
  | KeyChanges b => (get_key_changes_route b n).2
  | QueryKeys b => (get_keys_route b n).2
  | TakeKeys b => (claim_keys_route b n).2
  | FederationQueryKeys b => (federation_get_keys_route b n).2
  | FederationTakeKeys b => (federation_claim_keys_route b n).2
  end.

(** C23: The storage of keys stays well formed: after any sequence of requests of the key
    routes, successful or not, every one-time key is stored under a user, a device and
    a key id with JSON text as its value, and every entry of the log of key changes
    under a name and a 64-bit time. *)
Theorem key_storage_well_formed (requests : list KeysRequest) n :
  KeyInv (nd_db n) → KeyInv (nd_db (foldl serve_keys n requests)).
Proof.
  revert n. induction requests as [|r rs IH]; intros n H; [done|]. cbn [foldl]. apply IH. revert H.
  change (stays NodeKeyInv n (serve_keys n r)).
  destruct r as [b|b|b|b|b|b|b|b]; cbn [serve_keys].
  - apply upload_keys_keyed.
  - apply upload_signing_keys_keyed.
  - apply upload_signatures_keyed.
  - apply get_key_changes_keyed.
  - revert n. change (preserves (stays NodeKeyInv) (get_keys_route b)). unfold get_keys_route.
    pose proof get_keys_helper_keyed. keyed_tac.
  - apply claim_keys_helper_keyed.
  - revert n. change (preserves (stays NodeKeyInv) (federation_get_keys_route b)). unfold federation_get_keys_route.
    pose proof get_keys_helper_keyed. keyed_tac.
  - revert n. change (preserves (stays NodeKeyInv) (federation_claim_keys_route b)). unfold federation_claim_keys_route.
    pose proof claim_keys_helper_keyed. keyed_tac.
Qed.

(** ** Claims *)

Context (dkid_utf8 : ∀ id : DeviceKeyId, sep ∉ to_vec id).

Abbreviation otks n := (db_map (nd_db n) onetimekeyid_onetimekeys).

(** [n'] lacks the one-time keys in [P] and has all others of [n]. *)
Definition taken (P : bytes → Prop) n n' : Prop := ∀ k v, otks n' !! k = Some v ↔ otks n !! k = Some v ∧ ¬ P k.

(** The keys handed out for one user, and for all. *)
Definition handed_user (u : UserId) (c : gmap DeviceId (gmap DeviceKeyId Raw)) (k : bytes) : Prop :=
  ∃ d m id key, c !! d = Some m ∧ m !! id = Some key ∧ k = otk_key u d id.
Definition handed (keys : gmap UserId (gmap DeviceId (gmap DeviceKeyId Raw))) (k : bytes) : Prop :=
  ∃ u c, keys !! u = Some c ∧ handed_user u c k.

(** What a claim found: keys of the device and algorithm asked for, as they were stored. *)
Definition found_user n (u : UserId) (devices : list (DeviceId * rstr)) (c : gmap DeviceId (gmap DeviceKeyId Raw)) : Prop :=
  ∀ d m id key, c !! d = Some m → m !! id = Some key →
    otks n !! otk_key u d id = Some (raw_text key) ∧
    ∃ alg, (d, alg) ∈ devices ∧ otk_prefix u d alg `prefix_of` otk_key u d id.

Lemma taken_trans P Q n1 n2 n3 : taken P n1 n2 → taken Q n2 n3 → taken (λ k, P k ∨ Q k) n1 n3.
Proof. intros H1 H2 k v. rewrite (H2 k v), (H1 k v). tauto. Qed.
Lemma taken_ext P Q n n' : (∀ k, P k ↔ Q k) → taken P n n' → taken Q n n'.
Proof. intros H Ht k v. by rewrite (Ht k v), H. Qed.

Lemma claim_devices_loop u devices : ∀ l done c n0 n,
  devices = done ++ l → NoDup devices.*1 → (∀ d, is_Some (c !! d) → d ∈ done.*1) →
  KeyInv (nd_db n) → taken (handed_user u c) n0 n → found_user n0 u devices c →
  ∃ c' n', for_fold l c (λ container e,
      o ← ondb (take_one_time_key u e.1 e.2);
      mret (match o with Some (id, key) => <[e.1 := {[id := key]}]> container | None => container end)) n = (Ok c', n') ∧
    KeyInv (nd_db n') ∧ taken (handed_user u c') n0 n' ∧ found_user n0 u devices c'.
Proof using dkid_utf8.
  induction l as [|[d alg] l IH]; intros done c n0 n El Hnd Hdom Hk Ht Hf; cbn [for_fold fst snd].
  { by exists c, n. }
  destruct (take_one_time_key_once dkid_utf8 u d alg (nd_db n) (ki_otk _ Hk)) as (o & s' & E & Ho).
  assert (KeyInv s') as Hk'.
  { pose proof (take_one_time_key_keyed u d alg (nd_db n) Hk) as H. by rewrite E in H. }
  rewrite (bind_Ok _ _ _ _ _ (bind_Ok _ _ _ _ _ (ondb_run _ _ _ _ E))).
  set (n1 := with_db s' n).
  assert (d ∉ done.*1) as Hd.
  { rewrite El, fmap_app in Hnd. apply NoDup_app in Hnd as (_ & Hnd & _). intros H. apply (Hnd d H). left. }
  assert (devices = (done ++ [(d, alg)]) ++ l) as El' by (by rewrite <- app_assoc).
  destruct o as [[id key]|]; [|destruct Ho as [Eo _]].
  - destruct Ho as (Hp & Hv & Eo).
    assert (∀ k, handed_user u (<[d := {[id := key]}]> c) k ↔ handed_user u c k ∨ k = otk_key u d id) as Hh.
    { intros k. split.
      - intros (d' & m & id' & key' & [[<- <-]|[_ Hc]]%lookup_insert_Some & Hm & ->); [|left; by exists d', m, id', key'].
        apply lookup_singleton_Some in Hm as [<- _]. by right.
      - intros [(d' & m & id' & key' & Hc & Hm & ->)| ->].
        + exists d', m, id', key'. split_and!; [|done..]. rewrite lookup_insert_ne; [done|]. intros ->. by apply Hd, Hdom.
        + exists d, {[id := key]}, id, key. by rewrite lookup_insert_eq, lookup_singleton_eq. }
    apply (IH (done ++ [(d, alg)]) _ n0 n1); try done.
    + intros d' [<-|[_ H]]%lookup_insert_is_Some; rewrite fmap_app, elem_of_app; [right; left|left; by apply Hdom].
    + eapply taken_ext; [intros k; symmetry; apply Hh|]. eapply taken_trans; [exact Ht|].
      intros k v. change (otks n1) with (db_map s' onetimekeyid_onetimekeys). rewrite Eo, lookup_delete_Some. naive_solver.
    + intros d' m id' key' [[<- <-]|[_ Hc]]%lookup_insert_Some Hm; [|by eapply Hf].
      apply lookup_singleton_Some in Hm as [<- <-]. split; [by apply Ht in Hv as [? _]|].
      exists alg. split; [|done]. rewrite El. apply elem_of_app. right. left.
  - apply (IH (done ++ [(d, alg)]) _ n0 n1); try done.
    + intros d' H. rewrite fmap_app, elem_of_app. left. by apply Hdom.
    + intros k v. change (otks n1) with (db_map s' onetimekeyid_onetimekeys). rewrite Eo. apply Ht.
Qed.

Lemma claim_devices_exact u devices n :
  NoDup devices.*1 → KeyInv (nd_db n) →
  ∃ c n', claim_devices u devices n = (Ok c, n') ∧
    KeyInv (nd_db n') ∧ taken (handed_user u c) n n' ∧ found_user n u devices c.
Proof using dkid_utf8.
  intros Hnd Hk. apply (claim_devices_loop u devices devices [] ∅ n n); try done.
  - by intros d []%lookup_empty_is_Some.
  - intros k v. split; [|by intros [? _]]. intros Hv. split; [done|]. by intros (d & m & id & key & H & _).
Qed.

Lemma claim_users_loop input : ∀ l done keys n0 n,
  input = done ++ l → NoDup input.*1 → Forall (λ e, NoDup e.2.*1 ∧ user_server_name e.1 = server_name) input →
  (∀ u, is_Some (keys !! u) → u ∈ done.*1) → KeyInv (nd_db n) → taken (handed keys) n0 n →
  (∀ u c, keys !! u = Some c → ∃ devices, (u, devices) ∈ input ∧ found_user n0 u devices c) →
  ∃ keys' n', for_fold l (keys, ∅) claim_user n = (Ok (keys', ∅), n') ∧ taken (handed keys') n0 n' ∧
    ∀ u c, keys' !! u = Some c → ∃ devices, (u, devices) ∈ input ∧ found_user n0 u devices c.
Proof using dkid_utf8.
  induction l as [|[u devices] l IH]; intros done keys n0 n El Hnd Hall Hdom Hk Ht Hf; cbn [for_fold].
  { by exists keys, n. }
  assert ((u, devices) ∈ input) as Hin by (rewrite El; apply elem_of_app; right; left).
  destruct (proj1 (Forall_forall _ _) Hall _ Hin) as [Hnd' Hs].
  destruct (claim_devices_exact u devices n Hnd' Hk) as (c & n1 & E & Hk1 & Ht1 & Hf1).
  assert (claim_user (keys, ∅) (u, devices) n = (Ok (<[u := c]> keys, ∅), n1)) as E1.
  { unfold claim_user. cbn [fst snd]. rewrite bool_decide_false by (intros H; by apply H). cbn zeta.
    by rewrite (bind_Ok _ _ _ _ _ E). }
  rewrite (bind_Ok _ _ _ _ _ E1).
  assert (keys !! u = None) as Hu.
  { apply eq_None_not_Some. intros H%Hdom. rewrite El, fmap_app in Hnd. apply NoDup_app in Hnd as (_ & Hnd & _).
    apply (Hnd u H). left. }
  assert (taken (handed (<[u := c]> keys)) n0 n1) as Ht'.
  { eapply taken_ext; [|eapply taken_trans; [exact Ht|exact Ht1]]. intros k. split.
    - intros [(u' & c' & Hc & Hh)|Hh]; [|exists u, c; by rewrite lookup_insert_eq].
      exists u', c'. rewrite lookup_insert_ne; [done|]. congruence.
    - intros (u' & c' & [[<- <-]|[_ Hc]]%lookup_insert_Some & Hh); [by right|left; by exists u', c']. }
  apply (IH (done ++ [(u, devices)])); try done.
  - by rewrite <- app_assoc.
  - intros u' [<-|[_ H]]%lookup_insert_is_Some; rewrite fmap_app, elem_of_app; [right; left|left; by apply Hdom].
  - intros u' c' [[<- <-]|[_ Hc]]%lookup_insert_Some; [|by apply Hf]. exists devices. split; [done|].
    intros d m id key Hd Hm. destruct (Hf1 d m id key Hd Hm) as [H1 H2]. split; [|done].
    by apply Ht in H1 as [? _].
Qed.

(** C14: Claiming one-time keys of local users always gives an answer.  It has only keys of
    the devices and algorithms asked for, as they were uploaded; each key handed out is
    gone afterwards and no other key is lost, so that no key is handed out twice. *)
Theorem claim_keys_exact input n :
  KeyInv (nd_db n) → NoDup input.*1 → Forall (λ e, NoDup e.2.*1 ∧ user_server_name e.1 = server_name) input →
  ∃ keys n', claim_keys_helper input n = (Ok (keys, ∅), n') ∧
    (∀ u c d m id key, keys !! u = Some c → c !! d = Some m → m !! id = Some key →
       db_map (nd_db n) onetimekeyid_onetimekeys !! otk_key u d id = Some (raw_text key) ∧
       ∃ devices alg, (u, devices) ∈ input ∧ (d, alg) ∈ devices ∧ otk_prefix u d alg `prefix_of` otk_key u d id) ∧
    ∀ k v, db_map (nd_db n') onetimekeyid_onetimekeys !! k = Some v ↔
      db_map (nd_db n) onetimekeyid_onetimekeys !! k = Some v ∧ ¬ handed keys k.
Proof using dkid_utf8.
  intros Hk Hnd Hall. destruct (claim_users_loop input input [] ∅ n n) as (keys & n' & E & Ht & Hf); try done.
  - by intros u []%lookup_empty_is_Some.
  - intros k v. split; [|by intros [? _]]. intros Hv. split; [done|]. by intros (u & c & H & _).
  - exists keys, n'. split_and!; [|intros u c d m id key Hu Hd Hm|exact Ht].
    + unfold claim_keys_helper. by rewrite (bind_Ok _ _ _ _ _ E).
    + destruct (Hf u c Hu) as (devices & Hin & H). destruct (H d m id key Hd Hm) as (H1 & alg & H2 & H3). eauto 6.
Qed.
End keys_theorems.

(** ** Queries *)

Section query_theorems.
Context {Ev : Env} {Out : Outside}.
Implicit Types (s : State) (n : Node).

(** C40: A key query believes other servers about everyone: whatever master keys,
    self-signing keys and device keys the server of one queried user sends, for users
    of this server too, replace the keys of this server's own database in the answer. *)
Theorem remote_keys_override sender allowed locals r ds n resp1 n1 mk sk dk w :
  user_server_name r ≠ server_name →
  for_fold locals (no_keys, ∅) (query_user sender allowed) n = (Ok (resp1, ∅), n1) →
  world_send (user_server_name r) (GetKeys [(r, ds)]) (nd_world n1) = (inl (mk, sk, dk), w) →
  ∃ resp n', get_keys_helper sender (locals ++ [(r, ds)]) allowed n = (Ok resp, n') ∧
    (∀ v key, mk !! v = Some key → kr_master_keys resp !! v = Some key) ∧
    (∀ v key, sk !! v = Some key → kr_self_signing_keys resp !! v = Some key) ∧
    (∀ v keys, dk !! v = Some keys → kr_device_keys resp !! v = Some keys) ∧
    ∀ v, mk !! v = None → kr_master_keys resp !! v = kr_master_keys resp1 !! v.
Proof.
  intros Hr E1 Ew. unfold get_keys_helper.
  assert (for_fold (locals ++ [(r, ds)]) (no_keys, ∅) (query_user sender allowed) n =
    (Ok (resp1, {[user_server_name r := [(r, ds)]]}), n1)) as E2.
  { rewrite for_fold_app, (bind_Ok _ _ _ _ _ E1). cbn [for_fold]. unfold query_user at 1. cbn [fst snd].
    rewrite bool_decide_true by done. done. }
  rewrite (bind_Ok _ _ _ _ _ E2). cbn [fst snd]. rewrite map_to_list_singleton. cbn [for_fold].
  unfold query_server, catch, send_federation_request. cbn [fst snd]. unfold mbind, M_bind. rewrite Ew.
  eexists _, _. split; [reflexivity|]. cbn. split_and!.
  - intros v key H. by apply lookup_union_Some_l.
  - intros v key H. by apply lookup_union_Some_l.
  - intros v keys H. by apply lookup_union_Some_l.
  - intros v H. by apply lookup_union_r.
Qed.

(** Of several devices named in a query of a local user, only the keys of the last one
    are answered: each device replaces what was gathered for the user. *)
Theorem get_keys_last_device u ds d keys n keys' n' :
  user_device_keys u (ds ++ [d]) keys n = (Ok keys', n') →
  ∃ c, keys' !! u = Some c ∧ ∀ d', is_Some (c !! d') → d' = d.
Proof.
  unfold user_device_keys. destruct (ds ++ [d]) as [|d0 l] eqn:El; [by destruct ds|]. rewrite <- El. clear El d0 l.
  rewrite for_fold_app. intros (k1 & n1 & _ & H)%bind_Ok_inv. cbn [for_fold] in H.
  apply bind_Ok_inv in H as (k2 & n2 & H & H2). injection H2 as <- <-.
  apply bind_Ok_inv in H as (c & n3 & H & H2). injection H2 as <- <-. exists c. split; [apply lookup_insert_eq|].
  intros d' Hd. unfold add_device in H. run_inv H o n4 E4. destruct o as [k|].
  - run_inv H m n5 E5. run_inv H meta n6 E6. run_inv H kk n7 E7. injection H as <- _.
    by apply lookup_insert_is_Some in Hd as [->|[_ []%lookup_empty_is_Some]].
  - injection H as <- _. by apply lookup_empty_is_Some in Hd.
Qed.
End query_theorems.

(** ** Uploads *)

Section upload_theorems.
Context {Ev : Env} {Out : Outside}.
Implicit Types (s : State) (n : Node).

(** What a user signed on a stored key. *)
Definition signatures_by s (k : bytes) (u : UserId) : option json :=
  b ← db_map s keyid_key !! k;
  key ← (from_slice b : option json);
  json_get (lit "signatures") key ≫= json_get (as_str u).

Definition others_kept (u : UserId) s s' : Prop := ∀ k v, v ≠ u → signatures_by s' k v = signatures_by s k v.
#[export] Instance others_kept_preorder u : PreOrder (others_kept u).
Proof. split; [by intros s k v|]. intros s1 s2 s3 H1 H2 k v Hv. by rewrite H2, H1. Qed.
#[export] Instance node_others_kept_preorder u : PreOrder (λ n n', others_kept u (nd_db n) (nd_db n')).
Proof. split; [by intros n k v|]. intros n1 n2 n3 H1 H2 k v Hv. by rewrite H2, H1. Qed.

Lemma with_signature_others key sg (u v : UserId) key' :
  with_signature key sg u = Ok key' → v ≠ u →
  json_get (lit "signatures") key' ≫= json_get (as_str v) = json_get (lit "signatures") key ≫= json_get (as_str v).
Proof.
  unfold with_signature. destruct key as [| | | | |fields]; try done. cbn [json_get].
  destruct (obj_get (lit "signatures") fields) as [[| | | | |sigs]|] eqn:Es; try done. cbn.
  destruct (as_object _) as [own|]; [|done]. cbn. intros [= <-] Hv. cbn.
  rewrite obj_get_insert, decide_True by done. cbn. rewrite obj_get_insert, decide_False; [done|].
  by intros ?%(inj as_str).
Qed.

Lemma mark_device_key_update_keeps u : keeps [global; keychangeid_userid] (mark_device_key_update u).
Proof. unfold mark_device_key_update. pose proof rooms_joined_keeps. keeps_tac. Qed.

Lemma sign_key_others t id sg u : preserves (others_kept u) (sign_key t id sg u).
Proof.
  intros s. unfold sign_key. cbn zeta. set (key := key2 (idb t) (as_bytes id)). db_step.
  destruct (db_map s keyid_key !! key) as [b|] eqn:Eb; [|reflexivity]. cbn [ok_or]. db_step. unfold parse_json.
  destruct (from_slice b) as [j|] eqn:Ej; [|reflexivity]. cbn [ok_or]. db_step.
  destruct (with_signature j sg u) as [j'|e|e] eqn:Es; [|reflexivity..]. db_run.
  pose proof (mark_device_key_update_keeps t (put keyid_key key (to_vec j') s)) as Hm. intros k v Hv.
  unfold signatures_by. rewrite (Hm keyid_key) by by_compute. rewrite db_map_put_eq.
  destruct (decide (k = key)) as [->|Hk]; [|by rewrite lookup_insert_ne].
  rewrite lookup_insert_eq, Eb. cbn. rewrite from_slice_to_vec, Ej. cbn. by eapply with_signature_others.
Qed.

(** Uploading signatures adds signatures of the sender only: whatever is uploaded, and
    whether it succeeds or not, the signatures of every other user on every key of
    every user stay as they were. *)
Theorem upload_signatures_own (b : Request (list (UserId * list (rstr * Raw)))) u n :
  sender_user b = Some u →
  ∀ k v, v ≠ u → signatures_by (nd_db (upload_signatures_route b n).2) k v = signatures_by (nd_db n) k v.
Proof.
  intros Hu. unfold upload_signatures_route, the_user. rewrite Hu. cbn [expect]. rewrite bind_lift_Ok. revert n.
  change (preserves (λ n n', others_kept u (nd_db n) (nd_db n')) (for_each (body b) (λ e, for_each e.2 (upload_key_signatures u e.1)))).
  apply preserves_for_each; [apply _|]. intros e. apply preserves_for_each; [apply _|]. intros signed.
  unfold upload_key_signatures. apply preserves_bind; [apply _|apply preserves_lift, _|]. intros key.
  destruct (is_signed_key key); cbn [negb]; [|apply preserves_ret, _].
  apply preserves_bind; [apply _|apply preserves_lift, _|]. intros sigs. apply preserves_for_each; [apply _|]. intros sg.
  unfold upload_signature. apply preserves_bind; [apply _|apply preserves_lift, _|]. intros value n.
  pose proof (sign_key_others e.1 signed.1 (sg.1, value) u (nd_db n)) as H.
  destruct (sign_key e.1 signed.1 (sg.1, value) u (nd_db n)) as [r d] eqn:E. by rewrite (ondb_run _ _ _ _ E).
Qed.

(** Uploading keys never replaces device keys: those of the device are stored only if it
    has none yet, and no other key changes. *)
Theorem upload_keys_first (b : Request (list (DeviceKeyId * Raw) * option Raw)) u d n counts n' :
  sender_user b = Some u → sender_device b = Some d → upload_keys_route b n = (Ok counts, n') →
  ∀ k, db_map (nd_db n') keyid_key !! k =
    match db_map (nd_db n) keyid_key !! k with
    | Some v => Some v
    | None => if decide (k = userdeviceid u d) then raw_text <$> (body b).2 else None
    end.
Proof.
  intros Hu Hd H. unfold upload_keys_route, the_user, the_device in H. rewrite Hu, Hd in H. cbn [expect] in H.
  rewrite !bind_lift_Ok in H. run_inv H x n1 E1. run_inv H y n2 E2.
  apply (preserves_inv (nagree [])) in H; [|pose proof count_one_time_keys_keeps; node_tac].
  apply (preserves_inv (nagree [onetimekeyid_onetimekeys; global; userid_lastonetimekeyupdate])) in E1;
    [|unfold add_one_time_key; node_tac].
  assert (db_map (nd_db n') keyid_key = db_map (nd_db n2) keyid_key) as -> by (apply H; by_compute).
  assert (db_map (nd_db n1) keyid_key = db_map (nd_db n) keyid_key) as A1 by (apply E1; by_compute).
  assert (∀ k, db_map (nd_db n) keyid_key !! k = match db_map (nd_db n) keyid_key !! k with Some v => Some v | None => None end)
    as Hid by (intros k; by destruct (_ !! k)).
  destruct (body b).2 as [keys|] eqn:Eb.
  - run_inv E2 o n3 E3. apply ondb_inv in E3 as (d3 & E3 & ->).
    unfold get_device_keys in E3. rewrite (bind_Ok _ _ _ _ _ (t_get_run _ _ _)), A1 in E3. unfold lift in E3.
    injection E3 as E3 <-. destruct (db_map (nd_db n) keyid_key !! userdeviceid u d) as [v|] eqn:Eo.
    + destruct o as [k0|]; [|cbn in E3; by destruct (parse_json _ _)]. injection E2 as _ <-. intros k.
      change (nd_db (with_db ?x _)) with x. rewrite A1. destruct (_ !! k) eqn:Ek; [done|].
      case_decide; [congruence|done].
    + injection E3 as <-. apply ondb_inv in E2 as (d4 & E4 & ->). change (nd_db (with_db ?x _)) with x in E4 |- *.
      unfold add_device_keys in E4. rewrite (bind_Ok _ _ _ _ _ (t_insert_run _ _ _ _)) in E4.
      apply (preserves_inv _ _ _ _ _ (mark_device_key_update_keeps u)) in E4. intros k.
      rewrite (E4 keyid_key) by by_compute. rewrite db_map_put_eq, A1. cbn.
      destruct (decide (k = userdeviceid u d)) as [->|Hk]; [by rewrite lookup_insert_eq, Eo|].
      rewrite lookup_insert_ne by done. apply Hid.
  - injection E2 as _ <-. intros k. rewrite A1. destruct (_ !! k); [done|]. by case_decide.
Qed.
End upload_theorems.
