(* ===== verification/Profile.v ===== *)
(** * Profiles and presence ([src/api/client_server/profile.rs],
    [src/api/client_server/presence.rs], [src/service/rooms/edus/presence/mod.rs])

    Display names and avatars with the member events that announce them in the
    rooms of the user, the profiles of users of other servers, and presence. *)

From S2P Require Import Prelude Bytes RStr Error Utils KvTree Env Db Keys Globals Frames Short RoomState StateCompressor Pdu Timeline StateAccessor Users StateCache Edus RoomUser OpFrames MembershipService StateService EventFormat TimelineService Federation EventHandler Request Admin Account KeysApi.

Section profile.
Context {Ev : Env} {EL : EventLib} {TL : TimelineLib} {CL : ContentLib} {Out : Outside}.

(** ** Changing a profile *)

Definition with_displayname (displayname : option rstr) (c : RoomMemberEventContent) : RoomMemberEventContent :=
  MkMember (rm_membership c) displayname (rm_avatar_url c) (rm_is_direct c) (rm_third_party_invite c) (rm_blurhash c)
    (rm_reason c) (rm_join_authorized_via_users_server c).
Definition with_avatar_url (avatar_url : option rstr) (c : RoomMemberEventContent) : RoomMemberEventContent :=
  MkMember (rm_membership c) (rm_displayname c) avatar_url (rm_is_direct c) (rm_third_party_invite c) (rm_blurhash c)
    (rm_reason c) (rm_join_authorized_via_users_server c).

(** The closure of the first loop: the member event of the user in a room with the
    change applied. *)
Definition member_update (sender_user : UserId) (change : RoomMemberEventContent → RoomMemberEventContent) (room_id : RoomId)
    : DB PduBuilder :=
  o ← room_state_get room_id (lit "m.room.member") (as_str sender_user);
  event ← lift (ok_or o (BadDatabase "Tried to send displayname update for user not in the room."));
  c ← lift (ok_or (member_content (content event)) (BadDatabase "Database contains invalid PDU."));
  mret (state_builder (lit "m.room.member") (as_str sender_user) (CMember (change c))).

(** [map(..).filter_map(|r| r.ok()).collect()] *)
Definition member_updates (sender_user : UserId) (change : RoomMemberEventContent → RoomMemberEventContent)
    : DB (list (PduBuilder * RoomId)) :=
  rooms ← rooms_joined sender_user;
  for_fold (filter_map ok rooms) [] (λ acc room_id,
    o ← try_ok (member_update sender_user change room_id);
    mret (match o with Some builder => acc ++ [(builder, room_id)] | None => acc end)).

(** The presence that goes with a change of the profile or of the status. *)
Definition presence_now (sender_user : UserId) (presence : PresenceState) (status_msg : option rstr) : DB PresenceEvent :=
  avatar_url ← avatar_url sender_user;
  displayname ← displayname sender_user;
  ts ← gets now;
  last_active_ago ← lift (expect (to_uint ts) "time is valid");
  mret {| pe_sender := sender_user; pe_presence := presence; pe_last_active_ago := Some last_active_ago;
          pe_status_msg := status_msg; pe_displayname := displayname; pe_avatar_url := avatar_url;
          pe_currently_active := None |}.

(** The second loop: an event that cannot be sent is skipped, the presence is updated. *)
Definition announce (sender_user : UserId) (updates : list (PduBuilder * RoomId)) : NM unit :=
  for_each updates (λ '(pdu_builder, room_id),
    catch (on_server (build_and_append_pdu pdu_builder sender_user room_id)) ;;
    presence ← ondb (presence_now sender_user Online None);
    ondb (update_presence sender_user room_id presence)).

Definition set_displayname_route (b : Request (option rstr)) : NM unit :=
  sender_user ← the_user b;
  ondb (set_displayname sender_user (body b)) ;;
  all_rooms_joined ← ondb (member_updates sender_user (with_displayname (body b)));
  announce sender_user all_rooms_joined.

Definition set_avatar_url_route (b : Request (option rstr * option rstr)) : NM unit :=
  sender_user ← the_user b;
  ondb (set_avatar_url sender_user (body b).1) ;;
  ondb (set_blurhash sender_user (body b).2) ;;
  all_joined_rooms ← ondb (member_updates sender_user (with_avatar_url (body b).1));
  announce sender_user all_joined_rooms.

(** ** Reading a profile *)

Definition get_displayname_route (b : Request UserId) : NM (option rstr) :=
  let user_id := body b in
  if bool_decide (user_server_name user_id ≠ server_name) then
    response ← send_federation_request (user_server_name user_id) (GetProfileInformation user_id (Some (lit "displayname")));
    mret response.1.1
  else ondb (displayname user_id).

Definition get_avatar_url_route (b : Request UserId) : NM (option rstr * option rstr) :=
  let user_id := body b in
  if bool_decide (user_server_name user_id ≠ server_name) then
    response ← send_federation_request (user_server_name user_id) (GetProfileInformation user_id (Some (lit "avatar_url")));
    mret (response.1.2, response.2)
  else
    avatar_url ← ondb (avatar_url user_id);
    blurhash ← ondb (blurhash user_id);
    mret (avatar_url, blurhash).

(** Display name, avatar and blurhash. *)
Definition get_profile_route (b : Request UserId) : NM (option rstr * option rstr * option rstr) :=
  let user_id := body b in
  if bool_decide (user_server_name user_id ≠ server_name) then
    send_federation_request (user_server_name user_id) (GetProfileInformation user_id None)
  else
    known ← ondb (exists_user user_id);
    if negb known then fail (BadRequest NotFound "Profile was not found.")
    else
      avatar_url ← ondb (avatar_url user_id);
      blurhash ← ondb (blurhash user_id);
      displayname ← ondb (displayname user_id);
      mret (displayname, avatar_url, blurhash).

(** ** Presence *)

Definition set_presence_route (b : Request (PresenceState * option rstr)) : NM unit :=
  sender_user ← the_user b;
  rooms ← ondb (rooms_joined sender_user);
  for_each rooms (λ r,
    room_id ← lift r;
    presence ← ondb (presence_now sender_user (body b).1 (body b).2);
    ondb (update_presence sender_user room_id presence)).

(** The last update of a user is a time, the events of a room are numbered by the
    counter. *)
Definition get_last_presence_event (user_id : UserId) (room_id : RoomId) : DB (option PresenceEvent) :=
  o ← last_presence_update user_id;
  match o with
  | Some last_update => get_presence_event room_id user_id last_update
  | None => mret None
  end.

(** The loop that ends at the first event found. *)
Fixpoint first_presence (sender_user : UserId) (rooms : list (res RoomId)) : DB (option PresenceEvent) :=
  match rooms with
  | [] => mret None
  | r :: rooms =>
      room_id ← lift r;
      o ← get_last_presence_event sender_user room_id;
      match o with
      | Some presence => mret (Some presence)
      | None => first_presence sender_user rooms
      end
  end.

Definition get_presence_route (b : Request UserId) : NM PresenceEvent :=
  sender_user ← the_user b;
  rooms ← ondb (get_shared_rooms [sender_user; body b]);
  presence_event ← ondb (first_presence sender_user rooms);
  lift (expect presence_event "not yet implemented").
End profile.

(** ** Frames *)

Section profile_frames.
Context {Ev : Env} {EL : EventLib} {TL : TimelineLib} {CL : ContentLib} {Out : Outside}.

(** The trees an event of a local user may change. *)
Definition build_trees : list TreeId :=
  [eventid_shorteventid; shorteventid_eventid; statekey_shortstatekey; shortstatekey_statekey; statehash_shortstatehash;
   shortstatehash_statediff; shorteventid_shortstatehash; roomid_shortstatehash] ++ insert_trees ++ follow_trees.

Lemma prepare_event_keeps b u r : keeps [] (prepare_event b u r).
Proof. unfold prepare_event, get_auth_events, auth_entry, max_depth, unsigned_of, short_auth_type. cbn zeta. keeps_tac. Qed.
Lemma insert_pdu_keeps p js l : keeps insert_trees (insert_pdu p js l).
Proof. unfold insert_pdu. pose proof with_prev_content_keeps. keeps_tac. Qed.
Hint Resolve prepare_event_keeps insert_pdu_keeps append_to_state_keeps : keeps.
Lemma append_event_keeps p js l : preserves (sagree build_trees) (append_pdu p js l).
Proof.
  unfold append_pdu. pose proof (follow_up_keeps p) as Hf. server_tac.
  eapply sagree_mono; [apply Hf|]. case_decide; by_compute.
Qed.
Lemma build_and_append_pdu_keeps b u r : preserves (sagree build_trees) (build_and_append_pdu b u r).
Proof. unfold build_and_append_pdu, create_hash_and_sign_event. server_tac. apply append_event_keeps. Qed.
Lemma member_update_keeps u f r : keeps [] (member_update u f r).
Proof. unfold member_update. keeps_tac. Qed.
Hint Resolve member_update_keeps rooms_joined_keeps : keeps.
Lemma member_updates_keeps u f : keeps [] (member_updates u f).
Proof. unfold member_updates. keeps_tac. Qed.
Lemma presence_now_keeps u p m : keeps [] (presence_now u p m).
Proof. unfold presence_now, avatar_url, displayname. keeps_tac. Qed.
Lemma update_presence_keeps u r p : keeps [global; presenceid_presence; userid_lastpresenceupdate] (update_presence u r p).
Proof. unfold update_presence, ping_presence. keeps_tac. Qed.
Hint Resolve presence_now_keeps update_presence_keeps member_updates_keeps : keeps.
Lemma announce_keeps u l :
  preserves (nagree ([presenceid_presence; userid_lastpresenceupdate] ++ build_trees)) (announce u l).
Proof.
  unfold announce. apply preserves_for_each; [apply _|]. intros [b r]. node_tac.
  eapply nagree_mono; [apply on_server_keeps, build_and_append_pdu_keeps|by_compute].
Qed.
End profile_frames.

(** ** Theorems *)

Section profile_theorems.
Context {Ev : Env} {EL : EventLib} {TL : TimelineLib} {CL : ContentLib} {Out : Outside}.
Implicit Types (s : State) (n : Node).

Lemma displayname_get u s :
  displayname u s = (transpose (parse_string "Displayname in db is invalid." <$> db_map s userid_displayname !! idb u), s).
Proof. unfold displayname. by db_run. Qed.

(** A display name is set for good: whatever fails while it is announced in the rooms
    of the user, the profile has the new name afterwards, and no other user's name has
    changed. *)
Theorem set_displayname_stored (b : Request (option rstr)) u n :
  sender_user b = Some u →
  (displayname u (nd_db (set_displayname_route b n).2)).1 = Ok (body b) ∧
  ∀ v, v ≠ u → (displayname v (nd_db (set_displayname_route b n).2)).1 = (displayname v (nd_db n)).1.
Proof.
  intros Hu. unfold set_displayname_route, the_user. rewrite Hu. cbn [expect]. rewrite bind_lift_Ok.
  set (d1 := (set_displayname u (body b) (nd_db n)).2).
  assert (set_displayname u (body b) (nd_db n) = (Ok (), d1)) as E1 by (unfold d1; by destruct (body b)).
  rewrite (bind_Ok _ _ _ _ _ (ondb_run _ _ _ _ E1)).
  assert (db_map d1 userid_displayname =
    match body b with
    | Some x => <[idb u := as_bytes x]> (db_map (nd_db n) userid_displayname)
    | None => delete (idb u) (db_map (nd_db n) userid_displayname)
    end) as Ed.
  { unfold d1. destruct (body b); cbn; [apply db_map_put_eq|apply db_map_del_eq]. }
  set (m := ondb (member_updates u (with_displayname (body b))) ≫= λ l, announce u l).
  assert (db_map (nd_db (m (with_db d1 n)).2) userid_displayname = db_map d1 userid_displayname) as Em.
  { assert (preserves (nagree ([presenceid_presence; userid_lastpresenceupdate] ++ build_trees)) m) as Hm.
    { unfold m. apply preserves_bind; [apply _| |intros; apply announce_keeps].
      apply ondb_keeps. eapply keeps_mono; [apply member_updates_keeps|by_compute]. }
    apply (Hm (with_db d1 n)). by_compute. }
  rewrite displayname_get, Em, Ed. split.
  - destruct (body b) as [x|]; cbn; [|by rewrite lookup_delete_eq].
    rewrite lookup_insert_eq. cbn. unfold parse_string, string_from_bytes. by rewrite from_utf8_as_bytes.
  - intros v Hv. rewrite !displayname_get, Em, Ed. cbn [fst].
    assert (idb u ≠ idb v) by (intros ?%(inj idb); congruence).
    destruct (body b); [by rewrite lookup_insert_ne|by rewrite lookup_delete_ne].
Qed.

(** The member events that announce a new profile change nothing but the profile: each
    is for a room the user is listed in as joined, and its content is that of the
    user's current member event there with the change applied. *)
Theorem member_updates_sound u change s l s' builder r :
  member_updates u change s = (Ok l, s') → (builder, r) ∈ l →
  ∃ rooms event c s1, rooms_joined u s = (Ok rooms, s) ∧ Ok r ∈ rooms ∧ agree [] s s1 ∧
    (room_state_get r (lit "m.room.member") (as_str u) s1).1 = Ok (Some event) ∧
    member_content (content event) = Some c ∧
    builder = state_builder (lit "m.room.member") (as_str u) (CMember (change c)) ∧
    member_content (pb_content builder) = Some (change c).
Proof.
  unfold member_updates. intros H Hin. run_inv H rooms s0 E0.
  assert (s0 = s) as -> by (unfold rooms_joined in E0; by injection E0).
  set (P := λ (l : list (PduBuilder * RoomId)) s1, agree [] s s1 ∧ ((builder, r) ∈ l →
    ∃ event c s2, Ok r ∈ rooms ∧ agree [] s s2 ∧
      (room_state_get r (lit "m.room.member") (as_str u) s2).1 = Ok (Some event) ∧ member_content (content event) = Some c ∧
      builder = state_builder (lit "m.room.member") (as_str u) (CMember (change c)))).
  assert (P l s') as [_ HP].
  { refine (for_fold_Ok P _ _ _ _ _ _ _ _ H); [|by split; [|intros ?%not_elem_of_nil]].
    intros acc x s1 acc' s2 Hx [Ha Hacc] Hrun. unfold filter_map in Hx. apply list_elem_of_omap in Hx as ([x'| |] & Hx & [= ->]).
    run_inv Hrun o s3 E3.
    assert (agree [] s s3) as Ha3.
    { etrans; [exact Ha|]. apply (preserves_inv _ _ _ _ _ (preserves_try_ok _ _ (member_update_keeps u change x)) E3). }
    injection Hrun as <- <-. split; [done|]. destruct o as [bu|]; [|done]. intros [Hin'|Hin']%elem_of_app; [by apply Hacc|].
    apply list_elem_of_singleton in Hin'. injection Hin' as <- <-. unfold try_ok in E3.
    destruct (member_update u change r s1) as [[b0| |] s4] eqn:E4; try done. injection E3 as -> <-.
    unfold member_update in E4. run_inv E4 o s5 E5. lift_inv E4 event E6. lift_inv E4 c E7. injection E4 as <- _.
    apply ok_or_Ok in E6 as ->. apply ok_or_Ok in E7. exists event, c, s1. by rewrite E5. }
  destruct (HP Hin) as (event & c & s1 & H1 & H2 & H3 & H4 & ->).
  exists rooms, event, c, s1. split_and!; try done. cbn. apply member_roundtrip.
Qed.

(** ** Presence *)

(** The presence of every user in every room is numbered by the counter. *)
Definition presence_numbered s : Prop :=
  ∀ r u c, u64 c → is_Some (db_map s presenceid_presence !! presence_key r c u) → c ≤ count s.

Lemma presence_key_inj r r' c c' u u' :
  u64 c → u64 c' → presence_key r c u = presence_key r' c' u' → c = c'.
Proof.
  intros Hc Hc' [_ E]%key2_inj; [|auto with kv..]. apply app_inj_1 in E as [E _]; [by apply to_be_bytes_inj|].
  by rewrite !length_to_be_bytes.
Qed.

Lemma update_presence_numbered u r p s :
  presence_numbered s → count_ok s → presence_numbered (update_presence u r p s).2.
Proof.
  intros H Hc r' u' c Hu. unfold update_presence. rewrite (bind_Ok _ _ _ _ _ (next_count_ok _ Hc)). db_run.
  unfold ping_presence. db_run. rewrite t_insert_run. cbn [snd]. rewrite count_put, count_put, count_bump_ok by done. db_simpl.
  intros [x [[E _]|[_ Hx]]%lookup_insert_Some].
  - assert (count s + 1 = c) as <-; [|done]. eapply presence_key_inj; [done|done|exact E].
  - assert (c ≤ count s); [|lia]. apply (H r' u'); [done|]. by exists x.
Qed.

(** Asking for the presence of a user does not work: the time of the last update of the
    sender (not of the user asked for) is used as the number of an event, and as soon
    as the clock is past the counter of the server no such event exists, whatever
    presence was stored; the request ends in a panic. *)
Theorem get_presence_panics (b : Request UserId) u n rooms t :
  sender_user b = Some u → presence_numbered (nd_db n) →
  db_map (nd_db n) userid_lastpresenceupdate !! idb u = Some (to_be_bytes t) → u64 t → count (nd_db n) < t →
  get_shared_rooms [u; body b] (nd_db n) = (Ok (Ok <$> rooms), nd_db n) →
  (get_presence_route b n).1 = Panic "not yet implemented".
Proof.
  intros Hu Hp Hl Ht Hc Hr. unfold get_presence_route, the_user. rewrite Hu. cbn [expect]. rewrite bind_lift_Ok.
  rewrite (bind_Ok _ _ _ _ _ (ondb_run _ _ _ _ Hr)).
  assert (first_presence u (Ok <$> rooms) (nd_db n) = (Ok None, nd_db n)) as E.
  { clear Hr. induction rooms as [|r rooms IH]; [done|]. csimpl. rewrite bind_lift_Ok.
    rewrite (bind_Ok _ _ _ None (nd_db n)); [exact IH|].
    unfold get_last_presence_event. rewrite (bind_Ok _ _ _ (Some t) (nd_db n)).
    - unfold get_presence_event. db_step.
      destruct (db_map (nd_db n) presenceid_presence !! presence_key r t u) eqn:E; [|done].
      assert (t ≤ count (nd_db n)); [|lia]. apply (Hp r u t Ht). eauto.
    - unfold last_presence_update. db_step. rewrite Hl. cbn. unfold lift, parse_u64. by rewrite u64_from_be_u64. }
  by rewrite (bind_Ok _ _ _ _ _ (ondb_run _ (with_db _ _) _ _ E)).
Qed.
End profile_theorems.
