(* ===== verification/BackupApi.v ===== *)
(** * Routes for key backups ([src/api/client_server/backup.rs])

    Versions of a backup, and the session keys in them.  The abstract backup of
    the second half is a set of versions and a map of session keys; the routes
    implement it. *)

From S2P Require Import Prelude Bytes RStr Decimal Error Utils KvTree Env Db Keys Globals Frames Short Timeline Users KeyBackups OpFrames Federation EventFormat TimelineService EventHandler Request Admin Account.

Section backup_api.
Context {Ev : Env} {Out : Outside}.

(** ** Versions *)

(** [n as u32] *)
Definition as_u32 (n : nat) : N := N.of_nat n mod 2 ^ 32.

(** The number of keys and the etag of a version. *)
Definition backup_status (sender_user : UserId) (version : rstr) : NM (N * rstr) :=
  count ← ondb (count_keys sender_user version);
  etag ← ondb (get_etag sender_user version);
  mret (as_u32 count, etag).

Record BackupInfo := MkBackupInfo {
  bi_algorithm : Raw;
  bi_count : N;
  bi_etag : rstr;
  bi_version : rstr
}.

Definition create_backup_version_route (b : Request Raw) : NM rstr :=
  sender_user ← the_user b;
  ondb (create_backup sender_user (body b)).

Definition update_backup_version_route (b : Request (rstr * Raw)) : NM unit :=
  sender_user ← the_user b;
  ondb (update_backup sender_user (body b).1 (body b).2) ;;
  mret ().

Definition get_latest_backup_info_route (b : Request unit) : NM BackupInfo :=
  sender_user ← the_user b;
  o ← ondb (get_latest_backup sender_user);
  r ← lift (ok_or o (BadRequest NotFound "Key backup does not exist."));
  let '(version, algorithm) := (r : rstr * Raw) in
  status ← backup_status sender_user version;
  mret (MkBackupInfo algorithm status.1 status.2 version).

Definition get_backup_info_route (b : Request rstr) : NM BackupInfo :=
  sender_user ← the_user b;
  o ← ondb (get_backup sender_user (body b));
  algorithm ← lift (ok_or o (BadRequest NotFound "Key backup does not exist."));
  status ← backup_status sender_user (body b);
  mret (MkBackupInfo algorithm status.1 status.2 (body b)).

Definition delete_backup_version_route (b : Request rstr) : NM unit :=
  sender_user ← the_user b;
  ondb (delete_backup sender_user (body b)).

(** ** Adding keys *)

(** Only the latest version may be changed. *)
Definition require_latest (sender_user : UserId) (version : rstr) : NM unit :=
  latest ← ondb (get_latest_backup_version sender_user);
  if bool_decide (Some version ≠ latest) then
    fail (BadRequest InvalidParam "You may only manipulate the most recently created version of the backup.")
  else mret ().

(** The sessions of a room. *)
Definition add_room_sessions (sender_user : UserId) (version : rstr) (room_id : RoomId) (sessions : list (rstr * Raw)) : NM unit :=
  for_each sessions (λ e, ondb (add_key sender_user version room_id e.1 e.2)).

Definition add_backup_keys_route (b : Request (rstr * list (RoomId * list (rstr * Raw)))) : NM (N * rstr) :=
  sender_user ← the_user b;
  let '(version, rooms) := body b in
  require_latest sender_user version ;;
  for_each rooms (λ room, add_room_sessions sender_user version room.1 room.2) ;;
  backup_status sender_user version.

Definition add_backup_keys_for_room_route (b : Request (rstr * RoomId * list (rstr * Raw))) : NM (N * rstr) :=
  sender_user ← the_user b;
  let '(version, room_id, sessions) := body b in
  require_latest sender_user version ;;
  add_room_sessions sender_user version room_id sessions ;;
  backup_status sender_user version.

Definition add_backup_keys_for_session_route (b : Request (rstr * RoomId * rstr * Raw)) : NM (N * rstr) :=
  sender_user ← the_user b;
  let '(version, room_id, session_id, session_data) := body b in
  require_latest sender_user version ;;
  ondb (add_key sender_user version room_id session_id session_data) ;;
  backup_status sender_user version.

(** ** Reading keys *)

Definition get_backup_keys_route (b : Request rstr) : NM (gmap RoomId (gmap rstr Raw)) :=
  sender_user ← the_user b;
  ondb (get_all sender_user (body b)).

Definition get_backup_keys_for_room_route (b : Request (rstr * RoomId)) : NM (gmap rstr Raw) :=
  sender_user ← the_user b;
  ondb (get_room sender_user (body b).1 (body b).2).

Definition get_backup_keys_for_session_route (b : Request (rstr * RoomId * rstr)) : NM Raw :=
  sender_user ← the_user b;
  let '(version, room_id, session_id) := body b in
  o ← ondb (get_session sender_user version room_id session_id);
  lift (ok_or o (BadRequest NotFound "Backup key not found for this user's session.")).

(** ** Deleting keys *)

Definition delete_backup_keys_route (b : Request rstr) : NM (N * rstr) :=
  sender_user ← the_user b;
  ondb (delete_all_keys sender_user (body b)) ;;
  backup_status sender_user (body b).

Definition delete_backup_keys_for_room_route (b : Request (rstr * RoomId)) : NM (N * rstr) :=
  sender_user ← the_user b;
  ondb (delete_room_keys sender_user (body b).1 (body b).2) ;;
  backup_status sender_user (body b).1.

Definition delete_backup_keys_for_session_route (b : Request (rstr * RoomId * rstr)) : NM (N * rstr) :=
  sender_user ← the_user b;
  let '(version, room_id, session_id) := body b in
  ondb (delete_room_key sender_user version room_id session_id) ;;
  backup_status sender_user version.
End backup_api.

(** ** The abstract backup *)

Section backup_spec.
Context {Ev : Env} {Out : Outside}.
Implicit Types (s : State) (n : Node).

Abbreviation SessionId := (UserId * rstr * RoomId * rstr)%type.
Record Backups := MkBackups {
  bk_versions : gset (UserId * rstr);
  bk_sessions : gmap SessionId bytes
}.

(** The latest version of a user, in the order of the texts. *)
Definition latest (B : Backups) (u : UserId) (v : rstr) : Prop :=
  (u, v) ∈ bk_versions B ∧ ∀ v', (u, v') ∈ bk_versions B → as_bytes v' ≤b as_bytes v.

Definition store (u : UserId) (v : rstr) (B : Backups) (e : RoomId * rstr * Raw) : Backups :=
  MkBackups (bk_versions B) (<[(u, v, e.1.1, e.1.2) := raw_text e.2]> (bk_sessions B)).
Definition drop_sessions (P : SessionId → Prop) `{!∀ x, Decision (P x)} (B : Backups) : Backups :=
  MkBackups (bk_versions B) (filter (λ e, ¬ P e.1) (bk_sessions B)).

(** What clients ask for. *)
Inductive BackupOp :=
  | BCreate (u : UserId) (algorithm : Raw)
  | BUpdate (u : UserId) (v : rstr) (algorithm : Raw)
  | BDelete (u : UserId) (v : rstr)
  | BAdd (u : UserId) (v : rstr) (rooms : list (RoomId * list (rstr * Raw)))
  | BAddRoom (u : UserId) (v : rstr) (r : RoomId) (sessions : list (rstr * Raw))
  | BAddSession (u : UserId) (v : rstr) (r : RoomId) (i : rstr) (data : Raw)
  | BDeleteAll (u : UserId) (v : rstr)
  | BDeleteRoom (u : UserId) (v : rstr) (r : RoomId)
  | BDeleteSession (u : UserId) (v : rstr) (r : RoomId) (i : rstr).

Definition by_user {T} (u : UserId) (t : T) : Request T := MkRequest t (Some u) None None None false.
Definition serve_backup n (o : BackupOp) : Node :=
  match o with
  | BCreate u a => (create_backup_version_route (by_user u a) n).2
  | BUpdate u v a => (update_backup_version_route (by_user u (v, a)) n).2
  | BDelete u v => (delete_backup_version_route (by_user u v) n).2
  | BAdd u v rooms => (add_backup_keys_route (by_user u (v, rooms)) n).2
  | BAddRoom u v r l => (add_backup_keys_for_room_route (by_user u (v, r, l)) n).2
  | BAddSession u v r i d => (add_backup_keys_for_session_route (by_user u (v, r, i, d)) n).2
  | BDeleteAll u v => (delete_backup_keys_route (by_user u v) n).2
  | BDeleteRoom u v r => (delete_backup_keys_for_room_route (by_user u (v, r)) n).2
  | BDeleteSession u v r i => (delete_backup_keys_for_session_route (by_user u (v, r, i)) n).2
  end.

(** The keys an operation adds, in order. *)
Definition added (o : BackupOp) : option (UserId * rstr * list (RoomId * rstr * Raw)) :=
  match o with
  | BAdd u v rooms => Some (u, v, rooms ≫= λ room, (λ e, (room.1, e.1, e.2)) <$> room.2)
  | BAddRoom u v r l => Some (u, v, (λ e, (r, e.1, e.2)) <$> l)
  | BAddSession u v r i d => Some (u, v, [(r, i, d)])
  | _ => None
  end.

(** The steps of the abstract backup. *)
Inductive backup_step : Backups → BackupOp → Backups → Prop :=
  | step_create B u a c :
      u64 c → backup_step B (BCreate u a) (MkBackups ({[(u, u64_to_string c)]} ∪ bk_versions B) (bk_sessions B))
  | step_update B u v a : backup_step B (BUpdate u v a) B
  | step_delete B u v :
      backup_step B (BDelete u v)
        (drop_sessions (λ x, x.1.1 = (u, v)) (MkBackups (bk_versions B ∖ {[(u, v)]}) (bk_sessions B)))
  | step_add B o u v l : added o = Some (u, v, l) → latest B u v → backup_step B o (foldl (store u v) B l)
  | step_refused B o u v l : added o = Some (u, v, l) → ¬ latest B u v → backup_step B o B
  | step_delete_all B u v : backup_step B (BDeleteAll u v) (drop_sessions (λ x, x.1.1 = (u, v)) B)
  | step_delete_room B u v r : backup_step B (BDeleteRoom u v r) (drop_sessions (λ x, x.1 = (u, v, r)) B)
  | step_delete_session B u v r i :
      backup_step B (BDeleteSession u v r i)
        (drop_sessions (λ x, x.1 = (u, v, r) ∧ as_bytes i `prefix_of` as_bytes x.2) B).

(** The database holds an abstract backup. *)
Record holds n (B : Backups) : Prop := {
  holds_versions u v : (u, v) ∈ bk_versions B ↔ is_Some (db_map (nd_db n) backupid_algorithm !! backup_key u v);
  holds_sessions u v r i :
    bk_sessions B !! (u, v, r, i) = db_map (nd_db n) backupkeyid_backup !! session_key u v r i;
  holds_numbered k w : db_map (nd_db n) backupid_algorithm !! k = Some w → ∃ u c, u64 c ∧ k = backup_key u (u64_to_string c)
}.
End backup_spec.

(** ** The routes implement the abstract backup *)

Section backup_routes.
Context {Ev : Env} {Out : Outside}.
Implicit Types (s : State) (n : Node) (B : Backups).

#[export] Instance bytes_le_antisymm : AntiSymm (=) bytes_le.
Proof.
  intros a b [H1|H1]%bytes_le_lt_eq H2; [|done]. apply bytes_le_lt_eq in H2 as [H2|H2]; [|done].
  destruct (irreflexivity bytes_lt a). by etrans.
Qed.

Lemma holds_same n n' B :
  holds n B → db_map (nd_db n') backupid_algorithm = db_map (nd_db n) backupid_algorithm →
  db_map (nd_db n') backupkeyid_backup = db_map (nd_db n) backupkeyid_backup → holds n' B.
Proof.
  intros [H1 H2 H3] E1 E2. split.
  - intros u v. by rewrite E1.
  - intros u v r i. by rewrite E2.
  - intros k w. rewrite E1. apply H3.
Qed.
Lemma holds_agree ts n n' B :
  holds n B → nagree ts n n' → backupid_algorithm ∉ ts → backupkeyid_backup ∉ ts → holds n' B.
Proof. intros H Ha H1 H2. apply (holds_same n); [done|by apply Ha..]. Qed.

Lemma backup_status_keeps u v : preserves (nagree []) (backup_status u v).
Proof. unfold backup_status, count_keys, get_etag. node_tac. Qed.

(** A route that ends by reporting the status. *)
Lemma then_status (m : NM unit) u v n n1 B :
  m n = (Ok (), n1) → holds n1 B → holds ((m ;; backup_status u v) n).2 B.
Proof.
  intros E H. rewrite (bind_Ok _ _ _ _ _ E). eapply holds_agree; [exact H|apply backup_status_keeps|by_compute..].
Qed.

Lemma session_prefix u v r i u' v' r' i' :
  session_key u v r i `prefix_of` session_key u' v' r' i' ↔ (u', v', r') = (u, v, r) ∧ as_bytes i `prefix_of` as_bytes i'.
Proof.
  unfold session_key, key2. rewrite !key_prefix by auto with kv. split.
  - intros (E1 & E2 & E3 & H). split; [|done].
    apply (inj idb) in E1 as ->. apply (inj as_bytes) in E2 as ->. by apply (inj idb) in E3 as ->.
  - by intros [[= -> -> ->] H].
Qed.

(** Removing the keys with a prefix. *)
Lemma holds_drop n B (p : bytes) (P : UserId * rstr * RoomId * rstr → Prop) `{!∀ x, Decision (P x)} :
  holds n B → (∀ u v r i, p `prefix_of` session_key u v r i ↔ P (u, v, r, i)) →
  holds (with_db (del_prefix backupkeyid_backup p (nd_db n)) n) (drop_sessions P B).
Proof.
  intros [H1 H2 H3] HP. split; change (nd_db (with_db ?d _)) with d.
  - intros u v. rewrite db_map_del_prefix_ne by done. apply H1.
  - intros u v r i. rewrite lookup_del_prefix. unfold drop_sessions. cbn. destruct (decide (P (u, v, r, i))) as [HPx|HPx].
    + rewrite decide_True by by apply HP. apply map_lookup_filter_None. right. by intros ? _ [].
    + rewrite decide_False by by rewrite HP. rewrite <- H2. destruct (bk_sessions B !! (u, v, r, i)) as [w|] eqn:E.
      * apply map_lookup_filter_Some. done.
      * apply map_lookup_filter_None. by left.
  - intros k w. rewrite db_map_del_prefix_ne by done. apply H3.
Qed.

(** ** Adding *)

Lemma add_key_holds n B u v r i d :
  holds n B → (u, v) ∈ bk_versions B →
  ∃ n', ondb (add_key u v r i d) n = (Ok (), n') ∧ holds n' (store u v B (r, i, d)).
Proof.
  intros H Hv. apply (holds_versions n B H) in Hv as [a Ha]. destruct H as [H1 H2 H3].
  eexists. split.
  - apply ondb_run. unfold add_key. cbn zeta. db_step. rewrite Ha.
    rewrite (bind_Ok _ _ _ _ _ (next_count_run _)). db_step. apply t_insert_run.
  - split; change (nd_db (with_db ?x _)) with x; unfold store; cbn.
    + intros u' v'. db_simpl. apply H1.
    + intros u' v' r' i'. db_simpl.
      destruct (decide ((u', v', r', i') = (u, v, r, i))) as [[= -> -> -> ->]|Hne].
      * by rewrite !lookup_insert_eq.
      * rewrite !lookup_insert_ne; [apply H2| |congruence].
        intros (-> & -> & -> & ->)%session_key_inj. by apply Hne.
    + intros k w. db_simpl. apply H3.
Qed.

Lemma store_versions u v l B : bk_versions (foldl (store u v) B l) = bk_versions B.
Proof. revert B. induction l as [|e l IH]; intros B; cbn; [done|]. by rewrite IH. Qed.

Lemma add_room_holds n B u v r l :
  holds n B → (u, v) ∈ bk_versions B →
  ∃ n', add_room_sessions u v r l n = (Ok (), n') ∧ holds n' (foldl (store u v) B ((λ e, (r, e.1, e.2)) <$> l)).
Proof.
  unfold add_room_sessions. revert n B. induction l as [|[i d] l IH]; intros n B H Hv; [by exists n|]. cbn.
  destruct (add_key_holds n B u v r i d H Hv) as (n1 & E1 & H'). rewrite (bind_Ok _ _ _ _ _ E1).
  by apply (IH n1 (store u v B (r, i, d))).
Qed.
Lemma add_rooms_holds n B u v (rooms : list (RoomId * list (rstr * Raw))) :
  holds n B → (u, v) ∈ bk_versions B →
  ∃ n', for_each rooms (λ room, add_room_sessions u v room.1 room.2) n = (Ok (), n') ∧
    holds n' (foldl (store u v) B (rooms ≫= λ room, (λ e, (room.1, e.1, e.2)) <$> room.2)).
Proof.
  revert n B. induction rooms as [|[r l] rooms IH]; intros n B H Hv; [by exists n|]. cbn [for_each fst snd].
  destruct (add_room_holds n B u v r l H Hv) as (n1 & E1 & H'). rewrite (bind_Ok _ _ _ _ _ E1).
  rewrite bind_cons, foldl_app. apply (IH n1 _ H'). by rewrite store_versions.
Qed.

(** The check for the latest version. *)
Lemma require_latest_run n B u v :
  holds n B →
  (latest B u v → require_latest u v n = (Ok (), n)) ∧
  (¬ latest B u v → require_latest u v n =
     (Err (BadRequest InvalidParam "You may only manipulate the most recently created version of the backup."), n)).
Proof.
  intros H. destruct (latest_version_run u (nd_db n) (holds_numbered n B H)) as (o & E & Ho).
  assert (with_db (nd_db n) n = n) as En by by destruct n as [[[]]].
  assert (latest B u v ↔ Some v = o) as Hiff.
  { unfold latest. split.
    - intros [Hv Hmax]. destruct o as [v'|].
      + destruct Ho as [Hv' Hmax']. f_equal. apply (inj as_bytes), (anti_symm bytes_le).
        * pose proof Hv as [w Hw]%(holds_versions n B H). destruct (holds_numbered n B H _ _ Hw) as (u0 & c & Hc & Ek).
          apply backup_key_inj in Ek as [<- ->]. apply Hmax'. eauto.
        * apply Hmax. by apply (holds_versions n B H).
      + pose proof Hv as [w Hw]%(holds_versions n B H). destruct (holds_numbered n B H _ _ Hw) as (u0 & c & Hc & Ek).
        apply backup_key_inj in Ek as [<- ->]. by rewrite Ho in Hw.
    - intros <-. destruct Ho as [Hv Hmax]. split; [by apply (holds_versions n B H)|].
      intros v' Hv'. pose proof Hv' as [w Hw]%(holds_versions n B H).
      destruct (holds_numbered n B H _ _ Hw) as (u0 & c & Hc & Ek). apply backup_key_inj in Ek as [<- ->]. apply Hmax. eauto. }
  unfold require_latest. rewrite (bind_Ok _ _ _ _ _ (ondb_run _ _ _ _ E)), En. split; intros Hl.
  - rewrite bool_decide_false; [done|]. intros Hne. by apply Hne, Hiff.
  - rewrite bool_decide_true; [done|]. by rewrite <- Hiff.
Qed.

#[export] Instance latest_dec B u v : Decision (latest B u v).
Proof.
  destruct (decide ((u, v) ∈ bk_versions B ∧ set_Forall (λ x, x.1 = u → as_bytes x.2 ≤b as_bytes v) (bk_versions B)))
    as [[Hv Hm]|Hn]; [left|right].
  - split; [done|]. intros v' Hv'. by apply (Hm (u, v')).
  - intros [Hv Hm]. apply Hn. split; [done|]. intros [u' v'] Hx Eu. cbn in Eu. subst u'. by apply Hm.
Defined.

(** A request to add keys. *)
Lemma add_step (m : NM unit) o n B u v l :
  added o = Some (u, v, l) → holds n B →
  (latest B u v → ∃ n', m n = (Ok (), n') ∧ holds n' (foldl (store u v) B l)) →
  ∃ B', backup_step B o B' ∧ holds ((require_latest u v ;; m ;; backup_status u v) n).2 B'.
Proof.
  intros Ho H Hm. destruct (require_latest_run n B u v H) as [H1 H2].
  destruct (decide (latest B u v)) as [Hl|Hl].
  - destruct (Hm Hl) as (n1 & E & Hn). exists (foldl (store u v) B l). split; [by eapply step_add|].
    rewrite (bind_Ok _ _ _ _ _ (H1 Hl)). by eapply then_status.
  - exists B. split; [by eapply step_refused|]. unfold mbind at 1, M_bind at 1. by rewrite (H2 Hl).
Qed.

(** ** Versions *)

Lemma create_sim u a n B : holds n B → ∃ B', backup_step B (BCreate u a) B' ∧ holds (serve_backup n (BCreate u a)) B'.
Proof.
  intros H. cbn [serve_backup].
  eexists. split; [apply (step_create B u a (wrap64 (count (nd_db n) + 1))), wrap64_u64|].
  unfold create_backup_version_route, the_user. cbn [by_user sender_user expect body]. rewrite bind_lift_Ok.
  unfold create_backup. erewrite ondb_run; [|rewrite (bind_Ok _ _ _ _ _ (next_count_run _)); cbn zeta; db_step;
    rewrite (bind_Ok _ _ _ _ _ (next_count_run _)); db_step; reflexivity].
  destruct H as [H1 H2 H3]. split; cbn [snd]; change (nd_db (with_db ?x _)) with x; cbn.
  + intros u' v'. db_simpl. rewrite elem_of_union, elem_of_singleton, lookup_insert_is_Some, H1. split.
    * intros [[= -> ->]|Hs]; [by left|]. destruct (decide (backup_key u (u64_to_string (wrap64 (count (nd_db n) + 1))) = backup_key u' v')); auto.
    * intros [[-> <-]%backup_key_inj|[_ Hs]]; auto.
  + intros u' v' r' i'. db_simpl. apply H2.
  + intros k w. db_simpl. rewrite lookup_insert_Some. intros [[<- _]|[_ Hk]]; [|by eapply H3].
    eexists _, _. split; [apply wrap64_u64|done].
Qed.
Lemma update_sim u v a n B : holds n B → holds (serve_backup n (BUpdate u v a)) B.
Proof.
  intros H. cbn [serve_backup].
  unfold update_backup_version_route, the_user.
  cbn [by_user sender_user expect body fst snd]. rewrite bind_lift_Ok. unfold update_backup. cbn zeta.
  destruct (db_map (nd_db n) backupid_algorithm !! backup_key u v) as [a0|] eqn:Ea.
  + erewrite bind_Ok; [|apply ondb_run; db_step; rewrite Ea; db_step; rewrite (bind_Ok _ _ _ _ _ (next_count_run _)); db_step; reflexivity].
    destruct H as [H1 H2 H3]. split; cbn [snd mret M_ret]; change (nd_db (with_db ?x _)) with x.
    * intros u' v'. db_simpl. rewrite H1, lookup_insert_is_Some. split; [|by intros [<-|[_ ?]]; eauto].
      destruct (decide (backup_key u v = backup_key u' v')); auto.
    * intros u' v' r' i'. db_simpl. apply H2.
    * intros k w. db_simpl. rewrite lookup_insert_Some. intros [[<- _]|[_ Hk]]; [|by eapply H3]. by apply (H3 _ a0).
  + unfold mbind at 1, M_bind at 1. erewrite ondb_run; [|db_step; rewrite Ea; reflexivity]. cbn [snd].
    by apply (holds_same n).
Qed.
Lemma delete_sim u v n B : holds n B → ∃ B', backup_step B (BDelete u v) B' ∧ holds (serve_backup n (BDelete u v)) B'.
Proof.
  intros H. cbn [serve_backup].
  eexists. split; [constructor|]. unfold delete_backup_version_route, the_user.
  cbn [by_user sender_user expect body]. rewrite bind_lift_Ok. unfold delete_backup. cbn zeta.
  erewrite ondb_run; [|do 2 db_step; apply t_remove_prefix_run]. cbn [snd].
  set (d := del backupid_etag _ _). apply (holds_drop (with_db d n)); [|by intros; rewrite backup_prefix; naive_solver].
  destruct H as [H1 H2 H3]. split; change (nd_db (with_db ?x _)) with x; cbn; unfold d.
  + intros u' v'. db_simpl. rewrite elem_of_difference, elem_of_singleton, lookup_delete_is_Some, H1. split.
    * intros [Hs Hne]. split; [|done]. intros [-> ->]%backup_key_inj. by apply Hne.
    * intros [Hne Hs]. split; [done|]. intros [= -> ->]. by apply Hne.
  + intros u' v' r' i'. db_simpl. apply H2.
  + intros k w. db_simpl. intros [_ Hk]%lookup_delete_Some. by eapply H3.
Qed.

Lemma backup_step_sim o n B : holds n B → ∃ B', backup_step B o B' ∧ holds (serve_backup n o) B'.
Proof.
  intros H. destruct o as [u a|u v a|u v|u v rooms|u v r l|u v r i d|u v|u v r|u v r i].
  - by apply create_sim.
  - exists B. split; [constructor|by apply update_sim].
  - by apply delete_sim.
  - apply (add_step (for_each rooms (λ room, add_room_sessions u v room.1 room.2)) (BAdd u v rooms) n B u v _ eq_refl H).
    intros [Hv _]. by apply add_rooms_holds.
  - apply (add_step (add_room_sessions u v r l) (BAddRoom u v r l) n B u v _ eq_refl H). intros [Hv _]. by apply add_room_holds.
  - apply (add_step (ondb (add_key u v r i d)) (BAddSession u v r i d) n B u v _ eq_refl H). intros [Hv _].
    by apply add_key_holds.
  - exists (drop_sessions (λ x, x.1.1 = (u, v)) B). split; [constructor|].
    apply (then_status (ondb (delete_all_keys u v)) u v n _ _ (ondb_run _ _ _ _ (t_remove_prefix_run _ _ _))).
    apply holds_drop; [done|]. intros. rewrite backup_prefix. naive_solver.
  - exists (drop_sessions (λ x, x.1 = (u, v, r)) B). split; [constructor|].
    apply (then_status (ondb (delete_room_keys u v r)) u v n _ _ (ondb_run _ _ _ _ (t_remove_prefix_run _ _ _))).
    apply holds_drop; [done|]. intros. rewrite room_prefix_of_iff. naive_solver.
  - exists (drop_sessions (λ x, x.1 = (u, v, r) ∧ as_bytes i `prefix_of` as_bytes x.2) B). split; [constructor|].
    apply (then_status (ondb (delete_room_key u v r i)) u v n _ _ (ondb_run _ _ _ _ (t_remove_prefix_run _ _ _))).
    apply holds_drop; [done|]. intros. by rewrite session_prefix.
Qed.

(** Runs of the abstract backup. *)
Inductive backup_run : Backups → list BackupOp → Backups → Prop :=
  | run_nil B : backup_run B [] B
  | run_cons B1 B2 B3 o ops : backup_step B1 o B2 → backup_run B2 ops B3 → backup_run B1 (o :: ops) B3.

(** C15: The backup routes implement the abstract backup: after any sequence of requests by
    any users, successful or refused, the database holds the versions and the session
    keys of a run of the abstract backup, in which keys are added only to the latest
    version (in the order of the decimal texts), and removed by version, by room, or by
    session, where a session takes with it those whose id extends its own. *)
Theorem backup_refinement ops n B :
  holds n B → ∃ B', backup_run B ops B' ∧ holds (foldl serve_backup n ops) B'.
Proof.
  revert n B. induction ops as [|o ops IH]; intros n B H; [by exists B; split; [constructor|]|]. cbn [foldl].
  destruct (backup_step_sim o n B H) as (B1 & Hs & H1). destruct (IH _ _ H1) as (B' & Hr & H'). exists B'.
  split; [by econstructor|done].
Qed.

(** What is read is what the abstract backup holds. *)
Theorem get_backup_key_correct n B u v r i raw :
  holds n B → bk_sessions B !! (u, v, r, i) = Some (raw_text raw) →
  get_backup_keys_for_session_route (by_user u (v, r, i)) n = (Ok raw, n).
Proof.
  intros H E. rewrite (holds_sessions n B H) in E. unfold get_backup_keys_for_session_route, the_user.
  cbn [by_user sender_user expect body]. rewrite bind_lift_Ok. unfold get_session.
  erewrite bind_Ok; [|apply ondb_run; db_step; rewrite E; unfold parse_json; cbn; rewrite raw_from_text; reflexivity].
  by destruct n as [[[]]].
Qed.
End backup_routes.
