(* ===== verification/AccountDataApi.v ===== *)
(** * Account data, push rules and tags ([src/api/client_server/config.rs],
    [src/api/client_server/push.rs], [src/api/client_server/tag.rs])

    Push rules and the tags of a room are account data with a typed content,
    which the routes read, change and write back. *)

From S2P Require Import Prelude Bytes RStr Error Utils KvTree Env Db Keys Globals Frames ClientData OpFrames Federation EventFormat TimelineService EventHandler Request Admin Account BackupApi.

(** ** Push rules *)

(** ruma's [ConditionalPushRule], [PatternedPushRule] and [SimplePushRule]: the
    argument is what the kind adds. *)
Record PushRule (A : Type) := MkPushRule {
  rule_actions : list Action;
  rule_default : bool;
  rule_enabled : bool;
  rule_id : rstr;
  rule_extra : A
}.
Arguments MkPushRule {A}.
Arguments rule_actions {A}.
Arguments rule_default {A}.
Arguments rule_enabled {A}.
Arguments rule_id {A}.
Arguments rule_extra {A}.

Definition with_actions {A} (actions : list Action) (r : PushRule A) : PushRule A :=
  MkPushRule actions (rule_default r) (rule_enabled r) (rule_id r) (rule_extra r).
Definition with_enabled {A} (enabled : bool) (r : PushRule A) : PushRule A :=
  MkPushRule (rule_actions r) (rule_default r) enabled (rule_id r) (rule_extra r).

Definition has_id {A} (id : rstr) (r : PushRule A) : Prop := rule_id r = id.
#[export] Instance has_id_dec {A} id (r : PushRule A) : Decision (has_id id r) := decide (rule_id r = id).

(** What [Vec::swap_remove] leaves: the last element takes the place of the removed one. *)
Definition swap_remove {A} (i : nat) (l : list A) : list A :=
  match last l with
  | Some z => take (length l - 1) (<[i := z]> l)
  | None => l
  end.

(** indexmap's [IndexSet] of rules, which are equal if their ids are. *)
Class IndexSetLib := {
  IndexSet : Type → Type;
  elems : ∀ {A}, IndexSet (PushRule A) → list (PushRule A);
  set_replace : ∀ {A}, PushRule A → IndexSet (PushRule A) → IndexSet (PushRule A);
  set_insert : ∀ {A}, PushRule A → IndexSet (PushRule A) → IndexSet (PushRule A);
  set_remove : ∀ {A}, PushRule A → IndexSet (PushRule A) → IndexSet (PushRule A);
  elems_nodup : ∀ {A} (s : IndexSet (PushRule A)), NoDup (rule_id <$> elems s);
  (** the equal element is replaced in its place, or the new one is the last *)
  elems_replace : ∀ {A} (r : PushRule A) s,
    elems (set_replace r s) =
      match list_find (has_id (rule_id r)) (elems s) with Some (i, _) => <[i := r]> (elems s) | None => elems s ++ [r] end;
  (** an equal element stays, or the new one is the last *)
  elems_insert : ∀ {A} (r : PushRule A) s,
    elems (set_insert r s) = match list_find (has_id (rule_id r)) (elems s) with Some _ => elems s | None => elems s ++ [r] end;
  (** the last element takes the place of the removed one *)
  elems_remove : ∀ {A} (r : PushRule A) s,
    elems (set_remove r s) =
      match list_find (has_id (rule_id r)) (elems s) with Some (i, _) => swap_remove i (elems s) | None => elems s end;
}.

(** [IndexSet::get] by a rule id, and the search with [iter().find(..)]. *)
Definition set_get `{!IndexSetLib} {A} (id : rstr) (s : IndexSet (PushRule A)) : option (PushRule A) :=
  snd <$> list_find (has_id id) (elems s).

Section push.
Context {Ev : Env} {EL : EventLib} {TL : TimelineLib} {IL : IndexSetLib} {Out : Outside}.

(** ruma's [Ruleset]; conditions are kept as JSON. *)
Record Rules := MkRules {
  rs_content : IndexSet (PushRule rstr);
  rs_override : IndexSet (PushRule (list json));
  rs_room : IndexSet (PushRule unit);
  rs_sender : IndexSet (PushRule unit);
  rs_underride : IndexSet (PushRule (list json))
}.

(** [PushRulesEvent], [TagEvent] and account data with any content, as JSON and back. *)
Class AccountDataLib := {
  push_rules_event : Raw → option Rules;
  push_rules_value : Rules → json;
  push_rules_fields r : has_fields (push_rules_value r);
  push_rules_read r : push_rules_event (to_raw_value (push_rules_value r)) = Some r;
  (** the rules notifications are computed from *)
  ruleset_of : Rules → Ruleset;
  push_rules_global_event r : push_rules_global r = ruleset_of <$> push_rules_event r;
  tag_event : Raw → option (list (rstr * json));
  tag_value : list (rstr * json) → json;
  tag_fields t : has_fields (tag_value t);
  tag_read t : tag_event (to_raw_value (tag_value t)) = Some t;
  (** the field [content] of an event *)
  extract_content : Raw → option Raw;
  extract_content_value l : extract_content (to_raw_value (JObj l)) = to_raw_value <$> obj_get (lit "content") l;
}.
Context {DL : AccountDataLib}.

Inductive RuleScope := GlobalScope | OtherScope.
#[export] Instance RuleScope_eq_dec : EqDecision RuleScope.
Proof. solve_decision. Defined.
Inductive RuleKind := KOverride | KUnderride | KSender | KRoom | KContent | KOther.

(** ruma's [NewPushRule]. *)
Inductive NewPushRule :=
  | NewOverride (rule_id : rstr) (actions : list Action) (conditions : list json)
  | NewUnderride (rule_id : rstr) (actions : list Action) (conditions : list json)
  | NewSender (rule_id : rstr) (actions : list Action)
  | NewRoom (rule_id : rstr) (actions : list Action)
  | NewContent (rule_id : rstr) (actions : list Action) (pattern : rstr).

(** A rule of any kind ([PushRule] of the client API). *)
Record AnyPushRule := MkAnyPushRule {
  any_actions : list Action;
  any_default : bool;
  any_enabled : bool;
  any_rule_id : rstr;
  any_conditions : option (list json);
  any_pattern : option rstr
}.
Definition any_rule {A} (conditions : A → option (list json)) (pattern : A → option rstr) (r : PushRule A) : AnyPushRule :=
  MkAnyPushRule (rule_actions r) (rule_default r) (rule_enabled r) (rule_id r) (conditions (rule_extra r)) (pattern (rule_extra r)).

(** [global.<kind>]: the field of a kind is looked at or changed. *)
Definition at_kind {B} (f : ∀ {A}, IndexSet (PushRule A) → option B) (kind : RuleKind) (g : Rules) : option B :=
  match kind with
  | KOverride => f (rs_override g)
  | KUnderride => f (rs_underride g)
  | KSender => f (rs_sender g)
  | KRoom => f (rs_room g)
  | KContent => f (rs_content g)
  | KOther => None
  end.
Definition change_kind (f : ∀ {A}, IndexSet (PushRule A) → IndexSet (PushRule A)) (kind : RuleKind) (g : Rules) : Rules :=
  match kind with
  | KOverride => MkRules (rs_content g) (f (rs_override g)) (rs_room g) (rs_sender g) (rs_underride g)
  | KUnderride => MkRules (rs_content g) (rs_override g) (rs_room g) (rs_sender g) (f (rs_underride g))
  | KSender => MkRules (rs_content g) (rs_override g) (rs_room g) (f (rs_sender g)) (rs_underride g)
  | KRoom => MkRules (rs_content g) (rs_override g) (f (rs_room g)) (rs_sender g) (rs_underride g)
  | KContent => MkRules (f (rs_content g)) (rs_override g) (rs_room g) (rs_sender g) (rs_underride g)
  | KOther => g
  end.

(** The rules of the sender. *)
Definition push_rules_of (sender_user : UserId) : NM Rules :=
  o ← ondb (ClientData.get None sender_user (lit "m.push_rules"));
  event ← lift (ok_or o (BadRequest NotFound "PushRules event not found."));
  lift (ok_or (push_rules_event event) (BadDatabase "Invalid account data event in db.")).
Definition save_push_rules (sender_user : UserId) (global : Rules) : NM unit :=
  ondb (ClientData.update None sender_user (lit "m.push_rules") (push_rules_value global)).

Definition require_global (scope : RuleScope) : NM unit :=
  if bool_decide (scope ≠ GlobalScope) then
    fail (BadRequest InvalidParam "Scopes other than 'global' are not supported.")
  else mret ().

Definition get_pushrules_all_route (b : Request unit) : NM Rules :=
  sender_user ← the_user b;
  push_rules_of sender_user.

Record RuleRequest := MkRuleRequest { rr_scope : RuleScope; rr_kind : RuleKind; rr_rule_id : rstr }.

Definition any_rule_of (kind : RuleKind) (id : rstr) (global : Rules) : option AnyPushRule :=
  match kind with
  | KOverride => any_rule Some (λ _, None) <$> set_get id (rs_override global)
  | KUnderride => any_rule Some (λ _, None) <$> set_get id (rs_underride global)
  | KSender => any_rule (λ _, None) (λ _, None) <$> set_get id (rs_sender global)
  | KRoom => any_rule (λ _, None) (λ _, None) <$> set_get id (rs_room global)
  | KContent => any_rule (λ _, None) Some <$> set_get id (rs_content global)
  | KOther => None
  end.

(** The scope is not looked at. *)
Definition get_pushrule_route (b : Request RuleRequest) : NM AnyPushRule :=
  sender_user ← the_user b;
  global ← push_rules_of sender_user;
  lift (ok_or (any_rule_of (rr_kind (body b)) (rr_rule_id (body b)) global) (BadRequest NotFound "Push rule not found.")).

Definition add_rule (rule : NewPushRule) (g : Rules) : Rules :=
  match rule with
  | NewOverride id actions conditions =>
      MkRules (rs_content g) (set_replace (MkPushRule actions false true id conditions) (rs_override g)) (rs_room g) (rs_sender g)
        (rs_underride g)
  | NewUnderride id actions conditions =>
      MkRules (rs_content g) (rs_override g) (rs_room g) (rs_sender g)
        (set_replace (MkPushRule actions false true id conditions) (rs_underride g))
  | NewSender id actions =>
      MkRules (rs_content g) (rs_override g) (rs_room g) (set_replace (MkPushRule actions false true id ()) (rs_sender g))
        (rs_underride g)
  | NewRoom id actions =>
      MkRules (rs_content g) (rs_override g) (set_replace (MkPushRule actions false true id ()) (rs_room g)) (rs_sender g)
        (rs_underride g)
  | NewContent id actions pattern =>
      MkRules (set_replace (MkPushRule actions false true id pattern) (rs_content g)) (rs_override g) (rs_room g) (rs_sender g)
        (rs_underride g)
  end.

Definition set_pushrule_route (b : Request (RuleScope * NewPushRule)) : NM unit :=
  sender_user ← the_user b;
  require_global (body b).1 ;;
  global ← push_rules_of sender_user;
  save_push_rules sender_user (add_rule (body b).2 global).

Definition get_pushrule_actions_route (b : Request RuleRequest) : NM (list Action) :=
  sender_user ← the_user b;
  require_global (rr_scope (body b)) ;;
  global ← push_rules_of sender_user;
  mret (default [] (at_kind (λ _ s, rule_actions <$> set_get (rr_rule_id (body b)) s) (rr_kind (body b)) global)).

(** [if let Some(mut rule) = set.get(id).cloned() { rule.actions = ..; set.replace(rule); }] *)
Definition replace_actions (id : rstr) (actions : list Action) {A} (s : IndexSet (PushRule A)) : IndexSet (PushRule A) :=
  match set_get id s with
  | Some rule => set_replace (with_actions actions rule) s
  | None => s
  end.

Definition set_pushrule_actions_route (b : Request (RuleRequest * list Action)) : NM unit :=
  let req := (body b).1 in
  sender_user ← the_user b;
  require_global (rr_scope req) ;;
  global ← push_rules_of sender_user;
  save_push_rules sender_user (change_kind (@replace_actions (rr_rule_id req) (body b).2) (rr_kind req) global).

Definition get_pushrule_enabled_route (b : Request RuleRequest) : NM bool :=
  sender_user ← the_user b;
  require_global (rr_scope (body b)) ;;
  global ← push_rules_of sender_user;
  mret (default false (at_kind (λ _ s, rule_enabled <$> set_get (rr_rule_id (body b)) s) (rr_kind (body b)) global)).

(** The rule is removed and inserted again. *)
Definition reinsert_enabled (id : rstr) (enabled : bool) {A} (s : IndexSet (PushRule A)) : IndexSet (PushRule A) :=
  match set_get id s with
  | Some rule => set_insert (with_enabled enabled rule) (set_remove rule s)
  | None => s
  end.

Definition set_pushrule_enabled_route (b : Request (RuleRequest * bool)) : NM unit :=
  let req := (body b).1 in
  sender_user ← the_user b;
  require_global (rr_scope req) ;;
  global ← push_rules_of sender_user;
  save_push_rules sender_user (change_kind (@reinsert_enabled (rr_rule_id req) (body b).2) (rr_kind req) global).

Definition remove_rule (id : rstr) {A} (s : IndexSet (PushRule A)) : IndexSet (PushRule A) :=
  match set_get id s with
  | Some rule => set_remove rule s
  | None => s
  end.

Definition delete_pushrule_route (b : Request RuleRequest) : NM unit :=
  sender_user ← the_user b;
  require_global (rr_scope (body b)) ;;
  global ← push_rules_of sender_user;
  save_push_rules sender_user (change_kind (@remove_rule (rr_rule_id (body b))) (rr_kind (body b)) global).

Definition get_pushers_route (b : Request unit) : NM (list Pusher) :=
  sender_user ← the_user b;
  ondb (get_pushers sender_user).

Definition set_pushers_route (b : Request PusherAction) : NM unit :=
  sender_user ← the_user b;
  ondb (set_pusher sender_user (body b)).

(** ** Tags *)

Definition tags_of (sender_user : UserId) (room_id : RoomId) : NM (list (rstr * json)) :=
  event ← ondb (ClientData.get (Some room_id) sender_user (lit "m.tag"));
  match event with
  | Some e => lift (ok_or (tag_event e) (BadDatabase "Invalid account data event in db."))
  | None => mret []
  end.
Definition save_tags (sender_user : UserId) (room_id : RoomId) (tags : list (rstr * json)) : NM unit :=
  ondb (ClientData.update (Some room_id) sender_user (lit "m.tag") (tag_value tags)).

Definition update_tag_route (b : Request (RoomId * rstr * json)) : NM unit :=
  let '(room_id, tag, tag_info) := body b in
  sender_user ← the_user b;
  tags ← tags_of sender_user room_id;
  save_tags sender_user room_id (obj_insert tag tag_info tags).

Definition delete_tag_route (b : Request (RoomId * rstr)) : NM unit :=
  let '(room_id, tag) := body b in
  sender_user ← the_user b;
  tags ← tags_of sender_user room_id;
  save_tags sender_user room_id (obj_remove tag tags).

Definition get_tags_route (b : Request RoomId) : NM (list (rstr * json)) :=
  sender_user ← the_user b;
  tags_of sender_user (body b).

(** ** Account data of any type *)

Definition account_event (event_type : rstr) (data : json) : json :=
  JObj (obj_of [(lit "type", JStr event_type); (lit "content", data)]).

Definition set_account_data (room_id : option RoomId) (sender_user : UserId) (event_type : rstr) (data : Raw) : NM unit :=
  data ← lift (ok_or (deserialize data) (BadRequest BadJson "Data is invalid."));
  ondb (ClientData.update room_id sender_user event_type (account_event event_type data)).
Definition get_account_data (room_id : option RoomId) (sender_user : UserId) (event_type : rstr) : NM Raw :=
  o ← ondb (ClientData.get room_id sender_user event_type);
  event ← lift (ok_or o (BadRequest NotFound "Data not found."));
  lift (ok_or (extract_content event) (BadDatabase "Invalid account data event in db.")).

Definition set_global_account_data_route (b : Request (rstr * Raw)) : NM unit :=
  sender_user ← the_user b;
  set_account_data None sender_user (body b).1 (body b).2.
Definition set_room_account_data_route (b : Request (RoomId * rstr * Raw)) : NM unit :=
  let '(room_id, event_type, data) := body b in
  sender_user ← the_user b;
  set_account_data (Some room_id) sender_user event_type data.
Definition get_global_account_data_route (b : Request rstr) : NM Raw :=
  sender_user ← the_user b;
  get_account_data None sender_user (body b).
Definition get_room_account_data_route (b : Request (RoomId * rstr)) : NM Raw :=
  sender_user ← the_user b;
  get_account_data (Some (body b).1) sender_user (body b).2.
End push.

(** ** Index sets *)

Section index_sets.
Context {IL : IndexSetLib} {A : Type}.
Implicit Types (s : IndexSet (PushRule A)) (r x : PushRule A).

Lemma swap_remove_Permutation {B} (l : list B) i y : l !! i = Some y → l ≡ₚ y :: swap_remove i l.
Proof.
  destruct l as [|z l _] using rev_ind; [done|]. unfold swap_remove. rewrite last_snoc, length_app.
  replace (length l + length [z] - 1)%nat with (length l) by (cbn; lia). intros Hi.
  destruct (decide (i < length l)%nat) as [Hlt|Hge].
  - rewrite lookup_app_l in Hi by done. rewrite insert_app_l by done. rewrite take_app_length'; [|by rewrite length_insert].
    rewrite insert_take_drop by done. rewrite <- (take_drop_middle l i y Hi) at 1. solve_Permutation.
  - assert (i = length l) as ->.
    { apply lookup_lt_Some in Hi. rewrite length_app in Hi. cbn in Hi. lia. }
    rewrite list_lookup_middle in Hi by done. injection Hi as ->.
    rewrite insert_app_r_alt by lia. rewrite Nat.sub_diag. cbn. rewrite take_app_length'; [|done]. solve_Permutation.
Qed.

Lemma set_get_Some id s r : set_get id s = Some r ↔ r ∈ elems s ∧ rule_id r = id.
Proof.
  unfold set_get. split.
  - destruct (list_find _ _) as [[i x]|] eqn:E; [|done]. intros [= ->]. apply list_find_Some in E as (Hi & Hx & _).
    split; [by eapply list_elem_of_lookup_2|done].
  - intros [Hin Hid]. destruct (list_find_elem_of (has_id id) (elems s) r Hin Hid) as [[i x] E]. rewrite E. cbn. f_equal.
    apply list_find_Some in E as (Hi & Hx & _). apply list_elem_of_lookup_1 in Hin as [j Hj].
    assert (i = j) as ->; [|congruence]. eapply NoDup_lookup; [apply (elems_nodup s)|..]; rewrite list_lookup_fmap.
    + rewrite Hi. cbn. by rewrite Hx.
    + rewrite Hj. cbn. by rewrite Hid.
Qed.
Lemma set_get_None id s : set_get id s = None ↔ ∀ r, r ∈ elems s → rule_id r ≠ id.
Proof.
  split.
  - intros E r Hr Hid. assert (set_get id s = Some r) by by apply set_get_Some. congruence.
  - intros H. destruct (set_get id s) as [r|] eqn:E; [|done]. apply set_get_Some in E as [Hr Hid]. by destruct (H r Hr).
Qed.
Lemma set_get_ext s s' id : (∀ r, rule_id r = id → r ∈ elems s ↔ r ∈ elems s') → set_get id s = set_get id s'.
Proof.
  intros H. apply option_eq. intros r. rewrite !set_get_Some. naive_solver.
Qed.

(** Another rule of a list with unique ids. *)
Lemma unique_id s i r : elems s !! i = Some r → ∀ x, x ∈ elems s → rule_id x = rule_id r → x = r.
Proof.
  intros Hi x Hx Hid. assert (set_get (rule_id r) s = Some x) as E1 by by apply set_get_Some.
  assert (set_get (rule_id r) s = Some r) as E2 by (apply set_get_Some; split; [by eapply list_elem_of_lookup_2|done]).
  congruence.
Qed.

Lemma elem_of_remove r s x : x ∈ elems (set_remove r s) ↔ x ∈ elems s ∧ rule_id x ≠ rule_id r.
Proof.
  rewrite elems_remove. destruct (list_find _ (elems s)) as [[i y]|] eqn:E.
  - apply list_find_Some in E as (Hi & Hy & _). unfold has_id in Hy.
    pose proof (swap_remove_Permutation _ _ _ Hi) as Hp. split.
    + intros Hx. split; [rewrite Hp; by right|]. intros Hid.
      pose proof (elems_nodup s) as Hnd. rewrite Hp in Hnd. cbn in Hnd. apply NoDup_cons in Hnd as [Hn _].
      apply Hn. rewrite Hy, <- Hid. by apply list_elem_of_fmap_2.
    + intros [Hx Hid]. rewrite Hp in Hx. apply elem_of_cons in Hx as [->|Hx]; [|done]. by destruct Hid.
  - split; [|by intros [? _]]. intros Hx. split; [done|]. intros Hid. apply list_find_None in E.
    rewrite Forall_forall in E. by apply (E x Hx).
Qed.
Lemma elem_of_replace_by r s x : x ∈ elems (set_replace r s) ↔ x = r ∨ x ∈ elems s ∧ rule_id x ≠ rule_id r.
Proof.
  rewrite elems_replace. destruct (list_find _ (elems s)) as [[i y]|] eqn:E.
  - apply list_find_Some in E as (Hi & Hy & _). unfold has_id in Hy. rewrite insert_take_drop by by eapply lookup_lt_Some.
    pose proof (take_drop_middle _ _ _ Hi) as Hm. pose proof (elems_nodup s) as Hnd. rewrite <- Hm in Hnd.
    rewrite fmap_app, fmap_cons in Hnd. apply NoDup_app in Hnd as (_ & Hd & [Hn _]%NoDup_cons).
    rewrite elem_of_app, elem_of_cons. split.
    + intros [Hx|[->|Hx]]; [right|by left|right]; (split; [rewrite <- Hm, elem_of_app, elem_of_cons; auto|]); intros Hid.
      * apply (Hd (rule_id x)); [by apply list_elem_of_fmap_2|]. rewrite Hid, <- Hy. left.
      * apply Hn. rewrite Hy, <- Hid. by apply list_elem_of_fmap_2.
    + intros [->|[Hx Hid]]; [auto|]. rewrite <- Hm, elem_of_app, elem_of_cons in Hx.
      destruct Hx as [Hx|[->|Hx]]; auto. by destruct Hid.
  - rewrite elem_of_app, list_elem_of_singleton. split; [|tauto]. intros [Hx| ->]; [|by left]. right. split; [done|].
    intros Hid. apply list_find_None in E. rewrite Forall_forall in E. by apply (E x Hx).
Qed.

Lemma set_get_replace id r s : set_get id (set_replace r s) = if decide (id = rule_id r) then Some r else set_get id s.
Proof.
  case_decide as E.
  - subst id. apply set_get_Some. by rewrite elem_of_replace_by; auto.
  - apply set_get_ext. intros x <-. rewrite elem_of_replace_by. naive_solver.
Qed.
Lemma set_get_remove id r s : set_get id (set_remove r s) = if decide (id = rule_id r) then None else set_get id s.
Proof.
  case_decide as E.
  - subst id. apply set_get_None. intros x [_ H]%elem_of_remove. done.
  - apply set_get_ext. intros x <-. rewrite elem_of_remove. naive_solver.
Qed.
Lemma set_get_insert_new id r s :
  set_get (rule_id r) s = None → set_get id (set_insert r s) = if decide (id = rule_id r) then Some r else set_get id s.
Proof.
  intros Hn. assert (elems (set_insert r s) = elems s ++ [r]) as E.
  { rewrite elems_insert. destruct (list_find _ _) as [[i x]|] eqn:E; [|done]. unfold set_get in Hn. by rewrite E in Hn. }
  case_decide as Ei.
  - subst id. apply set_get_Some. rewrite E, elem_of_app, list_elem_of_singleton. auto.
  - apply set_get_ext. intros x <-. rewrite E, elem_of_app, list_elem_of_singleton. naive_solver.
Qed.
End index_sets.

(** ** Theorems *)

Section account_data_theorems.
Context {Ev : Env} {EL : EventLib} {TL : TimelineLib} {IL : IndexSetLib} {Out : Outside} {DL : AccountDataLib}.
(** A room identifier is not empty: it begins with an exclamation mark. *)
Context (Hrooms : ∀ r : RoomId, idb r ≠ []).
Implicit Types (s : State) (n : Node).

Abbreviation account n := (λ r u t, (ClientData.get r u t (nd_db n)).1).

Lemma account_get_state r u t s : ClientData.get r u t s = ((ClientData.get r u t s).1, s).
Proof using. by rewrite get_run. Qed.
Lemma account_read r u t n : ondb (ClientData.get r u t) n = (account n r u t, n).
Proof using. rewrite (ondb_run _ _ _ _ (account_get_state r u t (nd_db n))). by destruct n as [[[]]]. Qed.

(** Account data that is written is read back, and no other data changes. *)
Lemma account_saved r u t data n :
  AccountInv (nd_db n) → count_ok (nd_db n) → has_fields data →
  ∃ n', ondb (ClientData.update r u t data) n = (Ok (), n') ∧ AccountInv (nd_db n') ∧
    account n' r u t = Ok (Some (to_raw_value data)) ∧
    ∀ r' u' t', (r', u', t') ≠ (r, u, t) → account n' r' u' t' = account n r' u' t'.
Proof using Hrooms.
  intros HI Hc Hf. destruct (update_correct Hrooms r u t data (nd_db n) HI Hc Hf) as (s' & E & HI' & Eg & Ho & _).
  eexists. split; [by apply ondb_run|]. split_and!; [done| |done]. change (nd_db (with_db s' n)) with s'. by rewrite Eg.
Qed.

(** ** Push rules *)

Definition rules_are n (u : UserId) (R : Rules) : Prop :=
  ∃ raw, account n None u (lit "m.push_rules") = Ok (Some raw) ∧ push_rules_event raw = Some R.

Lemma push_rules_of_run n u R : rules_are n u R → push_rules_of u n = (Ok R, n).
Proof using.
  intros (raw & E & ER). unfold push_rules_of. rewrite (bind_Ok _ _ n (Some raw) n); [|by rewrite account_read, E].
  cbn [ok_or]. rewrite bind_lift_Ok, ER. done.
Qed.

(** The requests that change the rules of a user. *)
Inductive RuleOp :=
  | SetRule (rule : NewPushRule)
  | SetActions (kind : RuleKind) (id : rstr) (actions : list Action)
  | SetEnabled (kind : RuleKind) (id : rstr) (enabled : bool)
  | DeleteRule (kind : RuleKind) (id : rstr).
Definition rule_route (u : UserId) (o : RuleOp) : NM unit :=
  match o with
  | SetRule rule => set_pushrule_route (by_user u (GlobalScope, rule))
  | SetActions kind id actions => set_pushrule_actions_route (by_user u (MkRuleRequest GlobalScope kind id, actions))
  | SetEnabled kind id enabled => set_pushrule_enabled_route (by_user u (MkRuleRequest GlobalScope kind id, enabled))
  | DeleteRule kind id => delete_pushrule_route (by_user u (MkRuleRequest GlobalScope kind id))
  end.
Definition rule_change (o : RuleOp) (R : Rules) : Rules :=
  match o with
  | SetRule rule => add_rule rule R
  | SetActions kind id actions => change_kind (@replace_actions _ id actions) kind R
  | SetEnabled kind id enabled => change_kind (@reinsert_enabled _ id enabled) kind R
  | DeleteRule kind id => change_kind (@remove_rule _ id) kind R
  end.

Definition new_kind (rule : NewPushRule) : RuleKind :=
  match rule with
  | NewOverride _ _ _ => KOverride | NewUnderride _ _ _ => KUnderride | NewSender _ _ => KSender
  | NewRoom _ _ => KRoom | NewContent _ _ _ => KContent
  end.
Definition new_rule (rule : NewPushRule) : AnyPushRule :=
  match rule with
  | NewOverride id a c | NewUnderride id a c => MkAnyPushRule a false true id (Some c) None
  | NewSender id a | NewRoom id a => MkAnyPushRule a false true id None None
  | NewContent id a p => MkAnyPushRule a false true id None (Some p)
  end.

#[local] Instance RuleKind_eq_dec : EqDecision RuleKind.
Proof. solve_decision. Defined.

(** What a change of the push rules does to the rules a client can ask for: a rule that
    is set is there, enabled and not a default; changed actions, enabling and deletion
    concern the rule of the kind and id named, and every other rule is as before. *)
Theorem push_rule_lookup o R kind id :
  any_rule_of kind id (rule_change o R) =
    let old := any_rule_of kind id R in
    match o with
    | SetRule rule => if decide ((kind, id) = (new_kind rule, any_rule_id (new_rule rule))) then Some (new_rule rule) else old
    | SetActions k i a =>
        if decide ((kind, id) = (k, i)) then
          (λ r, MkAnyPushRule a (any_default r) (any_enabled r) (any_rule_id r) (any_conditions r) (any_pattern r)) <$> old
        else old
    | SetEnabled k i e =>
        if decide ((kind, id) = (k, i)) then
          (λ r, MkAnyPushRule (any_actions r) (any_default r) e (any_rule_id r) (any_conditions r) (any_pattern r)) <$> old
        else old
    | DeleteRule k i => if decide ((kind, id) = (k, i)) then None else old
    end.
Proof using.
  assert (∀ A id i a (s : IndexSet (PushRule A)), set_get id (replace_actions i a s) =
    if decide (id = i) then with_actions a <$> set_get id s else set_get id s) as Ha.
  { intros A id' i a s. unfold replace_actions. destruct (set_get i s) as [r|] eqn:E.
    - rewrite set_get_replace. cbn. pose proof E as [_ <-]%set_get_Some. case_decide as D; [|done]. by rewrite D, E.
    - case_decide as D; [|done]. by rewrite D, E. }
  assert (∀ A id i e (s : IndexSet (PushRule A)), set_get id (reinsert_enabled i e s) =
    if decide (id = i) then with_enabled e <$> set_get id s else set_get id s) as He.
  { intros A id' i e s. unfold reinsert_enabled. destruct (set_get i s) as [r|] eqn:E.
    - pose proof E as [_ <-]%set_get_Some. rewrite set_get_insert_new; [|cbn; by rewrite set_get_remove, decide_True].
      cbn. rewrite set_get_remove. case_decide as D; [|done]. by rewrite D, E.
    - case_decide as D; [|done]. by rewrite D, E. }
  assert (∀ A id i (s : IndexSet (PushRule A)), set_get id (remove_rule i s) =
    if decide (id = i) then None else set_get id s) as Hd.
  { intros A id' i s. unfold remove_rule. destruct (set_get i s) as [r|] eqn:E.
    - rewrite set_get_remove. by pose proof E as [_ <-]%set_get_Some.
    - case_decide as D; [|done]. by rewrite D, E. }
  cbn zeta. destruct o as [rule|k i a|k i e|k i].
  - destruct rule, kind; cbn; rewrite ?set_get_replace; cbn; repeat case_decide; by simplify_eq/=.
  - destruct k, kind; cbn; rewrite ?Ha; repeat case_decide; simplify_eq/=; try done; by destruct (set_get _ _).
  - destruct k, kind; cbn; rewrite ?He; repeat case_decide; simplify_eq/=; try done; by destruct (set_get _ _).
  - destruct k, kind; cbn; rewrite ?Hd; repeat case_decide; by simplify_eq/=.
Qed.

(** The rules of a kind, as a client lists them. *)
Definition rules_of_kind (kind : RuleKind) (R : Rules) : list AnyPushRule :=
  match kind with
  | KOverride => (λ r, MkAnyPushRule (rule_actions r) (rule_default r) (rule_enabled r) (rule_id r) (Some (rule_extra r)) None) <$> elems (rs_override R)
  | KUnderride => (λ r, MkAnyPushRule (rule_actions r) (rule_default r) (rule_enabled r) (rule_id r) (Some (rule_extra r)) None) <$> elems (rs_underride R)
  | KSender => (λ r, MkAnyPushRule (rule_actions r) (rule_default r) (rule_enabled r) (rule_id r) None None) <$> elems (rs_sender R)
  | KRoom => (λ r, MkAnyPushRule (rule_actions r) (rule_default r) (rule_enabled r) (rule_id r) None None) <$> elems (rs_room R)
  | KContent => (λ r, MkAnyPushRule (rule_actions r) (rule_default r) (rule_enabled r) (rule_id r) None (Some (rule_extra r))) <$> elems (rs_content R)
  | KOther => []
  end.
(** Whether a rule is among those of its kind after a request. *)
Definition rule_after (o : RuleOp) (R : Rules) (kind : RuleKind) (x : AnyPushRule) : Prop :=
  match o with
  | SetRule rule =>
      if decide ((kind, any_rule_id x) = (new_kind rule, any_rule_id (new_rule rule))) then x = new_rule rule
      else x ∈ rules_of_kind kind R
  | SetActions k i a =>
      if decide ((kind, any_rule_id x) = (k, i)) then
        ∃ y, y ∈ rules_of_kind k R ∧ x = MkAnyPushRule a (any_default y) (any_enabled y) i (any_conditions y) (any_pattern y) ∧ any_rule_id y = i
      else x ∈ rules_of_kind kind R
  | SetEnabled k i e =>
      if decide ((kind, any_rule_id x) = (k, i)) then
        ∃ y, y ∈ rules_of_kind k R ∧ x = MkAnyPushRule (any_actions y) (any_default y) e i (any_conditions y) (any_pattern y) ∧ any_rule_id y = i
      else x ∈ rules_of_kind kind R
  | DeleteRule k i => (kind, any_rule_id x) ≠ (k, i) ∧ x ∈ rules_of_kind kind R
  end.

Lemma rules_of_kind_lookup kind R x : x ∈ rules_of_kind kind R ↔ any_rule_of kind (any_rule_id x) R = Some x.
Proof using.
  assert (∀ A (f : PushRule A → AnyPushRule) (s : IndexSet (PushRule A)), (∀ r, any_rule_id (f r) = rule_id r) →
    x ∈ f <$> elems s ↔ f <$> set_get (any_rule_id x) s = Some x) as H.
  { intros A f s Hf. rewrite list_elem_of_fmap. split.
    - intros (r & -> & Hr). rewrite Hf. by rewrite (proj2 (set_get_Some (rule_id r) s r)).
    - destruct (set_get _ _) as [r|] eqn:E; [|done]. intros [= Hr]. apply set_get_Some in E as [E _]. by exists r. }
  destruct kind; cbn [rules_of_kind any_rule_of]; try (by apply H). split; [by intros ?%not_elem_of_nil|done].
Qed.
Lemma any_rule_of_id kind id R x : any_rule_of kind id R = Some x → any_rule_id x = id.
Proof using.
  destruct kind; cbn; try done; destruct (set_get _ _) as [r|] eqn:E; try done; intros [= <-]; by apply set_get_Some in E as [_ E].
Qed.
Lemma rule_change_after o R kind x : x ∈ rules_of_kind kind (rule_change o R) ↔ rule_after o R kind x.
Proof using.
  rewrite rules_of_kind_lookup, push_rule_lookup. cbn zeta.
  assert (∀ k i (f : AnyPushRule → AnyPushRule), (kind, any_rule_id x) = (k, i) →
    f <$> any_rule_of kind (any_rule_id x) R = Some x ↔ ∃ y, y ∈ rules_of_kind k R ∧ x = f y ∧ any_rule_id y = i) as Hf.
  { intros k i f [= -> <-]. split.
    - destruct (any_rule_of k (any_rule_id x) R) as [y|] eqn:E; [|done]. intros [= <-]. pose proof (any_rule_of_id _ _ _ _ E) as Ey.
      exists y. split_and!; [|done|done]. apply rules_of_kind_lookup. by rewrite Ey.
    - intros (y & Hy%rules_of_kind_lookup & Hx & Ey). rewrite Ey in Hy. rewrite Hy. cbn. by rewrite Hx. }
  destruct o as [rule|k i a|k i e|k i]; cbn [rule_after].
  - case_decide; [|by rewrite rules_of_kind_lookup]. split; [by intros [= <-]|by intros ->].
  - case_decide as D; [|by rewrite rules_of_kind_lookup]. rewrite (Hf k i) by done.
    split; intros (y & ? & -> & <-); by exists y.
  - case_decide as D; [|by rewrite rules_of_kind_lookup]. rewrite (Hf k i) by done.
    split; intros (y & ? & -> & <-); by exists y.
  - case_decide as D; [naive_solver|]. rewrite rules_of_kind_lookup. naive_solver.
Qed.

(** C37: Requests change the push rules of the sender as they say, rule by rule of each kind: a rule that is set is there with the
    actions, conditions or pattern given, enabled and not a default one; a change of the actions, enabling and disabling change just
    that in the rule of the kind and id named, if there is one; a deleted rule is gone; and every other rule of every kind is as before
    (their order may not be). Later notifications of the user are
    computed from the rules stored, and no other account data of any user changes. *)
Theorem push_rules_changed u o R n :
  AccountInv (nd_db n) → count_ok (nd_db n) → rules_are n u R →
  ∃ n' R', rule_route u o n = (Ok (), n') ∧ AccountInv (nd_db n') ∧ rules_are n' u R' ∧
    (∀ kind x, x ∈ rules_of_kind kind R' ↔ rule_after o R kind x) ∧
    (rules_for u (nd_db n')).1 = Ok (ruleset_of R') ∧
    ∀ r' u' t', (r', u', t') ≠ (None, u, lit "m.push_rules") → account n' r' u' t' = account n r' u' t'.
Proof using Hrooms.
  intros HI Hc HR.
  assert (rule_route u o n = save_push_rules u (rule_change o R) n) as ->.
  { destruct o; cbn [rule_route]; unfold set_pushrule_route, set_pushrule_actions_route, set_pushrule_enabled_route,
      delete_pushrule_route, the_user, require_global; cbn [by_user sender_user expect body fst snd rr_scope rr_kind rr_rule_id];
      rewrite bind_lift_Ok, bool_decide_false by (intros H; by apply H); rewrite bind_ret;
      by rewrite (bind_Ok _ _ _ _ _ (push_rules_of_run n u R HR)). }
  destruct (account_saved None u (lit "m.push_rules") _ n HI Hc (push_rules_fields (rule_change o R))) as (n' & E & HI' & Eg & Ho).
  exists n', (rule_change o R). split_and!; [done|done| |apply rule_change_after| |done].
  - eexists. split; [exact Eg|]. apply push_rules_read.
  - unfold rules_for. rewrite (bind_Ok _ _ _ (Some (to_raw_value (push_rules_value (rule_change o R)))) (nd_db n')).
    + cbn. unfold lift. rewrite push_rules_global_event, push_rules_read. done.
    + by rewrite account_get_state, Eg.
Qed.

(** Enabling or disabling a rule changes the order of the rules, which is their priority:
    the first override rule becomes the last, and the last one takes its place. *)
Theorem enabling_reorders u e R a l z n :
  AccountInv (nd_db n) → count_ok (nd_db n) → rules_are n u R → elems (rs_override R) = a :: l ++ [z] →
  ∃ n' R', set_pushrule_enabled_route (by_user u (MkRuleRequest GlobalScope KOverride (rule_id a), e)) n = (Ok (), n') ∧
    rules_are n' u R' ∧ elems (rs_override R') = z :: l ++ [with_enabled e a].
Proof using Hrooms.
  intros HI Hc HR El.
  destruct (account_saved None u (lit "m.push_rules") _ n HI Hc
    (push_rules_fields (rule_change (SetEnabled KOverride (rule_id a) e) R))) as (n' & E & _ & Eg & _).
  exists n', (rule_change (SetEnabled KOverride (rule_id a) e) R). split_and!.
  - unfold set_pushrule_enabled_route, the_user, require_global. cbn [by_user sender_user expect body fst snd rr_scope rr_kind rr_rule_id].
    rewrite bind_lift_Ok, bool_decide_false by (intros H; by apply H). rewrite bind_ret.
    by rewrite (bind_Ok _ _ _ _ _ (push_rules_of_run n u R HR)).
  - eexists. split; [exact Eg|]. apply push_rules_read.
  - cbn [rule_change change_kind rs_override]. unfold reinsert_enabled.
    assert (list_find (has_id (rule_id a)) (elems (rs_override R)) = Some (0%nat, a)) as Ef.
    { rewrite El. cbn. by rewrite decide_True. }
    unfold set_get. rewrite Ef. cbn [fmap option_fmap option_map snd].
    assert (elems (set_remove a (rs_override R)) = z :: l) as Er.
    { rewrite elems_remove, Ef, El. unfold swap_remove.
      rewrite (app_comm_cons l [z] a), last_snoc, length_app. cbn.
      replace (length l + 1 - 0)%nat with (S (length l)) by lia. cbn. f_equal. by apply take_app_length'. }
    rewrite elems_insert, Er. cbn [with_enabled rule_id].
    assert (list_find (has_id (rule_id a)) (z :: l) = None) as ->; [|done].
    rewrite <- Er. apply list_find_None, Forall_forall. intros x [_ Hx]%elem_of_remove. exact Hx.
Qed.

(** ** Tags and account data *)

(** A tag that is set on a room is answered, one that is deleted is not, and the other
    tags of the room are as before. *)
Theorem tags_changed u r tag o n tags :
  AccountInv (nd_db n) → count_ok (nd_db n) → tags_of u r n = (Ok tags, n) →
  ∃ n' tags', match o with
              | Some info => update_tag_route (by_user u (r, tag, info)) n
              | None => delete_tag_route (by_user u (r, tag)) n
              end = (Ok (), n') ∧
    get_tags_route (by_user u r) n' = (Ok tags', n') ∧
    ∀ t, obj_get t tags' = if decide (t = tag) then o else obj_get t tags.
Proof using Hrooms.
  intros HI Hc HT. set (tags' := match o with Some info => obj_insert tag info tags | None => obj_remove tag tags end).
  destruct (account_saved (Some r) u (lit "m.tag") _ n HI Hc (tag_fields tags')) as (n' & E & _ & Eg & _).
  exists n', tags'. split_and!.
  - destruct o as [info|]; unfold update_tag_route, delete_tag_route, the_user; cbn [by_user sender_user expect body];
      rewrite bind_lift_Ok; by rewrite (bind_Ok _ _ _ _ _ HT).
  - unfold get_tags_route, the_user. cbn [by_user sender_user expect body]. rewrite bind_lift_Ok. unfold tags_of.
    rewrite (bind_Ok _ _ n' (Some (to_raw_value (tag_value tags'))) n'); [|by rewrite account_read, Eg].
    by rewrite tag_read.
  - intros t. unfold tags'. destruct o; [apply obj_get_insert|apply obj_get_remove].
Qed.

(** Account data that a client sets is given back to it. *)
Theorem account_data_roundtrip u t raw data n :
  AccountInv (nd_db n) → count_ok (nd_db n) → deserialize raw = Some data →
  ∃ n', set_global_account_data_route (by_user u (t, raw)) n = (Ok (), n') ∧
    get_global_account_data_route (by_user u t) n' = (Ok (to_raw_value data), n').
Proof using Hrooms.
  intros HI Hc Hd. assert (has_fields (account_event t data)) as Hf by by split.
  destruct (account_saved None u t _ n HI Hc Hf) as (n' & E & _ & Eg & _). exists n'. split.
  - unfold set_global_account_data_route, the_user, set_account_data. cbn [by_user sender_user expect body fst snd].
    rewrite bind_lift_Ok, Hd. cbn [ok_or]. by rewrite bind_lift_Ok.
  - unfold get_global_account_data_route, the_user, get_account_data. cbn [by_user sender_user expect body].
    rewrite bind_lift_Ok. rewrite (bind_Ok _ _ n' (Some (to_raw_value (account_event t data))) n'); [|by rewrite account_read, Eg].
    cbn [ok_or]. rewrite bind_lift_Ok. unfold account_event. rewrite extract_content_value. done.
Qed.
End account_data_theorems.
