(* ===== verification/Directory.v ===== *)
(** * Finding rooms, users and messages ([src/api/client_server/directory.rs],
    [src/api/client_server/user_directory.rs], [src/api/client_server/search.rs],
    [get_public_rooms_filtered_route] and [get_public_rooms_route] of
    [src/api/server_server.rs]) *)

From S2P Require Import Prelude Bytes RStr Decimal Error Utils KvTree Env Db Keys Globals Frames Short RoomState StateCompressor Pdu Timeline StateAccessor Users StateCache RoomIndex RoomUser OpFrames EventFormat Federation TimelineService EventHandler Request Admin Account Rooms ServerServer KeysApi.

(** [str::contains] *)
Fixpoint contains (needle hay : bytes) : bool :=
  starts_with hay needle || match hay with [] => false | _ :: hay => contains needle hay end.
Definition str_contains (s needle : rstr) : bool := contains (as_bytes needle) (as_bytes s).

(** ** The directory of public rooms *)

Section directory.
Context {Ev : Env} {EL : EventLib} {TL : TimelineLib} {CL : ContentLib} {Out : Outside} {RL : RoomLib}.

(** Contents of state events: their JSON text as ruma reads it. *)
Class DirectoryLib := {
  name_content : bytes → option (option rstr);
  topic_content : bytes → option rstr;
  guest_access_content : bytes → option GuestAccess;
  avatar_content : bytes → option (option rstr);
  room_type_content : bytes → option (option rstr);
  (** [JoinRule::Knock] *)
  is_knock : JoinRule → bool;
  (** the parts of a text between characters that are not alphanumeric *)
  text_parts : rstr → list rstr;
}.
Context {DL : DirectoryLib}.

(** [room_state_get(..)?.map(|s| from_str(s.content)..).transpose()?] *)
Definition state_content {A} (room_id : RoomId) (event_type : string) (read : bytes → option A) (invalid : string)
    : DB (option A) :=
  o ← room_state_get room_id (lit event_type) (lit "");
  lift (transpose ((λ s, ok_or (read (content s)) (BadDatabase invalid)) <$> o)).

Definition public_join_rule (r : JoinRule) : option PublicRoomJoinRule :=
  match r with
  | JPublic => Some PublicRoom
  | r => if is_knock r then Some KnockRoom else None
  end.

Definition room_chunk (room_id : RoomId) : DB PublicRoomsChunk :=
  canonical_alias ← state_content room_id "m.room.canonical_alias" canonical_alias_content
    "Invalid canonical alias event in database.";
  name ← state_content room_id "m.room.name" name_content "Invalid room name event in database.";
  num_joined_members ← room_joined_count room_id;
  topic ← state_content room_id "m.room.topic" topic_content "Invalid room topic event in database.";
  visibility ← state_content room_id "m.room.history_visibility" visibility_content
    "Invalid room history visibility event in database.";
  guest_access ← state_content room_id "m.room.guest_access" guest_access_content
    "Invalid room guest access event in database.";
  avatar_url ← state_content room_id "m.room.avatar" avatar_content "Invalid room avatar event in database.";
  join_rule ← state_content room_id "m.room.join_rules" join_rules_content "Invalid room join rule event in database.";
  join_rule ← lift (ok_or (join_rule ≫= public_join_rule) (BadDatabase "Missing room join rule event for room."));
  room_type ← state_content room_id "m.room.create" room_type_content "Invalid room create event in database.";
  mret (MkChunk (canonical_alias ≫= fst) (mjoin name) (default 0 num_joined_members) topic
    (match visibility with Some HWorldReadable => true | _ => false end)
    (match guest_access with Some GCanJoin => true | _ => false end)
    (mjoin avatar_url) join_rule (mjoin room_type) room_id).

(** The closure of [filter]. *)
Definition chunk_matches (filter : DirectoryFilter) (chunk : PublicRoomsChunk) : bool :=
  match to_lowercase <$> df_generic_search_term filter with
  | Some query =>
      let found (o : option rstr) := from_option (λ t, str_contains (to_lowercase t) query) false o in
      found (ch_name chunk) || found (ch_topic chunk) || found (as_str <$> ch_canonical_alias chunk)
  | None => true
  end.

(** The rooms of the directory, without those that cannot be read. *)
Definition readable_chunks (rooms : list (res RoomId)) : DB (list PublicRoomsChunk) :=
  for_fold rooms [] (λ acc r,
    o ← try_ok (room_id ← lift r; room_chunk room_id);
    mret (match o with Some chunk => acc ++ [chunk] | None => acc end)).

(** [sort_by(|l, r| r.num_joined_members.cmp(&l.num_joined_members))], which is stable. *)
Fixpoint insert_room (c : PublicRoomsChunk) (l : list PublicRoomsChunk) : list PublicRoomsChunk :=
  match l with
  | [] => [c]
  | x :: l' => if bool_decide (ch_num_joined_members c < ch_num_joined_members x) then x :: insert_room c l' else c :: l
  end.
Definition sort_rooms (l : list PublicRoomsChunk) : list PublicRoomsChunk := foldr insert_room [] l.

(** The text after the first character, which is [c]. *)
Definition after_char (c : byte) (s : rstr) : option rstr :=
  match as_bytes s with
  | b :: rest => if bool_decide (b = c) then from_utf8 rest else None
  | [] => None
  end.

(** Where the page of a token begins: forwards from [n..], backwards from [p..]. *)
Definition page_start (limit : N) (since : option rstr) : res N :=
  match since with
  | None => Ok 0
  | Some s =>
      match after_char x6e s, after_char x70 s with
      | Some rest, _ => ok_or (u64_from_str rest) (BadRequest InvalidParam "Invalid `since` token.")
      | _, Some rest =>
          num_since ← ok_or (u64_from_str rest) (BadRequest InvalidParam "Invalid `since` token.");
          Ok (num_since - limit)
      | None, None => Err (BadRequest InvalidParam "Invalid `since` token")
      end
  end.

(** The page itself. *)
Definition directory_page (all_rooms : list PublicRoomsChunk) (limit num_since : N) : PublicRooms :=
  let chunk := take (N.to_nat limit) (drop (N.to_nat num_since) all_rooms) in
  MkPublicRooms chunk
    (if bool_decide (num_since = 0) then None else Some (str_app (lit "p") (u64_to_string num_since)))
    (if bool_decide (N.of_nat (length chunk) < limit) then None
     else Some (str_app (lit "n") (u64_to_string (wrap64 (num_since + limit)))))
    (Some (N.of_nat (length all_rooms) mod 2 ^ 32)).

(** The rooms of this server. *)
Definition local_public_rooms (limit : option N) (since : option rstr) (filter : DirectoryFilter) : DB PublicRooms :=
  let limit := default 10 limit in
  num_since ← lift (page_start limit since);
  rooms ← public_rooms;
  chunks ← readable_chunks rooms;
  mret (directory_page (sort_rooms (List.filter (chunk_matches filter) chunks)) limit num_since).

Definition get_public_rooms_filtered_helper (server : option ServerName) (limit : option N) (since : option rstr)
    (filter : DirectoryFilter) : NM PublicRooms :=
  match server with
  | Some other_server =>
      if bool_decide (other_server ≠ server_name) then
        send_federation_request other_server (GetPublicRoomsFiltered limit since filter)
      else ondb (local_public_rooms limit since filter)
  | None => ondb (local_public_rooms limit since filter)
  end.

Definition no_filter : DirectoryFilter := MkDirectoryFilter None [].

Record DirectoryRequest := MkDirectoryRequest {
  dr_server : option ServerName;
  dr_limit : option N;
  dr_since : option rstr;
  dr_filter : DirectoryFilter
}.
Definition get_public_rooms_filtered_route (b : Request DirectoryRequest) : NM PublicRooms :=
  get_public_rooms_filtered_helper (dr_server (body b)) (dr_limit (body b)) (dr_since (body b)) (dr_filter (body b)).
Definition get_public_rooms_route (b : Request (option ServerName * option N * option rstr)) : NM PublicRooms :=
  get_public_rooms_filtered_helper (body b).1.1 (body b).1.2 (body b).2 no_filter.

(** The same for other servers. *)
Context {SL : ServerLib}.
Definition federation_public_rooms_filtered_route (b : Request (option N * option rstr * DirectoryFilter)) : NM PublicRooms :=
  if negb allow_federation then fail (BadConfig "Federation is disabled.")
  else get_public_rooms_filtered_helper None (body b).1.1 (body b).1.2 (body b).2.
Definition federation_public_rooms_route (b : Request (option N * option rstr)) : NM PublicRooms :=
  if negb allow_federation then fail (BadConfig "Federation is disabled.")
  else get_public_rooms_filtered_helper None (body b).1 (body b).2 no_filter.

(** ** Visibility of a room *)

Definition set_room_visibility_route (b : Request (RoomId * Visibility)) : NM unit :=
  sender_user ← the_user b;
  known ← ondb (room_exists (body b).1);
  if negb known then fail (BadRequest NotFound "Room not found")
  else
    match (body b).2 with
    | VPublic => ondb (set_public (body b).1)
    | VPrivate => ondb (set_not_public (body b).1)
    | VOther => fail (BadRequest InvalidParam "Room visibility type is not supported.")
    end.

Definition get_room_visibility_route (b : Request RoomId) : NM Visibility :=
  known ← ondb (room_exists (body b));
  if negb known then fail (BadRequest NotFound "Room not found")
  else
    public ← ondb (is_public_room (body b));
    mret (if (public : bool) then VPublic else VPrivate).

(** ** Users *)

Record FoundUser := MkFoundUser { fu_user_id : UserId; fu_display_name : option rstr; fu_avatar_url : option rstr }.

(** [rooms.any(|room| join rule is public)] *)
Fixpoint any_public (rooms : list RoomId) : DB bool :=
  match rooms with
  | [] => mret false
  | room :: rooms =>
      o ← try_ok (room_state_get room (lit "m.room.join_rules") (lit ""));
      match mjoin o ≫= λ event, join_rules_content (content event) with
      | Some JPublic => mret true
      | _ => any_public rooms
      end
  end.

(** [.ok()?] *)
Definition try_some {A B} (m : DB A) (f : A → DB (option B)) : DB (option B) :=
  o ← try_ok m;
  match o with Some a => f a | None => mret None end.

(** The closure of [filter_map]: a user who matches and may be seen. *)
Definition visible_user (sender_user : UserId) (search_term : rstr) (r : res UserId) : DB (option FoundUser) :=
  match r with
  | Ok user_id =>
      try_some (displayname user_id) (λ display_name,
      try_some (avatar_url user_id) (λ avatar_url,
        let found (t : rstr) := str_contains (to_lowercase t) (to_lowercase search_term) in
        if negb (found (as_str user_id)) && negb (from_option found false display_name) then mret None
        else
          rooms ← rooms_joined user_id;
          public ← any_public (filter_map ok rooms);
          if (public : bool) then mret (Some (MkFoundUser user_id display_name avatar_url))
          else
            try_some (get_shared_rooms [sender_user; user_id]) (λ shared,
              mret (match shared with [] => None | _ => Some (MkFoundUser user_id display_name avatar_url) end))))
  | _ => mret None
  end.

(** [users.by_ref().take(limit).collect()], then whether there is one more. *)
Fixpoint take_users (sender_user : UserId) (search_term : rstr) (limit : nat) (users : list (res UserId)) : DB (list FoundUser * bool) :=
  match users with
  | [] => mret ([], false)
  | r :: users =>
      o ← visible_user sender_user search_term r;
      match o, limit with
      | Some user, O => mret ([], true)
      | Some user, S limit => rest ← take_users sender_user search_term limit users; mret (user :: rest.1, rest.2)
      | None, _ => take_users sender_user search_term limit users
      end
  end.

Definition search_users_route (b : Request (rstr * N)) : NM (list FoundUser * bool) :=
  sender_user ← the_user b;
  users ← ondb iter_users;
  ondb (take_users sender_user (body b).1 (N.to_nat (body b).2) users).

(** ** Messages *)

Record SearchCriteria := MkCriteria {
  sc_search_term : rstr;
  sc_rooms : option (list RoomId);
  sc_limit : option N
}.
Record SearchResponse := MkSearchResponse {
  sr_results : list (option Raw);
  sr_next_batch : option rstr;
  sr_highlights : list rstr
}.

(** [None] is smaller than every [Some]. *)
Definition head_lt (a b : option bytes) : bool :=
  match a, b with
  | _, None => false
  | None, Some _ => true
  | Some a, Some b => bool_decide (a <b b)
  end.

(** [max_by_key] of the next elements: the last of the greatest. *)
Fixpoint pick_max (searches : list (list bytes)) : option (option bytes * nat) :=
  match searches with
  | [] => None
  | x :: searches =>
      match pick_max searches with
      | None => Some (head x, 0%nat)
      | Some (m, i) => if head_lt m (head x) then Some (head x, 0%nat) else Some (m, S i)
      end
  end.

(** One round of the loop. *)
Definition merge_step (st : list (list bytes) * list bytes) : list (list bytes) * list bytes :=
  match pick_max st.1 with
  | Some (Some id, i) => (alter tail i st.1, st.2 ++ [id])
  | _ => st
  end.

(** The searches in the rooms, all of which the sender must have joined. *)
Definition room_searches (sender_user : UserId) (term : rstr) (room_ids : list RoomId) : DB (list (list bytes)) :=
  for_fold room_ids [] (λ searches room_id,
    joined ← is_joined sender_user room_id;
    if negb joined then fail (BadRequest Forbidden "You don't have permission to view this room.")
    else
      o ← search_pdus room_id term;
      mret (match o with Some search => searches ++ [search.1] | None => searches end)).

(** The events of the results; those that cannot be read are left out. *)
Definition result_events (ids : list bytes) : DB (list (option Raw)) :=
  for_fold ids [] (λ acc id,
    o ← try_ok (get_pdu_from_id id);
    mret (match o with Some pdu => acc ++ [to_room_event <$> pdu] | None => acc end)).

Definition search_events_route (b : Request (option SearchCriteria * option rstr)) : NM SearchResponse :=
  sender_user ← the_user b;
  criteria ← lift (expect (body b).1 "called `Option::unwrap()` on a `None` value");
  room_ids ← match sc_rooms criteria with
             | Some rooms => mret rooms
             | None => rooms ← ondb (rooms_joined sender_user); mret (filter_map ok rooms)
             end;
  let limit := default 10 (sc_limit criteria) in
  searches ← ondb (room_searches sender_user (sc_search_term criteria) room_ids);
  skip ← lift (match (body b).2 with
               | Some s => ok_or (u64_from_str s) (BadRequest InvalidParam "Invalid next_batch token.")
               | None => Ok 0
               end);
  let ids := (N.iter (wrap64 (skip + limit)) merge_step (searches, [])).2 in
  events ← ondb (result_events ids);
  let results := take (N.to_nat limit) (drop (N.to_nat skip) events) in
  mret (MkSearchResponse results
    (if bool_decide (N.of_nat (length results) < limit) then None else Some (u64_to_string (wrap64 (skip + limit))))
    (to_lowercase <$> text_parts (sc_search_term criteria))).
End directory.

(** ** Theorems on the directory *)

Section directory_theorems.
Context {Ev : Env} {EL : EventLib} {TL : TimelineLib} {CL : ContentLib} {Out : Outside} {RL : RoomLib} {DL : DirectoryLib}.
Implicit Types (s : State) (n : Node).

Definition more_members (c c' : PublicRoomsChunk) : Prop := ch_num_joined_members c' <= ch_num_joined_members c.

Lemma insert_room_perm c l : insert_room c l ≡ₚ c :: l.
Proof. induction l as [|x l IH]; [done|]. cbn. case_bool_decide; [|done]. rewrite IH. constructor. Qed.
Lemma sort_rooms_perm l : sort_rooms l ≡ₚ l.
Proof. induction l as [|x l IH]; [done|]. cbn. by rewrite insert_room_perm, IH. Qed.
Lemma insert_room_sorted c l : StronglySorted more_members l → StronglySorted more_members (insert_room c l).
Proof.
  induction 1 as [|x l Hs IH Hall]; cbn; [repeat constructor|]. case_bool_decide as Hc.
  - constructor; [done|]. rewrite insert_room_perm. constructor; [unfold more_members; lia|done].
  - constructor; [by constructor|]. constructor; [unfold more_members; lia|].
    eapply Forall_impl; [exact Hall|]. unfold more_members. intros y. lia.
Qed.
Lemma sort_rooms_sorted l : StronglySorted more_members (sort_rooms l).
Proof. induction l as [|x l IH]; cbn; [constructor|by apply insert_room_sorted]. Qed.

Lemma after_char_token (c : string) (b : byte) t : as_bytes (lit c) = [b] → after_char b (str_app (lit c) t) = Some t.
Proof. intros E. unfold after_char. cbn [as_bytes str_app]. rewrite E. cbn. rewrite bool_decide_true by done. apply from_utf8_as_bytes. Qed.

Lemma page_start_next limit k : u64 k → page_start limit (Some (str_app (lit "n") (u64_to_string k))) = Ok k.
Proof. intros Hk. unfold page_start. rewrite (after_char_token "n" x6e) by by_compute. by rewrite u64_from_to_string. Qed.
Lemma page_start_prev limit k : u64 k → page_start limit (Some (str_app (lit "p") (u64_to_string k))) = Ok (k - limit).
Proof.
  intros Hk. unfold page_start. rewrite (after_char_token "p" x70) by by_compute.
  assert (after_char x6e (str_app (lit "p") (u64_to_string k)) = None) as -> by by_compute. by rewrite u64_from_to_string.
Qed.

(** A client that asks for page after page, with the token of the page before. *)
Fixpoint follow_next (fuel : nat) (all : list PublicRoomsChunk) (limit : N) (since : option rstr) : option (list PublicRoomsChunk) :=
  match fuel, page_start limit since with
  | S fuel, Ok num_since =>
      let page := directory_page all limit num_since in
      match pr_next_batch page with
      | Some token => app (pr_chunk page) <$> follow_next fuel all limit (Some token)
      | None => Some (pr_chunk page)
      end
  | _, _ => None
  end.

Lemma follow_next_from all limit : 0 < limit → N.of_nat (length all) + limit < 2 ^ 64 →
  ∀ fuel since num_since, page_start limit since = Ok num_since → num_since <= N.of_nat (length all) →
    (length all - N.to_nat num_since < fuel)%nat →
    follow_next fuel all limit since = Some (drop (N.to_nat num_since) all).
Proof.
  intros Hl Hall. induction fuel as [|fuel IH]; intros since k Ek Hk Hf; [lia|]. cbn [follow_next]. rewrite Ek. cbn.
  rewrite length_take, length_drop. case_bool_decide as Hlt.
  - f_equal. apply take_ge. rewrite length_drop. lia.
  - assert (wrap64 (k + limit) = k + limit) as -> by (unfold wrap64; apply N.mod_small; lia).
    rewrite (IH _ (k + limit)); [|apply page_start_next; unfold u64; lia|lia|lia]. cbn. f_equal.
    rewrite N2Nat.inj_add, <- drop_drop. apply take_drop.
Qed.

(** Pages of no rooms never end: each has a token, which leads to the same page. *)
Lemma follow_next_zero all fuel since : page_start 0 since = Ok 0 → follow_next fuel all 0 since = None.
Proof.
  revert since. induction fuel as [|fuel IH]; intros since E; [done|]. cbn [follow_next]. rewrite E. cbn.
  rewrite bool_decide_false by lia. erewrite IH; [done|]. by apply page_start_next.
Qed.

(** C33: Paging through a directory whose positions fit 64 bits, with pages of at least one room, visits everything: a client that starts without a
    token and follows the token of each page ends after finitely many pages, having
    seen every room of the list exactly once and in order. A client that asks for pages of no rooms gets empty pages and never
    comes to an end. With either, the token for the page before leads back by one page. *)
Theorem directory_pages all limit : N.of_nat (length all) + limit < 2 ^ 64 →
  (if decide (limit = 0) then pr_chunk (directory_page all limit 0) = [] ∧ ∀ fuel, follow_next fuel all limit None = None
   else follow_next (S (length all)) all limit None = Some all) ∧
  ∀ k token, u64 k → pr_prev_batch (directory_page all limit k) = Some token → page_start limit (Some token) = Ok (k - limit).
Proof.
  intros Hall. split.
  - case_decide as Hl; [subst; split; [done|]; intros fuel; by apply follow_next_zero|].
    by rewrite (follow_next_from all limit ltac:(lia) Hall _ None 0); [..|lia|cbn; lia].
  - intros k token Hk. cbn. case_bool_decide; [done|]. intros [= <-]. by apply page_start_prev.
Qed.

(** ** What is listed *)

Lemma try_ok_inv {S A} (m : M S A) (s : S) o (s' : S) : try_ok m s = (Ok o, s') →
  match o with Some a => m s = (Ok a, s') | None => ∃ e, m s = (Err e, s') end.
Proof. unfold try_ok. destruct (m s) as [[a|e|p] s1]; intros [= <- <-]; eauto. Qed.

Lemma readable_chunks_rooms rooms s chunks s' :
  readable_chunks rooms s = (Ok chunks, s') → ∀ c, c ∈ chunks → Ok (ch_room_id c) ∈ rooms.
Proof.
  intros H. refine (for_fold_Ok (λ chunks _, ∀ c, c ∈ chunks → Ok (ch_room_id c) ∈ rooms) _ _ _ _ _ _ _ _ H);
    [|by intros c ?%not_elem_of_nil].
  clear. intros acc r s acc' s' Hr IH H. run_inv H o s1 E. injection H as <- <-. apply try_ok_inv in E.
  destruct o as [chunk|]; [|done]. intros c [Hc|Hc]%elem_of_app; [by apply IH|]. apply list_elem_of_singleton in Hc as ->.
  lift_inv E room Er. destruct r as [room'|e|e]; [|done..]. injection Er as <-.
  unfold room_chunk in E. run_inv E a1 s2 E1. run_inv E a2 s3 E2. run_inv E a3 s4 E3. run_inv E a4 s5 E4.
  run_inv E a5 s6 E5. run_inv E a6 s7 E6. run_inv E a7 s8 E7. run_inv E a8 s9 E8. run_inv E a9 s10 E9.
  run_inv E a10 s11 E10. by injection E as <- _.
Qed.

(** The directory lists only rooms that were made public and match the search term, at
    most as many as were asked for, those with more members first. *)
Theorem public_rooms_listed (server : option ServerName) limit since filter n page n' :
  from_option (λ o, o = server_name) True server →
  get_public_rooms_filtered_helper server limit since filter n = (Ok page, n') →
  (∀ c, c ∈ pr_chunk page →
     is_Some (db_map (nd_db n) publicroomids !! idb (ch_room_id c)) ∧ chunk_matches filter c = true) ∧
  StronglySorted more_members (pr_chunk page) ∧ N.of_nat (length (pr_chunk page)) <= default 10 limit.
Proof.
  intros Hs H. assert (∃ s', local_public_rooms limit since filter (nd_db n) = (Ok page, s')) as [s' E].
  { unfold get_public_rooms_filtered_helper in H. destruct server as [o|]; [|by apply ondb_inv in H as (? & ? & _); eauto].
    cbn in Hs. rewrite bool_decide_false in H by (intros Hne; by apply Hne). apply ondb_inv in H as (? & ? & _); eauto. }
  clear H n'. unfold local_public_rooms in E. lift_inv E start E1. run_inv E rooms s1 E2. run_inv E chunks s2 E3.
  injection E as <- <-. cbn [pr_chunk directory_page]. set (all := List.filter _ chunks).
  assert (∀ c, c ∈ take (N.to_nat (default 10 limit)) (drop (N.to_nat start) (sort_rooms all)) → c ∈ all) as Hin.
  { intros c Hc. rewrite <- (sort_rooms_perm all). apply elem_of_take in Hc as (i & Hc & _).
    rewrite lookup_drop in Hc. by eapply list_elem_of_lookup_2. }
  split_and!.
  - intros c [Hc Hm]%Hin%list_elem_of_In%filter_In. split; [|done]. apply list_elem_of_In in Hc.
    eapply readable_chunks_rooms in Hc; [|exact E3]. unfold public_rooms in E2. revert E2. db_step.
    unfold mret, M_ret. intros [= <- <-]. apply list_elem_of_fmap in Hc as ([k v] & E & Hk). symmetry in E.
    apply parse_bytes_Ok in E. cbn in E. subst k. apply elem_of_sorted_entries in Hk. eauto.
  - pose proof (sort_rooms_sorted all) as Ho. rewrite <- (take_drop (N.to_nat start)) in Ho.
    apply StronglySorted_app_1_r in Ho. rewrite <- (take_drop (N.to_nat (default 10 limit)) (drop _ _)) in Ho.
    by apply StronglySorted_app_1_l in Ho.
  - rewrite length_take. lia.
Qed.
End directory_theorems.

(** ** Theorems on users *)

Section user_directory_theorems.
Context {Ev : Env} {EL : EventLib} {TL : TimelineLib} {CL : ContentLib} {Out : Outside} {RL : RoomLib} {DL : DirectoryLib}.
Implicit Types (s : State) (n : Node).

Lemma avatar_url_keeps u : keeps [] (avatar_url u).
Proof. unfold avatar_url. keeps_tac. Qed.
Lemma shared_rooms_keeps l : keeps [] (get_shared_rooms l).
Proof. unfold get_shared_rooms. keeps_tac. Qed.
Lemma any_public_keeps rooms : keeps [] (any_public rooms).
Proof. induction rooms; cbn [any_public]; keeps_tac. Qed.
Hint Resolve avatar_url_keeps shared_rooms_keeps any_public_keeps rooms_joined_keeps : keeps.
Lemma visible_user_keeps u term r : keeps [] (visible_user u term r).
Proof. unfold visible_user, try_some. keeps_tac. Qed.

(** One of the rooms listed for the user has a public join rule. *)
Definition in_public_room s (u : UserId) : Prop :=
  ∃ rooms r s1 pdu s2, rooms_joined u s = (Ok rooms, s) ∧ Ok r ∈ rooms ∧ agree [] s s1 ∧
    room_state_get r (lit "m.room.join_rules") (lit "") s1 = (Ok (Some pdu), s2) ∧
    join_rules_content (content pdu) = Some JPublic.
Definition share_room s (u v : UserId) : Prop :=
  ∃ r : RoomId, is_Some (db_map s userroomid_joined !! idkey u r) ∧ is_Some (db_map s userroomid_joined !! idkey v r).

Lemma any_public_true rooms s0 s s' : agree [] s0 s → any_public rooms s = (Ok true, s') →
  ∃ r s1 pdu s2, r ∈ rooms ∧ agree [] s0 s1 ∧ room_state_get r (lit "m.room.join_rules") (lit "") s1 = (Ok (Some pdu), s2) ∧
    join_rules_content (content pdu) = Some JPublic.
Proof.
  revert s. induction rooms as [|r rooms IH]; intros s Ha H; cbn [any_public] in H; [by injection H|].
  run_inv H o s1 E. apply try_ok_inv in E.
  assert (agree [] s0 s1) as Ha1.
  { etrans; [exact Ha|]. pose proof (room_state_get_keeps r (lit "m.room.join_rules") (lit "") s) as Hk.
    destruct o as [o|]; [by rewrite E in Hk|]. destruct E as [e E]. by rewrite E in Hk. }
  destruct (mjoin o ≫= λ event, join_rules_content (content event)) as [[]|] eqn:Er;
    try (destruct (IH s1 Ha1 H) as (r' & s2 & pdu & s3 & Hr & ?); exists r', s2, pdu, s3; split; [by right|done]).
  destruct o as [[pdu|]|]; [|done..]. exists r, s, pdu, s1. split_and!; [by left|done..].
Qed.

Lemma rooms_joined_same u s r s' : rooms_joined u s = (r, s') → s' = s ∧ ∃ rooms, r = Ok rooms.
Proof. unfold rooms_joined. db_step. unfold mret, M_ret. intros [= <- <-]. eauto. Qed.

(** [id_keyed] of the joined rooms only depends on the trees. *)
Lemma visible_user_sound sender term r s0 s f s' :
  id_keyed (va := valid_user_id) (vb := valid_room_id) (db_map s0 userroomid_joined) → agree [] s0 s →
  visible_user sender term r s = (Ok (Some f), s') →
  r = Ok (fu_user_id f) ∧ (in_public_room s0 (fu_user_id f) ∨ share_room s0 sender (fu_user_id f)).
Proof.
  intros Hk Ha H. unfold visible_user in H. destruct r as [u|e|e]; [|done..].
  assert (∀ {A} (m : DB A) f s o s', keeps [] m → agree [] s0 s → try_some m f s = (Ok (Some o), s') →
    ∃ a s1, m s = (Ok a, s1) ∧ agree [] s0 s1 ∧ f a s1 = (Ok (Some o : option FoundUser), s')) as Hstep.
  { clear. intros A m f s o s' Hm Ha H. unfold try_some in H. run_inv H x s1 E. apply try_ok_inv in E.
    destruct x as [a|]; [|done]. exists a, s1. split_and!; [done| |done]. etrans; [done|]. specialize (Hm s). by rewrite E in Hm. }
  apply Hstep in H as (name & s1 & E1 & A1 & H); [|apply displayname_keeps|done].
  apply Hstep in H as (avatar & s2 & E2 & A2 & H); [|apply avatar_url_keeps|done]. cbn zeta in H.
  destruct (negb _ && negb _); [done|]. run_inv H rooms s3 E3. pose proof (rooms_joined_same _ _ _ _ E3) as [-> _].
  run_inv H b s4 E4. destruct b.
  - injection H as <- _. split; [done|]. left. apply (any_public_true _ s0) in E4 as (r & s5 & pdu & s6 & Hr & E4); [|done].
    exists rooms, r, s5, pdu, s6. split_and!; [| |apply E4..].
    + unfold rooms_joined in E3 |- *. revert E3. do 2 db_step. rewrite (A2 userroomid_joined) by by_compute.
      unfold mret, M_ret. by intros [= <-].
    + unfold filter_map in Hr. apply list_elem_of_omap in Hr as ([x| |] & Hx & Er); [|done..]. by injection Er as <-.
  - assert (agree [] s0 s4) as A4.
    { etrans; [exact A2|]. pose proof (any_public_keeps (filter_map ok rooms) s2) as Hp. by rewrite E4 in Hp. }
    apply Hstep in H as (shared & s5 & E5 & A5 & H); [|apply shared_rooms_keeps|done].
    destruct shared as [|x shared]; [done|]. injection H as <- _. split; [done|]. right. cbn [fu_user_id].
    assert (db_map s4 userroomid_joined = db_map s0 userroomid_joined) as Ej by (apply A4; by_compute).
    destruct (get_shared_rooms_correct sender [u] s4) as (rs & E & _ & Hrs); [by rewrite Ej|].
    rewrite E in E5. injection E5 as E5 _. destruct rs as [|r rs]; [done|]. exists r.
    rewrite <- Ej. assert (∀ u', u' ∈ [sender; u] → is_Some (db_map s4 userroomid_joined !! idkey u' r)) as Hj by (apply Hrs; left).
    split; apply Hj; set_solver.
Qed.

(** A search for users reveals only users of the server who are in a room with a public
    join rule or share a room with the one who searches, at most as many as asked for;
    and unless it says that there are more, it has left out no user that could be seen. *)
Theorem search_users_hidden sender term limit users s found limited s' :
  id_keyed (va := valid_user_id) (vb := valid_room_id) (db_map s userroomid_joined) →
  take_users sender term limit users s = (Ok (found, limited), s') →
  (length found ≤ limit)%nat ∧
  (∀ f, f ∈ found → Ok (fu_user_id f) ∈ users ∧ (in_public_room s (fu_user_id f) ∨ share_room s sender (fu_user_id f))) ∧
  (limited = false → ∀ r, r ∈ users → ∃ s1 o s2, agree [] s s1 ∧ visible_user sender term r s1 = (Ok o, s2) ∧
     ∀ f, o = Some f → f ∈ found).
Proof.
  intros Hk. assert (agree [] s s) as Ha by done. revert Ha. generalize s at 2 3. intros s1 Ha H.
  revert limit s1 found Ha H. induction users as [|r users IH]; intros limit s1 found Ha H; cbn [take_users] in H.
  { injection H as <- <- _. split_and!; [cbn; lia|by intros f ?%not_elem_of_nil|by intros _ r ?%not_elem_of_nil]. }
  run_inv H o s2 E. assert (agree [] s s2) as A2.
  { etrans; [exact Ha|]. pose proof (visible_user_keeps sender term r s1) as Hv. by rewrite E in Hv. }
  destruct o as [user|].
  - pose proof (visible_user_sound _ _ _ _ _ _ _ Hk Ha E) as [-> Hvis]. destruct limit as [|limit].
    { injection H as <- <- _. split_and!; [cbn; lia|by intros f ?%not_elem_of_nil|done]. }
    run_inv H rest s3 E3. injection H as <- <- <-. destruct rest as [found' limited]. cbn [fst snd].
    destruct (IH _ _ _ A2 E3) as (IH1 & IH2 & IH3). split_and!.
    + cbn. lia.
    + intros f [->|Hf]%elem_of_cons; [split; [left|done]|]. apply IH2 in Hf as [? ?]. split; [by right|done].
    + intros Hl r [->|Hr]%elem_of_cons; [exists s1, (Some user), s2; split_and!; [done..|]; intros f [= <-]; left|].
      destruct (IH3 Hl r Hr) as (s4 & o & s5 & ? & ? & Ho). exists s4, o, s5. split_and!; [done..|]. intros f Ef. right. auto.
  - destruct (IH _ _ _ A2 H) as (IH1 & IH2 & IH3). split_and!; [done| |].
    + intros f Hf. apply IH2 in Hf as [? ?]. split; [by right|done].
    + intros Hl r' [->|Hr]%elem_of_cons; [by exists s1, None, s2|]. by apply IH3.
Qed.
End user_directory_theorems.

(** ** Theorems on message search *)

Section search_theorems.
Context {Ev : Env} {EL : EventLib} {TL : TimelineLib} {CL : ContentLib} {Out : Outside} {RL : RoomLib} {DL : DirectoryLib}.
Implicit Types (s : State) (n : Node).

(** The id is one of the room's timeline. *)
Definition id_of_room s (r : RoomId) (id : bytes) : Prop :=
  ∃ sr, get_shortroomid r s = (Ok (Some sr), s) ∧ to_be_bytes sr `prefix_of` id.

Lemma search_pdus_ids r term s o s' : search_pdus r term s = (Ok o, s') →
  s' = s ∧ ∀ ids ws, o = Some (ids, ws) → Forall (id_of_room s r) ids.
Proof.
  unfold search_pdus, room_short. intros H. run_inv H sr s1 E. run_inv E o1 s2 E1. unfold lift in E.
  injection E as E <-. destruct o1 as [sr'|]; [|done]. injection E as ->.
  assert (s2 = s) as ->. { unfold get_shortroomid in E1. revert E1. db_step. unfold lift. by intros [= _ <-]. }
  rewrite bind_gets in H. unfold mret, M_ret in H. injection H as <- <-. split; [done|]. intros ids ws.
  destruct (CommonElements.common_elements _ _) as [common|]; [|done]. intros [= <- _]. apply Forall_fmap, Forall_forall. intros id _.
  exists sr. split; [done|]. by eexists.
Qed.

(** All rooms are joined, and every search lists events of one of them. *)
Lemma room_searches_sound u term rooms s searches s' :
  room_searches u term rooms s = (Ok searches, s') →
  s' = s ∧ (∀ r, r ∈ rooms → is_Some (db_map s userroomid_joined !! idkey u r)) ∧
  ∀ ids, ids ∈ searches → ∃ r, r ∈ rooms ∧ Forall (id_of_room s r) ids.
Proof.
  unfold room_searches. intros H.
  assert (∀ l acc s1 searches s', (∀ r, r ∈ l → r ∈ rooms) → s1 = s →
    (∀ ids, ids ∈ acc → ∃ r, r ∈ rooms ∧ Forall (id_of_room s r) ids) →
    for_fold l acc (λ searches room_id,
      joined ← is_joined u room_id;
      if negb joined then fail (BadRequest Forbidden "You don't have permission to view this room.")
      else
        o ← search_pdus room_id term;
        mret (match o with Some search => searches ++ [search.1] | None => searches end)) s1 = (Ok searches, s') →
    s' = s ∧ (∀ r, r ∈ l → is_Some (db_map s userroomid_joined !! idkey u r)) ∧
    ∀ ids, ids ∈ searches → ∃ r, r ∈ rooms ∧ Forall (id_of_room s r) ids) as Hloop.
  { clear. induction l as [|r l IH]; intros acc s1 searches s' Hl -> Hacc H; cbn [for_fold] in H.
    { injection H as <- <-. split_and!; [done|by intros r ?%not_elem_of_nil|done]. }
    run_inv H acc' s2 E. unfold is_joined in E. run_inv E joined s3 E3. revert E3. db_step. unfold mret, M_ret.
    intros [= <- <-]. case_bool_decide as Hj; cbn [negb] in E; [|done]. run_inv E o s4 E4. injection E as <- <-.
    apply search_pdus_ids in E4 as [-> Ho]. apply IH in H as (-> & H1 & H2); [|set_solver|done|].
    - split_and!; [done| |done]. intros r' [->|Hr]%elem_of_cons; auto.
    - destruct o as [[ids ws]|]; [|done]. intros ids' [Hi|Hi]%elem_of_app; [auto|].
      apply list_elem_of_singleton in Hi as ->. exists r. split; [apply Hl; left|]. by eapply Ho. }
  eapply Hloop; [auto|reflexivity| |exact H]. by intros ids ?%not_elem_of_nil.
Qed.

Lemma pick_max_lookup searches id i : pick_max searches = Some (Some id, i) → ∃ l, searches !! i = Some (id :: l).
Proof.
  revert id i. induction searches as [|x searches IH]; intros id i; cbn; [done|].
  destruct (pick_max searches) as [[m j]|].
  - destruct (head_lt m (head x)); intros H; [|injection H as -> <-; by apply IH].
    destruct x as [|a x]; [done|]. injection H as -> <-. by exists x.
  - intros H. destruct x as [|a x]; [done|]. injection H as -> <-. by exists x.
Qed.

Lemma merge_step_in (P : bytes → Prop) st :
  Forall (Forall P) st.1 → Forall P st.2 → Forall (Forall P) (merge_step st).1 ∧ Forall P (merge_step st).2.
Proof.
  intros H1 H2. unfold merge_step. destruct (pick_max st.1) as [[[id|] i]|] eqn:E; [|done..].
  apply pick_max_lookup in E as [l El]. cbn [fst snd].
  assert (Forall P (id :: l)) as Hl by (rewrite Forall_forall in H1; apply H1; by eapply list_elem_of_lookup_2). split.
  - apply Forall_alter; [done|]. intros x Hx _. rewrite El in Hx. injection Hx as <-. by inversion Hl.
  - apply Forall_app. split; [done|]. constructor; [by inversion Hl|constructor].
Qed.
Lemma merge_in (P : bytes → Prop) k st :
  Forall (Forall P) st.1 → Forall P st.2 → Forall P (N.iter k merge_step st).2.
Proof.
  intros H1 H2. cut (Forall (Forall P) (N.iter k merge_step st).1 ∧ Forall P (N.iter k merge_step st).2); [by intros [_ ?]|].
  induction k as [|k [IH1 IH2]] using N.peano_ind; [done|]. rewrite N.iter_succ. by apply merge_step_in.
Qed.

Lemma result_events_sound ids s events s' : result_events ids s = (Ok events, s') →
  ∀ ev, Some ev ∈ events → ∃ id pdu, id ∈ ids ∧ get_pdu_from_id id s = (Ok (Some pdu), s) ∧ ev = to_room_event pdu.
Proof.
  intros H. refine (proj2 (for_fold_Ok (λ events s', s' = s ∧ ∀ ev, Some ev ∈ events → ∃ id pdu, id ∈ ids ∧
    get_pdu_from_id id s = (Ok (Some pdu), s) ∧ ev = to_room_event pdu) _ _ _ _ _ _ _ _ H)).
  - clear. intros acc id s1 acc' s' Hid [-> IH] H. run_inv H o s2 E. injection H as <- <-. apply try_ok_inv in E.
    assert (∀ r s', get_pdu_from_id id s = (r, s') → s' = s) as Hs.
    { intros r s'. unfold get_pdu_from_id. db_step. unfold lift. by intros [= _ <-]. }
    destruct o as [pdu|]; [|destruct E as [e E]; split; [by eapply Hs|done]].
    pose proof (Hs _ _ E) as ->. split; [done|]. intros ev [He|He]%elem_of_app; [by apply IH|].
    apply list_elem_of_singleton in He. destruct pdu as [pdu|]; [|done]. injection He as ->. eauto.
  - split; [done|]. by intros ev ?%not_elem_of_nil.
Qed.

(** C36: A message search answers only if the sender has joined every room it looks into,
    and each event it finds is stored in the timeline of one of these rooms. *)
Theorem search_events_joined (b : Request (option SearchCriteria * option rstr)) criteria u n resp n' :
  sender_user b = Some u → (body b).1 = Some criteria → search_events_route b n = (Ok resp, n') →
  ∃ rooms, from_option (λ l, l = rooms) (∃ l, rooms_joined u (nd_db n) = (Ok l, nd_db n) ∧ rooms = filter_map ok l) (sc_rooms criteria) ∧
    (∀ r, r ∈ rooms → is_Some (db_map (nd_db n) userroomid_joined !! idkey u r)) ∧
    ∀ ev, Some ev ∈ sr_results resp → ∃ r id pdu, r ∈ rooms ∧ id_of_room (nd_db n) r id ∧
      get_pdu_from_id id (nd_db n) = (Ok (Some pdu), nd_db n) ∧ ev = to_room_event pdu.
Proof.
  intros Hu Hc H. unfold search_events_route, the_user in H. rewrite Hu, Hc in H. cbn [expect] in H.
  rewrite !bind_lift_Ok in H. run_inv H rooms n1 E1.
  assert (n1 = n ∧ from_option (λ l, l = rooms) (∃ l, rooms_joined u (nd_db n) = (Ok l, nd_db n) ∧ rooms = filter_map ok l)
    (sc_rooms criteria)) as [-> Hr].
  { destruct (sc_rooms criteria) as [l|]; [by injection E1 as <- <-|]. run_inv E1 l n2 E2. injection E1 as <- <-.
    apply ondb_inv in E2 as (s2 & E2 & ->). pose proof (rooms_joined_same _ _ _ _ E2) as [-> _].
    split; [by destruct n as [[[]]]|]. cbn. eauto. }
  exists rooms. split; [done|]. cbn zeta in H. run_inv H searches n2 E2. apply ondb_inv in E2 as (s2 & E2 & ->).
  apply room_searches_sound in E2 as (-> & Hj & Hs). split; [done|]. lift_inv H skip Es. run_inv H events n3 E3.
  apply ondb_inv in E3 as (s3 & E3 & ->). injection H as <- _. cbn [sr_results]. intros ev Hev.
  apply elem_of_take in Hev as (i & Hev & _). rewrite lookup_drop in Hev. apply list_elem_of_lookup_2 in Hev.
  change (nd_db (with_db ?x _)) with x in E3.
  destruct (result_events_sound _ _ _ _ E3 ev Hev) as (id & pdu & Hid & Ep & ->).
  assert (Forall (λ id, ∃ r, r ∈ rooms ∧ id_of_room (nd_db n) r id)
    (N.iter (wrap64 (skip + default 10 (sc_limit criteria))) merge_step (searches, [])).2) as Hall.
  { apply merge_in; [|constructor]. apply Forall_forall. intros ids (r & Hr' & Hids)%Hs.
    eapply Forall_impl; [exact Hids|]. eauto. }
  rewrite Forall_forall in Hall. destruct (Hall id Hid) as (r & ? & ?). eauto 7.
Qed.
End search_theorems.
