(* ===== verification/ClientMisc.v ===== *)
(** * Typing, messages to devices, read markers and the small routes
    ([typing.rs], [to_device.rs], [filter.rs], [read_marker.rs], [report.rs],
    [capabilities.rs], [voip.rs], [thirdparty.rs], [unversioned.rs] of
    [src/api/client_server/]) *)

From S2P Require Import Prelude Bytes RStr Text Decimal Error Utils KvTree Env Db Keys Globals Frames Short RoomState Pdu Timeline StateAccessor Users StateCache DeviceKeys Edus Sending SendingService RoomIndex ClientData RoomUser OpFrames EventFormat TimelineService Federation EventHandler Request Admin ServerServer.

Section misc.
Context {Ev : Env} {EL : EventLib} {TL : TimelineLib} {CL : ContentLib} {Out : Outside} {HL : HandlerLib} {SL : ServerLib}.

Class MiscLib := {
  (** the JSON text of a [DirectToDevice] EDU with one message *)
  direct_edu : UserId → rstr → rstr → UserId → option DeviceId → Raw → bytes;
  (** a receipt of the current time without a thread *)
  receipt_now : N → json;
  (** the [Debug] text of a string, a number that may be missing and a string that may be missing *)
  debug_str : rstr → rstr;
  debug_score : option Z → rstr;
  debug_reason : option rstr → rstr;
  (** the base64 text of [Hmac<Sha1>] with a key *)
  hmac_sha1 : bytes → bytes → rstr;
  (** the configuration *)
  turn_secret : rstr;
  turn_username : rstr;
  turn_password : rstr;
  turn_uris : list rstr;
  turn_ttl : N;
}.
Context {XL : MiscLib}.

(** ** Typing *)

(** [Typing::Yes] of a duration in milliseconds, or [Typing::No] *)
Definition create_typing_event_route (b : Request (RoomId * option N)) : NM unit :=
  sender_user ← lift (expect (sender_user b) "user is authenticated");
  joined ← ondb (is_joined sender_user (body b).1);
  if negb joined then fail (BadRequest Forbidden "You are not in this room.")
  else
    match (body b).2 with
    | Some duration => t ← instant_now; ondb (typing_add sender_user (body b).1 (wrap64 (duration mod 2 ^ 64 + t)))
    | None => ondb (typing_remove sender_user (body b).1)
    end.

(** ** Messages to devices *)

Record ToDeviceRequest := MkToDevice {
  td_event_type : rstr;
  td_txn_id : rstr;
  (** a message for [None] is for all devices of the user *)
  td_messages : list (UserId * list (option DeviceId * Raw))
}.

Definition send_remote_message (sender_user target_user_id : UserId) (event_type : rstr) (device : option DeviceId) (event : Raw) : NM unit :=
  count ← ondb next_count;
  on_server (on_sending (send_reliable_edu (user_server_name target_user_id)
    (direct_edu sender_user event_type (u64_to_string count) target_user_id device event))).

Definition send_local_message (sender_user target_user_id : UserId) (event_type : rstr) (device : option DeviceId) (event : Raw) : DB unit :=
  match device with
  | Some target_device_id => push_to_device sender_user target_user_id target_device_id event_type event
  | None =>
      ids ← all_device_ids target_user_id;
      for_each ids (λ id,
        target_device_id ← lift id; push_to_device sender_user target_user_id target_device_id event_type event)
  end.

Definition send_event_to_device_route (b : Request ToDeviceRequest) : NM unit :=
  user ← lift (expect (sender_user b) "user is authenticated");
  o ← ondb (existing_txnid user (sender_device b) (td_txn_id (body b)));
  match o with
  | Some _ => mret ()
  | None =>
      for_each (td_messages (body b)) (λ '(target_user_id, map),
        for_each map (λ '(device, event),
          if bool_decide (user_server_name target_user_id ≠ server_name) then
            send_remote_message user target_user_id (td_event_type (body b)) device event
          else ondb (send_local_message user target_user_id (td_event_type (body b)) device event))) ;;
      ondb (add_txnid user (sender_device b) (td_txn_id (body b)) [])
  end.

(** ** Filters *)

Definition get_filter_route (b : Request rstr) : NM FilterDefinition :=
  user ← lift (expect (sender_user b) "user is authenticated");
  o ← ondb (get_filter user (body b));
  lift (ok_or o (BadRequest NotFound "Filter not found.")).
Definition create_filter_route (b : Request FilterDefinition) : NM rstr :=
  user ← lift (expect (sender_user b) "user is authenticated");
  filter_id ← random_string 4;
  ondb (create_filter filter_id user (body b)).

(** ** Read markers *)

(** [FullyReadEvent] as JSON *)
Definition fully_read_event (event_id : EventId) : json :=
  JObj (obj_of [(lit "type", JStr (lit "m.fully_read")); (lit "content", JObj [(lit "event_id", id_value event_id)])]).

Definition set_fully_read (user : UserId) (room_id : RoomId) (event_id : EventId) : DB unit :=
  ClientData.update (Some room_id) user (lit "m.fully_read") (fully_read_event event_id).
Definition set_private_read (user : UserId) (room_id : RoomId) (event_id : EventId) : DB unit :=
  o ← get_pdu_count event_id;
  count ← lift (ok_or o (BadRequest InvalidParam "Event does not exist."));
  private_read_set room_id user count.
Definition set_public_read (user : UserId) (room_id : RoomId) (event_id : EventId) : DB unit :=
  t ← gets now;
  readreceipt_update user room_id (receipt_event room_id user event_id (receipt_now t)).

Record ReadMarkerRequest := MkReadMarker {
  rk_room_id : RoomId;
  rk_fully_read : option EventId;
  rk_private_read_receipt : option EventId;
  rk_read_receipt : option EventId
}.
Definition when_some {A} (o : option A) (f : A → DB unit) : DB unit := match o with Some a => f a | None => mret () end.

Definition set_read_marker_route (b : Request ReadMarkerRequest) : NM unit :=
  user ← lift (expect (sender_user b) "user is authenticated");
  let room_id := rk_room_id (body b) in
  ondb (
    when_some (rk_fully_read (body b)) (set_fully_read user room_id) ;;
    (if bool_decide (is_Some (rk_private_read_receipt (body b))) || bool_decide (is_Some (rk_read_receipt (body b)))
     then reset_notification_counts user room_id else mret ()) ;;
    when_some (rk_private_read_receipt (body b)) (set_private_read user room_id) ;;
    when_some (rk_read_receipt (body b)) (set_public_read user room_id)).

Inductive ReceiptKind := RFullyRead | RRead | RReadPrivate | ROther.
Definition create_receipt_route (b : Request (RoomId * ReceiptKind * EventId)) : NM unit :=
  user ← lift (expect (sender_user b) "user is authenticated");
  let '(room_id, kind, event_id) := body b in
  ondb (
    match kind with RRead | RReadPrivate => reset_notification_counts user room_id | _ => mret () end ;;
    match kind with
    | RFullyRead => set_fully_read user room_id event_id
    | RRead => set_public_read user room_id event_id
    | RReadPrivate => set_private_read user room_id event_id
    | ROther => fail (BadDatabase "Unsupported receipt type")
    end).

(** ** Reports *)

Record ReportRequest := MkReport { rp_event_id : EventId; rp_score : option Z; rp_reason : option rstr }.

(** the link symbol of the report *)
Definition link_symbol : rstr := MkStr [xf0; x9f; x94; x97] eq_refl.

Definition report_text (reporter : UserId) (pdu : PduEvent) (score : option Z) (reason : option rstr) : rstr :=
  texts [lit "Report received from: "; as_str reporter; newline; newline;
         lit "Event ID: "; debug_str (as_str (event_id pdu)); newline;
         lit "Room ID: "; debug_str (as_str (room_id pdu)); newline;
         lit "Sent By: "; debug_str (as_str (sender pdu)); newline; newline;
         lit "Report Score: "; debug_score score; newline;
         lit "Report Reason: "; debug_reason reason].
Definition report_html (reporter : UserId) (pdu : PduEvent) (score : option Z) (reason : option rstr) : rstr :=
  let u := debug_str (as_str reporter) in
  let e := debug_str (as_str (event_id pdu)) in
  let r := debug_str (as_str (room_id pdu)) in
  let s := debug_str (as_str (sender pdu)) in
  let link (parts : list rstr) := texts ([lit "<a href="; quote; lit "https://matrix.to/#/"] ++ parts ++ [quote; lit ">"]) in
  texts [lit "<details><summary>Report received from: "; link [u]; u; lit "</a></summary><ul><li>Event Info<ul><li>Event ID: <code>"; e;
         lit "</code>"; link [r; lit "/"; e]; link_symbol; lit "</a></li><li>Room ID: <code>"; r; lit "</code></li><li>Sent By: ";
         link [s]; s; lit "</a></li></ul></li><li>Report Info<ul><li>Report Score: "; debug_score score;
         lit "</li><li>Report Reason: "; html_escape (default (lit "") reason); lit "</li></ul></li></ul></details>"].

Definition report_event_route (b : Request ReportRequest) : NM unit :=
  user ← lift (expect (sender_user b) "user is authenticated");
  o ← ondb (get_pdu (rp_event_id (body b)));
  match o with
  | Some pdu =>
      if from_option (λ s, bool_decide (0 < s)%Z || bool_decide (s < -100)%Z) false (rp_score (body b)) then
        fail (BadRequest InvalidParam "Invalid score, must be within 0 to -100")
      else if from_option (λ s, bool_decide (250 < char_count s)) false (rp_reason (body b)) then
        fail (BadRequest InvalidParam "Reason too long, should be 250 characters or fewer")
      else on_server (send_message (TextHtml (report_text user pdu (rp_score (body b)) (rp_reason (body b)))
                                             (report_html user pdu (rp_score (body b)) (rp_reason (body b)))))
  | None => fail (BadRequest InvalidParam "Invalid Event ID")
  end.

(** ** The server *)

Inductive RoomVersionStability := Stable | Unstable.
Definition get_capabilities_route (b : Request unit) : NM (rstr * gmap rstr RoomVersionStability) :=
  let available := foldl (λ m v, <[v := Unstable]> m) ∅ unstable_room_versions in
  let available := foldl (λ m v, <[v := Stable]> m) available stable_room_versions in
  mret (default_room_version, available).

Record TurnServer := MkTurn { ts_username : rstr; ts_password : rstr; ts_uris : list rstr; ts_ttl : N }.
Definition turn_server_route (b : Request unit) : NM TurnServer :=
  user ← lift (expect (sender_user b) "user is authenticated");
  '(username, password) ←
    (if bool_decide (as_bytes turn_secret ≠ []) then
       t ← instant_now;
       expiry ← lift (expect (to_uint (t / 1000 + turn_ttl)) "time is valid");
       let username := texts [u64_to_string expiry; lit ":"; as_str user] in
       mret (username, hmac_sha1 (as_bytes turn_secret) (as_bytes username))
     else mret (turn_username, turn_password));
  mret (MkTurn username password turn_uris turn_ttl).

Definition get_protocols_route (b : Request unit) : NM (list (rstr * json)) := mret [].

Definition get_supported_versions_route (b : Request unit) : NM (list rstr * list (rstr * bool)) :=
  mret ([lit "r0.5.0"; lit "r0.6.0"; lit "v1.1"; lit "v1.2"], [(lit "org.matrix.e2e_cross_signing", true)]).
End misc.

(** ** Theorems *)

Section misc_theorems.
Context {Ev : Env} {EL : EventLib} {TL : TimelineLib} {CL : ContentLib} {Out : Outside} {HL : HandlerLib} {SL : ServerLib} {XL : MiscLib}.
Implicit Types (s : State) (n : Node).

Lemma ondb_unit_inv (m : DB unit) n r n' : ondb m n = (r, n') → ∃ s', m (nd_db n) = (r, s') ∧ nd_db n' = s'.
Proof. intros (s' & E & ->)%ondb_inv. by exists s'. Qed.

(** Only members of a room are shown as typing in it: the request of someone else is
    refused and changes nothing, that of a member makes the sender, and nobody else,
    start or stop typing. *)
Theorem typing_members_only (b : Request (RoomId * option N)) u n :
  sender_user b = Some u → TypingInv (nd_db n) → count_ok (nd_db n) →
  if decide (is_Some (db_map (nd_db n) userroomid_joined !! idkey u (body b).1)) then
    ∃ n', create_typing_event_route b n = (Ok (), n') ∧ TypingInv (nd_db n') ∧
      ∀ r v, is_typing (nd_db n') r v ↔
        if decide (r = (body b).1 ∧ v = u) then is_Some (body b).2 else is_typing (nd_db n) r v
  else create_typing_event_route b n = (Err (BadRequest Forbidden "You are not in this room."), n).
Proof.
  intros Hu HI Hc. unfold create_typing_event_route. rewrite Hu. cbn [expect]. rewrite bind_lift_Ok.
  assert (is_joined u (body b).1 (nd_db n) =
    (Ok (bool_decide (is_Some (db_map (nd_db n) userroomid_joined !! idkey u (body b).1))), nd_db n)) as Ej
    by (unfold is_joined; by db_step).
  rewrite (bind_Ok _ _ _ _ _ (ondb_run _ _ _ _ Ej)).
  assert (with_db (nd_db n) n = n) as -> by (by destruct n as [[[]]]).
  case_decide as Hj; [rewrite bool_decide_true by done|rewrite bool_decide_false by done; done]. cbn [negb].
  destruct (body b).2 as [duration|].
  - unfold instant_now. rewrite bind_gets.
    destruct (typing_add_run u (body b).1 (wrap64 (duration mod 2 ^ 64 + now (nd_db n))) (nd_db n) HI Hc (wrap64_u64 _))
      as (s' & E & HI' & _ & _ & Hty).
    eexists. split; [by apply ondb_run|]. split; [done|]. intros r v. change (nd_db (with_db ?x _)) with x. rewrite Hty.
    case_decide; naive_solver.
  - destruct (typing_remove_run u (body b).1 (nd_db n) HI Hc) as (s' & E & HI' & _ & Hty).
    eexists. split; [by apply ondb_run|]. split; [done|]. intros r v. change (nd_db (with_db ?x _)) with x. rewrite Hty.
    case_decide as Hd; [|naive_solver]. split; [naive_solver|by intros [? ?]].
Qed.

(** A message to devices is sent once per transaction: when the same request arrives
    again after it succeeded, it succeeds again and changes nothing, so that neither
    local devices nor other servers get the message twice. *)
Theorem send_to_device_once (b : Request ToDeviceRequest) n n' :
  send_event_to_device_route b n = (Ok (), n') → send_event_to_device_route b n' = (Ok (), n').
Proof.
  unfold send_event_to_device_route. destruct (sender_user b) as [u|]; cbn [expect]; [|done]. rewrite !bind_lift_Ok.
  set (key := txn_key u (sender_device b) (td_txn_id (body b))).
  assert (∀ n, ondb (existing_txnid u (sender_device b) (td_txn_id (body b))) n =
    (Ok (db_map (nd_db n) userdevicetxnid_response !! key), n)) as Ex.
  { intros m. erewrite ondb_run; [|apply t_get_run]. by destruct m as [[[]]]. }
  rewrite !(bind_Ok _ _ _ _ _ (Ex _)). destruct (db_map (nd_db n) _ !! key) as [x|] eqn:E.
  { intros [= <-]. by rewrite E. }
  intros (x & n1 & _ & H)%bind_Ok_inv. apply ondb_inv in H as (s' & H & ->). unfold add_txnid in H.
  rewrite t_insert_run in H. injection H as <-. change (nd_db (with_db ?x _)) with x. rewrite db_map_put_eq. fold key.
  by rewrite lookup_insert_eq.
Qed.

(** A filter can be read back by the user who created it, under the name that was
    answered, and by nobody else. *)
Theorem filter_roundtrip (b : Request FilterDefinition) (b' : Request rstr) u v n filter_id n' :
  sender_user b = Some u → to_vec (body b) ≠ b#"null" → create_filter_route b n = (Ok filter_id, n') →
  sender_user b' = Some v → body b' = filter_id →
  get_filter_route b' n' =
    if decide (v = u) then (Ok (body b), n')
    else let '(r, m) := get_filter_route b' n in (r, n').
Proof.
  intros Hu Hnull H Hv Hid. unfold create_filter_route in H. rewrite Hu in H. cbn [expect] in H. rewrite bind_lift_Ok in H.
  unfold random_string in H. unfold mbind, M_bind in H. destruct (world_random 4 (nd_world n)) as [id w].
  apply ondb_inv in H as (s' & H & ->). unfold create_filter in H. rewrite (bind_Ok _ _ _ _ _ (t_insert_run _ _ _ _)) in H.
  injection H as <- <-.
  assert (∀ m, get_filter_route b' m = (match db_map (nd_db m) userfilterid_filter !! key2 (idb v) (as_bytes id) with
    | Some raw => match from_slice_opt raw with
                  | Some (Some f) => Ok f
                  | Some None => Err (BadRequest NotFound "Filter not found.")
                  | None => Err (BadDatabase "Invalid filter event in db.") end
    | None => Err (BadRequest NotFound "Filter not found.") end, m)) as Eget.
  { intros m. unfold get_filter_route. rewrite Hv, Hid. cbn [expect]. rewrite bind_lift_Ok.
    assert (∃ r, get_filter v id (nd_db m) = (r, nd_db m) ∧ r = match db_map (nd_db m) userfilterid_filter !! key2 (idb v) (as_bytes id) with
      | Some raw => ok_or (from_slice_opt raw) (BadDatabase "Invalid filter event in db.") | None => Ok None end) as (r & Er & ->).
    { eexists. split; [|reflexivity]. unfold get_filter. by rewrite (bind_Ok _ _ _ _ _ (t_get_run _ _ _)). }
    pose proof (ondb_run _ m _ _ Er) as Eo. assert (with_db (nd_db m) m = m) as Em by (by destruct m as [[[]]]). rewrite Em in Eo.
    unfold mbind, M_bind. rewrite Eo. by destruct (_ !! _) as [raw|]; [destruct (from_slice_opt raw) as [[f|]|]|]. }
  rewrite !Eget. change (nd_db (with_db ?x _)) with x. rewrite db_map_put_eq. change (nd_db (set_world w n)) with (nd_db n).
  case_decide as Hd.
  - subst v. rewrite lookup_insert_eq, from_slice_opt_to_vec; done.
  - rewrite lookup_insert_ne; [done|]. intros [E _]%key2_inj; [|auto with kv..]. by apply (inj idb) in E.
Qed.

(** Reports are checked before the administrators see them: one that is accepted is about
    an event the server has, with a score between -100 and 0 and a reason of at most 250
    characters, and puts exactly one message into the queue of the admin room; one that
    is refused puts none. *)
Theorem report_checked (b : Request ReportRequest) n r n' :
  report_event_route b n = (r, n') →
  match r with
  | Ok _ => ∃ u pdu s, sender_user b = Some u ∧ get_pdu (rp_event_id (body b)) (nd_db n) = (Ok (Some pdu), s) ∧
      from_option (λ x, (-100 <= x <= 0)%Z) True (rp_score (body b)) ∧
      from_option (λ x, char_count x <= 250) True (rp_reason (body b)) ∧
      sv_admin (nd_server n') = sv_admin (nd_server n) ++
        [SendMessage (TextHtml (report_text u pdu (rp_score (body b)) (rp_reason (body b)))
                               (report_html u pdu (rp_score (body b)) (rp_reason (body b))))]
  | _ => sv_admin (nd_server n') = sv_admin (nd_server n)
  end.
Proof.
  unfold report_event_route. destruct (sender_user b) as [u|]; cbn [expect]; [|by intros [= <- <-]]. rewrite bind_lift_Ok.
  unfold mbind, M_bind. destruct (get_pdu (rp_event_id (body b)) (nd_db n)) as [o s] eqn:E.
  rewrite (ondb_run _ _ _ _ E). destruct o as [[pdu|]|e|e]; [|by intros [= <- <-]..].
  destruct (from_option _ false (rp_score (body b))) eqn:Es; [by intros [= <- <-]|].
  destruct (from_option _ false (rp_reason (body b))) eqn:Er; [by intros [= <- <-]|].
  intros [= <- <-]. exists u, pdu, s. split_and!; [done..| | |done].
  - destruct (rp_score (body b)) as [x|]; cbn in Es |- *; [|done]. apply orb_false_iff in Es as [H1 H2].
    apply bool_decide_eq_false in H1, H2. lia.
  - destruct (rp_reason (body b)) as [x|]; cbn in Er |- *; [|done]. apply bool_decide_eq_false in Er. lia.
Qed.

(** The server advertises room versions that it refuses: unless unstable versions are
    allowed, the answer about its capabilities still lists versions 3, 4 and 5, which
    no room may be created with or joined in. *)
Theorem capabilities_overpromise (b : Request unit) n v :
  allow_unstable_room_versions = false → v ∈ unstable_room_versions →
  ∃ d available, get_capabilities_route b n = (Ok (d, available), n) ∧ available !! v = Some Unstable ∧
    v ∉ supported_room_versions.
Proof.
  intros Ha Hv. eexists _, _. split; [reflexivity|]. unfold supported_room_versions. rewrite Ha, app_nil_r.
  unfold unstable_room_versions in Hv. repeat (apply elem_of_cons in Hv as [->|Hv]; [split; [vm_compute; reflexivity|by_compute]|]).
  by apply not_elem_of_nil in Hv.
Qed.

(** ** Receipts *)

(** A read receipt needs no membership: whoever sends one for a room and an event, known
    or not, has it stored among the receipts of the room, from where it goes to the
    members and to other servers. *)
Theorem receipt_needs_no_membership (b : Request (RoomId * ReceiptKind * EventId)) u r e n :
  sender_user b = Some u → body b = (r, RRead, e) → ReceiptInv (nd_db n) → count (nd_db n) + 2 < 2 ^ 64 →
  ∃ n' t, create_receipt_route b n = (Ok (), n') ∧
    db_map (nd_db n') readreceiptid_readreceipt !! receipt_key r (count (nd_db n) + 2) u =
      Some (to_vec (receipt_event r u e (receipt_now t))).
Proof.
  intros Hu Hb HI Hc. set (s := nd_db n) in *. assert (count_ok s) as Hc0 by (unfold count_ok; lia).
  assert (∃ s1, reset_notification_counts u r s = (Ok (), s1) ∧ count s1 = count s + 1 ∧
    db_map s1 readreceiptid_readreceipt = db_map s readreceiptid_readreceipt) as (s1 & E1 & C1 & R1).
  { unfold reset_notification_counts. do 2 db_step. erewrite bind_Ok; [|apply next_count_ok; unfold count_ok; by db_simpl].
    eexists. split; [apply t_insert_run|]. db_simpl. split; [|done]. rewrite count_bump_ok; db_simpl; [done|].
    unfold count_ok. by db_simpl. }
  assert (ReceiptInv s1) as HI1.
  { destruct HI as [Hk Hq]. split; rewrite R1, C1.
    - intros k v Hv. destruct (Hk k v Hv) as (r1 & c & u1 & ? & ?). exists r1, c, u1. split; [lia|done].
    - intros r1 u1 c c' H1 H2 Hle Hle'. eapply Hq; eauto; eapply (receipt_count s); eauto; unfold u64; try lia; by split. }
  destruct (readreceipt_update_correct u r (receipt_event r u e (receipt_now (now s1))) s1 HI1) as (s2 & E2 & _ & H2);
    [unfold count_ok; lia|].
  exists (with_db s2 n), (now s1). split.
  - unfold create_receipt_route. rewrite Hu, Hb. cbn [expect]. rewrite bind_lift_Ok. apply ondb_run. fold s.
    rewrite (bind_Ok _ _ _ _ _ E1). unfold set_public_read. by rewrite bind_gets, E2.
  - change (nd_db (with_db ?x _)) with x. replace (count s + 2) with (count s1 + 1) by lia. apply H2; [lia|].
    by rewrite decide_True.
Qed.

(** A private read marker for an event the server does not have is refused, but only
    after the unread counts of the room were set to zero. *)
Theorem refused_marker_resets_counts (b : Request ReadMarkerRequest) u e n :
  sender_user b = Some u → rk_fully_read (body b) = None → rk_private_read_receipt (body b) = Some e →
  db_map (nd_db n) eventid_pduid !! idb e = None → count_ok (nd_db n) →
  ∃ n', set_read_marker_route b n = (Err (BadRequest InvalidParam "Event does not exist."), n') ∧
    db_map (nd_db n') userroomid_notificationcount !! idkey u (rk_room_id (body b)) = Some (to_be_bytes 0).
Proof.
  intros Hu Hf Hp He Hc. set (s := nd_db n) in *. set (r := rk_room_id (body b)).
  assert (∃ s1, reset_notification_counts u r s = (Ok (), s1) ∧ db_map s1 eventid_pduid = db_map s eventid_pduid ∧
    db_map s1 userroomid_notificationcount !! idkey u r = Some (to_be_bytes 0)) as (s1 & E1 & R1 & R2).
  { unfold reset_notification_counts. do 2 db_step. erewrite bind_Ok; [|apply next_count_ok; unfold count_ok; by db_simpl].
    eexists. split; [apply t_insert_run|]. db_simpl. split; [done|]. by rewrite lookup_insert_eq. }
  exists (with_db s1 n). split; [|done]. unfold set_read_marker_route. rewrite Hu, Hf, Hp. cbn [expect]. rewrite bind_lift_Ok.
  apply ondb_run. fold s r. cbn [when_some]. rewrite bind_ret. rewrite bool_decide_true by done. cbn [orb].
  rewrite (bind_Ok _ _ _ _ _ E1). unfold set_private_read, get_pdu_count.
  unfold mbind, M_bind. rewrite t_get_run, R1, He. done.
Qed.
End misc_theorems.
