(* ===== verification/Media.v ===== *)
(** * Media files ([src/service/media/mod.rs], [src/api/client_server/media.rs],
    [get_media_file] of [src/service/globals/mod.rs])

    The files lie in one directory; the name of a file is the base64 text of its key
    in the database. *)

From S2P Require Import Prelude Bytes RStr Decimal Error Utils KvTree Env Db Keys Globals Frames Short Pdu ClientData OpFrames EventFormat Federation EventHandler Request.

Section media.
Context {Ev : Env} {Out : Outside}.

(** The libraries for base64 and images, and the configuration. *)
Class MediaLib := {
  base64_url_safe_no_pad : bytes → rstr;
  (** does the file system accept the name? *)
  io_ok : rstr → bool;
  Image : Type;
  load_from_memory : bytes → option Image;
  image_width : Image → N;
  image_height : Image → N;
  resize_to_fill : Image → N → N → Image;
  thumbnail_exact : Image → N → N → Image;
  (** [write_to(.., Png)] *)
  write_png : Image → option bytes;
  max_request_size : N;
}.
Context {ML : MediaLib}.

(** A server and its media directory. *)
Record MediaNode := MkMedia { md_node : Node; md_files : gmap rstr bytes }.
Abbreviation MM := (M MediaNode).

Definition on_node {A} (m : NM A) : MM A := λ md, let '(r, n) := m (md_node md) in (r, MkMedia n (md_files md)).

(** [get_media_file]: the name in the directory. *)
Definition get_media_file (key : bytes) : rstr := base64_url_safe_no_pad key.

(** [File::create(path)?] and [write_all(file)?] *)
Definition file_create (path : rstr) (file : bytes) : MM unit := λ md,
  if io_ok path then (Ok (), MkMedia (md_node md) (<[path := file]> (md_files md))) else (Err IoError, md).
(** [File::open(path)?] and [read_to_end(&mut file)?] *)
Definition file_read (path : rstr) : MM bytes := λ md, (ok_or (md_files md !! path) IoError, md).

Record FileMeta := MkFile { fm_content_disposition : option rstr; fm_content_type : option rstr; fm_file : bytes }.

(** ** The service *)

Definition upload_thumbnail (mxc : rstr) (content_disposition content_type : option rstr) (width height : N) (file : bytes) : MM unit :=
  key ← on_node (ondb (create_file_metadata mxc width height content_disposition content_type));
  file_create (get_media_file key) file.

Definition create (mxc : rstr) (content_disposition content_type : option rstr) (file : bytes) : MM unit :=
  key ← on_node (ondb (create_file_metadata mxc 0 0 content_disposition content_type));
  file_create (get_media_file key) file.

Definition get (mxc : rstr) : MM (option FileMeta) :=
  o ← try_ok (on_node (ondb (search_file_metadata mxc 0 0)));
  match o with
  | Some (content_disposition, content_type, key) =>
      file ← file_read (get_media_file key);
      mret (Some (MkFile content_disposition content_type file))
  | None => mret None
  end.

(** The ranges are of [u32]. *)
Definition thumbnail_properties (width height : N) : option (N * N * bool) :=
  if bool_decide (width <= 32 ∧ height <= 32) then Some (32, 32, true)
  else if bool_decide (width <= 96 ∧ height <= 96) then Some (96, 96, true)
  else if bool_decide (width <= 320 ∧ height <= 240) then Some (320, 240, false)
  else if bool_decide (width <= 640 ∧ height <= 480) then Some (640, 480, false)
  else if bool_decide (width <= 800 ∧ height <= 600) then Some (800, 600, false)
  else None.

Definition checked_div (a b : N) : res N := if bool_decide (b = 0) then Panic "attempt to divide by zero" else Ok (a / b).
Definition u32_max : N := 2 ^ 32 - 1.
Definition as_u32 (x : N) : N := x mod 2 ^ 32.

(** [exact_width] and [exact_height] *)
Definition exact_size (original_width original_height width height : N) : res (N * N) :=
  let ratio := original_width * height in
  let nratio := width * original_height in
  let use_width := bool_decide (nratio <= ratio) in
  intermediate ← (if use_width then checked_div (original_height * width) original_width
                  else checked_div (original_width * height) original_height);
  if use_width then
    if bool_decide (intermediate <= u32_max) then Ok (width, as_u32 intermediate)
    else x ← checked_div (width * u32_max) intermediate; Ok (as_u32 x, u32_max)
  else if bool_decide (intermediate <= u32_max) then Ok (as_u32 intermediate, height)
  else x ← checked_div (height * u32_max) intermediate; Ok (u32_max, as_u32 x).

(** The thumbnail of an image that is large enough. *)
Definition make_thumbnail (image : Image) (width height : N) (crop : bool) : res bytes :=
  thumbnail ← (if crop then Ok (resize_to_fill image width height)
               else size ← exact_size (image_width image) (image_height image) width height;
                    Ok (thumbnail_exact image size.1 size.2));
  ok_or (write_png thumbnail) ImageError.

Definition get_thumbnail (mxc : rstr) (width height : N) : MM (option FileMeta) :=
  let '(width, height, crop) := default (0, 0, false) (thumbnail_properties width height) in
  saved ← try_ok (on_node (ondb (search_file_metadata mxc width height)));
  match saved with
  | Some (content_disposition, content_type, key) =>
      file ← file_read (get_media_file key);
      mret (Some (MkFile content_disposition content_type file))
  | None =>
      original ← try_ok (on_node (ondb (search_file_metadata mxc 0 0)));
      match original with
      | Some (content_disposition, content_type, key) =>
          file ← file_read (get_media_file key);
          match load_from_memory file with
          | Some image =>
              if bool_decide (image_width image < width) || bool_decide (image_height image < height) then
                mret (Some (MkFile content_disposition content_type file))
              else
                thumbnail_bytes ← lift (make_thumbnail image width height crop);
                thumbnail_key ← on_node (ondb (create_file_metadata mxc width height content_disposition content_type));
                file_create (get_media_file thumbnail_key) thumbnail_bytes ;;
                mret (Some (MkFile content_disposition content_type thumbnail_bytes))
          | None => mret (Some (MkFile content_disposition content_type file))
          end
      | None => mret None
      end
  end.

(** ** The routes *)

Definition MXC_LENGTH : N := 32.

Definition get_media_config_route (b : Request unit) : MM N := mret max_request_size.

(** ["mxc://{}/{}"] *)
Definition mxc_uri (server : ServerName) (media_id : rstr) : rstr :=
  str_app (lit "mxc://") (str_app (as_str server) (str_app (lit "/") media_id)).

Record UploadRequest := MkUpload { up_filename : option rstr; up_content_type : option rstr; up_file : bytes }.
Definition create_content_route (b : Request UploadRequest) : MM rstr :=
  media_id ← on_node (random_string MXC_LENGTH);
  let mxc := mxc_uri server_name media_id in
  create mxc (str_app (lit "inline; filename=") <$> up_filename (body b)) (up_content_type (body b)) (up_file (body b)) ;;
  mret mxc.

Definition get_remote_content (mxc : rstr) (server : ServerName) (media_id : rstr) : MM Content :=
  content_response ← on_node (send_federation_request server (GetContent server media_id));
  create mxc (ct_content_disposition content_response) (ct_content_type content_response) (ct_file content_response) ;;
  mret content_response.

Record ContentRequest := MkContentRequest { cr_server_name : ServerName; cr_media_id : rstr; cr_allow_remote : bool }.
Definition may_ask (r : ContentRequest) : bool := bool_decide (cr_server_name r ≠ server_name) && cr_allow_remote r.

Definition get_content_route (b : Request ContentRequest) : MM Content :=
  let mxc := mxc_uri (cr_server_name (body b)) (cr_media_id (body b)) in
  o ← get mxc;
  match o with
  | Some f => mret (MkContent (fm_file f) (fm_content_type f) (fm_content_disposition f))
  | None =>
      if may_ask (body b) then get_remote_content mxc (cr_server_name (body b)) (cr_media_id (body b))
      else fail (BadRequest NotFound "Media not found.")
  end.

Definition get_content_as_filename_route (b : Request (ContentRequest * rstr)) : MM Content :=
  let r := (body b).1 in
  let mxc := mxc_uri (cr_server_name r) (cr_media_id r) in
  o ← get mxc;
  match o with
  | Some f => mret (MkContent (fm_file f) (fm_content_type f) (Some (str_app (lit "inline; filename=") (body b).2)))
  | None =>
      if may_ask r then
        remote ← get_remote_content mxc (cr_server_name r) (cr_media_id r);
        mret (MkContent (ct_file remote) (ct_content_type remote) (Some (str_app (lit "inline: filename=") (body b).2)))
      else fail (BadRequest NotFound "Media not found.")
  end.

(** [try_into::<u32>] *)
Definition u32_try_from (x : N) : option N := if bool_decide (x < 2 ^ 32) then Some x else None.

Record ThumbnailRequest := MkThumbnailRequest {
  tr_content : ContentRequest;
  tr_method : option rstr;
  tr_width : N;
  tr_height : N
}.
Definition get_content_thumbnail_route (b : Request ThumbnailRequest) : MM Content :=
  let r := tr_content (body b) in
  let mxc := mxc_uri (cr_server_name r) (cr_media_id r) in
  width ← lift (ok_or (u32_try_from (tr_width (body b))) (BadRequest InvalidParam "Width is invalid."));
  height ← lift (ok_or (u32_try_from (tr_height (body b))) (BadRequest InvalidParam "Width is invalid."));
  o ← get_thumbnail mxc width height;
  match o with
  | Some f => mret (MkContent (fm_file f) (fm_content_type f) None)
  | None =>
      if may_ask r then
        remote ← on_node (send_federation_request (cr_server_name r)
          (GetContentThumbnail (cr_server_name r) (cr_media_id r) (tr_method (body b)) (tr_width (body b)) (tr_height (body b))));
        width ← lift (expect (u32_try_from (tr_width (body b))) "all UInts are valid u32s");
        height ← lift (expect (u32_try_from (tr_height (body b))) "all UInts are valid u32s");
        upload_thumbnail mxc None (ct_content_type remote) width height (ct_file remote) ;;
        mret remote
      else fail (BadRequest NotFound "Media not found.")
  end.
End media.

(** ** Theorems *)

Section media_theorems.
Context {Ev : Env} {Out : Outside} {ML : MediaLib}.
Implicit Types (n : Node) (md : MediaNode).

Abbreviation media n := (db_map (nd_db n) mediaid_file).

(** No file of this URI and size is known. *)
Definition unknown mxc w h n : Prop := ∀ k v, media n !! k = Some v → ¬ media_prefix mxc w h `prefix_of` k.

(** An empty disposition is stored like none. *)
Definition disposition (cd : option rstr) : option rstr :=
  x ← cd; if bool_decide (as_bytes x = []) then None else Some x.

Lemma u32_be_inj x y : x < 2 ^ 32 → y < 2 ^ 32 → to_be 4 x = to_be 4 y → x = y.
Proof.
  intros Hx Hy E. apply (f_equal from_be) in E. rewrite !from_to_be in E.
  change (256 ^ N.of_nat 4) with (2 ^ 32) in E. by rewrite !N.mod_small in E.
Qed.
Lemma media_prefix_inj mxc mxc' w w' h h' cd ct : w < 2 ^ 32 → w' < 2 ^ 32 → h < 2 ^ 32 → h' < 2 ^ 32 →
  media_prefix mxc w h `prefix_of` media_key mxc' w' h' cd ct → mxc = mxc' ∧ w = w' ∧ h = h'.
Proof.
  intros Hw Hw' Hh Hh' [l E]. unfold media_key, media_prefix in E.
  assert (∀ (m : bytes) a b, key2 m a ++ b = key2 m (a ++ b)) as Hk by (intros; unfold key2; by rewrite <- app_assoc).
  rewrite !Hk in E. apply key2_inj in E as [->%(inj as_bytes) E]; [|auto with kv..].
  rewrite <- !app_assoc in E. apply app_inj_1 in E as [Ew E]; [|by rewrite !length_to_be].
  apply app_inj_1 in E as [Eh _]; [|by rewrite !length_to_be].
  apply u32_be_inj in Ew as ->; [|done..]. by apply u32_be_inj in Eh as ->.
Qed.
Lemma media_prefix_self mxc w h cd ct : media_prefix mxc w h `prefix_of` media_key mxc w h cd ct.
Proof. by eexists. Qed.

Lemma search_unknown mxc w h s :
  (∀ k v, db_map s mediaid_file !! k = Some v → ¬ media_prefix mxc w h `prefix_of` k) →
  search_file_metadata mxc w h s = (Err (BadRequest NotFound "Media not found"), s).
Proof. intros H. unfold search_file_metadata. db_step. by rewrite with_prefix_empty. Qed.

(** The server after a file was stored. *)
Definition stored mxc w h cd ct (file : bytes) md : MediaNode :=
  let key := media_key mxc w h cd ct in
  MkMedia (with_db (put mediaid_file key [] (nd_db (md_node md))) (md_node md)) (<[get_media_file key := file]> (md_files md)).

Lemma upload_run mxc cd ct w h file md : io_ok (get_media_file (media_key mxc w h cd ct)) = true →
  upload_thumbnail mxc cd ct w h file md = (Ok (), stored mxc w h cd ct file md).
Proof.
  intros Hio. unfold upload_thumbnail, on_node, mbind, M_bind.
  erewrite ondb_run; [|unfold create_file_metadata; rewrite (bind_Ok _ _ _ _ _ (t_insert_run _ _ _ _)); reflexivity].
  unfold file_create. by rewrite Hio.
Qed.
Lemma upload_failed mxc cd ct w h file md : io_ok (get_media_file (media_key mxc w h cd ct)) = false →
  upload_thumbnail mxc cd ct w h file md =
    (Err IoError, MkMedia (with_db (put mediaid_file (media_key mxc w h cd ct) [] (nd_db (md_node md))) (md_node md)) (md_files md)).
Proof.
  intros Hio. unfold upload_thumbnail, on_node, mbind, M_bind.
  erewrite ondb_run; [|unfold create_file_metadata; rewrite (bind_Ok _ _ _ _ _ (t_insert_run _ _ _ _)); reflexivity].
  unfold file_create. by rewrite Hio.
Qed.

Lemma search_on_node mxc w h md o :
  (search_file_metadata mxc w h (nd_db (md_node md))) = (o, nd_db (md_node md)) →
  on_node (ondb (search_file_metadata mxc w h)) md = (o, md).
Proof. intros E. unfold on_node. rewrite (ondb_run _ _ _ _ E). by destruct md as [[[[]]]]. Qed.
Lemma search_found mxc w h cd ct md :
  unknown mxc w h (md_node md) →
  ∀ d, let md' := MkMedia (with_db (put mediaid_file (media_key mxc w h cd ct) [] (nd_db (md_node md))) (md_node md)) d in
  try_ok (on_node (ondb (search_file_metadata mxc w h))) md' =
    (Ok (Some (disposition cd, Some (default (lit "") ct), media_key mxc w h cd ct)), md').
Proof.
  intros Hu d md'. unfold try_ok. destruct (media_roundtrip mxc w h cd ct (nd_db (md_node md)) Hu) as (s' & E & Es).
  unfold create_file_metadata in E. rewrite (bind_Ok _ _ _ _ _ (t_insert_run _ _ _ _)) in E. injection E as <-.
  by rewrite (search_on_node _ _ _ md' _ Es).
Qed.
Lemma search_not_found mxc w h md : unknown mxc w h (md_node md) →
  try_ok (on_node (ondb (search_file_metadata mxc w h))) md = (Ok None, md).
Proof. intros Hu. unfold try_ok. by rewrite (search_on_node _ _ _ _ _ (search_unknown mxc w h _ Hu)). Qed.

(** A file is found again under its URI and size. *)
Lemma get_stored mxc w h cd ct file md :
  unknown mxc w h (md_node md) →
  (o ← try_ok (on_node (ondb (search_file_metadata mxc w h)));
   match o with
   | Some (content_disposition, content_type, key) =>
       file ← file_read (get_media_file key);
       mret (Some (MkFile content_disposition content_type file))
   | None => mret None
   end) (stored mxc w h cd ct file md) =
  (Ok (Some (MkFile (disposition cd) (Some (default (lit "") ct)) file)), stored mxc w h cd ct file md).
Proof.
  intros Hu. unfold stored at 1. rewrite (bind_Ok _ _ _ _ _ (search_found mxc w h cd ct md Hu _)).
  unfold file_read, mbind, M_bind. cbn [md_files]. by rewrite lookup_insert_eq.
Qed.

(** What is known of other URIs and sizes stays. *)
Lemma unknown_stored mxc w h cd ct file md mxc' w' h' : w < 2 ^ 32 → h < 2 ^ 32 → w' < 2 ^ 32 → h' < 2 ^ 32 →
  (mxc', w', h') ≠ (mxc, w, h) → unknown mxc' w' h' (md_node md) → unknown mxc' w' h' (md_node (stored mxc w h cd ct file md)).
Proof.
  intros Hw Hh Hw' Hh' Hne Hu k v Hk Hp. cbn in Hk. change (nd_db (with_db ?x _)) with x in Hk. rewrite db_map_put_eq in Hk.
  apply lookup_insert_Some in Hk as [[<- _]|[_ Hk]]; [|by eapply Hu].
  apply media_prefix_inj in Hp as (-> & -> & ->); done.
Qed.

(** A file that is uploaded comes back: the download of its URI answers the same bytes
    and media type, an absent type as the empty one, and an empty disposition as none. *)
Theorem media_file_roundtrip mxc cd ct file md :
  unknown mxc 0 0 (md_node md) → io_ok (get_media_file (media_key mxc 0 0 cd ct)) = true →
  ∃ md', create mxc cd ct file md = (Ok (), md') ∧
    get mxc md' = (Ok (Some (MkFile (disposition cd) (Some (default (lit "") ct)) file)), md').
Proof.
  intros Hu Hio. exists (stored mxc 0 0 cd ct file md). split; [by apply (upload_run mxc cd ct 0 0)|].
  by apply (get_stored mxc 0 0).
Qed.

(** An upload whose file cannot be created, for one because its name is too long, fails
    only after the database was told of it: the URI is known from then on, and every
    download of it fails instead of being fetched or reported as missing. *)
Theorem failed_upload_sticks mxc cd ct file md :
  unknown mxc 0 0 (md_node md) → io_ok (get_media_file (media_key mxc 0 0 cd ct)) = false →
  md_files md !! get_media_file (media_key mxc 0 0 cd ct) = None →
  ∃ md', create mxc cd ct file md = (Err IoError, md') ∧ get mxc md' = (Err IoError, md').
Proof.
  intros Hu Hio Hf. eexists. split; [by apply (upload_failed mxc cd ct 0 0)|]. unfold get.
  rewrite (bind_Ok _ _ _ _ _ (search_found mxc 0 0 cd ct md Hu _)). unfold file_read, mbind, M_bind. cbn [md_files].
  by rewrite Hf.
Qed.

(** ** Thumbnails *)

(** The scaled sides of an image that is not cropped. *)
Lemma exact_size_fits width height w h ow oh :
  thumbnail_properties width height = Some (w, h, false) → w <= ow → h <= oh → ow < 2 ^ 32 → oh < 2 ^ 32 →
  ∃ ew eh, exact_size ow oh w h = Ok (ew, eh) ∧ ew <= w ∧ eh <= h ∧
    ((ew = w ∧ eh = oh * w / ow) ∨ (eh = h ∧ ew = ow * h / oh)).
Proof.
  intros Hp Hw Hh How Hoh. assert (0 < w ∧ 0 < h ∧ w <= 800 ∧ h <= 600) as (Hw0 & Hh0 & Hw8 & Hh6).
  { unfold thumbnail_properties in Hp. repeat case_bool_decide; simplify_eq; lia. }
  assert (∀ a b, 0 < b → checked_div a b = Ok (a / b)) as Hdiv.
  { intros a b Hb. unfold checked_div. rewrite bool_decide_false; [done|lia]. }
  unfold exact_size. rewrite !(Hdiv _ ow), !(Hdiv _ oh) by lia.
  destruct (bool_decide (w * oh <= ow * h)) eqn:Er.
  - apply bool_decide_eq_true in Er. assert (oh * w / ow <= h) as Hle by (apply N.Div0.div_le_upper_bound; lia).
    cbn [mbind res_bind]. rewrite bool_decide_true by (unfold u32_max; lia).
    exists w, (oh * w / ow). unfold as_u32. rewrite N.mod_small by lia. split_and!; [done..|by left].
  - apply bool_decide_eq_false in Er. assert (ow * h / oh <= w) as Hle by (apply N.Div0.div_le_upper_bound; lia).
    cbn [mbind res_bind]. rewrite bool_decide_true by (unfold u32_max; lia).
    exists (ow * h / oh), h. unfold as_u32. rewrite N.mod_small by lia. split_and!; [done..|by right].
Qed.

Lemma properties_u32 width height w h crop :
  default (0, 0, false) (thumbnail_properties width height) = (w, h, crop) → w < 2 ^ 32 ∧ h < 2 ^ 32.
Proof. unfold thumbnail_properties. repeat case_bool_decide; intros [= <- <- <-]; lia. Qed.

Lemma get_thumbnail_stored mxc width height w h crop cd ct file md :
  default (0, 0, false) (thumbnail_properties width height) = (w, h, crop) → unknown mxc w h (md_node md) →
  get_thumbnail mxc width height (stored mxc w h cd ct file md) =
    (Ok (Some (MkFile (disposition cd) (Some (default (lit "") ct)) file)), stored mxc w h cd ct file md).
Proof.
  intros Hp Hu. unfold get_thumbnail. rewrite Hp. unfold stored at 1.
  rewrite (bind_Ok _ _ _ _ _ (search_found mxc w h cd ct md Hu _)).
  unfold file_read, mbind, M_bind. cbn [md_files]. by rewrite lookup_insert_eq.
Qed.
Lemma get_thumbnail_unknown mxc width height w h crop md :
  default (0, 0, false) (thumbnail_properties width height) = (w, h, crop) →
  unknown mxc w h (md_node md) → unknown mxc 0 0 (md_node md) → get_thumbnail mxc width height md = (Ok None, md).
Proof.
  intros Hp H1 H0. unfold get_thumbnail. rewrite Hp, (bind_Ok _ _ _ _ _ (search_not_found _ _ _ _ H1)).
  by rewrite (bind_Ok _ _ _ _ _ (search_not_found _ _ _ _ H0)).
Qed.

(** A thumbnail is made once: after a request made it from the stored image, the same
    request answers the same bytes from the directory, and leaves the server as it is. *)
Theorem thumbnail_made_once mxc width height w h crop cd ct file image png md :
  thumbnail_properties width height = Some (w, h, crop) → unknown mxc w h (md_node md) → unknown mxc 0 0 (md_node md) →
  load_from_memory file = Some image → w <= image_width image → h <= image_height image →
  make_thumbnail image w h crop = Ok png → io_ok (get_media_file (media_key mxc w h (disposition cd) (Some (default (lit "") ct)))) = true →
  ∃ answer md', get_thumbnail mxc width height (stored mxc 0 0 cd ct file md) = (Ok (Some answer), md') ∧
    fm_file answer = png ∧ get_thumbnail mxc width height md' = (Ok (Some answer), md').
Proof.
  intros Hp Hu Hu0 Hi Hw Hh Hm Hio.
  assert (default (0, 0, false) (thumbnail_properties width height) = (w, h, crop)) as Hp' by (by rewrite Hp).
  destruct (properties_u32 _ _ _ _ _ Hp') as [Hw32 Hh32].
  assert ((mxc, w, h) ≠ (mxc, 0, 0)) as Hne.
  { unfold thumbnail_properties in Hp. repeat case_bool_decide; simplify_eq; intros [=]. }
  set (md1 := stored mxc 0 0 cd ct file md).
  assert (unknown mxc w h (md_node md1)) as Hu1 by (by apply unknown_stored).
  set (cd' := disposition cd). set (ct' := Some (default (lit "") ct)).
  exists (MkFile cd' ct' png), (stored mxc w h cd' ct' png md1). split_and!; [|done|].
  - unfold get_thumbnail. rewrite Hp'. rewrite (bind_Ok _ _ _ _ _ (search_not_found _ _ _ _ Hu1)). unfold md1 at 1, stored at 1.
    rewrite (bind_Ok _ _ _ _ _ (search_found mxc 0 0 cd ct md Hu0 _)).
    assert (file_read (get_media_file (media_key mxc 0 0 cd ct)) md1 = (Ok file, md1)) as Ef.
    { unfold file_read, md1, stored. cbn [md_files]. by rewrite lookup_insert_eq. }
    fold (stored mxc 0 0 cd ct file md). fold md1. rewrite (bind_Ok _ _ _ _ _ Ef), Hi.
    rewrite !bool_decide_false by lia. cbn [orb]. rewrite Hm, bind_lift_Ok. fold cd' ct'.
    pose proof (upload_run mxc cd' ct' w h png md1 Hio) as Eu. unfold upload_thumbnail in Eu.
    apply bind_Ok_inv in Eu as (key & md2 & Ek & Eu). rewrite (bind_Ok _ _ _ _ _ Ek). by rewrite (bind_Ok _ _ _ _ _ Eu).
  - rewrite (get_thumbnail_stored mxc width height w h crop cd' ct' png md1); [|done..]. do 3 f_equal.
    f_equal. unfold cd', disposition. destruct cd as [x|]; [|done]. cbn. destruct (bool_decide (as_bytes x = [])) eqn:E; [done|]. cbn. by rewrite E.
Qed.

(** A picture of an image for a chosen size: cropped to it, or scaled to fit it and to fill it in one direction. *)
Definition fits (image : Image) (w h : N) (crop : bool) (picture : Image) : Prop :=
  if crop then picture = resize_to_fill image w h
  else ∃ ew eh, picture = thumbnail_exact image ew eh ∧ ew <= w ∧ eh <= h ∧
    ((ew = w ∧ eh = image_height image * w / image_width image) ∨ (eh = h ∧ ew = image_width image * h / image_height image)).

(** C34: The first request for a thumbnail of at most 800 by 600 of a stored image chooses the smallest of five sizes that the
    requested one is within; the two smallest are cropped, and the others are not. An image that is smaller than the chosen size in a direction is
    answered as it is, and nothing is stored. Otherwise the answer is the PNG of the image cropped to exactly that size, or, without cropping,
    scaled to fit it: it fills the size in one direction, and the other side keeps the proportions of the image, rounded down,
    and is within the size (the comment in the code gives a size that exceeds it). If the file can be created, the same bytes are stored for the chosen size, and nothing
    else changes; a picture that cannot be written as PNG is an error that changes nothing. *)
Theorem thumbnail_fits mxc width height w h crop cd ct file image md :
  thumbnail_properties width height = Some (w, h, crop) → unknown mxc w h (md_node md) → unknown mxc 0 0 (md_node md) →
  load_from_memory file = Some image → image_width image < 2 ^ 32 → image_height image < 2 ^ 32 →
  let sizes := [(32, 32); (96, 96); (320, 240); (640, 480); (800, 600)] in
  let cd' := disposition cd in let ct' := Some (default (lit "") ct) in
  let md1 := stored mxc 0 0 cd ct file md in
  let (r, md') := get_thumbnail mxc width height md1 in
  (width <= w ∧ height <= h ∧ (w, h) ∈ sizes ∧ (∀ x y, (x, y) ∈ sizes → width <= x → height <= y → w <= x ∧ h <= y) ∧
   (crop = true ↔ w <= 96)) ∧
  if decide (image_width image < w ∨ image_height image < h) then r = Ok (Some (MkFile cd' ct' file)) ∧ md' = md1
  else ∃ picture, fits image w h crop picture ∧
    match write_png picture with
    | Some png => io_ok (get_media_file (media_key mxc w h cd' ct')) = true →
        r = Ok (Some (MkFile cd' ct' png)) ∧ md' = stored mxc w h cd' ct' png md1
    | None => r = Err ImageError ∧ md' = md1
    end.
Proof.
  intros Hp Hu Hu0 Hi Hw Hh sizes cd' ct' md1.
  assert (default (0, 0, false) (thumbnail_properties width height) = (w, h, crop)) as Hp' by (by rewrite Hp).
  destruct (properties_u32 _ _ _ _ _ Hp') as [Hw32 Hh32].
  assert (width <= w ∧ height <= h ∧ (w, h) ∈ sizes ∧ (∀ x y, (x, y) ∈ sizes → width <= x → height <= y → w <= x ∧ h <= y) ∧
    (crop = true ↔ w <= 96)) as Hsize.
  { unfold thumbnail_properties in Hp.
    assert (∀ x y, (x, y) ∈ sizes → (x, y) = (32, 32) ∨ (x, y) = (96, 96) ∨ (x, y) = (320, 240) ∨ (x, y) = (640, 480) ∨ (x, y) = (800, 600)) as Hs
      by (unfold sizes; set_solver).
    repeat case_bool_decide; simplify_eq; (split_and!; [lia|lia|unfold sizes; set_solver| |split; done || lia]);
      intros x y [?|[?|[?|[?|?]]]]%Hs Hx Hy; simplify_eq; lia. }
  assert (unknown mxc w h (md_node md1)) as Hu1.
  { apply unknown_stored; [done..| |done]. intros [= -> ->]. destruct Hsize as (_ & _ & Hs & _). unfold sizes in Hs. set_solver. }
  assert (file_read (get_media_file (media_key mxc 0 0 cd ct)) md1 = (Ok file, md1)) as Ef.
  { unfold file_read, md1, stored. cbn [md_files]. by rewrite lookup_insert_eq. }
  unfold get_thumbnail. rewrite Hp'. rewrite (bind_Ok _ _ _ _ _ (search_not_found _ _ _ _ Hu1)). unfold md1 at 1, stored at 1.
  rewrite (bind_Ok _ _ _ _ _ (search_found mxc 0 0 cd ct md Hu0 _)).
  fold (stored mxc 0 0 cd ct file md). fold md1. rewrite (bind_Ok _ _ _ _ _ Ef), Hi. fold cd' ct'.
  case_decide as Hsmall.
  { assert (bool_decide (image_width image < w) || bool_decide (image_height image < h) = true) as ->
      by (rewrite orb_true_iff, !bool_decide_eq_true; done). done. }
  rewrite !bool_decide_false by lia. cbn [orb].
  assert (∃ picture, fits image w h crop picture ∧ make_thumbnail image w h crop = ok_or (write_png picture) ImageError) as (picture & Hf & ->).
  { unfold make_thumbnail. destruct crop; [by eexists|].
    destruct (exact_size_fits width height w h (image_width image) (image_height image)) as (ew & eh & -> & ? & ? & ?); [done|lia..|done|done|].
    eexists. split; [|reflexivity]. by exists ew, eh. }
  destruct (write_png picture) as [png|] eqn:Epng; cbn [ok_or].
  - rewrite bind_lift_Ok. destruct (io_ok (get_media_file (media_key mxc w h cd' ct'))) eqn:Hio.
    + pose proof (upload_run mxc cd' ct' w h png md1 Hio) as Eu. unfold upload_thumbnail in Eu.
      apply bind_Ok_inv in Eu as (key & md2 & Ek & Eu). rewrite (bind_Ok _ _ _ _ _ Ek), (bind_Ok _ _ _ _ _ Eu). split; [done|].
      exists picture. split; [done|]. by rewrite Epng.
    + match goal with |- let (_, _) := ?x in _ => destruct x end. split; [done|]. exists picture. split; [done|]. by rewrite Epng.
  - split; [done|]. exists picture. by rewrite Epng.
Qed.

(** ** Files of other servers *)

Lemma send_unknown {A} server (req : FedRequest A) mxc w h n r n' :
  send_federation_request server req n = (r, n') → unknown mxc w h n → unknown mxc w h n'.
Proof. unfold send_federation_request. destruct (world_send server req (nd_world n)) as [o w']. by intros [= _ <-]. Qed.

(** C35: A file of another server is fetched once: when the first request had to ask that
    server, every later request for the URI, also one that may not ask, gets the same
    bytes from the directory and leaves the server as it is. *)
Theorem remote_file_cached (b b' : Request ContentRequest) c md n1 :
  let r := body b in let mxc := mxc_uri (cr_server_name r) (cr_media_id r) in
  may_ask r = true → unknown mxc 0 0 (md_node md) →
  send_federation_request (cr_server_name r) (GetContent (cr_server_name r) (cr_media_id r)) (md_node md) = (Ok c, n1) →
  io_ok (get_media_file (media_key mxc 0 0 (ct_content_disposition c) (ct_content_type c))) = true →
  cr_server_name (body b') = cr_server_name r → cr_media_id (body b') = cr_media_id r →
  ∃ md', get_content_route b md = (Ok c, md') ∧
    get_content_route b' md' =
      (Ok (MkContent (ct_file c) (Some (default (lit "") (ct_content_type c))) (disposition (ct_content_disposition c))), md').
Proof.
  intros r mxc Ha Hu Es Hio Hs Hi. set (md1 := MkMedia n1 (md_files md)).
  assert (unknown mxc 0 0 (md_node md1)) as Hu1 by (by eapply send_unknown).
  exists (stored mxc 0 0 (ct_content_disposition c) (ct_content_type c) (ct_file c) md1). split.
  - unfold get_content_route, get. fold r mxc.
    rewrite (bind_Ok _ _ _ _ _ (bind_Ok _ _ _ _ _ (search_not_found _ _ _ _ Hu))), Ha. unfold get_remote_content.
    assert (on_node (send_federation_request (cr_server_name r) (GetContent (cr_server_name r) (cr_media_id r))) md = (Ok c, md1)) as E
      by (unfold on_node; by rewrite Es).
    rewrite (bind_Ok _ _ _ _ _ E).
    by rewrite (bind_Ok _ _ _ _ _ (upload_run mxc _ _ 0 0 _ md1 Hio : create _ _ _ (ct_file c) md1 = _)).
  - unfold get_content_route. rewrite Hs, Hi. fold mxc. unfold get.
    by rewrite (bind_Ok _ _ _ _ _ (get_stored mxc 0 0 _ _ _ md1 Hu1)).
Qed.

(** A thumbnail that had to be fetched is stored under the size of the request. *)
Lemma remote_thumbnail_stored (b : Request ThumbnailRequest) c md n1 w h crop :
  let r := tr_content (body b) in let mxc := mxc_uri (cr_server_name r) (cr_media_id r) in
  may_ask r = true → tr_width (body b) < 2 ^ 32 → tr_height (body b) < 2 ^ 32 →
  default (0, 0, false) (thumbnail_properties (tr_width (body b)) (tr_height (body b))) = (w, h, crop) →
  unknown mxc w h (md_node md) → unknown mxc 0 0 (md_node md) →
  send_federation_request (cr_server_name r) (GetContentThumbnail (cr_server_name r) (cr_media_id r) (tr_method (body b))
    (tr_width (body b)) (tr_height (body b))) (md_node md) = (Ok c, n1) →
  io_ok (get_media_file (media_key mxc (tr_width (body b)) (tr_height (body b)) None (ct_content_type c))) = true →
  get_content_thumbnail_route b md =
    (Ok c, stored mxc (tr_width (body b)) (tr_height (body b)) None (ct_content_type c) (ct_file c) (MkMedia n1 (md_files md))).
Proof.
  intros r mxc Ha Hw Hh Hp Hu Hu0 Es Hio. unfold get_content_thumbnail_route. fold r mxc.
  assert (∀ x, x < 2 ^ 32 → u32_try_from x = Some x) as Hx by (intros x H; unfold u32_try_from; by rewrite bool_decide_true).
  rewrite (Hx _ Hw), (Hx _ Hh). cbn [ok_or expect]. rewrite !bind_lift_Ok.
  rewrite (bind_Ok _ _ _ _ _ (get_thumbnail_unknown _ _ _ _ _ _ _ Hp Hu Hu0)), Ha.
  set (md1 := MkMedia n1 (md_files md)).
  assert (on_node (send_federation_request (cr_server_name r) (GetContentThumbnail (cr_server_name r) (cr_media_id r)
    (tr_method (body b)) (tr_width (body b)) (tr_height (body b)))) md = (Ok c, md1)) as E by (unfold on_node; by rewrite Es).
  rewrite (bind_Ok _ _ _ _ _ E), !bind_lift_Ok. by rewrite (bind_Ok _ _ _ _ _ (upload_run mxc _ _ _ _ _ md1 Hio)).
Qed.

(** A thumbnail of another server is stored where no request looks for it, unless its
    size is one of the five standard ones: the next request for the same thumbnail does
    not find it and asks the other server again. *)
Theorem remote_thumbnail_lost (b : Request ThumbnailRequest) c md n1 w h crop :
  let r := tr_content (body b) in let mxc := mxc_uri (cr_server_name r) (cr_media_id r) in
  let width := tr_width (body b) in let height := tr_height (body b) in
  may_ask r = true → width < 2 ^ 32 → height < 2 ^ 32 →
  default (0, 0, false) (thumbnail_properties width height) = (w, h, crop) →
  (w, h) ≠ (width, height) → (0, 0) ≠ (width, height) →
  unknown mxc w h (md_node md) → unknown mxc 0 0 (md_node md) →
  send_federation_request (cr_server_name r)
    (GetContentThumbnail (cr_server_name r) (cr_media_id r) (tr_method (body b)) width height) (md_node md) = (Ok c, n1) →
  io_ok (get_media_file (media_key mxc width height None (ct_content_type c))) = true →
  ∃ md', get_content_thumbnail_route b md = (Ok c, md') ∧ get_thumbnail mxc width height md' = (Ok None, md').
Proof.
  intros r mxc width height Ha Hw Hh Hp Hne Hne0 Hu Hu0 Es Hio. eexists. split; [by eapply remote_thumbnail_stored|].
  destruct (properties_u32 _ _ _ _ _ Hp) as [Hw' Hh'].
  eapply get_thumbnail_unknown; [exact Hp| |]; (apply unknown_stored; [done..| |by eapply send_unknown]); intros E;
    [apply Hne|apply Hne0]; apply (f_equal (λ x, (x.1.2, x.2)) E).
Qed.

(** A request for a thumbnail of size zero stores what the other server sends as the
    file itself: later downloads of the URI get the thumbnail instead of the file. *)
Theorem thumbnail_becomes_file (b : Request ThumbnailRequest) c md n1 :
  let r := tr_content (body b) in let mxc := mxc_uri (cr_server_name r) (cr_media_id r) in
  may_ask r = true → tr_width (body b) = 0 → tr_height (body b) = 0 →
  unknown mxc 32 32 (md_node md) → unknown mxc 0 0 (md_node md) →
  send_federation_request (cr_server_name r)
    (GetContentThumbnail (cr_server_name r) (cr_media_id r) (tr_method (body b)) 0 0) (md_node md) = (Ok c, n1) →
  io_ok (get_media_file (media_key mxc 0 0 None (ct_content_type c))) = true →
  ∃ md', get_content_thumbnail_route b md = (Ok c, md') ∧
    get mxc md' = (Ok (Some (MkFile None (Some (default (lit "") (ct_content_type c))) (ct_file c))), md').
Proof.
  intros r mxc Ha Hw Hh Hu Hu0 Es Hio.
  exists (stored mxc 0 0 None (ct_content_type c) (ct_file c) (MkMedia n1 (md_files md))). split.
  - pose proof (remote_thumbnail_stored b c md n1 32 32 true) as H. cbn zeta in H. fold r mxc in H. rewrite Hw, Hh in H.
    by apply H.
  - apply (get_stored mxc 0 0 None). by eapply send_unknown.
Qed.
End media_theorems.
