(* ===== verification/IpAddr.v ===== *)
(** * Addresses as text ([std::net])

    The parser of [Ipv4Addr], [Ipv6Addr], [IpAddr] and [SocketAddr] and their
    [Display], which decide how the name of a server is resolved.  A reader takes the
    text that is left and returns what follows; one that fails consumes nothing. *)

From S2P Require Import Prelude Bytes RStr Decimal.

Inductive IpAddr :=
  | V4 (octets : N * N * N * N)
  | V6 (segments : list N).
Inductive SocketAddr :=
  | SV4 (octets : N * N * N * N) (port : N)
  | SV6 (segments : list N) (port scope_id : N).
#[export] Instance IpAddr_eq_dec : EqDecision IpAddr.
Proof. solve_decision. Defined.
#[export] Instance SocketAddr_eq_dec : EqDecision SocketAddr.
Proof. solve_decision. Defined.

(** [SocketAddr::new], [ip] and [port] *)
Definition socket_new (ip : IpAddr) (port : N) : SocketAddr :=
  match ip with V4 o => SV4 o port | V6 s => SV6 s port 0 end.
Definition socket_ip (a : SocketAddr) : IpAddr := match a with SV4 o _ => V4 o | SV6 s _ _ => V6 s end.
Definition socket_port (a : SocketAddr) : N := match a with SV4 _ p => p | SV6 _ p _ => p end.

(** ** Reading *)

Definition reader (A : Type) : Type := bytes → option (A * bytes).

(** [char::to_digit] *)
Definition to_digit (radix : N) (b : byte) : option N :=
  let c := Byte.to_N b in
  let d := if bool_decide (48 ≤ c ∧ c ≤ 57) then Some (c - 48)
           else if bool_decide (97 ≤ c ∧ c ≤ 102) then Some (c - 87)
           else if bool_decide (65 ≤ c ∧ c ≤ 70) then Some (c - 55)
           else None in
  d ← d; if bool_decide (d < radix) then Some d else None.

Definition read_given_char (target : byte) : reader unit := λ bs,
  match bs with
  | b :: bs => if bool_decide (b = target) then Some ((), bs) else None
  | [] => None
  end.

(** The loop of [read_number]; [limit] is the first number that does not fit. *)
Fixpoint read_digits (radix limit : N) (max_digits : option nat) (result : N) (count : nat) (bs : bytes) : option (N * nat * bytes) :=
  match bs with
  | [] => Some (result, count, [])
  | b :: rest =>
      match to_digit radix b with
      | None => Some (result, count, bs)
      | Some d =>
          let result := result * radix + d in
          if bool_decide (limit ≤ result) then None
          else if from_option (λ m, bool_decide (m < S count)%nat) false max_digits then None
          else read_digits radix limit max_digits result (S count) rest
      end
  end.
Definition read_number (radix limit : N) (max_digits : option nat) (allow_zero_prefix : bool) : reader N := λ bs,
  '(n, count, rest) ← read_digits radix limit max_digits 0 0 bs;
  if bool_decide (count = 0%nat) then None
  else if negb allow_zero_prefix && bool_decide (head bs = Some x30) && bool_decide (1 < count)%nat then None
  else Some (n, rest).

Definition dot : byte := x2e.
Definition colon : byte := x3a.

Definition read_octet : reader N := read_number 10 256 (Some 3%nat) false.
Definition read_ipv4_addr : reader (N * N * N * N) := λ bs,
  '(a, bs) ← read_octet bs;
  '(_, bs) ← read_given_char dot bs;
  '(b, bs) ← read_octet bs;
  '(_, bs) ← read_given_char dot bs;
  '(c, bs) ← read_octet bs;
  '(_, bs) ← read_given_char dot bs;
  '(d, bs) ← read_octet bs;
  Some ((a, b, c, d), bs).

(** [read_separator(':', i, inner)] *)
Definition read_separator {A} (first : bool) (inner : reader A) : reader A := λ bs,
  if first then inner bs else '(_, bs) ← read_given_char colon bs; inner bs.

(** At most [room] groups; was the last pair an IPv4 address? *)
Fixpoint read_groups (room : nat) (first : bool) (bs : bytes) : list N * bool * bytes :=
  match room with
  | O => ([], false, bs)
  | S room =>
      let ipv4 := match room with O => None | _ => read_separator first read_ipv4_addr bs end in
      match ipv4 with
      | Some ((a, b, c, d), rest) => ([a * 256 + b; c * 256 + d], true, rest)
      | None =>
          match read_separator first (read_number 16 65536 (Some 4%nat) true) bs with
          | Some (g, rest) => let '(gs, v4, rest) := read_groups room false rest in (g :: gs, v4, rest)
          | None => ([], false, bs)
          end
      end
  end.
Definition read_ipv6_addr : reader (list N) := λ bs,
  let '(h, head_ipv4, bs) := read_groups 8 true bs in
  if bool_decide (length h = 8%nat) then Some (h, bs)
  else if (head_ipv4 : bool) then None
  else
    '(_, bs) ← read_given_char colon bs;
    '(_, bs) ← read_given_char colon bs;
    let '(tail, _, bs) := read_groups (7 - length h) true bs in
    Some (h ++ replicate (8 - length h - length tail) 0 ++ tail, bs).

Definition read_port : reader N := λ bs,
  '(_, bs) ← read_given_char colon bs; read_number 10 65536 None true bs.
(** [read_scope_id().unwrap_or(0)] *)
Definition read_scope_id (bs : bytes) : N * bytes :=
  default (0, bs) ('(_, bs) ← read_given_char x25 bs; read_number 10 (2 ^ 32) None true bs).

Definition read_socket_addr_v4 : reader SocketAddr := λ bs,
  '(ip, bs) ← read_ipv4_addr bs; '(port, bs) ← read_port bs; Some (SV4 ip port, bs).
Definition read_socket_addr_v6 : reader SocketAddr := λ bs,
  '(_, bs) ← read_given_char x5b bs;
  '(ip, bs) ← read_ipv6_addr bs;
  let '(scope_id, bs) := read_scope_id bs in
  '(_, bs) ← read_given_char x5d bs;
  '(port, bs) ← read_port bs;
  Some (SV6 ip port scope_id, bs).

Definition or_else {A B} (p : option (A * bytes)) (f : A → B) (q : option (B * bytes)) : option (B * bytes) :=
  match p with Some (a, bs) => Some (f a, bs) | None => q end.
Definition read_ip_addr : reader IpAddr := λ bs,
  or_else (read_ipv4_addr bs) V4 (or_else (read_ipv6_addr bs) V6 None).
Definition read_socket_addr : reader SocketAddr := λ bs,
  or_else (read_socket_addr_v4 bs) id (read_socket_addr_v6 bs).

(** [parse_with]: nothing may be left. *)
Definition parse_all {A} (r : reader A) (bs : bytes) : option A :=
  match r bs with Some (a, []) => Some a | _ => None end.
Definition parse_ip_addr : bytes → option IpAddr := parse_all read_ip_addr.
Definition parse_socket_addr : bytes → option SocketAddr := parse_all read_socket_addr.

(** ** Writing *)

Definition decimal (n : N) : bytes := decimal_digits 20 n [].

Fixpoint hex_digits (fuel : nat) (n : N) (acc : bytes) : bytes :=
  match fuel with
  | O => acc
  | S fuel =>
      let d := n mod 16 in
      let c := byte_of_N (if bool_decide (d < 10) then 48 + d else 87 + d) in
      if bool_decide (n < 16) then c :: acc else hex_digits fuel (n / 16) (c :: acc)
  end.
Definition hex (n : N) : bytes := hex_digits 4 n [].

Definition show_ipv4 (o : N * N * N * N) : bytes :=
  let '(a, b, c, d) := o in decimal a ++ [dot] ++ decimal b ++ [dot] ++ decimal c ++ [dot] ++ decimal d.

Fixpoint show_groups (l : list N) : bytes :=
  match l with
  | [] => []
  | [g] => hex g
  | g :: l => hex g ++ [colon] ++ show_groups l
  end.
(** The longest run of zeros, the first of several: its start and length. *)
Fixpoint zero_span (i : nat) (l : list N) (longest current : nat * nat) : nat * nat :=
  match l with
  | [] => longest
  | g :: l =>
      if bool_decide (g = 0) then
        let current := if bool_decide (current.2 = 0%nat) then (i, 1%nat) else (current.1, S current.2) in
        zero_span (S i) l (if bool_decide (longest.2 < current.2)%nat then current else longest) current
      else zero_span (S i) l longest (0%nat, 0%nat)
  end.
Definition show_ipv6 (segments : list N) : bytes :=
  match segments with
  | [0; 0; 0; 0; 0; 65535; ab; cd] =>
      [colon; colon] ++ show_groups [65535] ++ [colon] ++ show_ipv4 (ab / 256, ab mod 256, cd / 256, cd mod 256)
  | _ =>
      let '(start, len) := zero_span 0 segments (0%nat, 0%nat) (0%nat, 0%nat) in
      if bool_decide (1 < len)%nat then
        show_groups (take start segments) ++ [colon; colon] ++ show_groups (drop (start + len) segments)
      else show_groups segments
  end.
Definition show_ip (ip : IpAddr) : bytes := match ip with V4 o => show_ipv4 o | V6 s => show_ipv6 s end.
Definition show_socket (a : SocketAddr) : bytes :=
  match a with
  | SV4 o port => show_ipv4 o ++ [colon] ++ decimal port
  | SV6 s port scope_id =>
      [x5b] ++ show_ipv6 s ++ (if bool_decide (scope_id = 0) then [] else x25 :: decimal scope_id) ++ [x5d; colon] ++ decimal port
  end.

(** ** Examples *)

Example parse_ipv6_short : parse_ip_addr b#"dead:beef::" = Some (V6 [57005; 48879; 0; 0; 0; 0; 0; 0]).
Proof. by vm_compute. Qed.
Example parse_ipv6_port : parse_socket_addr b#"[dead::beef]:8933" = Some (SV6 [57005; 0; 0; 0; 0; 0; 0; 48879] 8933 0).
Proof. by vm_compute. Qed.
Example parse_ipv6_embedded : parse_ip_addr b#"::ffff:1.2.3.4" = Some (V6 [0; 0; 0; 0; 0; 65535; 258; 772]).
Proof. by vm_compute. Qed.
Example parse_ipv4_leading_zero : parse_ip_addr b#"1.2.3.04" = None.
Proof. by vm_compute. Qed.
Example show_ipv6_short : show_ip (V6 [57005; 48879; 0; 0; 1; 0; 0; 0]) = b#"dead:beef:0:0:1::".
Proof. by vm_compute. Qed.

(** ** What is written is read back *)

Lemma to_digit_digit b : digit b → to_digit 10 b = Some (Byte.to_N b - 48).
Proof. unfold digit, to_digit. intros H. rewrite bool_decide_true by lia. cbn. by rewrite bool_decide_true by lia. Qed.

(** The text that follows does not continue a number. *)
Definition stops (rest : bytes) : Prop := from_option (λ b, to_digit 10 b = None) True (head rest).

Lemma decimal_value_ge acc bs : acc ≤ decimal_value acc bs.
Proof.
  unfold decimal_value. revert acc. induction bs as [|b bs IH]; intros acc; cbn [foldl]; [lia|].
  etrans; [|apply IH]. lia.
Qed.

Lemma read_digits_app limit m ds rest result count :
  Forall digit ds → stops rest → decimal_value result ds < limit →
  from_option (λ m, (count + length ds ≤ m)%nat) True m →
  read_digits 10 limit m result count (ds ++ rest) = Some (decimal_value result ds, (count + length ds)%nat, rest).
Proof.
  intros Hd Hr. revert result count. induction Hd as [|d ds Hd Hds IH]; intros result count Hl Hm; cbn [app].
  - rewrite Nat.add_0_r. cbn [decimal_value foldl]. destruct rest as [|b rest]; [done|]. cbn in Hr |- *. by rewrite Hr.
  - cbn [read_digits]. rewrite (to_digit_digit d Hd). cbn zeta. cbn [decimal_value foldl] in Hl.
    pose proof (decimal_value_ge (result * 10 + (Byte.to_N d - 48)) ds) as Hge. unfold decimal_value in Hge.
    rewrite (bool_decide_false (limit ≤ _)) by lia.
    assert (from_option (λ m, bool_decide (m < S count)%nat) false m = false) as ->.
    { destruct m as [m|]; cbn in Hm |- *; [|done]. apply bool_decide_eq_false. lia. }
    rewrite IH; [|done|]; [|destruct m; cbn in Hm |- *; lia]. cbn [length]. by rewrite Nat.add_succ_r.
Qed.

Lemma decimal_digit n : Forall digit (decimal n).
Proof. apply decimal_digits_digit. constructor. Qed.
Lemma decimal_value_decimal n : n < 2 ^ 64 → decimal_value 0 (decimal n) = n.
Proof. intros Hn. apply decimal_digits_value. eapply N.lt_trans; [exact Hn|done]. Qed.
Lemma decimal_length n : decimal n ≠ [].
Proof. apply decimal_digits_nonempty. Qed.

(** Octets have at most three digits and no leading zero. *)
Lemma octet_text n : n < 256 →
  (length (decimal n) ≤ 3)%nat ∧ ∀ rest, bool_decide (head (decimal n ++ rest) = Some x30) && bool_decide (1 < length (decimal n))%nat = false.
Proof.
  intros Hn.
  assert (Forall (λ n, (length (decimal n) ≤ 3)%nat ∧
    bool_decide (head (decimal n) = Some x30) && bool_decide (1 < length (decimal n))%nat = false) (N.of_nat <$> seq 0 256)) as H by by_compute.
  rewrite Forall_forall in H. destruct (H n) as [H1 H2].
  { apply list_elem_of_fmap. exists (N.to_nat n). split; [lia|]. apply elem_of_seq. lia. }
  split; [done|]. intros rest. pose proof (decimal_length n). by destruct (decimal n).
Qed.

Lemma read_octet_decimal n rest : n < 256 → stops rest → read_octet (decimal n ++ rest) = Some (n, rest).
Proof.
  intros Hn Hr. destruct (octet_text n Hn) as [Hl Hz]. unfold read_octet, read_number.
  rewrite read_digits_app; [|apply decimal_digit|done|by rewrite decimal_value_decimal by lia|done].
  rewrite decimal_value_decimal by lia. cbn [mbind option_bind Nat.add negb andb].
  rewrite bool_decide_false by (pose proof (decimal_length n); by destruct (decimal n)). by rewrite Hz.
Qed.
Lemma read_port_decimal p : p < 65536 → read_port ([colon] ++ decimal p) = Some (p, []).
Proof.
  intros Hp. unfold read_port. cbn [app read_given_char]. rewrite bool_decide_true by done. cbn [mbind option_bind].
  unfold read_number. rewrite <- (app_nil_r (decimal p)).
  rewrite read_digits_app; [|apply decimal_digit|done|by rewrite decimal_value_decimal by lia|done].
  rewrite decimal_value_decimal by lia. cbn [mbind option_bind Nat.add negb andb]. rewrite bool_decide_false; [done|].
  pose proof (decimal_length p). by destruct (decimal p).
Qed.

Definition octets_ok (o : N * N * N * N) : Prop := let '(a, b, c, d) := o in a < 256 ∧ b < 256 ∧ c < 256 ∧ d < 256.

Lemma read_ipv4_show o rest : octets_ok o → stops rest → read_ipv4_addr (show_ipv4 o ++ rest) = Some (o, rest).
Proof.
  destruct o as [[[a b] c] d]. intros (Ha & Hb & Hc & Hd) Hr. unfold read_ipv4_addr, show_ipv4.
  rewrite <- !app_assoc. cbn [app].
  do 3 (rewrite read_octet_decimal by (done || by vm_compute); cbn [mbind option_bind read_given_char];
        rewrite (bool_decide_true (dot = dot)) by done; cbn [mbind option_bind]).
  by rewrite read_octet_decimal.
Qed.

(** An IPv4 address or socket address is read back as it was written. *)
Lemma parse_ipv4_show o : octets_ok o → parse_ip_addr (show_ipv4 o) = Some (V4 o).
Proof.
  intros Ho. unfold parse_ip_addr, parse_all, read_ip_addr. rewrite <- (app_nil_r (show_ipv4 o)).
  by rewrite read_ipv4_show.
Qed.
Lemma parse_socket_v4_show o p : octets_ok o → p < 65536 → parse_socket_addr (show_socket (SV4 o p)) = Some (SV4 o p).
Proof.
  intros Ho Hp. unfold parse_socket_addr, parse_all, read_socket_addr, read_socket_addr_v4, show_socket.
  rewrite read_ipv4_show by (done || by vm_compute). cbn [mbind option_bind]. by rewrite read_port_decimal.
Qed.
Lemma parse_socket_ipv4 o : octets_ok o → parse_socket_addr (show_ipv4 o) = None.
Proof.
  intros Ho. unfold parse_socket_addr, parse_all, read_socket_addr, read_socket_addr_v4.
  rewrite <- (app_nil_r (show_ipv4 o)) at 1. rewrite read_ipv4_show by done. cbn [mbind option_bind read_port read_given_char or_else].
  unfold read_socket_addr_v6. destruct o as [[[a b] c] d]. unfold show_ipv4.
  pose proof (decimal_digit a) as Hd. pose proof (decimal_length a). destruct (decimal a) as [|x l]; [done|].
  cbn [app read_given_char]. rewrite bool_decide_false; [done|]. intros ->. apply Forall_cons in Hd as [[_ Hd] _]. by vm_compute in Hd.
Qed.

(** ** A socket address ends with a digit *)

Definition shrinks {A} (r : reader A) : Prop := ∀ bs a rest, r bs = Some (a, rest) → rest `suffix_of` bs.

Lemma given_char_shrinks c : shrinks (read_given_char c).
Proof. intros [|b bs] a rest; cbn; [done|]. case_bool_decide; [|done]. intros [= _ <-]. by apply suffix_cons_r. Qed.
Lemma read_digits_shrinks radix limit m result count bs n c rest :
  read_digits radix limit m result count bs = Some (n, c, rest) → rest `suffix_of` bs.
Proof.
  revert result count. induction bs as [|b bs IH]; intros result count; cbn; [by intros [= _ _ <-]|].
  destruct (to_digit radix b); [|by intros [= _ _ <-]]. case_bool_decide; [done|].
  destruct (from_option _ false m); [done|]. intros Hr%IH. by apply suffix_cons_r.
Qed.
Lemma read_number_shrinks radix limit m z : shrinks (read_number radix limit m z).
Proof.
  intros bs a rest. unfold read_number. destruct (read_digits _ _ _ _ _ _) as [[[n c] r]|] eqn:E; cbn; [|done].
  case_bool_decide; [done|]. destruct (_ && _ && _); [done|]. intros [= _ <-]. by eapply read_digits_shrinks.
Qed.
Lemma bind_shrinks {A B} (r : reader A) (f : A → reader B) :
  shrinks r → (∀ a, shrinks (f a)) → shrinks (λ bs, '(a, bs) ← r bs; f a bs).
Proof.
  intros Hr Hf bs b rest. cbn. destruct (r bs) as [[a bs']|] eqn:E; cbn; [|done]. intros H.
  etrans; [by eapply Hf|by eapply Hr].
Qed.
Lemma ret_shrinks {A} (a : A) : shrinks (λ bs, Some (a, bs)).
Proof. by intros bs b rest [= _ <-]. Qed.
Lemma ipv4_shrinks : shrinks read_ipv4_addr.
Proof.
  pose proof given_char_shrinks. pose proof (read_number_shrinks 10 256 (Some 3%nat) false).
  repeat (apply bind_shrinks; [done|intros]). apply ret_shrinks.
Qed.
Lemma separator_shrinks {A} first (r : reader A) : shrinks r → shrinks (read_separator first r).
Proof. intros Hr. destruct first; [done|]. by apply (bind_shrinks _ (λ _, r)); [apply given_char_shrinks|]. Qed.
Lemma groups_shrink room first bs : (read_groups room first bs).2 `suffix_of` bs.
Proof.
  revert first bs. induction room as [|room IH]; intros first bs; cbn [read_groups]; [done|]. cbn zeta.
  destruct (match room with O => None | _ => read_separator first read_ipv4_addr bs end) as [[[[[a b] c] d] rest]|] eqn:E4.
  - destruct room; [done|]. cbn. by eapply (separator_shrinks first _ ipv4_shrinks).
  - destruct (read_separator first (read_number 16 65536 (Some 4%nat) true) bs) as [[g rest]|] eqn:E; [|done].
    specialize (IH false rest). destruct (read_groups room false rest) as [[gs v4] rest']. cbn in IH |- *.
    etrans; [done|]. by eapply (separator_shrinks first _ (read_number_shrinks _ _ _ _)).
Qed.
Lemma ipv6_shrinks : shrinks read_ipv6_addr.
Proof.
  intros bs a rest. unfold read_ipv6_addr. pose proof (groups_shrink 8 true bs) as H8.
  destruct (read_groups 8 true bs) as [[h v4] bs1]. cbn in H8. case_bool_decide; [by intros [= _ <-]|].
  destruct v4; [done|]. destruct (read_given_char colon bs1) as [[[] bs2]|] eqn:E1; cbn; [|done].
  destruct (read_given_char colon bs2) as [[[] bs3]|] eqn:E2; cbn; [|done].
  pose proof (groups_shrink (7 - length h) true bs3) as H7.
  destruct (read_groups (7 - length h) true bs3) as [[tl w4] bs4]. cbn in H7. intros [= _ <-].
  apply given_char_shrinks in E1, E2. by repeat (etrans; [eassumption|]).
Qed.

Lemma read_digits_end radix limit m result count bs n c :
  read_digits radix limit m result count bs = Some (n, c, []) → Forall (λ b, is_Some (to_digit radix b)) bs ∧ c = (count + length bs)%nat.
Proof.
  revert result count. induction bs as [|b bs IH]; intros result count; cbn; [by intros [= _ <-]|].
  destruct (to_digit radix b) eqn:Eb; [|done]. case_bool_decide; [done|]. destruct (from_option _ false m); [done|].
  intros [Hf ->]%IH. split; [by constructor|lia].
Qed.

(** Nothing is left after the port. *)
Lemma read_port_last bs p : read_port bs = Some (p, []) → ∃ b, last bs = Some b ∧ is_Some (to_digit 10 b).
Proof.
  unfold read_port. destruct bs as [|b bs]; [done|]. cbn [read_given_char]. case_bool_decide; cbn; [|done]. unfold read_number.
  destruct (read_digits _ _ _ _ _ _) as [[[n c] r]|] eqn:E; cbn; [|done]. case_bool_decide as Hc; [done|]. intros [= _ ->].
  apply read_digits_end in E as [Hd ->]. destruct bs as [|b' bs] using rev_ind; [done|].
  apply Forall_app in Hd as [_ Hd]. exists b'. rewrite last_cons, last_snoc. split; [done|]. by inversion Hd.
Qed.

Lemma suffix_last {A} (l l' : list A) b : l `suffix_of` l' → last l = Some b → last l' = Some b.
Proof. intros [k ->] H. by rewrite last_app, H. Qed.

Lemma parse_socket_last bs a : parse_socket_addr bs = Some a → ∃ b, last bs = Some b ∧ is_Some (to_digit 10 b).
Proof.
  unfold parse_socket_addr, parse_all. destruct (read_socket_addr bs) as [[a' [|]]|] eqn:E; [|done..]. intros _.
  unfold read_socket_addr, or_else in E. destruct (read_socket_addr_v4 bs) as [[a4 r4]|] eqn:E4.
  - injection E as _ ->. unfold read_socket_addr_v4 in E4. destruct (read_ipv4_addr bs) as [[o bs1]|] eqn:E1; cbn in E4; [|done].
    destruct (read_port bs1) as [[p bs2]|] eqn:E2; cbn in E4; [|done]. injection E4 as _ ->.
    apply read_port_last in E2 as (b & Hb & ?). exists b. split; [|done]. eapply suffix_last; [by eapply ipv4_shrinks|done].
  - unfold read_socket_addr_v6 in E. destruct (read_given_char x5b bs) as [[[] bs1]|] eqn:E1; cbn in E; [|done].
    destruct (read_ipv6_addr bs1) as [[ip bs2]|] eqn:E2; cbn in E; [|done].
    destruct (read_scope_id bs2) as [sc bs3] eqn:E3.
    destruct (read_given_char x5d bs3) as [[[] bs5]|] eqn:E5; cbn in E; [|done].
    destruct (read_port bs5) as [[p bs6]|] eqn:E6; cbn in E; [|done]. injection E as _ ->.
    assert (bs3 `suffix_of` bs2) as H3.
    { unfold read_scope_id in E3. destruct (_ ≫= _) as [[x y]|] eqn:E7; cbn in E3; injection E3 as _ <-; [|done].
      eapply (bind_shrinks _ (λ _, read_number 10 (2 ^ 32) None true)); [apply given_char_shrinks|intros; apply read_number_shrinks|exact E7]. }
    apply read_port_last in E6 as (b & Hb & ?). exists b. split; [|done]. eapply suffix_last; [|exact Hb].
    apply given_char_shrinks in E1, E5. apply ipv6_shrinks in E2. by repeat (etrans; [eassumption|]).
Qed.
