(* ===== verification/Destination.v ===== *)
(** * Requests to other servers ([send_request], [FedDest], [find_actual_destination] and
    their helpers in [src/api/server_server.rs])

    How the name of a server becomes an address, how a request to it is signed and
    sent, and which answers are remembered.  Texts are their bytes. *)

From S2P Require Import Prelude Bytes RStr Text Decimal Error Utils KvTree Env Db Keys Globals Pdu StateCache DeviceKeys EventFormat Federation EventHandler Request ServerServer IpAddr.

Inductive FedDest :=
  | Literal (addr : SocketAddr)
  | Named (host port : bytes).
#[export] Instance FedDest_eq_dec : EqDecision FedDest.
Proof. solve_decision. Defined.

Definition into_https_string (d : FedDest) : bytes :=
  match d with
  | Literal addr => b#"https://" ++ show_socket addr
  | Named host port => b#"https://" ++ host ++ port
  end.
Definition into_uri_string (d : FedDest) : bytes :=
  match d with Literal addr => show_socket addr | Named host port => host ++ port end.
Definition hostname (d : FedDest) : bytes :=
  match d with Literal addr => show_ip (socket_ip addr) | Named host _ => host end.

(** [parse::<u16>] *)
Definition u16_from_str (s : rstr) : option N :=
  n ← u64_from_str s; if bool_decide (n < 65536) then Some n else None.
(** [port[1..]] panics where there is no boundary of a character. *)
Definition port (d : FedDest) : res (option N) :=
  match d with
  | Literal addr => Ok (Some (socket_port addr))
  | Named _ port =>
      match port with
      | [] => Panic "byte index 1 is out of bounds"
      | _ :: rest => s ← expect (from_utf8 rest) "byte index 1 is not a char boundary"; Ok (u16_from_str s)
      end
  end.

Definition get_ip_with_port (destination_str : bytes) : option FedDest :=
  match parse_socket_addr destination_str with
  | Some destination => Some (Literal destination)
  | None =>
      match parse_ip_addr destination_str with
      | Some ip_addr => Some (Literal (socket_new ip_addr 8448))
      | None => None
      end
  end.

(** [find(':')] and [split_at] there *)
Definition split_colon (s : bytes) : option (bytes * bytes) :=
  '(pos, _) ← list_find (λ b, b = colon) s; Some (take pos s, drop pos s).

Definition add_port_to_hostname (destination_str : bytes) : FedDest :=
  match split_colon destination_str with
  | None => Named destination_str b#":8448"
  | Some (host, port) => Named host port
  end.

(** [trim_end_matches('.')] *)
Fixpoint trim_start_dots (s : bytes) : bytes :=
  match s with b :: s' => if bool_decide (b = dot) then trim_start_dots s' else s | [] => [] end.
Definition trim_end_dots (s : bytes) : bytes := reverse (trim_start_dots (reverse s)).

Section net.
Context {Ev : Env}.

(** A request as HTTP. *)
Record OutgoingHttp := MkOut { out_method : rstr; out_path_and_query : rstr; out_body : bytes }.

(** The network, and what the code uses of reqwest, ruma and serde. *)
Class NetLib := {
  NetWorld : Type;
  (** the text at a URL, unless sending or reading fails *)
  http_get_text : bytes → NetWorld → option bytes * NetWorld;
  (** targets and ports *)
  srv_lookup : bytes → NetWorld → option (list (bytes * N)) * NetWorld;
  lookup_ip : bytes → NetWorld → option (list IpAddr) * NetWorld;
  (** the request to a base URL with an [Authorization] header: status and body *)
  execute : bytes → OutgoingHttp → option bytes → NetWorld → option (N * bytes) * NetWorld;
  (** [from_value] to a canonical object, and [sign_json] *)
  to_canonical : list (rstr * json) → option (list (rstr * json));
  sign_object : list (rstr * json) → option (list (rstr * json));
  header_value_ok : bytes → bool;
  (** is the text a path with a query? *)
  path_and_query_ok : rstr → bool;
  error_from_http_response : N → bytes → RumaError;
}.
(** ruma's [OutgoingRequest]: how a request becomes HTTP, and how the answer is read. *)
Class OutgoingRequest (T A : Type) := {
  try_into_http_request : bytes → T → option OutgoingHttp;
  try_from_http_response : N → bytes → option A;
}.
Context {NL : NetLib} {SL : ServerLib}.

(** [actual_destination_cache] and [tls_name_override] are shared by all requests. *)
Record Net := MkNet {
  net_world : NetWorld;
  actual_destination_cache : gmap ServerName (FedDest * bytes);
  tls_name_override : gmap bytes (list IpAddr * N)
}.
Definition on_world {A} (f : NetWorld → A * NetWorld) : M Net A := λ n,
  let '(a, w) := f (net_world n) in (Ok a, MkNet w (actual_destination_cache n) (tls_name_override n)).

Definition query_srv_record (name : bytes) : M Net (option FedDest) :=
  o ← on_world (srv_lookup (b#"_matrix._tcp." ++ name));
  mret ('(target, p) ← (o ≫= head); Some (Named (trim_end_dots target) (colon :: decimal p))).

Definition request_well_known (destination : bytes) : M Net (option bytes) :=
  text ← on_world (http_get_text (b#"https://" ++ destination ++ b#"/.well-known/matrix/server"));
  mret (text ← text; body ← (from_slice text : option json); v ← json_get (lit "m.server") body; s ← as_string v;
        Some (as_bytes s)).

(** The name is reached at the target of its SRV record. *)
Definition srv_destination (name : bytes) (hostname_override : FedDest) : M Net FedDest :=
  force_port ← lift (port hostname_override);
  override_ip ← on_world (lookup_ip (hostname hostname_override));
  match override_ip with
  | Some ips => modify (λ n, MkNet (net_world n) (actual_destination_cache n) (<[name := (ips, default 8448 force_port)]> (tls_name_override n)))
  | None => mret ()
  end ;;
  mret (match force_port with
        | Some p => Named name (colon :: decimal p)
        | None => add_port_to_hostname name
        end).

(** The name of the [Host] header: no port is added to an address. *)
Definition host_header (name : bytes) : FedDest :=
  match parse_socket_addr name with
  | Some addr => Literal addr
  | None =>
      match parse_ip_addr name with
      | Some addr => Named (show_ip addr) b#":8448"
      | None => add_port_to_hostname name
      end
  end.

(** Steps 3.1 to 3.4: the name of a [.well-known] file. *)
Definition delegated_destination (delegated_hostname : bytes) : M Net FedDest :=
  match get_ip_with_port delegated_hostname with
  | Some host_and_port => mret host_and_port
  | None =>
      match split_colon delegated_hostname with
      | Some (host, port) => mret (Named host port)
      | None =>
          o ← query_srv_record delegated_hostname;
          match o with
          | Some hostname_override => srv_destination delegated_hostname hostname_override
          | None => mret (add_port_to_hostname delegated_hostname)
          end
      end
  end.

Definition find_actual_destination (destination : ServerName) : M Net (FedDest * FedDest) :=
  let destination_str := idb destination in
  '(actual_destination, name) ←
    match get_ip_with_port destination_str with
    | Some host_port => mret (host_port, destination_str)
    | None =>
        match split_colon destination_str with
        | Some (host, port) => mret (Named host port, destination_str)
        | None =>
            o ← request_well_known destination_str;
            match o with
            | Some delegated_hostname =>
                d ← delegated_destination delegated_hostname;
                mret (d, into_uri_string (add_port_to_hostname delegated_hostname))
            | None =>
                o ← query_srv_record destination_str;
                d ← match o with
                    | Some hostname_override => srv_destination destination_str hostname_override
                    | None => mret (add_port_to_hostname destination_str)
                    end;
                mret (d, destination_str)
            end
        end
    end;
  mret (actual_destination, host_header name).

(** ** Sending *)

(** The object that is signed. *)
Definition outgoing_map (http_request : OutgoingHttp) (destination : ServerName) : res (list (rstr * json)) :=
  content ← (if bool_decide (out_body http_request = []) then Ok []
             else c ← expect (from_slice (out_body http_request) : option json) "body is valid json, we just created it";
                  Ok [(lit "content", c)]);
  Ok (obj_of (content ++
    [(lit "method", JStr (out_method http_request)); (lit "uri", JStr (out_path_and_query http_request));
     (lit "origin", id_value server_name); (lit "destination", id_value destination)])).

(** [Option::unwrap] *)
Definition unwrap_some {A} (o : option A) : res A := expect o "called `Option::unwrap()` on a `None` value".

(** The signatures of a signed object: key and signature, of all servers. *)
Definition key_signatures (keys : json) : res (list (rstr * rstr)) :=
  keys ← unwrap_some (as_object keys);
  collect ((λ k : rstr * json, s ← unwrap_some (as_string k.2); Ok (k.1, s)) <$> keys).
Definition signatures_of (request_json : list (rstr * json)) : res (list (rstr * rstr)) :=
  signatures ← unwrap_some (obj_get (lit "signatures") request_json);
  servers ← unwrap_some (as_object signatures);
  l ← collect ((λ e : rstr * json, key_signatures e.2) <$> servers);
  Ok (concat l).

(** [headers_mut().insert(AUTHORIZATION, ..)]: the last one stays. *)
Definition authorization_header (signatures : list (rstr * rstr)) : res (option bytes) :=
  headers ← collect ((λ s : rstr * rstr,
    let h := x_matrix_header server_name s.1 s.2 in
    if header_value_ok h then Ok h else Panic "called `Result::unwrap()` on an `Err` value") <$> signatures);
  Ok (last headers).

Definition sign_request (http_request : OutgoingHttp) (destination : ServerName) : res (option bytes) :=
  m ← outgoing_map http_request destination;
  m ← expect (to_canonical m) "valid JSON is valid BTreeMap";
  request_json ← expect (sign_object m) "our request json is what ruma expects";
  signatures ← signatures_of request_json;
  authorization_header signatures.

(** The destination and the [Host], from the cache or looked up. *)
Definition resolve_destination (destination : ServerName) (cached_result : option (FedDest * bytes)) : M Net (FedDest * bytes) :=
  match cached_result with
  | Some result => mret result
  | None => d ← find_actual_destination destination; mret (d.1, into_uri_string d.2)
  end.

Definition send_request {T A} `{!OutgoingRequest T A} (destination : ServerName) (request : T) : M Net A :=
  if negb allow_federation then fail (BadConfig "Federation is disabled.")
  else
    cached_result ← gets (λ n, actual_destination_cache n !! destination);
    '(actual_destination, host) ← resolve_destination destination cached_result;
    let write_destination_to_cache := bool_decide (cached_result = None) in
    let actual_destination_str := into_https_string actual_destination in
    http_request ← lift (ok_or (try_into_http_request (A := A) actual_destination_str request) (BadServerResponse "Invalid destination"));
    header ← lift (sign_request http_request destination);
    response ← on_world (execute actual_destination_str http_request header);
    match response with
    | None => fail ReqwestError
    | Some (status, body) =>
        if bool_decide (status = 200) then
          let response := try_from_http_response (T := T) status body in
          (if bool_decide (is_Some response) && write_destination_to_cache then
             modify (λ n, MkNet (net_world n) (<[destination := (actual_destination, host)]> (actual_destination_cache n)) (tls_name_override n))
           else mret ()) ;;
          lift (ok_or response (BadServerResponse "Server returned bad 200 response."))
        else fail (FederationError (as_str destination) (error_from_http_response status body))
    end.

(** ** Appservices and push gateways ([src/api/appservice_server.rs], [send_request] of
    [src/service/pusher/mod.rs]) *)

(** A string field of a registration, which must be there. *)
Definition registration_text (registration : json) (field : string) : res rstr :=
  v ← unwrap_some (json_get (lit field) registration); unwrap_some (as_string v).

(** The path with the token of the homeserver as a further parameter. *)
Definition with_access_token (path_and_query hs_token : rstr) : rstr :=
  let symbol := if bool_decide (x3f ∈ as_bytes path_and_query) then lit "&" else lit "?" in
  str_app path_and_query (str_app symbol (str_app (lit "access_token=") hs_token)).

Definition appservice_send_request {T A} `{!OutgoingRequest T A} (registration : json) (request : T) : M Net A :=
  destination ← lift (registration_text registration "url");
  hs_token ← lift (registration_text registration "hs_token");
  http_request ← lift (expect (try_into_http_request (A := A) (as_bytes destination) request) "called `Result::unwrap()` on an `Err` value");
  let path := with_access_token (out_path_and_query http_request) hs_token in
  if negb (path_and_query_ok path) then lift (Panic "called `Result::unwrap()` on an `Err` value")
  else
    response ← on_world (execute (as_bytes destination) (MkOut (out_method http_request) path (out_body http_request)) None);
    match response with
    | None => fail ReqwestError
    | Some (status, body) =>
        lift (ok_or (try_from_http_response (T := T) status body) (BadServerResponse "Server returned bad response."))
    end.

(** [replace("/_matrix/push/v1/notify", "")] *)
Definition gateway_base (destination : bytes) : bytes :=
  replace_all (S (length destination)) b#"/_matrix/push/v1/notify" [] destination.

Definition push_send_request {T A} `{!OutgoingRequest T A} (destination : bytes) (request : T) : M Net A :=
  let destination := gateway_base destination in
  http_request ← lift (ok_or (try_into_http_request (A := A) destination request) (BadServerResponse "Invalid destination"));
  response ← on_world (execute destination http_request None);
  match response with
  | None => fail ReqwestError
  | Some (status, body) =>
      lift (ok_or (try_from_http_response (T := T) status body) (BadServerResponse "Push gateway returned bad response."))
  end.

(** The version of this server. *)
Definition get_server_version_route (version : rstr) : M Net (rstr * rstr) :=
  if negb allow_federation then fail (BadConfig "Federation is disabled.") else mret (lit "Conduit", version).
End net.

(** ** The unit tests of the source *)

Example ips_get_default_ports :
  get_ip_with_port b#"1.1.1.1" = Literal <$> parse_socket_addr b#"1.1.1.1:8448" ∧
  get_ip_with_port b#"dead:beef::" = Literal <$> parse_socket_addr b#"[dead:beef::]:8448".
Proof. by vm_compute. Qed.
Example ips_keep_custom_ports :
  get_ip_with_port b#"1.1.1.1:1234" = Literal <$> parse_socket_addr b#"1.1.1.1:1234" ∧
  get_ip_with_port b#"[dead::beef]:8933" = Literal <$> parse_socket_addr b#"[dead::beef]:8933".
Proof. by vm_compute. Qed.
Example hostnames_get_default_ports : add_port_to_hostname b#"example.com" = Named b#"example.com" b#":8448".
Proof. by vm_compute. Qed.
Example hostnames_keep_custom_ports : add_port_to_hostname b#"example.com:1337" = Named b#"example.com" b#":1337".
Proof. by vm_compute. Qed.

(** ** Theorems *)

Section net_theorems.
Context {Ev : Env} {NL : NetLib} {SL : ServerLib}.
Implicit Types n : Net.

(** A name has no colon, its port starts with one. *)
Definition dest_ok (d : FedDest) : Prop :=
  match d with
  | Literal _ => True
  | Named host port => (colon ∉ host) ∧ ∃ rest, port = colon :: rest
  end.

Lemma split_colon_Some s host port : split_colon s = Some (host, port) → s = host ++ port ∧ dest_ok (Named host port).
Proof.
  unfold split_colon. destruct (list_find (λ b, b = colon) s) as [[pos b]|] eqn:E; [|done]. cbn. intros [= <- <-].
  split; [by rewrite take_drop|]. apply list_find_Some in E as (Hp & -> & Hno). split.
  - intros (i & Hi)%list_elem_of_lookup. pose proof (lookup_lt_Some _ _ _ Hi) as Hl. rewrite length_take in Hl.
    rewrite lookup_take_lt in Hi by lia. by apply (Hno i colon); [|lia|].
  - exists (drop (S pos) s). by apply drop_S.
Qed.
Lemma split_colon_None s : split_colon s = None → colon ∉ s.
Proof.
  unfold split_colon. destruct (list_find (λ b, b = colon) s) as [[pos b]|] eqn:E; [done|]. intros _ H.
  apply list_find_None in E. rewrite Forall_forall in E. by apply (E colon).
Qed.
Lemma add_port_ok s : dest_ok (add_port_to_hostname s).
Proof.
  unfold add_port_to_hostname. destruct (split_colon s) as [[h p]|] eqn:E; [by apply split_colon_Some in E as [_ ?]|].
  split; [by apply split_colon_None|by eexists].
Qed.

Lemma srv_named name n : ∃ o n', query_srv_record name n = (Ok o, n') ∧ actual_destination_cache n' = actual_destination_cache n ∧
  ∀ d, o = Some d → ∃ target p, d = Named target (colon :: decimal p).
Proof.
  unfold query_srv_record, on_world, mbind, M_bind. destruct (srv_lookup _ (net_world n)) as [l w].
  eexists _, _. split; [reflexivity|]. split; [done|]. intros d. destruct l as [[|[target p] l]|]; [done| |done].
  intros [= <-]. eauto.
Qed.
Lemma srv_destination_ok name target p n : colon ∉ name →
  ∃ d n', srv_destination name (Named target (colon :: decimal p)) n = (Ok d, n') ∧
    actual_destination_cache n' = actual_destination_cache n ∧ dest_ok d.
Proof.
  intros Hn. unfold srv_destination, port.
  assert (from_utf8 (decimal p) = Some (u64_to_string p)) as -> by apply (from_utf8_as_bytes (u64_to_string p)).
  cbn [expect mbind res_bind]. rewrite bind_lift_Ok. unfold on_world, mbind, M_bind.
  destruct (lookup_ip _ (net_world n)) as [[ips|] w]; (eexists _, _; split; [reflexivity|]; split; [done|]);
    (destruct (u16_from_str _); [split; [done|by eexists]|apply add_port_ok]).
Qed.
Lemma get_ip_ok s d : get_ip_with_port s = Some d → dest_ok d.
Proof. unfold get_ip_with_port. destruct (parse_socket_addr s); [|destruct (parse_ip_addr s)]; by intros [= <-]. Qed.

Lemma delegated_ok name n : ∃ d n', delegated_destination name n = (Ok d, n') ∧
  actual_destination_cache n' = actual_destination_cache n ∧ dest_ok d.
Proof.
  unfold delegated_destination. destruct (get_ip_with_port name) as [d|] eqn:Ei.
  { eexists _, _. split; [reflexivity|]. split; [done|]. by eapply get_ip_ok. }
  destruct (split_colon name) as [[h p]|] eqn:Es.
  { eexists _, _. split; [reflexivity|]. split; [done|]. by apply split_colon_Some in Es as [_ ?]. }
  apply split_colon_None in Es. destruct (srv_named name n) as (o & n1 & E & Ec & Ho). rewrite (bind_Ok _ _ _ _ _ E).
  destruct o as [d|]; [|eexists _, _; split; [reflexivity|]; split; [done|apply add_port_ok]].
  destruct (Ho d eq_refl) as (target & p & ->). destruct (srv_destination_ok name target p n1 Es) as (d & n2 & E2 & Ec2 & Hd).
  exists d, n2. split_and!; [done|congruence|done].
Qed.

Lemma well_known_run name n : ∃ o n', request_well_known name n = (Ok o, n') ∧ actual_destination_cache n' = actual_destination_cache n.
Proof.
  unfold request_well_known, on_world, mbind, M_bind. destruct (http_get_text _ (net_world n)) as [text w].
  eexists _, _. split; [reflexivity|done].
Qed.

(** The search for the address of a server always ends with one, whatever other hosts
    answer: none of its text operations panics, the address is a socket address or a
    name without a colon and a port, and what is remembered of other servers stays. *)
Theorem find_actual_destination_total (d : ServerName) n :
  ∃ a h n', find_actual_destination d n = (Ok (a, h), n') ∧ dest_ok a ∧
    actual_destination_cache n' = actual_destination_cache n.
Proof.
  unfold find_actual_destination. destruct (get_ip_with_port (idb d)) as [a|] eqn:Ei.
  { eexists _, _, _. split; [reflexivity|]. split; [by eapply get_ip_ok|done]. }
  destruct (split_colon (idb d)) as [[h p]|] eqn:Es.
  { eexists _, _, _. split; [reflexivity|]. split; [by apply split_colon_Some in Es as [_ ?]|done]. }
  apply split_colon_None in Es. destruct (well_known_run (idb d) n) as (o & n1 & E1 & Ec1).
  destruct o as [name|].
  - destruct (delegated_ok name n1) as (a & n2 & E2 & Ec2 & Ha). eexists a, _, n2. split_and!; [|done|congruence].
    rewrite (bind_Ok _ _ _ _ _ (eq_trans (bind_Ok _ _ _ _ _ E1) (bind_Ok _ _ _ _ _ E2))). reflexivity.
  - destruct (srv_named (idb d) n1) as (o & n2 & E2 & Ec2 & Ho).
    assert (∃ a n3, (match o with
        | Some hostname_override => srv_destination (idb d) hostname_override
        | None => mret (add_port_to_hostname (idb d))
        end) n2 = (Ok a, n3) ∧ dest_ok a ∧ actual_destination_cache n3 = actual_destination_cache n2) as (a & n3 & E3 & Ha & Ec3).
    { destruct o as [x|]; [|exists (add_port_to_hostname (idb d)), n2; split_and!; [done|apply add_port_ok|done]].
      destruct (Ho x eq_refl) as (target & p & ->).
      destruct (srv_destination_ok (idb d) target p n2 Es) as (a & n3 & E3 & Ec3 & Ha). by exists a, n3. }
    eexists a, _, n3. split_and!; [|done|congruence].
    rewrite (bind_Ok _ _ _ _ _ (eq_trans (bind_Ok _ _ _ _ _ E1) (eq_trans (bind_Ok _ _ _ _ _ E2) (bind_Ok _ _ _ _ _ E3)))). reflexivity.
Qed.

(** An IPv4 address as the name of a server is used as it is, with the port of the name
    or port 8448, and nothing is looked up for it. *)
Theorem ipv4_destination (d : ServerName) o n : octets_ok o →
  (idb d = show_ipv4 o →
     find_actual_destination d n = (Ok (Literal (SV4 o 8448), Named (show_ipv4 o) b#":8448"), n)) ∧
  ∀ p, p < 65536 → idb d = show_socket (SV4 o p) →
     find_actual_destination d n = (Ok (Literal (SV4 o p), Literal (SV4 o p)), n).
Proof.
  intros Ho. split.
  - intros E. unfold find_actual_destination, get_ip_with_port, host_header. rewrite E, parse_socket_ipv4, parse_ipv4_show by done.
    unfold mbind, M_bind. cbn. by rewrite parse_socket_ipv4, parse_ipv4_show.
  - intros p Hp E. unfold find_actual_destination, get_ip_with_port, host_header. rewrite E, parse_socket_v4_show by done.
    unfold mbind, M_bind, mret, M_ret. by rewrite parse_socket_v4_show.
Qed.

Lemma bracket_no_ip rest : parse_ip_addr (x5b :: rest) = None.
Proof. done. Qed.

(** The name of a server that is an IPv6 address in brackets without a port is cut at
    its first colon as if a port followed: the request goes to the address without the
    port 8448 that such a name stands for. *)
Theorem ipv6_loses_default_port (d : ServerName) inner n :
  idb d = x5b :: inner ++ [x5d] → colon ∈ inner →
  ∃ a h, find_actual_destination d n = (Ok (a, h), n) ∧ into_https_string a = b#"https://" ++ idb d.
Proof.
  intros Ed Hc. assert (parse_socket_addr (idb d) = None) as Es.
  { destruct (parse_socket_addr (idb d)) as [a|] eqn:E; [|done]. apply parse_socket_last in E as (b & Hb & Hd).
    rewrite Ed, last_cons, last_snoc in Hb. injection Hb as <-. by vm_compute in Hd; destruct Hd. }
  assert (parse_ip_addr (idb d) = None) as Ei by (rewrite Ed; apply bracket_no_ip).
  destruct (split_colon (idb d)) as [[h p]|] eqn:Ec.
  - unfold find_actual_destination, get_ip_with_port. rewrite Es, Ei, Ec. eexists _, _. split; [reflexivity|].
    apply split_colon_Some in Ec as [Ec _]. cbn. by rewrite Ec.
  - apply split_colon_None in Ec. destruct Ec. rewrite Ed. set_solver.
Qed.

(** ** What is remembered *)

(** What a request to a server is sent to: the destination that is remembered, or else
    the one that is looked up. *)
Definition destination_of (d : ServerName) n (actual : FedDest) (host : bytes) n1 : Prop :=
  match actual_destination_cache n !! d with
  | Some e => e = (actual, host) ∧ n1 = n
  | None => ∃ h, find_actual_destination d n = (Ok (actual, h), n1) ∧ host = into_uri_string h
  end.

Lemma resolve_destination_of (d : ServerName) n :
  ∃ actual host n1, resolve_destination d (actual_destination_cache n !! d) n = (Ok (actual, host), n1) ∧
    destination_of d n actual host n1 ∧ actual_destination_cache n1 = actual_destination_cache n.
Proof.
  unfold resolve_destination, destination_of. destruct (actual_destination_cache n !! d) as [[a h]|]; [by exists a, h, n|].
  destruct (find_actual_destination_total d n) as (a & h & n1 & E & _ & Ec).
  exists a, (into_uri_string h), n1. split_and!; [by rewrite (bind_Ok _ _ _ _ _ E)|eauto|done].
Qed.

(** C20: The destination that is remembered for a server is the one the request
    was made to: when a request succeeds, its destination is the remembered one, or the one that is looked up
    where none is; the request is built for it and executed at it, the answer has the status 200 and
    is the one given back, and afterwards exactly that destination is remembered, and the next
    request takes it without looking anything up. A request that fails
    remembers nothing. *)
Theorem destination_remembered {T A} `{!OutgoingRequest T A} (d : ServerName) (request : T) n r n' :
  send_request d request n = (r, n') →
  match r with
  | Ok a => ∃ actual host n1 http header body, destination_of d n actual host n1 ∧
      try_into_http_request (into_https_string actual) request = Some http ∧ sign_request http d = Ok header ∧
      execute (into_https_string actual) http header (net_world n1) = (Some (200, body), net_world n') ∧
      try_from_http_response (T := T) 200 body = Some a ∧
      actual_destination_cache n' = <[d := (actual, host)]> (actual_destination_cache n) ∧
      ∀ actual' host' n2, destination_of d n' actual' host' n2 → actual' = actual ∧ host' = host ∧ n2 = n'
  | _ => actual_destination_cache n' = actual_destination_cache n
  end.
Proof.
  unfold send_request. destruct allow_federation; cbn [negb]; [|by intros [= <- <-]]. rewrite bind_gets.
  destruct (resolve_destination_of d n) as (actual & host & n1 & E1 & Hd & Ec1). rewrite (bind_Ok _ _ _ _ _ E1).
  destruct (try_into_http_request (into_https_string actual) request) as [http|] eqn:Eh; cbn [ok_or]; [|by intros [= <- <-]].
  rewrite bind_lift_Ok. destruct (sign_request http d) as [header|x|x] eqn:Es; [|by intros [= <- <-]..].
  rewrite bind_lift_Ok. unfold on_world at 1, mbind at 1, M_bind at 1.
  destruct (execute (into_https_string actual) http header (net_world n1)) as [o w] eqn:Ex.
  destruct o as [[status body]|]; [|by intros [= <- <-]]. case_bool_decide as H200; [|by intros [= <- <-]]. subst status.
  destruct (try_from_http_response 200 body) as [a|] eqn:Ea; cbn [ok_or]; rewrite ?(bool_decide_true (is_Some (Some a))) by done;
    [|rewrite (bool_decide_false (is_Some None)) by (by intros []); by intros [= <- <-]].
  cbn [andb]. intros H.
  assert (r = Ok a ∧ net_world n' = w ∧ actual_destination_cache n' = <[d := (actual, host)]> (actual_destination_cache n)) as (-> & Hw & Hc).
  { destruct (actual_destination_cache n !! d) as [e|] eqn:En.
    - unfold destination_of in Hd. rewrite En in Hd. destruct Hd as [-> ->]. rewrite bool_decide_false in H by done.
      injection H as <- <-. split_and!; [done..|]. cbn. by rewrite insert_id.
    - rewrite bool_decide_true in H by done. injection H as <- <-. split_and!; [done..|]. cbn. by rewrite Ec1. }
  exists actual, host, n1, http, header, body. rewrite Hw. split_and!; [done..|]. intros a' h' n2. unfold destination_of.
  rewrite Hc, lookup_insert_eq. by intros [[= <- <-] ->].
Qed.

(** ** Signed requests *)

(** C13: A request that is signed is one the receiver can verify: the header decodes to the
    name of this server, the key and the signature, and from these and the request the
    receiver rebuilds exactly the object that was signed. *)
Theorem signed_request_accepted (http : OutgoingHttp) (destination : ServerName) m key sig :
  outgoing_map http destination = Ok m → to_canonical m = Some m →
  let signed := obj_insert (lit "signatures") (JObj [(as_str server_name, JObj [(key, JStr sig)])]) m in
  sign_object m = Some signed → header_value_ok (x_matrix_header server_name key sig) = true →
  x2c ∉ idb server_name → x2c ∉ as_bytes key → x2c ∉ as_bytes sig → head (idb server_name) ≠ Some x22 →
  ∃ header x content, sign_request http destination = Ok (Some header) ∧ x_matrix_decode header = Some x ∧ xm_origin x = server_name ∧
    (if decide (out_body http = []) then content = None else content = from_slice (out_body http)) ∧
    signed_map (out_method http) (out_path_and_query http) destination x content = signed.
Proof.
  intros Hm Hcan signed Hsign Hok H1 H2 H3 H4.
  exists (x_matrix_header server_name key sig), (MkXMatrix server_name key sig),
    (if decide (out_body http = []) then None else from_slice (out_body http)). split_and!.
  - unfold sign_request. rewrite Hm. cbn [mbind res_bind]. rewrite Hcan. cbn [expect mbind res_bind]. rewrite Hsign. cbn [expect mbind res_bind].
    assert (signatures_of signed = Ok [(key, sig)]) as ->
      by (unfold signatures_of, signed; by rewrite obj_get_insert, decide_True by done).
    unfold authorization_header. cbn [fmap list_fmap collect fst snd mbind res_bind]. by rewrite Hok.
  - by apply x_matrix_roundtrip.
  - done.
  - by case_decide.
  - unfold outgoing_map in Hm. unfold signed, signed_map. destruct (decide (out_body http = [])) as [Hb|Hb].
    + rewrite bool_decide_true in Hm by done. injection Hm as <-. reflexivity.
    + rewrite bool_decide_false in Hm by done. destruct (from_slice (out_body http)) as [c|]; [|done]. injection Hm as <-. reflexivity.
Qed.
End net_theorems.
