(* ===== verification/Delivery.v ===== *)
(** * Delivering what was queued ([handle_events] of [src/service/sending/mod.rs],
    [send_push_notice] and [send_notice] of [src/service/pusher/mod.rs])

    What the sending task ([SendingService]) does with the events of one destination:
    a transaction for a server, a call of an appservice, or notices for the push
    gateway of a user. *)

From S2P Require Import Prelude Bytes RStr Decimal Error Utils KvTree Env Db Keys Globals Frames Short RoomState Pdu Timeline StateAccessor Users StateCache Sending SendingService RoomIndex ClientData RoomUser OpFrames EventFormat TimelineService Federation EventHandler.

Section delivery.
Context {Ev : Env} {EL : EventLib} {TL : TimelineLib} {Out : Outside}.

Inductive PushFormat := EventIdOnly | OtherFormat (name : rstr).
#[export] Instance PushFormat_eq_dec : EqDecision PushFormat.
Proof. solve_decision. Defined.
Record HttpPusher := MkHttpPusher { hp_url : rstr; hp_format : option PushFormat; hp_default_payload : json }.
Inductive PusherKind := KHttp (http : HttpPusher) | KEmail | KOther.

Record PushDevice := MkPushDevice {
  dv_app_id : rstr;
  dv_pushkey : rstr;
  dv_default_payload : json;
  dv_format : option PushFormat;
  dv_tweaks : list Tweak
}.
Inductive NotificationPriority := PrioHigh | PrioLow.
Record Notification := MkNotification {
  nf_devices : list PushDevice;
  nf_prio : NotificationPriority;
  nf_event_id : option EventId;
  nf_room_id : option RoomId;
  (** unread events and missed calls *)
  nf_counts : N * N;
  nf_sender : option UserId;
  nf_event_type : option rstr;
  nf_content : option bytes;
  nf_user_is_target : bool;
  nf_sender_display_name : option rstr;
  nf_room_name : option rstr
}.

(** Appservices, push gateways, and what the code uses of ruma for them. *)
Class GatewayLib := {
  (** [push_events] to an appservice, and a notice to the gateway at a URL *)
  appservice_push : json → list Raw → rstr → World → (unit + Error) * World;
  gateway_notify : rstr → Notification → World → (unit + Error) * World;
  pusher_kind : Pusher → PusherKind;
  pusher_app_id : Pusher → rstr;
  room_name_content : bytes → option (option rstr);
  base64_url : bytes → rstr;
}.
Context {GL : GatewayLib}.

Definition call_outside {A} (f : World → (A + Error) * World) : NM A := λ n,
  let '(r, w) := f (nd_world n) in (match r with inl a => Ok a | inr e => Err e end, set_world w n).

(** ** Push notices *)

Definition loud (t : Tweak) : bool :=
  match t with
  | Highlight b => b
  | OtherTweak name _ => bool_decide (name = lit "sound")
  end.

Definition send_notice (unread : N) (pusher : Pusher) (tweaks : list Tweak) (event : PduEvent) : NM unit :=
  match pusher_kind pusher with
  | KHttp http =>
      let event_id_only := bool_decide (hp_format http = Some EventIdOnly) in
      let device := MkPushDevice (pusher_app_id pusher) (pushkey pusher) (hp_default_payload http) (hp_format http)
        (if event_id_only then [] else tweaks) in
      let prio := if bool_decide (kind event = lit "m.room.encrypted") || existsb loud tweaks then PrioHigh else PrioLow in
      let notifi := MkNotification [device] prio (Some (event_id event)) (Some (room_id event)) (unread, 0)
        None None None false None None in
      if event_id_only then call_outside (gateway_notify (hp_url http) notifi)
      else
        sender_display_name ← ondb (displayname (sender event));
        room_name_pdu ← ondb (room_state_get (room_id event) (lit "m.room.name") (lit ""));
        room_name ← lift (match room_name_pdu with
          | Some room_name_pdu => ok_or (room_name_content (content room_name_pdu)) (BadDatabase "Invalid room name event in database.")
          | None => Ok None
          end);
        call_outside (gateway_notify (hp_url http)
          (MkNotification [device] prio (Some (event_id event)) (Some (room_id event)) (unread, 0)
             (Some (sender event)) (Some (kind event)) (Some (content event))
             (bool_decide (kind event = lit "m.room.member") && bool_decide (state_key event = Some (as_str (sender event))))
             sender_display_name room_name))
  | _ => mret ()
  end.

(** The loop over the actions: whether to notify, and the tweaks. *)
Fixpoint notice_actions (actions : list Action) (notify : option bool) (tweaks : list Tweak) : res (option bool * list Tweak) :=
  match actions with
  | [] => Ok (notify, tweaks)
  | SetTweak tweak :: actions => notice_actions actions notify (tweaks ++ [tweak])
  | action :: actions =>
      match notify with
      | Some _ => Err (BadDatabase "Malformed pushrule contains more than one of these actions: ['dont_notify', 'notify', 'coalesce']")
      | None => notice_actions actions (Some (match action with DontNotify => false | _ => true end)) tweaks
      end
  end.

Definition send_push_notice (user : UserId) (unread : N) (pusher : Pusher) (ruleset : Ruleset) (pdu : PduEvent) : NM unit :=
  ev ← ondb (room_state_get (room_id pdu) (lit "m.room.power_levels") (lit ""));
  power_levels ← lift (transpose
    ((λ ev, ok_or (power_levels_content (content ev)) (BadDatabase "invalid m.room.power_levels event")) <$> ev));
  actions ← ondb (get_actions user ruleset (default default_power_levels power_levels) (to_sync_room_event pdu) (room_id pdu));
  '(notify, tweaks) ← lift (notice_actions actions None []);
  if bool_decide (notify = Some true) then send_notice unread pusher tweaks pdu else mret ().

(** ** Transactions *)

(** The bytes of the events, which name the transaction. *)
Definition event_bytes (e : SendingEventType) : bytes := match e with SPdu b => b | SEdu b => b end.
Definition transaction_id (events : list SendingEventType) : rstr :=
  base64_url (calculate_hash sha256 (event_bytes <$> events)).

(** The timeline events among the events, all of which must be stored. *)
Definition stored_events {A} (read : bytes → DB (option A)) (missing : string) (events : list SendingEventType) : DB (list A) :=
  for_fold events [] (λ acc e,
    match e with
    | SPdu pdu_id => o ← read pdu_id; a ← lift (ok_or o (BadDatabase missing)); mret (acc ++ [a])
    | SEdu _ => mret acc
    end).

Definition handle_appservice (id : rstr) (events : list SendingEventType) : NM unit :=
  pdus ← ondb (stored_events get_pdu_from_id "[Appservice] Event in servernameevent_data not found in db." events);
  o ← ondb (get_registration id);
  registration ← lift (ok_or o (BadDatabase "[Appservice] Could not load registration from db."));
  call_outside (appservice_push registration (to_room_event <$> pdus) (transaction_id events)).

(** Is the event redacted? *)
Definition is_redacted (pdu : PduEvent) : bool :=
  match unsigned pdu ≫= (λ u, from_slice u : option json) with
  | Some unsigned => bool_decide (is_Some (json_get (lit "redacted_because") unsigned))
  | None => false
  end.

(** One event for a pusher; what becomes of the notice does not matter. *)
Definition push_one (user : UserId) (key : rstr) (pdu : PduEvent) : NM unit :=
  if is_redacted pdu then mret ()
  else
    o ← ondb (get_pusher user key);
    match o with
    | None => mret ()
    | Some pusher =>
        rules ← try_ok (ondb (ClientData.get None user (lit "m.push_rules")));
        let rules_for_user := default (server_default user) (mjoin rules ≫= push_rules_global) in
        count ← ondb (notification_count user (room_id pdu));
        unread ← lift (expect (to_uint count) "notification count can't go that high");
        catch (send_push_notice user unread pusher rules_for_user pdu) ;; mret ()
    end.
Definition handle_push (user : UserId) (key : rstr) (events : list SendingEventType) : NM unit :=
  pdus ← ondb (stored_events get_pdu_from_id "[Push] Event in servernamevent_datas not found in db." events);
  for_each pdus (push_one user key).

Definition handle_server (server : ServerName) (events : list SendingEventType) : NM unit :=
  pdus ← ondb (stored_events get_pdu_json_from_id "[Normal] Event in servernamevent_datas not found in db." events);
  let edus := omap (λ e, match e with SEdu edu => (from_slice edu : option json) | SPdu _ => None end) events in
  t ← instant_now;
  send_federation_request server
    (SendTransaction server_name (convert_to_outgoing_federation_event <$> pdus) edus t (transaction_id events)) ;;
  mret ().

Definition handle_events (k : OutgoingKind) (events : list SendingEventType) : NM unit :=
  match k with
  | Appservice id => handle_appservice id events
  | Push user key => handle_push user key events
  | Normal server => handle_server server events
  end.
End delivery.

(** ** Theorems *)

Section delivery_theorems.
Context {Ev : Env} {EL : EventLib} {TL : TimelineLib} {Out : Outside} {GL : GatewayLib}.
Implicit Types (s : State) (n : Node).

(** What may leave this server of a stored event: all but its id and the transaction id
    of the client that sent it. *)
Definition sent_form (o o' : CanonicalJsonObject) : Prop :=
  canonical_get (lit "event_id") o' = None ∧
  (∀ u, canonical_get (lit "unsigned") o' = Some (JObj u) → obj_get (lit "transaction_id") u = None) ∧
  (∀ u k, canonical_get (lit "unsigned") o = Some (JObj u) → k ≠ lit "transaction_id" →
     ∃ u', canonical_get (lit "unsigned") o' = Some (JObj u') ∧ obj_get k u' = obj_get k u) ∧
  ∀ k, k ≠ lit "event_id" → k ≠ lit "unsigned" → canonical_get k o' = canonical_get k o.

(** The events and the ephemeral events of a transaction for what was queued: in their
    order, every timeline event stored, every ephemeral event that can be read. *)
Inductive Assembled s : list SendingEventType → list Raw → list json → Prop :=
  | assembled_nil : Assembled s [] [] []
  | assembled_pdu id b o o' events pdus edus :
      db_map s pduid_pdu !! id = Some b → from_slice b = Some o → sent_form o o' →
      Assembled s events pdus edus → Assembled s (SPdu id :: events) (canonical_to_raw o' :: pdus) edus
  | assembled_edu b j events pdus edus :
      from_slice b = Some j → Assembled s events pdus edus → Assembled s (SEdu b :: events) pdus (j :: edus)
  | assembled_unreadable b events pdus edus :
      (from_slice b : option json) = None → Assembled s events pdus edus → Assembled s (SEdu b :: events) pdus edus.

(** The text whose hash names a transaction. *)
Definition events_text (events : list SendingEventType) : bytes :=
  match events with
  | [] => []
  | e :: events => event_bytes e ++ mjoin ((λ e, sep :: event_bytes e) <$> events)
  end.
(** An event of a timeline, by its id of 16 bytes. *)
Definition timeline_event (e : SendingEventType) : Prop := ∃ id, e = SPdu id ∧ length id = 16%nat.

Lemma transaction_name events : transaction_id events = base64_url (sha256 (events_text events)).
Proof.
  unfold transaction_id, calculate_hash. do 2 f_equal. destruct events as [|e events]; [done|]. cbn [fmap list_fmap events_text].
  revert e. induction events as [|e' events IH]; intros e; [cbn; by rewrite app_nil_r|].
  cbn [fmap list_fmap join_ff] in *. rewrite IH. done.
Qed.

Lemma events_text_inj events events' :
  Forall timeline_event events → Forall timeline_event events' → events_text events = events_text events' → events = events'.
Proof.
  assert (∀ l l', Forall timeline_event l → Forall timeline_event l' →
    mjoin ((λ e, sep :: event_bytes e) <$> l) = mjoin ((λ e, sep :: event_bytes e) <$> l') → l = l') as Htail.
  { induction l as [|e l IH]; intros [|e' l'] H H' E; [done|done|done|]. apply Forall_cons in H as [(id & -> & Hl) H].
    apply Forall_cons in H' as [(id' & -> & Hl') H']. cbn in E. injection E as E. apply app_inj_1 in E as [-> E]; [|congruence].
    f_equal. by apply IH. }
  intros H H' E. destruct events as [|e l], events' as [|e' l']; [done|..].
  - apply Forall_cons in H' as [(id' & -> & Hl') _]. cbn in E. apply (f_equal length) in E. rewrite length_app in E. cbn in E. lia.
  - apply Forall_cons in H as [(id & -> & Hl) _]. cbn in E. apply (f_equal length) in E. rewrite length_app in E. cbn in E. lia.
  - apply Forall_cons in H as [(id & -> & Hl) H]. apply Forall_cons in H' as [(id' & -> & Hl') H']. cbn in E.
    apply app_inj_1 in E as [-> E]; [|congruence]. f_equal. by apply Htail.
Qed.

Lemma get_pdu_json_from_id_same id s r s' : get_pdu_json_from_id id s = (r, s') → s' = s.
Proof. unfold get_pdu_json_from_id. db_step. unfold lift. by intros [= _ <-]. Qed.

Abbreviation edus_of events := (omap (λ e, match e with SEdu edu => (from_slice edu : option json) | SPdu _ => None end) events).

(** The loop over the queued events. *)
Lemma stored_events_assembled missing events s :
  ∃ r, stored_events get_pdu_json_from_id missing events s = (r, s) ∧
    match r with
    | Ok pdus => Assembled s events (convert_to_outgoing_federation_event <$> pdus) (edus_of events)
    | Err _ => ∀ pdus edus, ¬ Assembled s events pdus edus
    | Panic _ => False
    end.
Proof.
  unfold stored_events.
  enough (∀ acc, ∃ r, for_fold events acc (λ acc e,
      match e with
      | SPdu pdu_id => o ← get_pdu_json_from_id pdu_id; a ← lift (ok_or o (BadDatabase missing)); mret (acc ++ [a])
      | SEdu _ => mret acc
      end) s = (r, s) ∧
    match r with
    | Ok pdus => ∃ l, pdus = acc ++ l ∧ Assembled s events (convert_to_outgoing_federation_event <$> l) (edus_of events)
    | Err _ => ∀ pdus edus, ¬ Assembled s events pdus edus
    | Panic _ => False
    end) as Hgen.
  { destruct (Hgen []) as (r & E & H). exists r. split; [done|]. destruct r as [pdus|e|p]; [|done..]. by destruct H as (l & -> & H). }
  induction events as [|e events IH]; intros acc; cbn [for_fold].
  { eexists. split; [reflexivity|]. exists []. split; [by rewrite app_nil_r|constructor]. }
  destruct e as [id|edu].
  - destruct (get_pdu_json_from_id id s) as [o s1] eqn:Eg. pose proof (get_pdu_json_from_id_same _ _ _ _ Eg) as ->.
    assert (∀ pdus edus, Assembled s (SPdu id :: events) pdus edus → ∃ a, o = Ok (Some a) ∧ ∃ pdus', Assembled s events pdus' edus) as Hinv.
    { intros pdus edus HA. inversion HA as [|? b a a' ? pdus' ? Hb Ha _ HA'| |]; subst. exists a. split; [|by exists pdus'].
      revert Eg. unfold get_pdu_json_from_id. db_step. rewrite Hb. unfold parse_json, lift. cbn. rewrite Ha. by intros [= <-]. }
    destruct o as [[a|]|e|p].
    + rewrite (bind_Ok _ _ _ _ _ (bind_Ok _ _ _ _ _ Eg)). destruct (IH (acc ++ [a])) as (r & E & H). exists r. split; [exact E|].
      destruct r as [pdus|e|p]; [|intros pdus edus (_ & _ & pdus' & HA)%Hinv; by eapply H|done].
      destruct H as (l & -> & H). exists (a :: l). split; [by rewrite <- app_assoc|]. cbn [omap list_omap fmap list_fmap].
      revert Eg. unfold get_pdu_json_from_id. db_step. destruct (db_map s pduid_pdu !! id) as [b|] eqn:Eb; [|by intros [= ]].
      unfold parse_json, lift. cbn. destruct (from_slice b) as [a'|] eqn:Ea; cbn; [|by intros [=]]. intros [= ->].
      eapply assembled_pdu; [exact Eb|exact Ea|exact (outgoing_event_private a)|exact H].
    + eexists. split; [unfold mbind at 1, M_bind at 1; by rewrite (bind_Ok _ _ _ _ _ Eg)|].
      intros pdus edus (a & [=] & _)%Hinv.
    + eexists. split; [unfold mbind, M_bind; by rewrite Eg|]. intros pdus edus (a & [=] & _)%Hinv.
    + exfalso. revert Eg. unfold get_pdu_json_from_id. db_step. destruct (db_map s pduid_pdu !! id) as [b|]; [|by intros [=]].
      unfold parse_json, lift. cbn. by destruct (from_slice b).
  - destruct (IH acc) as (r & E & H). exists r. rewrite (bind_Ok _ _ _ acc s) by done. split; [exact E|].
    destruct r as [pdus|e|p]; [|by intros pdus edus HA; inversion HA; subst; eapply H|done].
    destruct H as (l & -> & H). exists l. split; [done|]. cbn [omap list_omap]. destruct (from_slice edu) as [j|] eqn:Ej; by constructor.
Qed.

(** C24: A transaction for a server is complete: if every timeline event that was queued is stored, the server is
    sent one request with exactly those events, in their order and without their ids and the transaction ids of
    clients, and with the ephemeral events that can be read, in their order; its outcome is the outcome of the
    delivery. The request is named by the base64 of the SHA-256 of the bytes of all these events with 0xff between them, a text
    that no two different lists of timeline events share. If an event is not stored or cannot be read, nothing is sent
    and nothing changes. *)
Theorem transaction_complete server events n :
  let (r, n') := handle_events (Normal server) events n in
  (∃ pdus edus r', Assembled (nd_db n) events pdus edus ∧
     send_federation_request server
       (SendTransaction server_name pdus edus (now (nd_db n)) (base64_url (sha256 (events_text events)))) n = (r', n') ∧
     (r = Ok () ↔ ∃ answer, r' = Ok answer)) ∧
  (∀ events', Forall timeline_event events → Forall timeline_event events' → events_text events = events_text events' →
     events = events') ∨
  (∀ pdus edus, ¬ Assembled (nd_db n) events pdus edus) ∧ n' = n ∧ ∃ e, r = Err e.
Proof.
  unfold handle_events, handle_server.
  destruct (stored_events_assembled "[Normal] Event in servernamevent_datas not found in db." events (nd_db n)) as (x & E & H).
  assert (with_db (nd_db n) n = n) as En by (by destruct n as [[[]]]).
  unfold mbind at 1, M_bind at 1. rewrite (ondb_run _ _ _ _ E), En. destruct x as [pdus|e|p]; [|by right; eauto|done].
  cbn zeta. unfold instant_now. rewrite bind_gets, transaction_name. unfold mbind, M_bind.
  destruct (send_federation_request server _ n) as [r' n'] eqn:Es.
  assert (Forall timeline_event events → ∀ events', Forall timeline_event events' → events_text events = events_text events' →
    events = events') as Hinj by (intros; by apply events_text_inj).
  destruct r' as [answer|e|p]; left; (split; [|by intros; apply Hinj]); eexists _, _, _; (split; [exact H|split; [exact Es|]]).
  - split; [by exists answer|done].
  - split; [done|by intros [? [=]]].
  - split; [done|by intros [? [=]]].
Qed.

(** A push notice that fails is lost: when the gateway of a user does not answer or
    refuses the notice, the delivery still counts as done. *)
Theorem push_failure_ignored user key id pdu pusher rules count unread e n n1 :
  get_pdu_from_id id (nd_db n) = (Ok (Some pdu), nd_db n) → is_redacted pdu = false →
  ondb (get_pusher user key) n = (Ok (Some pusher), n) →
  try_ok (ondb (ClientData.get None user (lit "m.push_rules"))) n = (Ok rules, n) →
  ondb (notification_count user (room_id pdu)) n = (Ok count, n) → to_uint count = Some unread →
  send_push_notice user unread pusher (default (server_default user) (mjoin rules ≫= push_rules_global)) pdu n = (Err e, n1) →
  handle_events (Push user key) [SPdu id] n = (Ok (), n1).
Proof.
  intros Hp Hr Hpu Hru Hc Hu Hs. unfold handle_events, handle_push.
  assert (ondb (stored_events get_pdu_from_id "[Push] Event in servernamevent_datas not found in db." [SPdu id]) n = (Ok [pdu], n)) as E.
  { erewrite ondb_run; [|unfold stored_events; cbn [for_fold]; rewrite (bind_Ok _ _ _ _ _ (bind_Ok _ _ _ _ _ Hp)); reflexivity].
    by destruct n as [[[]]]. }
  rewrite (bind_Ok _ _ _ _ _ E). cbn [for_each].
  assert (push_one user key pdu n = (Ok (), n1)) as E1.
  { unfold push_one. rewrite Hr, (bind_Ok _ _ _ _ _ Hpu), (bind_Ok _ _ _ _ _ Hru). cbn zeta.
    rewrite (bind_Ok _ _ _ _ _ Hc), Hu. cbn [expect]. rewrite bind_lift_Ok.
    assert (catch (send_push_notice user unread pusher (default (server_default user) (mjoin rules ≫= push_rules_global)) pdu) n =
      (Ok (inr e), n1)) as Ec by (unfold catch; by rewrite Hs).
    by rewrite (bind_Ok _ _ _ _ _ Ec). }
  by rewrite (bind_Ok _ _ _ _ _ E1).
Qed.

(** The notice of a membership event names the wrong target: it says that the user who
    gets it is the one the event is about exactly if the sender of the event changed
    its own membership, whoever gets the notice. *)
Theorem notice_target_is_sender unread pusher http tweaks event n n' :
  pusher_kind pusher = KHttp http → hp_format http ≠ Some EventIdOnly → kind event = lit "m.room.member" →
  send_notice unread pusher tweaks event n = (Ok (), n') →
  ∃ nf n1 w, gateway_notify (hp_url http) nf (nd_world n1) = (inl (), w) ∧ n' = set_world w n1 ∧
    nf_event_id nf = Some (event_id event) ∧
    nf_user_is_target nf = bool_decide (state_key event = Some (as_str (sender event))).
Proof.
  intros Hk Hf Ht H. unfold send_notice in H. rewrite Hk, (bool_decide_false (hp_format http = Some EventIdOnly)) in H by done.
  cbn zeta in H. run_inv H name n1 E1. run_inv H o n2 E2. lift_inv H rname E3.
  unfold call_outside in H. destruct (gateway_notify _ _ _) as [[[]|e] w] eqn:E; [|done]. injection H as <-.
  eexists _, n2, w. split; [exact E|]. split; [done|]. split; [done|]. cbn [nf_user_is_target]. by rewrite (bool_decide_true (kind event = _)).
Qed.
End delivery_theorems.
