(* ===== verification/Migrations.v ===== *)
(** * Starting the server ([load_or_create], [check_db_setup] and [set_emergency_access] of
    [src/database/mod.rs])

    A database that has users is brought to the latest version by twelve migrations,
    each of which runs if the database is older; an empty one is set up.  Iterators are
    snapshots, as everywhere in the model. *)

From S2P Require Import Prelude Bytes RStr Decimal Error Utils KvTree Env Db Keys Globals Frames Short RoomState StateCompressor Pdu Timeline StateAccessor Users StateCache DeviceKeys Uiaa Sending SendingService RoomIndex ClientData OpFrames EventFormat TimelineService Federation EventHandler Request Admin AccountDataApi Media.

(** ** Which engine *)

Definition check_db_setup (sled_exists sqlite_exists rocksdb_exists : bool) (database_backend : rstr) : res unit :=
  let count := (Nat.b2n sled_exists + Nat.b2n sqlite_exists + Nat.b2n rocksdb_exists)%nat in
  let mismatch (found : bool) (name : string) := found && bool_decide (database_backend ≠ lit name) in
  if bool_decide (1 < count)%nat then Ok ()
  else if mismatch sled_exists "sled" then Err (BadConfig "Found sled at database_path, but is not specified in config.")
  else if mismatch sqlite_exists "sqlite" then Err (BadConfig "Found sqlite at database_path, but is not specified in config.")
  else if mismatch rocksdb_exists "rocksdb" then Err (BadConfig "Found rocksdb at database_path, but is not specified in config.")
  else Ok ().

Section migrations.
Context {Ev : Env} {EL : EventLib} {TL : TimelineLib} {CL : ContentLib} {Out : Outside} {ML : MediaLib} {IL : IndexSetLib} {DL : AccountDataLib}.

(** [Ruleset::server_default] and [Ruleset::new] with their rules. *)
Class StartLib := {
  default_rules : UserId → Rules;
  empty_rules : Rules;
}.
Context {StL : StartLib}.

Definition t_clear (t : TreeId) : DB unit := modify (λ s, upd_tree t (kv_clear (trees s t)) s).
Definition expect_some {A} (o : option A) : res A := expect o "called `Option::unwrap()` on a `None` value".

(** Rooms of servers. *)
Definition migration_1 : DB unit :=
  l ← t_iter roomserverids;
  for_each l (λ e : entry,
    room_id ← lift (expect (split_ff e.1 !! 0%nat) "split always returns one element");
    match split_ff e.1 !! 1%nat with
    | Some servername => t_insert serverroomids (servername ++ sep :: room_id) []
    | None => mret ()
    end).

(** Hashes of the empty password become empty. *)
Definition migration_2 : DB unit :=
  l ← t_iter userid_password;
  for_each l (λ e : entry,
    let empty_hashed_password := from_option (λ password, hash_matches password (lit "")) false (string_from_bytes e.2) in
    if empty_hashed_password then t_insert userid_password e.1 [] else mret ()).

(** Media become files. *)
Definition migration_3 : M MediaNode unit :=
  l ← on_node (ondb (t_iter mediaid_file));
  for_each l (λ e : entry,
    if bool_decide (e.2 = []) then mret ()
    else
      file_create (get_media_file e.1) e.2 ;;
      on_node (ondb (t_insert mediaid_file e.1 []))).

(** Users of other servers become deactivated users. *)
Definition migration_4 : DB unit :=
  users ← iter_users;
  for_each users (λ r,
    our_user ← lift r;
    deactivated ← is_deactivated our_user;
    if (deactivated : bool) then mret ()
    else
      rooms ← rooms_joined our_user;
      for_each rooms (λ room,
        room ← lift room;
        members ← room_members room;
        for_each members (λ user,
          user ← lift user;
          if bool_decide (user_server_name user ≠ server_name) then set_password user None else mret ()))).

(** The latest account data of each type. *)
Definition migration_5 : DB unit :=
  l ← t_iter roomuserdataid_accountdata;
  for_each l (λ e : entry,
    room_id ← lift (expect_some (split_ff e.1 !! 0%nat));
    user_id ← lift (expect_some (split_ff e.1 !! 1%nat));
    event_type ← lift (expect_some (rsplit_ff e.1 !! 0%nat));
    t_insert roomusertype_roomuserdataid (room_id ++ sep :: user_id ++ sep :: event_type) e.1).

(** The member counts of rooms. *)
Definition migration_6 : DB unit :=
  l ← t_iter roomid_shortstatehash;
  for_each l (λ e : entry,
    string ← lift (expect_some (string_from_bytes e.1));
    room_id ← lift (expect_some (parse_id valid_room_id string));
    update_joined_count room_id).

(** ** The states of rooms, as differences *)

Record StateWalk := MkWalk {
  last_roomstates : gmap RoomId N;
  current_sstatehash : option N;
  current_room : option RoomId;
  current_state : gset CompressedStateEvent
}.

(** A state is stored as its difference from the one before in the room. *)
Definition handle_state (sstatehash : N) (room : RoomId) (state : gset CompressedStateEvent) (last_roomstates : gmap RoomId N) : DB unit :=
  states_parents ← match last_roomstates !! room with
                   | None => mret []
                   | Some last_roomsstatehash => load_shortstatehash_info last_roomsstatehash
                   end;
  let '(statediffnew, statediffremoved) :=
    match last states_parents with
    | Some parent_stateinfo => (state ∖ si_full parent_stateinfo, si_full parent_stateinfo ∖ state)
    | None => (state, ∅)
    end in
  save_state_from_diff sstatehash statediffnew statediffremoved 2 states_parents.

(** The room of a state: that of its first event. *)
Definition room_of_state (seventid : bytes) : DB RoomId :=
  o ← t_get shorteventid_eventid seventid;
  event_id ← lift (expect_some o);
  string ← lift (expect_some (string_from_bytes event_id));
  event_id ← lift (expect_some (parse_id valid_event_id string));
  o ← unwrap (get_pdu event_id);
  pdu ← lift (expect_some o);
  mret (room_id pdu).

Definition state_entry (w : StateWalk) (e : entry) : DB StateWalk :=
  sstatehash ← lift (if bool_decide (length e.1 < 8)%nat then Panic "range end index 8 out of range"
                     else expect (u64_from_bytes (take 8 e.1)) "number of bytes is correct");
  w ← (if bool_decide (Some sstatehash = current_sstatehash w) then mret w
       else
         last_roomstates ← match current_sstatehash w with
           | Some current =>
               room ← lift (expect_some (current_room w));
               handle_state current room (current_state w) (last_roomstates w) ;;
               mret (<[room := current]> (last_roomstates w))
           | None => mret (last_roomstates w)
           end;
         room ← room_of_state e.2;
         mret (MkWalk last_roomstates (Some sstatehash) (Some room) ∅));
  val ← lift (expect (try_arr (drop 8 e.1 ++ e.2)) "size is correct");
  mret (MkWalk (last_roomstates w) (current_sstatehash w) (current_room w) ({[val]} ∪ current_state w)).

Definition migration_7 : DB unit :=
  l ← t_iter stateid_shorteventid;
  w ← for_fold l (MkWalk ∅ None None ∅) state_entry;
  match current_sstatehash w with
  | Some current =>
      room ← lift (expect_some (current_room w));
      handle_state current room (current_state w) (last_roomstates w)
  | None => mret ()
  end.

(** ** Short ids of rooms *)

(** The short id that replaces the room id before the first separator; the parts. *)
Definition short_of (s : State) (room_id : bytes) : res bytes :=
  expect (db_map s roomid_shortroomid !! room_id) "shortroomid should exist".
Definition shortened (s : State) (key : bytes) : res bytes :=
  let parts := splitn_ff 2 key in
  room_id ← expect_some (parts !! 0%nat);
  count ← expect_some (parts !! 1%nat);
  short_room_id ← short_of s room_id;
  Ok (short_room_id ++ count).

Definition migration_8 : DB unit :=
  rooms ← t_iter roomid_shortstatehash;
  for_each rooms (λ e : entry, c ← next_count; t_insert roomid_shortroomid e.1 (to_be_bytes c)) ;;
  s ← gets id;
  pdus ← t_iter pduid_pdu;
  batch ← lift (collect ((λ e : entry, key ← shortened s e.1; Ok (key, e.2)) <$> filter (λ e : entry, starts_with e.1 b#"!" = true) pdus));
  t_insert_batch pduid_pdu batch ;;
  ids ← t_iter eventid_pduid;
  batch2 ← lift (collect ((λ e : entry, value ← shortened s e.2; Ok (e.1, value)) <$> filter (λ e : entry, starts_with e.2 b#"!" = true) ids));
  t_insert_batch eventid_pduid batch2.

(** [while iter.peek().is_some() { insert_batch(&mut iter.by_ref().take(1000)) }] *)
Fixpoint insert_chunks (fuel : nat) (t : TreeId) (l : list entry) : DB unit :=
  match fuel, l with
  | S fuel, _ :: _ => t_insert_batch t (take 1000 l) ;; insert_chunks fuel t (drop 1000 l)
  | _, _ => mret ()
  end.

Definition short_token (s : State) (key : bytes) : res entry :=
  let parts := splitn_ff 4 key in
  room_id ← expect_some (parts !! 0%nat);
  word ← expect_some (parts !! 1%nat);
  _ ← expect_some (parts !! 2%nat);
  pdu_id_count ← expect_some (parts !! 3%nat);
  short_room_id ← short_of s room_id;
  Ok (short_room_id ++ word ++ sep :: pdu_id_count, []).

Definition migration_9 : DB unit :=
  s ← gets id;
  l ← t_iter tokenids;
  batch ← lift (collect ((λ e : entry, short_token s e.1) <$> filter (λ e : entry, starts_with e.1 b#"!" = true) l));
  insert_chunks (length batch) tokenids batch ;;
  l ← t_iter tokenids;
  for_each (filter (λ e : entry, starts_with e.1 b#"!" = true) l) (λ e, t_remove tokenids e.1).

(** ** The other direction of state keys, requests of UIAA sessions *)

Definition migration_10 : DB unit :=
  l ← t_iter statekey_shortstatekey;
  for_each l (λ e : entry, t_insert shortstatekey_statekey e.2 e.1) ;;
  users ← iter_users;
  for_each (filter_map ok users) mark_device_key_update.

Definition migration_11 : DB unit := t_clear userdevicesessionid_uiaarequest_tree.

(** ** Names of push rules *)

Definition with_rule_id {A} (id : rstr) (r : PushRule A) : PushRule A :=
  MkPushRule (rule_actions r) (rule_default r) (rule_enabled r) id (rule_extra r).
Definition rename_rule {A} (old new : string) (rules : IndexSet (PushRule A)) : IndexSet (PushRule A) :=
  match set_get (lit old) rules with
  | Some rule => set_insert (with_rule_id (lit new) rule) (set_remove rule rules)
  | None => rules
  end.
Definition underride_transformation : list (string * string) :=
  [(".m.rules.call", ".m.rule.call"); (".m.rules.room_one_to_one", ".m.rule.room_one_to_one");
   (".m.rules.encrypted_room_one_to_one", ".m.rule.encrypted_room_one_to_one");
   (".m.rules.message", ".m.rule.message"); (".m.rules.encrypted", ".m.rule.encrypted")].
Definition renamed_rules (g : Rules) : Rules :=
  MkRules (rename_rule ".m.rules.contains_user_name" ".m.rule.contains_user_name" (rs_content g))
    (rs_override g) (rs_room g) (rs_sender g)
    (foldl (λ s t, rename_rule t.1 t.2 s) (rs_underride g) underride_transformation).

Definition migration_12 : DB unit :=
  users ← unwrap list_local_users;
  for_each users (λ username,
    user ← lift (expect_some (parse_with_server_name username server_name));
    o ← unwrap (ClientData.get None user (lit "m.push_rules"));
    raw_rules_list ← lift (expect o "Username is invalid");
    rules ← lift (expect_some (push_rules_event raw_rules_list));
    ClientData.update None user (lit "m.push_rules") (push_rules_value (renamed_rules rules))).

(** ** All of them *)

Definition on_trees {A} (m : DB A) : M MediaNode A := on_node (ondb m).

(** A migration runs if the database is older than the version it leads to. *)
Definition migrate (version : N) (migration : M MediaNode unit) : M MediaNode unit :=
  v ← on_trees database_version;
  if bool_decide (v < version) then migration ;; on_trees (bump_database_version version) else mret ().

Definition latest_database_version : N := 12.
Definition all_migrations : list (N * M MediaNode unit) :=
  [(1, on_trees migration_1); (2, on_trees migration_2); (3, migration_3); (4, on_trees migration_4);
   (5, on_trees migration_5); (6, on_trees migration_6); (7, on_trees migration_7); (8, on_trees migration_8);
   (9, on_trees migration_9); (10, on_trees migration_10); (11, on_trees migration_11); (12, on_trees migration_12)].

Definition migrations : M MediaNode unit :=
  for_each all_migrations (λ m, migrate m.1 m.2) ;;
  v ← unwrap (on_trees database_version);
  if bool_decide (v = latest_database_version) then mret ()
  else lift (Panic "assertion failed: `(left == right)`").

(** ** The start *)

Definition set_emergency_access : NM bool :=
  user ← lift conduit_user;
  ondb (set_password user emergency_password) ;;
  let '(rules, answer) := match emergency_password with Some _ => (default_rules user, true) | None => (empty_rules, false) end in
  ondb (ClientData.update None user (lit "m.push_rules") (push_rules_value rules)) ;;
  mret answer.

Definition emergency_notice : RoomMessage :=
  TextPlain (lit "The Conduit account emergency password is set! Please unset it as soon as you finish admin account recovery!").

(** [load_or_create] once the trees are open; the background tasks are started. *)
Definition start_services : M MediaNode unit :=
  users ← on_trees count_users;
  (if bool_decide (0 < users)%nat then
     user ← lift conduit_user;
     known ← on_trees (exists_user user);
     if negb known then
       fail (BadDatabase "Cannot reuse an existing database after changing the server name, please delete the old one first.")
     else mret ()
   else mret ()) ;;
  users ← on_trees count_users;
  (if bool_decide (0 < users)%nat then migrations
   else on_trees (bump_database_version latest_database_version) ;; on_node create_admin_room) ;;
  on_trees (t_clear presenceid_presence) ;;
  r ← on_node (catch set_emergency_access);
  (match r with inl true => on_node (on_server (send_message emergency_notice)) | _ => mret () end) ;;
  on_node (on_server (on_sending handler_start)).
End migrations.

(** ** Theorems *)

Section migration_theorems.
Context {Ev : Env} {EL : EventLib} {TL : TimelineLib} {CL : ContentLib} {Out : Outside} {ML : MediaLib} {IL : IndexSetLib} {DL : AccountDataLib} {StL : StartLib}.
Implicit Types (s : State) (md : MediaNode).

Abbreviation version_entry md := (db_map (nd_db (md_node md)) global !! b#"version").
(** The database has this version. *)
Definition at_version md (v : N) : Prop :=
  u64 v ∧ default 0 (from_be <$> version_entry md) = v ∧ from_option (λ b, length b = 8%nat) True (version_entry md).

Lemma on_trees_run {A} (m : DB A) md r s :
  m (nd_db (md_node md)) = (r, s) → on_trees m md = (r, MkMedia (with_db s (md_node md)) (md_files md)).
Proof. intros E. unfold on_trees, on_node. by rewrite (ondb_run _ _ _ _ E). Qed.
Lemma on_trees_read {A} (m : DB A) md r :
  m (nd_db (md_node md)) = (r, nd_db (md_node md)) → on_trees m md = (r, md).
Proof. intros E. rewrite (on_trees_run _ _ _ _ E). by destruct md as [[[[]]]]. Qed.

Lemma version_run md v : at_version md v → on_trees database_version md = (Ok v, md).
Proof.
  intros (Hu & Hv & Hl). apply on_trees_read. unfold database_version. rewrite (bind_Ok _ _ _ _ _ (t_get_run _ _ _)).
  destruct (version_entry md) as [b|]; cbn in Hv, Hl |- *; [|by rewrite <- Hv].
  unfold u64_from_bytes. rewrite decide_True by done. by rewrite <- Hv.
Qed.
Lemma bump_run v md : u64 v → ∃ md', on_trees (bump_database_version v) md = (Ok (), md') ∧ at_version md' v.
Proof.
  intros Hv. eexists. split; [apply on_trees_run, t_insert_run|]. unfold at_version. cbn [md_node].
  change (nd_db (with_db ?x _)) with x. rewrite db_map_put_eq, lookup_insert_eq. cbn.
  rewrite from_to_be_bytes, wrap64_small by done. split_and!; [done..|apply length_to_be_bytes].
Qed.

Lemma migrate_version version m md md' v : u64 version → at_version md v →
  migrate version m md = (Ok (), md') → at_version md' (N.max v version).
Proof.
  intros Hu Hv H. unfold migrate in H. rewrite (bind_Ok _ _ _ _ _ (version_run md v Hv)) in H. case_bool_decide.
  - run_inv H x md1 E. destruct x. destruct (bump_run version md1 Hu) as (md2 & E2 & H2). rewrite E2 in H. injection H as <-.
    by rewrite N.max_r by lia.
  - injection H as <-. by rewrite N.max_l by lia.
Qed.
Lemma migrate_skip version m md v : at_version md v → version <= v → migrate version m md = (Ok (), md).
Proof.
  intros Hv Hle. unfold migrate. rewrite (bind_Ok _ _ _ _ _ (version_run md v Hv)). by rewrite bool_decide_false by lia.
Qed.

(** The start leaves the database at the latest version or stops: when the migrations
    end, the version is 12, whatever older version they began with. *)
Theorem migrations_reach_latest md md' v :
  at_version md v → migrations md = (Ok (), md') → at_version md' latest_database_version.
Proof.
  intros Hv H. unfold migrations in H. run_inv H x md1 E. destruct x.
  assert (∀ l md v md1, Forall (λ m, u64 m.1) l → at_version md v →
    for_each l (λ m, migrate m.1 m.2) md = (Ok (), md1) → ∃ v', at_version md1 v') as Hloop.
  { clear. induction l as [|[ver m] l IH]; intros md v md1 Hl Hv H; cbn [for_each] in H; [injection H as <-; eauto|].
    apply Forall_cons in Hl as [Hu Hl]. run_inv H x md2 E. destruct x. eapply IH; [done| |exact H]. by eapply migrate_version. }
  destruct (Hloop all_migrations md v md1) as [v' Hv']; [repeat constructor|done..|].
  run_inv H w md2 E2. unfold unwrap in E2. rewrite (version_run md1 v' Hv') in E2. injection E2 as <- <-.
  case_bool_decide as Hw; [|done]. injection H as <-. by rewrite Hw in Hv'.
Qed.

(** The migrations leave a database of the latest version exactly as it is; one that a newer version
    of the program wrote stops them, unchanged. *)
Lemma migrations_no_downgrade md v : at_version md v → latest_database_version <= v →
  migrations md =
    (if decide (v = latest_database_version) then Ok () else Panic "assertion failed: `(left == right)`", md).
Proof.
  intros Hv Hle. unfold migrations.
  assert (∀ l, Forall (λ m, m.1 <= latest_database_version) l → for_each l (λ m, migrate m.1 m.2) md = (Ok (), md)) as Hloop.
  { induction l as [|[ver m] l IH]; intros Hl; [done|]. apply Forall_cons in Hl as [Hm Hl]. cbn [for_each].
    cbn in Hm. rewrite (bind_Ok _ _ _ _ _ (migrate_skip ver m md v Hv ltac:(lia))). by apply IH. }
  assert (Forall (λ m, m.1 <= latest_database_version) all_migrations) as Hall.
  { unfold all_migrations, latest_database_version. repeat (constructor; [cbn; lia|]). constructor. }
  rewrite (bind_Ok _ _ _ _ _ (Hloop all_migrations Hall)).
  assert (unwrap (on_trees database_version) md = (Ok v, md)) as Eu by (unfold unwrap; by rewrite (version_run md v Hv)).
  rewrite (bind_Ok _ _ _ _ _ Eu). case_decide; [by rewrite bool_decide_true|by rewrite bool_decide_false].
Qed.

(** A changed server name is noticed: if there are users but not the server's own one,
    the start ends with an error and changes nothing. *)
Theorem renamed_server_refused md u : conduit_user = Ok u → db_map (nd_db (md_node md)) userid_password ≠ ∅ →
  db_map (nd_db (md_node md)) userid_password !! idb u = None →
  start_services md =
    (Err (BadDatabase "Cannot reuse an existing database after changing the server name, please delete the old one first."), md).
Proof.
  intros Hc Hne Hu. unfold start_services. set (m := db_map _ userid_password) in *.
  assert (on_trees count_users md = (Ok (length (sorted_entries m)), md)) as Ec.
  { apply on_trees_read. unfold count_users. by rewrite (bind_Ok _ _ _ _ _ (t_iter_run _ _)). }
  rewrite (bind_Ok _ _ _ _ _ Ec). rewrite bool_decide_true.
  - assert (on_trees (exists_user u) md = (Ok false, md)) as Ex.
    { apply on_trees_read. unfold exists_user. rewrite (bind_Ok _ _ _ _ _ (t_get_run _ _ _)). fold m. rewrite Hu. done. }
    unfold mbind at 1, M_bind at 1. rewrite Hc, bind_lift_Ok, (bind_Ok _ _ _ _ _ Ex). done.
  - destruct (map_choose m Hne) as (k & v & Hk). apply elem_of_sorted_entries in Hk.
    destruct (sorted_entries m); [by apply not_elem_of_nil in Hk|cbn; lia].
Qed.

(** ** What a start changes *)

(** The trees that the start of a migrated database writes to; of the counters only the
    one of the events, and no password but the one of the server's own user. *)
Definition start_trees : list TreeId :=
  [presenceid_presence; userid_password; global; roomuserdataid_accountdata; roomusertype_roomuserdataid; servercurrentevent_data].
Definition kept (u : UserId) (s s' : State) : Prop :=
  agree start_trees s s' ∧ (∀ k, k ≠ COUNTER → db_map s' global !! k = db_map s global !! k) ∧
  (∀ k, k ≠ idb u → db_map s' userid_password !! k = db_map s userid_password !! k) ∧
  (db_map s presenceid_presence = ∅ → db_map s' presenceid_presence = ∅).

#[export] Instance kept_preorder u : PreOrder (kept u).
Proof.
  split; [by intros s|]. intros s1 s2 s3 (A1 & B1 & C1 & D1) (A2 & B2 & C2 & D2). split_and!.
  - by etrans.
  - intros k Hk. by rewrite B2, B1.
  - intros k Hk. by rewrite C2, C1.
  - auto.
Qed.

Lemma kept_of {A} u ts (m : DB A) :
  keeps ts m → ts ⊆ [roomuserdataid_accountdata; roomusertype_roomuserdataid; servercurrentevent_data] → preserves (kept u) m.
Proof.
  intros H Hts s. specialize (H s). unfold kept.
  assert (∀ t, t ∉ [roomuserdataid_accountdata; roomusertype_roomuserdataid; servercurrentevent_data] → db_map (m s).2 t = db_map s t) as Hs
    by (intros t Ht; apply H; auto).
  rewrite !Hs by by_compute. split_and!; [|done..]. eapply agree_mono; [|exact H]. etrans; [exact Hts|]. by_compute.
Qed.
Lemma next_count_kept u : preserves (kept u) next_count.
Proof.
  intros s. rewrite next_count_run. cbn [snd]. split_and!.
  - intros t Ht. apply db_map_bump_ne. intros ->. apply Ht. by_compute.
  - intros k Hk. unfold bump. rewrite db_map_incr_eq. unfold incr_map. by rewrite lookup_insert_ne.
  - intros k _. by rewrite db_map_bump_ne by discriminate.
  - by rewrite db_map_bump_ne by discriminate.
Qed.
Lemma password_kept u v : preserves (kept u) (t_insert userid_password (idb u) v).
Proof.
  intros s. rewrite t_insert_run. cbn [snd]. split_and!.
  - intros t Ht. apply db_map_put_ne. intros <-. apply Ht. by_compute.
  - intros k _. by rewrite db_map_put_ne by discriminate.
  - intros k Hk. by rewrite db_map_put_eq, lookup_insert_ne.
  - by rewrite db_map_put_ne by discriminate.
Qed.
Ltac kept_tac := intros; repeat first [apply next_count_kept | apply password_kept |
  lazymatch goal with
  | |- preserves _ (_ ≫= _) => apply preserves_bind; [apply _| |intros]
  | |- preserves _ (match ?x with _ => _ end) => destruct x
  | |- preserves _ (if ?x then _ else _) => destruct x
  | |- preserves _ (fail _) => apply preserves_fail, _
  | |- preserves _ (mret _) => apply preserves_ret, _
  end | eapply kept_of; [solve [eauto 2 with keeps]|by_compute]].

Lemma set_password_kept u o : preserves (kept u) (set_password u o).
Proof. unfold set_password. kept_tac. Qed.
Lemma account_update_kept u v t j : preserves (kept u) (ClientData.update None v t j).
Proof. unfold ClientData.update. kept_tac. Qed.
Lemma clear_presence u s : let s' := (t_clear presenceid_presence s).2 in kept u s s' ∧ db_map s' presenceid_presence = ∅.
Proof.
  cbn. assert (∀ t, t ≠ presenceid_presence →
    db_map (upd_tree presenceid_presence (kv_clear (trees s presenceid_presence)) s) t = db_map s t) as Hs by (intros; by apply db_map_upd_ne).
  assert (db_map (upd_tree presenceid_presence (kv_clear (trees s presenceid_presence)) s) presenceid_presence = ∅) as He
    by by rewrite db_map_upd_eq, contents_clear.
  unfold kept. rewrite He, !Hs by discriminate. split_and!; try done.
  intros t Ht. apply Hs. intros ->. apply Ht. by_compute.
Qed.

(** The emergency password is set, or the failure logged. *)
Lemma emergency_run u n : conduit_user = Ok u →
  ∃ x n', catch set_emergency_access n = (Ok x, n') ∧ kept u (nd_db n) (nd_db n').
Proof.
  intros Hu. unfold set_emergency_access. rewrite Hu.
  set (o := emergency_password). unfold catch. rewrite bind_lift_Ok.
  unfold mbind at 1, M_bind at 1.
  destruct (set_password u o (nd_db n)) as [r1 d1] eqn:E1. rewrite (ondb_run _ _ _ _ E1).
  pose proof (preserves_inv _ _ _ _ _ (set_password_kept u o) E1) as K1.
  assert (∀ p, r1 ≠ Panic p) as Hp.
  { intros p ->. revert E1. unfold set_password. destruct o as [pw|]; [destruct (argon2_hash pw)|]; intros [=]. }
  destruct r1 as [[]|e|p]; [|by eexists _, _|by destruct (Hp p)].
  destruct (match o with Some _ => (default_rules u, true) | None => (empty_rules, false) end) as [rules answer]. unfold mbind at 1, M_bind at 1.
  destruct (ClientData.update None u (lit "m.push_rules") (push_rules_value rules) d1) as [r2 d2] eqn:E2.
  change d1 with (nd_db (with_db d1 n)) in E2. rewrite (ondb_run _ _ _ _ E2).
  pose proof (preserves_inv _ _ _ _ _ (account_update_kept u u _ _) E2) as K2. change (nd_db (with_db d1 n)) with d1 in K2.
  assert (∀ p, r2 ≠ Panic p) as Hp2.
  { intros p ->. revert E2. change (nd_db (with_db d1 n)) with d1. unfold ClientData.update.
    rewrite (bind_Ok _ _ _ _ _ (next_count_run d1)). cbv zeta. destruct (_ || _); [by intros [=]|]. do 3 db_step.
    by destruct (db_map _ _ !! _). }
  destruct r2 as [[]|e|p]; [eexists _, _; split; [reflexivity|by etrans]..|by destruct (Hp2 p)].
Qed.

(** The sending task starts: it drops active requests at most. *)
Lemma initial_entries_run u (l : list (bytes * OutgoingKind * SendingEventType)) m s :
  ∃ m' s', for_fold l m initial_entry s = (Ok m', s') ∧ kept u s s'.
Proof.
  revert m s. induction l as [|[[key k] e] l IH]; intros m s; [by exists m, s|].
  assert (∃ m1 s1, initial_entry m (key, k, e) s = (Ok m1, s1)) as (m1 & s1 & E).
  { unfold initial_entry. case_bool_decide; [|eauto]. unfold delete_active_request. db_step. eauto. }
  assert (preserves (kept u) (initial_entry m (key, k, e))) as K by (unfold initial_entry, delete_active_request; kept_tac).
  destruct (IH m1 s1) as (m' & s' & E' & K'). exists m', s'. cbn [for_fold]. rewrite (bind_Ok _ _ _ _ _ E). split; [done|].
  etrans; [exact (preserves_inv _ _ _ _ _ K E)|done].
Qed.
Lemma handler_start_run u h : ∃ h', handler_start h = (Ok (), h') ∧ kept u (h_db h) (h_db h').
Proof.
  unfold handler_start. assert (∃ l, indb active_requests h = (Ok l, h)) as [l El].
  { unfold indb, active_requests. rewrite (bind_Ok _ _ _ _ _ (t_iter_run _ _)). eexists. cbn. by destruct h. }
  rewrite (bind_Ok _ _ _ _ _ El). destruct (initial_entries_run u (filter_map ok l) ∅ (h_db h)) as (m & s & E & K).
  assert (indb (for_fold (filter_map ok l) ∅ initial_entry) h = (Ok m, set_db s h)) as Ei by (unfold indb; by rewrite E).
  rewrite (bind_Ok _ _ _ _ _ Ei).
  assert (∀ l h', ∃ h2, for_each l (λ e : OutgoingKind * list SendingEventType,
    modify (λ h, set_status (<[e.1 := Running]> (h_status h)) h) ;; push_future e.1 e.2) h' = (Ok (), h2) ∧ h_db h2 = h_db h') as Hl.
  { clear. induction l as [|e l IH]; intros h'; [by exists h'|]. cbn [for_each].
    edestruct IH as (h2 & E2 & Ed). exists h2. split; [rewrite <- E2; reflexivity|]. by rewrite Ed. }
  destruct (Hl (map_to_list m) (set_db s h)) as (h2 & E2 & Ed). exists h2. split; [exact E2|by rewrite Ed].
Qed.


(** ** Single migrations *)

Lemma for_each_ext {S A} (l : list A) (f g : A → M S unit) (s : S) :
  (∀ a (s : S), a ∈ l → f a s = g a s) → for_each l f s = for_each l g s.
Proof.
  revert s. induction l as [|a l IH]; intros s H; [done|]. cbn [for_each]. unfold mbind, M_bind. rewrite H by left.
  destruct (g a s) as [[[]| |] s1]; [|done..]. apply IH. intros. apply H. by right.
Qed.
(** A loop of insertions into one tree. *)
Lemma for_each_insert (t : TreeId) (l : list entry) (f : entry → entry) s :
  ∃ s', for_each l (λ e, t_insert t (f e).1 (f e).2) s = (Ok (), s') ∧ (∀ t', t' ≠ t → db_map s' t' = db_map s t') ∧
    ∀ k, is_Some (db_map s' t !! k) ↔ is_Some (db_map s t !! k) ∨ ∃ e, e ∈ l ∧ (f e).1 = k.
Proof.
  revert s. induction l as [|e l IH]; intros s.
  - exists s. split_and!; [done..|]. intros k. split; [by left|]. intros [?|(e & ?%not_elem_of_nil & _)]; done.
  - destruct (IH (put t (f e).1 (f e).2 s)) as (s' & E & Ho & Hk). exists s'. cbn [for_each]. rewrite (bind_Ok _ _ _ _ _ (t_insert_run _ _ _ _)).
    split_and!; [done| |].
    + intros t' Ht. rewrite Ho by done. by apply db_map_put_ne.
    + intros k. rewrite Hk, db_map_put_eq, lookup_insert_is_Some'. set_solver.
Qed.

(** The first migration fills the index of the rooms of each server: afterwards it has
    exactly the entries it had and the mirror image of every server of a room. *)
Theorem migration_1_mirror s :
  id_keyed (va := valid_room_id) (vb := valid_server_name) (db_map s roomserverids) →
  ∃ s', migration_1 s = (Ok (), s') ∧ (∀ t, t ≠ serverroomids → db_map s' t = db_map s t) ∧
    ∀ (server : ServerName) (r : RoomId), is_Some (db_map s' serverroomids !! idkey server r) ↔
      is_Some (db_map s serverroomids !! idkey server r) ∨ is_Some (db_map s roomserverids !! idkey r server).
Proof.
  intros Hk. unfold migration_1. rewrite (bind_Ok _ _ _ _ _ (t_iter_run _ _)).
  set (f := λ e : entry, (default [] (split_ff e.1 !! 1%nat) ++ sep :: default [] (split_ff e.1 !! 0%nat), [] : bytes)).
  assert (∀ (server : ServerName) (r : RoomId) v, (f (idkey r server, v)).1 = idkey server r) as Hf.
  { intros server r v. unfold f, idkey, key2. cbn [fst]. by rewrite split_ff_app, split_ff_single by auto with kv. }
  destruct (for_each_insert serverroomids (sorted_entries (db_map s roomserverids)) f s) as (s' & E & Ho & Hs).
  exists s'. split_and!; [|done|].
  - rewrite <- E. apply for_each_ext. intros [k v] s1 H%elem_of_sorted_entries. apply Hk in H as (r & server & ->).
    unfold f, idkey, key2. cbn [fst snd]. by rewrite split_ff_app, split_ff_single by auto with kv.
  - intros server r. rewrite Hs. split; (intros [?|H]; [by left|right]).
    + destruct H as ([k v] & Hin & E1). apply elem_of_sorted_entries in Hin. pose proof (Hk _ _ Hin) as Hkk.
      destruct Hkk as (r' & server' & ->). rewrite Hf in E1. apply key2_inj in E1 as [E1 E2]; [|auto with kv..].
      apply (inj idb) in E1, E2. subst. eauto.
    + destruct H as [v Hv]. exists (idkey r server, v). split; [by apply elem_of_sorted_entries|apply Hf].
Qed.
End migration_theorems.
