(* ===== verification/AdminCommands.v ===== *)
(** * Commands of the admin room ([AdminCommand], [process_admin_message],
    [parse_admin_command] and [process_admin_command] of [src/service/admin/mod.rs])

    The handler of [Admin] runs these for the messages of the admin room and posts the
    answer there.  The command line is read by clap, a parameter; so are the texts of
    errors, of the configuration and of the help pages. *)

From S2P Require Import Prelude Bytes RStr Text Decimal Error Utils KvTree Env Db Keys Globals Frames Short RoomState Pdu Timeline StateAccessor Users StateCache MembershipService StateService DeviceKeys Uiaa Sending SendingService RoomIndex ClientData OpFrames EventFormat TimelineService AuthChain Federation EventHandler Request Admin Account Membership Profile Rooms Media ClientMisc.

Section commands.
Context {Ev : Env}.

Inductive AdminCommand :=
  | RegisterAppservice
  | UnregisterAppservice (appservice_identifier : rstr)
  | ListAppservices
  | ListRooms
  | ListLocalUsers
  | IncomingFederation
  | DeactivateUser (leave_rooms : bool) (user_id : UserId)
  | DeactivateAll (leave_rooms force : bool)
  | GetAuthChain (event_id : EventId)
  | ParsePdu
  | GetPdu (event_id : EventId)
  | DatabaseMemoryUsage
  | ShowConfig
  | ResetPassword (username : rstr)
  | CreateUser (username : rstr) (password : option rstr)
  | DisableRoom (room_id : RoomId)
  | EnableRoom (room_id : RoomId).

Class AdminLib := {
  (** [AdminCommand::try_parse_from]: a command or the text of help or an error *)
  try_parse_from : list rstr → AdminCommand + rstr;
  (** the text of an error, and of one of [serde_yaml], [serde_json], of ids and of
      [reference_hash], for the text that could not be read *)
  error_text : Error → rstr;
  yaml_error : rstr → rstr;
  json_error : rstr → rstr;
  id_error : rstr → rstr;
  hash_error : CanonicalJsonObject → rstr;
  pdu_error : CanonicalJsonObject → rstr;
  (** [serde_yaml::from_str], [serde_json::from_str] and [from_value] *)
  yaml_from_str : rstr → option json;
  object_from_str : rstr → option CanonicalJsonObject;
  pdu_from_value : CanonicalJsonObject → option PduEvent;
  (** the event id of a hash and an event as [Debug] texts, an object as indented JSON *)
  debug_event_id : rstr → rstr;
  debug_pdu : PduEvent → rstr;
  to_string_pretty : CanonicalJsonObject → rstr;
  debug_text : rstr → rstr;
  (** [Regex::new(..).replace_all(text, ..)]: pattern, replacement and text *)
  regex_replace_all : rstr → rstr → rstr → rstr;
  (** the length of an auth chain and the time it took as text *)
  chain_text : nat → rstr;
  memory_usage : rstr + Error;
  config_text : rstr;
}.
End commands.

(** ** Texts *)

Section texts.
(** [replace('_', "-")] *)
Definition with_dashes (s : rstr) : rstr :=
  str_replace (lit "_") (lit "-") s.
End texts.

Section admin_commands.
Context {Ev : Env} {EL : EventLib} {TL : TimelineLib} {CL : ContentLib} {Out : Outside} {HL : HandlerLib} {AL : AccountLib} {AdL : AdminLib}.

Definition parse_admin_command (command_line : rstr) : AdminCommand + rstr :=
  let argv := split_whitespace command_line in
  let argv := match argv with
              | main :: second :: rest => if bool_decide (second = lit "help") then main :: rest ++ [lit "--help"] else argv
              | _ => argv
              end in
  let argv := match argv with
              | main :: second :: rest => if bool_decide (x5f ∈ as_bytes second) then main :: with_dashes second :: rest else argv
              | _ => argv
              end in
  try_parse_from argv.

(** ** Help texts *)

(** A line of the example body, without its mark. *)
Definition body_line (line : rstr) : rstr :=
  of_bytes (if starts_with (as_bytes line) b#"# " then drop 2 (as_bytes line) else drop 1 (as_bytes line)).
(** The lines after the tag that begin with a hash, as one text, and the rest. *)
Fixpoint take_body (l : list rstr) : rstr * list rstr :=
  match l with
  | line :: l' =>
      if starts_with (as_bytes line) b#"#" then
        let '(body, rest) := take_body l' in (texts [body_line line; lit "[nobr]"; newline; body], rest)
      else (lit "", l)
  | [] => (lit "", [])
  end.
Definition split_body (text_lines : list rstr) : rstr * list rstr :=
  match list_find (λ line, line = lit "[commandbody]") text_lines with
  | Some (line_index, _) =>
      let '(body, rest) := take_body (drop (S line_index) text_lines) in (body, take line_index text_lines ++ rest)
  | None => (lit "", text_lines)
  end.

Definition usage_to_html (text : rstr) : rstr :=
  let conduit (end_ : string) := texts [lit "@conduit:"; as_str server_name; lit end_] in
  let text := str_replace (conduit ":-") (conduit ": ") text in
  let text := str_replace (lit "SUBCOMMAND") (lit "COMMAND") text in
  let text := str_replace (lit "subcommand") (lit "command") text in
  let text := str_replace (lit ">") (lit "&gt;") (str_replace (lit "<") (lit "&lt;") text) in
  let text := regex_replace_all (str_app (lit "^(.*?)") newline) (str_app (lit "<em>$1</em>") newline) text in
  let text := str_replace (str_app newline (lit "            ")) (lit "  ") text in
  let text := regex_replace_all (lit "(?m)^    (([a-zA-Z_&;-]+(, )?)+)  +(.*)$") (lit "<code>$1</code>: $4") text in
  let '(command_body, text_lines) := split_body (lines text) in
  let text := join_with newline text_lines in
  let text :=
    if bool_decide (as_bytes command_body = []) then
      regex_replace_all (texts [lit "(?m)^USAGE:"; newline; lit "    (@conduit:.*)$"]) (texts [lit "USAGE:"; newline; lit "<code>$1</code>"]) text
    else
      str_replace (lit "[commandbodyblock]") command_body
        (regex_replace_all (texts [lit "(?m)^USAGE:"; newline; lit "    (.*?)"; newline; newline])
           (texts [lit "USAGE:"; newline; lit "<pre>$1[nobr]"; newline; lit "[commandbodyblock]</pre>"]) text) in
  let text := str_replace (texts [newline; newline; newline]) (texts [newline; newline]) text in
  let text := str_replace newline (texts [lit "<br>"; newline]) text in
  str_replace (lit "[nobr]<br>") (lit "") text.

(** ** Commands *)

(** The lines between the marks of a code block. *)
Definition fence : rstr := lit "```".
Definition code_block (body : list rstr) : option (list rstr) :=
  if bool_decide (2 < length body)%nat && bool_decide (trim <$> head body = Some fence) && bool_decide (trim <$> last body = Some fence)
  then Some (take (length body - 2) (drop 1 body)) else None.

Definition AUTO_GEN_PASSWORD_LENGTH : N := 15.
Abbreviation plain l := (TextPlain (texts l)).

Definition register_command (body : list rstr) : NM RoomMessage :=
  match code_block body with
  | Some block =>
      let appservice_config := join_with newline block in
      match yaml_from_str appservice_config with
      | Some yaml =>
          r ← catch (ondb (register_appservice yaml));
          mret (match r with
                | inl id => plain [lit "Appservice registered with ID: "; id; lit "."]
                | inr e => plain [lit "Failed to register appservice: "; error_text e]
                end)
      | None => mret (plain [lit "Could not parse appservice config: "; yaml_error appservice_config])
      end
  | None => mret (plain [lit "Expected code block in command body. Add --help for details."])
  end.

Definition list_rooms_command : DB RoomMessage :=
  ids ← iter_ids;
  rooms ← for_fold (filter_map ok ids) [] (λ acc id,
    o ← try_ok (room_joined_count id);
    mret (acc ++ [texts [as_str id; MkStr [x09] eq_refl; lit "Members: "; u64_to_string (default 0 (mjoin o))]]));
  mret (plain [lit "Rooms:"; newline; join_with newline rooms]).

Definition federation_command : NM RoomMessage :=
  t ← instant_now;
  map ← gets roomid_federationhandletime;
  let line (e : RoomId * (EventId * N)) :=
    let elapsed := (t - e.2.2) / 1000 in
    texts [as_str e.1; lit " "; as_str e.2.1; lit ": "; u64_to_string (elapsed / 60); lit "m"; u64_to_string (elapsed mod 60); lit "s"; newline] in
  mret (plain (lit "Handling " :: u64_to_string (N.of_nat (size map)) :: lit " incoming pdus:" :: newline :: (line <$> map_to_list map))).

Definition auth_chain_command (fuel : nat) (event_id : EventId) : NM RoomMessage :=
  o ← ondb (get_pdu_json event_id);
  match o with
  | Some event =>
      room_id_str ← lift (ok_or (canonical_get (lit "room_id") event ≫= as_string) (BadDatabase "Invalid event in database"));
      room_id ← lift (ok_or (parse_id valid_room_id room_id_str) (BadDatabase "Invalid room id field in event in database"));
      chain ← ondb (get_auth_chain fuel room_id [event_id]);
      chain ← lift (expect chain "out of fuel");
      mret (plain [chain_text (length chain)])
  | None => mret (plain [lit "Event not found."])
  end.

Definition parse_pdu_command (body : list rstr) : RoomMessage :=
  match code_block body with
  | Some block =>
      let string := join_with newline block in
      match object_from_str string with
      | Some value =>
          match reference_hash value (lit "6") with
          | Some hash =>
              let event_id := debug_event_id (str_app (lit "$") hash) in
              match pdu_from_value value with
              | Some pdu => plain [lit "EventId: "; event_id; newline; debug_pdu pdu]
              | None => plain [lit "EventId: "; event_id; newline; lit "Could not parse event: "; pdu_error value]
              end
          | None => plain [lit "Could not parse PDU JSON: "; hash_error value]
          end
      | None => plain [lit "Invalid json in command body: "; json_error string]
      end
  | None => plain [lit "Expected code block in command body."]
  end.

Definition get_pdu_command (event_id : EventId) : DB RoomMessage :=
  accepted ← get_non_outlier_pdu_json event_id;
  pdu_json ← match accepted with Some json => mret (Some json) | None => get_pdu_json event_id end;
  mret (match pdu_json with
        | Some json =>
            let json_text := to_string_pretty json in
            let status := match accepted with Some _ => lit "PDU was accepted" | None => lit "PDU is outlier" end in
            TextHtml
              (texts [status; newline; lit "```json"; newline; json_text; newline; lit "```"])
              (texts [lit "<p>"; status; lit "</p>"; newline; lit "<pre><code class="; quote; lit "language-json"; quote; lit ">";
                      html_escape json_text; newline; lit "</code></pre>"; newline])
        | None => plain [lit "PDU not found."]
        end).

Definition reset_password_command (username : rstr) : NM RoomMessage :=
  match parse_with_server_name (to_lowercase username) server_name with
  | None => mret (plain [lit "The supplied username is not a valid username: "; id_error username])
  | Some user_id =>
      known ← ondb (exists_user user_id);
      deactivated ← (if (known : bool) then ondb (is_deactivated user_id) else mret true);
      conduit ← (if (deactivated : bool) then mret user_id else lift conduit_user);
      if bool_decide (user_id = conduit) then mret (plain [lit "The specified user does not exist or is deactivated!"])
      else
        new_password ← random_string AUTO_GEN_PASSWORD_LENGTH;
        r ← catch (ondb (set_password user_id (Some new_password)));
        mret (match r with
              | inl _ => plain [lit "Successfully reset the password for user "; as_str user_id; lit ": "; new_password]
              | inr e => plain [lit "Couldn't reset the password for user "; as_str user_id; lit ": "; error_text e]
              end)
  end.

Definition create_user_command (username : rstr) (password : option rstr) : NM RoomMessage :=
  password ← match password with Some p => mret p | None => random_string AUTO_GEN_PASSWORD_LENGTH end;
  match parse_with_server_name (to_lowercase username) server_name with
  | None => mret (plain [lit "The supplied username is not a valid username: "; id_error username])
  | Some user_id =>
      if is_historical user_id then mret (plain [lit "userid "; as_str user_id; lit " is not allowed due to historical"])
      else
        known ← ondb (exists_user user_id);
        if (known : bool) then mret (plain [lit "userid "; as_str user_id; lit " already exists"])
        else
          create_account user_id (Some password) ;;
          mret (plain [lit "Created user with user_id: "; as_str user_id; lit " and password: "; password])
  end.

Definition deactivate_command (leave_rooms : bool) (user_id : UserId) : NM RoomMessage :=
  known ← ondb (exists_user user_id);
  if (known : bool) then
    ondb (deactivate_account user_id) ;;
    (if leave_rooms then leave_all_rooms user_id else mret ()) ;;
    mret (plain [lit "User "; as_str user_id; lit " has been deactivated"])
  else mret (plain [lit "User "; as_str user_id; lit " doesn't exist on this server"]).

(** [retain]: without [force], admins are kept out and named. *)
Definition retain_user (acc : list UserId * list rstr) (user_id : UserId) : DB (list UserId * list rstr) :=
  o ← try_ok (is_admin user_id);
  mret (match o with
        | Some true => (acc.1, acc.2 ++ [localpart user_id])
        | Some false => (acc.1 ++ [user_id], acc.2)
        | None => acc
        end).
Definition retain_users (force : bool) (user_ids : list UserId) : DB (list UserId * list rstr) :=
  if force then mret (user_ids, []) else for_fold user_ids ([], []) retain_user.

(** The ids, or the first name that is none. *)
Fixpoint parse_users (usernames : list rstr) : list UserId + rstr :=
  match usernames with
  | [] => inl []
  | username :: usernames =>
      match parse_id valid_user_id username with
      | Some user_id => match parse_users usernames with inl l => inl (user_id :: l) | inr e => inr e end
      | None => inr username
      end
  end.

Definition deactivate_all_command (leave_rooms force : bool) (body : list rstr) : NM RoomMessage :=
  match code_block body with
  | Some usernames =>
      match parse_users usernames with
      | inr username => mret (plain [username; lit " is not a valid username"])
      | inl user_ids =>
          '(user_ids, admins) ← ondb (retain_users force user_ids);
          deactivation_count ← for_fold user_ids 0 (λ c user_id,
            o ← try_ok (ondb (deactivate_account user_id)); mret (match o with Some _ => c + 1 | None => c end));
          (if leave_rooms then for_each user_ids (λ user_id, catch (leave_all_rooms user_id) ;; mret ()) else mret ()) ;;
          mret (plain ([lit "Deactivated "; u64_to_string deactivation_count; lit " accounts."] ++
            if bool_decide (admins = []) then []
            else [newline; lit "Skipped admin accounts: "; debug_text (join_with (lit ", ") admins);
                  lit ". Use --force to deactivate admin accounts"]))
      end
  | None => mret (plain [lit "Expected code block in command body. Add --help for details."])
  end.

Definition process_admin_command (fuel : nat) (command : AdminCommand) (body : list rstr) : NM RoomMessage :=
  match command with
  | RegisterAppservice => register_command body
  | UnregisterAppservice id =>
      r ← catch (ondb (unregister_appservice id));
      mret (match r with
            | inl _ => plain [lit "Appservice unregistered."]
            | inr e => plain [lit "Failed to unregister appservice: "; error_text e]
            end)
  | ListAppservices =>
      o ← try_ok (ondb appservice_ids);
      mret (match o with
            | Some ids => plain [lit "Appservices ("; u64_to_string (N.of_nat (length ids)); lit "): "; join_with (lit ", ") (filter_map ok ids)]
            | None => plain [lit "Failed to get appservices."]
            end)
  | ListRooms => ondb list_rooms_command
  | ListLocalUsers =>
      r ← catch (ondb list_local_users);
      mret (match r with
            | inl users => plain [lit "Found "; u64_to_string (N.of_nat (length users)); lit " local user account(s):"; newline; join_with newline users]
            | inr e => plain [error_text e]
            end)
  | IncomingFederation => federation_command
  | DeactivateUser leave_rooms user_id => deactivate_command leave_rooms user_id
  | DeactivateAll leave_rooms force => deactivate_all_command leave_rooms force body
  | GetAuthChain event_id => auth_chain_command fuel event_id
  | ParsePdu => mret (parse_pdu_command body)
  | GetPdu event_id => ondb (get_pdu_command event_id)
  | DatabaseMemoryUsage =>
      mret (match memory_usage with
            | inl response => plain [response]
            | inr e => plain [lit "Failed to get database memory usage: "; error_text e]
            end)
  | ShowConfig => mret (plain [config_text])
  | ResetPassword username => reset_password_command username
  | CreateUser username password => create_user_command username password
  | DisableRoom room_id => ondb (disable_room room_id true) ;; mret (plain [lit "Room disabled."])
  | EnableRoom room_id => ondb (disable_room room_id false) ;; mret (plain [lit "Room enabled."])
  end.

Definition process_admin_message (fuel : nat) (room_message : rstr) : NM RoomMessage :=
  match lines room_message with
  | [] => lift (Panic "each string has at least one line")
  | command_line :: body =>
      match parse_admin_command command_line with
      | inr error => let message := str_replace (lit "server.name") (as_str server_name) error in mret (TextHtml message (usage_to_html message))
      | inl command =>
          r ← catch (process_admin_command fuel command body);
          mret (match r with
                | inl reply_message => reply_message
                | inr error =>
                    let intro := lit "Encountered an error while handling the command:" in
                    TextHtml (texts [intro; newline; fence; newline; error_text error; newline; fence])
                             (texts [intro; newline; lit "<pre>"; newline; error_text error; newline; lit "</pre>"])
                end)
      end
  end.
End admin_commands.

(** ** Theorems *)

Section admin_command_theorems.
Context {Ev : Env} {EL : EventLib} {TL : TimelineLib} {CL : ContentLib} {Out : Outside} {HL : HandlerLib} {AL : AccountLib} {AdL : AdminLib}.
Implicit Types (s : State) (n : Node).

Abbreviation password_of s u := (db_map s userid_password !! idb u).

Lemma retain_users_read force ids s : (retain_users force ids s).2 = s.
Proof.
  destruct force; [done|]. unfold retain_users. generalize (([], []) : list UserId * list rstr).
  induction ids as [|u ids IH]; intros acc; [done|]. cbn [for_fold]. unfold mbind at 1, M_bind at 1.
  assert (∃ r, retain_user acc u s = (r, s)) as [r ->].
  { unfold retain_user, try_ok, mbind, M_bind. destruct (is_admin_read u s) as [x ->]. destruct x; cbn; eauto. }
  destruct r as [acc'|e|e]; [apply IH|done..].
Qed.

Lemma retain_users_sound ids s users admins s' : retain_users false ids s = (Ok (users, admins), s') →
  s' = s ∧ ∀ u, u ∈ users → is_admin u s = (Ok false, s).
Proof.
  intros H. refine (for_fold_Ok (λ acc s', s' = s ∧ ∀ u, u ∈ acc.1 → is_admin u s = (Ok false, s)) _ _ _ _ _ _ _ _ H).
  - clear. intros [users admins] u s1 acc' s' Hu [-> IH] H. unfold retain_user in H. run_inv H o s2 E. injection H as <- <-.
    unfold try_ok in E. destruct (is_admin_read u s) as [r Er]. rewrite Er in E.
    destruct r as [[]|e|e]; [injection E as <- <-..|done]; (split; [done|]); cbn; try done.
    intros v [Hv|Hv]%elem_of_app; [by apply IH|]. by apply list_elem_of_singleton in Hv as ->.
  - split; [done|]. by intros u ?%not_elem_of_nil.
Qed.

(** The account of a user: the password and the access tokens of the devices. *)
Definition account_trees : list TreeId := [userid_password; userdeviceid_token; token_userdeviceid; userdeviceid_metadata].
Definition account_kept (v : UserId) s s' : Prop :=
  password_of s' v = password_of s v ∧ (TokenInv s → TokenInv s' ∧ ∀ t d, token_of s' t v d ↔ token_of s t v d).
#[export] Instance account_kept_preorder v : PreOrder (account_kept v).
Proof.
  split; [by intros s|]. intros s1 s2 s3 [A1 B1] [A2 B2]. split; [congruence|]. intros I.
  destruct (B1 I) as [I2 T1]. destruct (B2 I2) as [I3 T2]. split; [done|]. intros t d. by rewrite T2.
Qed.
#[export] Instance sv_kept_preorder v : PreOrder (λ s s' : ServerState, account_kept v (sv_db s) (sv_db s')).
Proof. split; [by intros s|]. intros s1 s2 s3 H1 H2. by etrans. Qed.
#[export] Instance nd_kept_preorder v : PreOrder (λ n n' : Node, account_kept v (nd_db n) (nd_db n')).
Proof. split; [by intros s|]. intros s1 s2 s3 H1 H2. by etrans. Qed.
Abbreviation keeps_account v := (preserves (account_kept v)).
Abbreviation sv_keeps_account v := (preserves (λ s s' : ServerState, account_kept v (sv_db s) (sv_db s'))).
Abbreviation nd_keeps_account v := (preserves (λ n n' : Node, account_kept v (nd_db n) (nd_db n'))).

Lemma agree_account v ts s s' : agree ts s s' → Forall (λ t, t ∉ ts) account_trees → account_kept v s s'.
Proof.
  intros A H. unfold account_trees in H. rewrite !Forall_cons in H. destruct H as (H1 & H2 & H3 & H4 & _).
  split; [by rewrite (A userid_password)|]. intros I.
  assert (TokenInv s') as I' by (apply (token_inv_frame s); rewrite ?A; done).
  split; [done|]. intros t d. by rewrite !token_of_iff, A.
Qed.
Lemma keeps_of {A} v ts (m : DB A) : keeps ts m → Forall (λ t, t ∉ ts) account_trees → keeps_account v m.
Proof. intros H Ht s. by eapply agree_account. Qed.
Lemma sv_keeps_of {A} v ts (m : SM A) : preserves (sagree ts) m → Forall (λ t, t ∉ ts) account_trees → sv_keeps_account v m.
Proof. intros H Ht s. by eapply agree_account; [apply H|]. Qed.
Lemma nd_keeps_of {A} v ts (m : NM A) : preserves (nagree ts) m → Forall (λ t, t ∉ ts) account_trees → nd_keeps_account v m.
Proof. intros H Ht s. by eapply agree_account; [apply H|]. Qed.
Lemma on_db_account {A} v (m : DB A) : keeps_account v m → sv_keeps_account v (on_db m).
Proof.
  intros H s. specialize (H (sv_db s)). destruct (m (sv_db s)) as [r d] eqn:E. by rewrite (on_db_run _ _ _ _ E).
Qed.
Lemma ondb_account {A} v (m : DB A) : keeps_account v m → nd_keeps_account v (ondb m).
Proof.
  intros H n. specialize (H (nd_db n)). destruct (m (nd_db n)) as [r d] eqn:E. by rewrite (ondb_run _ _ _ _ E).
Qed.
Lemma on_server_account {A} v (m : SM A) : sv_keeps_account v m → nd_keeps_account v (on_server m).
Proof. intros H n. specialize (H (nd_server n)). unfold on_server. by destruct (m (nd_server n)) as [r s]. Qed.
Lemma catch_account {A} v (m : NM A) : nd_keeps_account v m → nd_keeps_account v (catch m).
Proof. intros H n. specialize (H n). unfold catch. by destruct (m n) as [[]]. Qed.

(** A walk through a program, to the operations with a frame. *)
Ltac account_step :=
  lazymatch goal with
  | |- preserves _ (mret _) => apply preserves_ret, _
  | |- preserves _ (lift _) => apply preserves_lift, _
  | |- preserves _ (fail _) => apply preserves_fail, _
  | |- preserves _ (_ ≫= _) => apply preserves_bind; [apply _| |intros]
  | |- preserves _ (for_each _ _) => apply preserves_for_each; [apply _|intros]
  | |- preserves _ (match ?x with _ => _ end) => destruct x
  | |- preserves _ (let '_ := ?x in _) => destruct x
  | |- preserves _ (catch _) => apply catch_account
  | |- preserves _ _ => first [assumption
      | eapply keeps_of; [solve [eauto 2 with keeps]|by_compute]
      | apply on_db_account; eapply keeps_of; [solve [eauto 2 with keeps]|by_compute]
      | apply ondb_account; eapply keeps_of; [solve [eauto 2 with keeps]|by_compute]]
  end.
Ltac account_tac := intros; repeat account_step.

Hint Resolve first_join_keeps is_ignored_keeps displayname_keeps calculate_invite_state_keeps redact_pdu_keeps prepare_event_keeps
  insert_pdu_keeps append_to_state_keeps room_exists_keeps : keeps.

(** A member event changes the password of users of other servers only. *)
Lemma update_membership_account v r u m w l b :
  user_server_name v = server_name → keeps_account v (update_membership r u m w l b).
Proof.
  intros Hv. unfold update_membership. apply preserves_bind; [apply _| |intros _].
  - case_decide as Hu; [apply preserves_ret, _|]. intros s. cbn [set_password]. rewrite t_insert_run. cbn [snd]. split.
    + rewrite db_map_put_eq, lookup_insert_ne; [done|]. intros E%(inj idb). by subst.
    + intros I. assert (TokenInv (put userid_password (idb u) [] s)) as I'
        by (apply (token_inv_frame s); rewrite ?db_map_put_ne by discriminate; done).
      split; [done|]. intros t d. by rewrite !token_of_iff, db_map_put_ne.
  - eapply (keeps_of _ (member_trees ++ count_trees ++ [roomuseroncejoinedids; roomuserdataid_accountdata; roomusertype_roomuserdataid]));
      [unfold apply_membership; keeps_tac|by_compute].
Qed.

Section local_user.
Context (v : UserId) (Hv : user_server_name v = server_name).

Definition quiet_trees : list TreeId :=
  count_trees ++ member_trees ++
  [roomuseroncejoinedids; roomuserdataid_accountdata; roomusertype_roomuserdataid;
   servernameevent_data; userroomid_notificationcount; userroomid_highlightcount; tokenids; pduid_pdu].
Lemma notify_users_account p id : sv_keeps_account v (notify_users p id).
Proof.
  eapply (sv_keeps_of _ quiet_trees); [unfold notify_users, notify_user, rules_for, get_actions; server_tac|by_compute].
Qed.
Lemma to_appservice_account p id a : sv_keeps_account v (to_appservice p id a).
Proof. eapply (sv_keeps_of _ quiet_trees); [unfold to_appservice; server_tac|by_compute]. Qed.
Lemma message_effect_account p sr id : sv_keeps_account v (message_effect p sr id).
Proof. eapply (sv_keeps_of _ quiet_trees); [unfold message_effect; server_tac|by_compute]. Qed.
Lemma member_effect_account p : keeps_account v (member_effect p).
Proof. unfold member_effect. account_tac. by apply update_membership_account. Qed.
Lemma append_event_account p js l : sv_keeps_account v (append_pdu p js l).
Proof.
  unfold append_pdu, follow_up, kind_effect. account_tac; auto using notify_users_account, message_effect_account, to_appservice_account.
  apply on_db_account, member_effect_account.
Qed.
Lemma build_account b u r : sv_keeps_account v (build_and_append_pdu b u r).
Proof.
  unfold build_and_append_pdu, create_hash_and_sign_event. account_tac; [|apply append_event_account|].
  - apply on_db_account. account_tac.
  - eapply (sv_keeps_of _ quiet_trees); [server_tac|by_compute].
Qed.
Lemma leave_room_account u r reason : nd_keeps_account v (leave_room u r reason).
Proof.
  pose proof (remote_leave_room_keeps u r) as K. unfold leave_room. account_tac.
  all: try (eapply nd_keeps_of; [exact K|by_compute]).
  all: try (apply ondb_account, update_membership_account, Hv).
  all: apply on_server_account, build_account.
Qed.
Lemma leave_all_rooms_account u : nd_keeps_account v (leave_all_rooms u).
Proof. unfold leave_all_rooms. pose proof leave_room_account. account_tac; auto. Qed.
End local_user.

Lemma remove_device_keeps u d :
  keeps [userdeviceid_token; token_userdeviceid; todeviceid_events; userid_devicelistversion; userdeviceid_metadata] (remove_device u d).
Proof. unfold remove_device. keeps_tac. Qed.
(** Whoever is not the one that is deactivated keeps the account. *)
Lemma deactivate_account_kept u v : v ≠ u → keeps_account v (deactivate_account u).
Proof.
  intros Hne. unfold deactivate_account. apply preserves_bind; [apply _|intros s; unfold all_device_ids; db_step; done|]. intros ids.
  apply preserves_bind; [apply _| |].
  - apply preserves_for_each; [apply _|]. intros r. apply preserves_bind; [apply _|apply preserves_lift, _|]. intros d s.
    pose proof (remove_device_keeps u d s) as Hk. split; [f_equal; apply Hk; by_compute|]. intros I.
    destruct (remove_device_tokens u d s I) as [I' Ht]. split; [done|]. intros t d'. rewrite Ht. naive_solver.
  - intros _ s. cbn [set_password]. rewrite t_insert_run. cbn [snd]. split.
    + rewrite db_map_put_eq, lookup_insert_ne; [done|]. intros E%(inj idb). by subst.
    + intros I. assert (TokenInv (put userid_password (idb u) [] s)) as I'
        by (apply (token_inv_frame s); rewrite ?db_map_put_ne by discriminate; done).
      split; [done|]. intros t d. by rewrite !token_of_iff, db_map_put_ne.
Qed.

(** C22: The command that deactivates a list of users spares the admins unless it is forced, also when the users
    are to leave their rooms and whatever the outcome: a user of this server who is a member of the admin room keeps the
    password, and, where tokens and devices are consistent, exactly the access tokens that were valid for one of the user's
    devices stay valid for it. *)
Theorem admins_spared leave_rooms body v n r n' :
  is_admin v (nd_db n) = (Ok true, nd_db n) → user_server_name v = server_name →
  deactivate_all_command leave_rooms false body n = (r, n') →
  password_of (nd_db n') v = password_of (nd_db n) v ∧
  (TokenInv (nd_db n) → ∀ t d, token_of (nd_db n') t v d ↔ token_of (nd_db n) t v d).
Proof.
  intros Ha Hv. unfold deactivate_all_command. destruct (code_block body) as [names|]; [|by intros [= <- <-]].
  destruct (parse_users names) as [ids|name]; [|by intros [= <- <-]]. unfold mbind at 1, M_bind at 1.
  destruct (retain_users false ids (nd_db n)) as [o s1] eqn:Er. rewrite (ondb_run _ _ _ _ Er).
  assert (s1 = nd_db n) as -> by (by rewrite <- (retain_users_read false ids (nd_db n)), Er). rewrite with_db_id.
  destruct o as [[users admins]|e|e]; [|by intros [= <- <-]..]. apply retain_users_sound in Er as [_ Hus].
  assert (∀ u, u ∈ users → v ≠ u) as Hnv. { intros u H%Hus ->. by rewrite Ha in H. }
  intros H. enough (account_kept v (nd_db n) (nd_db n')) as [K1 K2] by (split; [done|apply K2]).
  revert H. apply (preserves_inv (λ n n' : Node, account_kept v (nd_db n) (nd_db n'))).
  pose proof (leave_all_rooms_account v Hv) as L. apply preserves_bind; [apply _| |account_tac; auto].
  generalize 0. induction users as [|u users IH]; intros c; cbn [for_fold]; [apply preserves_ret, _|].
  apply preserves_bind; [apply _| |intros; apply IH; set_solver].
  apply preserves_bind; [apply _| |intros; apply preserves_ret, _]. apply preserves_try_ok; [apply _|].
  apply ondb_account, deactivate_account_kept, Hnv. left.
Qed.

(** The same command makes accounts: a user id that the server does not know is not
    skipped but stored as a deactivated user, counted as deactivated, and so taken. *)
Theorem deactivate_all_creates u v w n :
  trim v = fence → trim w = fence → password_of (nd_db n) u = None →
  with_prefix (idb u ++ [sep]) (db_map (nd_db n) userdeviceid_metadata) = [] →
  ∃ n', deactivate_all_command false true [v; as_str u; w] n =
      (Ok (TextPlain (texts [lit "Deactivated "; u64_to_string 1; lit " accounts."])), n') ∧
    (exists_user u (nd_db n')).1 = Ok true.
Proof.
  intros Hv Hw Hu Hd. eexists. split.
  - unfold deactivate_all_command, code_block. cbn [length head last fmap option_fmap option_map]. rewrite Hv, Hw.
    rewrite !bool_decide_true by (done || lia). cbn [andb Nat.sub take drop parse_users]. rewrite parse_as_str.
    assert (ondb (retain_users true [u]) n = (Ok ([u], []), with_db (nd_db n) n)) as Er by (by apply ondb_run).
    rewrite (bind_Ok _ _ _ _ _ Er). cbn [for_fold].
    assert (deactivate_account u (nd_db n) = (Ok (), put userid_password (idb u) [] (nd_db n))) as Ed.
    { unfold deactivate_account, all_device_ids. rewrite (bind_Ok _ _ _ _ _ (bind_Ok _ _ _ _ _ (t_scan_prefix_run _ _ _))), Hd.
      cbn [fmap list_fmap for_each]. by rewrite bind_ret. }
    assert (try_ok (ondb (deactivate_account u)) (with_db (nd_db n) n) =
      (Ok (Some ()), with_db (put userid_password (idb u) [] (nd_db n)) n)) as Et.
    { unfold try_ok. erewrite ondb_run; [|exact Ed]. by destruct n as [[[]]]. }
    rewrite (bind_Ok _ _ _ _ _ (bind_Ok _ _ _ _ _ (bind_Ok _ _ _ _ _ Et))). reflexivity.
  - cbn [snd]. change (nd_db (with_db ?x _)) with x. unfold exists_user. rewrite (bind_Ok _ _ _ _ _ (t_get_run _ _ _)).
    rewrite db_map_put_eq, lookup_insert_eq. done.
Qed.

(** An appservice registration without an id ends the task of the admin room: reading it
    panics, so that no further command is ever answered. *)
Theorem registration_without_id_panics conduit room fuel message command_line body block yaml n :
  lines message = command_line :: body → parse_admin_command command_line = inl RegisterAppservice →
  code_block body = Some block → yaml_from_str (join_with newline block) = Some yaml → json_get (lit "id") yaml = None →
  ∃ p, admin_step (process_admin_message fuel) conduit room (ProcessMessage message) n = (Panic p, n).
Proof.
  intros Hl Hp Hb Hy Hi. eexists. unfold admin_step, process_admin_message. rewrite Hl, Hp. cbn [process_admin_command].
  unfold register_command. rewrite Hb. cbn zeta. rewrite Hy.
  assert (ondb (register_appservice yaml) n = (Panic "called `Option::unwrap()` on a `None` value", n)) as E.
  { unfold register_appservice. rewrite Hi. apply ondb_read. done. }
  unfold catch, mbind, M_bind. rewrite E. reflexivity.
Qed.

(** The command that creates users does not look at the server of the name: a full user
    id of another server becomes an account here, with the password of the command. *)
Theorem create_user_other_server (u : UserId) username password hash n :
  parse_with_server_name (to_lowercase username) server_name = Some u → user_server_name u ≠ server_name →
  is_historical u = false → password_of (nd_db n) u = None → argon2_hash password = Some hash →
  let '(r, n') := create_user_command username (Some password) n in
  password_of (nd_db n') u = Some (as_bytes hash).
Proof.
  intros Hp Hs Hh Hu Ha. destruct (create_user_command username (Some password) n) as [r n'] eqn:E.
  unfold create_user_command in E. rewrite bind_ret, Hp, Hh in E.
  assert (ondb (exists_user u) n = (Ok false, n)) as Ex.
  { apply ondb_read. unfold exists_user. rewrite (bind_Ok _ _ _ _ _ (t_get_run _ _ _)), Hu. done. }
  rewrite (bind_Ok _ _ _ _ _ Ex) in E. unfold create_account in E.
  assert (ondb (set_password u (Some password)) n = (Ok (), with_db (put userid_password (idb u) (as_bytes hash) (nd_db n)) n)) as Ep.
  { apply ondb_run. unfold set_password. rewrite Ha. apply t_insert_run. }
  unfold mbind at 1, M_bind at 1 in E. rewrite (bind_Ok _ _ _ _ _ Ep) in E. cbn zeta in E.
  match type of E with (match ?m ?s with _ => _ end) = _ =>
    assert (preserves (nagree [userid_displayname; global; roomuserdataid_accountdata; roomusertype_roomuserdataid]) m) as Hk end.
  { unfold set_displayname. pose proof account_update_keeps. node_tac. }
  specialize (Hk (with_db (put userid_password (idb u) (as_bytes hash) (nd_db n)) n)).
  match type of E with (match ?x with _ => _ end) = _ => destruct x as [o n1] end. cbn [snd] in Hk.
  assert (n' = n1) as -> by (by destruct o; injection E as _ <-).
  assert (db_map (nd_db n1) userid_password = db_map (put userid_password (idb u) (as_bytes hash) (nd_db n)) userid_password) as ->
    by (apply Hk; by_compute).
  by rewrite db_map_put_eq, lookup_insert_eq.
Qed.
End admin_command_theorems.
