(* ===== verification/Config.v ===== *)
(** * Configuration: proxies and the shared state of the server ([src/config/proxy.rs],
    [load] and [reqwest_client_builder] of [src/service/globals/mod.rs],
    [default_default_room_version] of [src/config/mod.rs])

    Which proxy a request goes through, and what is set up from the database and the
    configuration when the server starts. *)

From S2P Require Import Prelude Bytes RStr Error Utils KvTree Env Db Keys Globals Frames Timeline EventFormat TimelineService Federation EventHandler Admin ServerServer IpAddr Destination.

(** ** Domain names with a star *)

(** A domain name, that optionally allows a star as its first subdomain. *)
Inductive WildCardedDomain :=
  | WildCard
  | WildCarded (d : bytes)
  | Exact (d : bytes).
#[export] Instance WildCardedDomain_eq_dec : EqDecision WildCardedDomain.
Proof. solve_decision. Defined.

Definition ends_with (s t : bytes) : bool := bool_decide (t `suffix_of` s).

Definition matches (w : WildCardedDomain) (domain : bytes) : bool :=
  match w with
  | WildCard => true
  | WildCarded d => ends_with domain d
  | Exact d => bool_decide (domain = d)
  end.

Definition more_specific_than (w other : WildCardedDomain) : bool :=
  match w, other with
  | WildCard, WildCard => false
  | _, WildCard => true
  | Exact a, WildCarded _ => matches other a
  | WildCarded a, WildCarded b => bool_decide (a ≠ b) && ends_with a b
  | _, _ => false
  end.

Definition from_str (s : bytes) : WildCardedDomain :=
  if starts_with s b#"*." then WildCarded (drop 1 s)
  else if bool_decide (s = b#"*") then WildCarded []
  else Exact s.

(** ** Proxies *)

Section proxy.
(** The [url] crate, and [Proxy::all]. *)
Context {Url : Type} (domain : Url → option bytes) (proxy_all : Url → option (Url → option Url)).

Record PartialProxyConfig := MkPartialProxy {
  px_url : Url;
  px_include : list WildCardedDomain;
  px_exclude : list WildCardedDomain
}.

(** One round of the loops: the most specific reason so far. *)
Definition because (domain : bytes) (reason : option WildCardedDomain) (wc_domain : WildCardedDomain) : option WildCardedDomain :=
  if matches wc_domain domain then
    match reason with
    | Some prev => if negb (more_specific_than wc_domain prev) then reason else Some wc_domain
    | None => Some wc_domain
    end
  else reason.

Definition for_url (p : PartialProxyConfig) (url : Url) : option Url :=
  domain ← domain url;
  let included_because := if bool_decide (px_include p = []) then Some WildCard else None in
  let included_because := foldl (because domain) included_because (px_include p) in
  let excluded_because := foldl (because domain) None (px_exclude p) in
  match included_because, excluded_because with
  | Some a, Some b => if more_specific_than a b then Some (px_url p) else None
  | Some _, None => Some (px_url p)
  | _, _ => None
  end.

Inductive ProxyConfig :=
  | NoProxy
  | GlobalProxy (url : Url)
  | ByDomain (proxies : list PartialProxyConfig).

(** A proxy is a function of the URL of the request. *)
Definition to_proxy (c : ProxyConfig) : res (option (Url → option Url)) :=
  match c with
  | NoProxy => Ok None
  | GlobalProxy url => p ← ok_or (proxy_all url) ReqwestError; Ok (Some p)
  | ByDomain proxies => Ok (Some (λ url, head (omap (λ proxy, for_url proxy url) proxies)))
  end.
End proxy.
Arguments PartialProxyConfig : clear implicits.
Arguments ProxyConfig : clear implicits.

(** ** The shared state *)

Definition default_default_room_version : rstr := lit "9".

Section load.
Context {Ev : Env} {EL : EventLib} {CL : ContentLib} {NL : NetLib}.

(** What [load] sets up: the key pair and the version of new rooms.  Building the HTTP
    clients, the resolver and the media folder may fail ([setup]); all other fields
    start empty. *)
Record Loaded K := MkLoaded { ld_keypair : K; ld_default_room_version : rstr }.
Arguments MkLoaded {K}.

Definition load {K} (from_der : bytes → rstr → option K) (generated : bytes) (setup : res unit) (configured : rstr) : DB (Loaded K) :=
  r ← catch (load_keypair from_der generated);
  match r with
  | inr e => remove_keypair ;; fail e
  | inl keypair =>
      lift setup ;;
      mret (MkLoaded keypair
        (if bool_decide (configured ∈ supported_room_versions) then configured else default_default_room_version))
  end.

(** The [resolve_fn] of the federation client: the first address of an override. *)
Definition resolve_override (n : Net) (domain : bytes) : option SocketAddr :=
  '(override_name, port) ← tls_name_override n !! domain;
  first_name ← head override_name;
  Some (socket_new first_name port).
End load.

(** ** Theorems *)

(** How specific a rule is among those that match the same domain. *)
Definition rank (w : WildCardedDomain) : nat :=
  match w with WildCard => 0 | WildCarded d => 1 + length d | Exact d => 2 + length d end.

Lemma suffix_length_eq (a b d : bytes) : a `suffix_of` d → b `suffix_of` d → (length b ≤ length a)%nat → b `suffix_of` a.
Proof.
  intros [x ->] [y E] Hl. assert (length x ≤ length y)%nat as Hxy.
  { apply (f_equal length) in E. rewrite !length_app in E. lia. }
  exists (drop (length x) y). apply (f_equal (drop (length x))) in E.
  rewrite drop_app_length in E. by rewrite drop_app_le in E.
Qed.
Lemma suffix_same (a b : bytes) : a `suffix_of` b → length a = length b → a = b.
Proof. intros [x ->] Hl. rewrite length_app in Hl. by destruct x; [|cbn in Hl; lia]. Qed.

(** The comparison of two rules that match is that of their ranks. *)
Lemma more_specific_rank a b d : matches a d = true → matches b d = true →
  more_specific_than a b = bool_decide (rank b < rank a)%nat.
Proof.
  destruct a as [|a|a], b as [|b|b]; cbn; intros Ha Hb; try done; unfold ends_with in *;
    rewrite ?bool_decide_eq_true in *; subst.
  - case_bool_decide as E; cbn.
    + case_bool_decide as Es; symmetry; [apply bool_decide_true|apply bool_decide_false].
      * pose proof (suffix_length _ _ Es). destruct (decide (length a = length b)) as [El|]; [|lia].
        destruct E. symmetry. by apply suffix_same.
      * intros Hl. apply Es. eapply (suffix_length_eq a b d); [done..|lia].
    + symmetry. apply bool_decide_false. subst. lia.
  - symmetry. apply bool_decide_false. intros H. pose proof (suffix_length _ _ Ha). lia.
  - rewrite (bool_decide_true (b `suffix_of` a)) by done. symmetry. apply bool_decide_true.
    pose proof (suffix_length _ _ Hb). lia.
  - symmetry. apply bool_decide_false. lia.
Qed.

(** The loops find a rule of the greatest rank among those that match. *)
Definition best (d : bytes) (l : list WildCardedDomain) (o : option WildCardedDomain) : Prop :=
  match o with
  | Some w => w ∈ l ∧ matches w d = true ∧ ∀ w', w' ∈ l → matches w' d = true → (rank w' ≤ rank w)%nat
  | None => ∀ w', w' ∈ l → matches w' d = false
  end.
Lemma because_best d l o w : best d l o → best d (l ++ [w]) (because d o w).
Proof.
  intros H. unfold because. destruct (matches w d) eqn:Ew.
  - destruct o as [v|]; cbn in H.
    + destruct H as (Hv & Hm & Hmax). rewrite (more_specific_rank w v d) by done. case_bool_decide as Hr; cbn.
      * split_and!; [set_solver|done|]. intros w' [Hw'| ->%list_elem_of_singleton]%elem_of_app Hm'; [|done].
        specialize (Hmax w' Hw' Hm'). lia.
      * split_and!; [set_solver|done|]. intros w' [Hw'| ->%list_elem_of_singleton]%elem_of_app Hm'; [by apply Hmax|lia].
    + split_and!; [set_solver|done|]. intros w' [Hw'| ->%list_elem_of_singleton]%elem_of_app Hm'; [|done].
      by rewrite (H w' Hw') in Hm'.
  - destruct o as [v|]; cbn in H |- *.
    + destruct H as (Hv & Hm & Hmax). split_and!; [set_solver|done|].
      intros w' [Hw'| ->%list_elem_of_singleton]%elem_of_app Hm'; [by apply Hmax|congruence].
    + intros w' [Hw'| ->%list_elem_of_singleton]%elem_of_app; [by apply H|done].
Qed.
Lemma fold_best d l l0 o : best d l0 o → best d (l0 ++ l) (foldl (because d) o l).
Proof.
  revert l0 o. induction l as [|w l IH]; intros l0 o H; cbn [foldl]; [by rewrite app_nil_r|].
  replace (l0 ++ w :: l) with ((l0 ++ [w]) ++ l) by (by rewrite <- app_assoc). apply IH. by apply because_best.
Qed.

Section proxy_theorems.
Context {Url : Type} (domain : Url → option bytes).
Implicit Types (p : PartialProxyConfig Url) (url : Url).

(** The rules by which a URL can be included. *)
Definition include_rules p : list WildCardedDomain := if bool_decide (px_include p = []) then [WildCard] else px_include p.

Lemma for_url_Some p url :
  for_url domain p url = Some (px_url p) ↔
  ∃ d r, domain url = Some d ∧ r ∈ include_rules p ∧ matches r d = true ∧
    ∀ x, x ∈ px_exclude p → matches x d = true → more_specific_than r x = true.
Proof.
  unfold for_url. destruct (domain url) as [d|]; cbn [mbind option_bind]; [|naive_solver].
  assert (best d (include_rules p) (foldl (because d) (if bool_decide (px_include p = []) then Some WildCard else None) (px_include p))) as Hi.
  { unfold include_rules. case_bool_decide as E; [rewrite E; cbn|].
    - split_and!; [left|done|]. by intros w' ->%list_elem_of_singleton.
    - apply (fold_best d (px_include p) [] None). by intros w' ?%not_elem_of_nil. }
  pose proof (fold_best d (px_exclude p) [] None ltac:(by intros w' ?%not_elem_of_nil)) as He. cbn [app] in He.
  destruct (foldl _ _ (px_include p)) as [a|]; cbn in Hi.
  - destruct Hi as (Ha & Hma & Hmax). destruct (foldl _ None (px_exclude p)) as [b|]; cbn in He.
    + destruct He as (Hb & Hmb & Hbmax). rewrite (more_specific_rank a b d) by done. case_bool_decide as Hr.
      * split; [|done]. intros _. exists d, a. split_and!; [done..|]. intros x Hx Hmx.
        rewrite (more_specific_rank a x d) by done. apply bool_decide_true. specialize (Hbmax x Hx Hmx). lia.
      * split; [done|]. intros (d' & r & [= <-] & Hin & Hmr & Hx). specialize (Hx b Hb Hmb).
        rewrite (more_specific_rank r b d) in Hx by done. apply bool_decide_eq_true in Hx. specialize (Hmax r Hin Hmr). lia.
    + split; [|done]. intros _. exists d, a. split_and!; [done..|]. intros x Hx Hmx. rewrite (He x Hx) in Hmx. done.
  - split; [by destruct (foldl _ None (px_exclude p))|]. intros (d' & r & [= <-] & Hin & Hmr & _).
    by rewrite (Hi r Hin) in Hmr.
Qed.

(** A proxy is used exactly if some rule includes the domain for a more
    specific reason than every rule that excludes it, whatever the order of the rules;
    an empty list of rules includes everything. *)
Theorem proxy_most_specific p url :
  for_url domain p url = Some (px_url p) ↔
  ∃ d r, domain url = Some d ∧ r ∈ include_rules p ∧ matches r d = true ∧
    ∀ x, x ∈ px_exclude p → matches x d = true → more_specific_than r x = true.
Proof. apply for_url_Some. Qed.

Lemma for_url_cases p url : for_url domain p url = Some (px_url p) ∨ for_url domain p url = None.
Proof.
  unfold for_url. destruct (domain url); cbn [mbind option_bind]; [|by right].
  repeat case_match; auto.
Qed.

(** As the documentation says, no rule means the rule [*]: for exclusions that can be
    written, an empty list of inclusions and the list with [*] alone do the same. *)
Theorem empty_include_is_star url0 exclude url :
  for_url domain (MkPartialProxy url0 [] (from_str <$> exclude)) url =
  for_url domain (MkPartialProxy url0 [from_str b#"*"] (from_str <$> exclude)) url.
Proof.
  set (p := MkPartialProxy url0 [] _). set (q := MkPartialProxy url0 [_] _).
  assert (for_url domain p url = Some (px_url p) ↔ for_url domain q url = Some (px_url q)) as H.
  { rewrite !for_url_Some. unfold include_rules. cbn [px_include px_exclude p q].
    rewrite bool_decide_true by done. rewrite bool_decide_false by done.
    assert (∀ d x, x ∈ from_str <$> exclude → matches x d = true → more_specific_than WildCard x = false ∧
      more_specific_than (from_str b#"*") x = false) as Hx.
    { intros d x (s & -> & _)%list_elem_of_fmap _. change (from_str b#"*") with (WildCarded []). unfold from_str.
      case_match; [|case_match]; cbn; [|done..]. split; [done|]. destruct (bool_decide _) eqn:E; [|done]. cbn.
      unfold ends_with. apply bool_decide_false. intros [k Hk]. apply bool_decide_eq_true in E. apply E.
      symmetry in Hk. by apply app_nil in Hk as [_ ->]. }
    split; intros (d & r & Hd & ->%list_elem_of_singleton & _ & Hall).
    - exists d, (from_str b#"*"). split_and!; [done|left|by apply bool_decide_true, suffix_nil|].
      intros x Hin Hm. destruct (Hx d x Hin Hm) as [H0 _]. by rewrite (Hall x Hin Hm) in H0.
    - exists d, WildCard. split_and!; [done|left|done|].
      intros x Hin Hm. destruct (Hx d x Hin Hm) as [_ H0]. by rewrite (Hall x Hin Hm) in H0. }
  destruct (for_url_cases p url) as [E|E], (for_url_cases q url) as [E'|E']; rewrite E, E'; try done.
  - apply H in E. congruence.
  - apply H in E'. congruence.
Qed.
End proxy_theorems.

(** The example of the documentation. *)
Example proxy_example :
  let p := MkPartialProxy b#"socks5h" (from_str <$> [b#"*.onion"; b#"matrix.myspecial.onion"]) [from_str b#"*.myspecial.onion"] in
  (λ d : bytes, bool_decide (for_url Some p d = Some b#"socks5h")) <$>
    [b#"ordinary.onion"; b#"matrix.myspecial.onion"; b#"hello.myspecial.onion"; b#"example.org"] = [true; true; false; false].
Proof. vm_compute. reflexivity. Qed.

Section load_theorems.
Context {Ev : Env} {EL : EventLib} {CL : ContentLib} {K : Type}.
Implicit Types s : State.

Lemma default_version_supported : default_default_room_version ∈ supported_room_versions.
Proof.
  unfold supported_room_versions. apply elem_of_app. left. apply (bool_decide_unpack _). vm_compute. exact I.
Qed.

(** New rooms get a version that the server supports, whatever is configured. *)
Theorem load_version_supported (from_der : bytes → rstr → option K) generated setup configured s l s' :
  load from_der generated setup configured s = (Ok l, s') → ld_default_room_version K l ∈ supported_room_versions.
Proof.
  unfold load. intros H. run_inv H r s1 E. destruct r as [k|e]; [|run_inv H u s2 E2; done].
  run_inv H u s2 E2. injection H as <- _. cbn. case_bool_decide; [done|apply default_version_supported].
Qed.

(** A stored key pair that cannot be read is thrown away: the start fails once, and the
    next one makes a new pair, so that the server loses its identity. *)
Theorem bad_keypair_replaced (from_der : bytes → rstr → option K) generated setup configured e s s1 :
  load_keypair from_der generated s = (Err e, s1) →
  ∃ s', load from_der generated setup configured s = (Err e, s') ∧ db_map s' global !! b#"keypair" = None.
Proof.
  intros H. eexists. unfold load. rewrite (bind_Ok _ _ _ (inr e) s1); [|unfold catch; by rewrite H].
  unfold remove_keypair. rewrite (bind_Ok _ _ _ _ _ (t_remove_run _ _ _)). split; [reflexivity|].
  by rewrite db_map_del_eq, lookup_delete_eq.
Qed.
End load_theorems.
