(* ===== verification/Concrete.v ===== *)
(** * A concrete environment

    An instance of every class of [Env.v], built on the finite-map engine of
    [Engines.v].  It shows that the documented behaviours assumed of third-party
    code are consistent together, and the examples and witnesses of the
    development are evaluated in it.  It says nothing about those libraries. *)

From S2P Require Import Prelude Bytes RStr Error Utils KvTree Engines Env Db Decimal StateCache EventFormat TimelineService Federation Admin.

(** ** Serialisation: an injective encoding to bytes *)

Fixpoint pos_bytes (p : positive) : bytes :=
  match p with
  | xH => []
  | xO p => x30 :: pos_bytes p
  | xI p => x31 :: pos_bytes p
  end.

Fixpoint bytes_pos (b : bytes) : option positive :=
  match b with
  | [] => Some xH
  | x30 :: b => xO <$> bytes_pos b
  | x31 :: b => xI <$> bytes_pos b
  | _ => None
  end.

Lemma bytes_pos_bytes p : bytes_pos (pos_bytes p) = Some p.
Proof. induction p as [p IH|p IH|]; cbn; [by rewrite IH..|done]. Qed.

Program Definition countable_serde {A} `{Countable A} : Serde A := {|
  to_vec a := pos_bytes (encode a);
  from_slice b := bytes_pos b ≫= decode |}.
Next Obligation. intros A ? ? a. cbn. rewrite bytes_pos_bytes. cbn. apply decode_encode. Qed.

(** JSON values as generic trees. *)
Fixpoint json_tree (v : json) : gen_tree (unit + bool + rstr + rstr) :=
  match v with
  | JNull => GenLeaf (inl (inl (inl ())))
  | JBool b => GenLeaf (inl (inl (inr b)))
  | JNum n => GenLeaf (inl (inr n))
  | JStr s => GenLeaf (inr s)
  | JArr l => GenNode 0 (json_tree <$> l)
  | JObj l => GenNode 1 ((λ '(k, v), GenNode 2 [GenLeaf (inr k); json_tree v]) <$> l)
  end.

Fixpoint tree_json (t : gen_tree (unit + bool + rstr + rstr)) : json :=
  match t with
  | GenLeaf (inl (inl (inl ()))) => JNull
  | GenLeaf (inl (inl (inr b))) => JBool b
  | GenLeaf (inl (inr n)) => JNum n
  | GenLeaf (inr s) => JStr s
  | GenNode 0 l => JArr (tree_json <$> l)
  | GenNode _ l =>
      JObj ((λ t, match t with
                  | GenNode _ [GenLeaf (inr k); t] => (k, tree_json t)
                  | _ => (lit "", JNull)
                  end) <$> l)
  end.

Lemma tree_json_tree v : tree_json (json_tree v) = v.
Proof.
  revert v. fix IH 1. intros [|b|n|s|l|l]; [reflexivity..| |]; cbn; f_equal.
  - induction l as [|v l IHl]; [reflexivity|]. cbn. by rewrite IH, IHl.
  - induction l as [|[k v] l IHl]; [reflexivity|]. cbn. by rewrite IH, IHl.
Qed.

#[export] Instance json_eq_dec : EqDecision json.
Proof.
  refine (λ a b, cast_if (decide (json_tree a = json_tree b))).
  - abstract (rewrite <- (tree_json_tree a), <- (tree_json_tree b); congruence).
  - abstract congruence.
Defined.
#[export] Instance json_countable : Countable json :=
  inj_countable' json_tree tree_json tree_json_tree.

#[export] Instance Device_eq_dec : EqDecision Device.
Proof. solve_decision. Defined.
#[export, refine] Instance Device_countable : Countable Device :=
  inj_countable' (λ d, (device_id d, display_name d, last_seen_ip d, last_seen_ts d))
    (λ '(a, b, c, e), Build_Device a b c e) _.
Proof. by intros []. Defined.

#[export, refine] Instance ErrorKind_countable : Countable ErrorKind :=
  inj_countable'
    (λ k, match k with
          | Forbidden => inl 0 | GuestAccessForbidden => inl 1 | ThreepidAuthFailed => inl 2
          | ThreepidDenied => inl 3 | Unauthorized => inl 4 | UnknownToken true => inl 5
          | UnknownToken false => inl 6 | MissingToken => inl 7 | NotFound => inl 8
          | Unrecognized => inl 9 | LimitExceeded => inl 10 | UserDeactivated => inl 11
          | TooLarge => inl 12 | InvalidParam => inl 13 | InvalidUsername => inl 14
          | UserInUse => inl 15 | RoomInUse => inl 16 | Exclusive => inl 17 | BadJson => inl 18
          | NotJson => inl 19 | MissingParam => inl 20 | BadState => inl 22 | UnsupportedRoomVersion => inl 23
          | UnableToAuthorizeJoin => inl 24 | IncompatibleRoomVersion v => inr (inl v)
          | Unknown => inl 21 | OtherKind c => inr (inr c)
          end)
    (λ s : N + (rstr + rstr), match s with
          | inl 0 => Forbidden | inl 1 => GuestAccessForbidden | inl 2 => ThreepidAuthFailed
          | inl 3 => ThreepidDenied | inl 4 => Unauthorized | inl 5 => UnknownToken true
          | inl 6 => UnknownToken false | inl 7 => MissingToken | inl 8 => NotFound
          | inl 9 => Unrecognized | inl 10 => LimitExceeded | inl 11 => UserDeactivated
          | inl 12 => TooLarge | inl 13 => InvalidParam | inl 14 => InvalidUsername
          | inl 15 => UserInUse | inl 16 => RoomInUse | inl 17 => Exclusive | inl 18 => BadJson
          | inl 19 => NotJson | inl 20 => MissingParam | inl 22 => BadState | inl 23 => UnsupportedRoomVersion
          | inl 24 => UnableToAuthorizeJoin | inr (inl v) => IncompatibleRoomVersion v
          | inl _ => Unknown | inr (inr c) => OtherKind c
          end) _.
Proof. intros k. destruct k as [| | | | |[|]| | | | | | | | | | | | | | | | | | | |]; reflexivity. Defined.

#[export] Instance StandardErrorBody_eq_dec : EqDecision StandardErrorBody.
Proof. solve_decision. Defined.
#[export, refine] Instance StandardErrorBody_countable : Countable StandardErrorBody :=
  inj_countable' (λ b, (eb_kind b, eb_message b)) (λ '(k, m), Build_StandardErrorBody k m) _.
Proof. by intros []. Defined.

#[export, refine] Instance AuthType_countable : Countable AuthType :=
  inj_countable' (λ a, match a with APassword => inl true | ADummy => inl false | AOther t => inr t end)
    (λ s : bool + rstr, match s with inl true => APassword | inl false => ADummy | inr t => AOther t end) _.
Proof. by intros []. Defined.

#[export] Instance UiaaInfo_eq_dec : EqDecision UiaaInfo.
Proof. solve_decision. Defined.
#[export, refine] Instance UiaaInfo_countable : Countable UiaaInfo :=
  inj_countable' (λ u, (ui_flows u, ui_completed u, ui_params u, ui_session u, ui_auth_error u))
    (λ '(a, b, c, d, e), Build_UiaaInfo a b c d e) _.
Proof. by intros []. Defined.

(** ** An LRU cache: the pairs, most recent first, cut at the capacity *)

Module AssocLru.
Record t (K V : Type) := Mk { cap : nat; items : list (K * V) }.
Arguments Mk {K V}. Arguments cap {K V}. Arguments items {K V}.

Section ops.
Context {K V : Type} `{!EqDecision K}.

Fixpoint find (k : K) (l : list (K * V)) : option V :=
  match l with
  | [] => None
  | (k', v) :: l => if decide (k = k') then Some v else find k l
  end.
Definition without (k : K) (l : list (K * V)) : list (K * V) := filter (λ e, e.1 ≠ k) l.
Definition insert (k : K) (v : V) (c : t K V) : t K V :=
  Mk (cap c) (take (cap c) ((k, v) :: without k (items c))).
Definition get_mut (k : K) (c : t K V) : option V * t K V :=
  match find k (items c) with
  | Some v => (Some v, Mk (cap c) ((k, v) :: without k (items c)))
  | None => (None, c)
  end.

Lemma find_without k k' l :
  find k (without k' l) = if decide (k = k') then None else find k l.
Proof.
  unfold without. induction l as [|[k1 v1] l IH]; [by case_decide|].
  rewrite filter_cons. cbn [fst]. destruct (decide (k1 ≠ k')) as [Hne|He].
  - cbn. rewrite IH. repeat case_decide; naive_solver.
  - apply dec_stable in He as ->. rewrite IH. cbn. repeat case_decide; naive_solver.
Qed.
Lemma find_take n k l v : find k (take n l) = Some v → find k l = Some v.
Proof.
  revert n. induction l as [|[k1 v1] l IH]; intros [|n]; cbn; try done.
  case_decide; [done|]. apply IH.
Qed.
End ops.
End AssocLru.

#[export, program] Instance assoc_lru : LruLib := {|
  LruCache := AssocLru.t;
  lru_new K V n := AssocLru.Mk (N.to_nat n) [];
  lru_get_mut K V _ k c := AssocLru.get_mut k c;
  lru_insert K V _ k v c := AssocLru.insert k v c;
  lru_peek K V _ c k := AssocLru.find k (AssocLru.items c) |}.
Next Obligation. done. Qed.
Next Obligation.
  intros K V ? k c. unfold AssocLru.get_mut. by destruct (AssocLru.find k _).
Qed.
Next Obligation.
  intros K V ? k k' c. unfold AssocLru.get_mut.
  destruct (AssocLru.find k _) eqn:E; [|done]. cbn. rewrite AssocLru.find_without.
  case_decide; [by subst|done].
Qed.
Next Obligation.
  intros K V ? k k' v w c H. apply AssocLru.find_take in H. cbn in H.
  rewrite AssocLru.find_without in H. case_decide; [left; naive_solver|by right].
Qed.

(** ** Identifiers: the sigil and, for users and aliases, a colon *)

Definition sigil (c : byte) (s : rstr) : bool := bool_decide (head (as_bytes s) = Some c).
Definition has_colon (s : rstr) : bool := bool_decide (x3a ∈ as_bytes s).
Definition after_colon (bs : bytes) : bytes :=
  match list_find (λ b, b = x3a) bs with Some (i, _) => drop (S i) bs | None => [] end.
Definition before_colon (bs : bytes) : bytes :=
  match list_find (λ b, b = x3a) bs with Some (i, _) => take i bs | None => bs end.
Definition to_str (bs : bytes) : rstr := default (lit "") (from_utf8 bs).

#[export] Instance sigil_ruma : Ruma := {|
  valid_user_id s := sigil x40 s && has_colon s;
  valid_room_id s := sigil x21 s;
  valid_event_id s := sigil x24 s;
  valid_server_name s := negb (sigil x2b s) && negb (sigil x24 s);
  valid_room_alias_id s := sigil x23 s && has_colon s;
  user_server_name u := default (MkId (lit "a.org") eq_refl) (parse_id _ (to_str (after_colon (as_bytes (as_str u)))));
  alias_localpart a := to_str (drop 1 (before_colon (as_bytes (as_str a))));
  parse_with_server_name s n :=
    if sigil x40 s then parse_id _ s
    else parse_id _ (to_str (x40 :: as_bytes s ++ x3a :: as_bytes (as_str n)));
  valid_device_key_id s := has_colon s;
  device_key_algorithm i := to_str (before_colon (as_bytes (as_str i))) |}.

#[export] Instance PduEvent_eq_dec : EqDecision PduEvent.
Proof. solve_decision. Defined.
(** A list of encodings is shorter than that of a tuple, which doubles with every
    component. *)
Definition pdu_parts (p : @PduEvent sigil_ruma) : list positive :=
  [encode (event_id p); encode (room_id p); encode (sender p); encode (origin_server_ts p); encode (kind p);
   encode (content p); encode (state_key p); encode (prev_events p); encode (depth p); encode (auth_events p);
   encode (redacts p); encode (unsigned p); encode (hashes p); encode (signatures p)].
Definition parts_pdu (l : list positive) : option (@PduEvent sigil_ruma) :=
  match l with
  | [a; b; c; d; e; f; g; h; i; j; k; l; m; n] =>
      a ← decode a; b ← decode b; c ← decode c; d ← decode d; e ← decode e; f ← decode f; g ← decode g; h ← decode h;
      i ← decode i; j ← decode j; k ← decode k; l ← decode l; m ← decode m; n ← decode n;
      Some (Build_PduEvent a b c d e f g h i j k l m n)
  | _ => None
  end.
Lemma parts_pdu_parts p : parts_pdu (pdu_parts p) = Some p.
Proof. unfold parts_pdu, pdu_parts. rewrite !decode_encode. by destruct p. Qed.
#[export] Instance PduEvent_countable : Countable (@PduEvent sigil_ruma) := inj_countable pdu_parts parts_pdu parts_pdu_parts.

#[export, refine] Instance PresenceState_countable : Countable PresenceState :=
  inj_countable'
    (λ p, match p with
          | Online => inl 0 | Offline => inl 1 | Unavailable => inl 2 | OtherPresence p => inr p
          end)
    (λ s : N + rstr, match s with
          | inl 0 => Online | inl 1 => Offline | inl _ => Unavailable | inr p => OtherPresence p
          end) _.
Proof. by intros []. Defined.
#[export] Instance PresenceEvent_eq_dec : EqDecision PresenceEvent.
Proof. solve_decision. Defined.
#[export, refine] Instance PresenceEvent_countable : Countable PresenceEvent :=
  inj_countable' (λ p, (pe_sender p, pe_presence p, pe_last_active_ago p, pe_status_msg p, pe_displayname p, pe_avatar_url p,
                        pe_currently_active p))
    (λ '(a, b, c, d, e, f, g), Build_PresenceEvent _ a b c d e f g) _.
Proof. by intros []. Defined.

(** A JSON string with its quotation marks. *)
Definition unquote {valid} (b : bytes) : option (identifier valid) :=
  match b with
  | x22 :: b => from_utf8 (take (length b - 1) b) ≫= parse_id valid
  | _ => None
  end.
#[export, refine] Instance quoted_serde {valid} : Serde (identifier valid) := {|
  to_vec i := x22 :: idb i ++ [x22];
  from_slice := unquote |}.
Proof.
  intros i. unfold unquote. rewrite length_app, Nat.add_sub, take_app_length. unfold idb.
  rewrite from_utf8_as_bytes. cbn. apply parse_as_str.
Defined.

Lemma pos_bytes_ascii p : utf8_valid (pos_bytes p) = true.
Proof. induction p as [p IH|p IH|]; [done..|reflexivity]. Qed.

#[export] Instance text_raw : RawLib :=
  {| Raw := rstr; raw_text := as_bytes; raw_from_slice := from_utf8; raw_from_text := from_utf8_as_bytes |}.

(** A canonical object is an event with its fields, and is read as the event. *)
#[export, refine] Instance event_serde : Serde PduEvent := {|
  to_vec p := pos_bytes (encode (p, [] : list (rstr * json)));
  from_slice b := fst <$> (bytes_pos b ≫= decode : option (PduEvent * list (rstr * json))) |}.
Proof. intros p. rewrite bytes_pos_bytes. cbn [mbind option_bind]. by rewrite decode_encode. Defined.

#[export, program] Instance concrete_env : Env := {|
  env_kv := Rocks.kvtree;
  env_lru := assoc_lru;
  env_ruma := sigil_ruma;
  env_raw := text_raw;
  server_name := MkId (lit "a.org") eq_refl;
  sha256 b := b;
  argon2_hash p := Some (to_str (x24 :: as_bytes p));
  argon2_verify h p := Some (bool_decide (as_bytes h = x24 :: as_bytes p));
  CanonicalJsonObject := PduEvent * list (rstr * json);
  canonical_remove k o := (o.1, obj_remove k o.2);
  canonical_to_raw o := to_str (pos_bytes (encode o));
  env_cjson := countable_serde;
  env_pdu := event_serde;
  env_json := countable_serde;
  env_device := countable_serde;
  env_uiaainfo := countable_serde;
  env_raws := countable_serde (A := list rstr);
  env_unsigned := countable_serde (A := list (rstr * rstr));
  env_dkid := quoted_serde;
  env_presence := countable_serde;
  FilterDefinition := rstr;
  env_filter := countable_serde;
  ReceiptEvent := rstr;
  env_receipt := countable_serde;
  to_raw_value j := MkStr (pos_bytes (encode j)) (pos_bytes_ascii _);
  pdu_to_value p := JStr (as_str (event_id p));
  cross_signing_key_ids r := Some [r];
  Regex := rstr;
  regex_new := Some;
  is_match r s := bool_decide (r = s);
  yaml_to_string y := Some (MkStr (pos_bytes (encode y)) (pos_bytes_ascii _));
  yaml_from_slice b := bytes_pos b ≫= decode;
  Pusher := rstr;
  pushkey p := p;
  pusher_post_to_vec p a := x30 :: pos_bytes (encode p);
  pusher_from_slice b := bytes_pos (drop 1 b) ≫= decode;
  alphanumeric_words s := filter (λ w, as_bytes w ≠ []) [s];
  to_lowercase s := s |}.
Next Obligation.
  intros p h. cbn. intros [= <-]. unfold to_str.
  assert (from_utf8 (x24 :: as_bytes p) = Some (MkStr (x24 :: as_bytes p) (as_bytes_utf8 p))) as ->.
  { by apply from_utf8_Some. }
  done.
Qed.
Next Obligation. done. Qed.
Next Obligation. intros y t [= <-]. cbn. rewrite bytes_pos_bytes. cbn. apply decode_encode. Qed.
Next Obligation. intros p a. cbn. rewrite drop_0, bytes_pos_bytes. cbn. apply decode_encode. Qed.

#[export, refine] Instance MembershipState_countable : Countable MembershipState :=
  inj_countable'
    (λ m, match m with
          | MJoin => inl 0 | MInvite => inl 1 | MLeave => inl 2 | MBan => inl 3 | MKnock => inl 4 | MOther s => inr s
          end)
    (λ s : N + rstr, match s with
          | inl 0 => MJoin | inl 1 => MInvite | inl 2 => MLeave | inl 3 => MBan | inl _ => MKnock | inr s => MOther s
          end) _.
Proof. by intros []. Defined.
Definition member_parts (c : @RoomMemberEventContent concrete_env) : list positive :=
  [encode (rm_membership c); encode (rm_displayname c); encode (rm_avatar_url c); encode (rm_is_direct c);
   encode (rm_third_party_invite c); encode (rm_blurhash c); encode (rm_reason c);
   encode (rm_join_authorized_via_users_server c)].
Definition parts_member (l : list positive) : option (@RoomMemberEventContent concrete_env) :=
  match l with
  | [a; b; c; d; e; f; g; h] =>
      a ← decode a; b ← decode b; c ← decode c; d ← decode d; e ← decode e; f ← decode f; g ← decode g; h ← decode h;
      Some (MkMember a b c d e f g h)
  | _ => None
  end.
Lemma parts_member_parts c : parts_member (member_parts c) = Some c.
Proof. unfold parts_member, member_parts. rewrite !decode_encode. by destruct c. Qed.
#[export] Instance Member_eq_dec : EqDecision (@RoomMemberEventContent concrete_env).
Proof.
  refine (λ a b, cast_if (decide (member_parts a = member_parts b))).
  - abstract (apply (inj Some); rewrite <- !parts_member_parts; congruence).
  - abstract congruence.
Defined.
#[export] Instance Member_countable : Countable (@RoomMemberEventContent concrete_env) :=
  inj_countable member_parts parts_member parts_member_parts.

(** The content of a member event: the letter [m] and an encoding, or only the name
    of the membership. *)
Definition read_member (b : bytes) : option (@RoomMemberEventContent concrete_env) :=
  match b with
  | x6d :: b => bytes_pos b ≫= decode
  | _ =>
      if decide (b = b#"join") then Some (plain_member MJoin None)
      else if decide (b = b#"leave") then Some (plain_member MLeave None)
      else if decide (b = b#"invite") then Some (plain_member MInvite None) else None
  end.
Definition write_member (c : RoomMemberEventContent) : bytes := x6d :: pos_bytes (encode c).
Lemma read_write_member c : read_member (write_member c) = Some c.
Proof. cbn [read_member write_member]. rewrite bytes_pos_bytes. cbn [mbind option_bind]. apply decode_encode. Qed.

(** The content of a create event: an object with the version, or only the version. *)
Definition read_version (b : bytes) : rstr :=
  match (bytes_pos b ≫= decode : option (PduEvent * list (rstr * json))) with
  | Some o => default (to_str b) (obj_get (lit "room_version") o.2 ≫= as_string)
  | None => to_str b
  end.

(** The auth types of every event are those of the sender; an event is named by its
    type and its depth. *)
#[export, refine] Instance concrete_events : EventLib := {|
  canonical_get k o := obj_get k o.2;
  canonical_insert k v o := (o.1, obj_insert k v o.2);
  pdu_of_canonical o := Some o.1;
  extract_membership b := rm_membership <$> read_member b;
  create_content b := Some {| cc_room_version := read_version b; cc_predecessor := None |};
  direct_event r := Some [];
  direct_to_value l := JNull;
  ignored_users r := Some [];
  auth_types_for_event k u sk c := Some [(lit "m.room.create", lit ""); (lit "m.room.member", as_str u)];
  reference_hash o v := Some (str_app (kind o.1) (u64_to_string (depth o.1))) |}.
Proof.
  - intros k k' v o. apply obj_get_insert.
  - intros k k' o. apply obj_get_remove.
Defined.

(** The empty database. *)
Definition empty_state : State :=
  MkState (λ _, tree_empty) (lru_new 100) (lru_new 100) (lru_new 100) (lru_new 100) (lru_new 100)
    (lru_new 100) (lru_new 100) ∅ ∅ ∅ ∅ ∅ 0.

(** Identifiers for examples. *)
Definition mk_user (s : string) : identifier (@valid_user_id (@env_ruma concrete_env)) := default (MkId (lit "@_:_") eq_refl) (parse_id _ (lit s)).
Definition mk_room (s : string) : identifier (@valid_room_id (@env_ruma concrete_env)) := default (MkId (lit "!_") eq_refl) (parse_id _ (lit s)).
Definition mk_event (s : string) : identifier (@valid_event_id (@env_ruma concrete_env)) := default (MkId (lit "$_") eq_refl) (parse_id _ (lit s)).
Definition mk_alias (s : string) : identifier (@valid_room_alias_id (@env_ruma concrete_env)) :=
  default (MkId (lit "#_:_") eq_refl) (parse_id _ (lit s)).
Definition mk_server (s : string) : identifier (@valid_server_name (@env_ruma concrete_env)) :=
  default (MkId (lit "a.org") eq_refl) (parse_id _ (lit s)).

(** The outcome and the final state of a run. *)
Definition run {A} (m : DB A) (s : State) : res A := (m s).1.
Definition after {A} (m : DB A) (s : State) : State := (m s).2.

(** Everybody may do everything except send events of type [forbidden]; signing
    leaves the object as it is. *)
#[export, refine] Instance concrete_timeline : TimelineLib := {|
  Ruleset := unit;
  push_rules_global r := Some ();
  server_default u := ();
  ruleset_get_actions s r c := [Notify; SetTweak (Highlight true)];
  localpart u := to_str (before_colon (as_bytes (as_str u)));
  power_levels_content b := Some {| pl_users := []; pl_users_default := 0%Z; pl_notifications_room := 50%Z |};
  default_power_levels := {| pl_users := []; pl_users_default := 0%Z; pl_notifications_room := 50%Z |};
  extract_body b := if decide (b = b#"bad") then None else Some (from_utf8 b);
  canonical_of_content b := Some [];
  canonical_of_pdu p := Some (p, []);
  room_version_supported v := true;
  auth_check v p f := Some (bool_decide (kind p ≠ lit "forbidden"));
  hash_and_sign_event o v := inl o;
  uint_add := N.add;
  placeholder_id := mk_event "$thiswillbefilledinlater";
  default_room_version := lit "9";
  emergency_password := None |}.
Proof.
  - done.
  - by_compute.
Defined.
