(* ===== verification/ConcreteApi.v ===== *)
(** * A concrete environment for the routes

    Instances of the classes of [Federation.v], [EventHandler.v], [Request.v],
    [Admin.v], [Account.v], [Rooms.v] and [ServerServer.v], on top of the
    environment of [Concrete.v].  The outside is a list of answers; a signature is
    valid if the keys of the server it names are known. *)

From S2P Require Import Prelude Bytes RStr Error Utils KvTree Engines Env Db Concrete Decimal Pdu StateCache EventFormat SendingService TimelineService Federation EventHandler Request Admin Account Rooms ServerServer Sync.

(** ** The outside *)

#[export] Instance SigningKeys_eq_dec : EqDecision (@ServerSigningKeys sigil_ruma).
Proof. solve_decision. Defined.
#[export, refine] Instance SigningKeys_countable : Countable (@ServerSigningKeys sigil_ruma) :=
  inj_countable' (λ k, (sk_server_name k, sk_verify_keys k, sk_old_verify_keys k, sk_signatures k, sk_valid_until_ts k))
    (λ '(a, b, c, d, e), MkSigningKeys _ a b c d e) _.
Proof. by intros []. Defined.

(** What the other servers answer: events by their id, keys by the name of the
    server, the ids of a state, the template for a join or a leave and the answer
    to the join; and the number of the next random string. *)
Record CWorld := MkWorld {
  cw_events : list (rstr * rstr);
  cw_keys : list (rstr * rstr);
  cw_state : option (list (identifier (@valid_event_id sigil_ruma)));
  cw_template : option (option rstr * rstr);
  cw_join : option (list rstr * list rstr * option rstr);
  cw_next : N
}.
Definition silent : CWorld := MkWorld [] [] None None None 0.

Definition no_event : @PduEvent sigil_ruma := {|
  event_id := mk_event "$_"; room_id := mk_room "!_"; sender := mk_user "@_:_"; origin_server_ts := 0; kind := lit "";
  content := []; state_key := None; prev_events := []; depth := 0; auth_events := []; redacts := None; unsigned := None;
  hashes := []; signatures := None |}.

(** An event that is its own authorisation, which the server [evil.org] gives to
    everyone who asks for an event. *)
Definition loop_pdu : @PduEvent sigil_ruma := {|
  event_id := mk_event "$loop0"; room_id := mk_room "!one"; sender := mk_user "@eve:evil.org"; origin_server_ts := 0;
  kind := lit "loop"; content := []; state_key := None; prev_events := []; depth := 0; auth_events := [mk_event "$loop0"];
  redacts := None; unsigned := None; hashes := []; signatures := None |}.
Definition loop_object : @CanonicalJsonObject concrete_env :=
  (loop_pdu, [(lit "signatures", JObj [(lit "evil.org", JObj [(lit "ed25519:1", JStr (lit "sig"))])]);
              (lit "auth_events", JArr [JStr (lit "$loop0")])]).
Definition raw_of (o : @CanonicalJsonObject concrete_env) : @Raw (@env_raw concrete_env) := canonical_to_raw o.

Definition answer {A} (o : option A) : A + Error :=
  match o with Some a => inl a | None => inr (BadServerResponse "no answer") end.
Definition concrete_send {A} (dest : identifier (@valid_server_name sigil_ruma)) (req : @FedRequest concrete_env A) (w : CWorld)
    : (A + Error) * CWorld :=
  (match req in @FedRequest _ A return A + Error with
   | GetEvent e =>
       if decide (as_str dest = lit "evil.org") then inl (raw_of loop_object) else answer (obj_get (as_str e) (cw_events w))
   | GetRoomStateIds _ _ => answer (cw_state w)
   | GetServerKeys => answer (obj_get (as_str dest) (cw_keys w))
   | GetRemoteServerKeys s _ => answer ((λ k, [k]) <$> obj_get (as_str s) (cw_keys w))
   | GetRemoteServerKeysBatch l => answer (Some (omap (λ s, obj_get (as_str s) (cw_keys w)) l))
   | MakeJoin _ _ _ => answer (cw_template w)
   | MakeLeave _ _ => answer (cw_template w)
   | SendJoin _ _ _ => answer (cw_join w)
   | SendLeave _ _ _ => answer (Some ())
   | CreateInvite _ _ _ event _ => answer (Some event)
   | GetRoomInformation _ => answer None
   | GetProfileInformation _ _ => answer None
   | GetKeys _ =>
       if decide (as_str dest = lit "evil.org") then inl ({[mk_user "@alice:a.org" := lit "forged"]}, ∅, ∅) else answer None
   | ClaimKeys _ => answer None
   | GetPublicRoomsFiltered _ _ _ => answer None
   | GetContent _ _ => answer (Some (MkContent b#"file" None None))
   | GetContentThumbnail _ _ _ _ _ => answer (Some (MkContent b#"small" None None))
   | SendTransaction _ _ _ _ _ => if decide (as_str dest = lit "evil.org") then answer None else inl []
   end, w).

#[export] Instance concrete_outside : @Outside concrete_env := {|
  World := CWorld;
  world_send A := @concrete_send A;
  world_random k w :=
    (u64_to_string (cw_next w),
     MkWorld (cw_events w) (cw_keys w) (cw_state w) (cw_template w) (cw_join w) (cw_next w + 1));
  world_appservice r a w := (false, id, w);
  world_clock w := 0;
  env_signing := countable_serde;
  trusted_servers := [mk_server "trusted.org"] |}.

(** A server with a database. *)
Definition node_of (d : @State concrete_env) (w : CWorld) : @Node concrete_env concrete_outside :=
  @MkNode concrete_env concrete_outside (MkServer (MkHandler d ∅ [] []) []) w ∅ ∅ ∅ [] ∅.

(** ** The event handler *)

(** The keys of every server that signed an object are among those given. *)
Definition signed_by (keys : list (rstr * list (rstr * rstr))) (fields : list (rstr * json)) : bool :=
  match obj_get (lit "signatures") fields with
  | Some (JObj l) =>
      forallb (λ e, match e.2, obj_get e.1 keys with
                    | JObj sigs, Some ks => contains_all_ids sigs.*1 ks
                    | _, _ => false
                    end) l
  | _ => false
  end.

(** The hash of an event of type [tampered] is wrong. *)
#[export] Instance concrete_handler : @HandlerLib concrete_env := {|
  verify_event m o v :=
    if signed_by m o.2 then
      Some (if decide (kind o.1 = lit "tampered") then VerifiedSignatures else VerifiedAll)
    else None;
  canonical_redact o v := Some (set_content b#"redacted" o.1, o.2);
  resolve v l c f := head l;
  topological_sort g ts := Some (elements (dom g));
  AclContent := rstr;
  acl_content := from_utf8;
  acl_is_allowed a s := bool_decide (a ≠ as_str s);
  max_fetch_prev_events := 2 |}.

(** ** Contents *)

Definition server_of {valid} (i : identifier valid) : identifier (@valid_server_name sigil_ruma) :=
  default (mk_server "a.org") (parse_id _ (to_str (after_colon (idb i)))).

#[export, refine] Instance concrete_contents : @ContentLib concrete_env concrete_events := {|
  content_text c :=
    match c with
    | CMember c => write_member c
    | CCreate c => to_vec ((no_event, [(lit "room_version", JStr (rc_room_version c))]) : @CanonicalJsonObject concrete_env)
    | CHistoryVisibility HWorldReadable => b#"world_readable"
    | CCanonicalAlias (Some a) _ => to_vec a
    | CMessage (NoticePlain s | TextPlain s | TextHtml s _) => as_bytes s
    | CName (Some s) | CTopic s => as_bytes s
    | _ => b#"content"
    end;
  member_content := read_member;
  member_value c := JStr (lit "member");
  join_rules_content b := if decide (b = b#"public") then Some JPublic else Some JInvite;
  room_id_new r := default (mk_room "!_") (parse_id _ (str_app (lit "!") (str_app r (lit ":a.org"))));
  room_server_name := server_of;
  alias_server_name := server_of;
  allow_unstable_room_versions := false |}.
Proof.
  - apply read_write_member.
  - intros c. change (rm_membership <$> read_member (write_member c) = Some (rm_membership c)). by rewrite read_write_member.
Defined.

(** ** Requests *)

Record CRequest := MkCRequest { rq_uri : rstr; rq_body : bytes; rq_bearer : option rstr; rq_x_matrix : option bytes }.

#[export] Instance concrete_http : @HttpLib concrete_env := {|
  HttpRequest := CRequest;
  http_method r := lit "GET";
  http_uri := rq_uri;
  http_query r := None;
  http_body r := Some (rq_body r);
  bearer_token := rq_bearer;
  path_params r := Ok [];
  parse_query q := Some (None, None);
  x_matrix decode r :=
    match rq_x_matrix r with
    | Some b => match decode b with Some x => inl x | None => inr HeaderError end
    | None => inr HeaderMissing
    end;
  canonical_from_slice := from_slice;
  canonical_to_vec := to_vec;
  verify_json := signed_by |}.

(** A request of another server without arguments. *)
#[export] Instance ping : @IncomingRequest concrete_env concrete_http unit := {|
  authentication := SchemeServerSignatures;
  try_from_http_request r b p := Some () |}.

(** ** Accounts, rooms and the federation API *)

#[export] Instance concrete_account : @AccountLib concrete_env := {|
  allow_registration := true;
  enable_lightning_bolt := false;
  jwt_sub := None;
  is_historical u := false;
  default_push_rules u := JNull;
  welcome_text := lit "welcome";
  welcome_html := lit "welcome" |}.

#[export] Instance concrete_room : @RoomLib concrete_env := {|
  allow_room_creation := true;
  allow_encryption := true;
  create_version := lit "1";
  power_levels_value m := [];
  builder_of r := Some {| pb_event_type := r; pb_content := []; pb_unsigned := None; pb_state_key := None; pb_redacts := None |};
  PowerContent := Z;
  power_content b := Some 0%Z;
  power_text z := b#"levels";
  pc_users_default := id;
  pc_restrict a b z := a;
  int_add := Z.add;
  visibility_content b := Some (if decide (b = b#"world_readable") then HWorldReadable else HShared);
  canonical_alias_content b := Some (from_slice b, []) |}.

Abbreviation ConcreteMessage :=
  (identifier (@valid_user_id sigil_ruma) * rstr * rstr * identifier (@valid_user_id sigil_ruma) * rstr * rstr)%type.

#[export] Instance concrete_server : @ServerLib concrete_env := {|
  allow_federation := true;
  edu_of r :=
    Some (match (bytes_pos (as_bytes r) ≫= decode : option ConcreteMessage) with
          | Some (from, ty, mid, target, dev, raw) => EDirectToDevice from ty mid [(target, [(Some dev, raw)])]
          | None => ECustom
          end);
  receipt_event r u e d := lit "receipt";
  own_key_id := lit "ed25519:1";
  own_public_key := lit "key";
  sign_json o := o |}.

(** Nothing is loaded lazily. *)
#[export] Instance concrete_sync : @SyncLib concrete_env := {|
  default_filter := lit "";
  lazy_load_options f := None;
  joined_room_is_empty j :=
    bool_decide (jr_account_data j = []) && bool_decide (su_heroes (jr_summary j) = []) &&
    bool_decide (su_joined_member_count (jr_summary j) = None) && bool_decide (jr_notification_count j = None) &&
    bool_decide (tl_events (jr_timeline j) = []) && bool_decide (jr_state j = []) && bool_decide (jr_ephemeral j = []);
  typing_raw l := lit "typing";
  presence_raw p := lit "presence" |}.
