(* ===== verification/ConcreteClient.v ===== *)
(** * A concrete environment for the remaining routes

    Instances of the classes of [AccountDataApi.v], [Directory.v], [ClientMisc.v],
    [Media.v], [Destination.v], [Delivery.v], [Migrations.v] and [AdminCommands.v],
    on top of [Concrete.v] and [ConcreteApi.v]. *)

From S2P Require Import Prelude Bytes RStr Error Utils KvTree Env Db Concrete ConcreteApi Pdu StateCache ClientData EventFormat TimelineService Federation EventHandler Request Admin Rooms ServerServer AccountDataApi Directory ClientMisc Media IpAddr Destination Delivery Migrations AdminCommands.

(** ** Sets of rules: lists of which the first rule of each id counts *)

Section uniq.
Context {A : Type}.
Implicit Types (l : list (PushRule A)) (r : PushRule A).

Fixpoint uniq l : list (PushRule A) :=
  match l with [] => [] | r :: l => r :: filter (λ x, rule_id x ≠ rule_id r) (uniq l) end.

Lemma uniq_nodup l : NoDup (rule_id <$> uniq l).
Proof.
  induction l as [|r l IH]; cbn; [constructor|]. apply NoDup_cons. split.
  - intros (x & E & [Hx _]%list_elem_of_filter)%list_elem_of_fmap. by destruct Hx.
  - eapply sublist_NoDup; [exact IH|]. apply (fmap_sublist rule_id), sublist_filter.
Qed.
Lemma uniq_id l : NoDup (rule_id <$> l) → uniq l = l.
Proof.
  induction l as [|r l IH]; cbn; [done|]. intros [Hn Hl]%NoDup_cons. rewrite IH by done. f_equal.
  clear IH Hl. induction l as [|x l IH]; [done|]. cbn in Hn. apply not_elem_of_cons in Hn as [Hx Hn].
  rewrite filter_cons_True by congruence. by rewrite IH.
Qed.

Lemma unknown_nodup l r :
  NoDup (rule_id <$> l) → list_find (has_id (rule_id r)) l = None → NoDup (rule_id <$> l ++ [r]).
Proof.
  intros Hl E. rewrite fmap_app. apply NoDup_app. split_and!; [done| |apply NoDup_singleton].
  intros x (y & -> & Hy)%list_elem_of_fmap Hx. apply list_elem_of_singleton in Hx. apply list_find_None in E.
  rewrite Forall_forall in E. by apply (E y Hy).
Qed.
Definition replace_in r l : list (PushRule A) :=
  match list_find (has_id (rule_id r)) l with Some (i, _) => <[i := r]> l | None => l ++ [r] end.
Lemma replace_in_nodup r l : NoDup (rule_id <$> l) → NoDup (rule_id <$> replace_in r l).
Proof.
  intros Hl. unfold replace_in. destruct (list_find _ l) as [[i x]|] eqn:E; [|by apply unknown_nodup].
  apply list_find_Some in E as (Hi & Hx & _). rewrite list_fmap_insert, list_insert_id; [done|].
  rewrite list_lookup_fmap, Hi. cbn. by rewrite Hx.
Qed.
Definition insert_in r l : list (PushRule A) :=
  match list_find (has_id (rule_id r)) l with Some _ => l | None => l ++ [r] end.
Lemma insert_in_nodup r l : NoDup (rule_id <$> l) → NoDup (rule_id <$> insert_in r l).
Proof. intros Hl. unfold insert_in. destruct (list_find _ l) eqn:E; [done|by apply unknown_nodup]. Qed.
Definition remove_in r l : list (PushRule A) :=
  match list_find (has_id (rule_id r)) l with Some (i, _) => swap_remove i l | None => l end.
Lemma remove_in_nodup r l : NoDup (rule_id <$> l) → NoDup (rule_id <$> remove_in r l).
Proof.
  intros Hl. unfold remove_in. destruct (list_find _ l) as [[i x]|] eqn:E; [|done].
  apply list_find_Some in E as (Hi & _). rewrite (swap_remove_Permutation _ _ _ Hi) in Hl. by apply NoDup_cons in Hl as [_ Hl].
Qed.
End uniq.

#[export, program] Instance list_index_set : IndexSetLib := {|
  IndexSet X := list X;
  elems A l := uniq l;
  set_replace A r l := replace_in r (uniq l);
  set_insert A r l := insert_in r (uniq l);
  set_remove A r l := remove_in r (uniq l) |}.
Next Obligation. intros A l. apply uniq_nodup. Qed.
Next Obligation. intros A r l. cbn. rewrite uniq_id by apply replace_in_nodup, uniq_nodup. done. Qed.
Next Obligation. intros A r l. cbn. rewrite uniq_id by apply insert_in_nodup, uniq_nodup. done. Qed.
Next Obligation. intros A r l. cbn. rewrite uniq_id by apply remove_in_nodup, uniq_nodup. done. Qed.

(** ** Account data *)

#[export] Instance Tweak_eq_dec : EqDecision Tweak.
Proof. solve_decision. Defined.
#[export] Instance Action_eq_dec : EqDecision Action.
Proof. solve_decision. Defined.
#[export, refine] Instance Action_countable : Countable Action :=
  inj_countable'
    (λ a, match a with
          | DontNotify => inl 0 | Notify => inl 1 | Coalesce => inl 2
          | SetTweak (Highlight b) => inr (inl b) | SetTweak (OtherTweak n v) => inr (inr (n, v))
          end)
    (λ s : N + (bool + rstr * json), match s with
          | inl 0 => DontNotify | inl 1 => Notify | inl _ => Coalesce
          | inr (inl b) => SetTweak (Highlight b) | inr (inr (n, v)) => SetTweak (OtherTweak n v)
          end) _.
Proof. by intros [| | |[]]. Defined.
#[export] Instance PushRule_eq_dec {A} `{!EqDecision A} : EqDecision (PushRule A).
Proof. solve_decision. Defined.
#[export, refine] Instance PushRule_countable {A} `{Countable A} : Countable (PushRule A) :=
  inj_countable' (λ r, (rule_actions r, rule_default r, rule_enabled r, rule_id r, rule_extra r))
    (λ '(a, b, c, d, e), MkPushRule a b c d e) _.
Proof. by intros []. Defined.
#[export] Instance Rules_eq_dec : EqDecision Rules.
Proof. intros [] []. solve_decision. Defined.
#[export, refine] Instance Rules_countable : Countable Rules :=
  inj_countable' (λ r, (rs_content r, rs_override r, rs_room r, rs_sender r, rs_underride r) : list _ * list _ * list _ * list _ * list _)
    (λ '(a, b, c, d, e), MkRules a b c d e) _.
Proof. by intros []. Defined.

(** The text of a value, and the value of a text. *)
Definition json_of (r : rstr) : option json := bytes_pos (as_bytes r) ≫= decode.
Lemma json_of_raw j : json_of (to_raw_value j) = Some j.
Proof. unfold json_of. cbn. rewrite bytes_pos_bytes. cbn. apply decode_encode. Qed.

(** An event with an encoded content. *)
Definition packed {A} `{Countable A} (type : string) (a : A) : json :=
  JObj [(lit "type", JStr (lit type)); (lit "content", JStr (MkStr (pos_bytes (encode a)) (pos_bytes_ascii _)))].
Definition unpacked {A} `{Countable A} (r : rstr) : option A :=
  j ← json_of r; c ← json_get (lit "content") j; c ← as_string c; p ← bytes_pos (as_bytes c); decode p.
Lemma packed_fields {A} `{Countable A} type (a : A) : has_fields (packed type a).
Proof. split; by vm_compute. Qed.
Lemma unpack_pack {A} `{Countable A} type (a : A) : unpacked (to_raw_value (packed type a)) = Some a.
Proof.
  unfold unpacked. rewrite json_of_raw. unfold packed. cbn [mbind option_bind json_get obj_get].
  rewrite decide_False by by vm_compute. rewrite decide_True by done. cbn [mbind option_bind as_string as_bytes].
  rewrite bytes_pos_bytes. cbn [mbind option_bind]. apply decode_encode.
Qed.

Definition no_rules : Rules := MkRules [] [] [] [] [].

#[export, refine] Instance concrete_account_data : @AccountDataLib concrete_env concrete_timeline list_index_set := {|
  push_rules_event r := Some (default no_rules (unpacked r));
  push_rules_value r := packed "m.push_rules" r;
  ruleset_of r := ();
  tag_event := unpacked;
  tag_value t := packed "m.tag" t;
  extract_content r := j ← json_of r; to_raw_value <$> json_get (lit "content") j |}.
Proof.
  - intros r. apply packed_fields.
  - intros r. by rewrite unpack_pack.
  - done.
  - intros t. apply packed_fields.
  - intros t. apply unpack_pack.
  - intros l. by rewrite json_of_raw.
Defined.
#[export] Instance concrete_start : @StartLib concrete_env list_index_set := {|
  default_rules u := no_rules;
  empty_rules := no_rules |}.

(** ** The directory, reports, receipts and voice calls *)

#[export] Instance concrete_directory : DirectoryLib := {|
  name_content b := Some (from_utf8 b);
  topic_content := from_utf8;
  guest_access_content b := None;
  avatar_content b := Some None;
  room_type_content b := Some None;
  is_knock r := false;
  text_parts s := [s] |}.

#[export] Instance concrete_misc : @MiscLib concrete_env := {|
  direct_edu from ty mid target device raw := b#"edu";
  receipt_now t := JNull;
  debug_str s := s;
  debug_score s := lit "score";
  debug_reason := default (lit "");
  hmac_sha1 key text := to_str key;
  turn_secret := lit "";
  turn_username := lit "turn";
  turn_password := lit "password";
  turn_uris := [];
  turn_ttl := 86400 |}.

(** ** Media: an image is its size *)

#[export] Instance concrete_media : MediaLib := {|
  base64_url_safe_no_pad b := to_str (pos_bytes (encode b));
  io_ok r := true;
  Image := N * N;
  load_from_memory b := bytes_pos b ≫= decode;
  image_width := fst;
  image_height := snd;
  resize_to_fill i w h := (w, h);
  thumbnail_exact i w h := (w, h);
  write_png i := Some (pos_bytes (encode i));
  max_request_size := 20 * 1024 * 1024 |}.

(** ** The network: every server answers the request it gets with a signature of zeros *)

#[export] Instance concrete_net : NetLib := {|
  NetWorld := unit;
  http_get_text url w := (None, w);
  srv_lookup name w := (None, w);
  lookup_ip name w := (None, w);
  execute url http auth w := (Some (200, b#"pong"), w);
  to_canonical := Some;
  sign_object m := Some (obj_insert (lit "signatures") (JObj [(lit "a.org", JObj [(lit "ed25519:1", JStr (lit "00"))])]) m);
  header_value_ok h := true;
  path_and_query_ok p := true;
  error_from_http_response code b := {| ruma_body := {| eb_kind := Unknown; eb_message := "" |}; ruma_status_code := code |} |}.

(** ** Appservices and push gateways: every call is accepted *)

#[export] Instance concrete_gateway : @GatewayLib concrete_env concrete_outside := {|
  appservice_push reg events txn w := (inl (), w);
  gateway_notify url nf w := (inl (), w);
  pusher_kind p := KHttp (MkHttpPusher p None JNull);
  pusher_app_id p := p;
  room_name_content b := Some (from_utf8 b);
  base64_url b := to_str (pos_bytes (encode b)) |}.

(** ** Admin commands: one of them is understood *)

#[export] Instance concrete_admin : @AdminLib concrete_env := {|
  try_parse_from argv :=
    if decide (argv = [lit "@conduit:"; lit "list-rooms"]) then inl ListRooms else inr (lit "usage");
  error_text e := lit "error";
  yaml_error s := s;
  json_error s := s;
  id_error s := s;
  hash_error o := lit "hash";
  pdu_error o := lit "pdu";
  yaml_from_str s := json_of s;
  object_from_str s := from_slice (as_bytes s);
  pdu_from_value o := Some o.1;
  debug_event_id s := s;
  debug_pdu p := as_str (event_id p);
  to_string_pretty o := lit "{}";
  debug_text s := s;
  regex_replace_all p r s := s;
  chain_text k := lit "chain";
  memory_usage := inl (lit "0");
  config_text := lit "" |}.
