(* ===== verification/Witnesses.v ===== *)
(** * Witnesses

    Each theorem with hypotheses is applied here to concrete data, in the
    environment of [Concrete.v]: the hypotheses can be met, and the conclusion
    is about a run that exists. *)

From S2P Require Import Prelude Bytes RStr Decimal Error Utils KvTree Engines Env Db Keys Concrete Globals Short RoomState StateCompressor Pdu Timeline StateAccessor Users StateCache DeviceKeys KeyBackups Edus Uiaa Sending SendingService RoomIndex ClientData EventFormat RoomUser MembershipService StateService LazyLoading Lookups TimelineService AuthChain.

(** ** Data *)

Lemma db_map_empty t : db_map empty_state t = ∅.
Proof. apply contents_empty. Qed.
Lemma count_empty : count empty_state = 0.
Proof. unfold count. by rewrite db_map_empty. Qed.
Lemma count_ok_empty : count_ok empty_state.
Proof. unfold count_ok. by rewrite count_empty. Qed.

(** The map of a tree that was written once. *)
Lemma db_map_one t k v : db_map (put t k v empty_state) t = {[k := v]}.
Proof. db_simpl. by rewrite db_map_empty. Qed.
Lemma lookup_one t k v k' v' : db_map (put t k v empty_state) t !! k' = Some v' → k' = k ∧ v' = v.
Proof. rewrite db_map_one. by intros [-> ->]%lookup_singleton_Some. Qed.
Lemma lookup_one_eq t k v : db_map (put t k v empty_state) t !! k = Some v.
Proof. rewrite db_map_one. apply lookup_singleton_eq. Qed.
Lemma db_map_other t t' k v : t ≠ t' → db_map (put t k v empty_state) t' = ∅.
Proof. intros. by rewrite db_map_put_ne, db_map_empty. Qed.

Abbreviation alice := (mk_user "@alice:a.org").
Abbreviation bob := (mk_user "@bob:b.org").
Abbreviation room1 := (mk_room "!one").
Abbreviation room2 := (mk_room "!two").

Lemma short_inv_empty : ShortInv empty_state.
Proof.
  split; rewrite ?db_map_empty; intros; rewrite ?db_map_empty in *;
    try (split; intros); rewrite ?lookup_empty in *; try done.
Qed.

Lemma state_inv_empty : StateInv empty_state.
Proof. split; intros *; rewrite ?db_map_empty, ?lookup_empty; done. Qed.

Lemma mirror_empty va vb : mirror va vb ∅ ∅.
Proof. split; [by intros ? ?|by intros ? ?|]. intros. by rewrite !lookup_empty. Qed.

Lemma member_inv_empty : MemberInv empty_state.
Proof.
  split; rewrite ?db_map_empty; try apply mirror_empty;
    intros u r; unfold in_tree; rewrite db_map_empty, lookup_empty; by intros [? ?].
Qed.

Lemma token_inv_empty : TokenInv empty_state.
Proof.
  split.
  - intros a b. by rewrite !db_map_empty, !lookup_empty.
  - intros t ud. by rewrite db_map_empty, lookup_empty.
Qed.

(** The compressed event of state key [k] and event number [e]. *)
Definition cse (k e : N) : CompressedStateEvent :=
  default (MkArr (replicate 16 x00) eq_refl) (try_arr (to_be_bytes k ++ to_be_bytes e)).

Lemma keyed_cse : Forall keyed [cse 1 2; cse 3 4; cse 5 6].
Proof. repeat constructor; unfold keyed; apply starts_with_false; vm_compute; done. Qed.

#[export] Instance sha256_inj : Inj (=) (=) sha256.
Proof. intros a b E. exact E. Qed.

(** ** State compression *)

Lemma save_state_correct_witness :
  Forall keyed [cse 1 2; cse 3 4; cse 5 6] ∧
  ∃ n added removed s' l' s'', save_state room1 [cse 1 2; cse 3 4; cse 5 6] empty_state = (Ok (n, added, removed), s') ∧
    load_shortstatehash_info n s' = (Ok l', s'') ∧ full_of l' = list_to_set [cse 1 2; cse 3 4; cse 5 6].
Proof.
  split; [apply keyed_cse|].
  destruct (save_state_correct room1 [cse 1 2; cse 3 4; cse 5 6] empty_state short_inv_empty state_inv_empty
    count_ok_empty keyed_cse) as (o & n & a & r & s' & l' & s'' & _ & E & _ & _ & E' & Hf & _).
  by exists n, a, r, s', l', s''.
Defined.

Lemma save_state_from_diff_load_witness :
  ∃ s' l' s'', save_state_from_diff 7 {[cse 1 2]} ∅ 5 [] empty_state = (Ok (), s') ∧
    load_shortstatehash_info 7 s' = (Ok l', s'') ∧ full_of l' = (full_of [] ∪ {[cse 1 2]}) ∖ ∅ ∧ (length l' ≤ 4)%nat.
Proof.
  apply (save_state_from_diff_load empty_state 7 [] {[cse 1 2]} ∅ 5).
  - by left.
  - split; [|done]. apply disjoint_singleton_l. vm_compute. done.
  - apply set_Forall_singleton. unfold keyed. apply starts_with_false. vm_compute. done.
  - by intros h l.
  - by rewrite db_map_empty.
Defined.

Lemma statediff_roundtrip_witness :
  let d := MkDiff (Some 9) {[cse 1 2; cse 3 4]} {[cse 1 1]} in
  let s' := (save_statediff 10 d empty_state).2 in
  get_statediff 10 s' = (Ok d, s').
Proof.
  apply statediff_roundtrip.
  - intros p [= <-]. split; done.
  - apply set_Forall_union; apply set_Forall_singleton;
      unfold keyed; apply starts_with_false; vm_compute; done.
Defined.

Lemma merge_diff_correct_witness :
  let '(pn, pr) := merge_diff {[cse 1 1]} {[cse 1 2]} ({[cse 1 2]}, {[cse 1 1]}) in
  proper {[cse 1 1]} pn pr ∧
  apply_diff {[cse 1 1]} pn pr =
    apply_diff (apply_diff {[cse 1 1]} {[cse 1 2]} {[cse 1 1]}) {[cse 1 1]} {[cse 1 2]}.
Proof.
  apply merge_diff_correct.
  - split; [|done]. apply disjoint_singleton_l. vm_compute. done.
  - assert (apply_diff {[cse 1 1]} {[cse 1 2]} {[cse 1 1]} = {[cse 1 2]}) as -> by done.
    split; [|done]. apply disjoint_singleton_l. vm_compute. done.
Defined.

(** ** Numbers and counters *)

Lemma short_roundtrip_witness :
  ∃ n1 s1 n2 s2, get_or_create_shorteventid (mk_event "$a") empty_state = (Ok n1, s1) ∧
    get_or_create_shorteventid (mk_event "$b") s1 = (Ok n2, s2) ∧
    (get_eventid_from_short n1 s2).1 = Ok (mk_event "$a") ∧ n1 ≠ n2.
Proof.
  destruct (short_roundtrip (mk_event "$a") (mk_event "$b") empty_state short_inv_empty)
    as (n1 & s1 & n2 & s2 & E1 & E2 & _ & Hn & H1 & _); [by rewrite count_empty|].
  exists n1, s1, n2, s2. split_and!; [done..|]. intros ?%Hn. done.
Defined.

Lemma draw_increasing_witness :
  ∃ cs s', draw 3 empty_state = (Ok cs, s') ∧ length cs = 3%nat ∧ StronglySorted N.lt cs.
Proof.
  destruct (draw_increasing 3 empty_state) as (cs & s' & E & Hl & Hs & _); [by rewrite count_empty|]. eauto.
Defined.

(** ** The timeline *)

Definition text (s : string) : bytes := b#s.
Definition event (id : string) (auth : list string) : @PduEvent (@env_ruma concrete_env) := {|
  event_id := mk_event id; room_id := room1; sender := alice; origin_server_ts := 0; kind := lit "m.room.message";
  content := text "c"; state_key := None; prev_events := []; depth := 1; auth_events := mk_event <$> auth;
  redacts := None; unsigned := None; hashes := []; signatures := None |}.

Lemma append_pdu_get_witness :
  u64 9 ∧ let id := pdu_id_of 5 9 in let s' := (Timeline.append_pdu id (event "$a" []) (event "$a" [], []) 9 empty_state).2 in
  get_pdu_json (mk_event "$a") s' = (Ok (Some (event "$a" [], [])), s').
Proof.
  split; [done|].
  destruct (append_pdu_get 5 9 (event "$a" []) (event "$a" [], []) empty_state eq_refl) as (_ & H & _). exact H.
Defined.

(** A room with number 5 and one event at position 9. *)
Definition timeline_state : State :=
  put pduid_pdu (pdu_id_of 5 9) (to_vec (event "$a" [])) (put roomid_shortroomid (idb room1) (to_be_bytes 5) empty_state).

Lemma timeline_numbered : room_numbered timeline_state room1 5.
Proof. split; [done|]. unfold timeline_state. rewrite db_map_put_ne by done. apply lookup_one_eq. Qed.
Lemma timeline_entries : db_map timeline_state pduid_pdu = {[pdu_id_of 5 9 := to_vec (event "$a" [])]}.
Proof. unfold timeline_state. db_simpl. by rewrite db_map_empty. Qed.
Lemma timeline_keyed_one : timeline_keyed timeline_state.
Proof.
  intros k v. rewrite timeline_entries. intros [<- _]%lookup_singleton_Some. by exists 5, 9.
Qed.

Lemma pdus_since_correct_witness :
  ∃ l, pdus_since alice room1 3 timeline_state = (Ok (visible_pdu alice <$> l), timeline_state) ∧
    (pdu_id_of 5 9, to_vec (event "$a" [])) ∈ l.
Proof.
  destruct (pdus_since_correct alice room1 5 3 timeline_state timeline_numbered timeline_keyed_one)
    as (l & E & _ & _ & Hl); [done|].
  exists l. split; [done|]. apply Hl. exists 9. split_and!; done.
Defined.

Lemma pdus_until_correct_witness :
  ∃ l, pdus_until alice room1 10 timeline_state = (Ok (visible_pdu alice <$> l), timeline_state) ∧
    (pdu_id_of 5 9, to_vec (event "$a" [])) ∈ l.
Proof.
  destruct (pdus_until_correct alice room1 5 10 timeline_state timeline_numbered timeline_keyed_one)
    as (l & E & _ & Hl); [done|done|].
  exists l. split; [done|]. apply Hl. exists 9. split_and!; done.
Defined.

Lemma last_timeline_count_latest_witness :
  ∃ c s', last_timeline_count alice room1 timeline_state = (Ok c, s') ∧ 9 ≤ c.
Proof.
  destruct (last_timeline_count_latest alice room1 5 timeline_state timeline_numbered timeline_keyed_one)
    as (c & s' & E & _ & Hc & _); [done| |].
  - intros c v Hc. rewrite timeline_entries. intros [E <-]%lookup_singleton_Some.
    apply pdu_id_of_inj in E as [_ <-]; [|done..]. split; [done|].
    unfold visible_pdu, parse_json. cbn [snd]. rewrite from_slice_to_vec. cbn. by case_decide.
  - exists c, s'. split; [done|]. apply (Hc 9 (to_vec (event "$a" []))); [done|].
    rewrite timeline_entries. apply lookup_singleton_eq.
Defined.

(** ** Outgoing requests *)

Lemma servers_unmarked_concrete : servers_unmarked.
Proof.
  intros [s Hs]. unfold idb. cbn [as_str]. cbn in Hs. apply andb_true_iff in Hs as [H1%negb_true_iff H2%negb_true_iff].
  unfold sigil in *. apply bool_decide_eq_false in H1, H2.
  split; apply starts_with_false; intros [x E]; rewrite E in *; done.
Qed.

#[export] Instance silent_federation : FederationLib :=
  {| ephemeral_from_raw _ := None; edu_to_vec _ := b#"{}" |}.

Abbreviation far := (Normal (mk_server "b.org")).

(** The task starts, a request for another server is queued and its message taken. *)
Definition handler0 : HandlerState := (handler_start (MkHandler empty_state ∅ [] [])).2.
Definition handler1 : HandlerState := (enqueue [(far, SEdu b#"x")] handler0).2.
Definition handler2 : HandlerState := (on_receive handler1).2.
Definition request_id : bytes := default [] ((λ m : OutgoingKind * SendingEventType * bytes, m.2) <$> head (h_channel handler1)).

Lemma run_pair {S A} (m : M S A) s a : (m s).1 = Ok a → m s = (Ok a, (m s).2).
Proof. intros <-. by destruct (m s). Qed.

Lemma reachable0 : reachable handler0.
Proof. apply (reach_start empty_state). apply run_pair. vm_compute. done. Qed.
Lemma reachable1 : reachable handler1.
Proof.
  apply (reach_step handler0 LRequest); [apply reachable0|].
  apply (step_request _ [(far, SEdu b#"x")]); [by repeat constructor|]. apply run_pair. vm_compute. done.
Qed.
Lemma step1 : step handler1 LReceive handler2.
Proof. apply step_receive, run_pair. vm_compute. done. Qed.
Lemma pending1 : pending handler1 request_id.
Proof. right. vm_compute. by eexists. Qed.

Lemma no_request_lost_witness :
  reachable handler1 ∧ step handler1 LReceive handler2 ∧ pending handler1 request_id ∧ pending handler2 request_id.
Proof.
  split_and!; [apply reachable1|apply step1|apply pending1|].
  destruct (no_request_lost servers_unmarked_concrete handler1 LReceive handler2 request_id reachable1 step1 pending1)
    as [H|[(id & H & _)|[(k & e & before & H & _)|(k & events & e & H & _)]]]; [exact H|discriminate H..].
Defined.

Lemma one_transaction_per_destination_witness :
  (h_futures handler2).*1 = [far] ∧ NoDup (h_futures handler2).*1.
Proof.
  split; [by_compute|].
  apply (one_transaction_per_destination servers_unmarked_concrete handler2).
  apply (reach_step handler1 LReceive); [apply reachable1|apply step1].
Defined.

Definition failed_handler : HandlerState :=
  MkHandler empty_state {[far := Failed 2 0]} [] [(far, SEdu b#"x", b#"key")].

Lemma backoff_witness :
  ∃ h', on_receive failed_handler = (Ok (), h') ∧ h_channel h' = [] ∧ h_status h' = h_status failed_handler.
Proof.
  destruct (backoff servers_unmarked_concrete far (SEdu b#"x") b#"key" [] failed_handler 2 0) as (h' & E & Ec & _ & _ & H).
  - apply lookup_singleton_eq.
  - reflexivity.
  - reflexivity.
  - exists h'. split_and!; [done..|]. apply H.
Defined.

Lemma queue_roundtrip_witness :
  ∃ key s' l, queue_requests [(far, SPdu b#"id")] empty_state = (Ok [key], s') ∧
    queued_requests far s' = (Ok l, s') ∧ Ok (SPdu b#"id", key) ∈ l.
Proof.
  destruct (queue_roundtrip servers_unmarked_concrete far (SPdu b#"id") empty_state) as (key & s' & E & (l & E' & Hl) & _);
    [done|]. by exists key, s', l.
Defined.

(** ** Membership *)

Lemma membership_empty u r : membership empty_state u r = None.
Proof. unfold membership. rewrite !bool_decide_false; [done|..]; unfold in_tree; rewrite db_map_empty, lookup_empty; by intros [? ?]. Qed.

Lemma membership_refinement_witness :
  ∃ s', for_each [OpJoin alice room1; OpInvite bob room1 None; OpLeave alice room1] run_op empty_state = (Ok (), s') ∧
    membership s' alice room1 = Some Left ∧ membership s' bob room1 = Some Invited.
Proof.
  destruct (membership_refinement [OpJoin alice room1; OpInvite bob room1 None; OpLeave alice room1] empty_state)
    as (s' & E & _ & H); [apply member_inv_empty|].
  exists s'. split; [done|]. rewrite !H. done.
Defined.

Lemma membership_queries_witness :
  is_joined alice room1 empty_state = (Ok false, empty_state) ∧
  ∃ us, room_members room1 empty_state = (Ok (Ok <$> us), empty_state) ∧ alice ∉ us.
Proof.
  destruct (membership_queries alice room1 empty_state member_inv_empty) as (E & _ & _ & (us & Er & _ & Hu) & _).
  rewrite membership_empty in E, Hu. split; [exact E|]. exists us. split; [exact Er|]. intros ?%Hu. done.
Defined.

Lemma update_membership_correct_witness :
  let s' := (update_membership room1 alice MLeave alice None true empty_state).2 in
  (update_membership room1 alice MLeave alice None true empty_state).1 = Ok () ∧ membership s' alice room1 = Some Left.
Proof.
  pose proof (update_membership_correct room1 alice MLeave alice None true empty_state member_inv_empty) as H.
  assert (mirror valid_room_id valid_server_name (db_map empty_state roomserverids) (db_map empty_state serverroomids)) as Hm
    by (rewrite !db_map_empty; apply mirror_empty).
  specialize (H Hm). destruct (update_membership room1 alice MLeave alice None true empty_state) as [o s'].
  destruct H as (_ & _ & Ho & Hd). assert (o = Ok ()) as -> by (by apply Hd). split; [done|]. exact Ho.
Defined.

Lemma update_joined_count_correct_witness :
  ∃ s', update_joined_count room1 empty_state = (Ok (), s') ∧
    db_map s' roomid_joinedcount !! idb room1 = Some (to_be_bytes 0).
Proof.
  destruct (update_joined_count_correct room1 empty_state member_inv_empty) as (s' & us & inv & E & _ & _ & Hu & _ & H & _).
  { rewrite !db_map_empty. apply mirror_empty. }
  exists s'. split; [exact E|]. rewrite H. destruct us as [|u us]; [done|].
  assert (u ∈ u :: us) as Hu' by left. apply Hu in Hu'. by rewrite membership_empty in Hu'.
Defined.

(** ** Devices *)

Definition account : State := put userid_password (idb alice) b#"hash" empty_state.
Lemma token_inv_account : TokenInv account.
Proof.
  unfold account. split.
  - intros a b. by rewrite !db_map_other, !lookup_empty by discriminate.
  - intros t ud. by rewrite db_map_other, lookup_empty by discriminate.
Qed.

Lemma create_device_correct_witness :
  let s' := (create_device alice (lit "PHONE") (lit "token") None account).2 in
  (create_device alice (lit "PHONE") (lit "token") None account).1 = Ok () ∧
  token_of s' (lit "token") alice (lit "PHONE").
Proof.
  destruct (create_device_correct alice (lit "PHONE") (lit "token") None account) as (E & _ & H & _).
  - apply token_inv_account.
  - eexists. apply lookup_one_eq.
  - reflexivity.
  - split; [exact E|exact H].
Defined.

(** Entries of other trees leave the tokens alone. *)
Lemma token_inv_put t k v :
  t ∉ [token_userdeviceid; userdeviceid_token] → TokenInv (put t k v empty_state).
Proof.
  intros [H1 H2]%not_elem_of_cons. apply not_elem_of_cons in H2 as [H2 _]. split.
  - intros a b. by rewrite !db_map_other, !lookup_empty.
  - intros x ud. by rewrite db_map_other, lookup_empty.
Qed.

(** A message waits for the device; the counter is at 3. *)
Abbreviation phone := (lit "PHONE").
Definition mailbox : State := put todeviceid_events (todevice_key alice phone 3) (as_bytes (lit "{}")) empty_state.

Lemma mailbox_keyed : todevice_keyed mailbox.
Proof. intros k v [-> _]%lookup_one. by exists alice, phone, 3. Qed.

Lemma remove_device_correct_witness :
  let s' := (remove_device alice phone mailbox).2 in
  (remove_device alice phone mailbox).1 = Ok () ∧ get_to_device_events alice phone s' = (Ok [], s').
Proof.
  destruct (remove_device_correct alice phone mailbox) as (E & _ & _ & _ & H & _).
  - apply token_inv_put. set_solver.
  - apply mailbox_keyed.
  - split; [exact E|exact H].
Defined.

Lemma remove_to_device_events_correct_witness :
  let s' := (remove_to_device_events alice phone 5 mailbox).2 in
  db_map s' todeviceid_events !! todevice_key alice phone 3 = None.
Proof.
  destruct (remove_to_device_events_correct alice phone 5 mailbox) as (_ & H & _); [apply mailbox_keyed|done|].
  by apply H.
Defined.

Lemma add_to_device_event_order_witness :
  let s' := (add_to_device_event bob alice phone (lit "m.room_key") JNull empty_state).2 in
  get_to_device_events alice phone s' =
    (Ok [to_raw_value (todevice_message bob (lit "m.room_key") JNull)], s').
Proof.
  destruct (add_to_device_event_order bob alice phone (lit "m.room_key") JNull [] empty_state) as (_ & H & _).
  - intros k v. by rewrite db_map_empty, lookup_empty.
  - apply count_ok_empty.
  - intros u d c. rewrite db_map_empty, lookup_empty. by intros [? ?].
  - reflexivity.
  - exact H.
Defined.

(** ** Keys *)

Lemma dkid_utf8_concrete (id : identifier (@valid_device_key_id (@env_ruma concrete_env))) : sep ∉ to_vec id.
Proof.
  cbn. intros [?|[H|?%list_elem_of_singleton]%elem_of_app]%elem_of_cons; [done| |done].
  revert H. apply str_no_sep.
Qed.

Definition mk_dkid (s : string) : identifier (@valid_device_key_id (@env_ruma concrete_env)) :=
  default (MkId (lit "a:b") eq_refl) (parse_id _ (lit s)).

Definition otk_state : State :=
  put onetimekeyid_onetimekeys (otk_key alice phone (mk_dkid "ed25519:A")) (raw_text (lit "key")) empty_state.

Lemma take_one_time_key_once_witness :
  ∃ o s', take_one_time_key alice phone (lit "ed25519") otk_state = (Ok o, s') ∧
    match o with Some (id, key) => db_map s' onetimekeyid_onetimekeys !! otk_key alice phone id = None | None => False end.
Proof.
  destruct (take_one_time_key_once dkid_utf8_concrete alice phone (lit "ed25519") otk_state) as (o & s' & E & H).
  - intros k v [-> ->]%lookup_one. by eexists alice, phone, _, _.
  - exists o, s'. split; [exact E|]. destruct o as [[id key]|].
    + destruct H as (_ & _ & ->). apply lookup_delete_eq.
    + destruct H as [_ H]. eapply H; [apply lookup_one_eq|]. by_compute.
Defined.

Lemma keys_changed_correct_witness :
  ∃ l, (keys_changed (as_str alice) 3 None (put keychangeid_userid (change_key (as_str alice) 5) (idb alice) empty_state)).1
         = Ok l ∧ length l = 1%nat.
Proof.
  destruct (keys_changed_correct (as_str alice) 3 None
    (put keychangeid_userid (change_key (as_str alice) 5) (idb alice) empty_state)) as (l & E & Hs & Hl).
  - intros k v [-> _]%lookup_one. by exists (as_str alice), 5.
  - done.
  - rewrite E. eexists. split; [reflexivity|]. rewrite length_fmap.
    assert ((change_key (as_str alice) 5, idb alice) ∈ l) as Hin.
    { apply Hl. exists 5. split_and!; [reflexivity| | | |apply lookup_one_eq]; [reflexivity|discriminate|reflexivity]. }
    assert (∀ e, e ∈ l → e = (change_key (as_str alice) 5, idb alice)) as Hall.
    { intros [k v] (c & _ & _ & _ & _ & H)%Hl. apply lookup_one in H as [-> ->]. reflexivity. }
    destruct l as [|e1 [|e2 l]]; [destruct (not_elem_of_nil _ Hin)|reflexivity|].
    apply StronglySorted_inv in Hs as [_ Hs]. apply Forall_cons in Hs as [Hs _].
    rewrite (Hall e1), (Hall e2) in Hs by (repeat constructor).
    destruct (irreflexivity key_lt _ Hs).
Defined.

Definition signed : list (rstr * json) :=
  [(lit "signatures", JObj [(lit "@alice:a.org", JStr (lit "s1")); (lit "@eve:e.org", JStr (lit "s2"))])].

Lemma clean_signatures_correct_witness :
  ∃ fields' sigs', clean_signatures (JObj signed) alice (λ _, false) = Ok (JObj fields') ∧
    obj_get (lit "signatures") fields' = Some (JObj sigs') ∧ obj_get (as_str bob) sigs' = None.
Proof.
  destruct (clean_signatures_correct signed [(lit "@alice:a.org", JStr (lit "s1")); (lit "@eve:e.org", JStr (lit "s2"))]
    alice (λ _, false) (JObj [(lit "signatures", JObj [(lit "@alice:a.org", JStr (lit "s1"))])]))
    as (fields' & sigs' & E & H & _ & Hu).
  - reflexivity.
  - by_compute.
  - vm_compute. reflexivity.
  - exists fields', sigs'. split_and!; [|exact H|].
    + rewrite <- E. vm_compute. reflexivity.
    + rewrite Hu. reflexivity.
Defined.

(** ** Room state *)

Definition numbered_state : State :=
  after (get_or_create_shortstatekey (lit "m.room.topic") (lit "")) (after (get_or_create_shorteventid (mk_event "$a")) empty_state).
(** State 9 holds event 1 under the state key 2. *)
Definition topic_state : State := put_diff 9 (MkDiff None {[cse 2 1]} ∅) numbered_state.

Lemma after_run {A} (m : DB A) s a s' : m s = (Ok a, s') → after m s = s'.
Proof. unfold after. by intros ->. Qed.

Lemma topic_inv : ShortInv topic_state.
Proof.
  apply short_inv_put_diff. unfold numbered_state.
  destruct (get_or_create_shorteventid_spec (mk_event "$a") empty_state short_inv_empty count_ok_empty)
    as (n & s & E & I & _ & C & _). rewrite (after_run _ _ _ _ E). rewrite count_empty in C.
  destruct (get_or_create_shortstatekey_spec (lit "m.room.topic") (lit "") s I) as (n' & s' & E' & I' & _);
    [unfold count_ok; lia|].
  by rewrite (after_run _ _ _ _ E').
Qed.

Lemma keyed_topic : set_Forall keyed ({[cse 2 1]} : gset CompressedStateEvent).
Proof. apply set_Forall_singleton. unfold keyed. apply starts_with_false. vm_compute. done. Qed.

Lemma topic_layers : layers topic_state 9 [MkInfo 9 {[cse 2 1]} {[cse 2 1]} ∅].
Proof.
  apply layers_root; [|apply keyed_topic]. eexists. unfold topic_state, put_diff. rewrite db_map_put_eq.
  split; [apply lookup_insert_eq|]. vm_compute. reflexivity.
Qed.

Lemma full_topic : full_of [MkInfo 9 {[cse 2 1]} {[cse 2 1]} ∅] = {[cse 2 1]}.
Proof. reflexivity. Qed.

Lemma topic_wf : state_wf topic_state (full_of [MkInfo 9 {[cse 2 1]} {[cse 2 1]} ∅]).
Proof.
  rewrite full_topic. split.
  - intros c c' Hc Hc' _. apply elem_of_singleton in Hc as ->, Hc' as ->. reflexivity.
  - intros c ->%elem_of_singleton. exists (lit "m.room.topic"), (lit ""), (mk_event "$a"), 2, 1.
    split_and!; vm_compute; reflexivity.
Qed.

Lemma state_get_id_correct_witness :
  ∃ s', state_get_id 9 (lit "m.room.topic") (lit "") topic_state = (Ok (Some (mk_event "$a")), s').
Proof.
  destruct (state_get_id_correct 9 [MkInfo 9 {[cse 2 1]} {[cse 2 1]} ∅] (lit "m.room.topic") (lit "") topic_state)
    as (o & s' & E & H).
  - apply topic_inv.
  - by intros h l.
  - vm_compute. reflexivity.
  - apply topic_layers.
  - apply topic_wf.
  - exists s'. rewrite E. f_equal. f_equal. apply H. exists (cse 2 1). rewrite full_topic.
    split; [by apply elem_of_singleton|]. exists 2, 1. split_and!; vm_compute; reflexivity.
Defined.

(** ** The services of the room state *)

(** A state event that changes the topic. *)
Definition topic_event : @PduEvent (@env_ruma concrete_env) := {|
  event_id := mk_event "$b"; room_id := room1; sender := alice; origin_server_ts := 0; kind := lit "m.room.topic";
  content := text "c"; state_key := Some (lit ""); prev_events := []; depth := 1; auth_events := [];
  redacts := None; unsigned := None; hashes := []; signatures := None |}.

Lemma state_wf_empty s : state_wf s ∅.
Proof. split; [intros c c' []%elem_of_empty|intros c []%elem_of_empty]. Qed.

Lemma room_state_empty r : get_room_shortstatehash r empty_state = (Ok None, empty_state).
Proof. unfold get_room_shortstatehash. db_step. by rewrite db_map_empty, lookup_empty. Qed.

Lemma append_to_state_correct_witness :
  ∃ h s', append_to_state topic_event empty_state = (Ok h, s') ∧
    (state_get_id h (lit "m.room.topic") (lit "") s').1 = Ok (Some (mk_event "$b")).
Proof.
  destruct (append_to_state_correct topic_event (lit "") None [] empty_state short_inv_empty state_inv_empty)
    as (h & l & s' & E & _ & _ & _ & _ & H & _).
  - by rewrite count_empty.
  - apply room_state_empty.
  - reflexivity.
  - apply state_wf_empty.
  - reflexivity.
  - exists h, s'. split; [exact E|]. rewrite H, decide_True by reflexivity. reflexivity.
Defined.

Lemma set_event_state_correct_witness :
  ∃ h l s' s'', StateService.set_event_state (mk_event "$b") room1 [cse 1 2; cse 3 4; cse 5 6] empty_state = (Ok h, s') ∧
    load_shortstatehash_info h s' = (Ok l, s'') ∧ full_of l = list_to_set [cse 1 2; cse 3 4; cse 5 6].
Proof.
  destruct (set_event_state_correct (mk_event "$b") room1 [cse 1 2; cse 3 4; cse 5 6] empty_state
    short_inv_empty state_inv_empty) as (h & l & s' & s'' & E & _ & _ & _ & E' & Hf).
  - by rewrite count_empty.
  - apply keyed_cse.
  - by exists h, l, s', s''.
Defined.

(** The room whose only state is the join of alice. *)
Definition member_event : @PduEvent (@env_ruma concrete_env) := {|
  event_id := mk_event "$a"; room_id := room1; sender := alice; origin_server_ts := 0; kind := lit "m.room.member";
  content := text "join"; state_key := Some (as_str alice); prev_events := []; depth := 1; auth_events := [];
  redacts := None; unsigned := None; hashes := []; signatures := None |}.
Definition member_number : N := default 0 (match run (append_to_state member_event) empty_state with Ok h => Some h | _ => None end).
Definition member_state : State :=
  put eventid_outlierpdu (idb (mk_event "$a")) (to_vec member_event)
    (put roomid_shortstatehash (idb room1) (to_be_bytes member_number) (after (append_to_state member_event) empty_state)).

Lemma member_state_run :
  ∃ l, append_to_state member_event empty_state = (Ok member_number, after (append_to_state member_event) empty_state) ∧
    ShortInv member_state ∧ StateInv member_state ∧ previous_state member_state (Some member_number) l ∧
    state_wf member_state (full_of l) ∧
    state_has member_state (full_of l) (lit "m.room.member") (as_str alice) (mk_event "$a").
Proof.
  destruct (append_to_state_run member_event (as_str alice) None [] empty_state short_inv_empty state_inv_empty)
    as (h & l & s' & E & I & SI & _ & _ & H1 & H2 & Hl & Hwf & Hh & _).
  - by rewrite count_empty.
  - apply room_state_empty.
  - reflexivity.
  - apply state_wf_empty.
  - reflexivity.
  - exists l. unfold member_state. rewrite (after_run _ _ _ _ E).
    assert (member_number = h) as -> by (unfold member_number, run; rewrite E; reflexivity).
    assert (∀ t v b, count (put eventid_outlierpdu v b (put roomid_shortstatehash t (to_be_bytes h) s')) = count s') as Ec
      by (intros; by db_simpl).
    assert (StateInv (put roomid_shortstatehash (idb room1) (to_be_bytes h) s')) as SI1
      by exact (state_inv_set_room _ _ _ _ SI H1 H2 Hl).
    split_and!.
    + exact E.
    + apply short_inv_put; [by_compute|]. apply short_inv_put; [by_compute|exact I].
    + apply (state_inv_same _ _ SI1); [by db_simpl|reflexivity|].
      intros t Ht. apply db_map_put_ne. intros <-. revert Ht. by_compute.
    + split_and!; [exact H1|by rewrite Ec|]. eapply layers_mono; [|exact Hl]. by db_simpl.
    + split; [apply Hwf|]. intros c Hc. destruct (proj2 Hwf c Hc) as (t & k & e & He). exists t, k, e.
      eapply entry_of_mono; [| |exact He]; by db_simpl.
    + destruct (proj2 (Hh (lit "m.room.member") (as_str alice) (mk_event "$a"))) as (c & Hc & He);
        [rewrite decide_True by reflexivity; reflexivity|].
      exists c. split; [exact Hc|]. eapply entry_of_mono; [| |exact He]; by db_simpl.
Qed.

Lemma peek_nil {K V} `{EqDecision K} (c : AssocLru.t K V) (k : K) : AssocLru.items c = [] → lru_peek c k = None.
Proof. intros H. change (AssocLru.find k (AssocLru.items c) = None). by rewrite H. Qed.

Lemma get_auth_events_correct_witness :
  ∃ m s', get_auth_events room1 (lit "m.room.topic") alice (Some (lit "")) b#"c" member_state = (Ok m, s') ∧
    m !! (lit "m.room.member", as_str alice) = Some member_event.
Proof.
  destruct member_state_run as (l & _ & I & SI & Hp & Hwf & Hh).
  destruct (get_auth_events_correct room1 (lit "m.room.topic") alice (Some (lit "")) b#"c"
    [(lit "m.room.create", lit ""); (lit "m.room.member", as_str alice)] member_number l member_state I SI)
    as (m & s' & E & H).
  - by_compute.
  - intros e p H. rewrite peek_nil in H by by_compute. discriminate H.
  - unfold get_room_shortstatehash. db_step. unfold member_state. db_simpl. rewrite lookup_insert_eq.
    unfold parse_u64, lift. cbn [fmap option_fmap option_map]. by rewrite u64_from_be_u64 by by_compute.
  - exact Hp.
  - exact Hwf.
  - reflexivity.
  - exists m, s'. split; [exact E|]. apply H. split; [right; left|]. exists (mk_event "$a"). split; [exact Hh|by_compute].
Defined.

(** ** The timeline service *)

Lemma good_empty : Good empty_state.
Proof.
  split; [apply count_ok_empty|apply short_inv_empty|apply state_inv_empty|]. intros e p H.
  rewrite peek_nil in H by reflexivity. discriminate H.
Qed.

(** A server that knows the number of one room, which has no state yet. *)
Definition room_db : State := after (get_or_create_shortroomid room1) empty_state.
Definition server0 : ServerState := MkServer (MkHandler room_db ∅ [] []) [].

Lemma room_db_good : Good room_db.
Proof.
  destruct (get_or_create_shortroomid_spec room1 empty_state short_inv_empty count_ok_empty)
    as (n & s' & E & I & C & _ & _ & _ & _ & F).
  unfold room_db. rewrite (after_run _ _ _ _ E). rewrite count_empty in C. split.
  - unfold count_ok. lia.
  - exact I.
  - apply (state_inv_same empty_state s'); [apply state_inv_empty|rewrite count_empty; lia|apply F|].
    intros t Ht. apply (fr_trees _ _ _ F). revert t Ht. apply (Forall_forall (.∉ _)). by_compute.
  - intros e p H. rewrite (fr_pdu _ _ _ F), peek_nil in H by reflexivity. discriminate H.
Qed.

Lemma room_db_numbered : room_numbered (sv_db server0) room1 1.
Proof. split; [done|]. by_compute. Qed.

(** An outcome that can be compared. *)
Lemma outcome_is {S A} `{!EqDecision A} (m : M S A) s (a : A) :
  match (m s).1 with Ok b => bool_decide (b = a) | _ => false end = true → m s = (Ok a, (m s).2).
Proof.
  destruct (m s) as [[b| |] s']; cbn; [|done..]. intros H%bool_decide_eq_true. by subst.
Qed.

Lemma append_pdu_stores_witness :
  let '(o, s') := TimelineService.append_pdu (event "$a" []) (event "$a" [], []) [mk_event "$a"] server0 in
  get_pdu_json (mk_event "$a") (sv_db s') = (Ok (Some (event "$a" [], [])), sv_db s').
Proof.
  pose proof (append_pdu_stores (event "$a" []) (event "$a" [], []) [mk_event "$a"] 1 server0 (event "$a" [], [])
    room_db_numbered) as H.
  specialize (H ltac:(by_compute) eq_refl). destruct (TimelineService.append_pdu _ _ _ _) as [o s'].
  apply H. by_compute.
Defined.
Definition bad_message : @PduEvent (@env_ruma concrete_env) := set_content b#"bad" (event "$a" []).

Lemma append_pdu_bad_message_witness :
  let '(o, s') := TimelineService.append_pdu bad_message (bad_message, []) [mk_event "$a"] server0 in
  (∀ x, o ≠ Ok x) ∧ get_pdu_json (mk_event "$a") (sv_db s') = (Ok (Some (bad_message, [])), sv_db s').
Proof.
  apply (append_pdu_bad_message bad_message (bad_message, []) [mk_event "$a"] 1 server0 room_db_numbered).
  - by_compute.
  - reflexivity.
  - reflexivity.
  - reflexivity.
Defined.

(** The first event of a room. *)
Definition first_event : PduBuilder := {|
  pb_event_type := lit "m.room.create"; pb_content := b#"9"; pb_unsigned := None;
  pb_state_key := Some (lit ""); pb_redacts := None |}.


Lemma build_and_append_pdu_rejected_witness :
  let b := {| pb_event_type := lit "forbidden"; pb_content := b#"x"; pb_unsigned := None;
              pb_state_key := None; pb_redacts := None |} in
  let '(o, s') := build_and_append_pdu b alice room1 server0 in
  (∀ e, o ≠ Ok e) ∧ ∀ t, db_map (sv_db s') t = db_map (sv_db server0) t.
Proof.
  intros b. pose proof (build_and_append_pdu_rejected b alice room1 server0 room_db_good) as H.
  destruct (build_and_append_pdu b alice room1 server0) as [o s']. destruct H as (H1 & H2 & _); [|by split].
  intros x E.
  assert (match (create_hash_and_sign_event b alice room1 (sv_db server0)).1 with Ok _ => false | _ => true end = true) as Hf
    by (vm_compute; reflexivity).
  rewrite E in Hf. discriminate Hf.
Defined.

Lemma append_incoming_soft_fail_witness :
  ∃ s', append_incoming_pdu (event "$a" []) (event "$a" [], []) [mk_event "$b"] [cse 1 2; cse 3 4; cse 5 6] true server0
          = (Ok None, s') ∧
    get_forward_extremities room1 (sv_db s') = (Ok (list_to_set [mk_event "$b"]), sv_db s').
Proof.
  destruct (append_incoming_soft_fail (event "$a" []) (event "$a" [], []) [mk_event "$b"] [cse 1 2; cse 3 4; cse 5 6] server0)
    as (h & l & s' & d & E & _ & _ & _ & L & _).
  - apply room_db_good.
  - apply room_db_good.
  - by_compute.
  - apply keyed_cse.
  - exists s'. split; [exact E|exact L].
Defined.

(** ** Ephemeral data *)

Lemma typing_refinement_witness :
  ∃ s', for_each [TypingStart alice room1 30; TypingStart bob room1 40; TypingStop alice room1] run_typing empty_state
          = (Ok (), s') ∧ typings_all room1 s' = (Ok {[bob]}, s').
Proof.
  destruct (typing_refinement [TypingStart alice room1 30; TypingStart bob room1 40; TypingStop alice room1]
    (λ _, ∅) empty_state) as (s' & E & _ & H).
  - split. intros k v. by rewrite db_map_empty, lookup_empty.
  - by rewrite count_empty.
  - by repeat constructor.
  - intros r u. split; [|by intros ?%not_elem_of_empty].
    intros (t & c & _ & _ & Hl). by rewrite db_map_empty, lookup_empty in Hl.
  - exists s'. split; [exact E|]. rewrite H. reflexivity.
Defined.

Definition receipt : @ReceiptEvent concrete_env := lit "receipt".

Lemma readreceipt_update_correct_witness :
  ∃ s', readreceipt_update alice room1 receipt empty_state = (Ok (), s') ∧
    db_map s' readreceiptid_readreceipt !! receipt_key room1 1 alice = Some (to_vec receipt).
Proof.
  destruct (readreceipt_update_correct alice room1 receipt empty_state) as (s' & E & _ & H).
  - split; [intros k v|intros r u c c']; rewrite !db_map_empty, !lookup_empty; [done|by intros [? ?]].
  - apply count_ok_empty.
  - exists s'. split; [exact E|]. apply H; [by rewrite count_empty|].
    rewrite decide_True by done. by rewrite count_empty.
Defined.

(** ** Account data, search, shared rooms *)

Lemma room_ids_not_empty (r : identifier (@valid_room_id (@env_ruma concrete_env))) : idb r ≠ [].
Proof.
  destruct r as [s Hs]. unfold idb. cbn [as_str]. intros E. cbn in Hs. unfold sigil in Hs. by rewrite E in Hs.
Qed.

Definition tag : json := JObj [(lit "type", JStr (lit "m.tag")); (lit "content", JNull)].

Lemma update_correct_witness :
  ∃ s', ClientData.update (Some room1) alice (lit "m.tag") tag empty_state = (Ok (), s') ∧
    ClientData.get (Some room1) alice (lit "m.tag") s' = (Ok (Some (to_raw_value tag)), s').
Proof.
  destruct (update_correct room_ids_not_empty (Some room1) alice (lit "m.tag") tag empty_state) as (s' & E & _ & H & _).
  - split; intros *; by rewrite !db_map_empty, lookup_empty.
  - apply count_ok_empty.
  - done.
  - exists s'. split; [exact E|exact H].
Defined.

(** Room 5 has the word [cat] at position 9. *)
Definition search_state : State :=
  put tokenids (token_key 5 (lit "cat") 9) [] (put roomid_shortroomid (idb room1) (to_be_bytes 5) empty_state).

Lemma search_pdus_correct_witness :
  ∃ cs, search_pdus room1 (lit "cat") search_state =
      (Ok (Some ((λ c, to_be_bytes 5 ++ to_be_bytes c) <$> cs, [lit "cat"])), search_state) ∧ 9 ∈ cs.
Proof.
  destruct (search_pdus_correct room1 5 (lit "cat") [] (lit "cat") search_state) as (cs & E & _ & H).
  - intros k v. unfold search_state. rewrite db_map_put_eq, db_map_other by discriminate.
    rewrite lookup_insert_Some, lookup_empty. intros [[<- _]|[_ ?]]; [|done]. by exists 5, (lit "cat"), 9.
  - reflexivity.
  - unfold search_state. rewrite db_map_put_ne by discriminate. apply lookup_one_eq.
  - reflexivity.
  - exists cs. split; [exact E|]. apply H. split; [reflexivity|].
    intros w' ->%list_elem_of_singleton. unfold indexed, search_state. rewrite db_map_put_eq, lookup_insert_eq. by eexists.
Defined.

Definition joined_state : State :=
  put userroomid_joined (idkey alice room1) [] (put userroomid_joined (idkey bob room1) [] empty_state).

Lemma get_shared_rooms_correct_witness :
  ∃ rooms, get_shared_rooms [alice; bob] joined_state = (Ok (Ok <$> rooms), joined_state) ∧ room1 ∈ rooms.
Proof.
  destruct (get_shared_rooms_correct alice [bob] joined_state) as (rooms & E & _ & H).
  - unfold joined_state. rewrite db_map_put_eq. apply id_keyed_insert. rewrite db_map_put_eq. apply id_keyed_insert.
    rewrite db_map_empty. intros k v. by rewrite lookup_empty.
  - exists rooms. split; [exact E|]. apply H. intros u' Hu. apply elem_of_cons in Hu as [->|Hu].
    + unfold joined_state. rewrite db_map_put_eq, lookup_insert_eq. by eexists.
    + apply list_elem_of_singleton in Hu as ->. vm_compute. by eexists.
Defined.

(** ** Authentication *)

Definition password_flow : UiaaInfo :=
  {| ui_flows := [[APassword]]; ui_completed := []; ui_params := []; ui_session := None; ui_auth_error := None |}.
Definition two_stage_flow : UiaaInfo :=
  {| ui_flows := [[APassword; ADummy]]; ui_completed := []; ui_params := []; ui_session := None; ui_auth_error := None |}.
(** The account of alice, with the password [pw]. *)
Definition account_pw : State := put userid_password (idb alice) b#"$pw" empty_state.
Definition auth_alice : AuthData := AuthPassword (UserIdOrLocalpart (lit "alice")) (lit "pw") None.

Lemma try_auth_sound_witness :
  ∃ i' s', try_auth (lit "session") alice phone auth_alice password_flow account_pw = (Ok (true, i'), s') ∧
    ui_completed i' = [APassword].
Proof.
  destruct (try_auth (lit "session") alice phone auth_alice password_flow account_pw) as [r s'] eqn:E.
  assert ((λ r, match r with Ok (true, _) => true | _ => false end)
    (try_auth (lit "session") alice phone auth_alice password_flow account_pw).1 = true) as H by (vm_compute; reflexivity).
  rewrite E in H. cbn in H. destruct r as [[[|] i']| |]; [|discriminate H..]. exists i', s'. split; [reflexivity|].
  destruct (try_auth_sound _ _ _ _ _ _ _ _ E) as (i & session & Hi & _ & _ & _ & Hc & _).
  cbn in Hi. subst i. exact Hc.
Defined.

Lemma try_auth_progress_witness :
  ∃ i' s', try_auth (lit "session") alice phone auth_alice two_stage_flow account_pw = (Ok (false, i'), s') ∧
    (ui_auth_error i' ≠ None ∨
     ∃ session, ui_session i' = Some session ∧ get_uiaa_session alice phone session s' = (Ok i', s')).
Proof.
  destruct (try_auth (lit "session") alice phone auth_alice two_stage_flow account_pw) as [r s'] eqn:E.
  assert ((λ r, match r with Ok (false, _) => true | _ => false end)
    (try_auth (lit "session") alice phone auth_alice two_stage_flow account_pw).1 = true) as H by (vm_compute; reflexivity).
  rewrite E in H. cbn in H. destruct r as [[[|] i']| |]; [discriminate H| |discriminate H..].
  exists i', s'. split; [reflexivity|].
  destruct (try_auth_progress _ _ _ _ _ _ _ _ E) as [(_ & _ & He)|(_ & _ & Hs)]; [left; exact He|right; exact Hs].
Defined.

Lemma try_auth_unknown_user_witness :
  ∃ i' s', try_auth (lit "session") alice phone (AuthPassword (UserIdOrLocalpart (lit "nobody")) (lit "x") None)
    password_flow empty_state = (Ok (true, i'), s').
Proof.
  apply (try_auth_unknown_user (lit "session") alice phone (lit "nobody") (lit "x") (mk_user "@nobody:a.org")).
  - vm_compute. reflexivity.
  - reflexivity.
  - reflexivity.
  - reflexivity.
Defined.

(** ** Lazy loading *)

Lemma lazy_loading_refinement_witness :
  let ops := [LazySent alice (lit "phone") room1 {[bob]} 7; LazyConfirm alice (lit "phone") room1 7] in
  ∃ s', for_each ops run_lazy (MkLazy empty_state ∅) = (Ok (), s') ∧
    (LazyLoading.lazy_load_was_sent_before alice (lit "phone") room1 bob s').1 = Ok true.
Proof.
  destruct (lazy_loading_refinement
    [LazySent alice (lit "phone") room1 {[bob]} 7; LazyConfirm alice (lit "phone") room1 7]
    (MkLazy empty_state ∅)) as (s' & E & H).
  - reflexivity.
  - intros u d r x. unfold was_sent. cbn [ll_db]. rewrite db_map_empty, lookup_empty. by intros [? ?].
  - exists s'. split; [exact E|]. rewrite H. f_equal.
Defined.

(** ** The cache of events and the auth chain *)

(** Three outliers: [$c] has the auth event [$b], [$b] the auth event [$a]. *)
Definition outliers : State :=
  put eventid_outlierpdu (idb (mk_event "$c")) (to_vec (event "$c" ["$b"]))
    (put eventid_outlierpdu (idb (mk_event "$b")) (to_vec (event "$b" ["$a"]))
      (put eventid_outlierpdu (idb (mk_event "$a")) (to_vec (event "$a" [])) empty_state)).

Lemma get_pdu_correct_witness :
  ∃ s', get_pdu (mk_event "$b") outliers = (Ok (Some (event "$b" ["$a"])), s').
Proof.
  destruct (get_pdu_correct (mk_event "$b") (event "$b" ["$a"]) outliers) as (s' & E & _).
  - by intros e p.
  - by_compute.
  - exists s'. exact E.
Defined.

Definition new_text : @PduEvent (@env_ruma concrete_env) := event "$a" ["$b"].
Definition cached_state : State :=
  set_pdu_cache (lru_insert (mk_event "$a") (event "$a" []) (lru_new 100))
    (put eventid_pduid (idb (mk_event "$a")) (pdu_id_of 5 9) timeline_state).

Lemma replace_pdu_stale_witness :
  let s' := (replace_pdu (pdu_id_of 5 9) new_text cached_state).2 in
  stored_pdu s' (mk_event "$a") = Some new_text ∧ (get_pdu (mk_event "$a") s').1 = Ok (Some (event "$a" [])).
Proof.
  destruct (replace_pdu_stale (mk_event "$a") (pdu_id_of 5 9) (event "$a" []) new_text cached_state) as (_ & H1 & H2 & _).
  - by_compute.
  - intros E. apply (f_equal auth_events) in E. discriminate E.
  - unfold cached_state. db_simpl. apply lookup_insert_eq.
  - unfold cached_state. db_simpl. rewrite timeline_entries. eexists. apply lookup_singleton_eq.
  - split; [exact H1|exact H2].
Defined.

Definition chain : gset (identifier (@valid_event_id (@env_ruma concrete_env))) :=
  {[mk_event "$a"; mk_event "$b"; mk_event "$c"]}.

Lemma outliers_pdu e p : stored_pdu outliers e = Some p → room_id p = room1 ∧ Forall (.∈ chain) (auth_events p) ∧
  (length (auth_events p) ≤ 1)%nat.
Proof.
  unfold stored_pdu, outliers. rewrite !db_map_put_ne, !db_map_empty, lookup_empty by discriminate.
  rewrite !db_map_put_eq, db_map_empty.
  destruct (_ !! idb e) as [v|] eqn:E; [|done]. cbn [mbind option_bind].
  repeat (apply lookup_insert_Some in E as [[_ <-]|[_ E]];
    [rewrite from_slice_to_vec; intros [= <-]; cbn [room_id auth_events event];
     split; [reflexivity|split; [repeat constructor; by_compute|cbn; lia]]|]).
  by rewrite lookup_empty in E.
Qed.

(** The outlier tree is no part of the numbering. *)
Lemma short_inv_outlier k v s : ShortInv s → ShortInv (put eventid_outlierpdu k v s).
Proof.
  intros I. assert (count (put eventid_outlierpdu k v s) = count s) as C
    by (unfold count; by rewrite db_map_put_ne).
  split; rewrite ?C, ?db_map_put_ne by discriminate; intros *; rewrite ?db_map_put_ne by discriminate; apply I.
Qed.

Lemma get_auth_chain_inner_correct_witness :
  ∃ found s', get_auth_chain_inner 6 room1 (mk_event "$c") outliers = (Ok (Some found), s') ∧
    ∃ n, n ∈ found ∧ short_of s' (mk_event "$a") n.
Proof.
  destruct (get_auth_chain_inner_correct outliers room1 chain 1 6 (mk_event "$c")) as (found & s' & E & Hn & Hf).
  - split.
    + intros e p _ H. by apply outliers_pdu in H as [? _].
    + intros e e' _ (p & H & He'). apply outliers_pdu in H as (_ & H & _). rewrite Forall_forall in H. by apply H.
    + intros e p _ H. by apply outliers_pdu in H as (_ & _ & ?).
  - do 3 apply short_inv_outlier. apply short_inv_empty.
  - by intros e p.
  - by_compute.
  - by_compute.
  - by_compute.
  - exists found, s'. split; [exact E|].
    assert (tc (auth_edge outliers) (mk_event "$c") (mk_event "$a")) as H.
    { apply (tc_l _ _ (mk_event "$b")); [|apply tc_once].
      - exists (event "$c" ["$b"]). split; [by_compute|left].
      - exists (event "$b" ["$a"]). split; [by_compute|left]. }
    destruct (Hn _ H) as [n Hs]. exists n. split; [|exact Hs]. apply Hf. exists (mk_event "$a"). split; [exact H|exact Hs].
Defined.

(** ** Key backups *)

Definition backups : State :=
  put backupid_algorithm (backup_key alice (u64_to_string 10)) []
    (put backupid_algorithm (backup_key alice (u64_to_string 9)) [] empty_state).

Lemma add_key_correct_witness :
  let s' := (add_key alice (u64_to_string 9) room1 (lit "session") (lit "data") backups).2 in
  get_session alice (u64_to_string 9) room1 (lit "session") s' = (Ok (Some (lit "data")), s').
Proof.
  pose proof (add_key_correct alice (u64_to_string 9) room1 (lit "session") (lit "data") backups) as H.
  destruct (db_map backups backupid_algorithm !! backup_key alice (u64_to_string 9)) as [v|] eqn:Ev.
  - destruct H as (_ & H & _); [vm_compute; reflexivity|exact H].
  - exfalso. revert Ev. by_compute.
Defined.

Lemma latest_backup_by_text_witness :
  ∃ v, get_latest_backup_version alice backups = (Ok (Some v), backups) ∧ v ≠ u64_to_string 10.
Proof.
  apply latest_backup_by_text.
  - intros k w. unfold backups. rewrite !db_map_put_eq, db_map_empty.
    intros [[<- _]|[_ [[<- _]|[_ H]]%lookup_insert_Some]]%lookup_insert_Some.
    + by exists alice, 10.
    + by exists alice, 9.
    + by rewrite lookup_empty in H.
  - vm_compute. by eexists.
  - vm_compute. by eexists.
Defined.
