(* ===== verification/WitnessesApi.v ===== *)
(** * Witnesses for the routes

    The theorems on other servers, requests, accounts, rooms and the federation
    API, applied to concrete data in the environment of [ConcreteApi.v]. *)

From S2P Require Import Prelude Bytes RStr Decimal Error Utils KvTree Engines Env Db Keys Concrete ConcreteApi Globals Frames OpFrames Short RoomState StateCompressor Pdu Timeline StateAccessor Users StateCache Uiaa SendingService RoomIndex ClientData EventFormat MembershipService StateService Lookups TimelineService AuthChain Federation EventHandler Request Admin Account Membership Rooms RoomEvents ServerServer Sync Witnesses.

(** ** Keys and headers *)

Definition evil : identifier (@valid_server_name (@env_ruma concrete_env)) := mk_server "evil.org".
Definition friend : identifier (@valid_server_name (@env_ruma concrete_env)) := mk_server "b.org".
Definition friend_keys : @ServerSigningKeys (@env_ruma concrete_env) := MkSigningKeys _ friend [(lit "ed25519:1", lit "key")] [] [] 0.
Definition key_text (k : @ServerSigningKeys (@env_ruma concrete_env)) : rstr := to_str (to_vec k).
(** Another server that publishes its keys. *)
Definition key_world : CWorld := MkWorld [] [(lit "b.org", key_text friend_keys)] None None None 0.

Lemma run_eta {S A} (m : M S A) (s : S) : m s = ((m s).1, (m s).2).
Proof. by destruct (m s). Qed.

(** A failure that can be compared. *)
Lemma failure_is {S A} (m : M S A) (s : S) (e : string) :
  match (m s).1 with Err (BadServerResponse e') => bool_decide (e' = e) | _ => false end = true →
  m s = (Err (BadServerResponse e), (m s).2).
Proof.
  destruct (m s) as [[|[]|] s']; cbn; try done. intros H%bool_decide_eq_true. by subst.
Qed.

Lemma fetch_signing_keys_correct_witness :
  let '(r, n') := fetch_signing_keys friend [lit "ed25519:1"] (node_of empty_state key_world) in
  contains_all_ids [lit "ed25519:1"] (stored_keys n' friend) = true.
Proof.
  pose proof (fetch_signing_keys_correct (node_of empty_state key_world) friend [lit "ed25519:1"] _ _ ltac:(by intros ??)
    (run_eta (fetch_signing_keys friend [lit "ed25519:1"]) (node_of empty_state key_world))) as (_ & _ & _ & H).
  assert (match (fetch_signing_keys friend [lit "ed25519:1"] (node_of empty_state key_world)).1 with Ok _ => true | _ => false end = true)
    as Hok by (vm_compute; reflexivity).
  destruct (fetch_signing_keys friend [lit "ed25519:1"] (node_of empty_state key_world)) as [[keys| |] n']; [|discriminate Hok..].
  apply H.
Defined.

(** The keys of the friend are stored. *)
Definition key_state : @State concrete_env := put server_signingkeys (idb friend) (to_vec friend_keys) empty_state.

Lemma fetch_signing_keys_blocked_witness :
  ∃ n', fetch_signing_keys evil [lit "ed25519:1"] (node_of key_state silent) =
      (Err (BadServerResponse "Failed to find public key for server"), n') ∧
    fetch_signing_keys friend [lit "ed25519:1"] n' = (Err (BadServerResponse "bad signature, still backing off"), n').
Proof.
  pose proof (failure_is (fetch_signing_keys evil [lit "ed25519:1"]) (node_of key_state silent)
    "Failed to find public key for server" ltac:(vm_compute; reflexivity)) as E.
  set (n' := (fetch_signing_keys evil [lit "ed25519:1"] (node_of key_state silent)).2) in E.
  exists n'. split; [exact E|].
  apply (fetch_signing_keys_blocked (node_of key_state silent) evil [lit "ed25519:1"] n' friend).
  - reflexivity.
  - exact E.
  - by_compute.
  - vm_compute. reflexivity.
Defined.

Lemma x_matrix_roundtrip_witness :
  x_matrix_decode (x_matrix_header friend (lit "ed25519:1") (lit "sig")) = Some (MkXMatrix friend (lit "ed25519:1") (lit "sig")).
Proof. apply x_matrix_roundtrip; by_compute. Defined.

Definition ping_request : @HttpRequest concrete_env concrete_http :=
  MkCRequest (lit "/ping") [] None (Some (x_matrix_header friend (lit "ed25519:1") (lit "sig"))).

Lemma from_request_sound_witness :
  ∃ r n', from_request (T := unit) ping_request (node_of key_state silent) = (Ok r, n') ∧ sender_servername r = Some friend.
Proof.
  destruct (from_request (T := unit) ping_request (node_of key_state silent)) as [o n'] eqn:E.
  assert (match (from_request (T := unit) ping_request (node_of key_state silent)).1 with Ok r => bool_decide (sender_servername r = Some friend) | _ => false end = true)
    as Hok by (vm_compute; reflexivity).
  rewrite E in Hok. destruct o as [r| |]; [|discriminate Hok..]. exists r, n'. split; [reflexivity|].
  destruct (from_request_sound _ _ _ _ E) as (query & bs & apps & n1 & Hq & Hb & Ha & Hs).
  assert (apps = []) as ->.
  { assert (match (ondb ClientData.all (node_of key_state silent)).1 with Ok l => bool_decide (l = []) | _ => false end = true) as H
      by (vm_compute; reflexivity).
    rewrite Ha in H. by apply bool_decide_eq_true in H. }
  destruct Hs as (x & keys & n2 & n3 & Hx & _ & _ & _ & Hr).
  assert (match x_matrix x_matrix_decode ping_request with inl x => bool_decide (xm_origin x = friend) | _ => false end = true)
    as Hd by (vm_compute; reflexivity).
  rewrite Hx in Hd. apply bool_decide_eq_true in Hd. apply (f_equal sd_servername) in Hr. rewrite <- Hd. exact Hr.
Defined.

(** A result that can be compared. *)
Lemma result_is {A} `{!EqDecision A} (r : res A) (a : A) :
  match r with Ok b => bool_decide (b = a) | _ => false end = true → r = Ok a.
Proof. destruct r as [b| |]; [|done..]. intros H%bool_decide_eq_true. by subst. Qed.

(** ** Accounts *)

Definition login_request : Request LoginRequest :=
  MkRequest (MkLogin (LoginPassword (UserIdOrLocalpart (lit "alice")) (lit "pw")) (Some phone) None) None None None None false.

Lemma account_pw_tokens : TokenInv account_pw ∧ devices_keyed account_pw.
Proof.
  unfold account_pw. split.
  - split.
    + intros a b. by rewrite !db_map_other, !lookup_empty by discriminate.
    + intros t ud. by rewrite db_map_other, lookup_empty by discriminate.
  - intros k. rewrite db_map_other, lookup_empty by discriminate. by intros [? ?].
Qed.

(** Alice is logged in on two devices. *)
Abbreviation laptop := (lit "LAPTOP").
Definition one_login : @State concrete_env := (create_device alice phone (lit "old") None account_pw).2.
Definition two_logins : @State concrete_env := (create_device alice laptop (lit "other") None one_login).2.

Lemma two_logins_tokens : TokenInv two_logins ∧ token_of two_logins (lit "old") alice phone ∧ token_of two_logins (lit "other") alice laptop.
Proof.
  destruct (create_device_correct alice phone (lit "old") None account_pw) as (_ & I1 & T1 & _);
    [apply account_pw_tokens|by_compute|apply result_is; vm_compute; reflexivity|]. fold one_login in I1, T1.
  destruct (create_device_correct alice laptop (lit "other") None one_login) as (_ & I2 & T2 & _ & Ho);
    [done|by_compute|apply result_is; vm_compute; reflexivity|]. fold two_logins in I2, T2, Ho.
  split_and!; [done| |done]. apply Ho; [discriminate|]. split; [done|]. discriminate.
Qed.
Lemma two_logins_keyed : devices_keyed two_logins.
Proof.
  intros k Hk. assert (k ∈ (map_to_list (db_map two_logins userdeviceid_metadata)).*1) as Hin.
  { destruct Hk as [v Hv]. apply list_elem_of_fmap. exists (k, v). split; [done|]. by apply elem_of_map_to_list. }
  clear Hk. assert ((map_to_list (db_map two_logins userdeviceid_metadata)).*1 ⊆ [userdeviceid alice phone; userdeviceid alice laptop]) as Hs
    by by_compute.
  apply Hs in Hin as [->|[->|?%not_elem_of_nil]%elem_of_cons]%elem_of_cons; [by exists alice, phone|by exists alice, laptop|done].
Qed.

Lemma login_correct_witness :
  ∃ resp n', login_route login_request (node_of two_logins silent) = (Ok resp, n') ∧ lr_user_id resp = alice ∧
    token_of (nd_db n') (lr_access_token resp) alice phone ∧ ¬ token_of (nd_db n') (lit "old") alice phone ∧
    token_of (nd_db n') (lit "other") alice laptop.
Proof.
  destruct two_logins_tokens as (I & T1 & T2).
  destruct (login_correct login_request (lit "pw") alice (node_of two_logins silent) (lit "$pw"))
    as (resp & n' & E & Hu & Htok & Hd & _ & Ht & Ho).
  - exists (lit "alice"). split; [reflexivity|by_compute].
  - by_compute.
  - discriminate.
  - by_compute.
  - exact I.
  - exact two_logins_keyed.
  - apply result_is. vm_compute. reflexivity.
  - specialize (Hd phone eq_refl). rewrite Hd in Ht, Ho. exists resp, n'.
    assert (drawn_token login_request (node_of two_logins silent) ≠ lit "old" ∧
      drawn_token login_request (node_of two_logins silent) ≠ lit "other") as [N1 N2] by (split; by_compute).
    split; [exact E|]. split; [exact Hu|]. split; [exact Ht|]. split.
    + intros H. apply Ho in H as [_ H]; [by apply H|]. intros H'. apply N1. rewrite <- Htok. by symmetry.
    + apply Ho; [|split; [exact T2|discriminate]]. intros H'. apply N2. rewrite <- Htok. by symmetry.
Defined.

(** The accounts of alice and mallory. *)
Abbreviation mallory := (mk_user "@mallory:a.org").
Definition two_accounts : @State concrete_env := put userid_password (idb mallory) b#"$mine" account_pw.
Definition change_request : Request ChangePasswordRequest :=
  MkRequest (MkChangePassword (lit "new") false (Some (AuthPassword (UserIdOrLocalpart (lit "mallory")) (lit "mine") None)))
    (Some alice) (Some phone) None None false.

Lemma change_password_other_user_witness :
  ∃ n', change_password_route change_request (node_of two_accounts silent) = (Ok (), n') ∧
    db_map (nd_db n') userid_password !! idb alice = Some b#"$new".
Proof.
  destruct (change_password_other_user change_request alice phone (lit "mallory") (lit "mine") mallory
    (lit "$mine") (lit "$new") (node_of two_accounts silent)) as (n' & E & H & _); try reflexivity.
  - by_compute.
  - exists n'. split; [exact E|exact H].
Defined.

(** ** Membership *)

Abbreviation carol := (mk_user "@carol:a.org").
(** Alice and carol are in the first room. *)
Definition two_members : @State concrete_env := StateCache.joined_state carol room1 (StateCache.joined_state alice room1 empty_state).

Lemma two_members_inv :
  MemberInv two_members ∧ membership two_members alice room1 = Some Joined ∧ membership two_members carol room1 = Some Joined.
Proof.
  destruct (moves_joined alice room1 empty_state member_inv_empty) as [I1 H1].
  destruct (moves_joined carol room1 (StateCache.joined_state alice room1 empty_state) I1) as [I2 H2].
  unfold two_members. rewrite !H2, H1. split_and!; [exact I2|by_compute|by_compute].
Qed.

Lemma authorized_user_correct_witness :
  ∃ u, authorized_user alice None [room2; room1] two_members = Some u ∧ membership two_members u room1 = Some Joined.
Proof.
  destruct two_members_inv as (I & Ha & _).
  destruct (authorized_user_correct alice None [room2; room1] two_members I) as [Hs Hc].
  destruct Hc as [u Hu]; [by_compute|exists room1; split; [right; left|exact Ha]|].
  exists u. split; [exact Hu|]. destruct (Hs u Hu) as (_ & r & Hr & Hj & Hm).
  assert (r = room1) as ->; [|exact Hm].
  apply elem_of_cons in Hr as [->|Hr%list_elem_of_singleton]; [|exact Hr]. revert Hj. by_compute.
Defined.

(** Alice is invited to a room of another server. *)
Abbreviation far_room := (mk_room "!far:b.org").
Definition invited : @State concrete_env := StateCache.invited_state alice far_room (Some []) empty_state.

Lemma mirror_kept s : agree [userroomid_joined; roomuserid_joined; userroomid_invitestate; roomuserid_invitecount;
    userroomid_leftstate; roomuserid_leftcount; global] empty_state s →
  mirror (@valid_room_id (@env_ruma concrete_env)) (@valid_server_name (@env_ruma concrete_env))
    (db_map s roomserverids) (db_map s serverroomids).
Proof. intros A. rewrite (A roomserverids), (A serverroomids), !db_map_empty by by_compute. apply mirror_empty. Qed.

Lemma leave_unknown_room_witness :
  ∃ n', leave_room alice far_room None (node_of invited silent) = (Ok (), n') ∧ membership (nd_db n') alice far_room = Some Left.
Proof.
  destruct (moves_invited alice far_room (Some []) empty_state member_inv_empty) as [I _].
  pose proof (leave_unknown_room alice far_room None [] (node_of invited silent)) as H.
  pose proof (outcome_is (leave_room alice far_room None) (node_of invited silent) ()) as E.
  specialize (E ltac:(vm_compute; reflexivity)).
  rewrite E in H. exists (leave_room alice far_room None (node_of invited silent)).2. split; [exact E|].
  destruct H as [[p Hp]|(_ & _ & H & _)].
  - apply result_is. vm_compute. reflexivity.
  - by_compute.
  - apply result_is. vm_compute. reflexivity.
  - exact I.
  - apply mirror_kept. intros t Ht. change (nd_db _) with invited. unfold invited, StateCache.invited_state, bump.
    repeat (rewrite ?db_map_put_ne, ?db_map_del_ne, ?db_map_incr_ne by (intros <-; revert Ht; by_compute)). reflexivity.
  - discriminate Hp.
  - exact H.
Defined.

(** ** The event handler *)

Abbreviation Pdu := (@PduEvent (@env_ruma concrete_env)).
Abbreviation Object := (@CanonicalJsonObject concrete_env).

(** An event in the first room with the create event as its only authorisation. *)
Definition remote_event (kind : string) (key : option string) (depth : N) (prev auth : list string) : Pdu := {|
  event_id := mk_event ("$" ++ kind ++ (if decide (depth = 1) then "1" else "2"))%string; room_id := room1; sender := bob;
  origin_server_ts := 0; Env.kind := lit kind; content := b#"9"; state_key := lit <$> key; prev_events := mk_event <$> prev;
  Env.depth := depth; auth_events := mk_event <$> auth; redacts := None; unsigned := None; hashes := []; signatures := None |}.
(** Its object, signed by the other server. *)
Definition signed_object (p : Pdu) : Object :=
  (p, [(lit "signatures", JObj [(lit "b.org", JObj [(lit "ed25519:1", JStr (lit "sig"))])]);
       (lit "auth_events", JArr (id_value <$> auth_events p));
       (lit "prev_events", JArr (id_value <$> prev_events p));
       (lit "room_id", id_value (room_id p))]).

Definition create_pdu : Pdu := remote_event "m.room.create" (Some "") 1 [] [].
Definition message_pdu : Pdu := remote_event "m.room.message" None 2 ["$m.room.create1"] ["$m.room.create1"].
(** The keys of the other server and the create event are known. *)
Definition outlier_state : @State concrete_env :=
  put eventid_outlierpdu (idb (event_id create_pdu)) (to_vec (signed_object create_pdu)) key_state.

(** The answer, if there is one. *)
Lemma outcome_ok {S A} (m : M S A) (s : S) :
  match (m s).1 with Ok _ => true | _ => false end = true → ∃ a, m s = (Ok a, (m s).2).
Proof. destruct (m s) as [[a| |] s']; cbn; [by exists a|done..]. Qed.

Lemma handle_outlier_pdu_sound_witness :
  ∃ pdu val n', handle_outlier_pdu 3 friend create_pdu (event_id message_pdu) room1 (signed_object message_pdu)
      (node_of outlier_state silent) = (Ok (pdu, val), n') ∧
    (∃ v (auth : gmap (rstr * rstr) Pdu), auth_check v pdu (auth !!.) = Some true) ∧
    db_map (nd_db n') eventid_outlierpdu !! idb (event_id pdu) = Some (to_vec val).
Proof.
  pose proof (outcome_ok (handle_outlier_pdu 3 friend create_pdu (event_id message_pdu) room1 (signed_object message_pdu))
    (node_of outlier_state silent)) as E. specialize (E ltac:(vm_compute; reflexivity)). destruct E as [[pdu val] E].
  destruct (handle_outlier_pdu_sound _ _ _ _ _ _ _ _ _ _ E)
    as (v & n1 & n2 & d3 & f & fe & tr & auth & os & _ & _ & _ & _ & _ & _ & _ & _ & _ & _ & _ & Ha & H).
  exists pdu, val. eexists. split; [exact E|]. split; [exists v, auth; exact Ha|exact H].
Defined.

(** The other server has the create event. *)
Definition create_world : CWorld := MkWorld [(lit "$m.room.create1", raw_of (signed_object create_pdu))] [] None None None 0.

Lemma outliers_safe_witness :
  let '(r, n') := fetch_and_handle_outliers 3 friend [event_id create_pdu] create_pdu room1 (lit "9") (node_of key_state create_world) in
  db_map (nd_db n') pduid_pdu = db_map key_state pduid_pdu.
Proof.
  destruct (fetch_and_handle_outliers 3 friend [event_id create_pdu] create_pdu room1 (lit "9") (node_of key_state create_world))
    as [r n'] eqn:E.
  by apply (outliers_safe _ _ _ _ _ _ _ _ _ _ E).
Defined.

(** A server with a room that alice has made and entered. *)
Definition second_event : PduBuilder := {|
  pb_event_type := lit "m.room.member"; pb_content := b#"join"; pb_unsigned := None;
  pb_state_key := Some (as_str alice); pb_redacts := None |}.
Definition founded : @State concrete_env :=
  sv_db (build_and_append_pdu second_event alice room1 (build_and_append_pdu first_event alice room1 server0).2).2.
Definition reply_pdu : Pdu := remote_event "m.room.message" None 3 ["$m.room.member2"] ["$m.room.create1"].
Definition first_pdu : Pdu := default no_event (stored_pdu founded (mk_event "$m.room.create1")).

Lemma upgrade_outlier_sound_witness :
  ∃ r n', upgrade_outlier_to_timeline_pdu 5 reply_pdu (signed_object reply_pdu) first_pdu friend room1 (node_of founded silent)
      = (r, n') ∧ ¬ still timeline_trees (node_of founded silent) n' ∧
    ∃ v (auth : gmap (rstr * rstr) Pdu), auth_check v reply_pdu (auth !!.) = Some true.
Proof.
  set (run := upgrade_outlier_to_timeline_pdu 5 reply_pdu (signed_object reply_pdu) first_pdu friend room1 (node_of founded silent)).
  exists run.1, run.2. split; [exact (surjective_pairing run)|].
  assert (¬ still timeline_trees (node_of founded silent) run.2) as Hn.
  { intros H. specialize (H eventid_pduid ltac:(by_compute)). apply (f_equal (.!! idb (event_id reply_pdu))) in H.
    revert H. apply (bool_decide_unpack (_ ≠ _)). vm_compute. exact I. }
  split; [exact Hn|].
  destruct (upgrade_outlier_sound 5 reply_pdu (signed_object reply_pdu) first_pdu friend room1 (node_of founded silent) run.1 run.2)
    as (v & st & ext & comp & auth & n1 & n4 & _ & Ha); [exact (surjective_pairing run)|exact Hn|].
  exists v, auth. exact Ha.
Defined.

(** [raw_of] is read back. *)
Lemma read_raw_of (o : Object) : from_slice (A := Object) (raw_text (raw_of o)) = Some o.
Proof.
  assert (raw_of o = MkStr (pos_bytes (encode o)) (pos_bytes_ascii _)) as ->.
  { unfold raw_of. cbn. unfold to_str. erewrite (proj2 (from_utf8_Some _ _)); [reflexivity|]. reflexivity. }
  cbn. rewrite bytes_pos_bytes. cbn [mbind option_bind]. apply decode_encode.
Qed.

Definition evil_keys : @ServerSigningKeys (@env_ruma concrete_env) := MkSigningKeys _ evil [(lit "ed25519:1", lit "key")] [] [] 0.
Definition evil_state : @State concrete_env := put server_signingkeys (idb evil) (to_vec evil_keys) empty_state.

Lemma self_reference_concrete :
  SelfReference evil (lit "9") (mk_event "$loop0") loop_object evil [(lit "ed25519:1", lit "key")] [lit "ed25519:1"].
Proof.
  split.
  - intros w. exists (raw_of loop_object), (mk_event "$loop0"), w. split; [reflexivity|].
    unfold gen_event_id_canonical_json. rewrite read_raw_of.
    assert ((reference_hash loop_object (lit "9") ≫= hash_event_id) = Some (mk_event "$loop0")) as Hh by by_compute.
    cbn [ok_or mbind res_bind]. cbn [mbind option_bind reference_hash concrete_events expect res_bind] in *. by rewrite Hh.
  - by_compute.
  - exists [(lit "ed25519:1", JStr (lit "sig"))]. split; reflexivity.
  - intros m Hm. change (verify_event m (canonical_remove (lit "unsigned") loop_object) (lit "9")) with
      (if signed_by m (canonical_remove (lit "unsigned") loop_object).2 then Some VerifiedAll else None).
    assert (signed_by m (canonical_remove (lit "unsigned") loop_object).2 = true) as ->; [|reflexivity].
    unfold signed_by.
    assert (obj_get (lit "signatures") (canonical_remove (lit "unsigned") loop_object).2 =
      Some (JObj [(as_str evil, JObj [(lit "ed25519:1", JStr (lit "sig"))])])) as -> by by_compute.
    cbn [forallb fst snd]. by rewrite Hm.
  - exists loop_pdu. split; reflexivity.
Qed.

Lemma self_reference_diverges_witness :
  (handle_outlier_pdu 100 evil create_pdu (mk_event "$loop0") room1 loop_object (node_of evil_state silent)).1 = Panic "out of fuel".
Proof.
  apply (self_reference_diverges evil (lit "9") (mk_event "$loop0") loop_object evil [(lit "ed25519:1", lit "key")] [lit "ed25519:1"]).
  - apply self_reference_concrete.
  - reflexivity.
  - split.
    + by_compute.
    + by_compute.
    + by_compute.
    + reflexivity.
    + by intros ??.
    + split; [vm_compute; reflexivity|reflexivity].
Defined.

(** ** Joining *)

(** A state event whose hash is wrong. *)
Definition tampered_pdu : Pdu := remote_event "tampered" (Some "") 1 [] [].
Definition tampered : Object := signed_object tampered_pdu.
Definition node_with_keys (d : @State concrete_env) : Node :=
  set_pub_key_map [(lit "b.org", [(lit "ed25519:1", lit "key")])] (node_of d silent).

Lemma join_state_bad_hash_witness :
  ∃ n', db_map (nd_db n') eventid_outlierpdu !! idb (event_id tampered_pdu) =
      Some (to_vec (canonical_insert (lit "event_id") (JStr (as_str (event_id tampered_pdu))) tampered)) ∧
    join_state_event (lit "9") ∅ (raw_of tampered) (node_with_keys empty_state) =
      (k ← ondb (get_or_create_shortstatekey (kind tampered_pdu) (lit "")); mret (<[k := event_id tampered_pdu]> ∅)) n'.
Proof.
  destruct (join_state_bad_hash (raw_of tampered) (lit "9") (event_id tampered_pdu) tampered tampered_pdu (lit "") ∅
    (node_with_keys empty_state)) as (n' & _ & H & E).
  - split_and!; [apply read_raw_of|by_compute|by_compute].
  - vm_compute. reflexivity.
  - reflexivity.
  - reflexivity.
  - reflexivity.
  - exists n'. split; [exact H|exact E].
Defined.

(** The other server of a room gives a template for a join and the create event. *)
Definition template : Pdu := set_content (write_member (plain_member MJoin None))
  (remote_event "m.room.member" (Some "@alice:a.org") 2 ["$m.room.create1"] ["$m.room.create1"]).
Definition join_world : CWorld :=
  MkWorld [] [(lit "b.org", key_text friend_keys)] None (Some (Some (lit "9"), raw_of (signed_object template)))
    (Some ([raw_of (signed_object create_pdu)], [], None)) 0.


(** ** Rooms *)

Definition create_request : Request (@CreateRoomRequest concrete_env) :=
  MkRequest (MkCreateRoom (Some (lit "den")) (Some (lit "9")) None false None VPublic [] None [] (Some (lit "Den")) None)
    (Some alice) (Some phone) None None false.

Lemma create_room_correct_witness :
  ∃ n', create_room_route 5 5 create_request (node_of empty_state silent) = (Ok (mk_room "!0:a.org"), n') ∧
    is_public_room (mk_room "!0:a.org") (nd_db n') = (Ok true, nd_db n') ∧
    ∃ (content : Object) e n1 n2, canonical_get (lit "room_version") content = Some (JStr (lit "9")) ∧
      send_event (raw_state (lit "m.room.create") (lit "") (to_vec content)) alice (mk_room "!0:a.org") n1 = (Ok e, n2).
Proof.
  pose proof (outcome_is (create_room_route 5 5 create_request) (node_of empty_state silent) (mk_room "!0:a.org")) as E.
  specialize (E ltac:(vm_compute; reflexivity)). eexists. split; [exact E|].
  destruct (create_room_correct _ _ _ _ _ _ E) as (u & n0 & k & n1 & c & e & n2 & [= <-] & _ & _ & _ & _ & Hv & _ & He & _ & H).
  split; [apply H; reflexivity|]. exists c, e, n1, n2. split; [exact Hv|exact He].
Defined.

(** ** Messages *)

Definition note (s : string) (txn : string) : Request (@SendMessageRequest concrete_env) :=
  MkRequest (MkSend room1 (lit "m.room.message") (lit txn) (lit s)) (Some alice) (Some phone) None None false.
Lemma event_ids_not_empty (e : identifier (@valid_event_id (@env_ruma concrete_env))) : idb e ≠ [].
Proof. destruct e as [s Hs]. unfold idb. cbn [as_str]. intros E. cbn in Hs. unfold sigil in Hs. by rewrite E in Hs. Qed.

Lemma send_message_once_witness :
  ∃ n1, send_message_event_route (note "hi" "t1") (node_of founded silent) = (Ok (mk_event "$m.room.message3"), n1) ∧
    send_message_event_route (note "again" "t1") n1 = (Ok (mk_event "$m.room.message3"), n1).
Proof.
  pose proof (outcome_is (send_message_event_route (note "hi" "t1")) (node_of founded silent) (mk_event "$m.room.message3")) as E.
  specialize (E ltac:(vm_compute; reflexivity)). eexists. split; [exact E|].
  apply (send_message_once event_ids_not_empty (note "hi" "t1") (note "again" "t1") _ _ _ _ E); reflexivity.
Defined.

(** Two events at the positions 7 and 9. *)
Definition two_events : @State concrete_env := put pduid_pdu (pdu_id_of 5 7) (to_vec (event "$b" [])) timeline_state.

Lemma history_pages_witness :
  ∃ p2, message_page Backward alice room1 9 None 1 two_events = (Ok p2, two_events) ∧
    message_page Backward alice room1 100 None 2 two_events = (Ok ([(9, event "$a" [])] ++ p2), two_events).
Proof.
  assert (timeline_keyed two_events) as Hk.
  { intros k v. unfold two_events. rewrite db_map_put_eq, lookup_insert_Some. intros [[<- _]|[_ H]]; [by exists 5, 7|].
    by apply timeline_keyed_one in H. }
  assert (room_numbered two_events room1 5) as Hr.
  { split; [done|]. unfold two_events. rewrite db_map_put_ne by done. apply timeline_numbered. }
  apply (history_pages alice room1 5 100 1 1 two_events [(9, event "$a" [])] 9 (event "$a" [])); done.
Defined.

Definition secret_event : Pdu := remote_event "m.room.message" None 2 [] [].
(** Alice is in the second room; the event is in the first. *)
Definition secret_state : @State concrete_env :=
  put eventid_outlierpdu (idb (event_id secret_event)) (to_vec (signed_object secret_event))
    (StateCache.joined_state alice room2 empty_state).

Lemma get_room_event_any_room_witness :
  (get_room_event_route (MkRequest (room2, event_id secret_event) (Some alice) (Some phone) None None false)
    (node_of secret_state silent)).1 = Ok (to_room_event secret_event).
Proof.
  destruct (moves_joined alice room2 empty_state member_inv_empty) as [I Hm].
  assert (agree [eventid_outlierpdu] (StateCache.joined_state alice room2 empty_state) secret_state) as A by (apply agree_put; left).
  destruct (membership_agree _ _ _ A ltac:(by_compute) I) as [I' Hm'].
  pose proof (outcome_is (get_pdu (event_id secret_event)) secret_state (Some secret_event)) as E.
  specialize (E ltac:(vm_compute; reflexivity)).
  apply (get_room_event_any_room (MkRequest (room2, event_id secret_event) (Some alice) (Some phone) None None false)
    (node_of secret_state silent) alice secret_event (get_pdu (event_id secret_event) secret_state).2).
  - reflexivity.
  - exact I'.
  - change (nd_db _) with secret_state. rewrite Hm', Hm. by_compute.
  - exact E.
  - change (nd_db _) with secret_state. rewrite Hm', Hm. by_compute.
Defined.

Definition state_request : Request (identifier (@valid_room_id (@env_ruma concrete_env))) :=
  MkRequest room1 (Some alice) (Some phone) None None false.
Definition no_context : Request (@ContextRequest concrete_env) :=
  MkRequest (MkContext (mk_event "$a") 10 None) (Some alice) (Some phone) None None false.

Lemma state_reads_private_witness :
  ∃ l n', get_state_events_route state_request (node_of two_members silent) = (Ok l, n') ∧
    ∃ u, sender_user state_request = Some u ∧
      (membership two_members u room1 = Some Joined ∨
       ∃ d e, (room_state_get room1 (lit "m.room.history_visibility") (lit "") d).1 = Ok (Some e) ∧
         agree [] two_members d ∧ visibility_content (content e) = Some HWorldReadable).
Proof.
  pose proof (outcome_ok (get_state_events_route state_request) (node_of two_members silent)) as E.
  specialize (E ltac:(vm_compute; reflexivity)). destruct E as [l E]. exists l. eexists. split; [exact E|].
  destruct two_members_inv as [I _].
  destruct (state_reads_private state_request no_context (node_of two_members silent) I) as [H _]. exact (H _ _ E).
Defined.

(** ** Other servers *)

(** The other server is in the first room, which has two events. *)
Definition shared_state : @State concrete_env :=
  put eventid_outlierpdu (idb (event_id create_pdu)) (to_vec (signed_object create_pdu))
    (put eventid_outlierpdu (idb (event_id message_pdu)) (to_vec (signed_object message_pdu))
      (put serverroomids (idkey friend room1) [] empty_state)).
Definition missing_request : Request (@MissingRequest concrete_env) :=
  MkRequest (MkMissing room1 [event_id message_pdu] [] 10) None None (Some friend) None false.

Lemma missing_events_sound_witness :
  ∃ l n', get_missing_events_route 5 missing_request (node_of shared_state silent) = (Ok l, n') ∧ length l = 2%nat ∧
    N.of_nat (length l) ≤ 10.
Proof.
  destruct (get_missing_events_route 5 missing_request (node_of shared_state silent)) as [o n'] eqn:E.
  assert (match (get_missing_events_route 5 missing_request (node_of shared_state silent)).1 with
          | Ok l => bool_decide (length l = 2%nat) | _ => false end = true) as H by (vm_compute; reflexivity).
  rewrite E in H. destruct o as [l| |]; [|discriminate H..]. apply bool_decide_eq_true in H. exists l, n'.
  split_and!; [reflexivity|exact H|]. destruct (missing_events_sound _ _ _ _ _ E) as (origin & _ & _ & Hl & _). exact Hl.
Defined.

Definition spoof : @Raw (@env_raw concrete_env) :=
  MkStr (pos_bytes (encode ((alice, lit "m.room_key", lit "txn", alice, phone, to_raw_value JNull) : ConcreteMessage))) (pos_bytes_ascii _).
Definition spoof_request : Request (list (@Raw (@env_raw concrete_env)) * list (@Raw (@env_raw concrete_env))) :=
  MkRequest ([], [spoof]) None None (Some evil) None false.

Lemma spoofed_to_device_witness :
  ∃ n', send_transaction_message_route 5 5 spoof_request (node_of empty_state silent) = (Ok ∅, n') ∧
    (get_to_device_events alice phone (nd_db n')).1 = Ok [to_raw_value (todevice_message alice (lit "m.room_key") JNull)].
Proof.
  apply (spoofed_to_device 5 5 spoof_request evil spoof alice alice (lit "m.room_key") (lit "txn") phone (to_raw_value JNull)
    JNull [] (node_of empty_state silent)).
  - reflexivity.
  - reflexivity.
  - reflexivity.
  - unfold spoof. cbn [edu_of concrete_server as_bytes]. rewrite bytes_pos_bytes. cbn [mbind option_bind]. by rewrite decode_encode.
  - by_compute.
  - by_compute.
  - by_compute.
  - intros k v. change (nd_db _) with empty_state. by rewrite db_map_empty, lookup_empty.
  - apply count_ok_empty.
  - intros u d c. change (nd_db _) with empty_state. rewrite db_map_empty, lookup_empty. by intros [? ?].
  - reflexivity.
Defined.

(** What the other server calls an invitation makes bob an admin of the room. *)
Definition levels_object : Object :=
  (remote_event "m.room.power_levels" (Some "") 2 [] [], [(lit "sender", id_value bob); (lit "state_key", id_value alice)]).
Definition hosted_state : @State concrete_env := put serverroomids (idkey (mk_server "a.org") room1) [] empty_state.
Definition invite_request : Request (@InviteRequest concrete_env) :=
  MkRequest (MkInvite room1 (lit "9") (raw_of levels_object) []) None None (Some evil) None false.

Lemma invite_signs_any_event_witness :
  ∃ raw n', create_invite_route invite_request (node_of hosted_state silent) = (Ok raw, n').
Proof.
  pose proof (outcome_is (acl_check evil room1) hosted_state ()) as E. specialize (E ltac:(vm_compute; reflexivity)).
  eexists. eexists.
  apply (invite_signs_any_event invite_request evil levels_object levels_object (lit "m.room.power_levels2")
    (mk_event "$m.room.power_levels2") bob alice levels_object.1 (node_of hosted_state silent) (acl_check evil room1 hosted_state).2).
  - reflexivity.
  - reflexivity.
  - exact E.
  - by_compute.
  - apply read_raw_of.
  - reflexivity.
  - by_compute.
  - by_compute.
  - reflexivity.
  - reflexivity.
  - reflexivity.
  - by_compute.
Defined.

(** ** Synchronisation *)


(** The room that alice has entered gets a topic: the state before it, and the state with it. *)
Definition topic_number : N := default 0 (match run (append_to_state topic_event) member_state with Ok h => Some h | _ => None end).
Definition topic_state : State :=
  put eventid_outlierpdu (idb (mk_event "$b")) (to_vec topic_event)
    (put roomid_shortstatehash (idb room1) (to_be_bytes topic_number) (after (append_to_state topic_event) member_state)).

Lemma topic_state_run :
  ∃ l0 l1, Good topic_state ∧ layers topic_state topic_number l1 ∧ state_wf topic_state (full_of l1) ∧
    layers topic_state member_number l0 ∧ state_wf topic_state (full_of l0) ∧
    get_room_shortstatehash room1 topic_state = (Ok (Some topic_number), topic_state) ∧
    state_has topic_state (full_of l1) (lit "m.room.topic") (lit "") (mk_event "$b") ∧
    ¬ state_has topic_state (full_of l0) (lit "m.room.topic") (lit "") (mk_event "$b").
Proof.
  destruct member_state_run as (l0 & _ & I0 & SI0 & Hp & Hwf0 & _).
  destruct (append_to_state_run topic_event (lit "") (Some member_number) l0 member_state I0 SI0)
    as (h & l & s' & E & I & SI & C & C' & H1 & H2 & Hl & Hwf & Hh & _).
  - by_compute.
  - unfold get_room_shortstatehash. db_step. unfold member_state. db_simpl. rewrite lookup_insert_eq.
    unfold parse_u64, lift. cbn [fmap option_fmap option_map]. by rewrite u64_from_be_u64 by by_compute.
  - exact Hp.
  - exact Hwf0.
  - reflexivity.
  - exists l0, l. assert (after (append_to_state topic_event) member_state = s') as Es by (unfold after; by rewrite E).
    assert (topic_number = h) as Eh by (unfold topic_number, run; rewrite E; reflexivity).
    assert (db_map member_state shortstatehash_statediff ⊆ db_map s' shortstatehash_statediff ∧
      db_map member_state statekey_shortstatekey ⊆ db_map s' statekey_shortstatekey ∧
      db_map member_state eventid_shorteventid ⊆ db_map s' eventid_shorteventid) as (D1 & D2 & D3)
      by (rewrite <- Es; split_and!; by_compute).
    unfold topic_state. rewrite Es, Eh. set (s2 := put eventid_outlierpdu _ _ _).
    assert (StateInv (put roomid_shortstatehash (idb room1) (to_be_bytes h) s')) as SI1 by exact (state_inv_set_room _ _ _ _ SI H1 H2 Hl).
    assert (∀ t k e, state_has s2 (full_of l) t k e ↔ state_has s' (full_of l) t k e) as Hs2.
    { intros t k e. unfold state_has, entry_of, s2. by db_simpl. }
    assert (state_wf s2 (full_of l0)) as W0.
    { split; [apply Hwf0|]. intros c Hc. destruct (proj2 Hwf0 c Hc) as (t & k & e & He). exists t, k, e.
      eapply entry_of_mono; [| |exact He]; unfold s2; by db_simpl. }
    split_and!.
    + split.
      * unfold s2. rewrite <- Es, <- Eh. by_compute.
      * apply short_inv_put; [by_compute|]. apply short_inv_put; [by_compute|exact I].
      * apply (state_inv_same _ _ SI1); [unfold s2; by db_simpl|reflexivity|].
        intros t Ht. apply db_map_put_ne. intros <-. revert Ht. by_compute.
      * intros e p H. rewrite peek_nil in H; [discriminate H|]. unfold s2. rewrite <- Es. by_compute.
    + eapply layers_mono; [|exact Hl]. unfold s2. by db_simpl.
    + split; [apply Hwf|]. intros c Hc. destruct (proj2 Hwf c Hc) as (t & k & e & He). exists t, k, e.
      eapply entry_of_mono; [| |exact He]; unfold s2; by db_simpl.
    + destruct Hp as (_ & _ & Hp). eapply layers_mono; [|exact Hp]. unfold s2. by db_simpl.
    + exact W0.
    + assert (db_map s2 roomid_shortstatehash !! idb room1 = Some (to_be_bytes h)) as Hroom.
      { unfold s2. rewrite db_map_put_ne by discriminate. by rewrite db_map_put_eq, lookup_insert_eq. }
      unfold get_room_shortstatehash. clearbody s2. db_step. rewrite Hroom.
      unfold parse_u64, lift. cbn [fmap option_fmap option_map]. rewrite u64_from_be_u64; [done|]. rewrite <- Eh. by_compute.
    + apply Hs2, Hh. by rewrite decide_True.
    + intros (c & Hc & He). destruct (proj2 Hwf0 c Hc) as (t & k & e & He').
      assert (entry_of s2 c t k e) as He2 by (eapply entry_of_mono; [| |exact He']; unfold s2; by db_simpl).
      assert (ShortInv s2) as I2 by (apply short_inv_put; [by_compute|]; apply short_inv_put; [by_compute|exact I]).
      destruct (entry_of_inj _ _ _ _ _ _ _ _ I2 He He2) as (_ & _ & <-). destruct He' as (sk & n & _ & _ & _ & _ & Hn).
      assert (db_map member_state eventid_shorteventid !! idb (mk_event "$b") = None) as Hnone by by_compute.
      rewrite Hnone in Hn. discriminate Hn.
Qed.

Definition sync_options : @SyncOptions concrete_env := MkOptions alice phone 0 1 false false false.

(** A message to the phone of alice at the position 5. *)
Definition message_state : @State concrete_env :=
  put todeviceid_events (todevice_key alice phone 5) (as_bytes (lit "1"))
    (put roomid_shortroomid (idb room1) (to_be_bytes 5) two_members).
Definition sync_request : SyncRequest := MkSyncRequest (Some (lit "7")) None false.

Lemma sync_to_device_witness :
  ∃ resp keep n', sync_helper alice phone sync_request (node_of message_state silent) = (Ok (resp, keep), n') ∧
    db_map (nd_db n') todeviceid_events !! todevice_key alice phone 5 = None.
Proof.
  pose proof (outcome_ok (sync_helper alice phone sync_request) (node_of message_state silent)) as E.
  specialize (E ltac:(vm_compute; reflexivity)). destruct E as [[resp keep] E]. exists resp, keep. eexists. split; [exact E|].
  destruct (sync_to_device alice phone sync_request (node_of message_state silent) resp keep _ E) as (_ & H & _).
  - change (todevice_keyed message_state). intros k v. unfold message_state. rewrite db_map_put_eq, lookup_insert_Some.
    intros [[<- _]|[_ H]]; [exists alice, phone, 5; split; [done|reflexivity]|]. revert H. unfold two_members, StateCache.joined_state.
    repeat (rewrite ?db_map_put_ne, ?db_map_del_ne by discriminate). by rewrite db_map_empty, lookup_empty.
  - apply H; [done|]. vm_compute. discriminate.
Defined.

(** The counter of the database is damaged. *)
Definition damaged : @State concrete_env := put global COUNTER [x00] empty_state.
Definition sync_body : Request SyncRequest := MkRequest sync_request (Some alice) (Some phone) None None false.

Lemma bad_database_is {S A} (m : M S A) (s : S) (e : string) :
  match (m s).1 with Err (BadDatabase e') => bool_decide (e' = e) | _ => false end = true →
  m s = (Err (BadDatabase e), (m s).2).
Proof.
  destruct (m s) as [[|[]|] s']; cbn; try done. intros H%bool_decide_eq_true. by subst.
Qed.

Lemma sync_error_sticky_witness :
  ∃ receivers, (sync_events_route sync_body (MkSyncNode (node_of damaged silent) ∅)).1 = Err (BadDatabase "Count has invalid bytes.") ∧
    sync_events_route sync_body (MkSyncNode (node_of empty_state silent) receivers) =
      (Err (BadDatabase "Count has invalid bytes."), MkSyncNode (node_of empty_state silent) receivers).
Proof.
  pose proof (bad_database_is (sync_helper alice phone sync_request) (node_of damaged silent) "Count has invalid bytes.") as H.
  specialize (H ltac:(vm_compute; reflexivity)).
  destruct (sync_error_sticky sync_body sync_body (MkSyncNode (node_of damaged silent) ∅) alice phone
    (BadDatabase "Count has invalid bytes.") (sync_helper alice phone sync_request (node_of damaged silent)).2
    (node_of empty_state silent)) as (receivers & E & E'); [..|exists receivers; rewrite E; split; [reflexivity|exact E']];
    first [exact H | reflexivity | intros x Hx; discriminate Hx].
Defined.
