(* ===== verification/WitnessesClient.v ===== *)
(** * Witnesses for the remaining routes, the network, media and the start

    The theorems of [KeysApi.v], [BackupApi.v], [AccountDataApi.v], [Directory.v],
    [Media.v], [Destination.v], [Delivery.v], [Migrations.v] and [AdminCommands.v]
    applied to concrete data in the environment of [ConcreteClient.v]. *)

From S2P Require Import Prelude Bytes RStr Decimal Error Utils KvTree Engines Env Db Keys Concrete ConcreteApi ConcreteClient Globals Frames OpFrames Short RoomState StateCompressor Pdu Timeline StateAccessor Users StateCache DeviceKeys KeyBackups Uiaa Sending SendingService RoomIndex ClientData EventFormat MembershipService StateService Lookups TimelineService AuthChain Federation EventHandler Request Admin Account Membership Rooms RoomEvents ServerServer Sync KeysApi Profile BackupApi AccountDataApi Directory ClientMisc Media IpAddr Destination Delivery Migrations AdminCommands Witnesses WitnessesApi.

(** ** Encryption keys *)

Abbreviation Dkid := (identifier (@valid_device_key_id (@env_ruma concrete_env))).
Definition upload_request : Request (list (Dkid * rstr) * option rstr) :=
  MkRequest ([(mk_dkid "ed25519:A", lit "key")], Some (lit "device")) (Some alice) (Some phone) None None false.
Definition take_request : Request (list (_ * list (_ * rstr))) :=
  MkRequest [(alice, [(phone, lit "ed25519")])] (Some alice) (Some phone) None None false.

(** The phone of alice is known. *)
Definition phone_state : @State concrete_env := put userdeviceid_metadata (userdeviceid alice phone) b#"phone" empty_state.
Lemma key_inv_phone : KeyInv phone_state.
Proof. unfold phone_state. split; intros k v; rewrite db_map_other by done; by intros ?%lookup_empty_Some. Qed.

(** The phone uploads a key, which is then taken. *)
Lemma key_storage_well_formed_witness :
  (∃ counts, (upload_keys_route upload_request (node_of phone_state silent)).1 = Ok counts) ∧
  KeyInv (nd_db (foldl serve_keys (node_of phone_state silent) [UploadKeys upload_request; TakeKeys take_request])).
Proof.
  split.
  - pose proof (outcome_ok (upload_keys_route upload_request) (node_of phone_state silent)) as E.
    specialize (E ltac:(vm_compute; reflexivity)). destruct E as [counts E]. exists counts. by rewrite E.
  - exact (key_storage_well_formed [UploadKeys upload_request; TakeKeys take_request] (node_of phone_state silent) key_inv_phone).
Defined.

Lemma key_inv_otk : KeyInv otk_state.
Proof.
  split; intros k v.
  - intros [-> ->]%lookup_one. by eexists alice, phone, _, _.
  - unfold otk_state. rewrite db_map_other by done. by intros ?%lookup_empty_Some.
Qed.

(** Alice's only key is handed out. *)
Lemma claim_keys_exact_witness :
  ∃ keys n', claim_keys_helper [(alice, [(phone, lit "ed25519")])] (node_of otk_state silent) = (Ok (keys, ∅), n') ∧
    db_map (nd_db n') onetimekeyid_onetimekeys !! otk_key alice phone (mk_dkid "ed25519:A") = None.
Proof.
  destruct (claim_keys_exact dkid_utf8_concrete [(alice, [(phone, lit "ed25519")])] (node_of otk_state silent))
    as (keys & n' & E & _ & Hk).
  - exact key_inv_otk.
  - by_compute.
  - apply Forall_singleton. split; by_compute.
  - exists keys, n'. split; [exact E|].
    destruct (claim_keys_helper _ _) as [r n''] eqn:E'. injection E as -> <-.
    assert (bool_decide (db_map (nd_db (claim_keys_helper [(alice, [(phone, lit "ed25519")])] (node_of otk_state silent)).2)
      onetimekeyid_onetimekeys !! otk_key alice phone (mk_dkid "ed25519:A") = None) = true) as H by (vm_compute; reflexivity).
    apply bool_decide_eq_true in H. by rewrite E' in H.
Defined.

(** The server of eve sends keys for alice, and bob's query shows them. *)
Lemma remote_keys_override_witness :
  ∃ resp n', get_keys_helper None [(mk_user "@eve:evil.org", [])] (λ _, true) (node_of empty_state silent) = (Ok resp, n') ∧
    kr_master_keys resp !! alice = Some (lit "forged").
Proof.
  pose proof (remote_keys_override None (λ _, true) [] (mk_user "@eve:evil.org") [] (node_of empty_state silent)
    no_keys (node_of empty_state silent) {[alice := lit "forged"]} ∅ ∅ silent) as H.
  specialize (H ltac:(by_compute) eq_refl eq_refl). destruct H as (resp & n' & E & Hm & _).
  exists resp, n'. split; [exact E|]. apply Hm. apply lookup_singleton_eq.
Defined.

(** ** Key backups *)

Lemma no_backups : holds (node_of empty_state silent) (MkBackups ∅ ∅).
Proof.
  split.
  - intros u v. change (nd_db (node_of empty_state silent)) with empty_state. rewrite db_map_empty, lookup_empty. split; [set_solver|by intros []].
  - intros u v r i. change (nd_db (node_of empty_state silent)) with empty_state. by rewrite db_map_empty, !lookup_empty.
  - intros k w. change (nd_db (node_of empty_state silent)) with empty_state. rewrite db_map_empty. by intros ?%lookup_empty_Some.
Qed.
Definition backup_ops : list (@BackupOp concrete_env) :=
  [BCreate alice (lit "algorithm"); BAddSession alice (lit "1") room1 (lit "s") (lit "secret"); BDeleteAll alice (lit "2")].

Lemma backup_refinement_witness :
  ∃ B', backup_run (MkBackups ∅ ∅) backup_ops B' ∧ holds (foldl serve_backup (node_of empty_state silent) backup_ops) B' ∧
    bk_sessions B' !! (alice, lit "1", room1, lit "s") = Some b#"secret".
Proof.
  destruct (backup_refinement backup_ops (node_of empty_state silent) (MkBackups ∅ ∅) no_backups) as (B' & HB & Hh).
  exists B'. split; [exact HB|]. split; [exact Hh|]. rewrite (holds_sessions _ _ Hh).
  by_compute.
Defined.

(** ** Push rules *)

Definition rules_state : @State concrete_env :=
  after (ClientData.update None alice (lit "m.push_rules") (push_rules_value no_rules)) empty_state.
Lemma account_inv_empty : AccountInv empty_state.
Proof. split; intros k v; rewrite db_map_empty; by intros ?%lookup_empty_Some. Qed.
Lemma rules_state_inv : AccountInv rules_state ∧ rules_are (node_of rules_state silent) alice no_rules.
Proof.
  destruct (update_correct room_ids_not_empty None alice (lit "m.push_rules") (push_rules_value no_rules) empty_state
    account_inv_empty count_ok_empty (push_rules_fields no_rules)) as (s' & E & HI & Eg & _).
  assert (rules_state = s') as -> by (unfold rules_state, after; by rewrite E).
  split; [exact HI|]. exists (to_raw_value (push_rules_value no_rules)).
  change (nd_db (node_of s' silent)) with s'. rewrite Eg. split; [done|apply push_rules_read].
Qed.
Definition mute : RuleOp := SetRule (NewRoom (lit "!one") [DontNotify]).

Lemma push_rules_changed_witness :
  ∃ n' R', rule_route alice mute (node_of rules_state silent) = (Ok (), n') ∧ rules_are n' alice R' ∧
    MkAnyPushRule [DontNotify] false true (lit "!one") None None ∈ rules_of_kind KRoom R'.
Proof.
  destruct rules_state_inv as [HI HR].
  destruct (push_rules_changed room_ids_not_empty alice mute no_rules (node_of rules_state silent)) as (n' & R' & E & _ & HR' & H & _).
  - exact HI.
  - by_compute.
  - exact HR.
  - exists n', R'. split; [exact E|]. split; [exact HR'|]. apply H. reflexivity.
Defined.

(** ** Directory and search *)

Definition listed (r : string) : @PublicRoomsChunk concrete_env :=
  MkChunk None None 1 None false false None PublicRoom None (mk_room r).

(** Three rooms on pages of two. *)
Lemma directory_pages_witness :
  follow_next 4 (listed <$> ["!a"; "!b"; "!c"]) 2 None = Some (listed <$> ["!a"; "!b"; "!c"]).
Proof.
  destruct (directory_pages (listed <$> ["!a"; "!b"; "!c"]) 2) as [H _]; [by_compute|exact H].
Defined.

Definition searched : @State concrete_env :=
  put userroomid_joined (idkey alice room1) [] (put pduid_pdu (to_be_bytes 5 ++ to_be_bytes 9) (to_vec (event "$m" [])) search_state).
Definition search_request : Request (option SearchCriteria * option rstr) :=
  MkRequest (Some (MkCriteria (lit "cat") (Some [room1]) None), None) (Some alice) (Some phone) None None false.

Lemma search_events_joined_witness :
  ∃ resp n' ev, search_events_route search_request (node_of searched silent) = (Ok resp, n') ∧ sr_results resp = [Some ev] ∧
    ∃ r id pdu, r ∈ [room1] ∧ get_pdu_from_id id searched = (Ok (Some pdu), searched) ∧ ev = to_room_event pdu.
Proof.
  destruct (search_events_route search_request (node_of searched silent)) as [r n'] eqn:E.
  assert (match (search_events_route search_request (node_of searched silent)).1 with
          | Ok resp => match sr_results resp with [Some _] => true | _ => false end | _ => false end = true) as H
    by (vm_compute; reflexivity).
  rewrite E in H. cbn [fst] in H. destruct r as [resp|e|e]; [|discriminate H..].
  destruct (sr_results resp) as [|[ev|] [|]] eqn:Er; try discriminate H.
  destruct (search_events_joined search_request (MkCriteria (lit "cat") (Some [room1]) None) alice (node_of searched silent) resp n')
    as (rooms & Hr & _ & Hev); [reflexivity..|exact E|].
  exists resp, n', ev. split; [reflexivity|]. split; [exact Er|].
  destruct (Hev ev) as (r & id & pdu & Hin & _ & Hg & ->); [rewrite Er; left|].
  exists r, id, pdu. cbn in Hr. subst rooms. split_and!; [exact Hin|exact Hg|reflexivity].
Defined.

(** ** Media *)

(** An image of 1000 by 500 points for a request of 400 by 300. *)
(** An image of 1000 by 500. *)
Definition wide_image : bytes := pos_bytes (encode ((1000, 500) : N * N)).
Definition no_media : MediaNode := MkMedia (node_of empty_state silent) ∅.
Lemma blank_unknown mxc w h : unknown mxc w h (md_node no_media).
Proof.
  intros k v. change (nd_db (md_node no_media)) with empty_state. rewrite db_map_empty. by intros ?%lookup_empty_Some.
Qed.
Lemma thumbnail_fits_witness :
  ∃ r md' picture, get_thumbnail (lit "mxc://a.org/x") 400 300 (stored (lit "mxc://a.org/x") 0 0 None None wide_image no_media) = (r, md') ∧
    fits (1000, 500) 640 480 false picture.
Proof.
  pose proof (thumbnail_fits (lit "mxc://a.org/x") 400 300 640 480 false None None wide_image ((1000, 500) : N * N) no_media
    ltac:(by_compute) (blank_unknown _ _ _) (blank_unknown _ _ _)) as H.
  specialize (H ltac:(unfold wide_image; change (bytes_pos (pos_bytes (encode ((1000, 500) : N * N))) ≫= decode = Some ((1000, 500) : N * N));
    rewrite bytes_pos_bytes; apply decode_encode) ltac:(by_compute) ltac:(by_compute)).
  cbv zeta in H. destruct (get_thumbnail _ _ _ _) as [r md'] eqn:E. destruct H as [_ H]. rewrite decide_False in H.
  - destruct H as (picture & Hf & _). exists r, md', picture. split; [reflexivity|exact Hf].
  - apply (bool_decide_unpack (¬ _)). vm_compute. exact I.
Defined.

Definition far_file : ContentRequest := MkContentRequest friend (lit "abc") true.
Definition file_request (r : ContentRequest) : Request ContentRequest := MkRequest r (Some alice) (Some phone) None None false.

Lemma remote_file_cached_witness :
  ∃ md', get_content_route (file_request far_file) no_media = (Ok (MkContent b#"file" None None), md') ∧
    get_content_route (file_request (MkContentRequest friend (lit "abc") false)) md' =
      (Ok (MkContent b#"file" (Some (lit "")) None), md').
Proof.
  exact (remote_file_cached (file_request far_file) (file_request (MkContentRequest friend (lit "abc") false))
    (MkContent b#"file" None None) no_media (node_of empty_state silent) ltac:(by_compute)
    ltac:(intros k v; change (md_node no_media) with (node_of empty_state silent); change (nd_db (node_of empty_state silent)) with empty_state;
          rewrite db_map_empty; by intros ?%lookup_empty_Some)
    eq_refl eq_refl eq_refl eq_refl).
Defined.

(** ** Requests to other servers *)

Definition plain_http : @OutgoingHttp := MkOut (lit "GET") (lit "/ping") [].

Lemma signed_request_accepted_witness :
  ∃ header x content, sign_request plain_http friend = Ok (Some header) ∧ x_matrix_decode header = Some x ∧ xm_origin x = server_name ∧
    content = None ∧ obj_get (lit "method") (signed_map (lit "GET") (lit "/ping") friend x content) = Some (JStr (lit "GET")).
Proof.
  assert (∃ m, outgoing_map plain_http friend = Ok m) as [m Em] by (eexists; reflexivity).
  destruct (signed_request_accepted plain_http friend m (lit "ed25519:1") (lit "00")) as (h & x & c & Es & Ex & Eo & Ec & Emap);
    [exact Em|reflexivity|reflexivity|reflexivity|by_compute|by_compute|by_compute|by_compute|].
  exists h, x, c. split; [exact Es|]. split; [exact Ex|]. split; [exact Eo|].
  split; [exact Ec|]. change (out_method plain_http) with (lit "GET") in Emap. change (out_path_and_query plain_http) with (lit "/ping") in Emap.
  rewrite Emap. injection Em as <-. by_compute.
Defined.

#[export] Instance ping_out : OutgoingRequest unit bool := {|
  try_into_http_request base r := Some plain_http;
  try_from_http_response status b := Some (bool_decide (b = b#"pong")) |}.

Definition idle_net : @Net concrete_env concrete_net := @MkNet concrete_env concrete_net () ∅ ∅.

(** The answer of the server is remembered, and the next request needs no look-up. *)
Lemma destination_remembered_witness :
  ∃ n' e, send_request (A := bool) friend () idle_net = (Ok true, n') ∧ actual_destination_cache n' !! friend = Some e.
Proof.
  destruct (send_request (A := bool) friend () idle_net) as [r n'] eqn:E.
  assert ((send_request (A := bool) friend () idle_net).1 = Ok true) as H by (apply result_is; vm_compute; reflexivity).
  rewrite E in H. cbn [fst] in H. subst r.
  destruct (destination_remembered friend () idle_net (Ok true) n' E) as (actual & host & n1 & http & header & answer & _ & _ & _ & _ & _ & Ec & _).
  exists n', (actual, host). split; [reflexivity|]. rewrite Ec. apply lookup_insert_eq.
Defined.

(** ** Transactions *)

Definition queued : @State concrete_env := put pduid_pdu b#"id" (to_vec (signed_object create_pdu)) empty_state.

Lemma transaction_complete_witness :
  ∃ r n' pdus edus, handle_events (Normal friend) [SPdu b#"id"; SEdu b#"broken"] (node_of queued silent) = (r, n') ∧
    Assembled queued [SPdu b#"id"; SEdu b#"broken"] pdus edus ∧ length pdus = 1%nat.
Proof.
  pose proof (transaction_complete friend [SPdu b#"id"; SEdu b#"broken"] (node_of queued silent)) as H.
  pose proof (outcome_is (handle_events (Normal friend) [SPdu b#"id"; SEdu b#"broken"]) (node_of queued silent) ()) as E.
  specialize (E ltac:(vm_compute; reflexivity)). rewrite E in H.
  destruct H as [[(pdus & edus & r' & HA & _) _]|(_ & _ & e & [=])].
  exists (Ok ()). eexists. exists pdus, edus. split; [exact E|]. change (nd_db (node_of queued silent)) with queued in HA. split; [exact HA|].
  inversion HA as [|? ? ? ? ? pdus' ? _ _ _ HA'| |]; subst. cbn. f_equal. by inversion HA' as [| |? ? ? ? ? _ HN|? ? ? ? _ HN]; inversion HN.
Defined.

(** ** Start *)

(** A server of this name with a presence, in a database of some version. *)
Abbreviation conduit := (mk_user "@conduit:a.org").
Definition old_server (version : N) : MediaNode :=
  MkMedia (node_of (put presenceid_presence b#"p" b#"online" (put userid_password (idb conduit) []
    (put global b#"version" (to_be_bytes version) empty_state))) silent) ∅.


(** ** Admin commands *)

(** Alice is an admin, carol is not, and both are on the list. *)
Definition admin_state : @State concrete_env :=
  put userid_password (idb alice) b#"$a" (put userid_password (idb carol) b#"$c"
    (put userroomid_joined (idkey alice room1) [] (put alias_roomid b#"admins" (idb room1) empty_state))).

Lemma admins_spared_witness :
  ∃ r n', deactivate_all_command true false [fence; as_str alice; as_str carol; fence] (node_of admin_state silent) = (r, n') ∧
    db_map (nd_db n') userid_password !! idb alice = Some b#"$a" ∧ db_map (nd_db n') userid_password !! idb carol = Some [].
Proof.
  destruct (deactivate_all_command true false [fence; as_str alice; as_str carol; fence] (node_of admin_state silent)) as [r n'] eqn:E.
  assert (bool_decide (db_map (nd_db (deactivate_all_command true false [fence; as_str alice; as_str carol; fence] (node_of admin_state silent)).2)
    userid_password !! idb carol = Some []) = true) as H by (vm_compute; reflexivity).
  rewrite E in H. apply bool_decide_eq_true_1 in H.
  exists r, n'. split; [reflexivity|]. split; [|exact H].
  destruct (admins_spared true [fence; as_str alice; as_str carol; fence] alice (node_of admin_state silent) r n') as [Ha _];
    [|by_compute|exact E|rewrite Ha; by_compute].
  destruct (is_admin_read alice admin_state) as [x Ex].
  assert (is_admin alice admin_state = (Ok true, (is_admin alice admin_state).2)) as Et by (apply outcome_is; vm_compute; reflexivity).
  change (nd_db (node_of admin_state silent)) with admin_state. rewrite Ex in Et |- *. injection Et as ->. reflexivity.
Defined.
